(* ===== verification/_CoqProject ===== *)
-Q . S2P
Prelude.v
Json.v
GoText.v
Sha256.v
Float.v
GoTime.v
Python.v
Encoding.v
Wire.v
SeqWindow.v
FrameStore.v
Buffer.v
Pump.v
Schema.v
Uplink.v
Pipeline.v
Sdk.v
PointList.v
Normalizer.v
Dispatch.v
MqttTopics.v
MqttSync.v
MqttSession.v
MqttIngest.v
Transport.v
MqttMain.v
Provisioning.v
PointSync.v
Catalog.v
ClockConfig.v
ClockSync.v
Lifecycle.v
RunLedger.v
ClockWorker.v
ClockGateway.v
ClockRecovery.v
ClockProcess.v
ClockText.v
BacnetConfig.v
BacnetRuntime.v
BacnetPoll.v
BacnetWrite.v
ClockDrain.v
Logging.v
Health.v
Simulation.v
HostMetrics.v
AdminApi.v
GatewayMain.v
Shutdown.v
