(* ===== verification/Prelude.v ===== *)
(** * Nexus Gateway: a verification development

    The gateway moves building telemetry from field connectors to Building OS
    and control commands the other way.  Connectors publish events to a NATS
    stream; the normalizer maps their native addresses to points with the point
    list; frames are written to a bounded SQLite buffer and forwarded over gRPC
    until Building OS accepts them.  Commands come down a second stream, are
    checked against the point list and sent to a connector.  The point list and
    the connectors' containers are kept up to date in the background, and an
    Admin API shows and steers the whole.  With clock provisioning one managed
    BACnet connector is configured, started and stopped by a transaction instead.

    ** Layout

    Every file opens with what it models.  Names are the source's; a prefix
    (as in [ex_Stop], [rr_Hold], [g_Drain]) stands for the Go receiver type.

    The language and its standard library:
    - [Prelude]: machine integers, results, lists, the hint database [gw] and the
      tactics the other files share;
    - [Json], [Encoding]: [encoding/json], [encoding/base64]; [GoText]: [strings],
      [encoding/csv], regular expressions; [Float]: [float64]; [GoTime]:
      [time.ParseDuration]; [Sha256];
    - [Python]: Python's [json], the text of its floats and of its times.

    The telemetry path:
    - [Wire]: the protobuf messages of [src/proto]; [FrameStore]: the SQL
      statements of the buffer as an interface with its laws;
    - [SeqWindow], [Buffer], [Pump], [Schema]: [src/internal/storeforward];
      [Uplink]: [src/internal/uplink] and [src/internal/retry];
    - [Pipeline]: pump, buffer and uplink as one transition system with crashes;
    - [Normalizer]: [src/internal/common] and [src/internal/normalizer].

    The point list and commands:
    - [PointList]: [src/internal/pointlist]; [Provisioning]: the point list
      clients of [src/internal/provisioning]; [PointSync]:
      [src/internal/pointsync]; [Transport]: [src/internal/transport];
    - [Dispatch]: [src/internal/dispatch] and [src/internal/egress].

    Connectors:
    - [Sdk]: [src/connector/sdk]; [MqttTopics], [MqttIngest], [MqttSession]:
      [src/connector/mqtt]; [MqttMain]: [src/cmd/mqtt-connector] and the health
      and metrics of the SDK; [MqttSync]: [src/internal/mqttsync];
    - [Catalog]: [src/internal/catalog]; [Lifecycle]: [src/internal/lifecycle];
    - [BacnetConfig] ([config.py]), [BacnetRuntime] ([managed.py]), [BacnetPoll]
      ([connector.py], [event.py]), [BacnetWrite] ([command.py],
      [write_handler.py]): the Python connector of [src/connector/bacnet];
    - [Simulation]: [src/connector/sim], [src/cmd/sim-connector], its start in the
      gateway, and the services of [src/internal/mockbos].

    Clock provisioning:
    - [ClockConfig]: [clock.go] and [clock_http.go] of
      [src/internal/provisioning]; [RunLedger]: [src/internal/runcontext];
    - [ClockSync], [ClockWorker], [ClockGateway], [ClockRecovery], [ClockDrain]:
      [src/internal/clocksync]; [ClockProcess]: its start in a process, its loops,
      and lives of a process one after the other; [ClockText]: the text of a
      staged snapshot, as the connector reads it.

    The process:
    - [Logging]: [src/internal/logging], the recorder apart; [Health]: health,
      probes and the log recorder; [HostMetrics]: the figures of the process in
      [src/internal/lifecycle/health.go]; [AdminApi]: [src/internal/adminapi];
      [GatewayMain]: [src/cmd/gateway] and [src/cmd/clock-config]; [Shutdown]: its
      end.

    ** How code becomes definitions

    State is a record and an operation a function on it; an operation with an
    error return yields a [result].  Code outside the repository (SQLite,
    protobuf, NATS, gRPC, Docker, MQTT brokers, token libraries) is a type class
    with one member per call.  Its laws, where a theorem needs any, state the
    documented behaviour, and each class with laws has an instance, so that no
    theorem is vacuous; most classes have none, so every answer and every failure
    is possible.  Integers are kept at their width; a wrap is written [i64] or
    [u64].  Where the order of a Go map is visible it is an argument.  Goroutines
    that share state are steps of a relation ([Pipeline], [ClockDrain],
    [MqttSession]), and so are coroutines of Python between two awaits
    ([BacnetRuntime]), or operations between which any other operation may run ([Pump]); code under a
    lock is one step.

    ** What the theorems show

    - Telemetry.  A message acknowledged to JetStream is accepted by Building OS,
      counted as drift of its point, counted as lost at capacity, or still past the
      durable cursor, for every interleaving and crash ([Pipeline]); the buffer is a
      ring of the newest frames whose counters account for every eviction
      ([Buffer]); the pump writes each message once ([Pump], [SeqWindow]); an
      interrupted schema upgrade is finished by the next one ([Schema]); a drain
      whose reads succeed sends everything and checkpoints it ([Uplink]).
    - Commands.  Only writable points are written, through their own connector,
      and a command id is executed once ([Dispatch], [Sdk]).
    - Point list.  The resolver holds exactly the revision the loop reports, unless
      a diff since the last full list gave a changed point the old address of
      another point it lists ([PointSync]); a fallback client never goes back to its file
      ([Provisioning]).
    - MQTT.  Filters match as the protocol says, an apply to a session in step
      converges or is refused with every filter kept ([MqttTopics], [MqttSync]), and
      every received message is dropped for a stated reason or stored before it is
      acknowledged ([MqttIngest]).
      Whatever the order of link losses, reconnects and applies, the broker holds
      what the connector's index needs, a callback that overlaps an apply apart
      ([MqttSession]); an environment that is accepted is one the connector can
      run with ([MqttMain]).
    - Lifecycle.  What an update leaves is known for each of its outcomes, a failed
      rollback included, and it makes no container but of a verified manifest or of
      the way back; connectors do not disturb each other ([Lifecycle]).
    - Clock provisioning.  A staged snapshot is consistent and hashes to its
      revision ([ClockConfig]); traffic is admitted only while connector and
      resolver run the applied snapshot ([ClockSync], [ClockGateway]); nothing is
      in flight behind the barrier ([ClockDrain]); a restart finds the applied
      snapshot whatever write failed ([ClockRecovery]), and so does every process
      of a sequence of them ([ClockProcess]); an event is acknowledged
      only when the frame of its own session is stored, and labelled by a valid run
      only ([ClockWorker], [RunLedger]); a producer that hangs is never replaced
      ([ClockGateway]).
    - The gateway and the BACnet connector together, byte for byte.  The container
      the gateway starts for a session configures itself from the staged snapshot
      ([BacnetConfig]); a receipt of a quiesce that says paused is a barrier in
      every order of the connector's coroutines ([BacnetRuntime]); the time quality
      of an event follows from the reads of its clock, and what the device answered in
      a clocked poll, values JSON cannot carry apart, is published and taken by the
      gateway with its value and time ([BacnetPoll]); a command becomes one write
      ([BacnetWrite]).
    - Process.  Nothing but public documents is reachable without a role
      ([AdminApi]); a process that starts has one writer of the buffer and one
      origin of the point list ([GatewayMain]); it closes the buffer after its
      users, or after the grace periods of the pipeline and of the Admin API's
      requests ([Shutdown]); a logged NATS address holds no
      credentials ([Logging]); the disk is read at most once per period and the
      share of the processor is never negative ([HostMetrics]).

    ** Fuel and bounds

    Loops that are not structural carry fuel.  [Uplink]: a drain reads at least
    one row per round, and the theorem gives the fuel the backlog needs.
    [Json]: the scanner's fuel is the length of its input.  [ClockConfig]: the
    attempts of a fetch are bounded by its options, and the theorem says that it
    returns.  [Lifecycle]: a soak runs over the list of polls; [None] is a soak
    that has not ended.  [ClockDrain] has no fuel: it is a relation.

    ** Not modelled

    - The text of log lines, error messages and reasons where nothing reads them,
      and the bytes of the Admin API's JSON documents.
    - Flag parsing, the readings of the Go runtime and of the disk, timing beyond the
      order of events, and which goroutine wins a race the code leaves open.
    - How [net/url] reads a host, which differs between releases of Go: a
      parameter of [Logging] that may be any function.
    - [src/internal/metrics] and [src/internal/version]: counters, flags and build
      constants, which the models hold in their own state or take as arguments.
    - Of the BACnet connector: its client over the BACnet library, whose answers
      are an interface; change-of-value subscriptions and the poll loop without a
      session; its health endpoint and process start.
    - [src/gen] (generated), test support ([testbroker], [testca], [src/test]), the
      listener of [src/cmd/mockbos], the OPC UA connector on the JVM and the browser
      front end, which meet the gateway only through NATS and HTTP. *)

From Stdlib Require Import ZArith Lia Bool Ascii String List.
From stdpp Require Import base list strings gmap.

#[export] Set Default Goal Selector "!".
#[global] Open Scope Z_scope.

Declare Scope go_scope.
Delimit Scope go_scope with go.

(** ** Machine integers

    [int], [int64] and [atomic.Int64] wrap in two's complement; [uint64] wraps
    modulo [2^64]. *)

Definition two64 : Z := 2 ^ 64.
Definition u64 (z : Z) : Z := z mod 2 ^ 64.
Definition i64 (z : Z) : Z := (z + 2 ^ 63) mod 2 ^ 64 - 2 ^ 63.
Definition in_i64 (z : Z) : Prop := - 2 ^ 63 <= z < 2 ^ 63.
Definition in_u64 (z : Z) : Prop := 0 <= z < 2 ^ 64.

Notation "a +64 b" := (i64 (a + b)) (at level 50, left associativity) : go_scope.
Notation "a -64 b" := (i64 (a - b)) (at level 50, left associativity) : go_scope.

Lemma u64_small z : in_u64 z -> u64 z = z.
Proof. unfold in_u64, u64. intros. apply Z.mod_small. lia. Qed.

Lemma i64_small z : in_i64 z -> i64 z = z.
Proof. unfold in_i64, i64. intros. rewrite Z.mod_small; lia. Qed.

Lemma u64_range z : in_u64 (u64 z).
Proof. unfold in_u64, u64. apply Z.mod_pos_bound. lia. Qed.

Lemma i64_range z : in_i64 (i64 z).
Proof.
  unfold in_i64, i64.
  pose proof (Z.mod_pos_bound (z + 2 ^ 63) (2 ^ 64) ltac:(lia)). lia.
Qed.

(** A wrapped value differs from the exact one by a multiple of [2^64]. *)
Lemma i64_congr z : (i64 z) mod 2 ^ 64 = z mod 2 ^ 64.
Proof.
  unfold i64. rewrite Zminus_mod_idemp_l. f_equal. lia.
Qed.

(** ** Results

    A Go function with an error return is a [result]. *)

Inductive result (E A : Type) : Type :=
| Ok (a : A)
| Err (e : E).
Arguments Ok {E A} a.
Arguments Err {E A} e.

Definition result_bind {E A B} (r : result E A) (k : A -> result E B) : result E B :=
  match r with Ok a => k a | Err e => Err e end.

Notation "'let!' x ':=' r 'in' k" := (result_bind r (fun x => k))
  (at level 10, x pattern, r at level 100, k at level 200)
  : go_scope.

Definition is_ok {E A} (r : result E A) : bool :=
  match r with Ok _ => true | Err _ => false end.

Lemma result_bind_ok {E A B} (r : result E A) (k : A -> result E B) b :
  result_bind r k = Ok b -> exists a, r = Ok a /\ k a = Ok b.
Proof. destruct r; simpl; [eauto | discriminate]. Qed.

(** ** Automation *)

Create HintDb gw.
#[export] Hint Resolve u64_range i64_range : gw.

(** Splits every boolean connective in the context into propositions. *)
Ltac bools :=
  repeat match goal with
  | H : _ && _ = true |- _ => apply andb_prop in H; destruct H
  | H : _ || _ = false |- _ => apply orb_false_elim in H; destruct H
  | H : negb _ = true |- _ => apply negb_true_iff in H
  | H : negb _ = false |- _ => apply negb_false_iff in H
  | H : (_ <? _) = true |- _ => apply Z.ltb_lt in H
  | H : (_ <? _) = false |- _ => apply Z.ltb_ge in H
  | H : (_ <=? _) = true |- _ => apply Z.leb_le in H
  | H : (_ <=? _) = false |- _ => apply Z.leb_gt in H
  | H : (_ =? _) = true |- _ => apply Z.eqb_eq in H
  | H : (_ =? _) = false |- _ => apply Z.eqb_neq in H
  end.

(** Case analysis on the innermost [if] or [match] scrutinee of the goal. *)
Ltac case_if :=
  match goal with
  | |- context [if ?b then _ else _] => let E := fresh "E" in destruct b eqn:E
  end.

(** ** Lists *)

Lemma filter_all {A} (p : A -> bool) l :
  (forall x, In x l -> p x = true) -> List.filter p l = l.
Proof.
  induction l as [|a l IH]; intros H; simpl; [reflexivity|].
  rewrite (H a (or_introl eq_refl)). f_equal. apply IH. intros. apply H. right. assumption.
Qed.

Lemma filter_none {A} (p : A -> bool) l :
  (forall x, In x l -> p x = false) -> List.filter p l = [].
Proof.
  induction l as [|a l IH]; intros H; simpl; [reflexivity|].
  rewrite (H a (or_introl eq_refl)). apply IH. intros. apply H. right. assumption.
Qed.
