(* ===== verification/Json.v ===== *)
(** * JSON as [encoding/json] reads and writes it

    The gateway's wire formats (connector events, write requests, the persisted
    point list, the run ledger) go through Go's [encoding/json].  This file
    models the part of that package the sources use: the value tree, the
    scanner with its string unquoting (escapes, surrogate pairs, replacement of
    invalid UTF-8) and number grammar, the nesting limit, the encoder's string
    quoting with HTML escaping, and field matching of struct decoding.  It ends
    with the round trip: what the encoder writes for a valid tree, the decoder
    reads back. *)

From Stdlib Require Import ZArith Lia Bool Ascii String List.
From stdpp Require Import base list strings.
From S2P Require Import Prelude.
#[local] Open Scope string_scope.
#[local] Open Scope Z_scope.

#[local] Arguments String.append !_ _ /.

#[local] Unset Elimination Schemes.
Inductive json : Type :=
| JNull
| JBool (b : bool)
| JNum (lit : string)
| JStr (s : string)
| JArr (l : list json)
| JObj (l : list (string * json)).
#[local] Set Elimination Schemes.

(** ** Bytes *)

Definition code (c : ascii) : Z := Z.of_N (N_of_ascii c).
Definition chr (z : Z) : ascii := ascii_of_N (Z.to_N z).

Lemma chr_code c : chr (code c) = c.
Proof. unfold chr, code. rewrite N2Z.id. apply ascii_N_embedding. Qed.

Lemma code_bound c : 0 <= code c < 256.
Proof. unfold code. pose proof (N_ascii_bounded c). lia. Qed.

Definition between (lo hi z : Z) : bool := (lo <=? z) && (z <=? hi).
Definition str1 (z : Z) : string := String (chr z) "".

Definition is_space (c : ascii) : bool :=
  let k := code c in (k =? 32) || (k =? 9) || (k =? 10) || (k =? 13).
Definition is_digit (c : ascii) : bool := between 48 57 (code c).

Fixpoint skip_ws (s : string) : string :=
  match s with
  | String c r => if is_space c then skip_ws r else s
  | EmptyString => EmptyString
  end.

(** ** UTF-8 and UTF-16 *)

(** Length of the valid multi-byte sequence that starts with [c] and goes on
    in [r]; [0] when [c] does not start one ([utf8.DecodeRune]). *)
Definition utf8_len (c : ascii) (r : string) : nat :=
  let k := code c in
  let cont z := between 128 191 z in
  match r with
  | EmptyString => O
  | String c1 r1 =>
    let k1 := code c1 in
    if between 194 223 k then (if cont k1 then 2%nat else O)
    else match r1 with
    | EmptyString => O
    | String c2 r2 =>
      let k2 := code c2 in
      if between 224 239 k then
        if (if k =? 224 then between 160 191 k1
            else if k =? 237 then between 128 159 k1 else cont k1) && cont k2
        then 3%nat else O
      else match r2 with
      | EmptyString => O
      | String c3 _ =>
        if between 240 244 k then
          if (if k =? 240 then between 144 191 k1
              else if k =? 244 then between 128 143 k1 else cont k1)
             && cont k2 && cont (code c3)
          then 4%nat else O
        else O
      end
    end
  end.

(** [utf8.EncodeRune]. *)
Definition encode_rune (r : Z) : string :=
  if r <? 128 then str1 r
  else if r <? 2048 then str1 (192 + r / 64) ++ str1 (128 + r mod 64)
  else if r <? 65536 then
    str1 (224 + r / 4096) ++ str1 (128 + (r / 64) mod 64) ++ str1 (128 + r mod 64)
  else str1 (240 + r / 262144) ++ str1 (128 + (r / 4096) mod 64)
       ++ str1 (128 + (r / 64) mod 64) ++ str1 (128 + r mod 64).

Definition replacement : string := encode_rune 65533.

Definition is_surrogate (r : Z) : bool := between 55296 57343 r.

(** [utf16.DecodeRune] on a surrogate pair; [None] when the pair is invalid. *)
Definition utf16_pair (r1 r2 : Z) : option Z :=
  if between 55296 56319 r1 && between 56320 57343 r2
  then Some ((r1 - 55296) * 1024 + (r2 - 56320) + 65536) else None.

Definition hex_val (c : ascii) : option Z :=
  let k := code c in
  if between 48 57 k then Some (k - 48)
  else if between 97 102 k then Some (k - 87)
  else if between 65 70 k then Some (k - 55)
  else None.

Definition hex4 (a b c d : ascii) : option Z :=
  match hex_val a, hex_val b, hex_val c, hex_val d with
  | Some w, Some x, Some y, Some z => Some (((w * 16 + x) * 16 + y) * 16 + z)
  | _, _, _, _ => None
  end.

(** ** Reading strings *)

Definition prepend (p : string) (o : option (string * string)) : option (string * string) :=
  match o with Some (x, y) => Some (p ++ x, y) | None => None end.

(** The one-character escapes, by the byte after the backslash. *)
Definition simple_escape (e : ascii) : option ascii :=
  let k := code e in
  if (k =? 34) || (k =? 92) || (k =? 47) then Some e
  else if k =? 98 then Some (chr 8)
  else if k =? 102 then Some (chr 12)
  else if k =? 110 then Some (chr 10)
  else if k =? 114 then Some (chr 13)
  else if k =? 116 then Some (chr 9)
  else None.

(** Reads a string body up to its closing quote; returns the value and the
    input after the quote. *)
Fixpoint unquote (s : string) : option (string * string) :=
  match s with
  | EmptyString => None
  | String c r =>
    let k := code c in
    if k =? 34 then Some ("", r)
    else if k =? 92 then
      match r with
      | EmptyString => None
      | String e r1 =>
        match simple_escape e with
        | Some x => prepend (String x "") (unquote r1)
        | None =>
          if negb (code e =? 117) then None else
          match r1 with
          | String a (String b (String d (String f r2))) =>
            match hex4 a b d f with
            | None => None
            | Some rr =>
              if negb (is_surrogate rr) then prepend (encode_rune rr) (unquote r2)
              else
                match r2 with
                | String bs (String u (String a' (String b' (String d' (String f' r3))))) =>
                  match (if (code bs =? 92) && (code u =? 117)
                         then hex4 a' b' d' f' else None) with
                  | Some rr1 =>
                    match utf16_pair rr rr1 with
                    | Some dec => prepend (encode_rune dec) (unquote r3)
                    | None => prepend replacement (unquote r2)
                    end
                  | None => prepend replacement (unquote r2)
                  end
                | _ => prepend replacement (unquote r2)
                end
            end
          | _ => None
          end
        end
      end
    else if k <? 32 then None
    else if k <? 128 then prepend (String c "") (unquote r)
    else
      match utf8_len c r, r with
      | 2%nat, String c1 r1 => prepend (String c (String c1 "")) (unquote r1)
      | 3%nat, String c1 (String c2 r2) =>
          prepend (String c (String c1 (String c2 ""))) (unquote r2)
      | 4%nat, String c1 (String c2 (String c3 r3)) =>
          prepend (String c (String c1 (String c2 (String c3 "")))) (unquote r3)
      | _, _ => prepend replacement (unquote r)
      end
  end.

(** ** Reading numbers *)

Fixpoint span_digits (s : string) : string * string :=
  match s with
  | String c r =>
    if is_digit c then let '(d, t) := span_digits r in (String c d, t) else ("", s)
  | EmptyString => ("", "")
  end.

Definition scan_int (s : string) : option (string * string) :=
  match s with
  | String c r =>
    if code c =? 48 then Some (String c "", r)
    else if is_digit c then Some (span_digits s) else None
  | EmptyString => None
  end.

Definition scan_frac (s : string) : option (string * string) :=
  match s with
  | String c r =>
    if code c =? 46 then
      match span_digits r with
      | (EmptyString, _) => None
      | (d, t) => Some (String c d, t)
      end
    else Some ("", s)
  | EmptyString => Some ("", "")
  end.

Definition scan_exp (s : string) : option (string * string) :=
  match s with
  | String c r =>
    if (code c =? 101) || (code c =? 69) then
      let '(sign, r1) :=
        match r with
        | String g r' => if (code g =? 43) || (code g =? 45) then (String g "", r') else ("", r)
        | EmptyString => ("", r)
        end in
      match span_digits r1 with
      | (EmptyString, _) => None
      | (d, t) => Some (String c (sign ++ d), t)
      end
    else Some ("", s)
  | EmptyString => Some ("", "")
  end.

Definition scan_number (s : string) : option (string * string) :=
  let '(sign, s0) :=
    match s with
    | String c r => if code c =? 45 then (String c "", r) else ("", s)
    | EmptyString => ("", s)
    end in
  match scan_int s0 with
  | None => None
  | Some (i, s1) =>
    match scan_frac s1 with
    | None => None
    | Some (f, s2) =>
      match scan_exp s2 with
      | None => None
      | Some (e, s3) => Some (sign ++ i ++ f ++ e, s3)
      end
    end
  end.

(** ** Reading values *)

Fixpoint strip_prefix (p s : string) : option string :=
  match p, s with
  | EmptyString, _ => Some s
  | String a p', String b s' => if Ascii.eqb a b then strip_prefix p' s' else None
  | _, EmptyString => None
  end.

Definition literal (p : string) (v : json) (s : string) : option (json * string) :=
  match strip_prefix p s with Some r => Some (v, r) | None => None end.

(** [maxNestingDepth] of [encoding/json]. *)
Definition max_nesting : Z := 10000.

(** [parse_value] reads one value after optional white space; [parse_elems] and
    [parse_members] read the rest of an array or object from its first element.
    The fuel bounds the recursion, not the input: [parse] supplies enough. *)
Fixpoint parse_value (fuel : nat) (depth : Z) (s : string) : option (json * string) :=
  match fuel with
  | O => None
  | S fuel =>
    let s := skip_ws s in
    match s with
    | EmptyString => None
    | String c r =>
      let k := code c in
      if k =? 34 then
        match unquote r with Some (x, t) => Some (JStr x, t) | None => None end
      else if k =? 91 then
        if depth <=? 0 then None else
        match skip_ws r with
        | String c1 r1 =>
          if code c1 =? 93 then Some (JArr [], r1)
          else match parse_elems fuel (depth - 1) r with
               | Some (l, t) => Some (JArr l, t)
               | None => None
               end
        | EmptyString => None
        end
      else if k =? 123 then
        if depth <=? 0 then None else
        match skip_ws r with
        | String c1 r1 =>
          if code c1 =? 125 then Some (JObj [], r1)
          else match parse_members fuel (depth - 1) r with
               | Some (l, t) => Some (JObj l, t)
               | None => None
               end
        | EmptyString => None
        end
      else if k =? 116 then literal "true" (JBool true) s
      else if k =? 102 then literal "false" (JBool false) s
      else if k =? 110 then literal "null" JNull s
      else match scan_number s with
           | Some (lit, t) => Some (JNum lit, t)
           | None => None
           end
    end
  end
with parse_elems (fuel : nat) (depth : Z) (s : string) : option (list json * string) :=
  match fuel with
  | O => None
  | S fuel =>
    match parse_value fuel depth s with
    | None => None
    | Some (v, t) =>
      match skip_ws t with
      | String c r =>
        if code c =? 44 then
          match parse_elems fuel depth r with
          | Some (l, t') => Some (v :: l, t')
          | None => None
          end
        else if code c =? 93 then Some ([v], r) else None
      | EmptyString => None
      end
    end
  end
with parse_members (fuel : nat) (depth : Z) (s : string)
  : option (list (string * json) * string) :=
  match fuel with
  | O => None
  | S fuel =>
    match skip_ws s with
    | EmptyString => None
    | String q r0 =>
      if negb (code q =? 34) then None else
      match unquote r0 with
      | None => None
      | Some (key, t0) =>
        match skip_ws t0 with
        | EmptyString => None
        | String colon r1 =>
          if negb (code colon =? 58) then None else
          match parse_value fuel depth r1 with
          | None => None
          | Some (v, t) =>
            match skip_ws t with
            | String c r =>
              if code c =? 44 then
                match parse_members fuel depth r with
                | Some (l, t') => Some ((key, v) :: l, t')
                | None => None
                end
              else if code c =? 125 then Some ([(key, v)], r) else None
            | EmptyString => None
            end
          end
        end
      end
    end
  end.

(** One value and the input after it ([Decoder.Decode]). *)
Definition parse_prefix (s : string) : option (json * string) :=
  parse_value (2 * String.length s + 2) max_nesting s.

(** The whole input as one value ([json.Unmarshal]'s syntax check). *)
Definition parse (s : string) : option json :=
  match parse_prefix s with
  | Some (v, t) => if String.eqb (skip_ws t) "" then Some v else None
  | None => None
  end.

(** ** Writing values *)

Definition hex_digit (z : Z) : ascii := if z <? 10 then chr (48 + z) else chr (87 + z).

(** The escape [\uXXXX] of a code point below [65536]. *)
Definition escape_u (z : Z) : string :=
  String (chr 92) (String (chr 117)
    (String (hex_digit (z / 4096)) (String (hex_digit ((z / 256) mod 16))
      (String (hex_digit ((z / 16) mod 16)) (String (hex_digit (z mod 16)) ""))))).

Definition backslash (z : Z) : string := String (chr 92) (str1 z).

(** One ASCII byte inside a quoted string, with HTML escaping on. *)
Definition quote_byte (c : ascii) : string :=
  let k := code c in
  if k =? 34 then backslash 34
  else if k =? 92 then backslash 92
  else if k =? 8 then backslash 98
  else if k =? 12 then backslash 102
  else if k =? 10 then backslash 110
  else if k =? 13 then backslash 114
  else if k =? 9 then backslash 116
  else if (k <? 32) || (k =? 38) || (k =? 60) || (k =? 62) then escape_u k
  else String c "".

(** The three-byte sequences of U+2028 and U+2029, which are escaped. *)
Definition is_line_sep (c c1 c2 : ascii) : bool :=
  (code c =? 226) && (code c1 =? 128) && between 168 169 (code c2).

Fixpoint quote_body (s : string) : string :=
  match s with
  | EmptyString => ""
  | String c r =>
    if code c <? 128 then quote_byte c ++ quote_body r
    else
      match utf8_len c r, r with
      | 2%nat, String c1 r1 => String c (String c1 (quote_body r1))
      | 3%nat, String c1 (String c2 r2) =>
          if is_line_sep c c1 c2 then escape_u (8232 + (code c2 - 168)) ++ quote_body r2
          else String c (String c1 (String c2 (quote_body r2)))
      | 4%nat, String c1 (String c2 (String c3 r3)) =>
          String c (String c1 (String c2 (String c3 (quote_body r3))))
      | _, _ => escape_u 65533 ++ quote_body r
      end
  end.

Definition quote (s : string) : string := str1 34 ++ quote_body s ++ str1 34.

(** The encoder, over its layout: [nl d] precedes an element at depth [d] and
    the end of a container, [cm] follows a comma and [sp] a colon; [qb] is how
    the text between the quotes of a string is written. *)
Section Print.
  Context (nl : nat -> string) (cm sp : string) (qb : string -> string).

Definition quote_with (s : string) : string := str1 34 ++ qb s ++ str1 34.

Fixpoint print_with (d : nat) (v : json) : string :=
  match v with
  | JNull => "null"
  | JBool true => "true"
  | JBool false => "false"
  | JNum lit => lit
  | JStr s => quote_with s
  | JArr l =>
    match l with
    | [] => "[]"
    | _ => "[" ++ String.concat ("," ++ cm) (map (fun x => nl (S d) ++ print_with (S d) x) l)
           ++ nl d ++ "]"
    end
  | JObj l =>
    match l with
    | [] => "{}"
    | _ => "{" ++ String.concat ("," ++ cm)
             (map (fun kv => nl (S d) ++ quote_with (fst kv) ++ ":" ++ sp ++ print_with (S d) (snd kv)) l)
           ++ nl d ++ "}"
    end
  end.
End Print.

(** [json.Marshal] and [json.MarshalIndent(v, "", "  ")]. *)
Definition marshal : json -> string := print_with (fun _ => "") "" "" quote_body 0.

Fixpoint spaces (n : nat) : string :=
  match n with O => "" | S k => "  " ++ spaces k end.
Definition marshal_indent : json -> string :=
  print_with (fun d => str1 10 ++ spaces d) "" " " quote_body 0.

(** ** Struct field matching *)

(** [foldName]: ASCII letters fold to upper case, and so do the two non-ASCII
    runes that share a folding orbit with an ASCII letter. *)
Fixpoint fold_name (s : string) : string :=
  match s with
  | EmptyString => ""
  | String c r =>
    let k := code c in
    if between 97 122 k then String (chr (k - 32)) (fold_name r)
    else
      match r with
      | String c1 r1 =>
        if (k =? 197) && (code c1 =? 191) then String "S" (fold_name r1)
        else
          match r1 with
          | String c2 r2 =>
            if (k =? 226) && (code c1 =? 132) && (code c2 =? 170)
            then String "K" (fold_name r2) else String c (fold_name r)
          | EmptyString => String c (fold_name r)
          end
      | EmptyString => String c (fold_name r)
      end
  end.

(** The field of a struct with JSON names [names] a key decodes into: an exact
    match, else a match up to case. *)
Definition match_field (names : list string) (key : string) : option string :=
  match List.find (String.eqb key) names with
  | Some f => Some f
  | None => List.find (fun f => String.eqb (fold_name f) (fold_name key)) names
  end.

(** ** Valid trees *)

Fixpoint valid_utf8 (s : string) : bool :=
  match s with
  | EmptyString => true
  | String c r =>
    if code c <? 128 then valid_utf8 r
    else
      match utf8_len c r, r with
      | 2%nat, String _ r1 => valid_utf8 r1
      | 3%nat, String _ (String _ r2) => valid_utf8 r2
      | 4%nat, String _ (String _ (String _ r3)) => valid_utf8 r3
      | _, _ => false
      end
  end.

Definition valid_num (lit : string) : bool :=
  match scan_number lit with
  | Some (l, EmptyString) => String.eqb l lit
  | _ => false
  end.

Fixpoint valid (v : json) : bool :=
  match v with
  | JNull | JBool _ => true
  | JNum lit => valid_num lit
  | JStr s => valid_utf8 s
  | JArr l => forallb valid l
  | JObj l => forallb (fun kv => valid_utf8 (fst kv) && valid (snd kv)) l
  end.

Fixpoint depth_of (v : json) : Z :=
  match v with
  | JArr l => 1 + fold_right (fun x m => Z.max (depth_of x) m) 0 l
  | JObj l => 1 + fold_right (fun kv m => Z.max (depth_of (snd kv)) m) 0 l
  | _ => 0
  end.

(** Fuel the parser needs for a value. *)
Fixpoint size_of (v : json) : nat :=
  match v with
  | JArr l => S (fold_right (fun x m => S (size_of x + m)) O l)
  | JObj l => S (fold_right (fun kv m => S (size_of (snd kv) + m)) O l)
  | _ => 1
  end.

(** Induction over trees with the hypotheses for the children in lists. *)
Lemma json_ind (P : json -> Prop) :
  P JNull -> (forall b, P (JBool b)) -> (forall l, P (JNum l)) -> (forall s, P (JStr s)) ->
  (forall l, Forall P l -> P (JArr l)) ->
  (forall l, Forall (fun kv => P (snd kv)) l -> P (JObj l)) ->
  forall v, P v.
Proof.
  intros Hn Hb Hu Hs Ha Ho. fix IH 1. intros [| b | lit | s | l | l].
  - exact Hn.
  - apply Hb.
  - apply Hu.
  - apply Hs.
  - apply Ha. induction l as [|x l IHl]; constructor; [apply IH | exact IHl].
  - apply Ho. induction l as [|[k v] l IHl]; constructor; [apply IH | exact IHl].
Qed.

(** ** Strings read back *)

Lemma append_nil_r s : s ++ "" = s.
Proof. induction s; simpl; congruence. Qed.
Lemma append_assoc_l (a b c : string) : (a ++ b) ++ c = a ++ b ++ c.
Proof. induction a; simpl; congruence. Qed.

Lemma unquote_quote_byte c t : code c < 128 ->
  unquote (quote_byte c ++ t) = prepend (String c "") (unquote t).
Proof.
  destruct c as [b0 b1 b2 b3 b4 b5 b6 b7].
  destruct b7; [intros H; exfalso; revert H|intros _].
  - destruct b0, b1, b2, b3, b4, b5, b6; vm_compute; discriminate.
  - destruct b0, b1, b2, b3, b4, b5, b6; reflexivity.
Qed.

(** A multi-byte sequence starts with a byte of at least 194, and its length
    depends on its own bytes only. *)
Lemma utf8_len_lead c r : utf8_len c r <> O -> 194 <= code c.
Proof.
  unfold utf8_len, between. destruct r as [|c1 r]; [easy|].
  destruct (Z.leb_spec 194 (code c)); [lia|].
  simpl. destruct r as [|c2 r]; [easy|].
  destruct (Z.leb_spec 224 (code c)); [lia|]. simpl. destruct r as [|c3 r]; [easy|].
  destruct (Z.leb_spec 240 (code c)); [lia|]. easy.
Qed.

Ltac utf8_cases :=
  repeat match goal with
  | |- context [match ?r with EmptyString => _ | String _ _ => _ end] => destruct r
  | |- context [if ?b then _ else _] => destruct b
  end; try discriminate; auto.

Lemma utf8_len2 c c1 r r' : utf8_len c (String c1 r) = 2%nat -> utf8_len c (String c1 r') = 2%nat.
Proof. unfold utf8_len. utf8_cases. Qed.
Lemma utf8_len3 c c1 c2 r r' :
  utf8_len c (String c1 (String c2 r)) = 3%nat -> utf8_len c (String c1 (String c2 r')) = 3%nat.
Proof. unfold utf8_len. utf8_cases. Qed.
Lemma utf8_len4 c c1 c2 c3 r r' :
  utf8_len c (String c1 (String c2 (String c3 r))) = 4%nat ->
  utf8_len c (String c1 (String c2 (String c3 r'))) = 4%nat.
Proof. unfold utf8_len. utf8_cases. Qed.

(** [unquote] on a byte that starts a multi-byte sequence. *)
Lemma unquote_high c r : 194 <= code c ->
  unquote (String c r) =
  match utf8_len c r, r with
  | 2%nat, String c1 r1 => prepend (String c (String c1 "")) (unquote r1)
  | 3%nat, String c1 (String c2 r2) => prepend (String c (String c1 (String c2 ""))) (unquote r2)
  | 4%nat, String c1 (String c2 (String c3 r3)) =>
      prepend (String c (String c1 (String c2 (String c3 "")))) (unquote r3)
  | _, _ => prepend replacement (unquote r)
  end.
Proof.
  intros H. cbn [unquote].
  destruct (Z.eqb_spec (code c) 34); [lia|]. destruct (Z.eqb_spec (code c) 92); [lia|].
  destruct (Z.ltb_spec (code c) 32); [lia|]. destruct (Z.ltb_spec (code c) 128); [lia|].
  reflexivity.
Qed.

Lemma code_inj a b : code a = code b -> a = b.
Proof.
  unfold code. intros H. apply N2Z.inj in H.
  rewrite <- (ascii_N_embedding a), <- (ascii_N_embedding b). congruence.
Qed.

Lemma line_sep_bytes c c1 c2 : is_line_sep c c1 c2 = true ->
  c = chr 226 /\ c1 = chr 128 /\ (c2 = chr 168 \/ c2 = chr 169).
Proof.
  unfold is_line_sep, between. intros. bools.
  repeat split; [apply code_inj; rewrite H; reflexivity | apply code_inj; rewrite H2; reflexivity |].
  assert (code c2 = 168 \/ code c2 = 169) as [E|E] by lia; [left|right]; apply code_inj;
    rewrite E; reflexivity.
Qed.

Lemma unquote_line_sep k t : code k = 168 \/ code k = 169 ->
  unquote (escape_u (8232 + (code k - 168)) ++ t)
  = prepend (String (chr 226) (String (chr 128) (String k ""))) (unquote t).
Proof.
  intros [E|E]; rewrite E; rewrite <- (ascii_N_embedding k);
    replace (N_of_ascii k) with (Z.to_N (code k)) by (unfold code; apply N2Z.id);
    rewrite E; reflexivity.
Qed.

Lemma prepend_app p q o : prepend p (prepend q o) = prepend (p ++ q) o.
Proof. destruct o as [[x y]|]; simpl; [rewrite append_assoc_l|]; reflexivity. Qed.

Lemma unquote_quote_body n : forall s rest, (String.length s < n)%nat -> valid_utf8 s = true ->
  unquote (quote_body s ++ rest) = prepend s (unquote rest).
Proof.
  induction n as [|n IH]; intros s rest Hn Hv; [lia|].
  destruct s as [|c r].
  { simpl. destruct (unquote rest) as [[x y]|]; reflexivity. }
  cbn [quote_body valid_utf8] in *. destruct (Z.ltb_spec (code c) 128).
  - rewrite append_assoc_l, unquote_quote_byte, IH, prepend_app by (simpl in Hn; lia || auto).
    reflexivity.
  - destruct (utf8_len c r) as [|[|[|[|[|]]]]] eqn:E; try discriminate;
      pose proof (utf8_len_lead c r ltac:(rewrite E; discriminate)).
    + destruct r as [|c1 r]; [discriminate|]. cbn [append].
      rewrite unquote_high, (utf8_len2 _ _ _ _ E), IH, prepend_app by (simpl in Hn; lia || auto).
      reflexivity.
    + destruct r as [|c1 [|c2 r]]; try discriminate.
      destruct (is_line_sep c c1 c2) eqn:El.
      * apply line_sep_bytes in El as (-> & -> & [-> | ->]);
          rewrite append_assoc_l, unquote_line_sep, IH, prepend_app
            by (simpl in Hn; lia || auto); reflexivity.
      * cbn [append].
        rewrite unquote_high, (utf8_len3 _ _ _ _ _ E), IH, prepend_app by (simpl in Hn; lia || auto).
        reflexivity.
    + destruct r as [|c1 [|c2 [|c3 r]]]; try discriminate. cbn [append].
      rewrite unquote_high, (utf8_len4 _ _ _ _ _ _ E), IH, prepend_app by (simpl in Hn; lia || auto).
      reflexivity.
Qed.

Lemma unquote_quote s rest : valid_utf8 s = true ->
  unquote (quote_body s ++ str1 34 ++ rest) = Some (s, rest).
Proof.
  intros H. rewrite (unquote_quote_body (S (String.length s))) by (lia || auto).
  change (prepend s (Some ("", rest)) = Some (s, rest)). simpl. rewrite append_nil_r. reflexivity.
Qed.

(** ** Numbers read back *)

(** Input that cannot continue a number. *)
Definition ends_number (rest : string) : bool :=
  match rest with
  | EmptyString => true
  | String c _ =>
    negb (is_digit c || (code c =? 46) || (code c =? 101) || (code c =? 69))
  end.

Lemma span_digits_app s rest : ends_number rest = true ->
  span_digits (s ++ rest) = let '(d, t) := span_digits s in (d, t ++ rest).
Proof.
  intros Hr. induction s as [|c s IH].
  - destruct rest as [|c r]; [reflexivity|]. simpl in Hr. bools. simpl. rewrite H. reflexivity.
  - simpl. destruct (is_digit c); [|reflexivity]. rewrite IH. destruct (span_digits s). reflexivity.
Qed.

Lemma scan_int_app s rest i t : ends_number rest = true ->
  scan_int s = Some (i, t) -> scan_int (s ++ rest) = Some (i, t ++ rest).
Proof.
  intros Hr. destruct s as [|c s]; [discriminate|]. cbn [scan_int append].
  destruct (code c =? 48); [intros [= <- <-]; reflexivity|].
  destruct (is_digit c); [|discriminate]. intros E.
  change (String c (s ++ rest)) with (String c s ++ rest).
  rewrite span_digits_app by assumption. destruct (span_digits (String c s)). congruence.
Qed.

Lemma scan_frac_app s rest f t : ends_number rest = true ->
  scan_frac s = Some (f, t) -> scan_frac (s ++ rest) = Some (f, t ++ rest).
Proof.
  intros Hr. destruct s as [|c s]; cbn [scan_frac append].
  - intros [= <- <-]. destruct rest as [|c r]; [reflexivity|]. simpl in Hr. bools.
    simpl. destruct (Z.eqb_spec (code c) 46); [congruence | reflexivity].
  - destruct (code c =? 46); [|intros [= <- <-]; reflexivity].
    rewrite span_digits_app by assumption.
    destruct (span_digits s) as [[|d ds] u]; [discriminate|]. intros [= <- <-]. reflexivity.
Qed.

Lemma scan_exp_app s rest e t : ends_number rest = true ->
  scan_exp s = Some (e, t) -> scan_exp (s ++ rest) = Some (e, t ++ rest).
Proof.
  intros Hr. destruct s as [|c s]; cbn [scan_exp append].
  - intros [= <- <-]. destruct rest as [|c r]; [reflexivity|]. simpl in Hr. bools.
    simpl. destruct (Z.eqb_spec (code c) 101), (Z.eqb_spec (code c) 69); try congruence; reflexivity.
  - destruct ((code c =? 101) || (code c =? 69)); [|intros [= <- <-]; reflexivity].
    destruct s as [|g s]; [discriminate|]. cbn [append].
    destruct ((code g =? 43) || (code g =? 45));
      [|change (String g (s ++ rest)) with (String g s ++ rest)];
      rewrite span_digits_app by assumption;
      match goal with |- context [span_digits ?x] => destruct (span_digits x) as [[|d ds] u] end;
      try discriminate; intros [= <- <-]; reflexivity.
Qed.

Lemma scan_number_app s rest l t : ends_number rest = true ->
  scan_number s = Some (l, t) -> scan_number (s ++ rest) = Some (l, t ++ rest).
Proof.
  intros Hr. unfold scan_number. destruct s as [|c s]; [discriminate|]. cbn [append].
  destruct (code c =? 45);
    [|change (String c (s ++ rest)) with (String c s ++ rest)];
    (match goal with |- context [scan_int ?x] => destruct (scan_int x) as [[i s1]|] eqn:Ei end;
     [|discriminate]);
    (destruct (scan_frac s1) as [[f s2]|] eqn:Ef; [|discriminate]);
    (destruct (scan_exp s2) as [[e s3]|] eqn:Ee; [|discriminate]);
    intros [= <- <-];
    rewrite (scan_int_app _ _ _ _ Hr Ei), (scan_frac_app _ _ _ _ Hr Ef), (scan_exp_app _ _ _ _ Hr Ee);
    reflexivity.
Qed.

Lemma valid_num_scan lit rest : valid_num lit = true -> ends_number rest = true ->
  scan_number (lit ++ rest) = Some (lit, rest).
Proof.
  unfold valid_num. intros Hv Hr. destruct (scan_number lit) as [[l [|]]|] eqn:E; try discriminate.
  apply String.eqb_eq in Hv as ->. apply (scan_number_app _ _ _ _ Hr E).
Qed.

(** A number literal starts with a minus sign or a digit. *)
Lemma valid_num_head lit : valid_num lit = true ->
  exists c r, lit = String c r /\ (code c = 45 \/ 48 <= code c <= 57).
Proof.
  unfold valid_num, scan_number. destruct lit as [|c r]; [discriminate|]. intros H.
  exists c, r. split; [reflexivity|]. destruct (Z.eqb_spec (code c) 45); [auto|right].
  unfold scan_int, is_digit, between in H. destruct (Z.eqb_spec (code c) 48); [lia|].
  destruct ((48 <=? code c) && (code c <=? 57)) eqn:E; [bools; lia | discriminate].
Qed.

(** ** Values read back *)

Fixpoint all_space (s : string) : bool :=
  match s with EmptyString => true | String c r => is_space c && all_space r end.

Lemma skip_ws_app w s : all_space w = true -> skip_ws (w ++ s) = skip_ws s.
Proof.
  induction w as [|c w IH]; simpl; [reflexivity|]. intros. bools. rewrite H. auto.
Qed.

Lemma ends_number_ws w s : all_space w = true -> ends_number s = true -> ends_number (w ++ s) = true.
Proof.
  destruct w as [|c w]; [auto|]. cbn [all_space append ends_number].
  intros H _. bools. unfold is_space, is_digit, between in *. lia.
Qed.

Lemma parse_value_ws w fuel depth s : all_space w = true ->
  parse_value fuel depth (w ++ s) = parse_value fuel depth s.
Proof. intros. destruct fuel; [reflexivity|]. cbn [parse_value]. rewrite skip_ws_app; auto. Qed.

Lemma skip_comma s : skip_ws ("," ++ s) = String "," s.
Proof. reflexivity. Qed.

Lemma strip_prefix_app p s : strip_prefix p (p ++ s) = Some s.
Proof. induction p; simpl; [reflexivity|]. rewrite Ascii.eqb_refl. assumption. Qed.

Section RoundTrip.
  Context (nl : nat -> string) (cm sp : string) (qb : string -> string).
  Hypothesis nl_space : forall d, all_space (nl d) = true.
  Hypothesis cm_space : all_space cm = true.
  Hypothesis sp_space : all_space sp = true.
  Hypothesis qb_read : forall s rest, valid_utf8 s = true -> unquote (qb s ++ str1 34 ++ rest) = Some (s, rest).

Lemma parse_elems_ws w fuel depth s : all_space w = true -> parse_elems fuel depth (w ++ s) = parse_elems fuel depth s.
Proof. intros H. destruct fuel; [reflexivity|]. cbn [parse_elems]. rewrite parse_value_ws by assumption. reflexivity. Qed.
Lemma parse_members_ws w fuel depth s : all_space w = true -> parse_members fuel depth (w ++ s) = parse_members fuel depth s.
Proof. intros H. destruct fuel; [reflexivity|]. cbn [parse_members]. rewrite skip_ws_app by assumption. reflexivity. Qed.

(** What a printed value starts with. *)
Definition starts_value (c : ascii) : Prop := is_space c = false /\ code c <> 93 /\ code c <> 125.

Lemma print_head d v : valid v = true ->
  exists c r, print_with nl cm sp qb d v = String c r /\ starts_value c.
Proof.
  destruct v as [| [] | lit | s | [|] | [|]]; cbn [valid print_with]; intros H;
    try (eexists _, _; split; [reflexivity | repeat split; vm_compute; congruence]).
  destruct (valid_num_head _ H) as (c & r & -> & Hc). exists c, r. split; [reflexivity|].
  unfold starts_value, is_space. lia.
Qed.

Definition reads_back (v : json) : Prop :=
  forall d fuel depth rest,
    valid v = true -> (size_of v <= fuel)%nat -> depth_of v <= depth -> ends_number rest = true ->
    parse_value fuel depth (print_with nl cm sp qb d v ++ rest) = Some (v, rest).

Lemma skip_print d v rest : valid v = true ->
  skip_ws (print_with nl cm sp qb d v ++ rest) = print_with nl cm sp qb d v ++ rest.
Proof.
  intros H. destruct (print_head d v H) as (c & r & -> & Hc & _). cbn [append skip_ws].
  rewrite Hc. reflexivity.
Qed.

Definition elems_text (d : nat) (l : list json) : string :=
  String.concat ("," ++ cm) (map (fun x => nl (S d) ++ print_with nl cm sp qb (S d) x) l).

Lemma elems_text_cons d v v' l :
  elems_text d (v :: v' :: l)
  = nl (S d) ++ print_with nl cm sp qb (S d) v ++ "," ++ cm ++ elems_text d (v' :: l).
Proof. unfold elems_text. cbn [map String.concat]. rewrite !append_assoc_l. reflexivity. Qed.

Lemma elems_read_back d l : Forall reads_back l -> l <> [] -> forall fuel depth rest,
  forallb valid l = true ->
  (fold_right (fun x m => S (size_of x + m)) O l <= fuel)%nat ->
  fold_right (fun x m => Z.max (depth_of x) m) 0 l <= depth ->
  parse_elems fuel depth (elems_text d l ++ nl d ++ "]" ++ rest) = Some (l, rest).
Proof.
  induction 1 as [|v l Hv _ IH]; [congruence|]. intros _ fuel depth rest Hval Hf Hd.
  cbn [forallb fold_right] in *. bools. destruct fuel as [|fuel]; [lia|]. cbn [parse_elems].
  destruct l as [|v' l].
  - unfold elems_text. cbn [String.concat map].
    rewrite append_assoc_l, parse_value_ws, Hv by (auto; try lia; apply ends_number_ws; auto).
    rewrite skip_ws_app by auto. reflexivity.
  - rewrite elems_text_cons, !append_assoc_l, parse_value_ws, Hv by (auto; try lia; reflexivity).
    rewrite skip_comma. change (code "," =? 44) with true. cbn match.
    rewrite parse_elems_ws by assumption. rewrite IH; [reflexivity | discriminate | assumption | lia | lia].
Qed.

Definition member_text (d : nat) (kv : string * json) : string :=
  nl (S d) ++ quote_with qb (fst kv) ++ ":" ++ sp ++ print_with nl cm sp qb (S d) (snd kv).
Definition members_text (d : nat) (l : list (string * json)) : string :=
  String.concat ("," ++ cm) (map (member_text d) l).

Lemma members_text_cons d kv kv' l :
  members_text d (kv :: kv' :: l) = member_text d kv ++ "," ++ cm ++ members_text d (kv' :: l).
Proof. unfold members_text. cbn [map String.concat]. rewrite !append_assoc_l. reflexivity. Qed.

(** The key and colon of a member. *)
Lemma parse_members_head fuel depth d k v rest :
  valid_utf8 k = true -> reads_back v -> valid v = true -> (size_of v <= fuel)%nat ->
  depth_of v <= depth -> ends_number rest = true ->
  parse_members (S fuel) depth (member_text d (k, v) ++ rest) =
  match skip_ws rest with
  | String c r =>
    if code c =? 44 then
      match parse_members fuel depth r with
      | Some (l, t') => Some ((k, v) :: l, t')
      | None => None
      end
    else if code c =? 125 then Some ([(k, v)], r) else None
  | EmptyString => None
  end.
Proof.
  intros Hk Hv Hval Hf Hd Hr. cbn [parse_members]. unfold member_text, quote_with. cbn [fst snd].
  rewrite !append_assoc_l, skip_ws_app by auto. cbn [append str1 skip_ws].
  change (is_space (chr 34)) with false. cbn match. change (code (chr 34) =? 34) with true.
  cbn [negb]. change (String (chr 34) (String ":" ?x)) with (str1 34 ++ String ":" x).
  rewrite qb_read by assumption. cbn [append skip_ws].
  change (is_space ":") with false. cbn match. change (code ":" =? 58) with true. cbn [negb].
  rewrite parse_value_ws, Hv by auto. reflexivity.
Qed.

Lemma members_read_back d l : Forall (fun kv => reads_back (snd kv)) l -> l <> [] ->
  forall fuel depth rest,
  forallb (fun kv => valid_utf8 (fst kv) && valid (snd kv)) l = true ->
  (fold_right (fun kv m => S (size_of (snd kv) + m)) O l <= fuel)%nat ->
  fold_right (fun kv m => Z.max (depth_of (snd kv)) m) 0 l <= depth ->
  parse_members fuel depth (members_text d l ++ nl d ++ "}" ++ rest) = Some (l, rest).
Proof.
  induction 1 as [|[k v] l Hv _ IH]; [congruence|].
  intros _ fuel depth rest Hval Hf Hd.
  cbn [forallb fold_right fst snd] in *. bools. destruct fuel as [|fuel]; [lia|].
  destruct l as [|kv' l].
  - unfold members_text. cbn [String.concat map].
    rewrite parse_members_head by (auto; try lia; apply ends_number_ws; auto).
    rewrite skip_ws_app by auto. reflexivity.
  - rewrite members_text_cons, !append_assoc_l, parse_members_head by (auto; try lia; reflexivity).
    rewrite skip_comma. change (code "," =? 44) with true. cbn match.
    rewrite parse_members_ws by assumption. rewrite IH; [reflexivity | discriminate | assumption | lia | lia].
Qed.

Lemma elems_text_head d v l rest : valid v = true ->
  exists c r, skip_ws (elems_text d (v :: l) ++ rest) = String c r /\ (code c =? 93) = false.
Proof.
  intros Hv. destruct (print_head (S d) v Hv) as (c & r & E & Hc & H93 & _).
  assert (exists t, elems_text d (v :: l) ++ rest = nl (S d) ++ String c r ++ t) as [t ->].
  { destruct l as [|v' l]; [|rewrite elems_text_cons]; unfold elems_text;
      cbn [map String.concat]; rewrite E, !append_assoc_l; eexists; reflexivity. }
  rewrite skip_ws_app by auto. cbn [append skip_ws]. rewrite Hc.
  eexists _, _. split; [reflexivity | lia].
Qed.

Lemma members_text_head d kv l rest :
  exists c r, skip_ws (members_text d (kv :: l) ++ rest) = String c r /\ (code c =? 125) = false.
Proof.
  assert (exists t, members_text d (kv :: l) ++ rest = nl (S d) ++ String (chr 34) t) as [t ->].
  { destruct l as [|kv' l]; [|rewrite members_text_cons]; unfold members_text, member_text, quote_with;
      cbn [map String.concat]; rewrite !append_assoc_l; eexists; reflexivity. }
  rewrite skip_ws_app by auto. eexists _, _. split; reflexivity.
Qed.

Lemma array_reads_back l : Forall reads_back l -> reads_back (JArr l).
Proof.
  intros IH d fuel depth rest Hv Hf Hd Hr. destruct fuel as [|fuel]; [simpl in Hf; lia|].
  assert (0 <= fold_right (fun x m => Z.max (depth_of x) m) 0 l) by (clear; induction l; simpl; lia).
  cbn [depth_of size_of valid] in *.
  destruct l as [|v l].
  - cbn. destruct (Z.leb_spec depth 0); [lia | reflexivity].
  - change (print_with nl cm sp qb d (JArr (v :: l))) with ("[" ++ elems_text d (v :: l) ++ nl d ++ "]").
    rewrite !append_assoc_l. cbn [parse_value append skip_ws]. change (is_space "[") with false.
    cbn match. change (code "[") with 91. cbn [Z.eqb Pos.eqb]. destruct (Z.leb_spec depth 0); [lia|].
    destruct (elems_text_head d v l (nl d ++ "]" ++ rest)) as (c & r & E & Hc).
    { cbn [forallb] in Hv. bools. assumption. }
    change (String "]" rest) with ("]" ++ rest). rewrite E, Hc.
    rewrite elems_read_back by (auto; try discriminate; lia). reflexivity.
Qed.

Lemma object_reads_back l : Forall (fun kv => reads_back (snd kv)) l -> reads_back (JObj l).
Proof.
  intros IH d fuel depth rest Hv Hf Hd Hr. destruct fuel as [|fuel]; [simpl in Hf; lia|].
  assert (0 <= fold_right (fun (kv : string * json) m => Z.max (depth_of (snd kv)) m) 0 l)
    by (clear; induction l; simpl; lia).
  cbn [depth_of size_of valid] in *.
  destruct l as [|kv l].
  - cbn. destruct (Z.leb_spec depth 0); [lia | reflexivity].
  - change (print_with nl cm sp qb d (JObj (kv :: l)))
      with ("{" ++ members_text d (kv :: l) ++ nl d ++ "}").
    rewrite !append_assoc_l. cbn [parse_value append skip_ws]. change (is_space "{") with false.
    cbn match. change (code "{") with 123. cbn [Z.eqb Pos.eqb]. destruct (Z.leb_spec depth 0); [lia|].
    destruct (members_text_head d kv l (nl d ++ "}" ++ rest)) as (c & r & E & Hc).
    change (String "}" rest) with ("}" ++ rest). rewrite E, Hc.
    rewrite members_read_back by (auto; try discriminate; lia). reflexivity.
Qed.

Lemma value_reads_back v : reads_back v.
Proof.
  induction v as [| b | lit | s | l IH | l IH] using json_ind;
    [| | | | apply array_reads_back; assumption | apply object_reads_back; assumption];
    intros d fuel depth rest Hv Hf Hd Hr; (destruct fuel as [|fuel]; [simpl in Hf; lia|]).
  - reflexivity.
  - destruct b; reflexivity.
  - cbn [valid print_with] in *. pose proof (valid_num_scan _ rest Hv Hr) as Hscan.
    destruct (valid_num_head _ Hv) as (c & r & -> & Hc). cbn [append parse_value skip_ws] in *.
    assert (is_space c = false) as -> by (unfold is_space; lia). cbn match.
    repeat match goal with
    | |- context [code c =? ?k] => destruct (Z.eqb_spec (code c) k); [lia|]
    end. rewrite Hscan. reflexivity.
  - cbn [print_with]. unfold quote_with. rewrite !append_assoc_l.
    change (match unquote (qb s ++ str1 34 ++ rest) with
            | Some (x, t) => Some (JStr x, t) | None => None end = Some (JStr s, rest)).
    rewrite qb_read by assumption. reflexivity.
Qed.

(** The fuel of [parse] is enough for what the encoder writes. *)
Lemma length_app_str (a b : string) :
  String.length (a ++ b) = (String.length a + String.length b)%nat.
Proof. induction a; simpl; lia. Qed.

Definition bounded (v : json) : Prop :=
  forall d, valid v = true -> (S (size_of v) <= 2 * String.length (print_with nl cm sp qb d v))%nat.

Lemma elems_bound d l : Forall bounded l -> forallb valid l = true ->
  (fold_right (fun x m => S (size_of x + m)) O l <= 2 * String.length (elems_text d l))%nat.
Proof.
  induction 1 as [|v l H1 _ IH]; intros Hv; [simpl; lia|]. cbn [forallb] in Hv. bools.
  specialize (H1 (S d) H). specialize (IH H0). destruct l as [|v' l].
  - unfold elems_text. cbn [map String.concat fold_right]. rewrite length_app_str. lia.
  - rewrite elems_text_cons, !length_app_str. cbn [fold_right] in *. lia.
Qed.

Lemma members_bound d l : Forall (fun kv => bounded (snd kv)) l ->
  forallb (fun kv => valid_utf8 (fst kv) && valid (snd kv)) l = true ->
  (fold_right (fun (kv : string * json) m => S (size_of (snd kv) + m)) O l
   <= 2 * String.length (members_text d l))%nat.
Proof.
  induction 1 as [|[k v] l H1 _ IH]; intros Hv; [simpl; lia|].
  cbn [forallb fst snd] in *. bools. specialize (H1 (S d) H2). specialize (IH H0).
  assert (S (size_of v) <= 2 * String.length (member_text d (k, v)))%nat
    by (unfold member_text; cbn [snd]; rewrite !length_app_str; lia).
  destruct l as [|kv' l].
  - unfold members_text. cbn [map String.concat fold_right snd]. lia.
  - rewrite members_text_cons, !length_app_str. cbn [fold_right snd] in *. lia.
Qed.

Lemma size_bound v : bounded v.
Proof.
  induction v as [| b | lit | s | l IH | l IH] using json_ind; intros d Hv;
    try (destruct (print_head d _ Hv) as (c & r & -> & _); simpl; lia).
  - destruct l as [|v l]; [simpl; lia|].
    change (print_with nl cm sp qb d (JArr (v :: l))) with ("[" ++ elems_text d (v :: l) ++ nl d ++ "]").
    pose proof (elems_bound d _ IH Hv). cbn [size_of]. rewrite !length_app_str. cbn [String.length]. lia.
  - destruct l as [|kv l]; [simpl; lia|].
    change (print_with nl cm sp qb d (JObj (kv :: l)))
      with ("{" ++ members_text d (kv :: l) ++ nl d ++ "}").
    pose proof (members_bound d _ IH Hv). cbn [size_of]. rewrite !length_app_str.
    cbn [String.length]. lia.
Qed.

Lemma parse_print_with v : valid v = true -> depth_of v <= max_nesting ->
  parse (print_with nl cm sp qb 0 v) = Some v.
Proof.
  intros Hv Hd. unfold parse, parse_prefix.
  pose proof (size_bound v 0%nat Hv) as Hs.
  rewrite <- (append_nil_r (print_with nl cm sp qb 0 v)) at 2.
  rewrite value_reads_back by (auto; lia). reflexivity.
Qed.
End RoundTrip.

(** Whatever the encoder writes for a valid tree within the nesting limit, the
    decoder reads back as that tree; likewise for the indented form. *)
Lemma parse_marshal v : valid v = true -> depth_of v <= max_nesting -> parse (marshal v) = Some v.
Proof. intros. apply parse_print_with; auto using unquote_quote. Qed.

Lemma parse_marshal_indent v :
  valid v = true -> depth_of v <= max_nesting -> parse (marshal_indent v) = Some v.
Proof.
  intros. apply parse_print_with; auto using unquote_quote. intros d. cbn [append str1 all_space].
  change (is_space (chr 10)) with true. induction d; [reflexivity | assumption].
Qed.

(** ** Decoding into Go values

    [None] is an error return of [json.Unmarshal]; the callers discard the
    target then.  [null] leaves the target as it is. *)

Definition decode_str (cur : string) (v : json) : option string :=
  match v with JStr s => Some s | JNull => Some cur | _ => None end.

Definition decode_bool (cur : bool) (v : json) : option bool :=
  match v with JBool b => Some b | JNull => Some cur | _ => None end.

Fixpoint decode_list {A} (dec : json -> option A) (l : list json) : option (list A) :=
  match l with
  | [] => Some []
  | v :: l' =>
    match dec v, decode_list dec l' with
    | Some a, Some r => Some (a :: r)
    | _, _ => None
    end
  end.

(** A slice of [A]; [null] is the nil slice. *)
Definition decode_slice {A} (dec : json -> option A) (v : json) : option (list A) :=
  match v with JArr l => decode_list dec l | JNull => Some [] | _ => None end.

(** The members of an object in order; a key that matches no field is ignored,
    or an error when [strict] ([DisallowUnknownFields]). *)
Fixpoint decode_members {R} (strict : bool) (names : list string)
    (set : string -> json -> R -> option R) (r : R) (l : list (string * json)) : option R :=
  match l with
  | [] => Some r
  | (k, v) :: l' =>
    match match_field names k with
    | None => if strict then None else decode_members strict names set r l'
    | Some f =>
      match set f v r with
      | Some r' => decode_members strict names set r' l'
      | None => None
      end
    end
  end.

Definition decode_struct {R} (strict : bool) (names : list string)
    (set : string -> json -> R -> option R) (cur : R) (v : json) : option R :=
  match v with
  | JObj l => decode_members strict names set cur l
  | JNull => Some cur
  | _ => None
  end.

(** Members of a struct with [omitempty]. *)
Definition omit_empty (k s : string) : list (string * json) :=
  if String.eqb s "" then [] else [(k, JStr s)].
Definition omit_false (k : string) (b : bool) : list (string * json) :=
  if b then [(k, JBool true)] else [].

Lemma match_field_exact names f : In f names -> match_field names f = Some f.
Proof.
  intros H. unfold match_field. destruct (List.find (String.eqb f) names) as [g|] eqn:E.
  - apply find_some in E as [_ E]. apply String.eqb_eq in E as ->. reflexivity.
  - apply (find_none _ _ E) in H. rewrite String.eqb_refl in H. discriminate.
Qed.

Lemma decode_members_app {R} strict names set (r : R) l1 l2 :
  decode_members strict names set r (l1 ++ l2)%list
  = match decode_members strict names set r l1 with
    | Some r' => decode_members strict names set r' l2
    | None => None
    end.
Proof.
  revert r. induction l1 as [|[k v] l1 IH]; intros r; cbn; [reflexivity|].
  destruct (match_field names k); [destruct (set _ v r) | destruct strict]; auto.
Qed.

(** Members one at a time, and members written with [omitempty]. *)
Lemma decode_member {R} strict names set (r r' : R) k v l : In k names -> set k v r = Some r' ->
  decode_members strict names set r ((k, v) :: l) = decode_members strict names set r' l.
Proof. intros Hk E. cbn [decode_members]. rewrite match_field_exact, E by assumption. reflexivity. Qed.

Lemma decode_omit_empty {R} strict names set (r : R) (upd : string -> R) k s l : In k names ->
  set k (JStr s) r = Some (upd s) -> upd "" = r ->
  decode_members strict names set r (omit_empty k s ++ l)%list = decode_members strict names set (upd s) l.
Proof.
  intros Hk E E0. unfold omit_empty. destruct (String.eqb_spec s "") as [->|].
  - rewrite E0. reflexivity.
  - apply decode_member; assumption.
Qed.

Lemma decode_omit_false {R} strict names set (r : R) (upd : bool -> R) k b l : In k names ->
  set k (JBool true) r = Some (upd true) -> upd false = r ->
  decode_members strict names set r (omit_false k b ++ l)%list = decode_members strict names set (upd b) l.
Proof.
  intros Hk E E0. destruct b; [apply decode_member; assumption | rewrite E0; reflexivity].
Qed.

(** Objects of scalars. *)
Definition flat_members (l : list (string * json)) : Prop := Forall (fun kv => depth_of (snd kv) <= 0) l.

Lemma flat_nil : flat_members [].
Proof. constructor. Qed.
Lemma flat_cons k v l : depth_of v <= 0 -> flat_members l -> flat_members ((k, v) :: l).
Proof. intros. constructor; assumption. Qed.
Lemma flat_app l l' : flat_members l -> flat_members l' -> flat_members (l ++ l')%list.
Proof. intros. apply Forall_app. split; assumption. Qed.
Lemma flat_omit_empty k s : flat_members (omit_empty k s).
Proof. unfold omit_empty. destruct (String.eqb s ""); repeat constructor. cbn. lia. Qed.
Lemma flat_omit_false k b : flat_members (omit_false k b).
Proof. destruct b; repeat constructor. cbn. lia. Qed.
Lemma flat_str s : depth_of (JStr s) <= 0.
Proof. cbn. lia. Qed.
Lemma flat_bool b : depth_of (JBool b) <= 0.
Proof. cbn. lia. Qed.
Lemma flat_num l : depth_of (JNum l) <= 0.
Proof. cbn. lia. Qed.

#[export] Hint Resolve flat_nil flat_cons flat_app flat_omit_empty flat_omit_false
  flat_str flat_bool flat_num : gw.

Lemma depth_flat l : flat_members l -> depth_of (JObj l) <= 1.
Proof.
  intros H. cbn [depth_of].
  assert (fold_right (fun (kv : string * json) m => Z.max (depth_of (snd kv)) m) 0 l <= 0); [|lia].
  induction H; cbn [fold_right]; lia.
Qed.

(** Members with valid keys and values. *)
Definition valid_member (kv : string * json) : bool := valid_utf8 (fst kv) && valid (snd kv).

Lemma valid_omit_empty k s : valid_utf8 k = true -> valid_utf8 s = true ->
  forallb valid_member (omit_empty k s) = true.
Proof.
  intros Hk Hs. unfold omit_empty. destruct (String.eqb s ""); [reflexivity|].
  cbn [forallb]. unfold valid_member. cbn [fst snd valid]. rewrite Hk, Hs. reflexivity.
Qed.

Lemma valid_omit_false k b : valid_utf8 k = true -> forallb valid_member (omit_false k b) = true.
Proof.
  intros Hk. destruct b; [|reflexivity]. cbn [omit_false forallb]. unfold valid_member.
  cbn [fst snd valid]. rewrite Hk. reflexivity.
Qed.

Lemma valid_str_member k s : valid_utf8 k = true -> valid_utf8 s = true ->
  valid_member (k, JStr s) = true.
Proof. intros Hk Hs. unfold valid_member. cbn [fst snd valid]. rewrite Hk, Hs. reflexivity. Qed.
