(* ===== verification/GoText.v ===== *)
(** * Text helpers of the Go standard library

    The parts of [strings], [encoding/csv] and [regexp] the sources use, on
    byte strings.  Case mapping is modelled for ASCII letters, which is what
    the identifiers, protocol names and headers it is applied to consist of. *)

From Stdlib Require Import ZArith Lia Bool Ascii String List.
From stdpp Require Import base list strings.
From S2P Require Import Prelude Json.
#[local] Open Scope string_scope.
#[local] Open Scope list_scope.
#[local] Open Scope Z_scope.

(** ** Prefixes, suffixes, searching *)

Fixpoint has_prefix (s p : string) : bool :=
  match p, s with
  | EmptyString, _ => true
  | String a p', String b s' => Ascii.eqb a b && has_prefix s' p'
  | String _ _, EmptyString => false
  end.

Fixpoint drop_str (n : nat) (s : string) : string :=
  match n, s with
  | O, _ => s
  | S n', String _ r => drop_str n' r
  | S _, EmptyString => ""
  end.

Definition trim_prefix (s p : string) : string :=
  if has_prefix s p then drop_str (String.length p) s else s.

Fixpoint rev_str (s : string) : string :=
  match s with EmptyString => "" | String c r => rev_str r +:+ String c "" end.

Definition has_suffix (s p : string) : bool := has_prefix (rev_str s) (rev_str p).

(** [strings.Contains]. *)
Fixpoint contains_str (s p : string) : bool :=
  has_prefix s p || match s with EmptyString => false | String _ r => contains_str r p end.

Fixpoint contains_byte (s : string) (c : ascii) : bool :=
  match s with EmptyString => false | String a r => Ascii.eqb a c || contains_byte r c end.

(** [strings.Split(s, sep)] for a one-byte separator: never empty. *)
Fixpoint split_byte (sep : ascii) (s : string) : list string :=
  match s with
  | EmptyString => [""]
  | String c r =>
    match split_byte sep r with
    | [] => [String c ""]
    | h :: t => if Ascii.eqb c sep then "" :: h :: t else String c h :: t
    end
  end.

(** [strings.Cut(s, sep)] for a one-byte separator. *)
Fixpoint cut_byte (sep : ascii) (s : string) : option (string * string) :=
  match s with
  | EmptyString => None
  | String c r =>
    if Ascii.eqb c sep then Some ("", r)
    else match cut_byte sep r with Some (a, b) => Some (String c a, b) | None => None end
  end.

(** [strings.Join]. *)
Definition join (sep : string) (l : list string) : string := String.concat sep l.

(** ** Case *)

Definition lower_byte (c : ascii) : ascii := if between 65 90 (code c) then chr (code c + 32) else c.
Definition upper_byte (c : ascii) : ascii := if between 97 122 (code c) then chr (code c - 32) else c.
Fixpoint map_str (f : ascii -> ascii) (s : string) : string :=
  match s with EmptyString => "" | String c r => String (f c) (map_str f r) end.
Definition to_lower : string -> string := map_str lower_byte.
Definition to_upper : string -> string := map_str upper_byte.
Definition equal_fold (a b : string) : bool := String.eqb (to_lower a) (to_lower b).

(** ** White space *)

Definition is_ascii_space (c : ascii) : bool := between 9 13 (code c) || (code c =? 32).

(** Length in bytes of the white-space rune ([unicode.IsSpace]) a string starts
    with; 0 if it does not start with one. *)
Definition space_len (s : string) : nat :=
  match s with
  | EmptyString => 0
  | String a r =>
    if is_ascii_space a then 1%nat
    else match r with
    | EmptyString => O
    | String b r1 =>
      if (code a =? 194) && ((code b =? 133) || (code b =? 160)) then 2%nat
      else match r1 with
      | EmptyString => O
      | String c _ =>
        if ((code a =? 225) && (code b =? 154) && (code c =? 128))
           || ((code a =? 226) && (code b =? 128)
               && (between 128 138 (code c) || between 168 169 (code c) || (code c =? 175)))
           || ((code a =? 226) && (code b =? 129) && (code c =? 159))
           || ((code a =? 227) && (code b =? 128) && (code c =? 128))
        then 3%nat else O
      end
    end
  end.

(** The same for the rune a string ends with, on the reversed string. *)
Definition space_len_rev (s : string) : nat :=
  match s with
  | EmptyString => O
  | String c r =>
    if is_ascii_space c then 1%nat
    else match r with
    | EmptyString => O
    | String b r1 =>
      if Nat.eqb (space_len (String b (String c ""))) 2 then 2%nat
      else match r1 with
      | EmptyString => O
      | String a _ => if Nat.eqb (space_len (String a (String b (String c "")))) 3 then 3%nat else O
      end
    end
  end.

(** Strips what [len] recognises from the front; the fuel is the length. *)
Fixpoint strip (len : string -> nat) (fuel : nat) (s : string) : string :=
  match fuel with
  | O => s
  | S f => match len s with O => s | n => strip len f (drop_str n s) end
  end.

Definition trim_left (s : string) : string := strip space_len (String.length s) s.
Definition trim_right (s : string) : string :=
  rev_str (strip space_len_rev (String.length s) (rev_str s)).
Definition trim_space (s : string) : string := trim_right (trim_left s).

(** ** CSV *)

(** Line ends as [csv.Reader] reads them: CRLF is LF, a CR at the very end of
    the input is dropped. *)
Fixpoint csv_normalize (s : string) : string :=
  match s with
  | EmptyString => ""
  | String c r =>
    if code c =? 13 then
      match r with
      | EmptyString => ""
      | String d r' => if code d =? 10 then String d (csv_normalize r') else String c (csv_normalize r)
      end
    else String c (csv_normalize r)
  end.

(** Where the reader is: at the start of a record, at the start of a later
    field, inside a plain field, inside a quoted one, or after a quote inside
    it. *)
Inductive csv_state := CsvRecord | CsvField | CsvPlain | CsvQuoted | CsvQuote.

(** Reads records; [fields] are the finished fields of the current record,
    newest first, and [cur] the current field, reversed.  [None] is a quoting
    error. *)
Fixpoint csv_read (st : csv_state) (fields : list string) (cur : string) (s : string)
  : option (list (list string)) :=
  let field := rev_str cur in
  let record := rev (field :: fields) in
  match s with
  | EmptyString =>
    match st with
    | CsvRecord => Some []
    | CsvQuoted => None
    | _ => Some [record]
    end
  | String c r =>
    let k := code c in
    match st with
    | CsvRecord | CsvField =>
      if k =? 10 then
        match st with
        | CsvRecord => csv_read CsvRecord [] "" r
        | _ => match csv_read CsvRecord [] "" r with Some l => Some (record :: l) | None => None end
        end
      else if k =? 44 then csv_read CsvField (field :: fields) "" r
      else if k =? 34 then csv_read CsvQuoted fields "" r
      else csv_read CsvPlain fields (String c "") r
    | CsvPlain =>
      if k =? 10 then match csv_read CsvRecord [] "" r with Some l => Some (record :: l) | None => None end
      else if k =? 44 then csv_read CsvField (field :: fields) "" r
      else if k =? 34 then None
      else csv_read CsvPlain fields (String c cur) r
    | CsvQuoted =>
      if k =? 34 then csv_read CsvQuote fields cur r else csv_read CsvQuoted fields (String c cur) r
    | CsvQuote =>
      if k =? 10 then match csv_read CsvRecord [] "" r with Some l => Some (record :: l) | None => None end
      else if k =? 44 then csv_read CsvField (field :: fields) "" r
      else if k =? 34 then csv_read CsvQuoted fields (String c cur) r
      else None
    end
  end.

(** [csv.Reader.ReadAll] with [FieldsPerRecord = -1]. *)
Definition csv_read_all (s : string) : option (list (list string)) :=
  csv_read CsvRecord [] "" (csv_normalize s).

(** ** URL escaping ([net/url]) *)

Definition is_alnum (c : ascii) : bool :=
  between 48 57 (code c) || between 65 90 (code c) || between 97 122 (code c).

Definition upper_hex (z : Z) : ascii := if z <? 10 then chr (48 + z) else chr (55 + z).

Definition percent (c : ascii) (r : string) : string :=
  String "%" (String (upper_hex (code c / 16)) (String (upper_hex (code c mod 16)) r)).

(** [url.PathEscape]. *)
Fixpoint path_escape (s : string) : string :=
  match s with
  | EmptyString => ""
  | String c r =>
    if is_alnum c || contains_byte "-_.~$&+:=@" c then String c (path_escape r)
    else percent c (path_escape r)
  end.

(** [url.QueryEscape]. *)
Fixpoint query_escape (s : string) : string :=
  match s with
  | EmptyString => ""
  | String c r =>
    if is_alnum c || contains_byte "-_.~" c then String c (query_escape r)
    else if code c =? 32 then String "+" (query_escape r)
    else percent c (query_escape r)
  end.

(** ** Laws of searching *)

Lemma has_prefix_spec s p : has_prefix s p = true <-> (exists r, s = p +:+ r).
Proof.
  revert s. induction p as [|c p IH]; intros s; [split; [exists s; reflexivity|destruct s; reflexivity]|].
  destruct s as [|d s]; [split; [discriminate|intros [r E]; discriminate]|]. cbn [has_prefix].
  destruct (Ascii.eqb_spec c d) as [->|Hne]; cbn [andb].
  - rewrite IH. split; intros [r E]; exists r; [cbn; rewrite E; reflexivity|injection E as E; exact E].
  - split; [discriminate|intros [r E]; injection E as <- _; congruence].
Qed.

Lemma cut_byte_spec sep s a b : cut_byte sep s = Some (a, b) <-> s = a +:+ String sep b /\ contains_byte a sep = false.
Proof.
  revert a. induction s as [|c s IH]; intros a; cbn [cut_byte].
  - split; [discriminate|]. by intros [E _]; destruct a.
  - destruct (Ascii.eqb_spec c sep) as [->|Hn].
    + split; [by intros [= <- <-]|]. intros [E Hc]. destruct a as [|x a]; cbn in E; injection E; intros; subst; [done|].
      cbn in Hc. by rewrite Ascii.eqb_refl in Hc.
    + destruct (cut_byte sep s) as [[x y]|] eqn:E.
      * split.
        -- intros [= <- <-]. destruct (proj1 (IH x) eq_refl) as [-> Hx]. split; [done|]. cbn. rewrite Hx, orb_false_r. by apply Ascii.eqb_neq.
        -- intros [Es Ha]. destruct a as [|d a]; cbn in Es; injection Es; intros; subst; [done|].
           cbn in Ha. apply orb_false_iff in Ha as [_ Ha]. pose proof (proj2 (IH a) (conj eq_refl Ha)) as E2. by injection E2 as -> ->.
      * split; [done|]. intros [Es Ha]. destruct a as [|d a]; cbn in Es; injection Es; intros; subst; [done|].
        cbn in Ha. apply orb_false_iff in Ha as [_ Ha]. by discriminate (proj2 (IH a) (conj eq_refl Ha)).
Qed.

Lemma cut_byte_none sep s : cut_byte sep s = None -> contains_byte s sep = false.
Proof.
  induction s as [|c s IH]; cbn [cut_byte contains_byte]; [done|].
  destruct (Ascii.eqb c sep); [done|]. destruct (cut_byte sep s) as [[]|]; [done|]. intros _. by rewrite IH.
Qed.

Lemma contains_byte_app a b c : contains_byte (a +:+ b) c = contains_byte a c || contains_byte b c.
Proof.
  induction a as [|d a IH]; [done|]. change (String d a +:+ b) with (String d (a +:+ b)). cbn [contains_byte].
  by rewrite IH, orb_assoc.
Qed.

Lemma rev_str_app a b : rev_str (a +:+ b) = rev_str b +:+ rev_str a.
Proof.
  induction a as [|c a IH]; [symmetry; apply append_nil_r|].
  change (String c a +:+ b) with (String c (a +:+ b)). cbn [rev_str]. rewrite IH. apply append_assoc_l.
Qed.

Lemma rev_str_involutive s : rev_str (rev_str s) = s.
Proof. induction s as [|c s IH]; cbn [rev_str]; [done|]. rewrite rev_str_app, IH. done. Qed.

Lemma contains_byte_rev s c : contains_byte (rev_str s) c = contains_byte s c.
Proof.
  induction s as [|d s IH]; cbn [rev_str contains_byte]; [done|].
  rewrite contains_byte_app, IH. cbn. rewrite orb_false_r. apply orb_comm.
Qed.
