(* ===== verification/Sha256.v ===== *)
(** * SHA-256

    [crypto/sha256] on byte strings, as the sources use it for content hashes
    (file ETags, run identities, native configuration digests), with the hex
    printing of [fmt.Sprintf("%x", ...)]. *)

From Stdlib Require Import ZArith Lia Bool Ascii String List.
From stdpp Require Import base list strings.
From S2P Require Import Prelude Json.
#[local] Open Scope string_scope.
#[local] Open Scope list_scope.
#[local] Open Scope Z_scope.

Definition u32 (z : Z) : Z := z mod 2 ^ 32.
Definition rotr (x n : Z) : Z := Z.lor (Z.shiftr x n) (u32 (Z.shiftl x (32 - n))).
Definition not32 (x : Z) : Z := Z.lxor x (2 ^ 32 - 1).

(** The constants are defined by the standard as the first 32 bits of the
    fractional parts of the cube roots of the first 64 primes, and of the square
    roots of the first 8. *)

Definition is_prime (n : nat) : bool :=
  forallb (fun d => negb (Nat.eqb (Nat.modulo n d) 0)) (seq 2 (n - 2)).
Definition primes : list Z := map Z.of_nat (List.filter is_prime (seq 2 310)).

(** The integer part of the cube root of [z], bit by bit from [2^n]. *)
Fixpoint cbrt (n : nat) (z r : Z) : Z :=
  match n with
  | O => r
  | S k => let t := r + 2 ^ Z.of_nat k in cbrt k z (if t * t * t <=? z then t else r)
  end.

Definition sha_k : list Z := Eval vm_compute in map (fun p => u32 (cbrt 36 (p * 2 ^ 96) 0)) primes.
Definition sha_h0 : list Z := Eval vm_compute in map (fun p => u32 (Z.sqrt (p * 2 ^ 64))) (take 8 primes).

Fixpoint bytes_of (s : string) : list Z :=
  match s with EmptyString => [] | String c r => code c :: bytes_of r end.

(** The last [n] bytes of a number, big-endian. *)
Fixpoint be_bytes (n : nat) (z : Z) : list Z :=
  match n with O => [] | S k => be_bytes k (z / 256) ++ [z mod 256] end.

Definition sha_pad (msg : list Z) : list Z :=
  let len := Z.of_nat (length msg) in
  msg ++ [128] ++ repeat 0 (Z.to_nat ((55 - len) mod 64)) ++ be_bytes 8 (8 * len).

Fixpoint words_of (l : list Z) : list Z :=
  match l with
  | a :: b :: c :: d :: r => (((a * 256 + b) * 256 + c) * 256 + d) :: words_of r
  | _ => []
  end.

(** The message schedule, newest word first; [n] words to add. *)
Fixpoint sha_schedule (n : nat) (w : list Z) : list Z :=
  match n with
  | O => w
  | S k =>
    let x15 := nth 14 w 0 in
    let x2 := nth 1 w 0 in
    let s0 := Z.lxor (Z.lxor (rotr x15 7) (rotr x15 18)) (Z.shiftr x15 3) in
    let s1 := Z.lxor (Z.lxor (rotr x2 17) (rotr x2 19)) (Z.shiftr x2 10) in
    sha_schedule k (u32 (nth 15 w 0 + s0 + nth 6 w 0 + s1) :: w)
  end.

Definition sha_round (st : list Z) (kw : Z * Z) : list Z :=
  match st with
  | [a; b; c; d; e; f; g; h] =>
    let s1 := Z.lxor (Z.lxor (rotr e 6) (rotr e 11)) (rotr e 25) in
    let ch := Z.lxor (Z.land e f) (Z.land (not32 e) g) in
    let t1 := h + s1 + ch + fst kw + snd kw in
    let s0 := Z.lxor (Z.lxor (rotr a 2) (rotr a 13)) (rotr a 22) in
    let maj := Z.lxor (Z.lxor (Z.land a b) (Z.land a c)) (Z.land b c) in
    [u32 (t1 + s0 + maj); a; b; c; u32 (d + t1); e; f; g]
  | _ => st
  end.

Definition sha_block (h : list Z) (ws : list Z) : list Z :=
  let w := rev (sha_schedule 48 (rev ws)) in
  zip_with (fun x y => u32 (x + y)) h (fold_left sha_round (zip sha_k w) h).

(** The blocks of 16 words; the fuel is the number of words. *)
Fixpoint sha_blocks (fuel : nat) (h : list Z) (ws : list Z) : list Z :=
  match fuel, ws with
  | O, _ | _, [] => h
  | S k, _ => sha_blocks k (sha_block h (take 16 ws)) (drop 16 ws)
  end.

Definition hex_byte (b : Z) : string := String (hex_digit (b / 16)) (String (hex_digit (b mod 16)) "").

(** [fmt.Sprintf("%x", sha256.Sum256([]byte(s)))]. *)
Definition sha256_hex (s : string) : string :=
  let ws := words_of (sha_pad (bytes_of s)) in
  String.concat "" (map hex_byte (flat_map (be_bytes 4) (sha_blocks (length ws) sha_h0 ws))).

(** Published test vectors. *)
Example sha256_empty :
  sha256_hex "" = "e3b0c44298fc1c149afbf4c8996fb92427ae41e4649b934ca495991b7852b855".
Proof. vm_compute. reflexivity. Qed.
Example sha256_abc :
  sha256_hex "abc" = "ba7816bf8f01cfea414140de5dae2223b00361a396177a9cb410ff61f20015ad".
Proof. vm_compute. reflexivity. Qed.
Example sha256_two_blocks :
  sha256_hex "abcdbcdecdefdefgefghfghighijhijkijkljklmklmnlmnomnopnopq"
  = "248d6a61d20638b8e5c026930c3e6039a33ce45964ff2167f6ecedd419db06c1".
Proof. vm_compute. reflexivity. Qed.
