(* ===== verification/Float.v ===== *)
(** * [float64]

    IEEE binary64 arithmetic as Go performs it, over the Standard Library's
    [SpecFloat], with the conversions the sources use: from and to [int64], and
    from decimal literals with correct rounding ([strconv.ParseFloat] on JSON
    number syntax). *)

From Stdlib Require Import ZArith Lia Bool Ascii String List SpecFloat.
From stdpp Require Import base list strings.
From S2P Require Import Prelude Json.
#[local] Open Scope string_scope.
#[local] Open Scope Z_scope.

Definition f64_prec : Z := 53.
Definition f64_emax : Z := 1024.

(** [m * 2^e], correctly rounded. *)
Definition f64_make (m e : Z) : spec_float := binary_normalize f64_prec f64_emax m e false.
Definition f64_of_Z (z : Z) : spec_float := f64_make z 0.
Definition fadd : spec_float -> spec_float -> spec_float := SFadd f64_prec f64_emax.
Definition fsub : spec_float -> spec_float -> spec_float := SFsub f64_prec f64_emax.
Definition fmul : spec_float -> spec_float -> spec_float := SFmul f64_prec f64_emax.
Definition fdiv : spec_float -> spec_float -> spec_float := SFdiv f64_prec f64_emax.
Definition feqb : spec_float -> spec_float -> bool := SFeqb.
Definition fltb : spec_float -> spec_float -> bool := SFltb.
Definition fleb : spec_float -> spec_float -> bool := SFleb.

Definition f64_finite (x : spec_float) : bool :=
  match x with S754_zero _ | S754_finite _ _ _ => true | _ => false end.

(** The conversion [int64(x)]: truncation toward zero; out of range (which Go
    leaves to the implementation) as on amd64. *)
Definition f64_trunc (x : spec_float) : Z :=
  match x with
  | S754_zero _ => 0
  | S754_finite s m e =>
    let a := if 0 <=? e then Z.shiftl (Zpos m) e else Z.shiftr (Zpos m) (- e) in
    let v := if s then - a else a in
    if (- 2 ^ 63 <=? v) && (v <? 2 ^ 63) then v else - 2 ^ 63
  | _ => - 2 ^ 63
  end.

(** ** Decimal literals *)

(** [m / 10^k], correctly rounded: a quotient of more than [53 + 2] bits with a
    sticky bit. *)
Definition f64_div10 (neg : bool) (m : Z) (k : Z) : spec_float :=
  let d := 10 ^ k in
  let sh := Z.max 0 (Z.log2 d - Z.log2 m + 60) in
  let n := Z.shiftl m sh in
  let q := n / d in
  let q' := 2 * q + (if n mod d =? 0 then 0 else 1) in
  binary_normalize f64_prec f64_emax (if neg then - q' else q') (- sh - 1) neg.

Definition f64_dec (neg : bool) (m e : Z) : spec_float :=
  if m =? 0 then S754_zero neg
  else if 0 <=? e then
    binary_normalize f64_prec f64_emax (if neg then - (m * 10 ^ e) else m * 10 ^ e) 0 neg
  else f64_div10 neg m (- e).

(** Decimal digits with at most one point and an exponent. *)
Record decimal := { dec_neg : bool; dec_mant : Z; dec_exp : Z }.

Fixpoint digits_val (acc : Z) (s : string) : Z :=
  match s with
  | EmptyString => acc
  | String c r => digits_val (acc * 10 + (code c - 48)) r
  end.

Definition strlen (s : string) : Z := Z.of_nat (String.length s).

(** Splits a literal of the JSON number grammar. *)
Definition read_decimal (lit : string) : option decimal :=
  let '(neg, s0) :=
    match lit with
    | String c r => if code c =? 45 then (true, r) else (false, lit)
    | EmptyString => (false, lit)
    end in
  match scan_int s0 with
  | None => None
  | Some (i, s1) =>
    match scan_frac s1 with
    | None => None
    | Some (f, s2) =>
      match scan_exp s2 with
      | Some (e, EmptyString) =>
        let fr := match f with String _ d => d | EmptyString => "" end in
        let ev :=
          match e with
          | EmptyString => 0
          | String _ r =>
            match r with
            | String g d =>
              if code g =? 45 then - digits_val 0 d
              else if code g =? 43 then digits_val 0 d else digits_val 0 r
            | EmptyString => 0
            end
          end in
        Some {| dec_neg := neg; dec_mant := digits_val (digits_val 0 i) fr;
                dec_exp := ev - strlen fr |}
      | _ => None
      end
    end
  end.

(** [strconv.ParseFloat(lit, 64)] on JSON number syntax: [None] when the syntax
    is wrong or the value rounds to infinity ([ErrRange]).  Exponents beyond
    the range are decided without computing the power. *)
Definition parse_f64 (lit : string) : option spec_float :=
  match read_decimal lit with
  | None => None
  | Some d =>
    if dec_mant d =? 0 then Some (S754_zero (dec_neg d))
    else if 400 <? dec_exp d then None
    else if dec_exp d + (Z.log2 (dec_mant d) + 1) <? - 400 then Some (S754_zero (dec_neg d))
    else let x := f64_dec (dec_neg d) (dec_mant d) (dec_exp d) in
         if f64_finite x then Some x else None
  end.

(** ** Printing

    The shortest decimal that reads back as the same number, in the layout of
    [encoding/json]: the least number of digits (at most 17) whose correctly
    rounded decimal parses to it. *)

Fixpoint nat_digits (fuel : nat) (z : Z) (acc : string) : string :=
  match fuel with
  | O => acc
  | S k => let acc := String (chr (48 + z mod 10)) acc in
           if z <? 10 then acc else nat_digits k (z / 10) acc
  end.

(** [strconv.Itoa] on a non-negative number; the fuel is more than its digits. *)
Definition dec_string (z : Z) : string := nat_digits (S (Z.to_nat (Z.log2 z))) z "".
Definition itoa (z : Z) : string := if z <? 0 then "-" ++ dec_string (- z) else dec_string z.

Fixpoint zeros (n : nat) : string := match n with O => "" | S k => String "0" (zeros k) end.

(** [num/den] in units of [10^(k-n)], rounded half to even. *)
Definition round_dec (num den k n : Z) : Z :=
  let a := num * 10 ^ Z.max 0 (n - k) in
  let b := den * 10 ^ Z.max 0 (k - n) in
  let q := a / b in
  let r := 2 * (a mod b) in
  if (b <? r) || ((r =? b) && Z.odd q) then q + 1 else q.

(** The decimal exponent [k] with [10^(k-1) <= num/den < 10^k], near an
    estimate. *)
Fixpoint dec_expo (fuel : nat) (num den k : Z) : Z :=
  match fuel with
  | O => k
  | S f => if num * 10 ^ Z.max 0 (- k) <? den * 10 ^ Z.max 0 k then k else dec_expo f num den (k + 1)
  end.

(** The digits [d] scaled so that the value is [0.d * 10^k], laid out. *)
Definition layout (neg : bool) (d : string) (k : Z) : string :=
  let n := strlen d in
  (if neg then "-" else "") ++
  if (k <=? -6) || (21 <? k) then
    let e := k - 1 in
    match d with
    | String c EmptyString => d
    | String c r => String c ("." ++ r)
    | EmptyString => d
    end ++ (if e <? 0 then "e-" else "e+") ++ dec_string (Z.abs e)
  else if k <=? 0 then "0." ++ zeros (Z.to_nat (- k)) ++ d
  else if n <=? k then d ++ zeros (Z.to_nat (k - n))
  else String.substring 0 (Z.to_nat k) d ++ "." ++ String.substring (Z.to_nat k) (Z.to_nat (n - k)) d.

Definition f64_same (x : spec_float) (y : option spec_float) : bool :=
  match x, y with
  | S754_zero s, Some (S754_zero t) => Bool.eqb s t
  | S754_finite s m e, Some (S754_finite t n f) => Bool.eqb s t && Pos.eqb m n && (e =? f)
  | _, _ => false
  end.

(** The least number of digits that reads back, in a layout. *)
Fixpoint shortest (lay : bool -> string -> Z -> string) (fuel : nat) (n : Z) (x : spec_float) (neg : bool) (num den k : Z) : option string :=
  match fuel with
  | O => None
  | S f =>
    let d := round_dec num den k n in
    let '(d, k') := if 10 ^ n <=? d then (d / 10, k + 1) else (d, k) in
    let lit := lay neg (dec_string d) k' in
    if valid_num lit && f64_same x (parse_f64 lit) then Some lit else shortest lay f (n + 1) x neg num den k
  end.

Definition format_with (lay : bool -> string -> Z -> string) (zero : string) (x : spec_float) : option string :=
  match x with
  | S754_zero s => Some (if s then "-" ++ zero else zero)
  | S754_finite s m e =>
    let num := if 0 <=? e then Zpos m * 2 ^ e else Zpos m in
    let den := if 0 <=? e then 1 else 2 ^ (- e) in
    let est := ((Z.log2 (Zpos m) + e) * 30103) / 100000 - 1 in
    shortest lay 17 1 x s num den (dec_expo 5 num den est)
  | _ => None
  end.

Definition format_f64 : spec_float -> option string := format_with layout "0".

Lemma f64_same_eq x y : f64_same x y = true -> y = Some x.
Proof.
  destruct x as [s| | |s m e], y as [[t| | |t n f]|]; cbn; try discriminate.
  - intros E%eqb_prop. congruence.
  - intros H. bools. rewrite (eqb_prop _ _ ltac:(eassumption)). apply Pos.eqb_eq in H1. congruence.
Qed.

Lemma shortest_parses lay fuel : forall n x neg num den k lit,
  shortest lay fuel n x neg num den k = Some lit -> valid_num lit = true /\ parse_f64 lit = Some x.
Proof.
  induction fuel as [|f IH]; intros n x neg num den k lit; cbn [shortest]; [discriminate|].
  destruct (if _ <=? _ then _ else _) as [d k']. case_if; [|apply IH].
  intros [= <-]. bools. auto using f64_same_eq.
Qed.

(** A printed number reads back. *)
Lemma parse_format x lit : format_f64 x = Some lit -> valid_num lit = true /\ parse_f64 lit = Some x.
Proof.
  destruct x as [[]| | |s m e]; cbn [format_f64 format_with]; try discriminate; [intros [= <-]; split; reflexivity..|].
  apply shortest_parses.
Qed.

Example format_ex :
  map (fun s => match parse_f64 s with Some x => format_f64 x | None => None end)
    ["21.5"; "0.1"; "-0.30000000000000004"; "1e21"; "1e-7"; "123456789"; "5e-324"; "1.7976931348623157e308"; "100"; "1e20"; "0.000001"]
  = map Some ["21.5"; "0.1"; "-0.30000000000000004"; "1e+21"; "1e-7"; "123456789"; "5e-324"; "1.7976931348623157e+308"; "100"; "100000000000000000000"; "0.000001"].
Proof. vm_compute. reflexivity. Qed.

(** ** Integers print and read back *)

Lemma code_digit d : 0 <= d < 10 -> code (chr (48 + d)) = 48 + d.
Proof.
  intros H. unfold code, chr. rewrite N_ascii_embedding; lia.
Qed.

Fixpoint all_digits (s : string) : bool :=
  match s with EmptyString => true | String c r => is_digit c && all_digits r end.

Lemma digit_is d : 0 <= d < 10 -> is_digit (chr (48 + d)) = true.
Proof. intros H. unfold is_digit, between. rewrite code_digit by assumption. lia. Qed.

Lemma nat_digits_spec fuel : forall z acc, 0 <= z < 10 ^ Z.of_nat fuel -> (0 < fuel)%nat ->
  all_digits acc = true ->
  digits_val 0 (nat_digits fuel z acc) = digits_val z acc /\ all_digits (nat_digits fuel z acc) = true /\
  exists c r, nat_digits fuel z acc = String c r /\ (0 < z -> code c <> 48) /\ (z = 0 -> r = acc /\ code c = 48).
Proof.
  induction fuel as [|f IH]; intros z acc Hz Hf Hacc; [lia|]. cbn [nat_digits].
  pose proof (Z.mod_pos_bound z 10 ltac:(lia)). pose proof (Z.div_mod z 10 ltac:(lia)).
  assert (all_digits (String (chr (48 + z mod 10)) acc) = true) as Hall by (cbn; rewrite digit_is, Hacc by lia; reflexivity).
  assert (digits_val (z / 10) (String (chr (48 + z mod 10)) acc) = digits_val z acc) as Hval
    by (cbn [digits_val]; rewrite code_digit by lia; f_equal; lia).
  destruct (Z.ltb_spec z 10) as [Hlt|Hge].
  - assert (z / 10 = 0) as Ed by (apply Z.div_small; lia). rewrite Ed in Hval. split; [exact Hval|]. split; [exact Hall|].
    eexists _, _. split; [reflexivity|]. rewrite Z.mod_small, code_digit by lia. split; [lia|]. intros ->. auto.
  - assert (1 <= z / 10 < 10 ^ Z.of_nat f) as Hd.
    { split; [apply Z.div_le_lower_bound; lia|]. apply Z.div_lt_upper_bound; [lia|].
      rewrite Nat2Z.inj_succ, Z.pow_succ_r in Hz by lia. lia. }
    destruct f as [|f]; [cbn in Hd; lia|].
    destruct (IH (z / 10) (String (chr (48 + z mod 10)) acc)) as (E1 & E2 & c & r & E3 & E4 & _); [lia|lia|exact Hall|].
    rewrite E1. split; [exact Hval|]. split; [exact E2|]. exists c, r. split; [exact E3|]. split; [intros; apply E4; lia|lia].
Qed.

Lemma dec_string_spec z : 0 <= z ->
  digits_val 0 (dec_string z) = z /\ all_digits (dec_string z) = true /\
  exists c r, dec_string z = String c r /\ (0 < z -> code c <> 48) /\ (z = 0 -> r = "" /\ code c = 48).
Proof.
  intros Hz. apply (nat_digits_spec _ z ""); [|lia|reflexivity]. split; [lia|].
  destruct (Z.eq_dec z 0) as [->|]; [apply Z.pow_pos_nonneg; lia|].
  pose proof (Z.log2_spec z ltac:(lia)) as [_ Hl]. pose proof (Z.log2_nonneg z).
  replace (Z.of_nat (S (Z.to_nat (Z.log2 z)))) with (Z.succ (Z.log2 z)) by lia.
  pose proof (Z.pow_le_mono_l 2 10 (Z.succ (Z.log2 z)) ltac:(lia)). lia.
Qed.

Lemma span_all_digits s : all_digits s = true -> span_digits s = (s, "").
Proof.
  induction s as [|c s IH]; cbn; [reflexivity|]. intros H. bools. rewrite H, IH by assumption. reflexivity.
Qed.

Lemma scan_dec z : 0 <= z -> scan_int (dec_string z) = Some (dec_string z, "").
Proof.
  intros Hz. destruct (dec_string_spec z Hz) as (_ & Ha & c & r & E & H1 & H2). rewrite E in *. cbn [scan_int].
  destruct (Z.eqb_spec (code c) 48) as [Hc|Hc].
  - destruct (Z.eq_dec z 0) as [->|]; [|destruct (H1 ltac:(lia) Hc)]. destruct H2 as [-> _]; auto.
  - rewrite span_all_digits by exact Ha. cbn in Ha. bools. rewrite H. reflexivity.
Qed.

Lemma append_empty_r s : s ++ "" = s.
Proof. induction s as [|c s IH]; [reflexivity|]. change (String c (s ++ "") = String c s). congruence. Qed.

Lemma itoa_valid z : valid_num (itoa z) = true.
Proof.
  unfold valid_num, itoa. destruct (Z.ltb_spec z 0).
  - change ("-" ++ dec_string (- z)) with (String "-" (dec_string (- z))).
    unfold scan_number. change (code "-" =? 45) with true. cbv iota. rewrite scan_dec by lia. cbn [scan_frac scan_exp].
    rewrite !append_empty_r. apply String.eqb_refl.
  - unfold scan_number. destruct (dec_string_spec z ltac:(lia)) as (_ & Ha & c & r & E & _).
    assert ((code c =? 45) = false) as Hc
      by (rewrite E in Ha; cbn in Ha; unfold is_digit, between in Ha; bools; lia).
    rewrite E at 1. rewrite Hc, scan_dec by lia. cbn [scan_frac scan_exp]. rewrite !append_empty_r. apply String.eqb_refl.
Qed.
