(* ===== verification/GoTime.v ===== *)
(** * Durations and integers from text

    [time.ParseDuration] and [strconv.ParseUint] as the processes read their
    environment with them: a duration is a sign and a series of decimal numbers
    with units, in nanoseconds, with the overflow checks of the library; the
    part after a decimal point is scaled in [float64].  The theorems bound what
    is read and give it exactly for a plain number with a unit. *)

From Stdlib Require Import ZArith Lia Bool Ascii String List SpecFloat.
From stdpp Require Import base list strings.
From S2P Require Import Prelude Json GoText Float.
#[local] Open Scope string_scope.
#[local] Open Scope list_scope.
#[local] Open Scope Z_scope.

(** ** [strconv.ParseUint(s, 10, 64)] *)

Definition parse_u64 (s : string) : option Z :=
  if negb (String.eqb s "") && all_digits s && (digits_val 0 s <? 2 ^ 64) then Some (digits_val 0 s) else None.

(** ** [time.ParseDuration] *)

Definition unit_of (u : string) : option Z :=
  if String.eqb u "ns" then Some 1
  else if String.eqb u "us" || String.eqb u (String (chr 194) (String (chr 181) "s")) || String.eqb u (String (chr 206) (String (chr 188) "s"))
  then Some 1000
  else if String.eqb u "ms" then Some 1000000
  else if String.eqb u "s" then Some 1000000000
  else if String.eqb u "m" then Some (60 * 1000000000)
  else if String.eqb u "h" then Some (3600 * 1000000000)
  else None.

(** [leadingInt]: [None] on overflow. *)
Fixpoint leadingInt (x : Z) (s : string) : option (Z * string) :=
  match s with
  | EmptyString => Some (x, s)
  | String c r =>
    if is_digit c then
      if 2 ^ 63 / 10 <? x then None
      else let y := x * 10 + (code c - 48) in if 2 ^ 63 <? y then None else leadingInt y r
    else Some (x, s)
  end.

(** [leadingFraction]: digits that would overflow are dropped; the scale is the
    power of ten as a [float64]. *)
Fixpoint leadingFraction (x : Z) (scale : spec_float) (overflow : bool) (s : string) : Z * spec_float * string :=
  match s with
  | EmptyString => (x, scale, s)
  | String c r =>
    if is_digit c then
      if overflow || ((2 ^ 63 - 1) / 10 <? x) then leadingFraction x scale true r
      else
        let y := x * 10 + (code c - 48) in
        if 2 ^ 63 <? y then leadingFraction x scale true r else leadingFraction y (fmul scale (f64_of_Z 10)) false r
    else (x, scale, s)
  end.

(** The unit: up to the next digit or point. *)
Fixpoint span_unit (s : string) : string * string :=
  match s with
  | EmptyString => ("", "")
  | String c r => if is_digit c || Ascii.eqb c "." then ("", s) else let '(u, t) := span_unit r in (String c u, t)
  end.

(** One number with its unit: its nanoseconds and the rest. *)
Definition duration_part (s : string) : option (Z * string) :=
  match s with
  | EmptyString => None
  | String c _ =>
    if negb (Ascii.eqb c "." || is_digit c) then None
    else
      match leadingInt 0 s with
      | None => None
      | Some (v, t) =>
        let pre := negb (Nat.eqb (String.length s) (String.length t)) in
        let '(f, scale, t, post) :=
          match t with
          | String "." r =>
            let '(f, scale, t') := leadingFraction 0 (f64_of_Z 1) false r in
            (f, scale, t', negb (Nat.eqb (String.length r) (String.length t')))
          | _ => (0, f64_of_Z 1, t, false)
          end in
        if negb pre && negb post then None
        else
          let '(u, t) := span_unit t in
          match unit_of u with
          | None => None
          | Some unit =>
            if 2 ^ 63 / unit <? v then None
            else
              let v := v * unit in
              let v := if 0 <? f then u64 (v + f64_trunc (fmul (f64_of_Z f) (fdiv (f64_of_Z unit) scale))) else v in
              if (0 <? f) && (2 ^ 63 <? v) then None else Some (v, t)
          end
      end
  end.

Fixpoint duration_parts (fuel : nat) (d : Z) (s : string) : option Z :=
  match s, fuel with
  | EmptyString, _ => Some d
  | _, O => None
  | _, S fuel =>
    match duration_part s with
    | None => None
    | Some (v, t) => let d := u64 (d + v) in if 2 ^ 63 <? d then None else duration_parts fuel d t
    end
  end.

(** Every part consumes a byte, so the length of the text is fuel enough. *)
Definition ParseDuration (s : string) : option Z :=
  let '(neg, s) := match s with String "-" r => (true, r) | String "+" r => (false, r) | _ => (false, s) end in
  if String.eqb s "0" then Some 0
  else if String.eqb s "" then None
  else
    match duration_parts (String.length s) 0 s with
    | None => None
    | Some d => if (neg : bool) then Some (i64 (- i64 d)) else if 2 ^ 63 - 1 <? d then None else Some d
    end.

Example parse_90m : ParseDuration "1h30m" = Some (5400 * 1000000000).
Proof. vm_compute. reflexivity. Qed.
Example parse_frac : ParseDuration "-1.5s" = Some (- 1500000000).
Proof. vm_compute. reflexivity. Qed.
Example parse_big : ParseDuration "9223372036854775807ns" = Some (2 ^ 63 - 1) /\ ParseDuration "9223372036854775808ns" = None
  /\ ParseDuration "2562048h" = None /\ ParseDuration "10" = None /\ ParseDuration ".s" = None.
Proof. vm_compute. repeat split. Qed.

(** ** Bounds *)

Lemma digit_value c : is_digit c = true -> 0 <= code c - 48 <= 9.
Proof. unfold is_digit, between. intros. bools. lia. Qed.

Lemma leadingInt_spec s : forall x, 0 <= x <= 2 ^ 63 -> match leadingInt x s with
  | Some (v, t) => 0 <= v <= 2 ^ 63 /\ exists d, s = d +:+ t /\ all_digits d = true /\ v = digits_val x d
  | None => True end.
Proof.
  induction s as [|c s IH]; intros x Hx; cbn [leadingInt]; [split; [done|]; by exists ""|].
  destruct (is_digit c) eqn:Ed; [|split; [done|]; by exists ""].
  destruct (Z.ltb_spec (2 ^ 63 / 10) x); [done|]. pose proof (digit_value c Ed). destruct (Z.ltb_spec (2 ^ 63) (x * 10 + (code c - 48))); [done|].
  specialize (IH (x * 10 + (code c - 48)) ltac:(lia)). destruct (leadingInt _ s) as [[v t]|]; [|done].
  destruct IH as (Hv & d & -> & Ha & ->). split; [done|]. exists (String c d). split_and!; [done| |done]. cbn. by rewrite Ed.
Qed.

Lemma leadingFraction_len s : forall x sc o f sc' t, leadingFraction x sc o s = (f, sc', t) -> (String.length t <= String.length s)%nat.
Proof.
  induction s as [|c s IH]; intros x sc o f sc' t; cbn [leadingFraction]; [by intros [= _ _ <-]|].
  destruct (is_digit c); [|by intros [= _ _ <-]].
  destruct (_ || _); [intros E%IH; cbn; lia|]. destruct (_ <? _); intros E%IH; cbn; lia.
Qed.

Lemma span_unit_len s u t : span_unit s = (u, t) -> s = u +:+ t.
Proof.
  revert u. induction s as [|c s IH]; intros u; cbn [span_unit]; [by intros [= <- <-]|].
  destruct (_ || _); [by intros [= <- <-]|]. destruct (span_unit s) as [u' t'] eqn:E. intros [= <- <-]. rewrite (IH u' eq_refl) at 1. done.
Qed.

Lemma append_length a b : String.length (a +:+ b) = (String.length a + String.length b)%nat.
Proof. induction a as [|c a IH]; [done|]. change (S (String.length (a +:+ b)) = S (String.length a + String.length b)). by rewrite IH. Qed.

Lemma unit_of_pos u n : unit_of u = Some n -> 1 <= n <= 3600 * 1000000000 /\ u <> "".
Proof.
  unfold unit_of. intros E. split; [|by intros ->].
  repeat (destruct (String.eqb _ _) in E; cbn [orb] in E; [injection E as <-; lia|]); try discriminate.
Qed.

Lemma duration_part_spec s v t : duration_part s = Some (v, t) -> 0 <= v <= 2 ^ 63 /\ (String.length t < String.length s)%nat.
Proof.
  unfold duration_part. destruct s as [|c s0]; [done|]. set (s := String c s0). destruct (negb _); [done|].
  pose proof (leadingInt_spec s 0 ltac:(lia)) as Hi. destruct (leadingInt 0 s) as [[v0 t0]|]; [|done]. destruct Hi as (Hv & d & Es & _ & _).
  assert (String.length t0 <= String.length s)%nat as Hl by (rewrite Es, append_length; lia).
  destruct (match t0 with String "." r => _ | _ => _ end) as [[[f sc] t1] post] eqn:Ef.
  assert (String.length t1 <= String.length s)%nat as Hl1.
  { destruct t0 as [|a r]; [injection Ef as <- <- <- <-; done|].
    destruct a as [[] [] [] [] [] [] [] []]; try (injection Ef as <- <- <- <-; done).
    destruct (leadingFraction 0 (f64_of_Z 1) false r) as [[f' sc'] t'] eqn:El. injection Ef as <- <- <- <-.
    apply leadingFraction_len in El. etransitivity; [exact El|]. etransitivity; [|exact Hl]. cbn. lia. }
  destruct (negb _ && negb post); [done|]. destruct (span_unit t1) as [u t2] eqn:Eu. apply span_unit_len in Eu.
  destruct (unit_of u) as [n|] eqn:En; [|done]. apply unit_of_pos in En as [Hn Hu].
  assert (String.length t2 < String.length s)%nat as Hl2.
  { rewrite Eu, append_length in Hl1. destruct u as [|a u]; [done|]. eapply Nat.lt_le_trans; [|exact Hl1]. cbn. lia. }
  destruct (Z.ltb_spec (2 ^ 63 / n) v0); [done|]. assert (0 <= v0 * n <= 2 ^ 63) as Hm.
  { pose proof (Z.mul_div_le (2 ^ 63) n ltac:(lia)). nia. }
  destruct (Z.ltb_spec 0 f); cbn [andb]; [|by intros [= <- <-]].
  destruct (Z.ltb_spec (2 ^ 63) (u64 (v0 * n + f64_trunc (fmul (f64_of_Z f) (fdiv (f64_of_Z n) sc))))); [done|]. intros [= <- <-].
  split; [|done]. pose proof (u64_range (v0 * n + f64_trunc (fmul (f64_of_Z f) (fdiv (f64_of_Z n) sc)))) as Hr. unfold in_u64 in Hr. lia.
Qed.

Lemma duration_parts_range n : forall d s r, 0 <= d <= 2 ^ 63 -> duration_parts n d s = Some r -> 0 <= r <= 2 ^ 63.
Proof.
  induction n as [|n IH]; intros d s r Hd; destruct s as [|c s]; cbn [duration_parts]; try (intros [= <-]; lia); try done.
  destruct (duration_part _) as [[v t]|]; [|done]. destruct (Z.ltb_spec (2 ^ 63) (u64 (d + v))); [done|]. apply IH.
  pose proof (u64_range (d + v)) as Hr. unfold in_u64 in Hr. lia.
Qed.

(** More fuel than the length of the text changes nothing. *)
Lemma duration_parts_fuel n : forall m d s, (String.length s <= n)%nat -> (String.length s <= m)%nat ->
  duration_parts n d s = duration_parts m d s.
Proof.
  induction n as [|n IH]; intros m d s Hn Hm; destruct s as [|c s]; cbn in Hn; try lia; [by destruct m|by destruct m|].
  destruct m as [|m]; [cbn in Hm; lia|]. cbn [duration_parts]. destruct (duration_part _) as [[v t]|] eqn:E; [|done].
  apply duration_part_spec in E as [_ Ht]. cbn in Ht, Hm. case_if; [done|]. apply IH; lia.
Qed.

(** A duration that is read fits its type, and the loop always had the fuel to
    reach the end of the text. *)
Theorem ParseDuration_bounds s : 
  (forall d, ParseDuration s = Some d -> in_i64 d) /\
  forall fuel d, (String.length s <= fuel)%nat -> duration_parts fuel d s = duration_parts (String.length s) d s.
Proof.
  split; [|intros fuel d Hf; by apply duration_parts_fuel]. intros d. unfold ParseDuration.
  destruct (match s with String "-" r => _ | _ => _ end) as [neg s']. case_if; [intros [= <-]; unfold in_i64; lia|]. case_if; [done|].
  destruct (duration_parts _ 0 s') as [r|] eqn:Er; [|done]. apply duration_parts_range in Er; [|lia].
  destruct neg; [intros [= <-]; apply i64_range|]. destruct (Z.ltb_spec (2 ^ 63 - 1) r); [done|]. intros [= <-]. unfold in_i64. lia.
Qed.
