(* ===== verification/Python.v ===== *)
(** * Python values and [json]

    The parts of the Python language and of its [json] module that
    [src/connector/bacnet] uses: [json.dumps] with its default layout and ASCII
    escapes, [json.loads], dictionary access, and the numbers of [int].  Strings
    are the UTF-8 texts of Python strings.  [loads] is given for JSON proper in
    UTF-8: the literals [NaN] and [Infinity], which Python adds to the syntax,
    a byte order mark and the other encodings it detects are not read, and an
    escaped half of a surrogate pair becomes U+FFFD as in Go.

    The theorem: what [dumps] writes is read as the same value by the decoder of
    the gateway. *)

From Stdlib Require Import ZArith Lia Bool Ascii String List SpecFloat.
From stdpp Require Import base list strings gmap.
From S2P Require Import Prelude Json GoText Float.
#[local] Open Scope string_scope.
#[local] Open Scope list_scope.
#[local] Open Scope Z_scope.

(** ** [json.dumps] *)

(** One ASCII character inside a string. *)
Definition py_byte (c : ascii) : string :=
  let k := code c in
  if k =? 34 then backslash 34
  else if k =? 92 then backslash 92
  else if k =? 8 then backslash 98
  else if k =? 12 then backslash 102
  else if k =? 10 then backslash 110
  else if k =? 13 then backslash 114
  else if k =? 9 then backslash 116
  else if (k <? 32) || (k =? 127) then escape_u k
  else String c "".

(** Any other character: one escape, or the two of a surrogate pair. *)
Definition py_rune (z : Z) : string :=
  if z <? 65536 then escape_u z
  else escape_u (55296 + (z - 65536) / 1024) +:+ escape_u (56320 + (z - 65536) mod 1024).

Definition rune2 (c c1 : ascii) : Z := (code c - 192) * 64 + (code c1 - 128).
Definition rune3 (c c1 c2 : ascii) : Z := ((code c - 224) * 64 + (code c1 - 128)) * 64 + (code c2 - 128).
Definition rune4 (c c1 c2 c3 : ascii) : Z :=
  (((code c - 240) * 64 + (code c1 - 128)) * 64 + (code c2 - 128)) * 64 + (code c3 - 128).

Fixpoint py_body (s : string) : string :=
  match s with
  | EmptyString => ""
  | String c r =>
    if code c <? 128 then py_byte c +:+ py_body r
    else
      match utf8_len c r, r with
      | 2%nat, String c1 r1 => py_rune (rune2 c c1) +:+ py_body r1
      | 3%nat, String c1 (String c2 r2) => py_rune (rune3 c c1 c2) +:+ py_body r2
      | 4%nat, String c1 (String c2 (String c3 r3)) => py_rune (rune4 c c1 c2 c3) +:+ py_body r3
      | _, _ => py_body r
      end
  end.

Definition dumps : json -> string := print_with (fun _ => "") " " " " py_body 0.

(** ** Numbers and times as text *)

(** [repr] of a float: the shortest digits [0.d * 10^k] that read back, with an
    exponent of at least two digits outside [1e-4] to [1e16]. *)
Definition py_layout (neg : bool) (d : string) (k : Z) : string :=
  let n := strlen d in
  (if neg then "-" else "") +:+
  if (k <=? -4) || (16 <? k) then
    let e := k - 1 in
    match d with
    | String c EmptyString => d
    | String c r => String c ("." +:+ r)
    | EmptyString => d
    end +:+ (if e <? 0 then "e-" else "e+") +:+ (if Z.abs e <? 10 then "0" else "") +:+ dec_string (Z.abs e)
  else if k <=? 0 then "0." +:+ zeros (Z.to_nat (- k)) +:+ d
  else if n <=? k then d +:+ zeros (Z.to_nat (k - n)) +:+ ".0"
  else String.substring 0 (Z.to_nat k) d +:+ "." +:+ String.substring (Z.to_nat k) (Z.to_nat (n - k)) d.

(** [None] only where no 17 digits read back as the number, which they do for
    every double. *)
Definition py_repr (x : spec_float) : option string :=
  match x with
  | S754_nan => Some "nan"
  | S754_infinity s => Some (if s then "-inf" else "inf")
  | _ => format_with py_layout "0.0" x
  end.

(** What [json.dumps] writes for a float. *)
Definition py_float_json (x : spec_float) : option json :=
  match x with
  | S754_nan => Some (JNum "NaN")
  | S754_infinity s => Some (JNum (if s then "-Infinity" else "Infinity"))
  | _ => option_map JNum (py_repr x)
  end.

Example repr_ex :
  map (fun s => match parse_f64 s with Some x => py_repr x | None => None end)
    ["21.5"; "0.1"; "-0.30000000000000004"; "1e16"; "1e-5"; "123456789"; "5e-324"; "1.7976931348623157e308"; "100"; "1e15"; "0.0001"; "-0"]
  = map Some ["21.5"; "0.1"; "-0.30000000000000004"; "1e+16"; "1e-05"; "123456789.0"; "5e-324"; "1.7976931348623157e+308"; "100.0";
      "1000000000000000.0"; "0.0001"; "-0.0"].
Proof. vm_compute. reflexivity. Qed.

(** The civil date of a day since 1970-01-01: year, month, day. *)
Definition civil (days : Z) : Z * Z * Z :=
  let z := days + 719468 in
  let era := z / 146097 in
  let doe := z mod 146097 in
  let yoe := (doe - doe / 1460 + doe / 36524 - doe / 146096) / 365 in
  let doy := doe - (365 * yoe + yoe / 4 - yoe / 100) in
  let mp := (5 * doy + 2) / 153 in
  let m := if mp <? 10 then mp + 3 else mp - 9 in
  (yoe + era * 400 + (if m <=? 2 then 1 else 0), m, doy - (153 * mp + 2) / 5 + 1).

Definition pad (n : nat) (z : Z) : string := let d := itoa z in zeros (n - String.length d) +:+ d.

(** [strftime("%Y-%m-%dT%H:%M:%S")] of a UTC time in seconds. *)
Definition date_text (s : Z) : string :=
  let '(y, m, d) := civil (s / 86400) in
  let r := s mod 86400 in
  pad 4 y +:+ "-" +:+ pad 2 m +:+ "-" +:+ pad 2 d +:+ "T" +:+ pad 2 (r / 3600) +:+ ":" +:+ pad 2 (r / 60 mod 60) +:+ ":" +:+ pad 2 (r mod 60).
Definition iso_seconds (us : Z) : string := date_text (us / 1000000) +:+ "Z".
(** [isoformat(timespec="microseconds")] with Z for the zone, of microseconds. *)
Definition iso_micro (us : Z) : string := date_text (us / 1000000) +:+ "." +:+ pad 6 (us mod 1000000) +:+ "Z".

Example iso_ex : map iso_micro [0; 951782400000001; 1772323199999999; 1790000000123456]
  = ["1970-01-01T00:00:00.000000Z"; "2000-02-29T00:00:00.000001Z"; "2026-02-28T23:59:59.999999Z"; "2026-09-21T14:13:20.123456Z"].
Proof. vm_compute. reflexivity. Qed.

(** ** [json.loads] *)

Definition loads (data : string) : option json := if valid_utf8 data then parse data else None.

(** A dictionary keeps the last value of a repeated key. *)
Fixpoint py_get (k : string) (l : list (string * json)) : option json :=
  match l with
  | [] => None
  | (k', v) :: l =>
    match py_get k l with
    | Some w => Some w
    | None => if String.eqb k k' then Some v else None
    end
  end.
Definition py_keys (l : list (string * json)) : gset string := list_to_set (map fst l).

(** [type(v) is int], with the value. *)
Definition py_int (v : json) : option Z :=
  match v with
  | JNum lit =>
    match lit with
    | String "-" r => if all_digits r then Some (- digits_val 0 r) else None
    | _ => if all_digits lit then Some (digits_val 0 lit) else None
    end
  | _ => None
  end.

(** ** What is written is read *)

Lemma hex_val_digit d : 0 <= d < 16 -> hex_val (hex_digit d) = Some d.
Proof.
  intros H. assert (d = 0 \/ d = 1 \/ d = 2 \/ d = 3 \/ d = 4 \/ d = 5 \/ d = 6 \/ d = 7 \/ d = 8 \/ d = 9 \/ d = 10 \/
    d = 11 \/ d = 12 \/ d = 13 \/ d = 14 \/ d = 15) as Hd by lia.
  repeat destruct Hd as [->|Hd]; [reflexivity..|subst; reflexivity].
Qed.

Lemma hex4_digits z : 0 <= z < 65536 ->
  hex4 (hex_digit (z / 4096)) (hex_digit ((z / 256) mod 16)) (hex_digit ((z / 16) mod 16)) (hex_digit (z mod 16)) = Some z.
Proof.
  intros H. unfold hex4.
  rewrite !hex_val_digit by (try apply Z.mod_pos_bound; try split; try apply Z.div_pos; try apply Z.div_lt_upper_bound; lia).
  f_equal. assert (z / 256 = z / 16 / 16) as -> by (rewrite Z.div_div by lia; reflexivity).
  assert (z / 4096 = z / 16 / 16 / 16) as -> by (rewrite !Z.div_div by lia; reflexivity).
  pose proof (Z.div_mod z 16 ltac:(lia)). pose proof (Z.div_mod (z / 16) 16 ltac:(lia)).
  pose proof (Z.div_mod (z / 16 / 16) 16 ltac:(lia)). lia.
Qed.

Lemma unquote_u a b d f t :
  unquote (String (chr 92) (String (chr 117) (String a (String b (String d (String f t)))))) =
  match hex4 a b d f with
  | None => None
  | Some rr =>
    if negb (is_surrogate rr) then prepend (encode_rune rr) (unquote t)
    else
      match t with
      | String bs (String u (String a' (String b' (String d' (String f' r3))))) =>
        match (if (code bs =? 92) && (code u =? 117) then hex4 a' b' d' f' else None) with
        | Some rr1 =>
          match utf16_pair rr rr1 with
          | Some dec => prepend (encode_rune dec) (unquote r3)
          | None => prepend replacement (unquote t)
          end
        | None => prepend replacement (unquote t)
        end
      | _ => prepend replacement (unquote t)
      end
  end.
Proof. reflexivity. Qed.

Lemma escape_u_app z t : escape_u z +:+ t =
  String (chr 92) (String (chr 117) (String (hex_digit (z / 4096)) (String (hex_digit ((z / 256) mod 16))
    (String (hex_digit ((z / 16) mod 16)) (String (hex_digit (z mod 16)) t))))).
Proof. reflexivity. Qed.

Lemma unquote_escape z t : 0 <= z < 65536 -> is_surrogate z = false ->
  unquote (escape_u z +:+ t) = prepend (encode_rune z) (unquote t).
Proof. intros Hz Hs. by rewrite escape_u_app, unquote_u, hex4_digits, Hs by lia. Qed.

Lemma unquote_pair hi lo t : 55296 <= hi < 56320 -> 56320 <= lo < 57344 ->
  unquote (escape_u hi +:+ escape_u lo +:+ t) = prepend (encode_rune ((hi - 55296) * 1024 + (lo - 56320) + 65536)) (unquote t).
Proof.
  intros Hh Hl. rewrite (escape_u_app hi), unquote_u, hex4_digits by lia.
  replace (is_surrogate hi) with true by (unfold is_surrogate, between; lia). cbn [negb]. rewrite (escape_u_app lo).
  change ((code (chr 92) =? 92) && (code (chr 117) =? 117)) with true. cbn match. rewrite hex4_digits by lia.
  unfold utf16_pair, between.
  by replace ((55296 <=? hi) && (hi <=? 56319) && ((56320 <=? lo) && (lo <=? 57343))) with true by lia.
Qed.

Lemma unquote_rune z t : 0 <= z < 1114112 -> is_surrogate z = false ->
  unquote (py_rune z +:+ t) = prepend (encode_rune z) (unquote t).
Proof.
  intros Hz Hs. unfold py_rune. destruct (Z.ltb_spec z 65536); [apply unquote_escape; [lia|done]|].
  pose proof (Z.div_mod (z - 65536) 1024 ltac:(lia)). pose proof (Z.mod_pos_bound (z - 65536) 1024 ltac:(lia)).
  assert (0 <= (z - 65536) / 1024 < 1024) by (split; [apply Z.div_pos|apply Z.div_lt_upper_bound]; lia).
  rewrite append_assoc_l, unquote_pair by lia. do 2 f_equal. lia.
Qed.


(** Splitting a number of base-64 digits. *)
Lemma base64 a b : 0 <= b < 64 -> (a * 64 + b) / 64 = a /\ (a * 64 + b) mod 64 = b.
Proof. intros H. rewrite Z.div_add_l, Z.div_small, Z.add_0_r, Z.add_comm, Z.mod_add, Z.mod_small by lia. done. Qed.

Ltac utf8_bounds E :=
  unfold utf8_len, between in E;
  repeat match type of E with context [if ?b then _ else _] => destruct b eqn:?; try discriminate E end; bools;
  repeat match goal with H : context [if ?b then _ else _] |- _ => destruct b eqn:? end; bools.

Lemma encode_rune2 c c1 r : utf8_len c (String c1 r) = 2%nat ->
  encode_rune (rune2 c c1) = String c (String c1 "") /\ 128 <= rune2 c c1 < 2048.
Proof.
  intros E. assert (194 <= code c <= 223 /\ 128 <= code c1 <= 191) as [Hc H1] by (destruct r as [|? [|]]; utf8_bounds E; lia).
  unfold rune2 in *. pose proof (base64 (code c - 192) (code c1 - 128) ltac:(lia)) as [E1 E2]. split; [|lia].
  unfold encode_rune. replace (_ <? 128) with false by lia. replace (_ <? 2048) with true by lia. rewrite E1, E2.
  unfold str1. replace (192 + (code c - 192)) with (code c) by lia. replace (128 + (code c1 - 128)) with (code c1) by lia.
  by rewrite !chr_code.
Qed.

Lemma encode_rune3 c c1 c2 r : utf8_len c (String c1 (String c2 r)) = 3%nat ->
  encode_rune (rune3 c c1 c2) = String c (String c1 (String c2 "")) /\ 2048 <= rune3 c c1 c2 < 65536 /\ is_surrogate (rune3 c c1 c2) = false.
Proof.
  intros E.
  assert (224 <= code c <= 239 /\ 128 <= code c1 <= 191 /\ 128 <= code c2 <= 191 /\ (code c = 224 -> 160 <= code c1) /\
    (code c = 237 -> code c1 <= 159)) as (Hc & H1 & H2 & Hlo & Hsur) by (destruct r; utf8_bounds E; lia).
  unfold rune3. set (a := code c - 224) in *. set (b := code c1 - 128) in *. set (d := code c2 - 128) in *.
  assert (2048 <= (a * 64 + b) * 64 + d < 65536 /\ is_surrogate ((a * 64 + b) * 64 + d) = false) as [Hr Hs]
    by (unfold is_surrogate, between; lia).
  split; [|done]. unfold encode_rune. replace (_ <? 128) with false by lia. replace (_ <? 2048) with false by lia.
  replace (_ <? 65536) with true by lia. change 4096 with (64 * 64). rewrite <- (Z.div_div _ 64 64) by lia.
  destruct (base64 (a * 64 + b) d ltac:(lia)) as [-> ->]. destruct (base64 a b ltac:(lia)) as [-> ->].
  subst a b d. unfold str1. rewrite !Zplus_minus. by rewrite !chr_code.
Qed.

Lemma encode_rune4 c c1 c2 c3 r : utf8_len c (String c1 (String c2 (String c3 r))) = 4%nat ->
  encode_rune (rune4 c c1 c2 c3) = String c (String c1 (String c2 (String c3 ""))) /\ 65536 <= rune4 c c1 c2 c3 < 1114112.
Proof.
  intros E.
  assert (240 <= code c <= 244 /\ 128 <= code c1 <= 191 /\ 128 <= code c2 <= 191 /\ 128 <= code c3 <= 191 /\
    (code c = 240 -> 144 <= code c1) /\ (code c = 244 -> code c1 <= 143)) as (Hc & H1 & H2 & H3 & Hlo & Hhi) by (utf8_bounds E; lia).
  unfold rune4. set (a := code c - 240) in *. set (b := code c1 - 128) in *. set (d := code c2 - 128) in *. set (f := code c3 - 128) in *.
  assert (65536 <= ((a * 64 + b) * 64 + d) * 64 + f < 1114112) as Hr by lia.
  split; [|done]. unfold encode_rune. replace (_ <? 128) with false by lia. replace (_ <? 2048) with false by lia.
  replace (_ <? 65536) with false by lia. change 262144 with (64 * 4096). rewrite <- (Z.div_div _ 64 4096) by lia.
  change 4096 with (64 * 64). rewrite <- !(Z.div_div _ 64 64) by lia.
  destruct (base64 ((a * 64 + b) * 64 + d) f ltac:(lia)) as [-> ->]. destruct (base64 (a * 64 + b) d ltac:(lia)) as [-> ->].
  destruct (base64 a b ltac:(lia)) as [-> ->]. subst a b d f. unfold str1. rewrite !Zplus_minus. by rewrite !chr_code.
Qed.

Lemma unquote_py_byte c t : code c < 128 -> unquote (py_byte c +:+ t) = prepend (String c "") (unquote t).
Proof.
  destruct c as [b0 b1 b2 b3 b4 b5 b6 b7].
  destruct b7; [intros H; exfalso; revert H; destruct b0, b1, b2, b3, b4, b5, b6; vm_compute; discriminate|intros _].
  destruct b0, b1, b2, b3, b4, b5, b6; reflexivity.
Qed.

Lemma not_surrogate z : z < 55296 \/ 57343 < z -> is_surrogate z = false.
Proof. unfold is_surrogate, between. lia. Qed.

Lemma unquote_py_body n : forall s rest, (String.length s < n)%nat -> valid_utf8 s = true ->
  unquote (py_body s +:+ rest) = prepend s (unquote rest).
Proof.
  induction n as [|n IH]; intros s rest Hn Hv; [lia|]. destruct s as [|c r].
  { change (unquote rest = prepend "" (unquote rest)). by destruct (unquote rest) as [[x y]|]. }
  cbn [py_body valid_utf8] in *. destruct (Z.ltb_spec (code c) 128).
  - rewrite append_assoc_l, unquote_py_byte, IH, prepend_app by (cbn in Hn; lia || auto). reflexivity.
  - destruct (utf8_len c r) as [|[|[|[|[|]]]]] eqn:E; try discriminate.
    + destruct r as [|c1 r]; [discriminate|]. apply encode_rune2 in E as [E Hr].
      rewrite append_assoc_l, unquote_rune, IH, prepend_app, E by (cbn in Hn; lia || (apply not_surrogate; lia) || auto). reflexivity.
    + destruct r as [|c1 [|c2 r]]; try discriminate. apply encode_rune3 in E as (E & Hr & Hs).
      rewrite append_assoc_l, unquote_rune, IH, prepend_app, E by (cbn in Hn; lia || auto). reflexivity.
    + destruct r as [|c1 [|c2 [|c3 r]]]; try discriminate. apply encode_rune4 in E as [E Hr].
      rewrite append_assoc_l, unquote_rune, IH, prepend_app, E by (cbn in Hn; lia || (apply not_surrogate; lia) || auto). reflexivity.
Qed.

Lemma py_body_read s rest : valid_utf8 s = true -> unquote (py_body s +:+ str1 34 +:+ rest) = Some (s, rest).
Proof.
  intros H. rewrite (unquote_py_body (S (String.length s))) by (lia || auto).
  change (prepend s (Some ("", rest)) = Some (s, rest)). cbn. by rewrite append_nil_r.
Qed.

(** The gateway's decoder reads what [json.dumps] writes. *)
Lemma parse_dumps v : valid v = true -> depth_of v <= max_nesting -> parse (dumps v) = Some v.
Proof. intros. apply parse_print_with; auto using py_body_read. Qed.

(** A float as JSON reads back, unless it is not finite. *)
Lemma py_float_reads x v : py_float_json x = Some v -> f64_finite x = true ->
  exists lit, v = JNum lit /\ valid_num lit = true /\ parse_f64 lit = Some x.
Proof.
  destruct x as [[]| | |s m e]; cbn [py_float_json py_repr format_with f64_finite]; try done.
  - intros [= <-] _. by exists "-0.0".
  - intros [= <-] _. by exists "0.0".
  - destruct (shortest _ _ _ _ _ _ _ _) as [lit|] eqn:E; [|done]. intros [= <-] _. exists lit. split; [done|]. by apply shortest_parses in E.
Qed.

Lemma py_float_poison x : f64_finite x = false -> forall v, py_float_json x = Some v -> valid v = false.
Proof. destruct x as [| [] | |]; cbn; try done; by intros _ v [= <-]. Qed.
