(* ===== verification/Encoding.v ===== *)
(** * Further encodings

    What the durable ledgers and snapshots use of [encoding/base64] and
    [encoding/json] beyond the other files: byte strings as base64, integers of
    any width, maps, and the fact that every string the JSON reader yields is
    valid UTF-8, so that it can be written again. *)

From Stdlib Require Import ZArith Lia Bool Ascii String List.
From stdpp Require Import base list strings gmap sorting.
From S2P Require Import Prelude Json GoText Float.
#[local] Open Scope string_scope.
#[local] Open Scope list_scope.
#[local] Open Scope Z_scope.

(** ** Base64, standard alphabet *)

Definition b64_char (i : Z) : ascii :=
  chr (if i <? 26 then 65 + i else if i <? 52 then 71 + i else if i <? 62 then i - 4 else if i =? 62 then 43 else 47).

Definition b64_val (c : ascii) : option Z :=
  let k := code c in
  if between 65 90 k then Some (k - 65)
  else if between 97 122 k then Some (k - 71)
  else if between 48 57 k then Some (k + 4)
  else if k =? 43 then Some 62
  else if k =? 47 then Some 63
  else None.

Definition pad : ascii := "=".

Fixpoint b64_encode (s : string) : string :=
  match s with
  | EmptyString => ""
  | String a EmptyString =>
    let n := code a * 16 in String (b64_char (n / 64)) (String (b64_char (n mod 64)) (String pad (String pad "")))
  | String a (String b EmptyString) =>
    let n := code a * 1024 + code b * 4 in
    String (b64_char (n / 4096)) (String (b64_char (n / 64 mod 64)) (String (b64_char (n mod 64)) (String pad "")))
  | String a (String b (String c r)) =>
    let n := code a * 65536 + code b * 256 + code c in
    String (b64_char (n / 262144)) (String (b64_char (n / 4096 mod 64))
      (String (b64_char (n / 64 mod 64)) (String (b64_char (n mod 64)) (b64_encode r))))
  end.

(** Groups of four; padding only at the end; stray low bits are ignored. *)
Fixpoint b64_groups (s : string) : option string :=
  match s with
  | EmptyString => Some ""
  | String a (String b (String c (String d r))) =>
    match b64_val a, b64_val b with
    | Some x, Some y =>
      if Ascii.eqb c pad then
        if Ascii.eqb d pad && String.eqb r "" then Some (str1 ((x * 64 + y) / 16)) else None
      else
        match b64_val c with
        | None => None
        | Some z =>
          if Ascii.eqb d pad then
            if String.eqb r "" then let n := (x * 64 + y) * 64 + z in Some (str1 (n / 1024) +:+ str1 (n / 4 mod 256)) else None
          else
            match b64_val d, b64_groups r with
            | Some w, Some t =>
              let n := ((x * 64 + y) * 64 + z) * 64 + w in
              Some (str1 (n / 65536) +:+ str1 (n / 256 mod 256) +:+ str1 (n mod 256) +:+ t)
            | _, _ => None
            end
        end
    | _, _ => None
    end
  | _ => None
  end.

(** Newlines are skipped. *)
Fixpoint no_newlines (s : string) : string :=
  match s with
  | EmptyString => ""
  | String c r => if (code c =? 10) || (code c =? 13) then no_newlines r else String c (no_newlines r)
  end.

Definition b64_decode (s : string) : option string := b64_groups (no_newlines s).

Lemma b64_chars : forallb (fun n => let i := Z.of_nat n in
  match b64_val (b64_char i) with Some j => j =? i | None => false end && negb (Ascii.eqb (b64_char i) pad) &&
  negb ((code (b64_char i) =? 10) || (code (b64_char i) =? 13)) && (code (b64_char i) <? 128)) (seq 0 64) = true.
Proof. vm_compute. reflexivity. Qed.

Lemma b64_char_spec i : 0 <= i < 64 ->
  b64_val (b64_char i) = Some i /\ Ascii.eqb (b64_char i) pad = false /\
  ((code (b64_char i) =? 10) || (code (b64_char i) =? 13)) = false /\ (code (b64_char i) <? 128) = true.
Proof.
  intros Hi. pose proof (proj1 (List.forallb_forall _ _) b64_chars (Z.to_nat i)) as Hb.
  specialize (Hb ltac:(apply in_seq; lia)). cbv zeta beta in Hb. rewrite Z2Nat.id in Hb by lia.
  destruct (b64_val (b64_char i)) as [j|]; [|discriminate]. destruct (j =? i) eqn:Ej; [|discriminate]. apply Z.eqb_eq in Ej. subst j.
  destruct (Ascii.eqb _ _); [discriminate|]. destruct (_ || _); [discriminate|]. auto.
Qed.


Lemma str_ind3 (P : string -> Prop) : P "" -> (forall a, P (String a "")) -> (forall a b, P (String a (String b ""))) ->
  (forall a b c r, P r -> P (String a (String b (String c r)))) -> forall s, P s.
Proof.
  intros H0 H1 H2 H3. fix IH 1. intros [|a [|b [|c r]]]; [exact H0|apply H1|apply H2|apply H3, IH].
Qed.

Ltac dm := Z.to_euclidean_division_equations; lia.

(** What [b64_encode] writes is plain text without newlines. *)
Lemma b64_plain s : no_newlines (b64_encode s) = b64_encode s /\ valid_utf8 (b64_encode s) = true.
Proof.
  induction s as [|a|a b|a b c r [IH1 IH2]] using str_ind3; cbn [b64_encode].
  - split; reflexivity.
  - pose proof (code_bound a). destruct (b64_char_spec (code a * 16 / 64)) as (_ & _ & E1 & F1); [dm|].
    destruct (b64_char_spec ((code a * 16) mod 64)) as (_ & _ & E2 & F2); [dm|].
    cbn [no_newlines valid_utf8]. rewrite E1, E2, F1, F2. split; reflexivity.
  - pose proof (code_bound a). pose proof (code_bound b). set (n := code a * 1024 + code b * 4).
    destruct (b64_char_spec (n / 4096)) as (_ & _ & E1 & F1); [dm|].
    destruct (b64_char_spec (n / 64 mod 64)) as (_ & _ & E2 & F2); [dm|].
    destruct (b64_char_spec (n mod 64)) as (_ & _ & E3 & F3); [dm|].
    cbn [no_newlines valid_utf8]. rewrite E1, E2, E3, F1, F2, F3. split; reflexivity.
  - pose proof (code_bound a). pose proof (code_bound b). pose proof (code_bound c). set (n := code a * 65536 + code b * 256 + code c).
    destruct (b64_char_spec (n / 262144)) as (_ & _ & E1 & F1); [dm|].
    destruct (b64_char_spec (n / 4096 mod 64)) as (_ & _ & E2 & F2); [dm|].
    destruct (b64_char_spec (n / 64 mod 64)) as (_ & _ & E3 & F3); [dm|].
    destruct (b64_char_spec (n mod 64)) as (_ & _ & E4 & F4); [dm|].
    cbn [no_newlines valid_utf8]. rewrite E1, E2, E3, E4, F1, F2, F3, F4, IH1. auto.
Qed.

Lemma b64_roundtrip s : b64_decode (b64_encode s) = Some s.
Proof.
  unfold b64_decode. rewrite (proj1 (b64_plain s)). induction s as [|a|a b|a b c r IH] using str_ind3; cbn [b64_encode].
  - reflexivity.
  - pose proof (code_bound a). destruct (b64_char_spec (code a * 16 / 64)) as (E1 & _); [dm|].
    destruct (b64_char_spec ((code a * 16) mod 64)) as (E2 & _); [dm|].
    cbn [b64_groups]. rewrite E1, E2. cbn [Ascii.eqb]. change (Ascii.eqb pad pad) with true. cbn [andb String.eqb].
    replace ((code a * 16 / 64 * 64 + (code a * 16) mod 64) / 16) with (code a) by dm. unfold str1. rewrite chr_code. reflexivity.
  - pose proof (code_bound a). pose proof (code_bound b). set (n := code a * 1024 + code b * 4).
    destruct (b64_char_spec (n / 4096)) as (E1 & _); [dm|]. destruct (b64_char_spec (n / 64 mod 64)) as (E2 & _); [dm|].
    destruct (b64_char_spec (n mod 64)) as (E3 & P3 & _); [dm|].
    cbn [b64_groups]. rewrite E1, E2, P3, E3. change (Ascii.eqb pad pad) with true. cbn [String.eqb]. cbv zeta.
    replace ((n / 4096 * 64 + n / 64 mod 64) * 64 + n mod 64) with n by dm.
    replace (n / 1024) with (code a) by dm. replace (n / 4 mod 256) with (code b) by dm. unfold str1. rewrite !chr_code. reflexivity.
  - pose proof (code_bound a). pose proof (code_bound b). pose proof (code_bound c). set (n := code a * 65536 + code b * 256 + code c).
    destruct (b64_char_spec (n / 262144)) as (E1 & _); [dm|]. destruct (b64_char_spec (n / 4096 mod 64)) as (E2 & _); [dm|].
    destruct (b64_char_spec (n / 64 mod 64)) as (E3 & P3 & _); [dm|]. destruct (b64_char_spec (n mod 64)) as (E4 & P4 & _); [dm|].
    cbn [b64_groups]. rewrite E1, E2, P3, E3, P4, E4, IH. cbv zeta.
    replace (((n / 262144 * 64 + n / 4096 mod 64) * 64 + n / 64 mod 64) * 64 + n mod 64) with n by dm.
    replace (n / 65536) with (code a) by dm. replace (n / 256 mod 256) with (code b) by dm. replace (n mod 256) with (code c) by dm.
    unfold str1. rewrite !chr_code. reflexivity.
Qed.

(** ** Integers, bytes and maps *)

(** An integer field: a literal without fraction or exponent, in range. *)
Definition decode_int (lo hi cur : Z) (v : json) : option Z :=
  match v with
  | JNull => Some cur
  | JNum lit =>
    let '(neg, d) := match lit with String "-" r => (true, r) | _ => (false, lit) end in
    if negb (String.eqb d "") && all_digits d && negb (neg && (0 <=? lo)) then
      let z := if neg then - digits_val 0 d else digits_val 0 d in
      if between lo hi z then Some z else None
    else None
  | _ => None
  end.

Lemma decode_int_dec lo hi cur z : 0 <= z -> lo <= z <= hi -> decode_int lo hi cur (JNum (dec_string z)) = Some z.
Proof.
  intros Hz Hr. destruct (dec_string_spec z Hz) as (Ev & Ha & c & r & E & _). unfold decode_int.
  assert (c <> "-"%char) as Hc by (intros ->; rewrite E in Ha; discriminate).
  assert ((match dec_string z with String "-" r => (true, r) | _ => (false, dec_string z) end) = (false, dec_string z)) as ->.
  { rewrite E. destruct c as [[] [] [] [] [] [] [] []]; try reflexivity. destruct Hc. reflexivity. }
  rewrite Ev, Ha. rewrite E. cbn [String.eqb negb andb]. unfold between.
  destruct (Z.leb_spec lo z), (Z.leb_spec z hi); cbn; lia || reflexivity.
Qed.

(** A byte slice: base64 in a string, or an array of numbers. *)
Definition decode_bytes (v : json) : option string :=
  match v with
  | JNull => Some ""
  | JStr s => b64_decode s
  | JArr l => option_map (fun bs => fold_right (fun b r => String (chr b) r) "" bs) (decode_list (decode_int 0 255 0) l)
  | _ => None
  end.

(** A map from strings to booleans, nil when absent; members are added to what
    is there. *)
Fixpoint decode_bools (m : gmap string bool) (l : list (string * json)) : option (gmap string bool) :=
  match l with
  | [] => Some m
  | (k, v) :: l => match decode_bool false v with Some b => decode_bools (<[k := b]> m) l | None => None end
  end.

Definition decode_bool_map (cur : option (gmap string bool)) (v : json) : option (option (gmap string bool)) :=
  match v with
  | JNull => Some None
  | JObj l => option_map Some (decode_bools (default ∅ cur) l)
  | _ => None
  end.

Definition key_le (a b : string * bool) : Prop := String.leb (fst a) (fst b) = true.
#[export] Instance key_le_dec : RelDecision key_le.
Proof. intros a b. unfold key_le. apply _. Defined.

(** Maps are written with their keys sorted. *)
Definition bool_map_json (m : option (gmap string bool)) : json :=
  match m with
  | None => JNull
  | Some m => JObj (map (fun kv => (fst kv, JBool (snd kv))) (merge_sort key_le (map_to_list m)))
  end.

Lemma decode_bools_list l : forall m, NoDup (map fst l) -> (forall k, k ∈ map fst l -> m !! k = None) ->
  decode_bools m (map (fun kv => (fst kv, JBool (snd kv))) l) = Some (list_to_map l ∪ m).
Proof.
  induction l as [|[k b] l IH]; intros m Hnd Hm; cbn in *; [rewrite map_empty_union; reflexivity|].
  apply NoDup_cons in Hnd as [Hk Hnd]. rewrite IH; [|exact Hnd|].
  - f_equal. rewrite <- insert_union_l. symmetry. apply insert_union_r. apply not_elem_of_list_to_map. exact Hk.
  - intros j Hj. rewrite lookup_insert_ne; [apply Hm; right; exact Hj|]. intros ->. contradiction.
Qed.

Lemma bool_map_roundtrip m : decode_bool_map None (bool_map_json m) = Some m.
Proof.
  destruct m as [m|]; [|reflexivity]. cbn.
  pose proof (merge_sort_Permutation key_le (map_to_list m)) as Hp.
  assert (NoDup (map fst (merge_sort key_le (map_to_list m)))) as Hnd by (rewrite Hp; apply NoDup_fst_map_to_list).
  rewrite decode_bools_list; [|exact Hnd|intros; apply lookup_empty]. cbn. rewrite map_union_empty. do 2 f_equal.
  rewrite (list_to_map_proper _ _ Hnd Hp). apply list_to_map_to_list.
Qed.

(** ** Strings that were read are valid UTF-8 *)

Lemma code_chr z : 0 <= z < 256 -> code (chr z) = z.
Proof. intros Hz. unfold code, chr. rewrite N_ascii_embedding by lia. lia. Qed.

Lemma ltb_false a b : b <= a -> (a <? b) = false.
Proof. lia. Qed.

Lemma between_true lo hi z : lo <= z <= hi -> between lo hi z = true.
Proof. unfold between. lia. Qed.
Lemma between_false lo hi z : z < lo \/ hi < z -> between lo hi z = false.
Proof. unfold between. lia. Qed.

Lemma encode_rune_app r rest : 0 <= r < 1114112 -> is_surrogate r = false -> valid_utf8 (encode_rune r +:+ rest) = valid_utf8 rest.
Proof.
  intros Hr Hs. unfold is_surrogate, between in Hs.
  assert (r < 55296 \/ 57343 < r) as Hs' by lia. clear Hs. unfold encode_rune.
  destruct (Z.ltb_spec r 128); [change (str1 r +:+ rest) with (String (chr r) rest); cbn [valid_utf8]; rewrite code_chr by lia; replace (r <? 128) with true by lia; reflexivity|].
  destruct (Z.ltb_spec r 2048).
  { change ((str1 (192 + r / 64) ++ str1 (128 + r mod 64))%string +:+ rest)
      with (String (chr (192 + r / 64)) (String (chr (128 + r mod 64)) rest)).
    cbn [valid_utf8]. rewrite code_chr, ltb_false by dm. unfold utf8_len. rewrite !code_chr by dm. rewrite !between_true by dm. reflexivity. }
  destruct (Z.ltb_spec r 65536).
  - change ((str1 (224 + r / 4096) ++ str1 (128 + (r / 64) mod 64) ++ str1 (128 + r mod 64))%string +:+ rest)
      with (String (chr (224 + r / 4096)) (String (chr (128 + (r / 64) mod 64)) (String (chr (128 + r mod 64)) rest))).
    cbn [valid_utf8]. rewrite code_chr, ltb_false by dm. unfold utf8_len. rewrite !code_chr by dm.
    rewrite (between_false 194) by dm. rewrite (between_true 224 239) by dm. rewrite (between_true 128 191 (128 + r mod 64)) by dm.
    destruct (Z.eqb_spec (224 + r / 4096) 224); [rewrite between_true by dm; reflexivity|].
    destruct (Z.eqb_spec (224 + r / 4096) 237); rewrite between_true by dm; reflexivity.
  - change ((str1 (240 + r / 262144) ++ str1 (128 + (r / 4096) mod 64) ++ str1 (128 + (r / 64) mod 64) ++ str1 (128 + r mod 64))%string +:+ rest)
      with (String (chr (240 + r / 262144)) (String (chr (128 + (r / 4096) mod 64)) (String (chr (128 + (r / 64) mod 64)) (String (chr (128 + r mod 64)) rest)))).
    cbn [valid_utf8]. rewrite code_chr, ltb_false by dm. unfold utf8_len. rewrite !code_chr by dm.
    rewrite (between_false 194) by dm. rewrite (between_false 224 239) by dm. rewrite (between_true 240 244) by dm.
    rewrite (between_true 128 191 (128 + r mod 64)) by dm. rewrite (between_true 128 191 (128 + r / 64 mod 64)) by dm.
    destruct (Z.eqb_spec (240 + r / 262144) 240); [rewrite between_true by dm; reflexivity|].
    destruct (Z.eqb_spec (240 + r / 262144) 244); rewrite between_true by dm; reflexivity.
Qed.

Lemma hex_val_bound c v : hex_val c = Some v -> 0 <= v < 16.
Proof.
  unfold hex_val, between. cbv zeta. intros E. repeat match type of E with context [if ?b then _ else _] => destruct b eqn:? end;
    try discriminate; injection E as <-; lia.
Qed.

Lemma hex4_bound a b c d v : hex4 a b c d = Some v -> 0 <= v < 65536.
Proof.
  unfold hex4. destruct (hex_val a) eqn:Ea, (hex_val b) eqn:Eb, (hex_val c) eqn:Ec, (hex_val d) eqn:Ed; try discriminate.
  intros [= <-]. apply hex_val_bound in Ea, Eb, Ec, Ed. lia.
Qed.

Lemma pair_bound r1 r2 v : utf16_pair r1 r2 = Some v -> 65536 <= v < 1114112.
Proof. unfold utf16_pair, between. destruct (_ && _) eqn:E; [|discriminate]. intros [= <-]. lia. Qed.

Lemma prepend_inv p o x y : prepend p o = Some (x, y) -> exists x', o = Some (x', y) /\ x = p +:+ x'.
Proof. destruct o as [[x' y']|]; [|discriminate]. intros [= <- <-]. eauto. Qed.

Lemma valid_ascii c x : code c < 128 -> valid_utf8 (String c "" +:+ x) = valid_utf8 x.
Proof. intros Hc. change (String c "" +:+ x) with (String c x). cbn [valid_utf8]. replace (code c <? 128) with true by lia. reflexivity. Qed.

Lemma valid_replacement x : valid_utf8 (replacement +:+ x) = valid_utf8 x.
Proof. apply encode_rune_app; [lia|reflexivity]. Qed.

Lemma valid_multi c r n : utf8_len c r = n -> 128 <= code c ->
  match n, r with
  | 2%nat, String c1 _ => forall x, valid_utf8 (String c (String c1 "") +:+ x) = valid_utf8 x
  | 3%nat, String c1 (String c2 _) => forall x, valid_utf8 (String c (String c1 (String c2 "")) +:+ x) = valid_utf8 x
  | 4%nat, String c1 (String c2 (String c3 _)) => forall x, valid_utf8 (String c (String c1 (String c2 (String c3 ""))) +:+ x) = valid_utf8 x
  | _, _ => True
  end.
Proof.
  intros E Hc. assert ((code c <? 128) = false) as Hb by lia. destruct r as [|c1 r]; [destruct n as [|[|[|[|[|n]]]]]; exact I|].
  destruct n as [|[|[|[|[|n]]]]]; try exact I.
  - intros x. change (String c (String c1 "") +:+ x) with (String c (String c1 x)). cbn [valid_utf8]. rewrite Hb, (utf8_len2 _ _ _ _ E). reflexivity.
  - destruct r as [|c2 r]; [exact I|]. intros x. change (String c (String c1 (String c2 "")) +:+ x) with (String c (String c1 (String c2 x))).
    cbn [valid_utf8]. rewrite Hb, (utf8_len3 _ _ _ _ _ E). reflexivity.
  - destruct r as [|c2 [|c3 r]]; [exact I..|]. intros x.
    change (String c (String c1 (String c2 (String c3 ""))) +:+ x) with (String c (String c1 (String c2 (String c3 x)))).
    cbn [valid_utf8]. rewrite Hb, (utf8_len4 _ _ _ _ _ _ E). reflexivity.
Qed.

Lemma simple_escape_ascii e x : simple_escape e = Some x -> code x < 128.
Proof.
  unfold simple_escape. cbv zeta. intros E. repeat match type of E with context [if ?b then _ else _] => destruct b eqn:? end;
    try discriminate; injection E as <-; rewrite ?code_chr by lia; lia.
Qed.

Lemma unquote_valid n : forall s out rest, (String.length s < n)%nat -> unquote s = Some (out, rest) -> valid_utf8 out = true.
Proof.
  induction n as [|n IH]; intros s out rest Hn E; [lia|]. destruct s as [|c r]; [discriminate|]. cbn [unquote] in E. cbn in Hn.
  destruct (code c =? 34); [injection E as <- <-; reflexivity|]. destruct (code c =? 92).
  - destruct r as [|e r1]; [discriminate|]. cbn in Hn. destruct (simple_escape e) as [x|] eqn:Ex.
    { apply prepend_inv in E as (o & Eo & ->). rewrite valid_ascii by (eapply simple_escape_ascii; eauto). eapply IH; [|exact Eo]. lia. }
    destruct (negb (code e =? 117)); [discriminate|]. destruct r1 as [|a [|b [|d [|f r2]]]]; try discriminate. cbn in Hn.
    destruct (hex4 a b d f) as [rr|] eqn:Eh; [|discriminate]. apply hex4_bound in Eh.
    assert (prepend replacement (unquote r2) = Some (out, rest) -> valid_utf8 out = true) as Hrep.
    { intros (o & Eo & ->)%prepend_inv. rewrite valid_replacement. eapply IH; [|exact Eo]. lia. }
    destruct (is_surrogate rr) eqn:Es; cbn [negb] in E.
    + destruct r2 as [|bs [|u [|a' [|b' [|d' [|f' r3]]]]]]; auto.
      destruct (if (code bs =? 92) && (code u =? 117) then _ else _) as [rr1|]; [|auto].
      destruct (utf16_pair rr rr1) as [dec|] eqn:Ep; [|auto]. apply pair_bound in Ep. apply prepend_inv in E as (o & Eo & ->).
      rewrite encode_rune_app; [eapply IH; [|exact Eo]; cbn in Hn; lia|lia|unfold is_surrogate, between; lia].
    + apply prepend_inv in E as (o & Eo & ->). rewrite encode_rune_app; [eapply IH; [|exact Eo]; lia|lia|exact Es].
  - destruct (code c <? 32); [discriminate|]. destruct (Z.ltb_spec (code c) 128).
    { apply prepend_inv in E as (o & Eo & ->). rewrite valid_ascii by lia. eapply IH; [|exact Eo]. lia. }
    assert (prepend replacement (unquote r) = Some (out, rest) -> valid_utf8 out = true) as Hrep.
    { intros (o & Eo & ->)%prepend_inv. rewrite valid_replacement. eapply IH; [|exact Eo]. lia. }
    destruct (utf8_len c r) as [|[|[|[|[|k]]]]] eqn:Eu; auto; apply valid_multi in Eu; auto;
      [destruct r as [|c1 r1]|destruct r as [|c1 [|c2 r1]]|destruct r as [|c1 [|c2 [|c3 r1]]]]; auto;
      apply prepend_inv in E as (o & Eo & ->); rewrite Eu; (eapply IH; [|exact Eo]; cbn in Hn; lia).
Qed.

Fixpoint strings_valid (v : json) : bool :=
  match v with
  | JStr s => valid_utf8 s
  | JArr l => forallb strings_valid l
  | JObj l => forallb (fun kv => valid_utf8 (fst kv) && strings_valid (snd kv)) l
  | _ => true
  end.

Lemma parse_value_strings fuel :
  (forall depth s v t, parse_value fuel depth s = Some (v, t) -> strings_valid v = true) /\
  (forall depth s l t, parse_elems fuel depth s = Some (l, t) -> forallb strings_valid l = true) /\
  (forall depth s l t, parse_members fuel depth s = Some (l, t) ->
     forallb (fun kv => valid_utf8 (fst kv) && strings_valid (snd kv)) l = true).
Proof.
  induction fuel as [|f (IHv & IHe & IHm)]; [split; [|split]; discriminate|]. split; [|split]; intros depth s.
  - intros v t E. cbn [parse_value] in E. destruct (skip_ws s) as [|c r]; [discriminate|].
    repeat match type of E with
    | match unquote ?r with _ => _ end = _ => destruct (unquote r) as [[x u]|] eqn:Eu; [injection E as <- <-; exact (unquote_valid _ _ _ _ (Nat.lt_succ_diag_r _) Eu)|discriminate]
    | match parse_elems _ _ _ with _ => _ end = _ => destruct (parse_elems _ _ _) as [[l u]|] eqn:Ee; [injection E as <- <-; eapply IHe; exact Ee|discriminate]
    | match parse_members _ _ _ with _ => _ end = _ => destruct (parse_members _ _ _) as [[l u]|] eqn:Em; [injection E as <- <-; eapply IHm; exact Em|discriminate]
    | match skip_ws ?r with _ => _ end = _ => destruct (skip_ws r)
    | (if ?b then _ else _) = _ => destruct b
    | literal _ _ _ = _ => unfold literal in E; destruct (strip_prefix _ _); [injection E as <- <-; reflexivity|discriminate]
    | match scan_number _ with _ => _ end = _ => destruct (scan_number _) as [[l u]|]; [injection E as <- <-; reflexivity|discriminate]
    | None = _ => discriminate
    | Some _ = _ => injection E as <- <-; reflexivity
    end.
  - intros l t E. cbn [parse_elems] in E. destruct (parse_value f depth s) as [[v u]|] eqn:Ev; [|discriminate]. apply IHv in Ev.
    destruct (skip_ws u) as [|c r]; [discriminate|]. destruct (code c =? 44).
    + destruct (parse_elems f depth r) as [[l' u']|] eqn:Ee; [|discriminate]. injection E as <- <-. cbn. rewrite Ev. eapply IHe. exact Ee.
    + destruct (code c =? 93); [|discriminate]. injection E as <- <-. cbn. rewrite Ev. reflexivity.
  - intros l t E. cbn [parse_members] in E. destruct (skip_ws s) as [|q r0]; [discriminate|]. destruct (negb _); [discriminate|].
    destruct (unquote r0) as [[key t0]|] eqn:Eu; [|discriminate]. pose proof (unquote_valid _ _ _ _ (Nat.lt_succ_diag_r _) Eu) as Hk.
    destruct (skip_ws t0) as [|colon r1]; [discriminate|]. destruct (negb _); [discriminate|].
    destruct (parse_value f depth r1) as [[v u]|] eqn:Ev; [|discriminate]. apply IHv in Ev.
    destruct (skip_ws u) as [|c r]; [discriminate|]. destruct (code c =? 44).
    + destruct (parse_members f depth r) as [[l' u']|] eqn:Ee; [|discriminate]. injection E as <- <-. cbn. rewrite Hk, Ev. eapply IHm. exact Ee.
    + destruct (code c =? 125); [|discriminate]. injection E as <- <-. cbn. rewrite Hk, Ev. reflexivity.
Qed.

Lemma parse_strings s v : parse s = Some v -> strings_valid v = true.
Proof.
  unfold parse, parse_prefix. destruct (parse_value _ _ _) as [[x t]|] eqn:E; [|discriminate].
  destruct (String.eqb _ _); [|discriminate]. intros [= <-]. eapply parse_value_strings. exact E.
Qed.

(** ** Strings that are decoded or written *)

Lemma decode_members_inv {R} strict names set (P : R -> Prop) :
  (forall f v r r', strings_valid v = true -> P r -> set f v r = Some r' -> P r') ->
  forall l r r', forallb (fun kv => valid_utf8 (fst kv) && strings_valid (snd kv)) l = true -> P r ->
    decode_members strict names set r l = Some r' -> P r'.
Proof.
  intros Hs. induction l as [|[k v] l IH]; intros r r' Hv Hr E; cbn [decode_members] in E; [congruence|].
  cbn in Hv. apply andb_prop in Hv as [Hkv Hv]. apply andb_prop in Hkv as [_ Hkv].
  destruct (match_field names k) as [f|]; [|destruct strict; [discriminate|eauto]].
  destruct (set f v r) as [r1|] eqn:E1; [|discriminate]. eauto.
Qed.

Lemma decode_str_valid cur v s : strings_valid v = true -> valid_utf8 cur = true -> decode_str cur v = Some s -> valid_utf8 s = true.
Proof. destruct v; cbn; intros Hv Hc E; try discriminate; congruence. Qed.

Lemma decode_struct_inv {R} strict names set (P : R -> Prop) :
  (forall f v r r', strings_valid v = true -> P r -> set f v r = Some r' -> P r') ->
  forall v r r', strings_valid v = true -> P r -> decode_struct strict names set r v = Some r' -> P r'.
Proof.
  intros Hs v r r' Hv Hr E. destruct v; cbn in E; try discriminate; [congruence|].
  exact (decode_members_inv strict names set P Hs _ _ _ Hv Hr E).
Qed.

(** A valid text in front changes nothing. *)
Lemma valid_utf8_app n : forall a b, (String.length a < n)%nat -> valid_utf8 a = true -> valid_utf8 (a +:+ b) = valid_utf8 b.
Proof.
  induction n as [|n IH]; intros a b Hn Ha; [lia|]. destruct a as [|c r]; [reflexivity|]. cbn [valid_utf8] in Ha.
  destruct (Z.ltb_spec (code c) 128).
  - change (String c r +:+ b) with (String c "" +:+ (r +:+ b)). rewrite valid_ascii by assumption. apply IH; [cbn in Hn; lia|assumption].
  - destruct (utf8_len c r) as [|[|[|[|[|]]]]] eqn:E; try discriminate; pose proof (valid_multi c r _ E ltac:(lia)) as Hm.
    + destruct r as [|c1 r]; [discriminate|]. change (String c (String c1 r) +:+ b) with (String c (String c1 "") +:+ (r +:+ b)).
      rewrite Hm. apply IH; [cbn in Hn; lia|assumption].
    + destruct r as [|c1 [|c2 r]]; try discriminate.
      change (String c (String c1 (String c2 r)) +:+ b) with (String c (String c1 (String c2 "")) +:+ (r +:+ b)).
      rewrite Hm. apply IH; [cbn in Hn; lia|assumption].
    + destruct r as [|c1 [|c2 [|c3 r]]]; try discriminate.
      change (String c (String c1 (String c2 (String c3 r))) +:+ b) with (String c (String c1 (String c2 (String c3 ""))) +:+ (r +:+ b)).
      rewrite Hm. apply IH; [cbn in Hn; lia|assumption].
Qed.

Lemma valid_app a b : valid_utf8 a = true -> valid_utf8 b = true -> valid_utf8 (a +:+ b) = true.
Proof. intros Ha Hb. rewrite (valid_utf8_app (S (String.length a))); auto. Qed.

(** Texts of ASCII only. *)
Fixpoint ascii_only (s : string) : bool := match s with EmptyString => true | String c r => (code c <? 128) && ascii_only r end.
Lemma ascii_valid s : ascii_only s = true -> valid_utf8 s = true.
Proof. induction s as [|c s IH]; [reflexivity|]. cbn. intros [-> Hs]%andb_prop. auto. Qed.
Lemma digits_ascii s : all_digits s = true -> ascii_only s = true.
Proof.
  induction s as [|c s IH]; [reflexivity|]. cbn. intros [Hc Hs]%andb_prop. rewrite IH by assumption. unfold is_digit, between in Hc. lia.
Qed.
Lemma itoa_utf8 z : valid_utf8 (itoa z) = true.
Proof.
  apply ascii_valid. unfold itoa. destruct (Z.ltb_spec z 0).
  - change (ascii_only (dec_string (- z)) = true). apply digits_ascii, dec_string_spec. lia.
  - apply digits_ascii, dec_string_spec. lia.
Qed.
