(* ===== verification/Wire.v ===== *)
(** * Messages on the Building OS links

    The protobuf messages of [src/proto] as their generated Go types
    ([src/gen]), with the codec as an interface: protobuf's encoder and decoder
    are third-party code, of which the gateway relies on the documented facts
    stated in [FrameCodecLaws].  [CountableCodec] is a codec that satisfies
    them. *)

From Stdlib Require Import ZArith Lia Bool Ascii String List SpecFloat.
From stdpp Require Import base list strings gmap countable.
From S2P Require Import Prelude Json.
#[local] Open Scope string_scope.
#[local] Open Scope Z_scope.

(** ** Telemetry (ingress) *)

(** [float64] is IEEE binary64 in [SpecFloat]'s representation. *)
Notation float64 := spec_float.
Definition f64_zero : float64 := S754_zero false.

#[export] Instance spec_float_eq_dec : EqDecision float64.
Proof. intros x y. unfold Decision. repeat decide equality. Defined.

(** The oneof of [TelemetryFrame.value]. *)
Inductive FrameValue :=
| ValueNum (x : float64)
| ValueStr (s : string)
| ValueBool (b : bool).

#[export] Instance FrameValue_eq_dec : EqDecision FrameValue.
Proof. solve_decision. Defined.

Record TelemetryFrame := mkFrame {
  GatewayId : string;
  PointId : string;
  FValue : option FrameValue;
  Timestamp : string;
  Attributes : gmap string string
}.

#[export] Instance TelemetryFrame_eq_dec : EqDecision TelemetryFrame.
Proof. solve_decision. Defined.

Definition empty_frame : TelemetryFrame := mkFrame "" "" None "" ∅.

Definition GetValueNum (f : TelemetryFrame) : float64 :=
  match FValue f with Some (ValueNum x) => x | _ => f64_zero end.

(** ** Control (egress) *)

Record ControlCommand := mkCommand {
  ControlId : string; CmdPointId : string; PresentValue : float64; Priority : Z }.
Record ControlResult := mkResult { ResControlId : string; Success : bool; Response : string }.

Inductive EgressUp := UpHello (gatewayId : string) | UpResult (r : ControlResult)
| UpStatus (appliedRevision : string).
Inductive EgressDown := DownCommand (c : ControlCommand)
| DownPointListUpdate (gatewayId revision : string) | DownNone.

(** ** The protobuf codec *)

(** [proto.Marshal] fails on strings that are not valid UTF-8; [proto.Unmarshal]
    resets the message before decoding, so its result depends on the bytes
    only. *)
Class FrameCodec := {
  proto_marshal : TelemetryFrame -> option string;
  proto_unmarshal : string -> option TelemetryFrame
}.

(** Decoding inverts encoding, and only the default message encodes to no
    bytes at all. *)
Class FrameCodecLaws `{FrameCodec} : Prop := {
  unmarshal_marshal : forall f w, proto_marshal f = Some w -> proto_unmarshal w = Some f;
  marshal_empty : forall f, proto_marshal f = Some "" <-> f = empty_frame
}.

(** ** A concrete codec *)

#[export] Instance spec_float_countable : Countable float64.
Proof.
  refine (inj_countable'
    (fun x => match x with
     | S754_zero b => inl (inl b)
     | S754_infinity b => inl (inr b)
     | S754_nan => inr (inl tt)
     | S754_finite b m e => inr (inr (b, m, e))
     end)
    (fun y => match y with
     | inl (inl b) => S754_zero b
     | inl (inr b) => S754_infinity b
     | inr (inl tt) => S754_nan
     | inr (inr (b, m, e)) => S754_finite b m e
     end) _).
  intros []; reflexivity.
Defined.

#[export] Instance FrameValue_countable : Countable FrameValue.
Proof.
  refine (inj_countable'
    (fun v => match v with ValueNum x => inl x | ValueStr s => inr (inl s) | ValueBool b => inr (inr b) end)
    (fun y => match y with inl x => ValueNum x | inr (inl s) => ValueStr s | inr (inr b) => ValueBool b end) _).
  intros []; reflexivity.
Defined.

#[export] Instance TelemetryFrame_countable : Countable TelemetryFrame.
Proof.
  refine (inj_countable'
    (fun f => (GatewayId f, PointId f, FValue f, Timestamp f, Attributes f))
    (fun '(g, p, v, t, a) => mkFrame g p v t a) _).
  intros []; reflexivity.
Defined.

Module CountableCodec.

Fixpoint bits_of (p : positive) : string :=
  match p with
  | xH => "1"
  | xO q => String "0" (bits_of q)
  | xI q => String "1" (bits_of q)
  end.

Fixpoint of_bits (s : string) : option positive :=
  match s with
  | EmptyString => None
  | String c EmptyString => Some xH
  | String c r =>
    match of_bits r with
    | Some q => Some (if Ascii.eqb c "0" then xO q else xI q)
    | None => None
    end
  end.

Lemma of_bits_of p : of_bits (bits_of p) = Some p.
Proof.
  induction p as [p IH|p IH|]; cbn [bits_of of_bits]; [| |reflexivity];
    rewrite IH; destruct p; reflexivity.
Qed.

Lemma bits_of_nonempty p : bits_of p <> "".
Proof. destruct p; discriminate. Qed.

#[export] Instance codec : FrameCodec := {
  proto_marshal f := Some (if decide (f = empty_frame) then "" else bits_of (encode f));
  proto_unmarshal w :=
    if String.eqb w "" then Some empty_frame
    else match of_bits w with Some p => decode p | None => None end
}.

#[export] Instance codec_laws : FrameCodecLaws.
Proof.
  split.
  - intros f w [= <-]. simpl. case_decide as E; [subst; reflexivity|].
    destruct (String.eqb_spec (bits_of (encode f)) "") as [H|_];
      [destruct (bits_of_nonempty _ H)|].
    rewrite of_bits_of. apply decode_encode.
  - intros f. simpl. case_decide as E; [subst; split; auto|].
    split; [intros [= H]; destruct (bits_of_nonempty _ H) | congruence].
Qed.
End CountableCodec.
