(* ===== verification/SeqWindow.v ===== *)
(** * The pump's duplicate-detection window

    [seqWindow] of [src/internal/storeforward/pump.go]: a bitmap of [n] bits
    (a power of two) in which stream sequence [s] owns bit [s mod n] as long as
    [base <= s < base + n].  The file models the structure with its word
    operations, relates it to the set of sequences it remembers, and shows that
    after any series of [add]s it answers exactly "was added, and lies within
    the last [n] sequences". *)

From Stdlib Require Import ZArith Lia Bool List.
From stdpp Require Import base list.
From S2P Require Import Prelude.
#[local] Open Scope Z_scope.

(** ** The structure *)

Record seqWindow := { sw_bits : list Z; sw_n : Z; sw_base : Z }.

Definition dedupWindowSeqs : Z := Z.shiftl 1 21.

(** The doubling loop of [newSeqWindow]; [None] is a loop still running. *)
Fixpoint new_window_loop (fuel : nat) (n size : Z) : option Z :=
  match fuel with
  | O => None
  | S k => if n <? size then new_window_loop k (u64 (Z.shiftl n 1)) size else Some n
  end.

Definition newSeqWindow (size : Z) : option seqWindow :=
  match new_window_loop 64 64 (u64 size) with
  | Some n => Some {| sw_bits := repeat 0 (Z.to_nat (n / 64)); sw_n := n; sw_base := 0 |}
  | None => None
  end.

(** [bits[k]] and [bits[k] = x]; both panic in Go when [k] is out of range,
    which [index_in_range] below excludes. *)
Definition word (bs : list Z) (k : Z) : Z := default 0 (bs !! Z.to_nat k).
Definition set_word (bs : list Z) (k x : Z) : list Z := <[Z.to_nat k := x]> bs.

Definition contains (w : seqWindow) (seq : Z) : bool :=
  if (seq <? sw_base w) || (sw_n w <=? u64 (seq - sw_base w)) then false
  else let i := Z.land seq (sw_n w - 1) in
       negb (Z.land (word (sw_bits w) (Z.shiftr i 6)) (Z.shiftl 1 (Z.land i 63)) =? 0).

(** [w.bits[i>>6] |= 1 << (i & 63)] and [w.bits[i>>6] &^= 1 << (i & 63)]. *)
Definition set_bit (bs : list Z) (i : Z) : list Z :=
  set_word bs (Z.shiftr i 6) (Z.lor (word bs (Z.shiftr i 6)) (Z.shiftl 1 (Z.land i 63))).
Definition clear_bit (bs : list Z) (i : Z) : list Z :=
  set_word bs (Z.shiftr i 6) (Z.ldiff (word bs (Z.shiftr i 6)) (Z.shiftl 1 (Z.land i 63))).

(** [for s := w.base; s < newBase; s++]: [k] iterations from [s]. *)
Fixpoint clear_from (k : nat) (s n : Z) (bs : list Z) : list Z :=
  match k with
  | O => bs
  | S k' => clear_from k' (u64 (s + 1)) n (clear_bit bs (Z.land s (n - 1)))
  end.

Definition slide (w : seqWindow) (newBase : Z) : seqWindow :=
  let bs := if sw_n w <=? u64 (newBase - sw_base w)
            then map (fun _ : Z => 0) (sw_bits w)
            else clear_from (Z.to_nat (newBase - sw_base w)) (sw_base w) (sw_n w) (sw_bits w) in
  {| sw_bits := bs; sw_n := sw_n w; sw_base := newBase |}.

Definition add (w : seqWindow) (seq : Z) : seqWindow :=
  if seq <? sw_base w then w
  else
    let w1 := if sw_n w <=? u64 (seq - sw_base w) then slide w (u64 (seq - sw_n w + 1)) else w in
    {| sw_bits := set_bit (sw_bits w1) (Z.land seq (sw_n w1 - 1));
       sw_n := sw_n w1; sw_base := sw_base w1 |}.

(** ** Bits of the bitmap *)

Definition get_bit (bs : list Z) (i : Z) : bool :=
  Z.testbit (word bs (Z.shiftr i 6)) (Z.land i 63).

Lemma land63 i : 0 <= i -> Z.land i 63 = i mod 64.
Proof. intros. change 63 with (Z.ones 6). rewrite Z.land_ones; [reflexivity | lia]. Qed.

Lemma shiftr6 i : Z.shiftr i 6 = i / 64.
Proof. rewrite Z.shiftr_div_pow2; [reflexivity | lia]. Qed.

Lemma land_bit_testbit x k : 0 <= k -> negb (Z.land x (Z.shiftl 1 k) =? 0) = Z.testbit x k.
Proof.
  intros Hk. rewrite Z.shiftl_1_l.
  destruct (Z.testbit x k) eqn:E.
  - apply negb_true_iff, Z.eqb_neq. intros H.
    assert (Z.testbit (Z.land x (2 ^ k)) k = false) as H1 by (rewrite H; apply Z.bits_0).
    rewrite Z.land_spec, E, Z.pow2_bits_true in H1; [discriminate | lia].
  - apply negb_false_iff, Z.eqb_eq. apply Z.bits_inj'. intros j Hj.
    rewrite Z.land_spec, Z.bits_0. destruct (Z.eq_dec j k) as [->|Hne].
    + rewrite E. reflexivity.
    + rewrite Z.pow2_bits_false by congruence. apply andb_false_r.
Qed.

Lemma word_set_eq bs k x : 0 <= k < Z.of_nat (length bs) -> word (set_word bs k x) k = x.
Proof.
  intros. unfold word, set_word.
  rewrite list_lookup_insert_eq by lia. reflexivity.
Qed.

Lemma word_set_ne bs k j x : 0 <= k -> 0 <= j -> j <> k -> word (set_word bs k x) j = word bs j.
Proof.
  intros. unfold word, set_word. rewrite list_lookup_insert_ne by lia. reflexivity.
Qed.

(** Two bit indices that share word and offset are equal. *)
Lemma split_index i j : 0 <= i -> 0 <= j -> i / 64 = j / 64 -> i mod 64 = j mod 64 -> i = j.
Proof. intros. rewrite (Z.div_mod i 64), (Z.div_mod j 64) by lia. congruence. Qed.

Section UpdateBit.
  Variables (f : Z -> Z -> Z) (g : bool -> bool -> bool).
  Hypothesis f_spec : forall a b k, 0 <= k -> Z.testbit (f a b) k = g (Z.testbit a k) (Z.testbit b k).
  Hypothesis g_id : forall b, g b false = b.

Lemma get_update bs i j :
  0 <= i -> 0 <= j -> i < 64 * Z.of_nat (length bs) ->
  get_bit (set_word bs (Z.shiftr i 6) (f (word bs (Z.shiftr i 6)) (Z.shiftl 1 (Z.land i 63)))) j
  = if i =? j then g (get_bit bs i) true else get_bit bs j.
Proof.
  intros Hi Hj Hlen. unfold get_bit. rewrite !shiftr6, !land63 by lia.
  assert (0 <= i / 64 < Z.of_nat (length bs)) by
    (split; [apply Z.div_pos; lia | apply Z.div_lt_upper_bound; lia]).
  assert (0 <= i mod 64 < 64) by (apply Z.mod_pos_bound; lia).
  assert (0 <= j mod 64 < 64) by (apply Z.mod_pos_bound; lia).
  destruct (Z.eq_dec (j / 64) (i / 64)) as [Hw|Hw].
  - rewrite Hw, word_set_eq, f_spec, Z.shiftl_1_l, Z.pow2_bits_eqb by lia.
    destruct (i =? j) eqn:E; bools.
    + subst. rewrite Z.eqb_refl. reflexivity.
    + destruct (i mod 64 =? j mod 64) eqn:E2; bools; [|apply g_id].
      exfalso. apply E, split_index; congruence.
  - rewrite word_set_ne by (auto using Z.div_pos with zarith).
    destruct (i =? j) eqn:E; bools; [subst; congruence | reflexivity].
Qed.
End UpdateBit.

Lemma get_set_bit bs i j :
  0 <= i -> 0 <= j -> i < 64 * Z.of_nat (length bs) ->
  get_bit (set_bit bs i) j = (i =? j) || get_bit bs j.
Proof.
  intros. unfold set_bit.
  rewrite (get_update Z.lor orb) by (auto using Z.lor_spec, orb_false_r).
  destruct (i =? j) eqn:E; [apply orb_true_r | reflexivity].
Qed.

Lemma get_clear_bit bs i j :
  0 <= i -> 0 <= j -> i < 64 * Z.of_nat (length bs) ->
  get_bit (clear_bit bs i) j = negb (i =? j) && get_bit bs j.
Proof.
  intros. unfold clear_bit.
  rewrite (get_update Z.ldiff (fun a b => a && negb b)).
  - destruct (i =? j) eqn:E; [apply andb_false_r | reflexivity].
  - intros. apply Z.ldiff_spec.
  - intros []; reflexivity.
  - lia.
  - lia.
  - lia.
Qed.

Lemma length_set_bit bs i : length (set_bit bs i) = length bs.
Proof. apply length_insert. Qed.
Lemma length_clear_bit bs i : length (clear_bit bs i) = length bs.
Proof. apply length_insert. Qed.
Lemma length_clear_from k : forall s n bs, length (clear_from k s n bs) = length bs.
Proof.
  induction k; simpl; intros; [reflexivity|]. rewrite IHk. apply length_clear_bit.
Qed.

(** ** Well-formed windows *)

(** [n] is a power of two of at least one word, the bitmap has [n] bits, and
    the window lies within the [uint64] range. *)
Record wf (w : seqWindow) : Prop := {
  wf_pow : exists k, 6 <= k <= 63 /\ sw_n w = 2 ^ k;
  wf_len : 64 * Z.of_nat (length (sw_bits w)) = sw_n w;
  wf_base : 0 <= sw_base w;
  wf_top : sw_base w + sw_n w <= 2 ^ 64
}.

Lemma wf_n w : wf w -> 64 <= sw_n w <= 2 ^ 63.
Proof.
  intros [[k [Hk ->]] _ _ _]. change 64 with (2 ^ 6). split; apply Z.pow_le_mono_r; lia.
Qed.

Lemma land_mod n s : (exists k, 6 <= k <= 63 /\ n = 2 ^ k) -> Z.land s (n - 1) = s mod n.
Proof.
  intros [k [Hk ->]]. rewrite <- Z.land_ones, Z.ones_equiv by lia. reflexivity.
Qed.

Lemma mod_distinct n s t : 0 < t - s < n -> s mod n <> t mod n.
Proof.
  intros H E.
  assert ((t - s) mod n = 0) as H0 by (rewrite Zminus_mod, E, Z.sub_diag; reflexivity).
  rewrite Z.mod_small in H0; lia.
Qed.

(** Every word index the code computes is inside the bitmap. *)
Lemma index_in_range w s : wf w ->
  0 <= Z.shiftr (Z.land s (sw_n w - 1)) 6 < Z.of_nat (length (sw_bits w)).
Proof.
  intros H. pose proof (wf_n _ H). destruct H as [Hp Hl _ _].
  rewrite shiftr6, land_mod by auto.
  pose proof (Z.mod_pos_bound s (sw_n w) ltac:(lia)).
  split; [apply Z.div_pos | apply Z.div_lt_upper_bound]; lia.
Qed.

Lemma contains_get_bit w s : wf w -> in_u64 s ->
  contains w s = (sw_base w <=? s) && (s <? sw_base w + sw_n w) && get_bit (sw_bits w) (s mod sw_n w).
Proof.
  intros H [Hs Hs']. pose proof (wf_n _ H) as Hn. destruct H as [Hp Hl Hb Ht].
  unfold contains. rewrite land_mod by auto.
  pose proof (Z.mod_pos_bound s (sw_n w) ltac:(lia)) as Hm.
  destruct (Z.leb_spec (sw_base w) s), (Z.ltb_spec s (sw_base w)); try lia; [|reflexivity].
  cbn [orb andb]. rewrite u64_small by (unfold in_u64; lia).
  destruct (Z.ltb_spec s (sw_base w + sw_n w)), (Z.leb_spec (sw_n w) (s - sw_base w));
    try lia.
  cbn [orb andb]. unfold get_bit. apply land_bit_testbit. rewrite land63 by lia.
  apply Z.mod_pos_bound; lia.
Qed.

(** ** Clearing the bits of the sequences that fall out *)

Section ClearFrom.
  Variables (n : Z).
  Hypothesis n_pow : exists k, 6 <= k <= 63 /\ n = 2 ^ k.

Lemma n_pos : 0 < n.
Proof. destruct n_pow as [k [Hk ->]]. apply Z.pow_pos_nonneg; lia. Qed.

Lemma clear_from_mono k : forall s bs j,
  64 * Z.of_nat (length bs) = n -> 0 <= j ->
  get_bit bs j = false -> get_bit (clear_from k s n bs) j = false.
Proof.
  pose proof n_pos. induction k as [|k IH]; simpl; intros s bs j Hl Hj Hf; [assumption|].
  pose proof (Z.mod_pos_bound s n ltac:(lia)).
  apply IH; [rewrite length_clear_bit; lia | lia |].
  rewrite land_mod, get_clear_bit, Hf by (auto; lia). apply andb_false_r.
Qed.

Lemma clear_from_spec k : forall s bs t,
  64 * Z.of_nat (length bs) = n -> 0 <= s -> s + Z.of_nat k < 2 ^ 64 -> s <= t < s + n ->
  get_bit (clear_from k s n bs) (t mod n)
  = negb (t <? s + Z.of_nat k) && get_bit bs (t mod n).
Proof.
  pose proof n_pos. induction k as [|k IH]; intros s bs t Hl Hs Hk Ht; simpl clear_from.
  - destruct (Z.ltb_spec t (s + Z.of_nat 0)); [lia | reflexivity].
  - pose proof (Z.mod_pos_bound s n ltac:(lia)). pose proof (Z.mod_pos_bound t n ltac:(lia)).
    rewrite u64_small by (unfold in_u64; lia). rewrite land_mod by auto.
    destruct (Z.eq_dec t s) as [->|Hne].
    + rewrite clear_from_mono.
      * destruct (Z.ltb_spec s (s + Z.of_nat (S k))); [reflexivity | lia].
      * rewrite length_clear_bit. lia.
      * lia.
      * rewrite get_clear_bit, Z.eqb_refl by lia. reflexivity.
    + rewrite IH by (rewrite ?length_clear_bit; lia).
      rewrite get_clear_bit by lia.
      destruct (Z.eqb_spec (s mod n) (t mod n)) as [E|E].
      * exfalso. revert E. apply mod_distinct. lia.
      * simpl. f_equal. f_equal. f_equal. lia.
Qed.
End ClearFrom.

Lemma word_map_zero bs k : word (map (fun _ : Z => 0) bs) k = 0.
Proof.
  unfold word. rewrite list_lookup_fmap. destruct (bs !! Z.to_nat k); reflexivity.
Qed.

Lemma word_repeat m k : word (repeat 0 m) k = 0.
Proof.
  unfold word. destruct (repeat 0 m !! Z.to_nat k) eqn:E; [|reflexivity].
  apply list_elem_of_lookup_2, list_elem_of_In, repeat_spec in E. assumption.
Qed.

Lemma get_bit_zero bs j : get_bit (map (fun _ : Z => 0) bs) j = false.
Proof. unfold get_bit. rewrite word_map_zero. apply Z.bits_0. Qed.

(** ** What the window remembers

    The specification: the list of sequences added so far, newest first, of
    which the window remembers those that lie within the last [n]. *)

Definition newest (hist : list Z) : Z := fold_right Z.max 0 hist.
Definition seen (hist : list Z) (s : Z) : bool := existsb (Z.eqb s) hist.
Definition remembered (n : Z) (hist : list Z) (s : Z) : bool :=
  (newest hist - n <? s) && seen hist s.

(** Adding the sequences of [hist], the last element first. *)
Definition add_all (w : seqWindow) (hist : list Z) : seqWindow :=
  fold_right (fun s w => add w s) w hist.

Record represents (w : seqWindow) (hist : list Z) : Prop := {
  rep_wf : wf w;
  rep_base : sw_base w = Z.max 0 (newest hist - sw_n w + 1);
  rep_bits : forall s, sw_base w <= s < sw_base w + sw_n w ->
             get_bit (sw_bits w) (s mod sw_n w) = seen hist s
}.

Lemma newest_nonneg hist : 0 <= newest hist.
Proof. induction hist; simpl; lia. Qed.

Lemma seen_le_newest hist s : seen hist s = true -> s <= newest hist.
Proof.
  induction hist as [|a l IH]; simpl; [discriminate|].
  intros H. apply orb_prop in H as [H|H]; bools; [lia|]. specialize (IH H). lia.
Qed.

Lemma seen_beyond hist s : newest hist < s -> seen hist s = false.
Proof.
  intros H. destruct (seen hist s) eqn:E; [|reflexivity]. apply seen_le_newest in E. lia.
Qed.

(** [slide] forgets the sequences below the new base and nothing else. *)
Lemma slide_bits w hist nb s :
  represents w hist -> sw_base w < nb -> nb + sw_n w <= 2 ^ 64 -> nb <= s < nb + sw_n w ->
  get_bit (sw_bits (slide w nb)) (s mod sw_n w)
  = (s <? sw_base w + sw_n w) && seen hist s.
Proof.
  intros [Hwf Hb Hbits] Hlt Htop Hs. pose proof (wf_n _ Hwf) as Hn.
  destruct Hwf as [Hp Hl H0 _]. unfold slide. cbn [sw_bits].
  rewrite u64_small by (unfold in_u64; lia).
  destruct (Z.leb_spec (sw_n w) (nb - sw_base w)) as [Hfar|Hnear].
  - rewrite get_bit_zero. destruct (Z.ltb_spec s (sw_base w + sw_n w)); [lia | reflexivity].
  - destruct (Z.ltb_spec s (sw_base w + sw_n w)) as [Hin|Hout].
    + rewrite clear_from_spec, Hbits by (auto; lia).
      destruct (Z.ltb_spec s (sw_base w + Z.of_nat (Z.to_nat (nb - sw_base w)))); [lia | reflexivity].
    + replace (s mod sw_n w) with ((s - sw_n w) mod sw_n w)
        by (rewrite <- (Z_mod_plus_full (s - sw_n w) 1); f_equal; lia).
      rewrite clear_from_spec by (auto; lia).
      destruct (Z.ltb_spec (s - sw_n w) (sw_base w + Z.of_nat (Z.to_nat (nb - sw_base w))));
        [reflexivity | lia].
Qed.

Lemma slide_length w nb : length (sw_bits (slide w nb)) = length (sw_bits w).
Proof.
  unfold slide. cbn [sw_bits]. destruct (_ <=? _); [apply length_map | apply length_clear_from].
Qed.

(** Recording [seq] in a window that covers it. *)
Lemma set_bit_seen w seq s bs hist :
  wf w -> 64 * Z.of_nat (length bs) = sw_n w -> 0 <= seq ->
  - sw_n w < seq - s < sw_n w ->
  get_bit bs (s mod sw_n w) = seen hist s ->
  get_bit (set_bit bs (Z.land seq (sw_n w - 1))) (s mod sw_n w) = seen (seq :: hist) s.
Proof.
  intros Hwf Hl Hseq Hs Hold. pose proof (wf_n _ Hwf). destruct Hwf as [Hp _ _ _].
  pose proof (Z.mod_pos_bound seq (sw_n w) ltac:(lia)).
  pose proof (Z.mod_pos_bound s (sw_n w) ltac:(lia)).
  rewrite land_mod, get_set_bit, Hold by (auto; lia). simpl.
  destruct (Z.eqb_spec s seq) as [->|Hne]; [rewrite Z.eqb_refl; reflexivity|].
  destruct (Z.eqb_spec (seq mod sw_n w) (s mod sw_n w)) as [E|E]; [exfalso|reflexivity].
  destruct (Z.lt_ge_cases s seq).
  - symmetry in E. revert E. apply mod_distinct. lia.
  - revert E. apply mod_distinct. lia.
Qed.

Lemma add_represents w hist seq :
  represents w hist -> in_u64 seq -> represents (add w seq) (seq :: hist).
Proof.
  intros Hrep [Hs0 Hs1]. pose proof Hrep as [Hwf Hb Hbits]. pose proof (wf_n _ Hwf) as Hn.
  pose proof Hwf as [Hp Hl H0 Htop]. unfold add.
  destruct (Z.ltb_spec seq (sw_base w)) as [Hold|Hin].
  - constructor; [assumption | simpl; lia |]. intros s Hs. rewrite Hbits by lia. simpl.
    destruct (Z.eqb_spec s seq); [lia | reflexivity].
  - rewrite u64_small by (unfold in_u64; lia).
    destruct (Z.leb_spec (sw_n w) (seq - sw_base w)) as [Hfar|Hnear]; cbn [sw_bits sw_n sw_base].
    + rewrite u64_small by (unfold in_u64; lia).
      assert (Hlen : 64 * Z.of_nat (length (sw_bits (slide w (seq - sw_n w + 1)))) = sw_n w)
        by (rewrite slide_length; lia).
      constructor; cbn [sw_bits sw_n sw_base slide].
      * constructor; cbn [sw_bits sw_n sw_base]; [assumption | | lia | lia].
        rewrite length_set_bit. exact Hlen.
      * simpl. lia.
      * intros s Hs. apply set_bit_seen; try assumption; try lia.
        change (get_bit (sw_bits (slide w (seq - sw_n w + 1))) (s mod sw_n w) = seen hist s).
        rewrite (slide_bits w hist) by (auto; lia).
        destruct (Z.ltb_spec s (sw_base w + sw_n w)); [reflexivity|].
        symmetry. apply seen_beyond. lia.
    + constructor; cbn [sw_bits sw_n sw_base].
      * constructor; cbn [sw_bits sw_n sw_base]; try assumption.
        rewrite length_set_bit. assumption.
      * simpl. lia.
      * intros s Hs. apply set_bit_seen; try assumption; try lia. apply Hbits. lia.
Qed.

Lemma represents_contains w hist s :
  represents w hist -> in_u64 s -> contains w s = remembered (sw_n w) hist s.
Proof.
  intros [Hwf Hb Hbits] Hs. rewrite contains_get_bit by assumption. unfold remembered.
  pose proof (wf_n _ Hwf). destruct Hs as [Hs0 Hs1].
  destruct (Z.leb_spec (sw_base w) s), (Z.ltb_spec (newest hist - sw_n w) s); try lia.
  destruct (Z.ltb_spec s (sw_base w + sw_n w)).
  - simpl. apply Hbits. lia.
  - simpl. symmetry. apply seen_beyond. lia.
Qed.

Lemma add_n w s : sw_n (add w s) = sw_n w.
Proof. unfold add. case_if; [reflexivity|]. case_if; reflexivity. Qed.

Lemma add_all_represents w hist :
  represents w [] -> Forall in_u64 hist ->
  represents (add_all w hist) hist /\ sw_n (add_all w hist) = sw_n w.
Proof.
  intros Hw. induction 1 as [|s l Hs _ [IH1 IH2]]; simpl; [auto|].
  split; [apply add_represents; assumption | rewrite add_n; assumption].
Qed.

(** ** A fresh window *)

Lemma new_window_loop_pow2 : forall (d j : nat) size, (6 <= j)%nat -> (j + d <= 63)%nat ->
  size <= 2 ^ Z.of_nat (j + d) ->
  exists k, 6 <= k <= 63 /\ size <= 2 ^ k /\
    new_window_loop (S d) (2 ^ Z.of_nat j) size = Some (2 ^ k).
Proof.
  induction d as [|d IH]; intros j size Hj Hd Hsize;
    unfold new_window_loop; fold new_window_loop.
  - destruct (Z.ltb_spec (2 ^ Z.of_nat j) size) as [H|H].
    + rewrite Nat.add_0_r in Hsize. lia.
    + exists (Z.of_nat j). repeat split; lia.
  - destruct (Z.ltb_spec (2 ^ Z.of_nat j) size) as [H|H].
    + rewrite Z.shiftl_mul_pow2, u64_small.
      * rewrite <- Z.pow_add_r by lia.
        destruct (IH (S j) size) as (k & Hk & Hle & E); [lia | lia | |].
        { replace (S j + d)%nat with (j + S d)%nat by lia. assumption. }
        exists k. split; [assumption|]. split; [assumption|].
        replace (Z.of_nat j + 1) with (Z.of_nat (S j)) by lia. exact E.
      * rewrite <- Z.pow_add_r by lia. split; [lia|]. apply Z.pow_lt_mono_r; lia.
      * lia.
    + exists (Z.of_nat j). repeat split; lia.
Qed.

Lemma new_window_loop_fuel fuel : forall n size v m,
  new_window_loop fuel n size = Some v -> new_window_loop (m + fuel) n size = Some v.
Proof.
  induction fuel as [|f IH]; intros n size v m; [discriminate|].
  rewrite Nat.add_succ_r. simpl. destruct (n <? size); auto.
Qed.

Lemma newSeqWindow_fresh size : 0 <= size <= 2 ^ 63 ->
  exists w, newSeqWindow size = Some w /\ represents w [] /\ size <= sw_n w.
Proof.
  intros Hs. unfold newSeqWindow. rewrite u64_small by (unfold in_u64; lia).
  destruct (new_window_loop_pow2 57 6 size) as (k & Hk & Hle & E); [lia | lia | simpl; lia |].
  apply (new_window_loop_fuel _ _ _ _ 6) in E. change (6 + 58)%nat with 64%nat in E.
  change (2 ^ Z.of_nat 6) with 64 in E. rewrite E. eexists. split; [reflexivity|].
  assert (64 <= 2 ^ k <= 2 ^ 63) by
    (split; [change 64 with (2 ^ 6) | ]; apply Z.pow_le_mono_r; lia).
  split; [|assumption]. constructor; cbn [sw_bits sw_n sw_base].
  - constructor; cbn [sw_bits sw_n sw_base]; [eauto | | lia | lia].
    rewrite repeat_length, Z2Nat.id by (apply Z.div_pos; lia).
    replace (2 ^ k) with (2 ^ (k - 6) * 64)
      by (change 64 with (2 ^ 6); rewrite <- Z.pow_add_r by lia; f_equal; lia).
    rewrite Z.div_mul; lia.
  - simpl. lia.
  - intros. unfold get_bit. rewrite word_repeat. apply Z.bits_0.
Qed.

(** a window made for [size] sequences, after any series of [add]s, answers
    [contains s] exactly when [s] was added and lies within the last [n >= size]
    sequences up to the newest one: no false duplicate, and no miss inside the
    window.  Every word index computed on the way is inside the bitmap. *)
Theorem seqWindow_exact (size : Z) (hist : list Z) (s : Z) :
  0 <= size <= 2 ^ 63 -> Forall in_u64 hist -> in_u64 s ->
  exists w, newSeqWindow size = Some w /\ size <= sw_n w /\
    contains (add_all w hist) s = remembered (sw_n w) hist s /\
    0 <= Z.shiftr (Z.land s (sw_n (add_all w hist) - 1)) 6
      < Z.of_nat (length (sw_bits (add_all w hist))).
Proof.
  intros Hsize Hh Hs. destruct (newSeqWindow_fresh size Hsize) as (w & E & Hrep & Hn).
  destruct (add_all_represents w hist Hrep Hh) as [Hr En].
  exists w. split; [assumption|]. split; [assumption|]. split.
  - rewrite (represents_contains _ hist), En by assumption. reflexivity.
  - apply index_in_range, Hr.
Qed.

Lemma seqWindow_exact_witness :
  exists w, newSeqWindow 100 = Some w /\ sw_n w = 128 /\
    contains (add_all w [200; 73; 5]) 73 = true /\
    contains (add_all w [200; 73; 5]) 5 = false /\
    100 <= sw_n w /\
    contains (add_all w [200; 73; 5]) 73 = remembered (sw_n w) [200; 73; 5] 73.
Proof.
  destruct (seqWindow_exact 100 [200; 73; 5] 73) as (w & E & Hn & Hc & _).
  - lia.
  - repeat constructor; lia.
  - split; lia.
  - exists w. split; [exact E|]. vm_compute in E. injection E as <-.
    repeat split; vm_compute; congruence.
Defined.
