(* ===== verification/FrameStore.v ===== *)
(** * The SQLite interface of the store-and-forward buffer

    SQLite is third-party code.  [FrameDB] is what
    [src/internal/storeforward/buffer.go] asks of it, one operation per SQL
    statement, each of which may fail; [FrameDBLaws] states the documented
    effect of those statements: transactions are atomic, AUTOINCREMENT never
    reuses a row id, SELECTs return rows in [ORDER BY] order.  [ListDB] is a
    store in memory, with a switch that makes statements fail, that satisfies
    the laws. *)

From Stdlib Require Import ZArith Lia Bool String List Sorting.Sorted.
From stdpp Require Import base list strings.
From S2P Require Import Prelude Json Wire.
#[local] Open Scope string_scope.
#[local] Open Scope list_scope.
#[local] Open Scope Z_scope.

(** A row of [frames] (schema version 3).  [attributes] and [frame] are NULL in
    rows an older version wrote. *)
Record row := {
  r_seq : Z;
  r_gateway : string;
  r_point : string;
  r_value : float64;
  r_timestamp : string;
  r_attributes : option string;
  r_frame : option string
}.

(** The values of an INSERT: a row without its id. *)
Record row_values := {
  v_gateway : string; v_point : string; v_value : float64; v_timestamp : string;
  v_attributes : option string; v_frame : option string
}.

Definition mk_row (seq : Z) (v : row_values) : row :=
  {| r_seq := seq; r_gateway := v_gateway v; r_point := v_point v; r_value := v_value v;
     r_timestamp := v_timestamp v; r_attributes := v_attributes v; r_frame := v_frame v |}.

(** The contents of a database: the rows by ascending id, the largest id ever
    issued, and the row of the [cursor] table. *)
Record image := { i_rows : list row; i_high : Z; i_cursor : option Z }.

(** [COALESCE((SELECT seq FROM cursor WHERE id = 1), 0)]. *)
Definition cursor_of (i : image) : Z := default 0 (i_cursor i).

Definition acked_row (i : image) (r : row) : bool := r_seq r <=? cursor_of i.
Definition count {A} (p : A -> bool) (l : list A) : Z := Z.of_nat (length (List.filter p l)).

(** The rows an evicting DELETE leaves: all but the oldest
    [MAX(0, COUNT - capacity)]. *)
Definition surplus (cap : Z) (l : list row) : nat :=
  Z.to_nat (Z.max 0 (Z.of_nat (length l) - cap)).

Definition image_ok (i : image) : Prop :=
  StronglySorted Z.lt (map r_seq (i_rows i)) /\ Forall (fun r => 0 < r_seq r <= i_high i) (i_rows i)
  /\ 0 <= i_high i < 2 ^ 63.

(** [view] is what a statement on the connection sees; [durable] is what a
    crash leaves. *)
Class FrameDB (D : Type) := {
  view : D -> image;
  durable : D -> image;
  tx_begin : D -> D * bool;
  tx_insert : D -> row_values -> D * bool;
  tx_split : D -> D * option (Z * Z);
  tx_evict : D -> Z -> D * bool;
  tx_commit : D -> D * bool;
  tx_rollback : D -> D;
  q_select_after : D -> Z -> Z -> D * option (list row);
  q_put_cursor : D -> Z -> D * bool;
  q_get_cursor : D -> D * option (option Z);
  q_depth : D -> D * option Z
}.

(** A statement that changes neither image. *)
Definition keeps {D} `{FrameDB D} (d d' : D) : Prop := view d' = view d /\ durable d' = durable d.

Class FrameDBLaws (D : Type) `{FrameDB D} : Prop := {
  begin_keeps : forall d d' b, tx_begin d = (d', b) -> keeps d d';
  insert_ok : forall d d' v, image_ok (view d) -> tx_insert d v = (d', true) ->
    exists seq, i_high (view d) < seq < 2 ^ 63 /\
    view d' = {| i_rows := i_rows (view d) ++ [mk_row seq v]; i_high := seq;
                 i_cursor := i_cursor (view d) |};
  insert_durable : forall d d' v b, tx_insert d v = (d', b) -> durable d' = durable d;
  split_keeps : forall d d' r, tx_split d = (d', r) -> keeps d d';
  split_ok : forall d d' total acked, tx_split d = (d', Some (total, acked)) ->
    total = Z.of_nat (length (i_rows (view d))) /\
    acked = count (acked_row (view d)) (i_rows (view d));
  evict_ok : forall d d' cap, image_ok (view d) -> tx_evict d cap = (d', true) ->
    view d' = {| i_rows := drop (surplus cap (i_rows (view d))) (i_rows (view d));
                 i_high := i_high (view d); i_cursor := i_cursor (view d) |};
  evict_durable : forall d d' cap b, tx_evict d cap = (d', b) -> durable d' = durable d;
  commit_ok : forall d d', tx_commit d = (d', true) -> view d' = view d /\ durable d' = view d;
  commit_err : forall d d', tx_commit d = (d', false) -> durable d' = durable d;
  rollback_ok : forall d, view (tx_rollback d) = durable d /\ durable (tx_rollback d) = durable d;
  select_keeps : forall d d' a n r, q_select_after d a n = (d', r) -> keeps d d';
  select_ok : forall d d' a n l, 0 <= n -> image_ok (view d) ->
    q_select_after d a n = (d', Some l) ->
    l = take (Z.to_nat n) (List.filter (fun r => a <? r_seq r) (i_rows (view d)));
  put_cursor_ok : forall d d' s, view d = durable d -> q_put_cursor d s = (d', true) ->
    view d' = {| i_rows := i_rows (view d); i_high := i_high (view d); i_cursor := Some s |} /\
    durable d' = view d';
  put_cursor_err : forall d d' s, q_put_cursor d s = (d', false) -> keeps d d';
  get_cursor_keeps : forall d d' r, q_get_cursor d = (d', r) -> keeps d d';
  get_cursor_ok : forall d d' c, q_get_cursor d = (d', Some c) -> c = i_cursor (view d);
  depth_keeps : forall d d' r, q_depth d = (d', r) -> keeps d d';
  depth_ok : forall d d' n, q_depth d = (d', Some n) ->
    n = count (fun r => negb (acked_row (view d) r)) (i_rows (view d))
}.

(** ** Lists of rows with increasing ids *)

Lemma sorted_snoc l x : StronglySorted Z.lt l -> Forall (fun y => y < x) l ->
  StronglySorted Z.lt (l ++ [x]).
Proof.
  induction 1 as [|a l Hl IH Ha]; intros Hx; simpl; [repeat constructor|].
  inversion Hx; subst. constructor; [auto|]. apply Forall_app. split; [assumption|].
  repeat constructor. assumption.
Qed.

Lemma sorted_drop n l : StronglySorted Z.lt l -> StronglySorted Z.lt (drop n l).
Proof.
  revert n. induction l as [|a l IH]; intros n Hs; [destruct n; assumption|].
  destruct n; [assumption|]. inversion Hs; subst. simpl. auto.
Qed.

(** Increasing ids between [lo] and [hi] are at most [hi - lo] many. *)
Lemma sorted_length l : forall lo hi, StronglySorted Z.lt l -> Forall (fun x => lo < x <= hi) l ->
  lo <= hi -> Z.of_nat (length l) <= hi - lo.
Proof.
  induction l as [|a l IH]; intros lo hi Hs Hf Hle; [simpl; lia|].
  inversion Hs as [|? ? Hs' Ha]; inversion Hf as [|? ? Hr Hf']; subst. cbn [length].
  specialize (IH a hi Hs'). rewrite Nat2Z.inj_succ.
  assert (Z.of_nat (length l) <= hi - a); [apply IH; [|lia]|lia].
  rewrite Forall_forall in *. intros x Hx. specialize (Ha x Hx). specialize (Hf' x Hx).
  simpl in *. lia.
Qed.

Lemma image_length i : image_ok i -> Z.of_nat (length (i_rows i)) <= i_high i.
Proof.
  intros (Hs & Hf & Hh). rewrite <- (length_map r_seq).
  pose proof (sorted_length (map r_seq (i_rows i)) 0 (i_high i) Hs) as H.
  rewrite Z.sub_0_r in H. apply H; [|lia]. apply Forall_map. assumption.
Qed.

(** Below a bound, a sorted list is a prefix. *)
Lemma sorted_prefix c l : StronglySorted Z.lt (map r_seq l) ->
  l = List.filter (fun r => r_seq r <=? c) l ++ List.filter (fun r => negb (r_seq r <=? c)) l.
Proof.
  induction l as [|a l IH]; intros Hs; [reflexivity|]. inversion Hs as [|? ? Hs' Ha]; subst. simpl.
  destruct (Z.leb_spec (r_seq a) c) as [H|H]; simpl.
  - f_equal. apply IH. assumption.
  - assert (forall r, In r l -> (r_seq r <=? c) = false) as Hgt.
    { intros r Hr. rewrite Forall_forall in Ha. specialize (Ha (r_seq r)).
      apply Z.leb_gt. assert (r_seq a < r_seq r); [|lia]. apply Ha.
      apply list_elem_of_In, in_map, Hr. }
    rewrite filter_none, filter_all by (intros; rewrite Hgt; auto). reflexivity.
Qed.

(** The number of rows below a bound among the first [k]: the smaller of the
    two prefixes. *)
Lemma count_prefix c k l : StronglySorted Z.lt (map r_seq l) -> (k <= length l)%nat ->
  count (fun r => r_seq r <=? c) (take k l)
  = Z.min (Z.of_nat k) (count (fun r => r_seq r <=? c) l).
Proof.
  unfold count. revert k. induction l as [|a l IH]; intros k Hs Hk.
  - destruct k; reflexivity.
  - destruct k as [|k]; [simpl; lia|]. inversion Hs as [|? ? Hs' Ha]; subst.
    simpl in Hk. simpl. specialize (IH k Hs' ltac:(lia)).
    destruct (Z.leb_spec (r_seq a) c) as [H|H]; simpl; [lia|].
    rewrite (filter_none _ l), (filter_none _ (take k l)); [simpl; lia | |].
    + intros r Hr. apply Z.leb_gt. rewrite Forall_forall in Ha.
      assert (r_seq a < r_seq r); [|lia]. apply Ha, list_elem_of_In, in_map.
      apply list_elem_of_In. apply list_elem_of_In in Hr.
      rewrite <- (take_drop k l). apply elem_of_app. left. assumption.
    + intros r Hr. apply Z.leb_gt. rewrite Forall_forall in Ha.
      assert (r_seq a < r_seq r); [|lia]. apply Ha, list_elem_of_In, in_map, Hr.
Qed.

Lemma count_split {A} (p : A -> bool) l :
  count p l + count (fun x => negb (p x)) l = Z.of_nat (length l).
Proof.
  unfold count. induction l as [|a l IH]; [reflexivity|]. simpl. destruct (p a); simpl; lia.
Qed.

Lemma count_nonneg {A} (p : A -> bool) l : 0 <= count p l.
Proof. unfold count. lia. Qed.

(** ** A store in memory *)

Module ListDB.

(** [l_faults] says for each coming statement whether it fails. *)
Record listdb := { l_view : image; l_durable : image; l_faults : list bool }.

Definition empty : image := {| i_rows := []; i_high := 0; i_cursor := None |}.
Definition fresh (faults : list bool) : listdb :=
  {| l_view := empty; l_durable := empty; l_faults := faults |}.

Definition next_fault (d : listdb) : bool * listdb :=
  match l_faults d with
  | [] => (false, d)
  | f :: fs => (f, {| l_view := l_view d; l_durable := l_durable d; l_faults := fs |})
  end.

Definition update (g : listdb -> listdb) (d : listdb) : listdb * bool :=
  let '(f, d) := next_fault d in if f then (d, false) else (g d, true).
Definition query {A} (g : listdb -> A) (d : listdb) : listdb * option A :=
  let '(f, d) := next_fault d in if f then (d, None) else (d, Some (g d)).
Definition set_view (g : image -> image) (d : listdb) : listdb :=
  {| l_view := g (l_view d); l_durable := l_durable d; l_faults := l_faults d |}.

#[export] Instance list_frame_db : FrameDB listdb := {
  view := l_view;
  durable := l_durable;
  tx_begin := update (fun d => d);
  tx_insert d v :=
    if i_high (l_view d) + 1 <? 2 ^ 63 then
      update (set_view (fun i =>
        {| i_rows := i_rows i ++ [mk_row (i_high i + 1) v]; i_high := i_high i + 1;
           i_cursor := i_cursor i |})) d
    else (d, false);
  tx_split := query (fun d =>
    (Z.of_nat (length (i_rows (l_view d))), count (acked_row (l_view d)) (i_rows (l_view d))));
  tx_evict d cap := update (set_view (fun i =>
    {| i_rows := drop (surplus cap (i_rows i)) (i_rows i); i_high := i_high i;
       i_cursor := i_cursor i |})) d;
  tx_commit := update (fun d =>
    {| l_view := l_view d; l_durable := l_view d; l_faults := l_faults d |});
  tx_rollback d := {| l_view := l_durable d; l_durable := l_durable d; l_faults := l_faults d |};
  q_select_after d a n := query (fun d =>
    take (Z.to_nat n) (List.filter (fun r => a <? r_seq r) (i_rows (l_view d)))) d;
  q_put_cursor d s := update (fun d =>
    let i := {| i_rows := i_rows (l_view d); i_high := i_high (l_view d); i_cursor := Some s |} in
    {| l_view := i; l_durable := i; l_faults := l_faults d |}) d;
  q_get_cursor := query (fun d => i_cursor (l_view d));
  q_depth := query (fun d =>
    count (fun r => negb (acked_row (l_view d) r)) (i_rows (l_view d)))
}.

Lemma next_fault_keeps d : l_view (snd (next_fault d)) = l_view d /\
  l_durable (snd (next_fault d)) = l_durable d.
Proof. unfold next_fault. destruct (l_faults d); split; reflexivity. Qed.

#[export] Instance list_frame_db_laws : FrameDBLaws listdb.
Proof.
  split; unfold keeps; cbn -[Z.pow];
    try (intros d d'; intros *; unfold update, query, set_view; pose proof (next_fault_keeps d) as [Hv Hd];
         destruct (next_fault d) as [[] d1]; cbn in *; intros; simplify_eq; rewrite ?Hv, ?Hd; auto; fail).
  - intros d d' v _. destruct (Z.ltb_spec (i_high (l_view d) + 1) (2 ^ 63)) as [Hlt|]; [|discriminate].
    unfold update, set_view. pose proof (next_fault_keeps d) as [Hv Hd].
    destruct (next_fault d) as [[] d1]; cbn -[Z.pow] in *; intros; simplify_eq. cbn -[Z.pow]. rewrite Hv.
    exists (i_high (l_view d) + 1). split; [lia | reflexivity].
  - intros d d' v b. destruct (_ <? _); [|intros; simplify_eq; reflexivity].
    unfold update. pose proof (next_fault_keeps d) as [Hv Hd].
    destruct (next_fault d) as [[] d1]; cbn in *; intros; simplify_eq; assumption.
  - intros d. split; reflexivity.
Qed.
End ListDB.
