(* ===== verification/Buffer.v ===== *)
(** * The store-and-forward ring buffer

    [Buffer] of [src/internal/storeforward/buffer.go]: a bounded SQLite table
    of telemetry frames with a delivery cursor and the counters an operator
    reads.  The operations are modelled over the [FrameDB] and [FrameCodec]
    interfaces; every statement's failure is a branch.  The theorems show that
    [Write] is atomic, keeps exactly the newest [capacity] frames, classifies
    every evicted row as delivered or lost, and that [ReadBatch] gives back the
    frames that were written. *)

From Stdlib Require Import ZArith Lia Bool String List Sorting.Sorted.
From stdpp Require Import base list strings gmap sorting.
From S2P Require Import Prelude Json Wire FrameStore.
#[local] Open Scope string_scope.
#[local] Open Scope list_scope.
#[local] Open Scope Z_scope.

(** ** State *)

Record StoredFrame := { Seq : Z; Frame : TelemetryFrame }.

(** [notify] is the one-slot channel: whether a signal is pending. *)
Record Buffer (D : Type) := mkBuffer {
  db : D;
  capacity : Z;
  drifts : gmap string Z;
  written : Z;
  evictedSent : Z;
  lostUnsent : Z;
  writeErrors : Z;
  duplicates : Z;
  sent : Z;
  accepted : Z;
  checkpoints : Z;
  sendErrors : Z;
  driftTotal : Z;
  lastCheckpointUnix : Z;
  notify : bool
}.
Arguments mkBuffer {D}.
Arguments db {D}. Arguments capacity {D}. Arguments drifts {D}. Arguments written {D}.
Arguments evictedSent {D}. Arguments lostUnsent {D}. Arguments writeErrors {D}.
Arguments duplicates {D}. Arguments sent {D}. Arguments accepted {D}.
Arguments checkpoints {D}. Arguments sendErrors {D}. Arguments driftTotal {D}.
Arguments lastCheckpointUnix {D}. Arguments notify {D}.

Inductive buf_error :=
| EMarshal | EBegin | EInsert | ESplit | EEvict | ECommit
| EQuery | EUnmarshal | EAdvance
| ECapacity | EOpen | EPragma | EMigrate.

(** A buffer as [Open] builds it: zero counters, the checkpoint clock at [now]. *)
Definition new_buffer {D} (d : D) (cap now : Z) : Buffer D :=
  {| db := d; capacity := cap; drifts := ∅; written := 0; evictedSent := 0; lostUnsent := 0;
     writeErrors := 0; duplicates := 0; sent := 0; accepted := 0; checkpoints := 0;
     sendErrors := 0; driftTotal := 0; lastCheckpointUnix := now; notify := false |}.

(** ** Counters *)

Section Counters.
  Context {D : Type}.
  Implicit Types b : Buffer D.

Definition RecordSent (b : Buffer D) (n : Z) : Buffer D := {| b with sent := i64 (sent b + n) |}.
Definition RecordAccepted (b : Buffer D) (n : Z) : Buffer D :=
  {| b with accepted := i64 (accepted b + n) |}.
(** [now] is the wall clock. *)
Definition RecordCheckpoint (b : Buffer D) (now : Z) : Buffer D :=
  {| b with checkpoints := i64 (checkpoints b + 1); lastCheckpointUnix := now |}.
Definition RecordSendError (b : Buffer D) : Buffer D :=
  {| b with sendErrors := i64 (sendErrors b + 1) |}.
Definition RecordWriteError (b : Buffer D) : Buffer D :=
  {| b with writeErrors := i64 (writeErrors b + 1) |}.
Definition RecordDuplicate (b : Buffer D) : Buffer D :=
  {| b with duplicates := i64 (duplicates b + 1) |}.
Definition RecordDrift (b : Buffer D) (pointID : string) (delta : Z) : Buffer D :=
  {| b with drifts := <[pointID := i64 (default 0 (drifts b !! pointID) + delta)]> (drifts b);
            driftTotal := i64 (driftTotal b + delta) |}.
Definition Dropped (b : Buffer D) : Z := i64 (evictedSent b + lostUnsent b).
Definition Drifts (b : Buffer D) : gmap string Z := drifts b.
End Counters.

(** ** Attributes as a JSON column *)

(** [json.Marshal] of a [map[string]string]: members by ascending key. *)
Definition key_le (x y : string * string) : Prop := String.leb (fst x) (fst y) = true.
#[export] Instance key_le_dec : RelDecision key_le.
Proof. intros x y. unfold key_le. solve_decision. Defined.

Definition attrs_json (m : gmap string string) : json :=
  JObj (map (fun kv => (fst kv, JStr (snd kv))) (merge_sort key_le (map_to_list m))).

(** [json.Unmarshal] into a nil [map[string]string], as far as the map goes:
    syntax errors and non-objects leave it empty; a member that is not a string
    stores the zero value. *)
Definition attr_value (v : json) : string := match v with JStr s => s | _ => "" end.
Definition attrs_unjson (s : string) : gmap string string :=
  match parse s with
  | Some (JObj l) => fold_left (fun m kv => <[fst kv := attr_value (snd kv)]> m) l ∅
  | _ => ∅
  end.

(** ** Operations *)

Section Operations.
  Context {D : Type} `{FrameDB D} `{FrameCodec}.

Definition set_db (b : Buffer D) (d : D) : Buffer D := {| b with db := d |}.

(** The column values of a frame. *)
Definition frame_values (f : TelemetryFrame) (wire : string) : row_values :=
  {| v_gateway := GatewayId f; v_point := PointId f; v_value := GetValueNum f;
     v_timestamp := Timestamp f;
     v_attributes := if decide (Attributes f = ∅) then None else Some (marshal (attrs_json (Attributes f)));
     v_frame := Some wire |}.

(** How many of the rows about to be evicted were delivered, and how many not. *)
Definition split_victims (total acked cap : Z) : Z * Z :=
  let victims := i64 (total - cap) in
  if 0 <? victims then (Z.min victims acked, i64 (victims - Z.min victims acked)) else (0, 0).

(** After a committed [Write]: the counters move and the forwarder is woken. *)
Definition note_written (b : Buffer D) (d : D) (ev lost : Z) : Buffer D :=
  {| b with db := d; written := i64 (written b + 1);
            evictedSent := if 0 <? ev then i64 (evictedSent b + ev) else evictedSent b;
            lostUnsent := if 0 <? lost then i64 (lostUnsent b + lost) else lostUnsent b;
            notify := true |}.

Definition Write (b : Buffer D) (f : TelemetryFrame) : Buffer D * option buf_error :=
  match proto_marshal f with
  | None => (b, Some EMarshal)
  | Some wire =>
    let '(d1, ok) := tx_begin (db b) in
    if negb ok then (set_db b d1, Some EBegin) else
    let fail d e := (set_db b (tx_rollback d), Some e) in
    let '(d2, ok) := tx_insert d1 (frame_values f wire) in
    if negb ok then fail d2 EInsert else
    match tx_split d2 with
    | (d3, None) => fail d3 ESplit
    | (d3, Some (total, acked)) =>
      let '(ev, lost) := split_victims total acked (capacity b) in
      let '(d4, ok) := tx_evict d3 (capacity b) in
      if negb ok then fail d4 EEvict else
      let '(d5, ok) := tx_commit d4 in
      if negb ok then fail d5 ECommit else
      (note_written b d5 ev lost, None)
    end
  end.

(** One scanned row: a row with wire bytes decodes to its frame, an older row
    is assembled from its columns. *)
Definition decode_row (r : row) : option StoredFrame :=
  let wire := default "" (r_frame r) in
  if String.eqb wire "" then
    let attrs := match r_attributes r with
                 | Some s => if String.eqb s "" then ∅ else attrs_unjson s
                 | None => ∅
                 end in
    Some {| Seq := r_seq r;
            Frame := mkFrame (r_gateway r) (r_point r) (Some (ValueNum (r_value r)))
                       (r_timestamp r) attrs |}
  else match proto_unmarshal wire with
       | Some f => Some {| Seq := r_seq r; Frame := f |}
       | None => None
       end.

Fixpoint decode_rows (l : list row) : option (list StoredFrame) :=
  match l with
  | [] => Some []
  | r :: l' =>
    match decode_row r with
    | None => None
    | Some sf => match decode_rows l' with Some rest => Some (sf :: rest) | None => None end
    end
  end.

Definition ReadBatch (b : Buffer D) (afterSeq limit : Z)
  : Buffer D * result buf_error (list StoredFrame) :=
  match q_select_after (db b) afterSeq limit with
  | (d, None) => (set_db b d, Err EQuery)
  | (d, Some l) =>
    (set_db b d, match decode_rows l with Some batch => Ok batch | None => Err EUnmarshal end)
  end.

Definition Advance (b : Buffer D) (seq : Z) : Buffer D * option buf_error :=
  let '(d, ok) := q_put_cursor (db b) seq in
  (set_db b d, if ok then None else Some EAdvance).

(** A read error is logged and reads as 0, like a missing row. *)
Definition Cursor (b : Buffer D) : Buffer D * Z :=
  match q_get_cursor (db b) with
  | (d, Some (Some seq)) => (set_db b d, seq)
  | (d, _) => (set_db b d, 0)
  end.

Definition Depth (b : Buffer D) : Buffer D * Z :=
  match q_depth (db b) with
  | (d, Some n) => (set_db b d, n)
  | (d, None) => (set_db b d, 0)
  end.
End Operations.

(** ** Invariant and effect of [Write] *)

Section WriteFacts.
  Context {D : Type} `{HD : FrameDB D} `{HC : FrameCodec}.
  Context `{!FrameDBLaws D}.

(** Between operations no transaction is open. *)
Definition idle (b : Buffer D) : Prop := view (db b) = durable (db b).

Definition buf_ok (b : Buffer D) : Prop :=
  idle b /\ image_ok (durable (db b)) /\ 0 < capacity b < 2 ^ 63.

Definition stored (b : Buffer D) : list row := i_rows (durable (db b)).

(** The table with the new row, the rows evicted from it, and the rows kept. *)
Definition evicted (cap : Z) (l : list row) : list row := take (surplus cap l) l.
Definition kept (cap : Z) (l : list row) : list row := drop (surplus cap l) l.

Definition delivered (b : Buffer D) (r : row) : bool := acked_row (durable (db b)) r.

Lemma append_row_ok i seq v : image_ok i -> i_high i < seq < 2 ^ 63 ->
  image_ok {| i_rows := i_rows i ++ [mk_row seq v]; i_high := seq; i_cursor := i_cursor i |}.
Proof.
  intros (Hs & Hf & Hh) Hseq. unfold image_ok. cbn [i_rows i_high]. split; [|split; [|lia]].
  - rewrite map_app. apply sorted_snoc; [assumption|]. apply Forall_map.
    eapply Forall_impl; [exact Hf|]. simpl. lia.
  - apply Forall_app. split; [|repeat constructor; simpl; lia].
    eapply Forall_impl; [exact Hf|]. simpl. lia.
Qed.

Lemma drop_rows_ok i k : image_ok i ->
  image_ok {| i_rows := drop k (i_rows i); i_high := i_high i; i_cursor := i_cursor i |}.
Proof.
  intros (Hs & Hf & Hh). unfold image_ok. cbn [i_rows i_high]. split; [|split; [|lia]].
  - rewrite <- skipn_map. apply sorted_drop. assumption.
  - apply Forall_drop. assumption.
Qed.

(** The two counts of [Write] are the delivered and the undelivered victims. *)
Lemma split_victims_exact i cap : image_ok i -> 0 < cap < 2 ^ 63 ->
  split_victims (Z.of_nat (length (i_rows i))) (count (acked_row i) (i_rows i)) cap
  = (count (acked_row i) (evicted cap (i_rows i)),
     count (fun r => negb (acked_row i r)) (evicted cap (i_rows i))).
Proof.
  intros Hok Hcap. pose proof (image_length i Hok) as Hlen. destruct Hok as (Hs & _ & Hh).
  unfold split_victims, evicted.
  rewrite i64_small by (unfold in_i64; lia).
  assert (surplus cap (i_rows i) <= length (i_rows i))%nat as Hle by (unfold surplus; lia).
  pose proof (count_prefix (cursor_of i) _ _ Hs Hle) as Hc.
  pose proof (count_split (acked_row i) (take (surplus cap (i_rows i)) (i_rows i))) as Hsum.
  pose proof (count_nonneg (acked_row i) (i_rows i)).
  rewrite length_take, Nat.min_l in Hsum by assumption. unfold acked_row in *.
  destruct (Z.ltb_spec 0 (Z.of_nat (length (i_rows i)) - cap)) as [Hpos|Hneg].
  - assert (Z.of_nat (surplus cap (i_rows i)) = Z.of_nat (length (i_rows i)) - cap) as Hsur
      by (unfold surplus; lia).
    rewrite Hsur in *. rewrite i64_small by (unfold in_i64; lia). f_equal; lia.
  - assert (surplus cap (i_rows i) = O) as -> by (unfold surplus; lia). reflexivity.
Qed.

Lemma Write_ok_spec b b' f : buf_ok b -> Write b f = (b', None) ->
  exists wire seq, proto_marshal f = Some wire /\ i_high (durable (db b)) < seq < 2 ^ 63 /\
    let all := stored b ++ [mk_row seq (frame_values f wire)] in
    durable (db b') = {| i_rows := kept (capacity b) all; i_high := seq;
                         i_cursor := i_cursor (durable (db b)) |} /\
    buf_ok b' /\
    b' = note_written b (db b') (count (delivered b) (evicted (capacity b) all))
           (count (fun r => negb (delivered b r)) (evicted (capacity b) all)).
Proof.
  intros (Hidle & Hok & Hcap) HW. unfold Write in HW.
  destruct (proto_marshal f) as [wire|]; [|discriminate].
  destruct (tx_begin (db b)) as [d1 []] eqn:E1; [|discriminate]. cbn [negb] in HW.
  apply begin_keeps in E1 as [V1 U1].
  destruct (tx_insert d1 (frame_values f wire)) as [d2 []] eqn:E2; [|discriminate].
  apply insert_ok in E2 as (seq & Hseq & V2); [|rewrite V1, Hidle; assumption].
  rewrite V1, Hidle in V2, Hseq.
  pose proof (append_row_ok _ seq (frame_values f wire) Hok Hseq) as Hok2. rewrite <- V2 in Hok2.
  cbn [negb] in HW. destruct (tx_split d2) as [d3 [[total acked]|]] eqn:E3; [|discriminate].
  pose proof (split_keeps _ _ _ E3) as [V3 U3]. apply split_ok in E3 as [-> ->].
  rewrite split_victims_exact in HW by assumption.
  destruct (tx_evict d3 (capacity b)) as [d4 []] eqn:E4; [|discriminate]. cbn [negb] in HW.
  apply evict_ok in E4 as V4; [|rewrite V3; assumption].
  destruct (tx_commit d4) as [d5 []] eqn:E5; [|discriminate]. cbn [negb] in HW.
  apply commit_ok in E5 as [V5 U5].
  injection HW as <-. exists wire, seq. split; [reflexivity|]. split; [assumption|].
  cbv zeta. cbn [db note_written capacity].
  assert (durable d5 = {| i_rows := kept (capacity b) (stored b ++ [mk_row seq (frame_values f wire)]);
                          i_high := seq; i_cursor := i_cursor (durable (db b)) |}) as Hd.
  { rewrite U5, V4, V3, V2. reflexivity. }
  split; [exact Hd|]. split.
  - split; [unfold idle; cbn [db note_written]; congruence|]. split; [|exact Hcap].
    cbn [db note_written]. rewrite U5, V4, V3. apply drop_rows_ok. assumption.
  - unfold delivered. f_equal; unfold evicted; rewrite V2; reflexivity.
Qed.

Lemma Write_err_spec b b' f e : idle b -> Write b f = (b', Some e) ->
  b' = set_db b (db b') /\ durable (db b') = durable (db b) /\ idle b'.
Proof.
  intros Hidle HW. unfold Write in HW.
  destruct (proto_marshal f) as [wire|];
    [|injection HW as <- _; destruct b; repeat split; assumption].
  destruct (tx_begin (db b)) as [d1 []] eqn:E1; cbn [negb] in HW; apply begin_keeps in E1 as [V1 U1];
    [|injection HW as <- _; cbn; split; [reflexivity | unfold idle; cbn; split; congruence]].
  assert (forall d e', durable d = durable (db b) ->
    (set_db b (tx_rollback d), Some e') = (b', Some e) ->
    b' = set_db b (db b') /\ durable (db b') = durable (db b) /\ idle b') as Hfail.
  { intros d e' U [= <- _]. destruct (rollback_ok d) as [Rv Rd]. cbn.
    split; [reflexivity|]. unfold idle. cbn. split; congruence. }
  destruct (tx_insert d1 (frame_values f wire)) as [d2 []] eqn:E2; cbn [negb] in HW;
    apply insert_durable in E2; [|eapply Hfail; [|exact HW]; congruence].
  destruct (tx_split d2) as [d3 [[total acked]|]] eqn:E3; apply split_keeps in E3 as [V3 U3];
    [|eapply Hfail; [|exact HW]; congruence].
  destruct (split_victims total acked (capacity b)) as [ev lost].
  destruct (tx_evict d3 (capacity b)) as [d4 []] eqn:E4; cbn [negb] in HW;
    apply evict_durable in E4; [|eapply Hfail; [|exact HW]; congruence].
  destruct (tx_commit d4) as [d5 []] eqn:E5; cbn [negb] in HW; [discriminate|].
  apply commit_err in E5. eapply Hfail; [|exact HW]. congruence.
Qed.
End WriteFacts.

(** ** The buffer as a ring: refinement over any sequence of operations *)

(** Every call another component makes on the buffer. *)
Inductive buf_op :=
| OpWrite (f : TelemetryFrame)
| OpAdvance (seq : Z)
| OpRead (afterSeq limit : Z)
| OpCursor
| OpDepth
| OpSent (n : Z)
| OpAccepted (n : Z)
| OpCheckpoint (now : Z)
| OpSendError
| OpWriteError
| OpDuplicate
| OpDrift (pointID : string) (delta : Z).

(** The newest [n] elements. *)
Definition lastn {A} (n : nat) (l : list A) : list A := drop (length l - n) l.

Section Ring.
  Context {D : Type} `{HD : FrameDB D} `{HC : FrameCodec}.

(** One operation, with the frame it durably stored, if any. *)
Definition apply_op (b : Buffer D) (o : buf_op) : Buffer D * list TelemetryFrame :=
  match o with
  | OpWrite f =>
    match Write b f with (b', None) => (b', [f]) | (b', Some _) => (b', []) end
  | OpAdvance s => (fst (Advance b s), [])
  | OpRead a n => (fst (ReadBatch b a n), [])
  | OpCursor => (fst (Cursor b), [])
  | OpDepth => (fst (Depth b), [])
  | OpSent n => (RecordSent b n, [])
  | OpAccepted n => (RecordAccepted b n, [])
  | OpCheckpoint now => (RecordCheckpoint b now, [])
  | OpSendError => (RecordSendError b, [])
  | OpWriteError => (RecordWriteError b, [])
  | OpDuplicate => (RecordDuplicate b, [])
  | OpDrift p n => (RecordDrift b p n, [])
  end.

Fixpoint run_ops (b : Buffer D) (ops : list buf_op) : Buffer D * list TelemetryFrame :=
  match ops with
  | [] => (b, [])
  | o :: ops' =>
    let '(b1, fs) := apply_op b o in
    let '(b2, fs') := run_ops b1 ops' in (b2, fs ++ fs')
  end.

(** What [ReadBatch] returns for a stored frame: the frame itself, except that
    a message with no field set comes back with a numeric zero. *)
Definition read_back (f : TelemetryFrame) : TelemetryFrame :=
  if decide (f = empty_frame) then mkFrame "" "" (Some (ValueNum f64_zero)) "" ∅ else f.

Definition holds (r : row) (f : TelemetryFrame) : Prop :=
  decode_row r = Some {| Seq := r_seq r; Frame := read_back f |}.

Context `{!FrameCodecLaws} `{!FrameDBLaws D}.

Lemma decode_written f wire seq : proto_marshal f = Some wire ->
  holds (mk_row seq (frame_values f wire)) f.
Proof.
  intros Hm. unfold holds, decode_row, read_back. cbn [r_frame mk_row frame_values v_frame].
  change (default "" (Some wire)) with wire.
  destruct (String.eqb_spec wire "") as [->|Hne].
  - apply marshal_empty in Hm as ->. rewrite decide_True by reflexivity. reflexivity.
  - rewrite (unmarshal_marshal _ _ Hm). rewrite decide_False; [reflexivity|].
    intros E. apply marshal_empty in E. congruence.
Qed.

Lemma kept_lastn cap l r : 0 < cap ->
  kept cap (lastn (Z.to_nat cap) l ++ [r]) = lastn (Z.to_nat cap) (l ++ [r]).
Proof.
  intros Hc. unfold kept, surplus, lastn. rewrite !length_app, length_drop. cbn [length].
  destruct (le_lt_dec (length l) (Z.to_nat cap)) as [Hle|Hlt].
  - replace (length l - Z.to_nat cap)%nat with O by lia. rewrite drop_0.
    f_equal. lia.
  - rewrite <- (drop_app_le l [r] (length l - Z.to_nat cap)) by lia.
    rewrite drop_drop. f_equal. lia.
Qed.

(** How the buffer, started as [b0], relates to the rows committed since. *)
Record ring (b0 b : Buffer D) (rows : list row) : Prop := {
  ring_ok : buf_ok b;
  ring_cap : capacity b = capacity b0;
  ring_rows : stored b = lastn (Z.to_nat (capacity b0)) (stored b0 ++ rows);
  ring_written : written b mod 2 ^ 64 = (written b0 + Z.of_nat (length rows)) mod 2 ^ 64;
  ring_account :
    (Z.of_nat (length (stored b)) + evictedSent b + lostUnsent b) mod 2 ^ 64
    = (Z.of_nat (length (stored b0)) + evictedSent b0 + lostUnsent b0
       + Z.of_nat (length rows)) mod 2 ^ 64
}.

(** Operations that leave the rows and the eviction counters alone. *)
Lemma ring_quiet b0 b b' rows : ring b0 b rows ->
  buf_ok b' -> stored b' = stored b -> capacity b' = capacity b -> written b' = written b ->
  evictedSent b' = evictedSent b -> lostUnsent b' = lostUnsent b -> ring b0 b' rows.
Proof. intros [] ? E1 E2 E3 E4 E5. constructor; rewrite ?E1, ?E2, ?E3, ?E4, ?E5; assumption. Qed.

Lemma add_if_positive x n : 0 <= n ->
  (if 0 <? n then i64 (x + n) else x) mod 2 ^ 64 = (x + n) mod 2 ^ 64.
Proof.
  intros. destruct (Z.ltb_spec 0 n); [apply i64_congr|]. f_equal. lia.
Qed.

Lemma ring_write b0 b b' f rows : ring b0 b rows -> Write b f = (b', None) ->
  exists r, holds r f /\ ring b0 b' (rows ++ [r]).
Proof.
  intros [Hok Hcap Hrows Hw Ha] HW.
  destruct (Write_ok_spec _ _ _ Hok HW) as (wire & seq & Hm & _ & Hdur & Hok' & Hb').
  exists (mk_row seq (frame_values f wire)). split; [apply decode_written; assumption|].
  set (r := mk_row seq (frame_values f wire)) in *.
  assert (Hst : stored b' = kept (capacity b) (stored b ++ [r])) by (unfold stored; rewrite Hdur; reflexivity).
  assert (0 < capacity b) by apply Hok.
  constructor.
  - assumption.
  - rewrite Hb'. exact Hcap.
  - rewrite Hst, Hcap, Hrows, kept_lastn, <- app_assoc by congruence. reflexivity.
  - rewrite Hb'. cbn [written note_written]. rewrite i64_congr, length_app, Nat2Z.inj_add.
    cbn [length]. rewrite Z.add_mod, Hw, <- Z.add_mod by lia. f_equal. lia.
  - rewrite Hb' at 2 3. cbn [evictedSent lostUnsent note_written].
    set (all := stored b ++ [r]) in *.
    pose proof (count_split (delivered b) (evicted (capacity b) all)) as Hsum.
    pose proof (count_nonneg (delivered b) (evicted (capacity b) all)) as P1.
    pose proof (count_nonneg (fun x => negb (delivered b x)) (evicted (capacity b) all)) as P2.
    assert (Z.of_nat (length (stored b')) + Z.of_nat (length (evicted (capacity b) all))
            = Z.of_nat (length (stored b)) + 1) as Hlen.
    { rewrite Hst. unfold kept, evicted. rewrite length_drop, length_take. unfold all.
      rewrite length_app. cbn [length]. unfold surplus. lia. }
    rewrite Z.add_mod, (Z.add_mod (Z.of_nat _)), !add_if_positive, <- (Z.add_mod (Z.of_nat _)),
      <- Z.add_mod by lia.
    rewrite length_app, Nat2Z.inj_add. cbn [length].
    transitivity ((Z.of_nat (length (stored b)) + evictedSent b + lostUnsent b + 1) mod 2 ^ 64);
      [f_equal; lia|].
    rewrite Z.add_mod, Ha, <- Z.add_mod by lia. f_equal. lia.
Qed.

Lemma ring_write_err b0 b b' f e rows : ring b0 b rows -> Write b f = (b', Some e) -> ring b0 b' rows.
Proof.
  intros Hr HW. pose proof (ring_ok _ _ _ Hr) as (Hi & Hok & Hcap).
  destruct (Write_err_spec _ _ _ _ Hi HW) as (Hb & Hd & Hi').
  apply (ring_quiet _ _ _ _ Hr); unfold stored; try (rewrite Hd; reflexivity);
    try (rewrite Hb; reflexivity).
  split; [assumption|]. split; [rewrite Hd; assumption | rewrite Hb; assumption].
Qed.

(** A query: the database handle moves, its contents do not. *)
Lemma ring_query b0 b d rows : ring b0 b rows -> keeps (db b) d -> ring b0 (set_db b d) rows.
Proof.
  intros Hr [Hv Hd]. pose proof (ring_ok _ _ _ Hr) as (Hi & Hok & Hcap).
  apply (ring_quiet _ _ _ _ Hr); try reflexivity.
  - split; [unfold idle; cbn; congruence|]. cbn. split; [congruence | assumption].
  - unfold stored. cbn. congruence.
Qed.

Lemma ring_advance b0 b s rows : ring b0 b rows -> ring b0 (fst (Advance b s)) rows.
Proof.
  intros Hr. unfold Advance. destruct (q_put_cursor (db b) s) as [d []] eqn:E; cbn [fst].
  - pose proof (ring_ok _ _ _ Hr) as (Hi & Hok & Hcap).
    apply put_cursor_ok in E as [Hv Hd]; [|exact Hi]. rewrite Hi in Hv.
    apply (ring_quiet _ _ _ _ Hr); try reflexivity.
    + split; [unfold idle; cbn; congruence|]. cbn. split; [|exact Hcap].
      rewrite Hd, Hv. exact Hok.
    + unfold stored. cbn. rewrite Hd, Hv. reflexivity.
  - apply ring_query; [assumption|]. eapply put_cursor_err, E.
Qed.

Lemma ring_step b0 b o rows : ring b0 b rows ->
  exists rs, Forall2 holds rs (snd (apply_op b o)) /\ ring b0 (fst (apply_op b o)) (rows ++ rs).
Proof.
  intros Hr. destruct o; cbn [apply_op];
    try (exists []; rewrite app_nil_r; split; [constructor|];
         cbn [fst]; apply (ring_quiet _ _ _ _ Hr); try reflexivity; apply Hr; fail).
  - destruct (Write b f) as [b' [e|]] eqn:E.
    + exists []. rewrite app_nil_r. split; [constructor|]. eapply ring_write_err; eassumption.
    + destruct (ring_write _ _ _ _ _ Hr E) as (r & Hh & Hr').
      exists [r]. split; [repeat constructor|]; assumption.
  - exists []. rewrite app_nil_r. split; [constructor | apply ring_advance; assumption].
  - exists []. rewrite app_nil_r. split; [constructor|]. unfold ReadBatch.
    destruct (q_select_after (db b) afterSeq limit) as [d [l|]] eqn:E;
      apply ring_query; auto; eapply select_keeps, E.
  - exists []. rewrite app_nil_r. split; [constructor|]. unfold Cursor.
    destruct (q_get_cursor (db b)) as [d [[l|]|]] eqn:E; apply ring_query; auto; eapply get_cursor_keeps, E.
  - exists []. rewrite app_nil_r. split; [constructor|]. unfold Depth.
    destruct (q_depth (db b)) as [d [l|]] eqn:E; apply ring_query; auto; eapply depth_keeps, E.
Qed.

Lemma ring_run ops : forall b0 b rows, ring b0 b rows ->
  exists rs, Forall2 holds rs (snd (run_ops b ops)) /\ ring b0 (fst (run_ops b ops)) (rows ++ rs).
Proof.
  induction ops as [|o ops IH]; intros b0 b rows Hr; cbn [run_ops].
  - exists []. rewrite app_nil_r. split; [constructor | assumption].
  - destruct (ring_step b0 b o rows Hr) as (rs1 & H1 & Hr1). destruct (apply_op b o) as [b1 fs].
    destruct (IH b0 b1 _ Hr1) as (rs2 & H2 & Hr2). destruct (run_ops b1 ops) as [b2 fs'].
    exists (rs1 ++ rs2). rewrite app_assoc. split; [apply Forall2_app|]; assumption.
Qed.

Lemma ring_start b : buf_ok b -> Z.of_nat (length (stored b)) <= capacity b -> ring b b [].
Proof.
  intros Hok Hle. constructor; auto; rewrite ?app_nil_r; cbn [length Z.of_nat]; rewrite ?Z.add_0_r; auto.
  unfold lastn. replace (length (stored b) - Z.to_nat (capacity b))%nat with O by lia. reflexivity.
Qed.

(** C5: over any sequence of buffer operations, with any statements failing,
    the table holds exactly the newest [capacity] of the rows it started with
    and the rows whose [Write] succeeded, in order, and each such row reads back
    as the frame that was written.  Every frame is accounted for: rows held,
    rows evicted after delivery and rows lost add up (modulo the counters'
    64-bit wrap) to the rows committed. *)
Theorem buffer_refines_ring (b : Buffer D) (ops : list buf_op) :
  buf_ok b -> Z.of_nat (length (stored b)) <= capacity b ->
  exists rows, let '(b', fs) := run_ops b ops in
    Forall2 holds rows fs /\
    stored b' = lastn (Z.to_nat (capacity b)) (stored b ++ rows) /\
    buf_ok b' /\
    written b' mod 2 ^ 64 = (written b + Z.of_nat (length fs)) mod 2 ^ 64 /\
    (Z.of_nat (length (stored b')) + evictedSent b' + lostUnsent b') mod 2 ^ 64
    = (Z.of_nat (length (stored b)) + evictedSent b + lostUnsent b
       + Z.of_nat (length fs)) mod 2 ^ 64.
Proof.
  intros Hok Hle. destruct (ring_run ops _ _ _ (ring_start b Hok Hle)) as (rows & Hh & Hr).
  exists rows. destruct (run_ops b ops) as [b' fs]. cbn [fst snd app] in *.
  rewrite <- (Forall2_length _ _ _ Hh). destruct Hr. auto.
Qed.
End Ring.

(** ** One [Write], every branch *)

Section WriteExact.
  Context {D : Type} `{HD : FrameDB D} `{HC : FrameCodec}.
  Context `{!FrameCodecLaws} `{!FrameDBLaws D}.

Lemma kept_newest cap l r : 0 < cap -> In r (kept cap (l ++ [r])).
Proof.
  intros. unfold kept. rewrite drop_app_le.
  - apply in_or_app. right. left. reflexivity.
  - unfold surplus. rewrite length_app. cbn [length]. lia.
Qed.

(** C9: [Write] is atomic and its accounting is exact.  On success the new
    frame is durable under a fresh, larger sequence number and present in the
    table, the cursor is untouched, and the rows evicted with it are split at
    the cursor into delivered and lost exactly.  On failure the durable contents
    and every counter are unchanged. *)
Theorem Write_exact (b : Buffer D) (f : TelemetryFrame) :
  buf_ok b ->
  match Write b f with
  | (b', None) =>
    exists r, let all := stored b ++ [r] in
      holds r f /\ Forall (fun x => r_seq x < r_seq r) (stored b) /\
      stored b' = kept (capacity b) all /\ In r (stored b') /\
      Z.of_nat (length (stored b')) <= capacity b /\
      i_cursor (durable (db b')) = i_cursor (durable (db b)) /\
      written b' = i64 (written b + 1) /\
      evictedSent b' mod 2 ^ 64
        = (evictedSent b + count (delivered b) (evicted (capacity b) all)) mod 2 ^ 64 /\
      lostUnsent b' mod 2 ^ 64
        = (lostUnsent b + count (fun x => negb (delivered b x)) (evicted (capacity b) all)) mod 2 ^ 64 /\
      notify b' = true /\ buf_ok b'
  | (b', Some _) => b' = set_db b (db b') /\ durable (db b') = durable (db b) /\ buf_ok b'
  end.
Proof.
  intros Hok. destruct (Write b f) as [b' [e|]] eqn:HW.
  - pose proof Hok as (Hi & Him & Hcap). destruct (Write_err_spec _ _ _ _ Hi HW) as (Hb & Hd & Hi').
    split; [assumption|]. split; [assumption|]. split; [assumption|].
    split; [rewrite Hd; assumption | rewrite Hb; assumption].
  - destruct (Write_ok_spec _ _ _ Hok HW) as (wire & seq & Hm & Hseq & Hdur & Hok' & Hb').
    pose proof Hok as (_ & (_ & Hf & _) & Hcap).
    exists (mk_row seq (frame_values f wire)). cbv zeta.
    assert (stored b' = kept (capacity b) (stored b ++ [mk_row seq (frame_values f wire)])) as Hst
      by (unfold stored; rewrite Hdur; reflexivity).
    split; [apply decode_written; assumption|].
    split; [eapply Forall_impl; [exact Hf|]; simpl; lia|].
    split; [exact Hst|]. split; [rewrite Hst; apply kept_newest; lia|].
    split; [rewrite Hst; unfold kept, surplus; rewrite length_drop, length_app; cbn [length]; lia|].
    split; [rewrite Hdur; reflexivity|].
    rewrite Hb'. cbn [written evictedSent lostUnsent notify note_written].
    split; [reflexivity|]. rewrite !add_if_positive by apply count_nonneg.
    repeat split; try reflexivity; rewrite <- Hb'; apply Hok'.
Qed.

(** ** Reading back *)

Lemma decode_rows_holds l fs : Forall2 holds l fs ->
  decode_rows l = Some (zip_with (fun r f => {| Seq := r_seq r; Frame := read_back f |}) l fs).
Proof.
  induction 1 as [|r f l fs Hr _ IH]; cbn [decode_rows zip_with]; [reflexivity|].
  rewrite Hr, IH. reflexivity.
Qed.

(** The frames of the rows a query selects. *)
Definition selected (a n : Z) (l : list row) : list row :=
  take (Z.to_nat n) (List.filter (fun r => a <? r_seq r) l).

Lemma Forall2_filter_take (l : list row) (fs : list TelemetryFrame) a n : Forall2 holds l fs ->
  exists gs, Forall2 holds (selected a n l) gs /\
    zip_with (fun r f => (r_seq r, f)) (selected a n l) gs
    = take (Z.to_nat n) (List.filter (fun p => a <? fst p) (zip_with (fun r f => (r_seq r, f)) l fs)).
Proof.
  intros Hall. unfold selected.
  assert (exists gs, Forall2 holds (List.filter (fun r => a <? r_seq r) l) gs /\
    zip_with (fun r f => (r_seq r, f)) (List.filter (fun r => a <? r_seq r) l) gs
    = List.filter (fun p => a <? fst p) (zip_with (fun r f => (r_seq r, f)) l fs)) as (gs & Hg & E).
  { induction Hall as [|r f l fs Hr _ (gs & Hg & E)]; [exists []; split; [constructor | reflexivity]|].
    cbn [List.filter zip_with fst]. destruct (a <? r_seq r).
    - exists (f :: gs). split; [constructor; assumption|]. cbn [zip_with]. rewrite E. reflexivity.
    - exists gs. split; assumption. }
  exists (take (Z.to_nat n) gs). split; [apply Forall2_take; assumption|].
  rewrite <- E. clear. revert n gs. generalize (List.filter (fun r => a <? r_seq r) l) as m.
  intros m n. induction (Z.to_nat n) as [|k IH] in m |- *; intros gs; [reflexivity|].
  destruct m, gs; try reflexivity. cbn. rewrite IH. reflexivity.
Qed.

(** when the rows of the table hold the frames [fs], [ReadBatch] returns,
    in ascending order, the first [limit] of those with a sequence number above
    [afterSeq], each with the frame that was written; it fails only when the
    query does, and it changes nothing durable. *)
Theorem ReadBatch_exact (b : Buffer D) (fs : list TelemetryFrame) (afterSeq limit : Z) :
  buf_ok b -> 0 <= limit -> Forall2 holds (stored b) fs ->
  match ReadBatch b afterSeq limit with
  | (b', Ok batch) =>
    map (fun sf => (Seq sf, Frame sf)) batch
    = map (fun p => (fst p, read_back (snd p)))
        (take (Z.to_nat limit) (List.filter (fun p => afterSeq <? fst p)
           (zip_with (fun r f => (r_seq r, f)) (stored b) fs)))
    /\ durable (db b') = durable (db b)
  | (b', Err e) => e = EQuery /\ durable (db b') = durable (db b)
  end.
Proof.
  intros (Hi & Hok & _) Hl Hh. unfold ReadBatch.
  destruct (q_select_after (db b) afterSeq limit) as [d [l|]] eqn:E;
    pose proof (select_keeps _ _ _ _ _ E) as [_ Hd]; [|split; [reflexivity | exact Hd]].
  apply select_ok in E as ->; [|assumption|rewrite Hi; assumption].
  rewrite Hi. fold (stored b). fold (selected afterSeq limit (stored b)).
  destruct (Forall2_filter_take _ _ afterSeq limit Hh) as (gs & Hg & <-).
  rewrite (decode_rows_holds _ _ Hg). split; [|exact Hd].
  clear. revert gs. induction (selected afterSeq limit (stored b)) as [|r l IH]; intros [|g gs];
    try reflexivity. cbn. rewrite IH. reflexivity.
Qed.
End WriteExact.

(** ** Witnesses: a buffer of two frames over the in-memory store *)

Module BufferExample.
Import ListDB CountableCodec.

Definition frame (p : string) : TelemetryFrame :=
  mkFrame "gw-1" p (Some (ValueBool true)) "2026-01-01T00:00:00Z" (<["unit" := "degC"]> ∅).

Definition start (faults : list bool) : Buffer listdb := new_buffer (fresh faults) 2 0.

Lemma start_ok faults : buf_ok (start faults).
Proof. repeat split; try constructor; cbn; lia. Qed.

(** The second [Write] fails at its INSERT; the fourth evicts the first row,
    delivered by then, and the fifth a row that was not. *)
Definition script : list buf_op :=
  [OpWrite (frame "a"); OpWrite (frame "b"); OpWrite (frame "c"); OpAdvance 1;
   OpWrite (frame "d"); OpWrite (frame "e")].
Definition faults : list bool :=
  [false; false; false; false; false] ++ [false; true].

Lemma buffer_refines_ring_witness :
  map PointId (snd (run_ops (start faults) script)) = ["a"; "c"; "d"; "e"] /\
  evictedSent (fst (run_ops (start faults) script)) = 1 /\
  lostUnsent (fst (run_ops (start faults) script)) = 1 /\
  exists rows, Forall2 holds rows (snd (run_ops (start faults) script)).
Proof.
  split; [vm_compute; reflexivity|]. split; [vm_compute; reflexivity|].
  split; [vm_compute; reflexivity|].
  destruct (buffer_refines_ring (start faults) script (start_ok faults)) as [rows Hrows];
    [vm_compute; discriminate|].
  exists rows. destruct (run_ops (start faults) script). apply Hrows.
Defined.

Lemma Write_exact_witness :
  snd (Write (start []) (frame "a")) = None /\
  match Write (start []) (frame "a") with
  | (b', None) => exists r, holds r (frame "a") /\ In r (stored b')
  | (_, Some _) => False
  end.
Proof.
  split; [vm_compute; reflexivity|].
  pose proof (Write_exact (start []) (frame "a") (start_ok [])) as HW.
  assert (snd (Write (start []) (frame "a")) = None) as E by (vm_compute; reflexivity).
  destruct (Write (start []) (frame "a")) as [b' [e|]]; [discriminate E|].
  destruct HW as (r & Hr & _ & _ & Hin & _). exists r. split; assumption.
Defined.

Definition two : Buffer listdb := fst (run_ops (start []) [OpWrite (frame "a"); OpWrite (frame "b")]).

Lemma two_ok : buf_ok two.
Proof.
  split; [vm_compute; reflexivity|]. split; [|vm_compute; repeat constructor].
  unfold image_ok. vm_compute. repeat constructor; discriminate.
Qed.

Lemma ReadBatch_exact_witness :
  match ReadBatch two 1 10 with
  | (_, Ok batch) => map (fun sf => (Seq sf, Frame sf)) batch = [(2, frame "b")]
  | (_, Err _) => False
  end.
Proof.
  assert (Forall2 holds (stored two) [frame "a"; frame "b"]) as Hh
    by (repeat constructor; vm_compute; reflexivity).
  assert (snd (ReadBatch two 1 10) <> Err EQuery) as Hq by (vm_compute; discriminate).
  pose proof (ReadBatch_exact two _ 1 10 two_ok ltac:(lia) Hh) as HR.
  destruct (ReadBatch two 1 10) as [b' [batch|e]].
  - destruct HR as [-> _]. vm_compute. reflexivity.
  - destruct HR as [-> _]. apply Hq. reflexivity.
Defined.
End BufferExample.
