(* ===== verification/Pump.v ===== *)
(** * The pump and acknowledgement of a sent batch

    [Pump] of [src/internal/storeforward/pump.go] moves frames from the
    normalizer into the buffer and acknowledges the source message only once
    the frame is durable; [ApplyAck] of [src/internal/storeforward/ack.go] turns
    Building OS's accepted count into a cursor and per-point drift.  Between two
    messages any other buffer operation may run, as the uplink's goroutine
    does. *)

From Stdlib Require Import ZArith Lia Bool String List.
From stdpp Require Import base list strings gmap.
From S2P Require Import Prelude Wire SeqWindow FrameStore Buffer.
#[local] Open Scope string_scope.
#[local] Open Scope list_scope.
#[local] Open Scope Z_scope.

(** ** The pump *)

(** Nanoseconds, as [time.Duration]. *)
Definition writeErrorNakDelay : Z := 5 * 1000000000.

(** [FM_Msg] identifies the source delivery whose [Ack]/[NakWithDelay] the pump
    calls; [None] is a nil message. *)
Record FrameMsg := { FM_Frame : TelemetryFrame; FM_Msg : option Z; FM_Seq : Z }.

Inductive ack_action := Ack (msg : Z) | NakWithDelay (msg delay : Z).
Inductive outcome := Written | Duplicate | WriteFailed.

Section Pump.
  Context {D : Type} `{HD : FrameDB D} `{HC : FrameCodec}.

Definition pump_state : Type := seqWindow * Buffer D.

(** The body of the loop for one received message. *)
Definition pump_step (s : pump_state) (fm : FrameMsg) : pump_state * outcome * list ack_action :=
  let '(written, buf) := s in
  let ack := match FM_Msg fm with Some m => [Ack m] | None => [] end in
  if negb (FM_Seq fm =? 0) && contains written (FM_Seq fm) then
    ((written, RecordDuplicate buf), Duplicate, ack)
  else
    match Write buf (FM_Frame fm) with
    | (buf', Some _) =>
      ((written, RecordWriteError buf'), WriteFailed,
       match FM_Msg fm with Some m => [NakWithDelay m writeErrorNakDelay] | None => [] end)
    | (buf', None) =>
      ((if negb (FM_Seq fm =? 0) then add written (FM_Seq fm) else written, buf'), Written, ack)
    end.

(** What happens to the buffer: a message reaches the pump, or another
    goroutine uses the buffer. *)
Inductive pump_event := EvMsg (fm : FrameMsg) | EvOther (o : buf_op).

(** A log entry per message: the message, its outcome and the actions taken. *)
Record entry := { en_msg : FrameMsg; en_outcome : outcome; en_actions : list ack_action }.

Fixpoint pump_loop (s : pump_state) (evs : list pump_event) : pump_state * list entry :=
  match evs with
  | [] => (s, [])
  | EvMsg fm :: evs' =>
    let '(s1, o, acts) := pump_step s fm in
    let '(s2, log) := pump_loop s1 evs' in
    (s2, {| en_msg := fm; en_outcome := o; en_actions := acts |} :: log)
  | EvOther o :: evs' => pump_loop (fst s, fst (apply_op (snd s) o)) evs'
  end.

(** The pump from its start; [None] only if the window could not be built. *)
Definition Pump (buf : Buffer D) (evs : list pump_event) : option (pump_state * list entry) :=
  match newSeqWindow dedupWindowSeqs with
  | Some w => Some (pump_loop (w, buf) evs)
  | None => None
  end.
End Pump.

(** ** Acknowledgement of a batch *)

Record SentFrame := { SF_Seq : Z; SF_PointID : string }.

Definition bump (m : gmap string Z) (sf : SentFrame) : gmap string Z :=
  <[SF_PointID sf := i64 (default 0 (m !! SF_PointID sf) + 1)]> m.

Definition ApplyAck (batch : list SentFrame) (accepted : Z) : Z * gmap string Z :=
  match last batch with
  | None => (0, ∅)
  | Some sf =>
    let newCursor := SF_Seq sf in
    let lost := i64 (Z.of_nat (length batch) - accepted) in
    if lost <=? 0 then (newCursor, ∅)
    else
      let start := if accepted <? 0 then 0 else accepted in
      (newCursor, fold_left bump (drop (Z.to_nat start) batch) ∅)
  end.

(** ** Facts about the acknowledgement *)

Definition of_point (p : string) (sf : SentFrame) : bool := String.eqb (SF_PointID sf) p.

Lemma count_cons {A} (p : A -> bool) x l : count p (x :: l) = (if p x then 1 else 0) + count p l.
Proof. unfold count. simpl. destruct (p x); simpl; lia. Qed.

Lemma fold_bump l : forall m p,
  (forall q, default 0 (m !! q) + Z.of_nat (length l) < 2 ^ 63) ->
  (forall q, 0 <= default 0 (m !! q)) ->
  default 0 (fold_left bump l m !! p) = default 0 (m !! p) + count (of_point p) l.
Proof.
  induction l as [|sf l IH]; intros m p Hm Hp; cbn [fold_left]; [change (count (of_point p) []) with 0; lia|].
  cbn [length] in Hm. pose proof (Hm (SF_PointID sf)). pose proof (Hp (SF_PointID sf)).
  assert (forall q, default 0 (bump m sf !! q)
          = default 0 (m !! q) + if of_point q sf then 1 else 0) as Hb.
  { intros q. unfold bump, of_point. destruct (String.eqb_spec (SF_PointID sf) q) as [<-|Hne].
    - rewrite lookup_insert_eq. cbn. rewrite i64_small by (unfold in_i64; lia). reflexivity.
    - rewrite lookup_insert_ne by assumption. lia. }
  rewrite IH, Hb, count_cons; [lia | |].
  - intros q. rewrite Hb. specialize (Hm q). destruct (of_point q sf); lia.
  - intros q. rewrite Hb. specialize (Hp q). destruct (of_point q sf); lia.
Qed.

(** acknowledging a batch moves the cursor to its last frame whatever was
    accepted, and the drift of each point is the number of its frames past the
    accepted prefix, a negative count read as none accepted; as long as
    [len(batch) - accepted] does not overflow. *)
Theorem ApplyAck_exact (batch : list SentFrame) (accepted : Z) (sf : SentFrame) (p : string) :
  last batch = Some sf -> Z.of_nat (length batch) < 2 ^ 63 ->
  Z.of_nat (length batch) - 2 ^ 63 < accepted < 2 ^ 63 ->
  fst (ApplyAck batch accepted) = SF_Seq sf /\
  default 0 (snd (ApplyAck batch accepted) !! p)
  = count (of_point p) (drop (Z.to_nat (Z.max 0 accepted)) batch).
Proof.
  intros Hl Hlen Ha. unfold ApplyAck. rewrite Hl, i64_small by (unfold in_i64; lia).
  destruct (Z.leb_spec (Z.of_nat (length batch) - accepted) 0).
  - split; [reflexivity|]. rewrite drop_ge by lia. reflexivity.
  - split; [reflexivity|]. cbn [snd].
    replace (if accepted <? 0 then 0 else accepted) with (Z.max 0 accepted)
      by (destruct (Z.ltb_spec accepted 0); lia).
    rewrite fold_bump.
    + rewrite lookup_empty. apply Z.add_0_l.
    + intros q. rewrite lookup_empty, length_drop. cbn [default from_option]. unfold id. lia.
    + intros q. rewrite lookup_empty. reflexivity.
Qed.

Lemma ApplyAck_exact_witness :
  let batch := [{| SF_Seq := 7; SF_PointID := "a" |}; {| SF_Seq := 9; SF_PointID := "b" |}] in
  fst (ApplyAck batch 1) = 9 /\ default 0 (snd (ApplyAck batch 1) !! "b") = 1.
Proof.
  intros batch.
  destruct (ApplyAck_exact batch 1 {| SF_Seq := 9; SF_PointID := "b" |} "b") as [H1 H2];
    [reflexivity | cbn; lia | cbn; lia |].
  split; [exact H1 | rewrite H2; reflexivity].
Defined.

(** the clamp of a negative count fails at the bottom of the range: for
    [accepted = -2^63] the subtraction wraps, and a non-empty batch of which
    nothing was accepted records no drift at all. *)
Theorem ApplyAck_clamp_overflow (batch : list SentFrame) (sf : SentFrame) :
  last batch = Some sf -> Z.of_nat (length batch) < 2 ^ 63 ->
  ApplyAck batch (- 2 ^ 63) = (SF_Seq sf, ∅).
Proof.
  intros Hl Hlen. unfold ApplyAck. rewrite Hl.
  assert (0 < length batch)%nat by (destruct batch; [discriminate | simpl; lia]).
  assert (i64 (Z.of_nat (length batch) - - 2 ^ 63) = Z.of_nat (length batch) - 2 ^ 63) as ->.
  { unfold i64. replace (Z.of_nat (length batch) - - 2 ^ 63 + 2 ^ 63)
      with (Z.of_nat (length batch) + 1 * 2 ^ 64) by lia.
    rewrite Z_mod_plus_full, Z.mod_small; lia. }
  destruct (Z.leb_spec (Z.of_nat (length batch) - 2 ^ 63) 0); [reflexivity | lia].
Qed.

Lemma ApplyAck_clamp_overflow_witness :
  ApplyAck [{| SF_Seq := 7; SF_PointID := "a" |}] (- 2 ^ 63) = (7, ∅) /\
  snd (ApplyAck [{| SF_Seq := 7; SF_PointID := "a" |}] (-1)) !! "a" = Some 1.
Proof.
  split; [|vm_compute; reflexivity].
  apply (ApplyAck_clamp_overflow [{| SF_Seq := 7; SF_PointID := "a" |}] {| SF_Seq := 7; SF_PointID := "a" |});
    [reflexivity | cbn; lia].
Defined.

(** ** Facts about the pump *)

Definition is_written (en : entry) : bool :=
  match en_outcome en with Written => true | _ => false end.

(** Frames the pump stored, oldest first, and the sequences it recorded, newest
    first. *)
Definition written_frames (log : list entry) : list TelemetryFrame :=
  map (fun en => FM_Frame (en_msg en)) (List.filter is_written log).
Definition written_seqs (log : list entry) : list Z :=
  rev (List.filter (fun q => negb (q =? 0))
         (map (fun en => FM_Seq (en_msg en)) (List.filter is_written log))).

(** Events as they occur: sequences are [uint64], and only the pump writes. *)
Definition event_ok (ev : pump_event) : Prop :=
  match ev with
  | EvMsg fm => in_u64 (FM_Seq fm)
  | EvOther (OpWrite _) => False
  | EvOther _ => True
  end.

(** The acknowledgement each outcome calls for. *)
Definition expected_actions (fm : FrameMsg) (o : outcome) : list ack_action :=
  match FM_Msg fm with
  | None => []
  | Some m => match o with WriteFailed => [NakWithDelay m writeErrorNakDelay] | _ => [Ack m] end
  end.

Lemma written_seqs_cons en log : written_seqs (en :: log) = written_seqs log ++ written_seqs [en].
Proof.
  unfold written_seqs. cbn [List.filter]. destruct (is_written en); cbn [map List.filter rev];
    [|rewrite app_nil_r; reflexivity].
  destruct (FM_Seq (en_msg en) =? 0); cbn [negb rev app]; [rewrite app_nil_r|]; reflexivity.
Qed.

Section PumpFacts.
  Context {D : Type} `{HD : FrameDB D} `{HC : FrameCodec}.
  Context `{!FrameCodecLaws} `{!FrameDBLaws D}.

Definition judged (n : Z) (hist : list Z) (en : entry) : Prop :=
  (en_outcome en = Duplicate <->
   FM_Seq (en_msg en) <> 0 /\ remembered n hist (FM_Seq (en_msg en)) = true) /\
  en_actions en = expected_actions (en_msg en) (en_outcome en).

#[local] Ltac solve_actions :=
  unfold expected_actions; cbn [en_msg en_outcome en_actions];
  match goal with |- context [FM_Msg ?m] => destruct (FM_Msg m) end; reflexivity.

Lemma pump_step_spec b0 w b hist rows fm s o acts :
  represents w hist -> ring b0 b rows -> in_u64 (FM_Seq fm) ->
  pump_step (w, b) fm = (s, o, acts) ->
  let en := {| en_msg := fm; en_outcome := o; en_actions := acts |} in
  judged (sw_n w) hist en /\ sw_n (fst s) = sw_n w /\
  represents (fst s) (written_seqs [en] ++ hist) /\
  exists rs, Forall2 holds rs (written_frames [en]) /\ ring b0 (snd s) (rows ++ rs).
Proof.
  intros Hw Hr Hu. unfold pump_step. rewrite (represents_contains w hist) by assumption.
  destruct (negb (FM_Seq fm =? 0) && remembered (sw_n w) hist (FM_Seq fm)) eqn:E.
  - intros [= <- <- <-]. bools. cbn. split; [|split; [reflexivity|split; [assumption|]]].
    + split; [tauto|]. solve_actions.
    + exists []. rewrite app_nil_r. split; [constructor|].
      apply (ring_quiet _ _ _ _ Hr); try reflexivity. apply Hr.
  - assert (forall o', o' <> Duplicate -> o' = Duplicate <->
      FM_Seq fm <> 0 /\ remembered (sw_n w) hist (FM_Seq fm) = true) as Hno.
    { intros o' Ho. split; [congruence|]. intros [H0 H1]. apply Z.eqb_neq in H0.
      rewrite H0, H1 in E. discriminate. }
    destruct (Write b (FM_Frame fm)) as [b' [e|]] eqn:EW; intros [= <- <- <-]; cbn.
    + split; [split; [apply Hno; discriminate | solve_actions]|].
      split; [reflexivity|]. split; [assumption|].
      exists []. rewrite app_nil_r. split; [constructor|].
      pose proof (ring_write_err _ _ _ _ _ _ Hr EW) as Hr'.
      apply (ring_quiet _ _ _ _ Hr'); try reflexivity. apply Hr'.
    + split; [split; [apply Hno; discriminate | solve_actions]|].
      destruct (ring_write _ _ _ _ _ Hr EW) as (r & Hh & Hr').
      split; [destruct (FM_Seq fm =? 0); cbn; [reflexivity | apply add_n]|].
      split; [|exists [r]; split; [repeat constructor|]; assumption].
      destruct (FM_Seq fm =? 0); cbn; [assumption | apply add_represents; assumption].
Qed.

Lemma pump_loop_spec evs : forall b0 w b hist rows,
  represents w hist -> ring b0 b rows -> Forall event_ok evs ->
  let '((w', b'), log) := pump_loop (w, b) evs in
  (forall pre en post, log = pre ++ en :: post -> judged (sw_n w) (written_seqs pre ++ hist) en) /\
  exists rs, Forall2 holds rs (written_frames log) /\ ring b0 b' (rows ++ rs).
Proof.
  induction evs as [|ev evs IH]; intros b0 w b hist rows Hw Hr Hev; cbn [pump_loop].
  - split; [intros [|]; discriminate|]. exists []. rewrite app_nil_r. split; [constructor | assumption].
  - inversion Hev as [|? ? He Hev']; subst. destruct ev as [fm|o].
    + destruct (pump_step (w, b) fm) as [[[w1 b1] o] acts] eqn:E.
      destruct (pump_step_spec _ _ _ _ _ _ _ _ _ Hw Hr He E) as (Hj & Hn & Hw1 & rs1 & Hh1 & Hr1).
      cbn [fst snd] in *. specialize (IH b0 w1 b1 _ _ Hw1 Hr1 Hev').
      destruct (pump_loop (w1, b1) evs) as [[w2 b2] log]. destruct IH as (IHj & rs2 & Hh2 & Hr2).
      split.
      * intros [|en' pre] en post; cbn [app]; intros [= <- ->]; [exact Hj|].
        rewrite written_seqs_cons, <- app_assoc. rewrite <- Hn. exact (IHj pre en post eq_refl).
      * exists (rs1 ++ rs2). rewrite app_assoc. split; [|assumption].
        unfold written_frames in *. change ({| en_msg := fm; en_outcome := o; en_actions := acts |} :: log)
          with ([{| en_msg := fm; en_outcome := o; en_actions := acts |}] ++ log).
        rewrite List.filter_app, map_app. apply Forall2_app; assumption.
    + cbn [fst snd]. destruct (ring_step b0 b o rows Hr) as (rs & Hh & Hr1).
      assert (snd (apply_op b o) = []) as Hq by (destruct o; [destruct He | reflexivity..]).
      rewrite Hq in Hh. inversion Hh; subst. rewrite app_nil_r in Hr1.
      exact (IH b0 w _ hist rows Hw Hr1 Hev').
Qed.

(** C2: the pump acknowledges a message only when its frame is durable, and
    writes each source sequence once within the window.  Over any messages and
    any buffer use in between, with any statement failing: the table ends up
    with the newest [capacity] of the frames the pump reports as written, in
    order; a message is skipped as a duplicate exactly when its sequence is
    known and was recorded among the last [n >= 2^21] sequences; a message is
    acked when it was written or is such a duplicate, and NAK'd with the fixed
    delay otherwise. *)
Theorem Pump_exact (b : Buffer D) (evs : list pump_event) :
  buf_ok b -> Z.of_nat (length (stored b)) <= capacity b -> Forall event_ok evs ->
  exists w' b' log n rows, Pump b evs = Some ((w', b'), log) /\ dedupWindowSeqs <= n /\
    Forall2 holds rows (written_frames log) /\
    stored b' = lastn (Z.to_nat (capacity b)) (stored b ++ rows) /\
    forall pre en post, log = pre ++ en :: post ->
      (en_outcome en = Duplicate <->
       FM_Seq (en_msg en) <> 0 /\ remembered n (written_seqs pre) (FM_Seq (en_msg en)) = true) /\
      en_actions en = expected_actions (en_msg en) (en_outcome en).
Proof.
  intros Hok Hle Hev. unfold Pump.
  destruct (newSeqWindow_fresh dedupWindowSeqs) as (w & E & Hw & Hn); [vm_compute; split; discriminate|].
  rewrite E. pose proof (pump_loop_spec evs b w b [] [] Hw (ring_start b Hok Hle) Hev) as HP.
  destruct (pump_loop (w, b) evs) as [[w' b'] log]. destruct HP as (Hj & rows & Hh & Hr).
  exists w', b', log, (sw_n w), rows. split; [reflexivity|]. split; [assumption|].
  split; [assumption|]. split; [apply Hr|].
  intros pre en post El. specialize (Hj pre en post El). rewrite app_nil_r in Hj. exact Hj.
Qed.
End PumpFacts.

Module PumpExample.
Import ListDB CountableCodec BufferExample.

Definition msg (p : string) (id seq : Z) : FrameMsg :=
  {| FM_Frame := frame p; FM_Msg := Some id; FM_Seq := seq |}.

(** A write, its redelivery, a write that fails, and the retry. *)
Definition events : list pump_event :=
  [EvMsg (msg "a" 1 7); EvMsg (msg "a" 2 7); EvOther (OpAdvance 1); EvMsg (msg "b" 3 8);
   EvMsg (msg "b" 4 8)].
Definition fault_on_b : list bool :=
  [false; false; false; false; false; false; false; true].

Lemma Pump_exact_witness :
  exists s log, Pump (start fault_on_b) events = Some (s, log) /\
    map en_outcome log = [Written; Duplicate; WriteFailed; Written] /\
    concat (map en_actions log) = [Ack 1; Ack 2; NakWithDelay 3 5000000000; Ack 4] /\
    forall pre en post, log = pre ++ en :: post ->
      en_actions en = expected_actions (en_msg en) (en_outcome en).
Proof.
  destruct (Pump_exact (start fault_on_b) events (start_ok _)) as (w & b & log & n & rows & E & _ & _ & _ & Hj).
  - vm_compute. discriminate.
  - repeat constructor; vm_compute; repeat split; discriminate.
  - exists (w, b), log. split; [exact E|].
    assert (option_map (fun x => map en_outcome (snd x)) (Pump (start fault_on_b) events)
            = Some [Written; Duplicate; WriteFailed; Written]) as E1 by (vm_compute; reflexivity).
    assert (option_map (fun x => concat (map en_actions (snd x))) (Pump (start fault_on_b) events)
            = Some [Ack 1; Ack 2; NakWithDelay 3 5000000000; Ack 4]) as E2 by (vm_compute; reflexivity).
    rewrite E in E1, E2. injection E1 as E1. injection E2 as E2.
    split; [exact E1|]. split; [exact E2|]. intros pre en post El. apply (Hj pre en post El).
Defined.
End PumpExample.
