(* ===== verification/Schema.v ===== *)
(** * Opening the buffer: pragmas and schema migrations

    [Open], [migrations] and [migrate] of
    [src/internal/storeforward/buffer.go].  The DDL statements are SQLite's and
    appear as the [SchemaDB] interface; a multi-statement [Exec] may stop
    half-way.  The theorems show that a database newer than the binary is left
    untouched, that an upgrade interrupted anywhere leaves a schema from which
    the next one completes, and that an opened buffer satisfies the invariant
    of [Buffer]. *)

From Stdlib Require Import ZArith Lia Bool String List.
From stdpp Require Import base list strings gmap.
From S2P Require Import Prelude Json Wire FrameStore Buffer.
#[local] Open Scope string_scope.
#[local] Open Scope list_scope.
#[local] Open Scope Z_scope.

(** [PRAGMA user_version], the columns of [frames] ([None]: no such table), and
    whether the [cursor] table exists. *)
Record schema := { s_version : Z; s_frames : option (list string); s_cursor : bool }.

Definition schemaVersion : Z := 3.
Definition base_columns : list string := ["seq"; "gateway_id"; "point_id"; "value"; "timestamp"].

(** The two [CREATE TABLE IF NOT EXISTS]. *)
Definition create_frames (s : schema) : schema :=
  {| s with s_frames := Some (default base_columns (s_frames s)) |}.
Definition create_cursor (s : schema) : schema := {| s with s_cursor := true |}.

Definition set_columns (s : schema) (cs : list string) : schema := {| s with s_frames := Some cs |}.
Definition set_version (s : schema) (v : Z) : schema := {| s with s_version := v |}.

Definition columns (s : schema) : list string := default [] (s_frames s).
Definition has_column (s : schema) (c : string) : bool := existsb (String.eqb c) (columns s).

(** [works]: from here on no statement fails for a reason outside the schema. *)
Class SchemaDB (D : Type) := {
  schema_of : D -> schema;
  works : D -> Prop;
  sql_open : string -> option D;
  exec_pragma : D -> string -> D * bool;
  q_user_version : D -> D * option Z;
  exec_create : D -> D * bool;
  q_column_count : D -> string -> D * option Z;
  exec_add_column : D -> string -> D * bool;
  exec_set_version : D -> Z -> D * bool
}.

(** ** Operations *)

Inductive migrate_error := MVersion | MNewer | MStep (v : Z) | MStamp (v : Z) | MPanic.

Section Migrate.
  Context {D : Type} `{HS : SchemaDB D}.

(** A step that adds a column unless it is there already. *)
Definition ensure_column (d : D) (c : string) : D * bool :=
  match q_column_count d c with
  | (d, None) => (d, false)
  | (d, Some n) => if 0 <? n then (d, true) else exec_add_column d c
  end.

(** [migrations[v](db)]; [None] is the out-of-range panic. *)
Definition migration (v : Z) (d : D) : option (D * bool) :=
  if v =? 0 then Some (exec_create d)
  else if v =? 1 then Some (ensure_column d "attributes")
  else if v =? 2 then Some (ensure_column d "frame")
  else None.

(** [for v := current; v < schemaVersion; v++], [k] iterations. *)
Fixpoint migrate_from (k : nat) (v : Z) (d : D) : D * option migrate_error :=
  match k with
  | O => (d, None)
  | S k' =>
    match migration v d with
    | None => (d, Some MPanic)
    | Some (d1, false) => (d1, Some (MStep v))
    | Some (d1, true) =>
      match exec_set_version d1 (v + 1) with
      | (d2, false) => (d2, Some (MStamp (v + 1)))
      | (d2, true) => migrate_from k' (v + 1) d2
      end
    end
  end.

Definition migrate (d : D) : D * option migrate_error :=
  match q_user_version d with
  | (d, None) => (d, Some MVersion)
  | (d, Some current) =>
    if schemaVersion <? current then (d, Some MNewer)
    else migrate_from (Z.to_nat (schemaVersion - current)) current d
  end.

Fixpoint exec_pragmas (d : D) (l : list string) : D * bool :=
  match l with
  | [] => (d, true)
  | p :: l' => match exec_pragma d p with (d, false) => (d, false) | (d, true) => exec_pragmas d l' end
  end.

Definition open_pragmas : list string :=
  ["PRAGMA journal_mode=WAL"; "PRAGMA synchronous=NORMAL"; "PRAGMA busy_timeout=5000"].

(** [now] is the wall clock at open. *)
Definition Open (path : string) (cap now : Z) : result buf_error (Buffer D) :=
  if cap <=? 0 then Err ECapacity
  else
    match sql_open path with
    | None => Err EOpen
    | Some d =>
      match exec_pragmas d open_pragmas with
      | (_, false) => Err EPragma
      | (d, true) =>
        match migrate d with
        | (_, Some _) => Err EMigrate
        | (d, None) => Ok (new_buffer d cap now)
        end
      end
    end.
End Migrate.

(** What the statements do, beyond keeping the stored rows.  A column is added
    only to a table that is there and does not have it: SQLite refuses a repeated
    name. *)
Class SchemaDBLaws (D : Type) `{SchemaDB D} `{FrameDB D} : Prop := {
  pragma_keeps : forall d d' p r, exec_pragma d p = (d', r) -> keeps d d' /\ schema_of d' = schema_of d;
  version_ok : forall d d' r, q_user_version d = (d', r) ->
    keeps d d' /\ schema_of d' = schema_of d /\ (forall v, r = Some v -> v = s_version (schema_of d)) /\
    (works d -> works d' /\ is_Some r);
  create_ok : forall d d' r, exec_create d = (d', r) -> keeps d d' /\
    (if r then schema_of d' = create_cursor (create_frames (schema_of d))
     else schema_of d' = schema_of d \/ schema_of d' = create_frames (schema_of d)) /\
    (works d -> works d' /\ r = true);
  column_count_ok : forall d d' c r, q_column_count d c = (d', r) ->
    keeps d d' /\ schema_of d' = schema_of d /\
    (forall n, r = Some n -> (0 <? n) = has_column (schema_of d) c) /\ (works d -> works d' /\ is_Some r);
  add_column_ok : forall d d' c r, exec_add_column d c = (d', r) -> keeps d d' /\
    (if r then exists cs, s_frames (schema_of d) = Some cs /\ has_column (schema_of d) c = false /\
              schema_of d' = set_columns (schema_of d) (cs ++ [c])
     else schema_of d' = schema_of d) /\
    (works d -> works d' /\ (is_Some (s_frames (schema_of d)) -> has_column (schema_of d) c = false -> r = true));
  set_version_ok : forall d d' v r, exec_set_version d v = (d', r) -> keeps d d' /\
    schema_of d' = (if r then set_version (schema_of d) v else schema_of d) /\ (works d -> works d' /\ r = true)
}.

(** ** Interrupted and completed upgrades *)

(** What each version stamp guarantees: the steps up to it were applied. *)
Definition consistent (s : schema) : Prop :=
  0 <= s_version s <= schemaVersion /\
  (1 <= s_version s -> is_Some (s_frames s) /\ s_cursor s = true) /\
  (2 <= s_version s -> has_column s "attributes" = true) /\
  (3 <= s_version s -> has_column s "frame" = true).

Definition complete (s : schema) : Prop :=
  s_version s = schemaVersion /\ s_cursor s = true /\ is_Some (s_frames s) /\
  has_column s "attributes" = true /\ has_column s "frame" = true.

Lemma has_column_app s cs c c' : s_frames s = Some cs ->
  has_column (set_columns s (cs ++ [c])) c' = has_column s c' || String.eqb c' c.
Proof.
  intros E. unfold has_column, columns. rewrite E. cbn. rewrite existsb_app. cbn.
  rewrite orb_false_r. reflexivity.
Qed.

Section MigrateFacts.
  Context {D : Type} `{HD : FrameDB D} `{HS : SchemaDB D} `{!SchemaDBLaws D}.

Lemma keeps_trans (d d1 d2 : D) : keeps d d1 -> keeps d1 d2 -> keeps d d2.
Proof. unfold keeps. intros [] []. split; congruence. Qed.

Lemma ensure_column_spec (d d' : D) c r : ensure_column d c = (d', r) ->
  keeps d d' /\ s_version (schema_of d') = s_version (schema_of d) /\
  s_cursor (schema_of d') = s_cursor (schema_of d) /\
  (is_Some (s_frames (schema_of d)) -> is_Some (s_frames (schema_of d'))) /\
  (forall c', has_column (schema_of d) c' = true -> has_column (schema_of d') c' = true) /\
  (r = true -> has_column (schema_of d') c = true) /\
  (works d -> works d' /\ (is_Some (s_frames (schema_of d)) -> r = true)).
Proof.
  unfold ensure_column. destruct (q_column_count d c) as [d1 [n|]] eqn:E1;
    apply column_count_ok in E1 as (K1 & S1 & N1 & W1).
  - specialize (N1 n eq_refl). destruct (0 <? n).
    + intros [= <- <-]. rewrite S1. split; [exact K1|]. split; [reflexivity|]. split; [reflexivity|]. split; [auto|]. split; [auto|].
      split; [intros _; symmetry; exact N1|]. intros Hw. split; [apply W1, Hw|reflexivity].
    + intros E2. apply add_column_ok in E2 as (K2 & S2 & W2).
      split; [eapply keeps_trans; eassumption|]. rewrite S1 in W2. destruct r.
      * destruct S2 as (cs & Hcs & _ & S2). rewrite S2. rewrite S1 in *.
        cbn [set_columns s_version s_cursor s_frames].
        split; [reflexivity|]. split; [reflexivity|]. split; [intros _; eexists; reflexivity|].
        split; [intros c' H'; rewrite (has_column_app _ _ _ _ Hcs), H'; reflexivity|].
        split; [intros _; rewrite (has_column_app _ _ _ _ Hcs), String.eqb_refl; apply orb_true_r|].
        intros Hw. destruct (W1 Hw) as [Hw1 _]. split; [apply W2, Hw1|reflexivity].
      * rewrite S2, S1. split; [reflexivity|]. split; [reflexivity|]. split; [auto|]. split; [auto|]. split; [discriminate|].
        intros Hw. destruct (W1 Hw) as [Hw1 _]. destruct (W2 Hw1) as [Hw2 Hr]. split; [exact Hw2|]. intros Hf. apply Hr; [exact Hf|]. symmetry. exact N1.
  - intros [= <- <-]. rewrite S1. split; [exact K1|]. split; [reflexivity|]. split; [reflexivity|]. split; [auto|]. split; [auto|]. split; [discriminate|].
    intros Hw. destruct (W1 Hw) as [_ [x Hx]]. discriminate Hx.
Qed.

(** One migration step keeps the schema consistent with its stamp, and when it
    succeeds the next stamp is justified. *)
Lemma migration_spec (d d' : D) r :
  consistent (schema_of d) -> s_version (schema_of d) < schemaVersion ->
  migration (s_version (schema_of d)) d = Some (d', r) ->
  keeps d d' /\ consistent (schema_of d') /\ s_version (schema_of d') = s_version (schema_of d) /\
  (r = true -> consistent (set_version (schema_of d') (s_version (schema_of d) + 1))).
Proof.
  unfold schemaVersion. intros (Hv & H1 & H2 & H3) Hlt. unfold migration.
  destruct (Z.eqb_spec (s_version (schema_of d)) 0) as [E0|].
  - intros [= E]. apply create_ok in E as (K & S & _). split; [assumption|].
    unfold consistent, schemaVersion, has_column, columns. destruct r; [rewrite S|destruct S as [S|S]; rewrite S];
      cbn -[has_column]; repeat split; intros; try lia; eauto; try discriminate.
  - destruct (Z.eqb_spec (s_version (schema_of d)) 1) as [E1|];
      [|destruct (Z.eqb_spec (s_version (schema_of d)) 2) as [E2|]; [|discriminate]];
      intros [= E]; apply ensure_column_spec in E as (K & Sv & Sc & Sf & Sh & Sr & _);
      (split; [assumption|]); unfold consistent, schemaVersion; rewrite Sv, Sc;
      cbn [set_version s_version s_cursor s_frames];
      repeat split; intros; try lia; try (apply Sf, H1; lia); try (apply H1; lia);
      try (apply Sh, H2; lia); try (apply Sr; assumption);
      try (rewrite Sc; apply H1; lia).
Qed.

(** Nor does a step fail by itself. *)
Lemma migration_works (d d' : D) r : consistent (schema_of d) -> works d ->
  migration (s_version (schema_of d)) d = Some (d', r) -> works d' /\ r = true.
Proof.
  intros (Hv & H1 & _) Hw. unfold migration. destruct (Z.eqb_spec (s_version (schema_of d)) 0) as [E0|].
  - intros [= E]. apply create_ok in E as (_ & _ & W). exact (W Hw).
  - destruct (Z.eqb_spec (s_version (schema_of d)) 1) as [E1|];
      [|destruct (Z.eqb_spec (s_version (schema_of d)) 2) as [E2|]; [|discriminate]];
      intros [= E]; apply ensure_column_spec in E as (_ & _ & _ & _ & _ & _ & W); destruct (W Hw) as [Hw' Hr];
      (split; [exact Hw'|]); apply Hr, H1; lia.
Qed.

Lemma migrate_from_spec k : forall (d d' : D) r,
  consistent (schema_of d) -> Z.of_nat k = schemaVersion - s_version (schema_of d) ->
  migrate_from k (s_version (schema_of d)) d = (d', r) ->
  keeps d d' /\ consistent (schema_of d') /\
  s_version (schema_of d) <= s_version (schema_of d') /\
  (r = None -> s_version (schema_of d') = schemaVersion) /\ r <> Some MPanic /\ (works d -> r = None).
Proof.
  induction k as [|k IH]; intros d d' r Hc Hk; cbn [migrate_from].
  - intros [= <- <-]. split; [split; reflexivity|]. repeat split; try apply Hc; try lia; discriminate.
  - destruct (migration (s_version (schema_of d)) d) as [[d1 ok]|] eqn:E1.
    2:{ exfalso. revert E1. unfold migration, schemaVersion in *. destruct Hc as [Hv _].
        destruct (Z.eqb_spec (s_version (schema_of d)) 0), (Z.eqb_spec (s_version (schema_of d)) 1),
          (Z.eqb_spec (s_version (schema_of d)) 2); try discriminate. unfold schemaVersion in Hv. lia. }
    destruct (migration_spec _ _ _ Hc ltac:(lia) E1) as (K1 & C1 & V1 & N1). pose proof (fun Hw => migration_works _ _ _ Hc Hw E1) as W1.
    destruct ok.
    2:{ intros [= <- <-]. split; [exact K1|]. split; [exact C1|]. split; [lia|]. split; [discriminate|]. split; [discriminate|].
        intros [_ Hf]%W1. discriminate Hf. }
    destruct (exec_set_version d1 (s_version (schema_of d) + 1)) as [d2 []] eqn:E2;
      apply set_version_ok in E2 as (K2 & S2 & W2).
    + specialize (N1 eq_refl). rewrite <- S2 in N1.
      assert (s_version (schema_of d2) = s_version (schema_of d) + 1) as V2 by (rewrite S2; reflexivity).
      rewrite <- V2. intros E3. apply IH in E3 as (K3 & C3 & V3 & R3 & P3 & W3); [|assumption|lia].
      split; [eapply keeps_trans; [exact K1 | eapply keeps_trans; eassumption]|].
      split; [assumption|]. split; [lia|]. split; [assumption|]. split; [assumption|]. intros [Hw1 _]%W1. apply W3, W2, Hw1.
    + intros [= <- <-]. split; [eapply keeps_trans; eassumption|]. rewrite S2. split; [exact C1|]. split; [lia|].
      split; [discriminate|]. split; [discriminate|]. intros [Hw1 _]%W1. destruct (W2 Hw1) as [_ Hf]. discriminate Hf.
Qed.

Lemma migrate_from_keeps k : forall v (d d' : D) r, migrate_from k v d = (d', r) -> keeps d d'.
Proof.
  assert (forall v d d' r, migration v d = Some (d', r) -> keeps d d') as Hm.
  { intros v d d' r. unfold migration. destruct (v =? 0); [|destruct (v =? 1); [|destruct (v =? 2)]];
      [| | |discriminate]; intros [= E]; [apply create_ok in E | apply ensure_column_spec in E..]; apply E. }
  induction k as [|k IH]; intros v d d' r; cbn [migrate_from]; [intros [= <- _]; split; reflexivity|].
  destruct (migration v d) as [[d1 []]|] eqn:E1;
    [apply Hm in E1 | apply Hm in E1; intros [= <- _]; assumption | intros [= <- _]; split; reflexivity].
  destruct (exec_set_version d1 (v + 1)) as [d2 []] eqn:E2; apply set_version_ok in E2 as (K2 & _ & _);
    [intros E3; apply IH in E3 | intros [= <- _]]; eauto using keeps_trans.
Qed.

Lemma complete_of_consistent s : consistent s -> s_version s = schemaVersion -> complete s.
Proof.
  unfold schemaVersion. intros (Hv & H1 & H2 & H3) E. unfold complete.
  repeat split; [assumption | apply H1; lia | apply H1; lia | apply H2; lia | apply H3; lia].
Qed.

Lemma migrate_spec (d d' : D) (r : option migrate_error) :
  migrate d = (d', r) ->
  keeps d d' /\
  (schemaVersion < s_version (schema_of d) ->
     schema_of d' = schema_of d /\ (r = Some MNewer \/ r = Some MVersion)) /\
  (consistent (schema_of d) ->
     consistent (schema_of d') /\ s_version (schema_of d) <= s_version (schema_of d') /\
     (r = None -> complete (schema_of d')) /\ r <> Some MPanic /\ (works d -> r = None)).
Proof.
  unfold migrate. destruct (q_user_version d) as [d1 [v|]] eqn:E1;
    apply version_ok in E1 as (K1 & S1 & V1 & W1).
  - rewrite (V1 v eq_refl). destruct (Z.ltb_spec schemaVersion (s_version (schema_of d))) as [Hn|Hn].
    + intros [= <- <-]. split; [assumption|]. split; [auto|]. intros [Hc _]. lia.
    + rewrite <- S1. intros E2. split; [|split; [rewrite S1; lia|]].
      * eapply keeps_trans; [exact K1 | eapply migrate_from_keeps, E2].
      * intros Hc. apply migrate_from_spec in E2 as (K2 & C2 & V2 & R2 & P2 & W2);
          [|assumption|rewrite S1; lia].
        split; [assumption|]. split; [assumption|]. split; [|split; [assumption|intros [Hw _]%W1; exact (W2 Hw)]].
        intros E. apply complete_of_consistent; auto.
  - intros [= <- <-]. split; [assumption|]. rewrite S1. split; [auto|].
    intros Hc. split; [exact Hc|]. split; [lia|]. split; [discriminate|]. split; [discriminate|]. intros [_ [v Hv]]%W1. discriminate Hv.
Qed.

Lemma pragmas_keep l : forall (d d' : D) r, exec_pragmas d l = (d', r) ->
  keeps d d' /\ schema_of d' = schema_of d.
Proof.
  induction l as [|p l IH]; intros d d' r; cbn [exec_pragmas].
  - intros [= <- _]. split; [split|]; reflexivity.
  - destruct (exec_pragma d p) as [d1 []] eqn:E; apply pragma_keeps in E as [K S].
    + intros E'. apply IH in E' as [K' S']. split; [eapply keeps_trans; eassumption | congruence].
    + intros [= <- _]. auto.
Qed.

(** C35: migrating keeps every stored row and, wherever it stops, leaves a
    schema whose version stamp is justified, never lower than before; if it
    reports success the schema is complete.  And when SQLite works it does succeed,
    from every justified schema, so an upgrade interrupted at any statement, between
    a new column and its stamp included, is finished by the next one: no step is
    refused for what an earlier run has already done.  A database stamped newer is
    refused with its schema untouched. *)
Theorem migrate_converges (d d' : D) (r : option migrate_error) :
  migrate d = (d', r) ->
  keeps d d' /\
  (schemaVersion < s_version (schema_of d) ->
     schema_of d' = schema_of d /\ (r = Some MNewer \/ r = Some MVersion)) /\
  (consistent (schema_of d) ->
     consistent (schema_of d') /\ s_version (schema_of d) <= s_version (schema_of d') /\
     (r = None -> complete (schema_of d')) /\ r <> Some MPanic /\ (works d -> r = None)).
Proof. apply migrate_spec. Qed.

(** [Open] refuses a non-positive capacity; otherwise an opened buffer has
    the given capacity, zero counters, a complete schema, the rows that were in
    the file, and satisfies the buffer invariant. *)
Theorem Open_ok (path : string) (cap now : Z) :
  (forall d, sql_open path = Some d ->
     view d = durable d /\ image_ok (durable d) /\ consistent (schema_of d)) ->
  cap < 2 ^ 63 ->
  match Open path cap now with
  | Ok b => 0 < cap /\ b = new_buffer (db b) cap now /\ buf_ok b /\ complete (schema_of (db b)) /\
            exists d, sql_open path = Some d /\ stored b = i_rows (durable d)
  | Err e => cap <= 0 <-> e = ECapacity
  end.
Proof.
  intros Hfile Hcap. unfold Open. destruct (Z.leb_spec cap 0) as [Hle|Hpos]; [tauto|].
  destruct (sql_open path) as [d|]; [|split; [lia | discriminate]].
  destruct (Hfile d eq_refl) as (Hi & Him & Hc).
  destruct (exec_pragmas d open_pragmas) as [d1 []] eqn:E1; [|split; [lia | discriminate]].
  apply pragmas_keep in E1 as [K1 S1].
  destruct (migrate d1) as [d2 [e|]] eqn:E2; [split; [lia | discriminate]|].
  assert (keeps d d2 /\ complete (schema_of d2)) as [[Kv Kd] Hcomp].
  { apply migrate_spec in E2 as (K2 & _ & C2). rewrite S1 in C2.
    split; [eauto using keeps_trans | apply C2; auto]. }
  cbn [db new_buffer]. split; [lia|]. split; [reflexivity|].
  split; [|split; [exact Hcomp|]].
  - split; [unfold idle; cbn; congruence|]. cbn. split; [congruence | lia].
  - exists d. split; [reflexivity|]. unfold stored. cbn. congruence.
Qed.
End MigrateFacts.

(** ** Witnesses: the in-memory store with a schema beside it *)

Module SchemaExample.
Import ListDB.

(** [sf] says for each coming DDL statement whether it fails. *)
Record sdb := { sd_schema : schema; sf : list bool; sd_db : listdb }.

Definition in_db (x : sdb) (p : listdb * bool) : sdb * bool :=
  ({| sd_schema := sd_schema x; sf := sf x; sd_db := fst p |}, snd p).
Definition in_q {A} (x : sdb) (p : listdb * option A) : sdb * option A :=
  ({| sd_schema := sd_schema x; sf := sf x; sd_db := fst p |}, snd p).

#[export] Instance sdb_frame_db : FrameDB sdb := {
  view x := view (sd_db x);
  durable x := durable (sd_db x);
  tx_begin x := in_db x (tx_begin (sd_db x));
  tx_insert x v := in_db x (tx_insert (sd_db x) v);
  tx_split x := in_q x (tx_split (sd_db x));
  tx_evict x c := in_db x (tx_evict (sd_db x) c);
  tx_commit x := in_db x (tx_commit (sd_db x));
  tx_rollback x := {| sd_schema := sd_schema x; sf := sf x; sd_db := tx_rollback (sd_db x) |};
  q_select_after x a n := in_q x (q_select_after (sd_db x) a n);
  q_put_cursor x s := in_db x (q_put_cursor (sd_db x) s);
  q_get_cursor x := in_q x (q_get_cursor (sd_db x));
  q_depth x := in_q x (q_depth (sd_db x))
}.

(** Runs a DDL statement: pops a fault, else applies [g]. *)
Definition ddl (x : sdb) (g : schema -> schema) : sdb * bool :=
  match sf x with
  | true :: fs => ({| sd_schema := sd_schema x; sf := fs; sd_db := sd_db x |}, false)
  | _ :: fs => ({| sd_schema := g (sd_schema x); sf := fs; sd_db := sd_db x |}, true)
  | [] => ({| sd_schema := g (sd_schema x); sf := []; sd_db := sd_db x |}, true)
  end.

Definition file (v : Z) (cols : option (list string)) (cur : bool) (fs : list bool) : sdb :=
  {| sd_schema := {| s_version := v; s_frames := cols; s_cursor := cur |}; sf := fs;
     sd_db := fresh [] |}.

#[export] Instance sdb_schema_db : SchemaDB sdb := {
  schema_of := sd_schema;
  works x := Forall (eq false) (sf x);
  sql_open p := if String.eqb p "old.db" then Some (file 1 (Some base_columns) true []) else None;
  exec_pragma x _ := (x, true);
  q_user_version x := (x, Some (s_version (sd_schema x)));
  exec_create x := ddl x (fun s => create_cursor (create_frames s));
  q_column_count x c := (x, Some (if has_column (sd_schema x) c then 1 else 0));
  exec_add_column x c :=
    match s_frames (sd_schema x) with
    | Some cs => if has_column (sd_schema x) c then (x, false) else ddl x (fun s => set_columns s (cs ++ [c]))
    | None => (x, false)
    end;
  exec_set_version x v := ddl x (fun s => set_version s v)
}.

Lemma ddl_spec x g x' r : ddl x g = (x', r) ->
  keeps x x' /\ sd_schema x' = (if r then g (sd_schema x) else sd_schema x) /\ (works x -> works x' /\ r = true).
Proof.
  unfold ddl. cbn. destruct (sf x) as [|[] fs]; intros [= <- <-]; (split; [split; reflexivity|]); (split; [reflexivity|]); cbn;
    try rewrite Forall_cons; intros Hw; [split; [constructor|reflexivity]|destruct Hw; discriminate|split; [apply Hw|reflexivity]].
Qed.

#[export] Instance sdb_schema_db_laws : SchemaDBLaws sdb.
Proof.
  split; cbn.
  - intros d d' _ r [= <- <-]. split; [split|]; reflexivity.
  - intros d d' r [= <- <-]. split; [split; reflexivity|]. split; [reflexivity|]. split; [congruence|]. split; [assumption|eauto].
  - intros d d' r E. apply ddl_spec in E as (K & S & W). split; [assumption|]. split; [destruct r; auto|exact W].
  - intros d d' c r [= <- <-]. split; [split; reflexivity|]. split; [reflexivity|].
    split; [intros n [= <-]; destruct (has_column _ c); reflexivity|split; [assumption|eauto]].
  - intros d d' c r. destruct (s_frames (sd_schema d)) as [cs|] eqn:E; [destruct (has_column (sd_schema d) c) eqn:Eh|].
    + intros [= <- <-]. split; [split; reflexivity|]. split; [reflexivity|]. split; [assumption|discriminate].
    + intros E'. apply ddl_spec in E' as (K & S & W). split; [assumption|]. split; [destruct r; eauto|]. intros [Hw Hr]%W. auto.
    + intros [= <- <-]. split; [split; reflexivity|]. split; [reflexivity|]. split; [assumption|]. intros [x Hx]. discriminate.
  - intros d d' v r E. apply ddl_spec in E. assumption.
Qed.

Lemma file_v1_consistent fs : consistent (schema_of (file 1 (Some base_columns) true fs)).
Proof.
  unfold consistent, schemaVersion. cbn. split; [lia|]. split; [eauto|]. split; lia.
Qed.

(** A version-1 file whose upgrade stops after adding the first column, before
    its stamp; running again completes it. *)
Definition interrupted : sdb := file 1 (Some base_columns) true [false; true].

Lemma migrate_converges_witness :
  snd (migrate interrupted) = Some (MStamp 2) /\
  snd (migrate (fst (migrate interrupted))) = None /\
  complete (schema_of (fst (migrate (fst (migrate interrupted))))).
Proof.
  split; [vm_compute; reflexivity|]. split; [vm_compute; reflexivity|].
  destruct (migrate_converges interrupted _ _ (surjective_pairing (migrate interrupted)))
    as (_ & _ & H1).
  destruct (migrate_converges (fst (migrate interrupted)) _ _ (surjective_pairing _)) as (_ & _ & H2).
  assert (consistent (schema_of interrupted)) as Hc by (apply file_v1_consistent).
  destruct (H1 Hc) as (Hc1 & _). destruct (H2 Hc1) as (_ & _ & H3 & _ & H4).
  apply H3, H4. vm_compute. constructor.
Defined.

Lemma Open_ok_witness :
  exists b, Open "old.db" 10 0 = Ok b /\ complete (schema_of (db b)) /\ buf_ok b /\
    match Open "old.db" 0 0 with Err e => e = ECapacity | Ok _ => False end.
Proof.
  assert (forall p d, sql_open p = Some d ->
     view d = durable d /\ image_ok (durable d) /\ consistent (schema_of d)) as Hfile.
  { intros p d. cbn. destruct (String.eqb p "old.db"); [intros [= <-]|discriminate].
    split; [reflexivity|]. split; [repeat split; try constructor; cbn; lia|].
    apply file_v1_consistent. }
  pose proof (Open_ok "old.db" 10 0 (Hfile _) ltac:(lia)) as H1.
  pose proof (Open_ok "old.db" 0 0 (Hfile _) ltac:(lia)) as H2.
  assert (is_ok (Open "old.db" 10 0) = true) as E1 by (vm_compute; reflexivity).
  destruct (Open "old.db" 10 0) as [b|e]; [|discriminate].
  exists b. destruct H1 as (_ & _ & Hb & Hs & _).
  split; [reflexivity|]. split; [exact Hs|]. split; [exact Hb|].
  assert (is_ok (Open "old.db" 0 0) = false) as E2 by (vm_compute; reflexivity).
  destruct (Open "old.db" 0 0) as [b'|e]; [discriminate|]. apply H2. lia.
Defined.
End SchemaExample.
