(* ===== verification/Uplink.v ===== *)
(** * The telemetry uplink

    [Forwarder] of [src/internal/uplink/forwarder.go] reads frames past the
    cursor, sends them one by one and checkpoints every [CheckpointSize] frames
    or [CheckpointAge]; [Ingress] of [src/internal/uplink/ingress.go] reconnects
    around it and flushes on shutdown; [Backoff] of
    [src/internal/retry/backoff.go] spaces the reconnects.  The sink is an
    interface; [grpcSink] is its gRPC adapter over the third-party client. *)

From Stdlib Require Import ZArith Lia Bool String List Sorting.Sorted SpecFloat.
From stdpp Require Import base list strings gmap.
From S2P Require Import Prelude Float Wire FrameStore Buffer Pump.
#[local] Open Scope string_scope.
#[local] Open Scope list_scope.
#[local] Open Scope Z_scope.

(** ** The sink *)

(** [sink_now] is the wall clock as the sink's environment shows it. *)
Class FrameSink (S : Type) := {
  sink_Send : S -> TelemetryFrame -> S * bool;
  sink_Checkpoint : S -> S * option Z;
  sink_now : S -> Z
}.

(** The generated gRPC client: opening the stream, sending on it, and closing
    it for the acknowledgement. *)
Class IngressClient (K : Type) := {
  StreamTelemetry : K -> K * bool;
  stream_Send : K -> TelemetryFrame -> K * bool;
  CloseAndRecv : K -> K * option Z;
  client_now : K -> Z
}.

(** The lazily opened stream: [g_stream] is whether one is open. *)
Record grpcSink (K : Type) := { g_client : K; g_stream : bool }.
Arguments g_client {K}. Arguments g_stream {K}.

Definition grpc_Send {K} `{IngressClient K} (g : grpcSink K) (f : TelemetryFrame) : grpcSink K * bool :=
  let '(k, opened) := if g_stream g then (g_client g, true) else StreamTelemetry (g_client g) in
  if opened then
    let '(k, ok) := stream_Send k f in ({| g_client := k; g_stream := true |}, ok)
  else ({| g_client := k; g_stream := false |}, false).

Definition grpc_Checkpoint {K} `{IngressClient K} (g : grpcSink K) : grpcSink K * option Z :=
  if g_stream g then
    let '(k, ack) := CloseAndRecv (g_client g) in ({| g_client := k; g_stream := false |}, ack)
  else (g, Some 0).

#[export] Instance grpc_sink {K} `{IngressClient K} : FrameSink (grpcSink K) := {
  sink_Send := grpc_Send;
  sink_Checkpoint := grpc_Checkpoint;
  sink_now g := client_now (g_client g)
}.

(** ** The forwarder *)

Record Config := { CheckpointSize : Z; CheckpointAge : Z }.
Definition DefaultConfig : Config := {| CheckpointSize := 1000; CheckpointAge := 5 * 1000000000 |}.

(** Non-positive settings fall back to the defaults. *)
Definition forwarder_config (cfg : Config) : Config :=
  {| CheckpointSize := if CheckpointSize cfg <=? 0 then CheckpointSize DefaultConfig else CheckpointSize cfg;
     CheckpointAge := if CheckpointAge cfg <=? 0 then CheckpointAge DefaultConfig else CheckpointAge cfg |}.

Inductive forward_error := FSend | FCheckpoint | FAdvance.

(** The buffer and sink a forwarder works on, its session, and the
    [uplink connected] gauge.  [fs_sent] is the trace of frames the sink took. *)
Record fstate (D S : Type) := {
  fs_buf : Buffer D;
  fs_sink : S;
  fs_cursor : Z;
  fs_batch : list SentFrame;
  fs_connected : bool;
  fs_sent : list StoredFrame
}.
Arguments fs_buf {D S}. Arguments fs_sink {D S}. Arguments fs_cursor {D S}.
Arguments fs_batch {D S}. Arguments fs_connected {D S}. Arguments fs_sent {D S}.

Section Forwarder.
  Context {D S : Type} `{HD : FrameDB D} `{HC : FrameCodec} `{HS : FrameSink S}.
  Context (cfg : Config).

Definition newSession (st : fstate D S) : fstate D S :=
  let '(b, c) := Cursor (fs_buf st) in
  {| st with fs_buf := b; fs_cursor := c; fs_batch := [] |}.

(** [for pointID, delta := range drifts]: the calls commute, so one order. *)
Definition record_drifts (b : Buffer D) (m : gmap string Z) : Buffer D :=
  fold_left (fun b kv => RecordDrift b (fst kv) (snd kv)) (map_to_list m) b.

Definition checkpoint (st : fstate D S) : fstate D S * option forward_error :=
  match fs_batch st with
  | [] => (st, None)
  | _ =>
    let sent := Z.of_nat (length (fs_batch st)) in
    match sink_Checkpoint (fs_sink st) with
    | (k, None) =>
      ({| st with fs_sink := k; fs_buf := RecordSendError (fs_buf st); fs_connected := false |},
       Some FCheckpoint)
    | (k, Some accepted) =>
      let b1 := RecordCheckpoint (RecordAccepted (RecordSent (fs_buf st) sent) accepted) (sink_now k) in
      let '(newCursor, drifts) := ApplyAck (fs_batch st) accepted in
      let b2 := record_drifts b1 drifts in
      match Advance b2 newCursor with
      | (b3, Some _) =>
        ({| st with fs_sink := k; fs_buf := b3; fs_connected := true; fs_cursor := newCursor |},
         Some FAdvance)
      | (b3, None) =>
        ({| st with fs_sink := k; fs_buf := b3; fs_connected := true; fs_cursor := newCursor;
                    fs_batch := [] |}, None)
      end
    end
  end.

(** One frame of the inner loop of [drain]. *)
Definition send_one (st : fstate D S) (sf : StoredFrame) : fstate D S * option forward_error :=
  match sink_Send (fs_sink st) (Frame sf) with
  | (k, false) =>
    ({| st with fs_sink := k; fs_buf := RecordSendError (fs_buf st); fs_connected := false |},
     Some FSend)
  | (k, true) =>
    let st1 := {| st with fs_sink := k;
                          fs_batch := fs_batch st ++ [{| SF_Seq := Seq sf; SF_PointID := PointId (Frame sf) |}];
                          fs_cursor := Seq sf; fs_sent := fs_sent st ++ [sf] |} in
    if CheckpointSize cfg <=? Z.of_nat (length (fs_batch st1)) then checkpoint st1 else (st1, None)
  end.

Fixpoint send_all (st : fstate D S) (frames : list StoredFrame) : fstate D S * option forward_error :=
  match frames with
  | [] => (st, None)
  | sf :: rest =>
    match send_one st sf with
    | (st1, Some e) => (st1, Some e)
    | (st1, None) => send_all st1 rest
    end
  end.

(** The outer loop; [None] is a loop still running when the fuel ends. *)
Fixpoint drain (fuel : nat) (st : fstate D S) : option (fstate D S * option forward_error) :=
  match fuel with
  | O => None
  | Datatypes.S fuel' =>
    match ReadBatch (fs_buf st) (fs_cursor st) 32 with
    | (b, Err _) => Some ({| st with fs_buf := b |}, None)
    | (b, Ok frames) =>
      let st1 := {| st with fs_buf := b |} in
      match frames with
      | [] => Some (st1, None)
      | _ =>
        match send_all st1 frames with
        | (st2, Some e) => Some (st2, Some e)
        | (st2, None) => drain fuel' st2
        end
      end
    end
  end.

Definition DrainOnce (fuel : nat) (st : fstate D S) : option (fstate D S * option forward_error) :=
  match drain fuel (newSession st) with
  | None => None
  | Some (st1, Some e) => Some (st1, Some e)
  | Some (st1, None) => Some (checkpoint st1)
  end.

(** What [Run]'s select can receive: cancellation, the checkpoint ticker, the
    buffer's write signal, the backstop ticker; and, in between, another
    goroutine's use of the buffer. *)
Inductive run_event := EvDone | EvTick | EvNotify | EvBackstop | EvBuf (o : buf_op).

(** [RDone]: returned nil on cancellation.  [RErr]: returned an error.
    [RWaiting]: still in the select when the events end. *)
Inductive run_result := RDone | RErr (e : forward_error) | RWaiting.

(** Enough iterations of [drain] for the rows in the table. *)
Definition drain_fuel (st : fstate D S) : nat := Datatypes.S (length (stored (fs_buf st))).

Definition run_drain (st : fstate D S) : fstate D S * option forward_error :=
  match drain (drain_fuel st) st with Some r => r | None => (st, None) end.

Definition set_notify (b : Buffer D) (v : bool) : Buffer D := {| b with notify := v |}.

(** One iteration of [Run]'s select; receiving from [notify] needs a pending
    signal and takes it. *)
Definition run_select (st : fstate D S) (ev : run_event) : fstate D S * option run_result :=
  let lift (r : fstate D S * option forward_error) :=
    (fst r, match snd r with Some e => Some (RErr e) | None => None end) in
  match ev with
  | EvDone => (st, Some RDone)
  | EvTick => lift (checkpoint st)
  | EvNotify =>
    if notify (fs_buf st) then lift (run_drain {| st with fs_buf := set_notify (fs_buf st) false |})
    else (st, None)
  | EvBackstop => lift (run_drain st)
  | EvBuf o => ({| st with fs_buf := fst (apply_op (fs_buf st) o) |}, None)
  end.

Fixpoint run_loop (st : fstate D S) (evs : list run_event) : fstate D S * run_result * list run_event :=
  match evs with
  | [] => (st, RWaiting, [])
  | ev :: evs' =>
    match run_select st ev with
    | (st', Some r) => (st', r, evs')
    | (st', None) => run_loop st' evs'
    end
  end.

(** [Forwarder.Run]. *)
Definition Run (st : fstate D S) (evs : list run_event) : fstate D S * run_result * list run_event :=
  run_loop (newSession st) evs.
End Forwarder.

(** ** Backoff *)

(** Durations are nanoseconds in [int64]. *)
Record Backoff := { bo_Min : Z; bo_Max : Z; bo_Factor : float64; bo_cur : Z }.

Definition f64_fifth : float64 := S754_finite false 7205759403792794 (-55).
Definition f64_two : float64 := f64_of_Z 2.
Definition f64_one : float64 := f64_of_Z 1.

(** [r] is what [rand.Float64] returns. *)
Definition Next (b : Backoff) (r : float64) : Backoff * Z :=
  let cur := if bo_cur b =? 0 then bo_Min b else bo_cur b in
  let jitter := f64_trunc (fmul (fmul (f64_of_Z cur) f64_fifth) (fsub (fmul r f64_two) f64_one)) in
  let d := i64 (cur + jitter) in
  let d := if d <? bo_Min b then bo_Min b else d in
  let d := if bo_Max b <? d then bo_Max b else d in
  let cur' := f64_trunc (fmul (f64_of_Z cur) (bo_Factor b)) in
  let cur' := if bo_Max b <? cur' then bo_Max b else cur' in
  ({| b with bo_cur := cur' |}, d).

Definition Reset (b : Backoff) : Backoff := {| b with bo_cur := 0 |}.

(** ** Ingress: reconnecting *)

Definition second : Z := 1000000000.
Definition uplink_backoff : Backoff :=
  {| bo_Min := second; bo_Max := 60 * second; bo_Factor := f64_two; bo_cur := 0 |}.
Definition drainGrace : Z := 4 * second.

Section Ingress.
  Context {D S : Type} `{HD : FrameDB D} `{HC : FrameCodec} `{HS : FrameSink S}.
  Context (cfg : Config) (fresh_sink : S -> S).

Definition with_sink (st : fstate D S) (k : S) : fstate D S := {| st with fs_sink := k |}.

(** A session: what its select receives, whether the context is still alive when
    [Run] returns, and whether it is after the wait that follows a failure. *)
Record session := { se_events : list run_event; se_alive : bool; se_resumed : bool }.

(** The reconnect loop: a fresh forwarder and sink per session.  [rs] are the
    random numbers drawn.  Returns the delays waited and whether the loop has
    ended (the context is done).  The recursion is on the sessions. *)
Fixpoint ingress_loop (st : fstate D S) (bo : Backoff) (sessions : list session) (rs : list float64)
  : fstate D S * Backoff * list Z * bool :=
  match sessions with
  | [] => (st, bo, [], false)
  | se :: sessions' =>
    let '(st1, r, _) := Run (forwarder_config cfg) (with_sink st (fresh_sink (fs_sink st))) (se_events se) in
    match r with
    | RWaiting => (st1, bo, [], false)
    | RDone => (st1, Reset bo, [], true)
    | RErr _ =>
      if se_alive se then
        let '(bo1, d) := Next bo (hd f64_zero rs) in
        if se_resumed se then
          let '(st2, bo2, ds, fin) := ingress_loop st1 bo1 sessions' (tl rs) in
          (st2, bo2, d :: ds, fin)
        else (st1, bo1, [d], true)
      else (st1, Reset bo, [], true)
    end
  end.

(** [Ingress.Run]: the loop, and after cancellation the final flush on a fresh
    sink. *)
Definition ingress_run (st : fstate D S) (sessions : list session) (rs : list float64)
  : fstate D S * list Z :=
  let '(st1, _, ds, fin) := ingress_loop st uplink_backoff sessions rs in
  if fin then
    let st2 := with_sink st1 (fresh_sink (fs_sink st1)) in
    match DrainOnce (forwarder_config cfg) (drain_fuel st2) st2 with
    | Some (st3, _) => (st3, ds)
    | None => (st2, ds)
    end
  else (st1, ds).
End Ingress.

(** ** Facts: counters and the buffer *)

Section BufferFacts.
  Context {D : Type} `{HD : FrameDB D} `{HC : FrameCodec} `{!FrameDBLaws D}.

(** Counter updates touch neither the database nor the capacity. *)
Lemma record_drifts_db (b : Buffer D) m : db (record_drifts b m) = db b /\
  capacity (record_drifts b m) = capacity b.
Proof.
  unfold record_drifts. generalize (map_to_list m) as l. intros l. revert b.
  induction l as [|kv l IH]; intros b; cbn [fold_left]; [auto|]. rewrite !(proj1 (IH _)), !(proj2 (IH _)).
  split; reflexivity.
Qed.

Lemma buf_ok_same_db (b b' : Buffer D) : db b' = db b -> capacity b' = capacity b -> buf_ok b -> buf_ok b'.
Proof. unfold buf_ok, idle. intros -> ->. auto. Qed.

Lemma Advance_spec (b b' : Buffer D) seq r : buf_ok b -> Advance b seq = (b', r) ->
  buf_ok b' /\ stored b' = stored b /\ b' = set_db b (db b') /\
  match r with
  | None => i_cursor (durable (db b')) = Some seq
  | Some _ => durable (db b') = durable (db b)
  end.
Proof.
  intros (Hi & Hok & Hcap). unfold Advance. destruct (q_put_cursor (db b) seq) as [d []] eqn:E;
    intros [= <- <-]; cbn.
  - apply put_cursor_ok in E as [Hv Hd]; [|exact Hi]. rewrite Hi in Hv. unfold stored, buf_ok, idle. cbn.
    rewrite Hd, Hv. repeat split; try apply Hok; try assumption; lia.
  - apply put_cursor_err in E as [Hv Hd]. unfold stored, buf_ok, idle. cbn. rewrite Hd, Hv.
    repeat split; try apply Hok; try assumption; lia.
Qed.

Lemma ReadBatch_spec (b b' : Buffer D) a n r : buf_ok b -> 0 <= n -> ReadBatch b a n = (b', r) ->
  buf_ok b' /\ durable (db b') = durable (db b) /\ b' = set_db b (db b') /\
  match r with
  | Ok batch => decode_rows (selected a n (stored b)) = Some batch
  | Err e => e = EQuery \/ decode_rows (selected a n (stored b)) = None
  end.
Proof.
  intros (Hi & Hok & Hcap) Hn. unfold ReadBatch.
  destruct (q_select_after (db b) a n) as [d [l|]] eqn:E; pose proof (select_keeps _ _ _ _ _ E) as [Hv Hd];
    intros [= <- <-]; (split; [split; [unfold idle; cbn; congruence | cbn; rewrite Hd; auto]|]);
    (split; [exact Hd|]); (split; [reflexivity|]); [|auto].
  apply select_ok in E as ->; [|assumption|rewrite Hi; assumption]. rewrite Hi.
  unfold selected, stored. destruct (decode_rows _); auto.
Qed.
End BufferFacts.

Section ForwarderFacts.
  Context {D S : Type} `{HD : FrameDB D} `{HC : FrameCodec} `{HS : FrameSink S} `{!FrameDBLaws D}.
  Context (cfg : Config).
  Implicit Types st : fstate D S.

Definition durable_cursor st : Z := cursor_of (durable (db (fs_buf st))).

(** A checkpoint changes no row and nothing sent; it moves the durable cursor
    to the last frame of the batch exactly when it succeeds. *)
Lemma checkpoint_spec st st' r : buf_ok (fs_buf st) -> checkpoint st = (st', r) ->
  buf_ok (fs_buf st') /\ stored (fs_buf st') = stored (fs_buf st) /\ fs_sent st' = fs_sent st /\
  match r with
  | None => fs_batch st' = [] /\
      (fs_batch st = [] /\ st' = st \/
       exists sf, last (fs_batch st) = Some sf /\ fs_cursor st' = SF_Seq sf /\ durable_cursor st' = SF_Seq sf)
  | Some _ => fs_batch st' = fs_batch st /\ durable (db (fs_buf st')) = durable (db (fs_buf st)) /\
      (fs_cursor st' = fs_cursor st \/
       exists sf, last (fs_batch st) = Some sf /\ fs_cursor st' = SF_Seq sf)
  end.
Proof.
  intros Hok. unfold checkpoint. destruct (fs_batch st) as [|sf0 l] eqn:Eb.
  { intros [= <- <-]. rewrite Eb. split; [assumption|]. repeat (split; [reflexivity|]). auto. }
  destruct (sink_Checkpoint (fs_sink st)) as [k [acc|]].
  2:{ intros [= <- <-]. rewrite <- Eb. cbn. repeat (split; [first [assumption | reflexivity]|]). auto. }
  assert (exists sf, last (sf0 :: l) = Some sf) as [sf Hl].
  { destruct (last (sf0 :: l)) eqn:E; [eauto|]. apply last_None in E. discriminate. }
  assert (fst (ApplyAck (sf0 :: l) acc) = SF_Seq sf) as Hc.
  { unfold ApplyAck. rewrite Hl. destruct (_ <=? 0); reflexivity. }
  destruct (ApplyAck (sf0 :: l) acc) as [nc dr]. cbn [fst] in Hc. subst nc.
  match goal with |- context [Advance ?b _] => set (b2 := b) end.
  assert (db b2 = db (fs_buf st) /\ capacity b2 = capacity (fs_buf st)) as [Hdb Hcp].
  { unfold b2. rewrite (proj1 (record_drifts_db _ _)), (proj2 (record_drifts_db _ _)). auto. }
  pose proof (buf_ok_same_db _ _ Hdb Hcp Hok) as Hok2.
  destruct (Advance b2 (SF_Seq sf)) as [b3 [e|]] eqn:EA;
    apply Advance_spec in EA as (Hok3 & Hst & _ & HA); auto;
    unfold stored in Hst; rewrite Hdb in *; intros [= <- <-]; cbn;
    (split; [assumption|]); (split; [exact Hst|]); (split; [reflexivity|]).
  - split; [congruence|]. split; [exact HA|]. right. eauto.
  - split; [reflexivity|]. right. exists sf. split; [exact Hl|]. split; [reflexivity|].
    unfold durable_cursor, cursor_of. cbn. rewrite HA. reflexivity.
Qed.

(** ** Facts: sessions *)

Definition rows_after st : list row :=
  List.filter (fun r => fs_cursor st <? r_seq r) (stored (fs_buf st)).

(** The frames still to send in this session, in order. *)
Definition pending st (pend : list StoredFrame) : Prop := decode_rows (rows_after st) = Some pend.

Definition sent_of (sf : StoredFrame) : SentFrame :=
  {| SF_Seq := Seq sf; SF_PointID := PointId (Frame sf) |}.

(** The session invariant: the batch is the tail of what was sent, the cursor
    is its last frame, every stored row between the durable cursor and the
    session's is in the batch, every stored row between the cursor [c0] the
    session started from and the session's was sent, and the durable cursor is
    not ahead of both: nothing is skipped. *)
Record sess (c0 : Z) st : Prop := {
  ss_ok : buf_ok (fs_buf st);
  ss_suffix : exists pre, map sent_of (fs_sent st) = pre ++ fs_batch st;
  ss_last : forall sf, last (fs_batch st) = Some sf -> fs_cursor st = SF_Seq sf;
  ss_cover : forall r, In r (stored (fs_buf st)) -> durable_cursor st < r_seq r <= fs_cursor st ->
             In (r_seq r) (map SF_Seq (fs_batch st));
  ss_sent : forall r, In r (stored (fs_buf st)) -> c0 < r_seq r <= fs_cursor st ->
            In (r_seq r) (map Seq (fs_sent st));
  ss_dur : durable_cursor st <= Z.max c0 (fs_cursor st)
}.

Lemma newSession_spec st : buf_ok (fs_buf st) ->
  fs_batch (newSession st) = [] /\ fs_sent (newSession st) = fs_sent st /\
  buf_ok (fs_buf (newSession st)) /\ durable (db (fs_buf (newSession st))) = durable (db (fs_buf st)) /\
  (fs_cursor (newSession st) = durable_cursor st \/ fs_cursor (newSession st) = 0).
Proof.
  intros (Hi & Hok & Hcap). unfold newSession, Cursor.
  destruct (q_get_cursor (db (fs_buf st))) as [d c] eqn:E.
  pose proof (get_cursor_keeps _ _ _ E) as [Hv Hd].
  assert (buf_ok (set_db (fs_buf st) d)) as Hb
    by (split; [unfold idle; cbn; congruence | cbn; rewrite Hd; auto]).
  destruct c as [[c|]|]; cbn; repeat (split; [first [reflexivity | assumption]|]); auto.
  apply get_cursor_ok in E. rewrite Hi in E. left. unfold durable_cursor, cursor_of.
  rewrite <- E. reflexivity.
Qed.

Lemma newSession_sess st : buf_ok (fs_buf st) -> sess (durable_cursor st) (newSession st).
Proof.
  intros Hok. destruct (newSession_spec st Hok) as (Eb & Es & Hok' & Hd & Hc).
  pose proof Hok as (_ & (_ & Hpos & _) & _). rewrite Forall_forall in Hpos.
  assert (forall r, In r (stored (fs_buf st)) -> durable_cursor st < r_seq r <= fs_cursor (newSession st) ->
          False) as Hno.
  { intros r Hr Hlt. apply list_elem_of_In in Hr. specialize (Hpos r Hr). simpl in Hpos.
    destruct Hc; lia. }
  constructor; unfold durable_cursor, stored; rewrite ?Eb, ?Es, ?Hd.
  - assumption.
  - exists (map sent_of (fs_sent st)). rewrite app_nil_r. reflexivity.
  - discriminate.
  - intros r Hr Hlt. destruct (Hno r Hr Hlt).
  - intros r Hr Hlt. destruct (Hno r Hr Hlt).
  - lia.
Qed.

Lemma filter_above_next c l r rs : StronglySorted Z.lt (map r_seq l) ->
  List.filter (fun x => c <? r_seq x) l = r :: rs ->
  List.filter (fun x => r_seq r <? r_seq x) l = rs /\
  (forall x, In x l -> c < r_seq x <= r_seq r -> x = r) /\ c < r_seq r.
Proof.
  induction l as [|a l IH]; intros Hs; [discriminate|]. inversion Hs as [|? ? Hs' Ha]; subst.
  assert (forall x, In x l -> r_seq a < r_seq x) as Hgt.
  { intros x Hx. rewrite Forall_forall in Ha. apply Ha, list_elem_of_In, in_map, Hx. }
  cbn [List.filter]. destruct (Z.ltb_spec c (r_seq a)) as [Hc|Hc].
  - intros [= <- <-]. rewrite Z.ltb_irrefl. split; [|split; [|lia]].
    + rewrite !filter_all; [reflexivity| |]; intros x Hx; apply Z.ltb_lt; specialize (Hgt x Hx); lia.
    + intros x [<-|Hx] Hr; [reflexivity|]. specialize (Hgt x Hx). lia.
  - intros E. destruct (IH Hs' E) as (H1 & H2 & H3).
    destruct (Z.ltb_spec (r_seq r) (r_seq a)) as [Hr|Hr]; [lia|]. split; [assumption|].
    split; [|assumption]. intros x [<-|Hx] Hx'; [lia | auto].
Qed.

Lemma decode_row_seq r sf : decode_row r = Some sf -> Seq sf = r_seq r.
Proof.
  unfold decode_row. destruct (String.eqb _ _); [intros [= <-]; reflexivity|].
  destruct (proto_unmarshal _); [intros [= <-]; reflexivity | discriminate].
Qed.

(** Sending the next pending frame. *)
Lemma pending_next st sf t : buf_ok (fs_buf st) -> pending st (sf :: t) ->
  decode_rows (List.filter (fun r => Seq sf <? r_seq r) (stored (fs_buf st))) = Some t /\
  (forall r, In r (stored (fs_buf st)) -> fs_cursor st < r_seq r <= Seq sf -> r_seq r = Seq sf) /\
  fs_cursor st < Seq sf.
Proof.
  intros (_ & (Hs & _) & _). unfold pending, rows_after.
  destruct (List.filter (fun r => fs_cursor st <? r_seq r) (stored (fs_buf st))) as [|r rs] eqn:E;
    [discriminate|].
  cbn [decode_rows]. destruct (decode_row r) as [sf'|] eqn:Er; [|discriminate].
  destruct (decode_rows rs) as [t'|] eqn:Et; [|discriminate]. intros [= -> ->].
  destruct (filter_above_next (fs_cursor st) (stored (fs_buf st)) r rs Hs E) as (H1 & H2 & H3).
  rewrite (decode_row_seq _ _ Er). rewrite H1. split; [assumption|]. split; [|assumption].
  intros x Hx Hr. rewrite (H2 x Hx Hr). reflexivity.
Qed.

Lemma sess_checkpoint c0 st st' r : sess c0 st -> checkpoint st = (st', r) ->
  sess c0 st' /\ stored (fs_buf st') = stored (fs_buf st) /\ fs_sent st' = fs_sent st /\
  (r = None -> fs_cursor st' = fs_cursor st /\ fs_batch st' = []).
Proof.
  intros [Hok Hsuf Hlast Hcov Hall Hdur] E. destruct (checkpoint_spec _ _ _ Hok E) as (Hok' & Hst & Hsent & Hr).
  assert (fs_cursor st' = fs_cursor st) as Hcur.
  { destruct r as [e|]; [destruct Hr as (_ & _ & [?|(sf & Hl & ->)])
                        |destruct Hr as (_ & [[_ ->]|(sf & Hl & -> & _)])];
      try rewrite (Hlast _ Hl); auto. }
  split; [|split; [assumption|split; [assumption|]]].
  - constructor; [assumption | | | | |].
    + rewrite Hsent. destruct r as [e|]; destruct Hr as [-> _]; [exact Hsuf|].
      exists (map sent_of (fs_sent st)). rewrite app_nil_r. reflexivity.
    + rewrite Hcur. destruct r as [e|]; destruct Hr as [-> _]; [assumption | discriminate].
    + rewrite Hst, Hcur. intros x Hx Hlt. destruct r as [e|].
      * destruct Hr as (-> & Hd & _). unfold durable_cursor in Hlt. rewrite Hd in Hlt. auto.
      * destruct Hr as (Eb & [[_ ->]|(sf & Hl & Hc & Hd)]); [auto|]. lia.
    + rewrite Hst, Hcur, Hsent. exact Hall.
    + rewrite Hcur. destruct r as [e|].
      * destruct Hr as (_ & Hd & _). unfold durable_cursor in *. rewrite Hd. exact Hdur.
      * destruct Hr as (_ & [[_ ->]|(sf & Hl & Hc & Hd)]); [assumption | lia].
  - intros ->. split; [assumption | apply Hr].
Qed.

(** A frame handed to the sink, before the size check. *)
Lemma sess_sent c0 st k sf t : sess c0 st -> pending st (sf :: t) ->
  let st1 := {| st with fs_sink := k; fs_batch := fs_batch st ++ [sent_of sf];
                        fs_cursor := Seq sf; fs_sent := fs_sent st ++ [sf] |} in
  sess c0 st1 /\ pending st1 t.
Proof.
  intros [Hok [pre Hsuf] Hlast Hcov Hall Hdur] Hp st1. destruct (pending_next _ _ _ Hok Hp) as (Hp' & Hnext & Hlt0).
  split; [|exact Hp']. constructor; cbn.
  - assumption.
  - exists pre. rewrite map_app, Hsuf, app_assoc. reflexivity.
  - intros x. rewrite last_snoc. intros [= <-]. reflexivity.
  - intros r Hr Hlt. change (durable_cursor st1) with (durable_cursor st) in Hlt.
    rewrite map_app. apply in_or_app.
    destruct (Z.le_gt_cases (r_seq r) (fs_cursor st)).
    + left. apply Hcov; [assumption | lia].
    + right. left. symmetry. apply Hnext; [assumption | lia].
  - intros r Hr Hlt. rewrite map_app. apply in_or_app.
    destruct (Z.le_gt_cases (r_seq r) (fs_cursor st)).
    + left. apply Hall; [assumption | lia].
    + right. left. symmetry. apply Hnext; [assumption | lia].
  - change (durable_cursor st1) with (durable_cursor st). lia.
Qed.

(** The error branch of a send leaves the session as it was. *)
Lemma sess_send_error c0 st k : sess c0 st ->
  sess c0 {| st with fs_sink := k; fs_buf := RecordSendError (fs_buf st); fs_connected := false |}.
Proof. intros [Hok Hsuf Hlast Hcov Hall Hdur]. constructor; assumption. Qed.

Lemma send_one_spec c0 st sf t st' r : sess c0 st -> pending st (sf :: t) -> send_one cfg st sf = (st', r) ->
  sess c0 st' /\ stored (fs_buf st') = stored (fs_buf st) /\
  ((fs_sent st' = fs_sent st /\ r <> None) \/
   (fs_sent st' = fs_sent st ++ [sf] /\ (r = None -> fs_cursor st' = Seq sf /\ pending st' t))).
Proof.
  intros Hs Hp. unfold send_one. destruct (sink_Send (fs_sink st) (Frame sf)) as [k []].
  2:{ intros [= <- <-]. split; [apply sess_send_error; assumption|]. split; [reflexivity|].
      left. split; [reflexivity | discriminate]. }
  destruct (sess_sent c0 st k sf t Hs Hp) as [Hs1 Hp1].
  match goal with |- context [checkpoint ?x] => set (st1 := x) in * end.
  destruct (_ <=? _).
  - intros E. destruct (sess_checkpoint _ _ _ _ Hs1 E) as (Hs' & Hst & Hsent & Hr).
    split; [assumption|]. split; [exact Hst|]. right. split; [exact Hsent|].
    intros Er. destruct (Hr Er) as [Hc _]. split; [exact Hc|].
    unfold pending, rows_after. rewrite Hst, Hc. exact Hp1.
  - intros [= <- <-]. split; [assumption|]. split; [reflexivity|]. right.
    split; [reflexivity|]. intros _. split; [reflexivity | exact Hp1].
Qed.

Lemma send_all_spec c0 frames : forall st rest st' r, sess c0 st -> pending st (frames ++ rest) ->
  send_all cfg st frames = (st', r) ->
  sess c0 st' /\ stored (fs_buf st') = stored (fs_buf st) /\
  exists k, (k <= length frames)%nat /\ fs_sent st' = fs_sent st ++ take k frames /\
    (r = None -> k = length frames /\ pending st' rest).
Proof.
  induction frames as [|sf fr IH]; intros st rest st' r Hs Hp; cbn [send_all].
  - intros [= <- <-]. split; [assumption|]. split; [reflexivity|]. exists O.
    rewrite take_0, app_nil_r. auto.
  - destruct (send_one cfg st sf) as [st1 r1] eqn:E1.
    destruct (send_one_spec _ _ _ _ _ _ Hs Hp E1) as (Hs1 & Hst1 & Hsent1).
    destruct r1 as [e|].
    + intros [= <- <-]. split; [assumption|]. split; [assumption|].
      destruct Hsent1 as [[-> _]|[-> _]]; [exists O | exists 1%nat]; cbn;
        rewrite ?app_nil_r; repeat split; try lia; discriminate.
    + destruct Hsent1 as [[_ []]|[Hsent1 Hp1]]; [reflexivity|]. destruct (Hp1 eq_refl) as [_ Hp1'].
      intros E2. destruct (IH _ _ _ _ Hs1 Hp1' E2) as (Hs2 & Hst2 & k & Hk & Hsent2 & Hr2).
      split; [assumption|]. split; [congruence|]. exists (Datatypes.S k). cbn [length take].
      split; [lia|]. split; [rewrite Hsent2, Hsent1, <- app_assoc; reflexivity|].
      intros Er. destruct (Hr2 Er). split; [lia | assumption].
Qed.

(** Reading the next at most 32 pending frames. *)
Lemma decode_rows_take l : forall n pend, decode_rows l = Some pend ->
  decode_rows (take n l) = Some (take n pend).
Proof.
  induction l as [|r l IH]; intros n pend; cbn [decode_rows].
  - intros [= <-]. destruct n; reflexivity.
  - destruct (decode_row r) as [sf|] eqn:Er; [|discriminate].
    destruct (decode_rows l) as [t|]; [|discriminate]. intros [= <-].
    destruct n as [|n]; [reflexivity|]. cbn [take decode_rows]. rewrite Er, (IH n t eq_refl). reflexivity.
Qed.

Lemma decode_rows_length l pend : decode_rows l = Some pend -> length pend = length l.
Proof.
  revert pend. induction l as [|r l IH]; intros pend; cbn [decode_rows]; [intros [= <-]; reflexivity|].
  destruct (decode_row r); [|discriminate]. destruct (decode_rows l); [|discriminate].
  intros [= <-]. cbn. f_equal. auto.
Qed.

Lemma read_pending c0 st pend b res : sess c0 st -> pending st pend ->
  ReadBatch (fs_buf st) (fs_cursor st) 32 = (b, res) ->
  let st1 := {| st with fs_buf := b |} in
  sess c0 st1 /\ stored (fs_buf st1) = stored (fs_buf st) /\ pending st1 pend /\
  (res = Ok (take 32 pend) \/ res = Err EQuery).
Proof.
  intros Hs Hp ER st1. apply ReadBatch_spec in ER as (Hokb & Hdb & _ & Hres); [|apply Hs|lia].
  assert (decode_rows (selected (fs_cursor st) 32 (stored (fs_buf st))) = Some (take 32 pend)) as Hdec
    by (apply (decode_rows_take _ 32), Hp).
  unfold st1, pending, rows_after, stored in *. cbn. rewrite Hdb.
  split; [|split; [reflexivity|split; [exact Hp|]]].
  - destruct Hs as [Hok Hsuf Hlast Hcov Hall Hdur]. constructor; cbn; try assumption;
      unfold durable_cursor, stored in *; cbn; rewrite Hdb; assumption.
  - rewrite Hdec in Hres. destruct res as [l|e]; [left; congruence|].
    right. destruct Hres as [->|?]; [reflexivity | discriminate].
Qed.

Lemma take_chunk {A} (l : list A) k :
  (k <= length l - 32)%nat ->
  take (Nat.min 32 (length l)) (take 32 l) ++ take k (drop 32 l) = take (Nat.min 32 (length l) + k) l.
Proof.
  intros Hk. rewrite take_take. destruct (le_lt_dec 32 (length l)) as [H|H].
  - replace (Nat.min 32 (length l)) with 32%nat by lia. apply take_take_drop.
  - replace k with O by lia. rewrite take_0, app_nil_r, Nat.add_0_r. f_equal. lia.
Qed.

(** Whether a read of this very [drain] fails, which it reports as success. *)
Fixpoint read_failed (fuel : nat) (st : fstate D S) : bool :=
  match fuel with
  | O => false
  | Datatypes.S fuel' =>
    match ReadBatch (fs_buf st) (fs_cursor st) 32 with
    | (_, Err _) => true
    | (_, Ok []) => false
    | (b, Ok frames) =>
      match send_all cfg {| st with fs_buf := b |} frames with
      | (_, Some _) => false
      | (st2, None) => read_failed fuel' st2
      end
    end
  end.

(** [drain] ends: with fuel for the pending frames it returns, having sent a
    prefix of them in order; unless a read or the sink failed, all of them. *)
Lemma drain_spec c0 fuel : forall st pend, sess c0 st -> pending st pend -> (length pend < fuel)%nat ->
  exists st' r k, drain cfg fuel st = Some (st', r) /\ sess c0 st' /\
    stored (fs_buf st') = stored (fs_buf st) /\ (k <= length pend)%nat /\
    fs_sent st' = fs_sent st ++ take k pend /\
    (r = None -> read_failed fuel st = false -> k = length pend /\ pending st' []).
Proof.
  induction fuel as [|fuel IH]; intros st pend Hs Hp Hf; [lia|]. cbn [drain read_failed].
  destruct (ReadBatch (fs_buf st) (fs_cursor st) 32) as [b res] eqn:ER.
  destruct (read_pending _ _ _ _ _ Hs Hp ER) as (Hs1 & Hst1 & Hp1 & Hres).
  set (st1 := {| st with fs_buf := b |}) in *.
  destruct Hres as [-> | ->].
  2:{ exists st1, None, O. rewrite take_0, app_nil_r.
      repeat (split; [first [assumption | reflexivity | lia]|]). discriminate. }
  destruct (take 32 pend) as [|x fr] eqn:Et.
  { destruct pend; [|discriminate]. exists st1, None, O. rewrite app_nil_r.
    repeat (split; [first [assumption | reflexivity | cbn; lia]|]). auto. }
  rewrite <- Et in *. assert (0 < length pend)%nat by (destruct pend; [discriminate | simpl; lia]).
  destruct (send_all cfg st1 (take 32 pend)) as [st2 r2] eqn:ES.
  rewrite <- (take_drop 32 pend) in Hp1.
  destruct (send_all_spec _ _ _ _ _ _ Hs1 Hp1 ES) as (Hs2 & Hst2 & k & Hk & Hsent & Hr).
  rewrite length_take in Hk. destruct r2 as [e|].
  - exists st2, (Some e), k. rewrite take_take, Nat.min_l in Hsent by lia.
    repeat (split; [first [assumption | reflexivity | congruence | lia]|]). discriminate.
  - destruct (Hr eq_refl) as [Hk' Hp2]. rewrite length_take in Hk'.
    destruct (IH st2 (drop 32 pend) Hs2 Hp2 ltac:(rewrite length_drop; lia))
      as (st3 & r3 & k3 & E3 & Hs3 & Hst3 & Hk3 & Hsent3 & Hr3).
    rewrite length_drop in *. exists st3, r3, (Nat.min 32 (length pend) + k3)%nat.
    split; [assumption|]. split; [assumption|]. split; [congruence|]. split; [lia|].
    split; [rewrite Hsent3, Hsent, <- app_assoc, Hk', take_chunk by lia; reflexivity|].
    intros E Hrd. destruct (Hr3 E Hrd) as [-> ?]. split; [lia | assumption].
Qed.

Lemma decode_rows_filter l c : forall all, decode_rows l = Some all ->
  decode_rows (List.filter (fun r => c <? r_seq r) l)
  = Some (List.filter (fun sf => c <? Seq sf) all).
Proof.
  induction l as [|r l IH]; intros all; cbn [decode_rows]; [intros [= <-]; reflexivity|].
  destruct (decode_row r) as [sf|] eqn:Er; [|discriminate].
  destruct (decode_rows l) as [t|]; [|discriminate]. intros [= <-]. cbn [List.filter].
  rewrite (decode_row_seq _ _ Er). destruct (c <? r_seq r); cbn [decode_rows]; [rewrite Er|];
    rewrite (IH t eq_refl); reflexivity.
Qed.

Lemma filter_length_le {A} (p : A -> bool) l : (length (List.filter p l) <= length l)%nat.
Proof. induction l as [|a l IH]; cbn; [lia|]. destruct (p a); cbn; lia. Qed.

(** After a drain that left nothing pending and a successful checkpoint, every
    stored row is at or below the durable cursor. *)
Lemma all_delivered c0 st st' : sess c0 st -> pending st [] -> checkpoint st = (st', None) ->
  forall r, In r (stored (fs_buf st')) -> r_seq r <= durable_cursor st'.
Proof.
  intros Hs Hp E r Hr. destruct (sess_checkpoint _ _ _ _ Hs E) as (Hs' & Hst & _ & Hn).
  destruct (Hn eq_refl) as [Hc Hb]. rewrite Hst in Hr.
  assert (r_seq r <= fs_cursor st) as Hle.
  { destruct (Z.le_gt_cases (r_seq r) (fs_cursor st)) as [|Hgt]; [assumption|]. exfalso.
    apply decode_rows_length in Hp. unfold rows_after in Hp.
    assert (In r (List.filter (fun x => fs_cursor st <? r_seq x) (stored (fs_buf st)))) as Hin
      by (apply filter_In; split; [assumption | apply Z.ltb_lt; lia]).
    destruct (List.filter _ _); [destruct Hin | discriminate]. }
  destruct (Z.le_gt_cases (r_seq r) (durable_cursor st')) as [|Hgt]; [assumption|].
  rewrite <- Hst in Hr. pose proof (ss_cover _ _ Hs' r Hr ltac:(lia)) as Hin. rewrite Hb in Hin.
  destruct Hin.
Qed.

(** C21: the shutdown flush terminates and delivers.  [DrainOnce] hands the sink
    a prefix of the frames past the cursor, in order and each once; the durable
    cursor never passes a stored row that was not sent; no row is removed; and
    when it returns no error and none of its own reads failed, it has sent all of
    them and no stored row is left past the durable cursor. *)
Theorem DrainOnce_delivers (st : fstate D S) (all : list StoredFrame) :
  buf_ok (fs_buf st) -> decode_rows (stored (fs_buf st)) = Some all ->
  exists st' r k,
    let pend := List.filter (fun sf => fs_cursor (newSession st) <? Seq sf) all in
    DrainOnce cfg (drain_fuel st) st = Some (st', r) /\
    stored (fs_buf st') = stored (fs_buf st) /\
    fs_sent st' = fs_sent st ++ take k pend /\
    (forall x, In x (stored (fs_buf st)) -> durable_cursor st < r_seq x <= durable_cursor st' ->
       In (r_seq x) (map Seq (fs_sent st'))) /\
    (r = None -> read_failed (drain_fuel st) (newSession st) = false ->
       take k pend = pend /\ forall x, In x (stored (fs_buf st')) -> r_seq x <= durable_cursor st').
Proof.
  intros Hok Hall. set (pend := List.filter _ all).
  destruct (newSession_spec st Hok) as (_ & Esent & _ & Hdur & _).
  pose proof (newSession_sess st Hok) as Hs.
  assert (stored (fs_buf (newSession st)) = stored (fs_buf st)) as Hst0 by (unfold stored; congruence).
  assert (pending (newSession st) pend) as Hp
    by (unfold pending, rows_after; rewrite Hst0; apply decode_rows_filter; assumption).
  assert (length pend < drain_fuel st)%nat as Hf.
  { unfold drain_fuel. rewrite <- (decode_rows_length _ _ Hall). unfold pend.
    pose proof (filter_length_le (fun sf => fs_cursor (newSession st) <? Seq sf) all). lia. }
  destruct (drain_spec _ _ _ _ Hs Hp Hf) as (st1 & r1 & k & E1 & Hs1 & Hst1 & Hk & Hsent1 & Hr1).
  assert (forall st2, sess (durable_cursor st) st2 -> stored (fs_buf st2) = stored (fs_buf st1) ->
    forall x, In x (stored (fs_buf st)) -> durable_cursor st < r_seq x <= durable_cursor st2 ->
    In (r_seq x) (map Seq (fs_sent st2))) as Hskip.
  { intros st2 Hs2 Hst2 x Hx Hlt. apply (ss_sent _ _ Hs2); [rewrite Hst2, Hst1, Hst0; assumption|].
    pose proof (ss_dur _ _ Hs2). lia. }
  unfold DrainOnce. rewrite E1. destruct r1 as [e|].
  - exists st1, (Some e), k. split; [reflexivity|]. split; [congruence|].
    split; [rewrite Hsent1, Esent; reflexivity|].
    split; [apply Hskip; auto|]. discriminate.
  - destruct (checkpoint st1) as [st2 r2] eqn:E2.
    destruct (sess_checkpoint _ _ _ _ Hs1 E2) as (Hs2 & Hst2 & Hsent2 & _).
    exists st2, r2, k. split; [reflexivity|]. split; [congruence|].
    split; [rewrite Hsent2, Hsent1, Esent; reflexivity|].
    split; [apply Hskip; auto|]. intros -> Hrd. destruct (Hr1 eq_refl Hrd) as [-> Hp1].
    split; [apply take_ge; lia | exact (all_delivered _ _ _ Hs1 Hp1 E2)].
Qed.
End ForwarderFacts.

(** ** Facts: drift accounting *)

Definition zsum (l : list Z) : Z := fold_right Z.add 0 l.
Definition drift_sum (m : gmap string Z) : Z := zsum (map snd (map_to_list m)).

Lemma zsum_perm l l' : Permutation l l' -> zsum l = zsum l'.
Proof. unfold zsum. induction 1; cbn [fold_right]; lia. Qed.

Lemma drift_sum_insert m k v : drift_sum (<[k := v]> m) = drift_sum m - default 0 (m !! k) + v.
Proof.
  assert (forall m', m' !! k = None -> drift_sum (<[k := v]> m') = v + drift_sum m') as Hnew.
  { intros m' Hn. unfold drift_sum. rewrite (zsum_perm _ _ (Permutation_map snd (map_to_list_insert m' k v Hn))).
    reflexivity. }
  destruct (m !! k) as [w|] eqn:E.
  - rewrite <- insert_delete_eq, Hnew by apply lookup_delete_eq.
    assert (drift_sum m = w + drift_sum (delete k m)) as ->; [|cbn; lia].
    unfold drift_sum. rewrite <- (zsum_perm _ _ (Permutation_map snd (map_to_list_delete m k w E))). reflexivity.
  - rewrite Hnew by assumption. cbn. lia.
Qed.

Lemma drift_sum_bump l : forall m,
  (forall q, 0 <= default 0 (m !! q) /\ default 0 (m !! q) + Z.of_nat (length l) < 2 ^ 63) ->
  drift_sum (fold_left bump l m) = drift_sum m + Z.of_nat (length l).
Proof.
  induction l as [|sf l IH]; intros m Hm; cbn [fold_left length]; [lia|].
  cbn [length] in Hm. rewrite IH.
  - unfold bump. rewrite drift_sum_insert, i64_small; [lia|].
    specialize (Hm (SF_PointID sf)). unfold in_i64. lia.
  - intros q. unfold bump. destruct (decide (q = SF_PointID sf)) as [->|Hne].
    + rewrite lookup_insert_eq. specialize (Hm (SF_PointID sf)).
      change (default 0 (Some ?x)) with x.
      rewrite i64_small by (unfold in_i64; lia). lia.
    + rewrite lookup_insert_ne by congruence. specialize (Hm q). lia.
Qed.

Lemma record_drifts_total {D} (b : Buffer D) m :
  driftTotal (record_drifts b m) mod 2 ^ 64 = (driftTotal b + drift_sum m) mod 2 ^ 64.
Proof.
  unfold record_drifts, drift_sum. generalize (map_to_list m) as l. intros l. revert b.
  induction l as [|kv l IH]; intros b; cbn [fold_left map]; [f_equal; cbn; lia|].
  rewrite IH. cbn [RecordDrift driftTotal zsum fold_right].
  rewrite Z.add_mod, i64_congr, <- Z.add_mod by lia. f_equal. fold (zsum (map snd l)). lia.
Qed.

(** The counter of one point. *)
Lemma record_drifts_point {D} (b : Buffer D) m p :
  default 0 (drifts (record_drifts b m) !! p) mod 2 ^ 64 = (default 0 (drifts b !! p) + default 0 (m !! p)) mod 2 ^ 64.
Proof.
  unfold record_drifts. rewrite <- (list_to_map_to_list m) at 2. pose proof (NoDup_fst_map_to_list m) as Hn.
  revert b Hn. generalize (map_to_list m) as l. induction l as [|[k v] l IH]; intros b Hn; cbn [fold_left list_to_map foldr].
  { rewrite lookup_empty. cbn. rewrite Z.add_0_r. reflexivity. }
  apply NoDup_cons in Hn as [Hk Hn]. rewrite IH by assumption. cbn [RecordDrift drifts fst snd].
  destruct (decide (k = p)) as [->|Hne].
  - rewrite !lookup_insert_eq, (not_elem_of_list_to_map_1 (M := gmap string)) by assumption.
    change (default 0 (Some ?x)) with x. change (default 0 None) with 0. rewrite Z.add_0_r. apply i64_congr.
  - rewrite !lookup_insert_ne by assumption. reflexivity.
Qed.

Lemma ApplyAck_drift_sum batch accepted : Z.of_nat (length batch) < 2 ^ 63 ->
  0 <= accepted <= Z.of_nat (length batch) ->
  drift_sum (snd (ApplyAck batch accepted)) = Z.of_nat (length batch) - accepted.
Proof.
  intros Hlen Ha. unfold ApplyAck. assert (drift_sum ∅ = 0) as H0 by reflexivity.
  destruct (last batch) as [sf|] eqn:El.
  2:{ apply last_None in El as ->. cbn [snd length] in *. lia. }
  rewrite i64_small by (unfold in_i64; lia).
  destruct (Z.leb_spec (Z.of_nat (length batch) - accepted) 0); [cbn [snd]; lia|].
  destruct (Z.ltb_spec accepted 0); [lia|]. cbn [snd]. rewrite drift_sum_bump.
  - rewrite length_drop, H0. lia.
  - intros q. rewrite lookup_empty, length_drop. change (default 0 None) with 0. lia.
Qed.

Section Accounting.
  Context {D S : Type} `{HD : FrameDB D} `{HC : FrameCodec} `{HS : FrameSink S} `{!FrameDBLaws D}.

(** C29: a checkpoint of a non-empty batch of which the sink accepts
    [0 <= n <= len] accounts for every frame: the sent counter grows by the
    batch, the accepted counter by [n], and the drift total by the shortfall, so
    that sent = accepted + drift is kept (modulo the counters' wrap); the
    durable cursor moves past the whole batch when the cursor write succeeds and
    stays put when it fails.  When the sink fails no counter but the error count
    moves. *)
Theorem checkpoint_accounts (st st' : fstate D S) (k : S) (ack : option Z) (r : option forward_error) :
  buf_ok (fs_buf st) -> fs_batch st <> [] -> Z.of_nat (length (fs_batch st)) < 2 ^ 63 ->
  sink_Checkpoint (fs_sink st) = (k, ack) ->
  (forall n, ack = Some n -> 0 <= n <= Z.of_nat (length (fs_batch st))) ->
  checkpoint st = (st', r) ->
  let b := fs_buf st in let b' := fs_buf st' in
  match ack with
  | Some n =>
    sent b' = i64 (sent b + Z.of_nat (length (fs_batch st))) /\
    accepted b' = i64 (accepted b + n) /\
    driftTotal b' mod 2 ^ 64 = (driftTotal b + (Z.of_nat (length (fs_batch st)) - n)) mod 2 ^ 64 /\
    (sent b' - accepted b' - driftTotal b') mod 2 ^ 64 = (sent b - accepted b - driftTotal b) mod 2 ^ 64 /\
    match r with
    | None => exists sf, last (fs_batch st) = Some sf /\ durable_cursor st' = SF_Seq sf
    | Some _ => durable_cursor st' = durable_cursor st
    end
  | None =>
    r = Some FCheckpoint /\ b' = RecordSendError b
  end.
Proof.
  intros Hok Hne Hlen Ek Hack E b b'. pose proof (checkpoint_spec _ _ _ Hok E) as (_ & _ & _ & Hr).
  unfold checkpoint in E. destruct (fs_batch st) as [|s0 l] eqn:Eb; [congruence|].
  rewrite Ek in E. destruct ack as [n|].
  2:{ injection E as <- <-. split; reflexivity. }
  pose proof (ApplyAck_drift_sum (s0 :: l) n Hlen (Hack n eq_refl)) as Hsum.
  destruct (ApplyAck (s0 :: l) n) as [nc dr]. cbn [snd] in Hsum.
  match type of E with context [record_drifts ?x _] => set (b1 := x) in * end.
  assert (forall m, sent (record_drifts b1 m) = sent b1 /\ accepted (record_drifts b1 m) = accepted b1) as Hrd.
  { intros m. unfold record_drifts. generalize (map_to_list m) as q, b1. induction q; intros; cbn [fold_left]; [auto|].
    rewrite (proj1 (IHq _)), (proj2 (IHq _)). auto. }
  assert (b' = set_db (record_drifts b1 dr) (db b')) as Hb'.
  { unfold b'. destruct (Advance (record_drifts b1 dr) nc) as [b3 o] eqn:EA.
    assert (b3 = set_db (record_drifts b1 dr) (db b3)) as H3
      by (unfold Advance in EA; destruct (q_put_cursor _ _); injection EA as <- _; reflexivity).
    destruct o; injection E as <- _; exact H3. }
  assert (sent b' = i64 (sent b + Z.of_nat (length (s0 :: l))) /\ accepted b' = i64 (accepted b + n))
    as [H1 H2] by (rewrite Hb'; exact (Hrd dr)).
  clear E.
  assert (driftTotal b' mod 2 ^ 64 = (driftTotal b + (Z.of_nat (length (s0 :: l)) - n)) mod 2 ^ 64) as H3.
  { rewrite Hb', <- Hsum. cbn [set_db driftTotal]. exact (record_drifts_total b1 dr). }
  split; [exact H1|]. split; [exact H2|]. split; [exact H3|]. split.
  - rewrite H1, H2. rewrite <- Zminus_mod_idemp_r, H3, Zminus_mod_idemp_r.
    rewrite <- Zminus_mod_idemp_l, (Zminus_mod (i64 _)), !i64_congr, <- Zminus_mod, Zminus_mod_idemp_l.
    f_equal. lia.
  - destruct r as [e|]; [unfold durable_cursor; destruct Hr as (_ & -> & _); reflexivity|].
    destruct Hr as (_ & [[H _]|(sf & Hl & _ & Hd)]); [discriminate | eauto].
Qed.
End Accounting.

(** ** Facts: backoff *)

(** every delay lies between [Min] and [Max], whatever the random number and
    the state, and the internal delay never exceeds [Max]. *)
Theorem Next_bounds (b : Backoff) (r : float64) :
  bo_Min b <= bo_Max b ->
  bo_Min b <= snd (Next b r) <= bo_Max b /\ bo_cur (fst (Next b r)) <= bo_Max b /\
  bo_Min (fst (Next b r)) = bo_Min b /\ bo_Max (fst (Next b r)) = bo_Max b.
Proof.
  intros H. unfold Next. cbn -[i64 f64_trunc].
  set (d := i64 _). set (c := f64_trunc _).
  repeat split;
    repeat match goal with |- context [?x <? ?y] => destruct (Z.ltb_spec x y) end; lia.
Qed.

Lemma Next_bounds_witness :
  second <= snd (Next uplink_backoff f64_zero) <= 60 * second.
Proof. apply (Next_bounds uplink_backoff f64_zero). vm_compute. discriminate. Defined.

(** The internal delay after [n] failures with the uplink's settings. *)
Definition uplink_delay (n : nat) : Z :=
  match n with O => 0 | _ => Z.min (60 * second) (2 ^ Z.of_nat n * second) end.

Definition uplink_backoff_at (n : nat) : Backoff :=
  {| bo_Min := second; bo_Max := 60 * second; bo_Factor := f64_two; bo_cur := uplink_delay n |}.

Lemma uplink_next n r : fst (Next (uplink_backoff_at n) r) = uplink_backoff_at (Datatypes.S n).
Proof.
  destruct (le_lt_dec 6 n) as [H|H].
  - assert (forall m, (6 <= m)%nat -> uplink_delay m = 60 * second) as Hs.
    { intros m Hm. unfold uplink_delay. destruct m as [|m]; [lia|]. apply Z.min_l.
      assert (2 ^ 6 <= 2 ^ Z.of_nat (Datatypes.S m)) by (apply Z.pow_le_mono_r; lia).
      unfold second. lia. }
    unfold uplink_backoff_at. rewrite (Hs n), (Hs (Datatypes.S n)) by lia. reflexivity.
  - destruct n as [|[|[|[|[|[|]]]]]]; [reflexivity.. | lia].
Qed.

Section IngressFacts.
  Context {D S : Type} `{HD : FrameDB D} `{HC : FrameCodec} `{HS : FrameSink S}.
  Context (cfg : Config) (fresh_sink : S -> S).

Lemma ingress_ratchet sessions : forall (st : fstate D S) n rs st' bo' ds,
  ingress_loop cfg fresh_sink st (uplink_backoff_at n) sessions rs = (st', bo', ds, false) ->
  bo' = uplink_backoff_at (n + length ds).
Proof.
  induction sessions as [|se sessions IH]; intros st n rs st' bo' ds; cbn [ingress_loop].
  - intros [= _ <- <-]. f_equal. cbn. lia.
  - destruct (Run _ _ (se_events se)) as [[st1 r] ?]. destruct r as [|e|].
    + discriminate.
    + destruct (se_alive se); [|discriminate].
      pose proof (uplink_next n (hd f64_zero rs)) as Hn.
      destruct (Next (uplink_backoff_at n) (hd f64_zero rs)) as [bo1 d]. cbn [fst] in Hn. subst bo1.
      destruct (se_resumed se); [|discriminate].
      destruct (ingress_loop cfg fresh_sink st1 _ sessions (tl rs)) as [[[st2 bo2] ds'] fin] eqn:E.
      intros [= <- <- <- ->]. apply IH in E as ->. f_equal. cbn [length]. lia.
    + intros [= _ <- <-]. f_equal. cbn. lia.
Qed.

(** while the gateway runs, the reconnect delay only ratchets up.  After
    [k] failed sessions the base delay is [min(60s, 2^k s)] whatever was
    delivered and acknowledged in between: the reset is reached only when the
    context is done. *)
Theorem ingress_backoff_never_resets (st st' : fstate D S) sessions rs bo' ds :
  ingress_loop cfg fresh_sink st uplink_backoff sessions rs = (st', bo', ds, false) ->
  bo_cur bo' = uplink_delay (length ds).
Proof. intros E. apply (ingress_ratchet _ _ 0) in E as ->. reflexivity. Qed.
End IngressFacts.

(** ** Witnesses: a Building OS that accepts all but some frames of a batch *)

Module UplinkExample.
Import ListDB CountableCodec BufferExample.

(** Frames received on the open stream, how many of each batch are rejected,
    and how many more operations the link survives. *)
Record net := { n_batch : Z; n_reject : Z; n_life : nat }.

Definition spend (k : net) (g : net -> net) : net * bool :=
  match n_life k with
  | O => (k, false)
  | Datatypes.S l => (g {| n_batch := n_batch k; n_reject := n_reject k; n_life := l |}, true)
  end.

#[export] Instance net_client : IngressClient net := {
  StreamTelemetry k := spend k (fun k => {| n_batch := 0; n_reject := n_reject k; n_life := n_life k |});
  stream_Send k _ := spend k (fun k =>
    {| n_batch := n_batch k + 1; n_reject := n_reject k; n_life := n_life k |});
  CloseAndRecv k :=
    let '(k', ok) := spend k (fun k => k) in
    (k', if ok then Some (Z.max 0 (n_batch k - n_reject k)) else None);
  client_now _ := 1000
}.

Definition forwarder (b : Buffer listdb) (life : nat) (reject : Z) : fstate listdb (grpcSink net) :=
  {| fs_buf := b; fs_sink := {| g_client := {| n_batch := 0; n_reject := reject; n_life := life |};
                                g_stream := false |};
     fs_cursor := 0; fs_batch := []; fs_connected := false; fs_sent := [] |}.

Definition two_frames : list StoredFrame :=
  [{| Seq := 1; Frame := frame "a" |}; {| Seq := 2; Frame := frame "b" |}].

Lemma DrainOnce_delivers_witness :
  exists st' k, DrainOnce DefaultConfig 3 (forwarder two 10 0) = Some (st', None) /\ fs_sent st' = take k two_frames /\
    take k two_frames = two_frames /\ forall x, In x (stored (fs_buf st')) -> r_seq x <= durable_cursor st'.
Proof.
  destruct (DrainOnce_delivers DefaultConfig (forwarder two 10 0) two_frames) as (st' & r & k & E & _ & Hs & _ & Hn).
  - exact two_ok.
  - vm_compute. reflexivity.
  - change (drain_fuel (forwarder two 10 0)) with 3%nat in *.
    assert (option_map snd (DrainOnce DefaultConfig 3 (forwarder two 10 0)) = Some None) as E' by (vm_compute; reflexivity).
    rewrite E in E'. injection E' as ->. exists st', k.
    assert (read_failed DefaultConfig 3 (newSession (forwarder two 10 0)) = false) as Hrd by (vm_compute; reflexivity).
    split; [exact E|]. split; [exact Hs|]. exact (Hn eq_refl Hrd).
Defined.

(** A flush whose read fails returns no error and leaves the frames where they are. *)
Definition unreadable : Buffer listdb :=
  set_db two {| l_view := l_view (db two); l_durable := l_durable (db two); l_faults := [false; true] |}.
Example drain_read_error_hidden :
  match DrainOnce DefaultConfig 3 (forwarder unreadable 10 0) with
  | Some (st', r) => r = None /\ fs_sent st' = [] /\ durable_cursor st' = 0 /\ length (stored (fs_buf st')) = 2%nat
  | None => False
  end.
Proof. vm_compute. auto. Qed.

Definition mid_batch : fstate listdb (grpcSink net) :=
  {| fs_buf := two;
     fs_sink := {| g_client := {| n_batch := 2; n_reject := 1; n_life := 5 |}; g_stream := true |};
     fs_cursor := 2; fs_batch := map sent_of two_frames; fs_connected := true; fs_sent := two_frames |}.

Lemma checkpoint_accounts_witness :
  let b' := fs_buf (fst (checkpoint mid_batch)) in
  sent b' = 2 /\ accepted b' = 1 /\ driftTotal b' mod 2 ^ 64 = 1.
Proof.
  pose proof (checkpoint_accounts mid_batch (fst (checkpoint mid_batch))
    (fst (sink_Checkpoint (fs_sink mid_batch))) (Some 1) (snd (checkpoint mid_batch)) two_ok) as H.
  destruct H as (H1 & H2 & H3 & _).
  - discriminate.
  - cbn. lia.
  - vm_compute. reflexivity.
  - intros n [= <-]. cbn. lia.
  - apply surjective_pairing.
  - cbv zeta. rewrite H1, H2, H3. repeat split; vm_compute; reflexivity.
Defined.

(** Two sessions on a link that delivers a batch and then dies: the second one
    fails after the first delivered, and the base delay is four seconds. *)
Definition flaky : list session :=
  [{| se_events := [EvNotify; EvTick; EvBuf (OpWrite (frame "c")); EvBackstop];
      se_alive := true; se_resumed := true |};
   {| se_events := [EvBackstop]; se_alive := true; se_resumed := true |}].

Lemma ingress_backoff_never_resets_witness :
  let '(st', bo', ds, fin) := ingress_loop DefaultConfig (fun k => k) (forwarder two 4 0) uplink_backoff flaky [] in
  checkpoints (fs_buf st') = 1 /\ length ds = 2%nat /\ bo_cur bo' = 4 * second.
Proof.
  destruct (ingress_loop DefaultConfig (fun k => k) (forwarder two 4 0) uplink_backoff flaky [])
    as [[[st' bo'] ds] fin] eqn:E.
  assert ((let '(st', _, ds, fin) :=
             ingress_loop DefaultConfig (fun k => k) (forwarder two 4 0) uplink_backoff flaky [] in
           (checkpoints (fs_buf st'), length ds, fin)) = (1, 2%nat, false)) as E' by (vm_compute; reflexivity).
  rewrite E in E'. injection E' as E1 E2 E3. subst fin.
  split; [exact E1|]. split; [exact E2|].
  rewrite (ingress_backoff_never_resets DefaultConfig (fun k => k) _ _ _ _ _ _ E), E2. reflexivity.
Defined.
End UplinkExample.
