(* ===== verification/Pipeline.v ===== *)
(** * The telemetry path end to end

    The goroutines of the telemetry path as one transition system: the pump
    ([Pump]) writes into the buffer, the forwarder ([Uplink]) reads, sends and
    checkpoints, with the buffer's statements interleaved in any order, sessions
    restarting at any time and the process crashing at any time.  The steps are
    the operations of those files; the only additions are ghost histories.  The
    theorem is the contract of ADR-0002 and #28: a message acknowledged to
    JetStream was sent in a batch whose acknowledgement accepts it or counts it as
    drift of its point, or is counted as lost at capacity, or is still in the
    buffer past the durable cursor; and the counters say how many of each. *)

From Stdlib Require Import ZArith Lia Bool String List Sorting.Sorted.
From stdpp Require Import base list strings gmap.
From S2P Require Import Prelude Wire SeqWindow FrameStore Buffer Pump Uplink.
#[local] Open Scope string_scope.
#[local] Open Scope list_scope.
#[local] Open Scope Z_scope.

Section Pipeline.
  Context {D S : Type} `{HD : FrameDB D} `{HC : FrameCodec} `{HS : FrameSink S}.
  Context (cfg : Config).

(** One acknowledgement of Building OS: the batch half-closed and the count that
    came back.  The frames past the count are the ones it did not accept. *)
Definition round : Type := list SentFrame * Z.
Definition taken (r : round) : list SentFrame := take (Z.to_nat (snd r)) (fst r).
Definition declined (r : round) : list SentFrame := drop (Z.to_nat (snd r)) (fst r).

(** [y_queue]: frames read by [drain] and not yet sent.  Ghosts: every row ever
    committed, the acknowledgements the sink returned and the sequences evicted
    past the durable cursor (and how many of each before the last open), and the
    pump's log. *)
Record sys := {
  y_win : seqWindow;
  y_fs : fstate D S;
  y_queue : list StoredFrame;
  y_hist : list row;
  y_rounds : list round;
  y_rounds0 : nat;
  y_lost : list Z;
  y_lost0 : nat;
  y_log : list entry
}.

Definition y_buf (y : sys) : Buffer D := fs_buf (y_fs y).
Definition set_buf (st : fstate D S) (b : Buffer D) : fstate D S := {| st with fs_buf := b |}.

(** The rows a buffer operation committed, and the undelivered ones it evicted. *)
Definition new_rows (b b' : Buffer D) : list row :=
  List.filter (fun r => i_high (durable (db b)) <? r_seq r) (stored b').
Definition is_stored (b : Buffer D) (r : row) : bool :=
  existsb (fun x => r_seq x =? r_seq r) (stored b).
Definition new_lost (b b' : Buffer D) : list Z :=
  map r_seq (List.filter (fun r => negb (is_stored b' r) && negb (delivered b r)) (stored b)).

(** What the sink acknowledges when a checkpoint asks it. *)
Definition acks (st : fstate D S) : list round :=
  match fs_batch st, snd (sink_Checkpoint (fs_sink st)) with
  | [], _ | _, None => []
  | batch, Some accepted => [(batch, accepted)]
  end.

(** The session with one more frame sent, and what [send_one] has acknowledged. *)
Definition with_sent (st : fstate D S) (k : S) (sf : StoredFrame) : fstate D S :=
  {| st with fs_sink := k; fs_batch := fs_batch st ++ [sent_of sf];
             fs_cursor := Seq sf; fs_sent := fs_sent st ++ [sf] |}.
Definition send_acks (st : fstate D S) (sf : StoredFrame) : list round :=
  let '(k, ok) := sink_Send (fs_sink st) (Frame sf) in
  let st1 := with_sent st k sf in
  if ok && (CheckpointSize cfg <=? Z.of_nat (length (fs_batch st1))) then acks st1 else [].

Inductive step : sys -> sys -> Prop :=
| step_pump y fm w' b' o acts :
    in_u64 (FM_Seq fm) ->
    pump_step (y_win y, y_buf y) fm = ((w', b'), o, acts) ->
    step y {| y with y_win := w'; y_fs := set_buf (y_fs y) b';
                     y_hist := y_hist y ++ new_rows (y_buf y) b';
                     y_lost := y_lost y ++ new_lost (y_buf y) b';
                     y_log := y_log y ++ [{| en_msg := fm; en_outcome := o; en_actions := acts |}] |}
| step_read y b' res :
    y_queue y = [] -> ReadBatch (y_buf y) (fs_cursor (y_fs y)) 32 = (b', res) ->
    step y {| y with y_fs := set_buf (y_fs y) b';
                     y_queue := match res with Ok frames => frames | Err _ => [] end |}
| step_send y sf q st' r :
    y_queue y = sf :: q -> send_one cfg (y_fs y) sf = (st', r) ->
    step y {| y with y_fs := st'; y_queue := match r with None => q | Some _ => [] end;
                     y_rounds := y_rounds y ++ send_acks (y_fs y) sf |}
| step_tick y st' r :
    checkpoint (y_fs y) = (st', r) ->
    step y {| y with y_fs := st'; y_rounds := y_rounds y ++ acks (y_fs y) |}
| step_session y k :
    step y {| y with y_fs := newSession (with_sink (y_fs y) k); y_queue := [] |}
| step_crash y w k now :
    newSeqWindow dedupWindowSeqs = Some w ->
    step y {| y with y_win := w; y_queue := []; y_lost0 := length (y_lost y); y_rounds0 := length (y_rounds y);
                     y_fs := newSession (with_sink
                       (set_buf (y_fs y) (new_buffer (tx_rollback (db (y_buf y))) (capacity (y_buf y)) now)) k) |}.

Inductive reachable (y0 : sys) : sys -> Prop :=
| reach_refl : reachable y0 y0
| reach_step y y' : reachable y0 y -> step y y' -> reachable y0 y'.

(** A pump and a forwarder starting on an opened, empty buffer. *)
Record initial (y : sys) : Prop := {
  in_win : newSeqWindow dedupWindowSeqs = Some (y_win y);
  in_buf : buf_ok (y_buf y);
  in_rows : stored (y_buf y) = [];
  in_cursor : fs_cursor (y_fs y) = 0 /\ durable_cursor (y_fs y) = 0;
  in_batch : fs_batch (y_fs y) = [] /\ y_queue y = [] /\ fs_sent (y_fs y) = [];
  in_ghost : y_hist y = [] /\ y_rounds y = [] /\ y_rounds0 y = O /\ y_lost y = [] /\ y_lost0 y = O /\ y_log y = [];
  in_counts : lostUnsent (y_buf y) = 0 /\ driftTotal (y_buf y) = 0 /\ drifts (y_buf y) = ∅
}.

(** ** The invariant *)

(** The sequences Building OS answered for. *)
Definition answered (l : list round) : list Z := map SF_Seq (List.concat (map fst l)).
Definition settled (y : sys) (s : Z) : Prop := In s (answered (y_rounds y)) \/ In s (y_lost y).

Definition high (y : sys) : Z := i_high (durable (db (y_buf y))).

(** The part about rows and cursors. *)
Record rows_inv (y : sys) : Prop := {
  ri_ok : buf_ok (y_buf y);
  ri_sorted : StronglySorted Z.lt (map r_seq (y_hist y));
  ri_high : Forall (fun r => 0 < r_seq r <= high y) (y_hist y);
  ri_sub : forall r, In r (stored (y_buf y)) -> In r (y_hist y);
  ri_gone : forall r, In r (y_hist y) -> In r (stored (y_buf y)) \/ settled y (r_seq r);
  ri_durable : forall r, In r (y_hist y) -> r_seq r <= durable_cursor (y_fs y) -> settled y (r_seq r);
  ri_sess : forall r, In r (y_hist y) -> r_seq r <= fs_cursor (y_fs y) ->
    settled y (r_seq r) \/ In (r_seq r) (map SF_Seq (fs_batch (y_fs y)));
  ri_qsorted : StronglySorted Z.lt (map Seq (y_queue y));
  ri_qrange : Forall (fun sf => fs_cursor (y_fs y) < Seq sf <= high y) (y_queue y);
  ri_queue : forall r sf, In sf (y_queue y) -> In r (y_hist y) ->
    fs_cursor (y_fs y) < r_seq r <= Seq sf ->
    settled y (r_seq r) \/ In (r_seq r) (map Seq (y_queue y));
  ri_bounds : fs_cursor (y_fs y) <= high y /\ durable_cursor (y_fs y) <= high y;
  ri_last : forall sf, last (fs_batch (y_fs y)) = Some sf -> fs_cursor (y_fs y) = SF_Seq sf
}.

(** The part about the pump's log. *)
Record log_inv (y : sys) : Prop := {
  li_frames : Forall2 holds (y_hist y) (written_frames (y_log y));
  li_window : exists wh, represents (y_win y) wh /\ forall s, In s wh -> In s (written_seqs (y_log y));
  li_actions : forall en, In en (y_log y) ->
    en_actions en = expected_actions (en_msg en) (en_outcome en) /\
    (en_outcome en = Duplicate -> In (FM_Seq (en_msg en)) (written_seqs (y_log y)))
}.

(** The lost counter since the last open. *)
Definition lost_inv (y : sys) : Prop :=
  lostUnsent (y_buf y) mod 2 ^ 64
  = (Z.of_nat (length (y_lost y)) - Z.of_nat (y_lost0 y)) mod 2 ^ 64.

(** ** One write *)

Context `{!FrameCodecLaws} `{!FrameDBLaws D}.

Lemma sorted_take_drop k (l : list row) x y :
  StronglySorted Z.lt (map r_seq l) -> In x (take k l) -> In y (drop k l) -> r_seq x < r_seq y.
Proof.
  revert k. induction l as [|a l IH]; intros k Hs Hx Hy; [destruct k; destruct Hx|].
  destruct k as [|k]; [destruct Hx|]. inversion Hs as [|? ? Hs' Ha]; subst. cbn in Hx, Hy.
  destruct Hx as [<-|Hx]; [|eauto].
  rewrite Forall_forall in Ha. apply Ha, list_elem_of_In, in_map.
  rewrite <- (take_drop k l). apply in_or_app. auto.
Qed.

(** What a successful write does to the rows, in the terms of the ghosts. *)
Lemma Write_rows (b b' : Buffer D) f : buf_ok b -> Write b f = (b', None) ->
  exists r k, holds r f /\ i_high (durable (db b)) < r_seq r /\ i_high (durable (db b')) = r_seq r /\
    stored b' = drop k (stored b) ++ [r] /\
    i_cursor (durable (db b')) = i_cursor (durable (db b)) /\ buf_ok b' /\
    new_rows b b' = [r] /\
    new_lost b b' = map r_seq (List.filter (fun x => negb (delivered b x)) (take k (stored b))) /\
    lostUnsent b' mod 2 ^ 64 = (lostUnsent b + Z.of_nat (length (new_lost b b'))) mod 2 ^ 64.
Proof.
  intros Hok HW. destruct (Write_ok_spec _ _ _ Hok HW) as (wire & seq & Hm & Hseq & Hdur & Hok' & Hb').
  pose proof Hok as (_ & (Hs & Hf & Hh) & Hcap).
  set (r := mk_row seq (frame_values f wire)) in *.
  set (k := surplus (capacity b) (stored b ++ [r])).
  assert (k <= length (stored b))%nat as Hk by (unfold k, surplus; rewrite length_app; cbn [length]; lia).
  assert (stored b' = drop k (stored b) ++ [r]) as Hst.
  { unfold stored at 1. rewrite Hdur. cbn [i_rows]. unfold kept. fold k. rewrite drop_app_le; auto. }
  assert (evicted (capacity b) (stored b ++ [r]) = take k (stored b)) as Hev
    by (unfold evicted; fold k; rewrite take_app_le; auto).
  assert (forall x, In x (stored b) -> r_seq x <= i_high (durable (db b))) as Hle.
  { intros x Hx. rewrite Forall_forall in Hf. apply list_elem_of_In in Hx. specialize (Hf x Hx).
    simpl in Hf. lia. }
  assert (new_lost b b' = map r_seq (List.filter (fun x => negb (delivered b x)) (take k (stored b)))) as Hl.
  { unfold new_lost. f_equal. rewrite <- (take_drop k (stored b)) at 1. rewrite List.filter_app.
    rewrite (filter_none _ (drop k (stored b))), app_nil_r.
    - apply filter_ext_in. intros x Hx. assert (is_stored b' x = false) as ->; [|reflexivity].
      apply not_true_is_false. intros E. apply existsb_exists in E as (z & Hz & Ez). bools.
      rewrite Hst in Hz. apply in_app_or in Hz as [Hz|[<-|[]]].
      + pose proof (sorted_take_drop _ _ _ _ Hs Hx Hz). lia.
      + assert (In x (stored b)) as Hx' by (rewrite <- (take_drop k (stored b)); apply in_or_app; auto).
        specialize (Hle x Hx'). cbn in Ez. lia.
    - intros x Hx. assert (is_stored b' x = true) as ->; [|reflexivity].
      apply existsb_exists. exists x. rewrite Hst. split; [apply in_or_app; auto | apply Z.eqb_refl]. }
  exists r, k. split; [apply decode_written; assumption|]. split; [cbn; lia|].
  split; [rewrite Hdur; reflexivity|]. split; [exact Hst|]. split; [rewrite Hdur; reflexivity|].
  split; [assumption|]. split; [|split; [exact Hl|]].
  - unfold new_rows. rewrite Hst, List.filter_app, filter_none; cbn.
    + destruct (Z.ltb_spec (i_high (durable (db b))) seq); [reflexivity | lia].
    + intros x Hx. apply Z.ltb_ge, Hle. rewrite <- (take_drop k (stored b)). apply in_or_app. auto.
  - rewrite Hl, length_map. rewrite Hb'. cbn [lostUnsent note_written].
    rewrite add_if_positive by apply count_nonneg. rewrite Hev. reflexivity.
Qed.

Lemma quiet_ghosts (b b' : Buffer D) : buf_ok b -> durable (db b') = durable (db b) ->
  new_rows b b' = [] /\ new_lost b b' = [].
Proof.
  intros (_ & (_ & Hf & _) & _) Hd. rewrite Forall_forall in Hf. unfold new_rows, new_lost, stored.
  rewrite Hd. split.
  - apply filter_none. intros x Hx. apply Z.ltb_ge. apply list_elem_of_In in Hx.
    specialize (Hf x Hx). simpl in Hf. lia.
  - rewrite filter_none; [reflexivity|]. intros x Hx.
    assert (is_stored b' x = true) as ->; [|reflexivity].
    apply existsb_exists. exists x. unfold stored. rewrite Hd. split; [assumption | apply Z.eqb_refl].
Qed.

(** ** Rows: each step keeps the invariant *)

(** A step that leaves the durable contents and the session's bookkeeping. *)
Lemma rows_inv_eq (y y' : sys) : rows_inv y -> buf_ok (y_buf y') ->
  durable (db (y_buf y')) = durable (db (y_buf y)) ->
  fs_cursor (y_fs y') = fs_cursor (y_fs y) -> fs_batch (y_fs y') = fs_batch (y_fs y) ->
  y_queue y' = y_queue y -> y_hist y' = y_hist y -> (forall s, settled y s -> settled y' s) -> rows_inv y'.
Proof.
  intros [Hok0 I1 I2 I3 I4 I5 I6 I7 I8 I9 I10 I11] Hok Hd Hc Hb Hq Hh Hs. unfold y_buf, durable_cursor, high, stored in *.
  constructor; unfold durable_cursor, high, stored, y_buf in *; rewrite ?Hd, ?Hc, ?Hb, ?Hq, ?Hh; auto.
  - intros r Hr. destruct (I4 r Hr); auto.
  - intros r Hr Hle. destruct (I6 r Hr Hle); auto.
  - intros r sf Hsf Hr Hle. destruct (I9 r sf Hsf Hr Hle); auto.
Qed.

Lemma settled_same y y' : y_rounds y' = y_rounds y -> y_lost y' = y_lost y -> (forall s, settled y s -> settled y' s).
Proof. unfold settled. intros -> ->. auto. Qed.
#[local] Hint Extern 1 (settled _ _) => (eapply settled_same; [| |eassumption]) : core.
#[local] Hint Extern 1 (forall s, settled _ s -> settled _ s) => (apply settled_same) : core.

Lemma rows_inv_same (y y' : sys) : rows_inv y -> y_fs y' = y_fs y -> y_queue y' = y_queue y ->
  y_hist y' = y_hist y -> (forall s, settled y s -> settled y' s) -> rows_inv y'.
Proof.
  intros Hinv Ef. intros. apply (rows_inv_eq y); unfold y_buf; rewrite ?Ef; auto. apply Hinv.
Qed.

Lemma settled_mono y y' s : (forall x, In x (answered (y_rounds y)) -> In x (answered (y_rounds y'))) ->
  (forall x, In x (y_lost y) -> In x (y_lost y')) -> settled y s -> settled y' s.
Proof. unfold settled. intuition. Qed.

Lemma rows_write y y' b' f : rows_inv y -> Write (y_buf y) f = (b', None) ->
  y_fs y' = set_buf (y_fs y) b' -> y_queue y' = y_queue y -> y_rounds y' = y_rounds y ->
  y_hist y' = y_hist y ++ new_rows (y_buf y) b' -> y_lost y' = y_lost y ++ new_lost (y_buf y) b' ->
  rows_inv y'.
Proof.
  intros [Hok Hsort Hhigh Hsub Hgone Hdur Hsess Hqs Hqr Hq Hb Hlast] HW Efs Eq Ea Eh El.
  destruct (Write_rows _ _ _ Hok HW) as (r & k & _ & Hr1 & Hr2 & Hst & Hcur & Hok' & Hnr & Hnl & _).
  rewrite Hnr in Eh. unfold high, y_buf in *.
  assert (durable_cursor (set_buf (y_fs y) b') = durable_cursor (y_fs y)) as Hdc
    by (unfold durable_cursor, cursor_of; cbn; rewrite Hcur; reflexivity).
  assert (forall s, settled y s -> settled y' s) as Hmono.
  { intros x. apply settled_mono; [rewrite Ea; auto | rewrite El; intros; apply in_or_app; auto]. }
  assert (forall x, In x (y_hist y') -> In x (y_hist y) \/ x = r) as Hin.
  { intros x. rewrite Eh. intros Hx. apply in_app_or in Hx as [Hx|[<-|[]]]; auto. }
  constructor; unfold high, y_buf; rewrite ?Efs, ?Hdc, ?Eq, ?Eh; cbn -[durable_cursor]; auto.
  - rewrite map_app. apply sorted_snoc; [assumption|]. apply Forall_map.
    eapply Forall_impl; [exact Hhigh|]. cbn. lia.
  - rewrite Hr2. apply Forall_app. split; [eapply Forall_impl; [exact Hhigh|]; cbn; lia|].
    constructor; [|constructor]. destruct Hok as (_ & (_ & _ & ?) & _). lia.
  - intros x Hx. rewrite Hst in Hx. apply in_or_app. apply in_app_or in Hx as [Hx|Hx]; [left|auto].
    apply Hsub. unfold y_buf. rewrite <- (take_drop k (stored (fs_buf (y_fs y)))). apply in_or_app. auto.
  - intros x Hx. rewrite <- Eh in Hx. apply Hin in Hx as [Hx| ->].
    2:{ left. rewrite Hst. apply in_or_app. right. left. reflexivity. }
    destruct (Hgone x Hx) as [Hx'|Hx']; [|right; auto].
    rewrite <- (take_drop k (stored (fs_buf (y_fs y)))) in Hx'. apply in_app_or in Hx' as [Hx'|Hx'].
    + right. destruct (delivered (fs_buf (y_fs y)) x) eqn:Ed.
      * apply Hmono, Hdur; [assumption|]. unfold delivered, acked_row in Ed. bools. exact Ed.
      * right. rewrite El. apply in_or_app. right. rewrite Hnl. apply in_map, filter_In.
        rewrite Ed. auto.
    + left. rewrite Hst. apply in_or_app. auto.
  - intros x Hx Hle. rewrite <- Eh in Hx. apply Hin in Hx as [Hx| ->]; [auto|]. lia.
  - intros x Hx Hle. rewrite <- Eh in Hx. apply Hin in Hx as [Hx| ->].
    + destruct (Hsess x Hx Hle); auto.
    + lia.
  - eapply Forall_impl; [exact Hqr|]. cbn. lia.
  - intros x sf Hsf Hx Hle. rewrite <- Eh in Hx. apply Hin in Hx as [Hx| ->].
    + destruct (Hq x sf Hsf Hx Hle); auto.
    + rewrite Forall_forall in Hqr. apply list_elem_of_In in Hsf. specialize (Hqr sf Hsf).
      simpl in Hqr. lia.
  - lia.
Qed.

Lemma checkpoint_high (st st' : fstate D S) r : buf_ok (fs_buf st) -> checkpoint st = (st', r) ->
  i_high (durable (db (fs_buf st'))) = i_high (durable (db (fs_buf st))).
Proof.
  intros (Hi & _). unfold checkpoint. destruct (fs_batch st) as [|s0 l]; [intros [= <- _]; reflexivity|].
  destruct (sink_Checkpoint (fs_sink st)) as [k [acc|]]; [|intros [= <- _]; reflexivity].
  destruct (ApplyAck (s0 :: l) acc) as [nc dr]. unfold Advance.
  rewrite (proj1 (record_drifts_db _ _)).
  match goal with |- context [q_put_cursor ?d ?c] => destruct (q_put_cursor d c) as [d' []] eqn:E end;
    intros [= <- _]; cbn.
  - apply put_cursor_ok in E as [Hv Hd]; [|exact Hi]. rewrite Hd, Hv. cbn. rewrite Hi. reflexivity.
  - apply put_cursor_err in E as [_ Hd]. rewrite Hd. reflexivity.
Qed.

Lemma rows_clear_queue y y' : rows_inv y -> y_fs y' = y_fs y -> y_queue y' = [] ->
  y_hist y' = y_hist y -> (forall s, settled y s -> settled y' s) -> rows_inv y'.
Proof.
  intros [I0 I1 I2 I3 I4 I5 I6 I7 I8 I9 I10 I11] Ef Eq Eh Hs. unfold high, y_buf in *.
  constructor; unfold high, y_buf; rewrite ?Ef, ?Eq, ?Eh; auto; try solve [constructor | intros ? ? []].
  - intros r Hr. destruct (I4 r Hr); auto.
  - intros r Hr Hle. destruct (I6 r Hr Hle); auto.
Qed.

Lemma answered_app l l' : answered (l ++ l') = answered l ++ answered l'.
Proof. unfold answered. rewrite map_app, concat_app, map_app. reflexivity. Qed.

Lemma checkpoint_acked (st st' : fstate D S) : checkpoint st = (st', None) -> fs_batch st <> [] ->
  answered (acks st) = map SF_Seq (fs_batch st).
Proof.
  unfold checkpoint, acks, answered. destruct (fs_batch st) as [|s0 l]; [congruence|].
  destruct (sink_Checkpoint (fs_sink st)) as [k [acc|]]; [|discriminate]. intros _ _. cbn. rewrite app_nil_r. reflexivity.
Qed.

Lemma rows_tick y y' st' r : rows_inv y -> checkpoint (y_fs y) = (st', r) ->
  y_fs y' = st' -> y_queue y' = y_queue y -> y_hist y' = y_hist y -> y_lost y' = y_lost y ->
  y_rounds y' = y_rounds y ++ acks (y_fs y) -> rows_inv y'.
Proof.
  intros Hinv E Ef Eq Eh El Ea.
  assert (forall x, settled y x -> settled y' x) as Hmono.
  { intros x. apply settled_mono; [rewrite Ea, answered_app; intros; apply in_or_app; auto | rewrite El; auto]. } pose proof (ri_ok _ Hinv) as Hok. unfold y_buf in Hok.
  pose proof (checkpoint_high _ _ _ Hok E) as Hhigh.
  destruct (checkpoint_spec _ _ _ Hok E) as (Hok' & Hst & _ & Hr).
  destruct r as [e|].
  { destruct Hr as (Hb & Hd & Hc). apply (rows_inv_eq y); unfold y_buf; rewrite ?Ef; auto.
    destruct Hc as [|(sf & Hl & Hc)]; [assumption|]. rewrite (ri_last _ Hinv sf Hl). assumption. }
  destruct Hr as (Hb & [[Hb0 ->]|(sf & Hl & Hc & Hd)]).
  { apply (rows_inv_eq y); unfold y_buf; rewrite ?Ef; auto. }
  assert (fs_batch (y_fs y) <> []) as Hne by (intros E0; rewrite E0 in Hl; discriminate).
  pose proof (checkpoint_acked _ _ E Hne) as Hac.
  assert (fs_cursor st' = fs_cursor (y_fs y)) as Hc' by (rewrite (ri_last _ Hinv sf Hl); assumption).
  assert (forall x, In x (y_hist y) -> r_seq x <= fs_cursor (y_fs y) -> settled y' (r_seq x)) as Hset.
  { intros x Hx Hle. destruct (ri_sess _ Hinv x Hx Hle); [auto|]. left. rewrite Ea, answered_app, Hac. apply in_or_app. auto. }
  destruct Hinv as [_ Hsort Hh Hsub Hgone Hdur Hsess Hqs Hqr Hq Hbd Hlast].
  unfold high, y_buf in *.
  constructor; unfold high, y_buf; rewrite ?Ef, ?Eq, ?Eh, ?Hc', ?Hhigh, ?Hst; auto.
  - intros x Hx. destruct (Hgone x Hx); auto.
  - intros x Hx Hle. rewrite Hd, <- Hc, Hc' in Hle. auto.
  - intros x sf' Hsf Hx Hle. destruct (Hq x sf' Hsf Hx Hle); auto.
  - rewrite Hd, <- Hc, Hc'. lia.
  - rewrite Hb. discriminate.
Qed.

Lemma rows_send y y' sf q st' r : rows_inv y -> y_queue y = sf :: q ->
  send_one cfg (y_fs y) sf = (st', r) -> y_fs y' = st' ->
  y_queue y' = match r with None => q | Some _ => [] end -> y_hist y' = y_hist y ->
  y_lost y' = y_lost y -> y_rounds y' = y_rounds y ++ send_acks (y_fs y) sf -> rows_inv y'.
Proof.
  intros Hinv Eq0 E Ef Eq Eh El Ea. unfold send_one in E. unfold send_acks in Ea.
  destruct (sink_Send (fs_sink (y_fs y)) (Frame sf)) as [k []].
  2:{ injection E as <- <-. cbn in Ea. rewrite app_nil_r in Ea.
      apply (rows_clear_queue {| y with y_fs := y_fs y' |}); [|auto..|apply settled_same; auto].
      apply (rows_inv_eq y); unfold y_buf; cbn; rewrite ?Ef; auto. apply Hinv. }
  fold (sent_of sf) in E. fold (with_sent (y_fs y) k sf) in E. cbn [andb] in Ea. set (st1 := with_sent (y_fs y) k sf) in *.
  set (y1 := {| y with y_fs := st1; y_queue := q |}).
  assert (rows_inv y1) as Hinv1.
  { destruct Hinv as [Hok Hsort Hh Hsub Hgone Hdur Hsess Hqs Hqr Hq Hbd Hlast].
    rewrite Eq0 in *. inversion Hqs as [|? ? Hqs' Hqlt]; subst. inversion Hqr as [|? ? Hsf Hqr']; subst.
    rewrite Forall_map in Hqlt. rewrite Forall_forall in Hqlt.
    assert (forall x, In x (y_hist y) -> fs_cursor (y_fs y) < r_seq x <= Seq sf ->
            settled y (r_seq x) \/ r_seq x = Seq sf) as Hnext.
    { intros x Hx Hle. destruct (Hq x sf (or_introl eq_refl) Hx Hle) as [?|[?|Hin]]; auto.
      apply in_map_iff in Hin as (z & Ez & Hz). apply list_elem_of_In in Hz. specialize (Hqlt z Hz).
      simpl in Hqlt. lia. }
    constructor; cbn; auto.
    - intros x Hx Hle. rewrite map_app. destruct (Z.le_gt_cases (r_seq x) (fs_cursor (y_fs y))).
      + destruct (Hsess x Hx) as [?|?]; auto. right. apply in_or_app. auto.
      + destruct (Hnext x Hx ltac:(lia)) as [?|Hx']; auto. right. apply in_or_app. right. left. auto.
    - apply Forall_forall. intros z Hz. rewrite Forall_forall in Hqr'. specialize (Hqr' z Hz).
      specialize (Hqlt z Hz). change (high y1) with (high y). simpl in *. lia.
    - intros x z Hz Hx Hle. destruct (Hq x z (or_intror Hz) Hx ltac:(lia)) as [?|[?|?]]; auto. lia.
    - change (high y1) with (high y). change (durable_cursor st1) with (durable_cursor (y_fs y)). lia.
    - intros x. rewrite last_snoc. intros [= <-]. reflexivity. }
  assert (fs_batch st1 <> []) as Hne by (unfold st1; cbn; destruct (fs_batch (y_fs y)); discriminate).
  destruct (_ <=? _).
  - set (y2 := {| y1 with y_fs := st'; y_rounds := y_rounds y1 ++ acks st1 |}).
    assert (rows_inv y2) as Hinv2 by (apply (rows_tick y1 y2 st' r Hinv1 E); reflexivity).
    destruct r as [e|]; [apply (rows_clear_queue y2) | apply (rows_inv_same y2)]; auto.
  - injection E as <- <-. rewrite app_nil_r in Ea. apply (rows_inv_same y1); auto.
Qed.

Lemma decode_rows_seqs l : forall fs, decode_rows l = Some fs -> map Seq fs = map r_seq l.
Proof.
  induction l as [|r l IH]; intros fs; cbn [decode_rows]; [intros [= <-]; reflexivity|].
  destruct (decode_row r) as [sf|] eqn:Er; [|discriminate].
  destruct (decode_rows l); [|discriminate]. intros [= <-]. cbn.
  rewrite (decode_row_seq _ _ Er). f_equal. auto.
Qed.

Lemma sorted_filter (p : row -> bool) l : StronglySorted Z.lt (map r_seq l) ->
  StronglySorted Z.lt (map r_seq (List.filter p l)).
Proof.
  induction l as [|a l IH]; intros Hs; [constructor|]. inversion Hs as [|? ? Hs' Ha]; subst.
  cbn. destruct (p a); [|auto]. cbn. constructor; [auto|].
  rewrite Forall_map in *. rewrite Forall_forall in *. intros x Hx. apply Ha.
  apply list_elem_of_In. apply list_elem_of_In, filter_In in Hx. apply Hx.
Qed.

Lemma sorted_take n (l : list row) : StronglySorted Z.lt (map r_seq l) ->
  StronglySorted Z.lt (map r_seq (take n l)).
Proof.
  revert n. induction l as [|a l IH]; intros n Hs; [destruct n; constructor|].
  destruct n; [constructor|]. inversion Hs as [|? ? Hs' Ha]; subst. cbn. constructor; [auto|].
  rewrite Forall_map in *. apply Forall_take. assumption.
Qed.

Lemma rows_read y y' b' res : rows_inv y -> ReadBatch (y_buf y) (fs_cursor (y_fs y)) 32 = (b', res) ->
  y_fs y' = set_buf (y_fs y) b' -> y_queue y' = match res with Ok fs => fs | Err _ => [] end ->
  y_hist y' = y_hist y -> y_rounds y' = y_rounds y -> y_lost y' = y_lost y -> rows_inv y'.
Proof.
  intros Hinv E Ef Eq Eh Ea El. pose proof (ri_ok _ Hinv) as Hok.
  apply ReadBatch_spec in E as (Hok' & Hd & _ & Hres); [|assumption|lia].
  set (y1 := {| y with y_fs := y_fs y'; y_queue := [] |}).
  assert (rows_inv y1) as Hinv1.
  { apply (rows_clear_queue {| y with y_fs := y_fs y' |}); auto.
    apply (rows_inv_eq y); unfold y_buf; cbn; rewrite ?Ef; auto. }
  destruct res as [fs|e]; [|apply (rows_inv_same y1); auto].
  destruct Hok as (_ & (Hs & Hr & _) & _). pose proof (decode_rows_seqs _ _ Hres) as Hseq.
  fold (stored (y_buf y)) in Hs, Hr. set (c := fs_cursor (y_fs y)) in *.
  pose proof (sorted_filter (fun r => c <? r_seq r) _ Hs) as Hsf.
  assert (stored (y_buf y') = stored (y_buf y)) as Hst
    by (unfold y_buf, stored; rewrite Ef; cbn; rewrite Hd; reflexivity).
  assert (high y' = high y) as Hhg by (unfold high, y_buf; rewrite Ef; cbn; rewrite Hd; reflexivity).
  assert (fs_cursor (y_fs y') = c) as Hc by (rewrite Ef; reflexivity).
  destruct Hinv1 as [I1 I2 I3 I4 I5 I6 I7 _ _ _ I8 I9].
  unfold y1, settled in *. cbn -[durable_cursor high] in *.
  constructor; unfold settled; rewrite ?Eq, ?Eh, ?Ea, ?El; auto.
  - rewrite Hseq. apply sorted_take. assumption.
  - rewrite Hc, Hhg. apply (Forall_map Seq (fun s => c < s <= high y)).
    rewrite Hseq. apply Forall_map, Forall_take, Forall_forall.
    intros x Hx. apply list_elem_of_In, filter_In in Hx as [Hx Hlt]. bools.
    rewrite Forall_forall in Hr. apply list_elem_of_In in Hx. specialize (Hr x Hx).
    unfold high. simpl in Hr. lia.
  - rewrite Hc. intros x sf Hsf' Hx Hle. destruct (I5 x Hx) as [Hin|?]; [|auto]. right.
    unfold y_buf in Hin. cbn in Hin. change (In x (stored (y_buf y'))) in Hin. rewrite Hst in Hin.
    rewrite Hseq. apply in_map.
    assert (In x (List.filter (fun r => c <? r_seq r) (stored (y_buf y)))) as Hxf
      by (apply filter_In; split; [assumption | apply Z.ltb_lt; lia]).
    assert (In (Seq sf) (map r_seq (selected c 32 (stored (y_buf y))))) as Hsfin
      by (rewrite <- Hseq; apply in_map; assumption).
    apply in_map_iff in Hsfin as (z & Ez & Hz). unfold selected in *.
    rewrite <- (take_drop (Z.to_nat 32)) in Hxf. apply in_app_or in Hxf as [?|Hxd]; [assumption|].
    pose proof (sorted_take_drop _ _ _ _ Hsf Hz Hxd). lia.
Qed.

Lemma rows_session y y' st k : rows_inv y -> buf_ok (fs_buf st) ->
  durable (db (fs_buf st)) = durable (db (y_buf y)) ->
  y_fs y' = newSession (with_sink st k) -> y_queue y' = [] -> y_hist y' = y_hist y ->
  y_rounds y' = y_rounds y -> y_lost y' = y_lost y -> rows_inv y'.
Proof.
  intros [Hok Hsort Hh Hsub Hgone Hdur Hsess _ _ _ Hbd _] Hst Hd Ef Eq Eh Ea El.
  destruct (newSession_spec (with_sink st k) Hst) as (Hb & _ & Hok' & Hd' & Hc).
  cbn [with_sink fs_buf] in Hd'. rewrite Hd in Hd'.
  assert (durable_cursor (with_sink st k) = durable_cursor (y_fs y)) as Hdc
    by (unfold durable_cursor; cbn; rewrite Hd; reflexivity).
  assert (durable_cursor (y_fs y') = durable_cursor (y_fs y)) as Hdc'
    by (unfold durable_cursor; rewrite Ef, Hd'; reflexivity).
  rewrite Hdc in Hc. rewrite <- Ef in *.
  assert (high y' = high y) as Hhg by (unfold high, y_buf; rewrite Hd'; reflexivity).
  assert (stored (y_buf y') = stored (y_buf y)) as Hstr by (unfold y_buf, stored in *; rewrite Hd'; reflexivity).
  destruct Hok as (_ & (_ & _ & H0) & _). fold (high y) in H0.
  constructor; unfold settled in *; rewrite ?Hb, ?Eq, ?Eh, ?Ea, ?El, ?Hdc', ?Hhg, ?Hstr; auto;
    try (constructor; fail); try (intros ? ? []; fail); try discriminate.
  - intros x Hx Hle. left. destruct Hc as [Hc|Hc]; [apply Hdur; [assumption | lia]|].
    rewrite Forall_forall in Hh. apply list_elem_of_In in Hx. specialize (Hh x Hx). simpl in Hh. lia.
  - lia.
Qed.

Lemma rows_step y y' : rows_inv y -> step y y' -> rows_inv y'.
Proof.
  intros Hinv Hstep. pose proof (ri_ok _ Hinv) as Hok. destruct Hstep.
  - unfold pump_step in *. destruct (negb (FM_Seq fm =? 0) && contains (y_win y) (FM_Seq fm)).
    + simplify_eq. destruct (quiet_ghosts (y_buf y) (RecordDuplicate (y_buf y)) Hok eq_refl) as [E1 E2].
      rewrite E1, E2, !app_nil_r. apply (rows_inv_eq y); auto.
    + destruct (Write (y_buf y) (FM_Frame fm)) as [b1 [e|]] eqn:EW; simplify_eq.
      * destruct (Write_err_spec _ _ _ _ (proj1 Hok) EW) as (Hb & Hd & Hi).
        destruct (quiet_ghosts (y_buf y) (RecordWriteError b1) Hok Hd) as [E1 E2].
        rewrite E1, E2, !app_nil_r. apply (rows_inv_eq y); auto.
        unfold y_buf. cbn. destruct Hok as (_ & Him & Hcap). split; [exact Hi|].
        cbn. rewrite Hd. split; [exact Him | rewrite Hb; exact Hcap].
      * eapply rows_write; try exact EW; auto.
  - eapply rows_read; eauto.
  - eapply rows_send; eauto.
  - eapply rows_tick; eauto.
  - eapply rows_session; eauto.
  - destruct (rollback_ok (db (y_buf y))) as [Rv Rd]. destruct Hok as (_ & Him & Hcap).
    eapply rows_session; [exact Hinv | | | reflexivity..].
    + split; [unfold idle; cbn; congruence|]. cbn. rewrite Rd. auto.
    + exact Rd.
Qed.

(** ** The pump's log and the lost counter *)

Lemma written_seqs_snoc log en : written_seqs (log ++ [en]) = written_seqs [en] ++ written_seqs log.
Proof.
  unfold written_seqs. rewrite List.filter_app, map_app, List.filter_app, rev_app_distr. reflexivity.
Qed.

Lemma written_frames_snoc log en : written_frames (log ++ [en]) = written_frames log ++ written_frames [en].
Proof. unfold written_frames. rewrite List.filter_app, map_app. reflexivity. Qed.

Lemma seen_in hist s : seen hist s = true -> In s hist.
Proof. intros E. apply existsb_exists in E as (x & Hx & Ex). bools. subst. assumption. Qed.

Lemma log_pump y y' fm w' b' o acts : rows_inv y -> log_inv y -> in_u64 (FM_Seq fm) ->
  pump_step (y_win y, y_buf y) fm = ((w', b'), o, acts) ->
  let en := {| en_msg := fm; en_outcome := o; en_actions := acts |} in
  y_win y' = w' -> y_hist y' = y_hist y ++ new_rows (y_buf y) b' -> y_log y' = y_log y ++ [en] ->
  log_inv y'.
Proof.
  intros Hinv [Hfr (wh & Hw & Hsub) Hact] Hu E en Ew Eh El.
  pose proof (ri_ok _ Hinv) as Hok.
  assert (forall s, In s (written_seqs (y_log y)) -> In s (written_seqs (y_log y'))) as Hmono
    by (intros; rewrite El, written_seqs_snoc; apply in_or_app; auto).
  assert (en_actions en = expected_actions fm o /\
          (o = Duplicate -> In (FM_Seq fm) (written_seqs (y_log y)))
          /\ Forall2 holds (new_rows (y_buf y) b') (written_frames [en])
          /\ exists wh', represents w' wh' /\ forall s, In s wh' -> In s (written_seqs (y_log y'))) as HH.
  { clear Ew. unfold pump_step in E. rewrite (represents_contains _ wh) in E by assumption.
    unfold expected_actions, en, written_frames in *. cbn [en_actions].
    destruct (negb (FM_Seq fm =? 0) && remembered (sw_n (y_win y)) wh (FM_Seq fm)) eqn:Ed.
    - simplify_eq. destruct (quiet_ghosts (y_buf y) (RecordDuplicate (y_buf y)) Hok eq_refl) as [-> _].
      split; [destruct (FM_Msg fm); reflexivity|]. split; [|split; [constructor | exists wh; auto]].
      intros _. bools. unfold remembered in *. bools. apply Hsub, seen_in. assumption.
    - destruct (Write (y_buf y) (FM_Frame fm)) as [b1 [e|]] eqn:EW; simplify_eq.
      + destruct (Write_err_spec _ _ _ _ (proj1 Hok) EW) as (_ & Hd & _).
        destruct (quiet_ghosts (y_buf y) (RecordWriteError b1) Hok Hd) as [-> _].
        split; [destruct (FM_Msg fm); reflexivity|]. split; [discriminate|].
        split; [constructor | exists wh; auto].
      + destruct (Write_rows _ _ _ Hok EW) as (r & _ & Hh & _ & _ & _ & _ & _ & -> & _).
        split; [destruct (FM_Msg fm); reflexivity|]. split; [discriminate|].
        split; [repeat constructor; assumption|].
        destruct (FM_Seq fm =? 0) eqn:E0; cbn [negb].
        * exists wh. auto.
        * exists (FM_Seq fm :: wh). split; [apply add_represents; assumption|].
          intros s [<-|Hs]; [|auto]. rewrite El, written_seqs_snoc. apply in_or_app. left.
          unfold written_seqs. cbn. rewrite E0. left. reflexivity. }
  destruct HH as (Ha & Hdup & Hnew & Hw').
  constructor.
  - rewrite Eh, El, written_frames_snoc. apply Forall2_app; assumption.
  - rewrite Ew. exact Hw'.
  - intros en' Hin. rewrite El in Hin. apply in_app_or in Hin as [Hin|[<-|[]]].
    + destruct (Hact en' Hin). auto.
    + cbn. auto.
Qed.

Lemma checkpoint_lost (st st' : fstate D S) r : checkpoint st = (st', r) ->
  lostUnsent (fs_buf st') = lostUnsent (fs_buf st).
Proof.
  unfold checkpoint. destruct (fs_batch st) as [|s0 l]; [intros [= <- _]; reflexivity|].
  destruct (sink_Checkpoint (fs_sink st)) as [k [acc|]]; [|intros [= <- _]; reflexivity].
  destruct (ApplyAck (s0 :: l) acc) as [nc dr].
  assert (forall b : Buffer D, lostUnsent (record_drifts b dr) = lostUnsent b) as Hrd.
  { unfold record_drifts. generalize (map_to_list dr) as q. induction q; intros; cbn [fold_left]; [auto|].
    rewrite IHq. reflexivity. }
  unfold Advance. destruct (q_put_cursor _ _) as [d []]; intros [= <- _]; cbn; rewrite Hrd; reflexivity.
Qed.

Lemma lost_step y y' : rows_inv y -> lost_inv y -> step y y' -> lost_inv y'.
Proof.
  intros Hinv Hl Hstep. pose proof (ri_ok _ Hinv) as Hok. unfold lost_inv in *.
  destruct Hstep as [y fm w' b' o acts Hu E | y b' res Hq E | y sf q st' r Hq E | y st' r E | y k | y w k now E];
    cbn.
  - unfold pump_step in *. rewrite length_app, Nat2Z.inj_add.
    destruct (negb (FM_Seq fm =? 0) && contains (y_win y) (FM_Seq fm)).
    + simplify_eq. destruct (quiet_ghosts (y_buf y) (RecordDuplicate (y_buf y)) Hok eq_refl) as [_ ->].
      cbn. rewrite Z.add_0_r. exact Hl.
    + destruct (Write (y_buf y) (FM_Frame fm)) as [b1 [e|]] eqn:EW; simplify_eq.
      * destruct (Write_err_spec _ _ _ _ (proj1 Hok) EW) as (Hb & Hd & _).
        destruct (quiet_ghosts (y_buf y) (RecordWriteError b1) Hok Hd) as [_ ->].
        cbn. rewrite Hb, Z.add_0_r. exact Hl.
      * destruct (Write_rows _ _ _ Hok EW) as (r & k & _ & _ & _ & _ & _ & _ & _ & _ & ->).
        rewrite Z.add_mod, Hl, <- Z.add_mod by lia. f_equal. lia.
  - apply ReadBatch_spec in E as (_ & _ & -> & _); [exact Hl | assumption | lia].
  - unfold send_one in *. destruct (sink_Send _ _) as [k []]; [|simplify_eq; exact Hl].
    destruct (_ <=? _); [|simplify_eq; exact Hl]. apply checkpoint_lost in E.
    unfold y_buf. cbn. rewrite E. exact Hl.
  - apply checkpoint_lost in E. unfold y_buf. cbn. rewrite E. exact Hl.
  - unfold newSession, Cursor, y_buf. cbn. destruct (q_get_cursor _) as [d [[]|]]; exact Hl.
  - unfold newSession, Cursor, y_buf. cbn. destruct (q_get_cursor _) as [d [[]|]]; cbn;
      rewrite Z.sub_diag; reflexivity.
Qed.

(** ** What the sink was given *)

(** Every frame on its way was read from a committed row, and every batch is made
    of frames the sink took. *)
Record sent_inv (y : sys) : Prop := {
  si_queue : forall sf, In sf (y_queue y) -> exists r, In r (y_hist y) /\ decode_row r = Some sf;
  si_sent : forall sf, In sf (fs_sent (y_fs y)) -> exists r, In r (y_hist y) /\ decode_row r = Some sf;
  si_batch : incl (fs_batch (y_fs y)) (map sent_of (fs_sent (y_fs y)));
  si_rounds : incl (List.concat (map fst (y_rounds y))) (map sent_of (fs_sent (y_fs y)))
}.

Lemma decode_rows_in l : forall fs sf, decode_rows l = Some fs -> In sf fs -> exists r, In r l /\ decode_row r = Some sf.
Proof.
  induction l as [|r l IH]; intros fs sf; cbn [decode_rows]; [intros [= <-] []|].
  destruct (decode_row r) eqn:Er; [|discriminate]. destruct (decode_rows l); [|discriminate].
  intros [= <-] [<-|Hin]; [exists r; cbn; auto|]. destruct (IH _ _ eq_refl Hin) as (x & ? & ?). exists x. cbn. auto.
Qed.

Lemma acks_batch (st : fstate D S) : incl (List.concat (map fst (acks st))) (fs_batch st).
Proof.
  unfold acks. destruct (fs_batch st); [intros ? []|]. destruct (snd (sink_Checkpoint (fs_sink st))); [|intros ? []].
  cbn. rewrite app_nil_r. apply incl_refl.
Qed.

(** The same rows, frames sent and batch or less of it. *)
Lemma sent_less y y' l : sent_inv y -> incl (y_hist y) (y_hist y') -> incl (y_queue y') (y_queue y) ->
  fs_sent (y_fs y') = fs_sent (y_fs y) -> incl (fs_batch (y_fs y')) (fs_batch (y_fs y)) ->
  y_rounds y' = y_rounds y ++ l -> incl (List.concat (map fst l)) (fs_batch (y_fs y)) -> sent_inv y'.
Proof.
  intros [Iq Is Ib Ir] Hh Hq Hs Hb Hr Hl. constructor; rewrite ?Hs, ?Hr.
  - intros sf Hin. destruct (Iq sf (Hq _ Hin)) as (r & ? & ?). eauto.
  - intros sf Hin. destruct (Is sf Hin) as (r & ? & ?). eauto.
  - eapply incl_tran; eassumption.
  - rewrite map_app, concat_app. apply incl_app; [assumption|]. eapply incl_tran; eassumption.
Qed.

Lemma checkpoint_shrinks (st st' : fstate D S) r : buf_ok (fs_buf st) -> checkpoint st = (st', r) ->
  fs_sent st' = fs_sent st /\ incl (fs_batch st') (fs_batch st).
Proof.
  intros Hok E. destruct (checkpoint_spec _ _ _ Hok E) as (_ & _ & Hs & Hr). split; [exact Hs|].
  destruct r; destruct Hr as [-> _]; [apply incl_refl | intros ? []].
Qed.

Lemma sent_send y sf q st' r : rows_inv y -> sent_inv y -> y_queue y = sf :: q -> send_one cfg (y_fs y) sf = (st', r) ->
  sent_inv {| y with y_fs := st'; y_queue := match r with None => q | Some _ => [] end;
                     y_rounds := y_rounds y ++ send_acks (y_fs y) sf |}.
Proof.
  intros Hinv Hsi Hq E. unfold send_one in E. unfold send_acks. pose proof (ri_ok _ Hinv) as Hok.
  assert (incl (match r with None => q | Some _ => [] end) (y_queue y)) as Hqi
    by (rewrite Hq; destruct r; [intros ? []|apply incl_tl, incl_refl]).
  destruct (sink_Send (fs_sink (y_fs y)) (Frame sf)) as [k []].
  2:{ injection E as <- <-. eapply (sent_less y _ []); cbn; auto using incl_refl; intros ? []. }
  fold (sent_of sf) in E. fold (with_sent (y_fs y) k sf) in E. cbn [andb]. set (st1 := with_sent (y_fs y) k sf) in *.
  assert (sent_inv {| y with y_fs := st1 |}) as H1.
  { destruct Hsi as [Iq Is Ib Ir]. constructor; cbn; [exact Iq| | |].
    - intros x [Hx|[<-|[]]]%in_app_or; [auto|]. apply Iq. rewrite Hq. left. reflexivity.
    - rewrite map_app. apply incl_app; [apply incl_appl, Ib | apply incl_appr, incl_refl].
    - rewrite map_app. apply incl_appl, Ir. }
  destruct (_ <=? _).
  - destruct (checkpoint_shrinks st1 st' r Hok E) as [Hs Hb].
    eapply (sent_less {| y with y_fs := st1 |} _ (acks st1)); cbn; auto using incl_refl, acks_batch.
  - injection E as <- <-. eapply (sent_less {| y with y_fs := st1 |} _ []); cbn; auto using incl_refl. intros ? [].
Qed.

Lemma session_sent (st : fstate D S) : fs_sent (newSession st) = fs_sent st.
Proof. unfold newSession. destruct (Cursor (fs_buf st)). reflexivity. Qed.
Lemma session_batch (st : fstate D S) : fs_batch (newSession st) = [].
Proof. unfold newSession. destruct (Cursor (fs_buf st)). reflexivity. Qed.

Lemma sent_step y y' : rows_inv y -> sent_inv y -> step y y' -> sent_inv y'.
Proof.
  intros Hinv Hsi Hstep. pose proof (ri_ok _ Hinv) as Hok.
  destruct Hstep as [y fm w' b' o acts Hu E | y b' res Hq E | y sf q st' r Hq E | y st' r E | y k | y w k now E].
  - eapply (sent_less y _ []); cbn; rewrite ?app_nil_r; auto using incl_refl; [apply incl_appl, incl_refl | intros ? []].
  - apply ReadBatch_spec in E as (_ & _ & _ & Hres); [|assumption|lia]. destruct Hsi as [Iq Is Ib Ir].
    constructor; cbn; auto. destruct res as [fs|e]; [|intros ? []]. intros sf Hin.
    destruct (decode_rows_in _ _ _ Hres Hin) as (r & Hr & Ed). exists r. split; [|exact Ed]. apply (ri_sub _ Hinv).
    unfold selected in Hr. apply list_elem_of_In, elem_of_take in Hr as (i & Hi & _).
    apply list_elem_of_lookup_2, list_elem_of_In, filter_In in Hi. apply Hi.
  - apply sent_send; assumption.
  - destruct (checkpoint_shrinks _ _ _ Hok E) as [Hs Hb]. eapply (sent_less y _ (acks (y_fs y))); cbn; auto using incl_refl, acks_batch.
  - eapply (sent_less y _ []); cbn; rewrite ?app_nil_r, ?session_batch, ?session_sent; auto using incl_refl; intros ? [].
  - eapply (sent_less y _ []); cbn; rewrite ?app_nil_r, ?session_batch, ?session_sent; auto using incl_refl; intros ? [].
Qed.

(** ** The drift counters *)

(** A count that came back is a count. *)
Definition plausible (rd : round) : Prop := 0 <= snd rd < 2 ^ 63 /\ Z.of_nat (length (fst rd)) < 2 ^ 63.

Definition drift_in (rounds : list round) (p : string) : Z := zsum (map (fun rd => count (of_point p) (declined rd)) rounds).
Definition drift_all (rounds : list round) : Z := zsum (map (fun rd => Z.of_nat (length (declined rd))) rounds).

(** The counters of [b] are those of [b0] and the drift of [rounds] more. *)
Definition drifted (b0 : Buffer D) (rounds : list round) (b : Buffer D) : Prop :=
  (forall p, default 0 (drifts b !! p) mod 2 ^ 64 = (default 0 (drifts b0 !! p) + drift_in rounds p) mod 2 ^ 64) /\
  driftTotal b mod 2 ^ 64 = (driftTotal b0 + drift_all rounds) mod 2 ^ 64.

Lemma drifted_same (b0 b : Buffer D) : drifts b = drifts b0 -> driftTotal b = driftTotal b0 -> drifted b0 [] b.
Proof. intros E1 E2. split; [intros p|]; rewrite ?E1, ?E2; cbn; rewrite Z.add_0_r; reflexivity. Qed.

Lemma zsum_app l l' : zsum (l ++ l') = zsum l + zsum l'.
Proof. unfold zsum. induction l as [|x l IH]; cbn; [reflexivity|]. rewrite IH. lia. Qed.

Lemma drifted_app (b0 b b' : Buffer D) l l' : drifted b0 l b -> drifted b l' b' -> drifted b0 (l ++ l') b'.
Proof.
  intros [H1 H2] [H3 H4]. unfold drifted, drift_in, drift_all in *. split; [intros p|]; rewrite map_app, zsum_app, Z.add_assoc.
  - rewrite H3, <- Zplus_mod_idemp_l, H1, Zplus_mod_idemp_l. reflexivity.
  - rewrite H4, <- Zplus_mod_idemp_l, H2, Zplus_mod_idemp_l. reflexivity.
Qed.

Lemma declined_sum batch acc : plausible (batch, acc) ->
  drift_sum (snd (ApplyAck batch acc)) = Z.of_nat (length (declined (batch, acc))).
Proof.
  intros [Ha Hlen]. cbn in *. unfold declined. cbn [fst snd]. rewrite length_drop.
  destruct (Z.le_gt_cases acc (Z.of_nat (length batch))); [rewrite ApplyAck_drift_sum by lia; lia|].
  assert (drift_sum ∅ = 0) as Hz by reflexivity.
  unfold ApplyAck. destruct (last batch); [|cbn [snd]; lia]. rewrite i64_small by (unfold in_i64; lia).
  destruct (Z.leb_spec (Z.of_nat (length batch) - acc) 0); [cbn [snd]; lia|lia].
Qed.

Lemma checkpoint_drifted (st st' : fstate D S) r : checkpoint st = (st', r) -> Forall plausible (acks st) ->
  drifted (fs_buf st) (acks st) (fs_buf st').
Proof.
  unfold checkpoint, acks. destruct (fs_batch st) as [|s0 l]; [intros [= <- _] _; apply drifted_same; reflexivity|].
  destruct (sink_Checkpoint (fs_sink st)) as [k [acc|]]; cbn [snd];
    [|intros [= <- _] _; apply drifted_same; reflexivity].
  intros E Hp. inversion Hp as [|? ? Hpl _]; subst. pose proof (declined_sum _ _ Hpl) as Hsum.
  assert (forall p, default 0 (snd (ApplyAck (s0 :: l) acc) !! p) = count (of_point p) (declined (s0 :: l, acc))) as Hpt.
  { intros p. destruct Hpl as [Ha Hlen]. cbn [fst snd] in Ha, Hlen. destruct (last (s0 :: l)) as [sf|] eqn:El;
      [|apply last_None in El; discriminate].
    destruct (ApplyAck_exact _ acc sf p El Hlen ltac:(lia)) as [_ ->]. unfold declined. cbn [fst snd]. rewrite Z.max_r by lia. reflexivity. }
  destruct (ApplyAck (s0 :: l) acc) as [nc dr]. cbn [snd] in Hsum, Hpt.
  match type of E with context [record_drifts ?x _] => set (b1 := x) in * end.
  assert (exists d, fs_buf st' = set_db (record_drifts b1 dr) d) as (d & ->)
    by (unfold Advance in E; destruct (q_put_cursor _ _) as [d []]; injection E as <- _; eexists; reflexivity).
  unfold drifted, drift_in, drift_all. cbn [map zsum fold_right set_db drifts driftTotal]. split.
  - intros p. rewrite record_drifts_point, Hpt, Z.add_0_r. reflexivity.
  - rewrite record_drifts_total, Hsum, Z.add_0_r. reflexivity.
Qed.

Lemma send_drifted (st st' : fstate D S) sf r : send_one cfg st sf = (st', r) -> Forall plausible (send_acks st sf) ->
  drifted (fs_buf st) (send_acks st sf) (fs_buf st').
Proof.
  unfold send_one, send_acks. destruct (sink_Send (fs_sink st) (Frame sf)) as [k []];
    [|intros [= <- _] _; apply drifted_same; reflexivity].
  fold (sent_of sf). fold (with_sent st k sf). cbn [andb]. destruct (_ <=? _); [|intros [= <- _] _; apply drifted_same; reflexivity].
  apply (checkpoint_drifted (with_sent st k sf)).
Qed.

Lemma Write_drifts (b b' : Buffer D) f r : Write b f = (b', r) -> drifts b' = drifts b /\ driftTotal b' = driftTotal b.
Proof.
  unfold Write. repeat case_match; intros [= <- <-]; split; reflexivity.
Qed.

Lemma pump_drifts w (b : Buffer D) fm w' b' o acts : pump_step (w, b) fm = ((w', b'), o, acts) ->
  drifts b' = drifts b /\ driftTotal b' = driftTotal b.
Proof.
  unfold pump_step. destruct (_ && _); [intros [= _ <- _ _]; split; reflexivity|].
  destruct (Write b (FM_Frame fm)) as [b1 r] eqn:E. apply Write_drifts in E as [E1 E2].
  destruct r; intros [= _ <- _ _]; cbn; auto.
Qed.

Definition empty_buf (b : Buffer D) : Buffer D := new_buffer (db b) (capacity b) 0.

(** The counters since the last open. *)
Definition drift_inv (y : sys) : Prop :=
  drifted (empty_buf (y_buf y)) (drop (y_rounds0 y) (y_rounds y)) (y_buf y) /\ (y_rounds0 y <= length (y_rounds y))%nat.

Lemma drift_more y y' l : drift_inv y -> y_rounds0 y' = y_rounds0 y -> y_rounds y' = y_rounds y ++ l ->
  drifted (y_buf y) l (y_buf y') -> drift_inv y'.
Proof.
  intros [Hd Hl] E0 E Hn. unfold drift_inv. rewrite E0, E, length_app, drop_app_le by lia. split; [|lia].
  apply (drifted_app _ _ _ _ _ Hd Hn).
Qed.

Lemma rounds_grow y y' : step y y' -> exists l, y_rounds y' = y_rounds y ++ l.
Proof. destruct 1; cbn; eauto; exists []; rewrite app_nil_r; reflexivity. Qed.

Lemma drift_step y y' : drift_inv y -> Forall plausible (y_rounds y') -> step y y' -> drift_inv y'.
Proof.
  intros Hi Hp Hstep.
  destruct Hstep as [y fm w' b' o acts Hu E | y b' res Hq E | y sf q st' r Hq E | y st' r E | y k | y w k now E]; cbn in Hp.
  - apply pump_drifts in E as [E1 E2]. apply (drift_more y _ []); cbn; rewrite ?app_nil_r; auto. apply drifted_same; assumption.
  - apply (drift_more y _ []); cbn; rewrite ?app_nil_r; auto.
    unfold ReadBatch in E. destruct (q_select_after _ _ _) as [d []]; injection E as <- _; apply drifted_same; reflexivity.
  - apply Forall_app in Hp as [_ Hp]. eapply drift_more; [exact Hi|reflexivity..|]. exact (send_drifted _ _ _ _ E Hp).
  - apply Forall_app in Hp as [_ Hp]. eapply drift_more; [exact Hi|reflexivity..|]. exact (checkpoint_drifted _ _ _ E Hp).
  - apply (drift_more y _ []); cbn; rewrite ?app_nil_r; auto. unfold newSession, y_buf, Cursor. cbn.
    destruct (q_get_cursor _) as [d [[]|]]; apply drifted_same; reflexivity.
  - unfold drift_inv. cbn. rewrite drop_all. split; [|lia]. unfold newSession, y_buf, Cursor. cbn.
    destruct (q_get_cursor _) as [d [[]|]]; apply drifted_same; reflexivity.
Qed.

Lemma initial_inv y : initial y -> rows_inv y /\ log_inv y /\ lost_inv y /\ sent_inv y /\ drift_inv y.
Proof.
  intros [Hw Hb Hr [Hc Hd] (Hbt & Hq & Hsn) (Hh & Ha & Hr0 & Hl & Hl0 & Hg) (Hlost & Htot & Hdr)].
  pose proof Hb as (_ & (_ & _ & Hhigh) & _).
  split; [|split; [|split; [|split]]].
  - constructor; unfold settled, high; rewrite ?Hr, ?Hc, ?Hd, ?Hbt, ?Hq, ?Hh, ?Ha, ?Hl; auto;
      try (constructor; fail); try (intros ? []; fail); try (intros ? ? []; fail); try discriminate.
    lia.
  - destruct (newSeqWindow_fresh dedupWindowSeqs) as (w & E & Hrep & _);
      [vm_compute; split; discriminate|].
    rewrite Hw in E. injection E as <-.
    constructor; rewrite ?Hh, ?Hg; [constructor | exists []; split; [assumption | intros ? []] | intros ? []].
  - unfold lost_inv. rewrite Hlost, Hl, Hl0. reflexivity.
  - constructor; rewrite ?Hq, ?Hsn, ?Hbt, ?Ha; intros ? [].
  - unfold drift_inv. rewrite Ha, Hr0. split; [|reflexivity]. apply drifted_same; assumption.
Qed.

Lemma log_step y y' : rows_inv y -> log_inv y -> step y y' -> log_inv y'.
Proof.
  intros Hinv Hlog Hstep.
  destruct Hstep as [y fm w' b' o acts Hu E | y b' res Hq E | y sf q st' r Hq E | y st' r E | y k | y w k now E];
    try (destruct Hlog; constructor; assumption).
  - eapply log_pump; eauto.
  - destruct (newSeqWindow_fresh dedupWindowSeqs) as (w' & E' & Hrep & _);
      [vm_compute; split; discriminate|].
    rewrite E in E'. injection E' as <-.
    destruct Hlog as [H1 _ H3]. constructor; [exact H1 | | exact H3].
    exists []. split; [exact Hrep | intros ? []].
Qed.

Lemma reachable_inv y0 y : initial y0 -> reachable y0 y -> rows_inv y /\ log_inv y /\ lost_inv y /\ sent_inv y.
Proof.
  intros Hi. induction 1 as [|y y' _ (I1 & I2 & I3 & I4) Hs].
  { destruct (initial_inv _ Hi) as (? & ? & ? & ? & _). auto. }
  split; [eapply rows_step; eassumption|]. split; [eapply log_step; eassumption|].
  split; [eapply lost_step | eapply sent_step]; eassumption.
Qed.

Lemma reachable_drift y0 y : initial y0 -> reachable y0 y -> Forall plausible (y_rounds y) -> drift_inv y.
Proof.
  intros Hi. induction 1 as [|y y' _ IH Hs]; intros Hp; [apply (initial_inv _ Hi)|].
  destruct (rounds_grow _ _ Hs) as [l E]. eapply drift_step; [apply IH|exact Hp|exact Hs].
  rewrite E in Hp. apply Forall_app in Hp. apply Hp.
Qed.

(** What became of a row of the buffer that holds frame [f].  A row that Building
    OS answered for was handed to the sink as [f]; it is in the accepted part of
    its batch, or in the part that counts as drift of the frame's point. *)
Inductive fate (y : sys) (r : row) (f : TelemetryFrame) : Prop :=
| Accepted rd : let sf := {| Seq := r_seq r; Frame := read_back f |} in
    In rd (y_rounds y) -> In sf (fs_sent (y_fs y)) -> In (sent_of sf) (taken rd) -> fate y r f
| Declined rd : let sf := {| Seq := r_seq r; Frame := read_back f |} in
    In rd (y_rounds y) -> In sf (fs_sent (y_fs y)) -> In (sent_of sf) (declined rd) -> fate y r f
| Evicted : In (r_seq r) (y_lost y) -> fate y r f
| Pending : In r (stored (y_buf y)) -> durable_cursor (y_fs y) < r_seq r -> fate y r f.

Lemma row_fate y r f : rows_inv y -> sent_inv y -> In r (y_hist y) -> holds r f -> fate y r f.
Proof.
  intros Hrows [_ Is _ Ir] Hin Hh.
  assert (settled y (r_seq r) -> fate y r f) as Hset.
  { intros [Ha|Hl]; [|apply Evicted; assumption]. unfold answered in Ha. apply in_map_iff in Ha as (b & Eb & Hb).
    pose proof (Ir _ Hb) as Hs. apply in_map_iff in Hs as (sf & <- & Hsf). destruct (Is _ Hsf) as (r' & Hr' & Ed).
    assert (r' = r) as ->.
    { pose proof (decode_row_seq _ _ Ed) as E'. cbn in Eb. rewrite E' in Eb. clear -Hrows Hr' Hin Eb.
      pose proof (ri_sorted _ Hrows) as Hs. induction (y_hist y) as [|x l IH]; [destruct Hin|].
      inversion Hs as [|? ? Hs' Hx]; subst. rewrite Forall_map, Forall_forall in Hx.
      destruct Hr' as [->|Hr'], Hin as [->|Hin]; auto.
      - apply list_elem_of_In, Hx in Hin. simpl in Hin. lia.
      - apply list_elem_of_In, Hx in Hr'. simpl in Hr'. lia. }
    unfold holds in Hh. rewrite Ed in Hh. injection Hh as ->. apply in_concat in Hb as (l & Hl & Hb).
    apply in_map_iff in Hl as (rd & <- & Hrd). rewrite <- (take_drop (Z.to_nat (snd rd)) (fst rd)) in Hb.
    apply in_app_or in Hb as [Hb|Hb]; [eapply Accepted | eapply Declined]; eassumption. }
  destruct (Z.le_gt_cases (r_seq r) (durable_cursor (y_fs y))) as [Hle|Hgt]; [apply Hset, (ri_durable _ Hrows); assumption|].
  destruct (ri_gone _ Hrows r Hin); [apply Pending; [assumption|lia] | auto].
Qed.

(** A message acknowledged by the pump has a row, its own or that of an earlier
    delivery of the same stream sequence. *)
Lemma acked_row_of y en m : log_inv y -> In en (y_log y) -> In (Ack m) (en_actions en) ->
  exists en' r, In en' (y_log y) /\ en_outcome en' = Written /\
    (en' = en \/ (FM_Seq (en_msg en') = FM_Seq (en_msg en) /\ FM_Seq (en_msg en) <> 0)) /\
    In r (y_hist y) /\ holds r (FM_Frame (en_msg en')).
Proof.
  intros [Hfr _ Hact] Hen Hack.
  assert (forall en', In en' (y_log y) -> is_written en' = true ->
    exists r, In r (y_hist y) /\ holds r (FM_Frame (en_msg en'))) as Hrow.
  { intros en' Hin Hw. assert (In (FM_Frame (en_msg en')) (written_frames (y_log y))) as Hf
      by (apply in_map_iff; exists en'; split; [reflexivity | apply filter_In; auto]).
    apply list_elem_of_In, list_elem_of_lookup in Hf as [i Hi'].
    destruct (Forall2_lookup_r _ _ _ _ _ Hfr Hi') as (r & Hr' & Hh).
    exists r. split; [apply list_elem_of_In; eapply list_elem_of_lookup_2; eassumption | assumption]. }
  destruct (Hact en Hen) as [Ha Hdup]. rewrite Ha in Hack. unfold expected_actions in Hack.
  destruct (FM_Msg (en_msg en)); [|destruct Hack].
  destruct (en_outcome en) eqn:Eo.
  - destruct (Hrow en Hen) as (r & Hrin & Hh); [unfold is_written; rewrite Eo; reflexivity|].
    exists en, r. repeat split; auto.
  - specialize (Hdup eq_refl). unfold written_seqs in Hdup. rewrite <- in_rev in Hdup.
    apply filter_In in Hdup as [Hin Hnz]. apply in_map_iff in Hin as (en' & Es & Hin).
    apply filter_In in Hin as [Hin Hw]. destruct (Hrow en' Hin Hw) as (r & Hrin & Hh).
    exists en', r. bools. split; [assumption|]. split.
    + unfold is_written in Hw. destruct (en_outcome en'); congruence.
    + repeat split; auto.
  - destruct Hack as [Hack|[]]. discriminate.
Qed.

(** C1: no silent loss, end to end.  In every reachable state, for every message
    the pump acknowledged to its source, a message with the same content (itself,
    or an earlier delivery of the same stream sequence) was committed to the
    buffer, and that row was handed to the sink in a batch Building OS answered
    for, in the part it accepted or in the part it did not, or was evicted past the
    durable cursor, or is still in the buffer past the durable cursor, to be sent.
    Nothing that is not accepted goes uncounted: modulo their wrap and since the
    buffer was last opened, each point's drift counter is the number of its frames
    in the declined parts, the drift total is the number of all of them, and
    [lostUnsent] the number of evicted ones.  This holds for any interleaving of
    the pump and the forwarder, any statement or transport failure, any reconnect
    and any crash, when the acknowledged counts are not negative. *)
Theorem pipeline_no_silent_loss (y0 y : sys) :
  initial y0 -> reachable y0 y -> Forall plausible (y_rounds y) ->
  (forall en m, In en (y_log y) -> In (Ack m) (en_actions en) ->
    exists en' r, In en' (y_log y) /\ en_outcome en' = Written /\
      (en' = en \/ (FM_Seq (en_msg en') = FM_Seq (en_msg en) /\ FM_Seq (en_msg en) <> 0)) /\
      In r (y_hist y) /\ holds r (FM_Frame (en_msg en')) /\ fate y r (FM_Frame (en_msg en'))) /\
  (forall p, default 0 (drifts (y_buf y) !! p) mod 2 ^ 64 = drift_in (drop (y_rounds0 y) (y_rounds y)) p mod 2 ^ 64) /\
  driftTotal (y_buf y) mod 2 ^ 64 = drift_all (drop (y_rounds0 y) (y_rounds y)) mod 2 ^ 64 /\
  lostUnsent (y_buf y) mod 2 ^ 64 = (Z.of_nat (length (y_lost y)) - Z.of_nat (y_lost0 y)) mod 2 ^ 64.
Proof.
  intros Hi Hr Hp. destruct (reachable_inv _ _ Hi Hr) as (Hrows & Hlog & Hlost & Hsent).
  destruct (reachable_drift _ _ Hi Hr Hp) as [[Hd Ht] _]. split; [|split; [exact Hd|split; [exact Ht|exact Hlost]]].
  intros en m Hen Hack. destruct (acked_row_of _ _ _ Hlog Hen Hack) as (en' & r & H1 & H2 & H3 & H4 & H5).
  exists en', r. auto 7 using row_fate.
Qed.

End Pipeline.

(** ** Witness: a frame pumped, read, sent and not accepted *)

Module PipelineExample.
Import ListDB CountableCodec BufferExample UplinkExample.

Definition msg0 : FrameMsg := {| FM_Frame := frame "a"; FM_Msg := Some 1; FM_Seq := 0 |}.
Definition en0 : entry := {| en_msg := msg0; en_outcome := Written; en_actions := [Ack 1] |}.

Definition y0 (w : seqWindow) : sys :=
  {| y_win := w; y_fs := forwarder (start []) 10 1; y_queue := []; y_hist := []; y_rounds := []; y_rounds0 := O;
     y_lost := []; y_lost0 := O; y_log := [] |}.

Definition buf1 : Buffer listdb := fst (Write (start []) (frame "a")).
Definition y1 (w : seqWindow) : sys :=
  {| y_win := w; y_fs := set_buf (forwarder (start []) 10 1) buf1; y_queue := [];
     y_hist := [] ++ new_rows (start []) buf1; y_rounds := []; y_rounds0 := O;
     y_lost := [] ++ new_lost (start []) buf1; y_lost0 := O; y_log := [] ++ [en0] |}.
Definition y2 (w : seqWindow) : sys :=
  let y := y1 w in
  {| y with y_fs := set_buf (y_fs y) (fst (ReadBatch buf1 0 32));
            y_queue := [{| Seq := 1; Frame := frame "a" |}] |}.
Definition y3 (w : seqWindow) : sys :=
  let y := y2 w in
  {| y with y_fs := fst (send_one DefaultConfig (y_fs y) {| Seq := 1; Frame := frame "a" |});
            y_queue := [] |}.
Definition y4 (w : seqWindow) : sys :=
  let y := y3 w in {| y with y_fs := fst (checkpoint (y_fs y)); y_rounds := acks (y_fs y) |}.

Lemma y0_initial w : newSeqWindow dedupWindowSeqs = Some w -> initial (y0 w).
Proof. intros E. constructor; try exact E; try exact (start_ok []); repeat split. Qed.

Lemma y4_reachable w : reachable DefaultConfig (y0 w) (y4 w).
Proof.
  eapply reach_step; [eapply reach_step; [eapply reach_step; [eapply reach_step; [apply reach_refl|]|]|]|].
  - apply (step_pump DefaultConfig (y0 w) msg0 w buf1 Written [Ack 1]);
      [vm_compute; split; congruence | vm_compute; reflexivity].
  - apply (step_read DefaultConfig (y1 w) (fst (ReadBatch buf1 0 32)) (Ok [{| Seq := 1; Frame := frame "a" |}]));
      [reflexivity | vm_compute; reflexivity].
  - apply (step_send DefaultConfig (y2 w) {| Seq := 1; Frame := frame "a" |} []
             (y_fs (y3 w)) None);
      [reflexivity | vm_compute; reflexivity].
  - apply (step_tick DefaultConfig (y3 w) (y_fs (y4 w)) None). vm_compute. reflexivity.
Qed.

Lemma pipeline_no_silent_loss_witness :
  exists w, initial (y0 w) /\ reachable DefaultConfig (y0 w) (y4 w) /\ durable_cursor (y_fs (y4 w)) = 1 /\
    driftTotal (y_buf (y4 w)) mod 2 ^ 64 = 1 /\
    exists en' r, In en' (y_log (y4 w)) /\ In r (y_hist (y4 w)) /\ fate (y4 w) r (FM_Frame (en_msg en')).
Proof.
  destruct (newSeqWindow_fresh dedupWindowSeqs) as (w & E & _); [vm_compute; split; discriminate|].
  exists w. split; [exact (y0_initial w E)|]. split; [apply y4_reachable|]. split; [reflexivity|].
  destruct (pipeline_no_silent_loss DefaultConfig (y0 w) (y4 w) (y0_initial w E) (y4_reachable w)) as (H & _ & Ht & _).
  { repeat constructor; cbn; lia. }
  split; [rewrite Ht; reflexivity|].
  destruct (H en0 1) as (en' & r & H1 & _ & _ & H2 & _ & H3); [left; reflexivity | left; reflexivity |].
  exists en', r. auto.
Defined.

(** A buffer of one frame: the first is read and sent, evicted by the second
    while in flight, and then acknowledged. *)
Definition one : Buffer listdb := new_buffer (fresh []) 1 0.
Definition z0 (w : seqWindow) : sys :=
  {| y_win := w; y_fs := forwarder one 10 0; y_queue := []; y_hist := []; y_rounds := []; y_rounds0 := O;
     y_lost := []; y_lost0 := O; y_log := [] |}.
Definition one1 : Buffer listdb := fst (Write one (frame "a")).
Definition z1 (w : seqWindow) : sys :=
  {| y_win := w; y_fs := set_buf (forwarder one 10 0) one1; y_queue := [];
     y_hist := [] ++ new_rows one one1; y_rounds := []; y_rounds0 := O;
     y_lost := [] ++ new_lost one one1; y_lost0 := O; y_log := [] ++ [en0] |}.
Definition z2 (w : seqWindow) : sys :=
  let y := z1 w in
  {| y with y_fs := set_buf (y_fs y) (fst (ReadBatch one1 0 32));
            y_queue := [{| Seq := 1; Frame := frame "a" |}] |}.
Definition z3 (w : seqWindow) : sys :=
  let y := z2 w in
  {| y with y_fs := fst (send_one DefaultConfig (y_fs y) {| Seq := 1; Frame := frame "a" |});
            y_queue := [] |}.
Definition z4 (w : seqWindow) : sys :=
  let y := z3 w in
  let b' := fst (Write (y_buf y) (frame "a")) in
  {| y with y_fs := set_buf (y_fs y) b'; y_hist := y_hist y ++ new_rows (y_buf y) b';
            y_lost := y_lost y ++ new_lost (y_buf y) b'; y_log := y_log y ++ [en0] |}.
Definition z5 (w : seqWindow) : sys :=
  let y := z4 w in {| y with y_fs := fst (checkpoint (y_fs y)); y_rounds := acks (y_fs y) |}.

(** the loss counter over-counts.  There is a reachable state in which a
    frame that Building OS acknowledged is also counted in [lostUnsent]: a row
    evicted while its batch is in flight counts as lost and is then delivered. *)
Theorem pipeline_lost_overcounts :
  exists w y, initial (z0 w) /\ reachable DefaultConfig (z0 w) y /\
    lostUnsent (y_buf y) = 1 /\ In 1 (y_lost y) /\ In 1 (map SF_Seq (List.concat (map taken (y_rounds y)))) /\
    durable_cursor (y_fs y) = 1.
Proof.
  destruct (newSeqWindow_fresh dedupWindowSeqs) as (w & E & _); [vm_compute; split; discriminate|].
  exists w, (z5 w). split.
  { constructor; try exact E; repeat split; try constructor; cbn; lia. }
  split; [|repeat split; vm_compute; auto].
  eapply reach_step; [eapply reach_step; [eapply reach_step; [eapply reach_step;
    [eapply reach_step; [apply reach_refl|]|]|]|]|].
  - apply (step_pump DefaultConfig (z0 w) msg0 w one1 Written [Ack 1]);
      [vm_compute; split; congruence | vm_compute; reflexivity].
  - apply (step_read DefaultConfig (z1 w) (fst (ReadBatch one1 0 32)) (Ok [{| Seq := 1; Frame := frame "a" |}]));
      [reflexivity | vm_compute; reflexivity].
  - apply (step_send DefaultConfig (z2 w) {| Seq := 1; Frame := frame "a" |} []
             (y_fs (z3 w)) None); [reflexivity | vm_compute; reflexivity].
  - apply (step_pump DefaultConfig (z3 w) msg0 w (fst (Write (y_buf (z3 w)) (frame "a"))) Written [Ack 1]);
      [vm_compute; split; congruence | vm_compute; reflexivity].
  - apply (step_tick DefaultConfig (z4 w) (y_fs (z5 w)) None). vm_compute. reflexivity.
Qed.
End PipelineExample.
