(* ===== verification/Sdk.v ===== *)
(** * The connector SDK

    [src/connector/sdk]: the wire types shared by the gateway and its
    connectors, and [CommandDedup], the bounded idempotency table of a
    connector's write handler.  The theorems show that requests and replies
    survive their JSON form, and how often a command id can be executed under
    any interleaving of handlers. *)

From Stdlib Require Import ZArith Lia Bool Ascii String List.
From stdpp Require Import base list strings gmap.
From S2P Require Import Prelude Json GoText Float Wire.
#[local] Open Scope string_scope.
#[local] Open Scope list_scope.
#[local] Open Scope Z_scope.

(** ** Wire types *)

Record WriteRequest := {
  wr_Release : bool;
  wr_ControlID : string;
  wr_LocalID : string;
  wr_DeviceRef : string;
  wr_Value : float64;
  wr_Priority : Z
}.

Record WriteReply := { rp_Success : bool; rp_Response : string }.

#[export] Instance WriteReply_eq_dec : EqDecision WriteReply.
Proof. solve_decision. Defined.

(** [json.Marshal]: [None] on a value that is not finite. *)
Definition request_json (r : WriteRequest) : option json :=
  match (if f64_finite (wr_Value r) then format_f64 (wr_Value r) else None) with
  | None => None
  | Some lit =>
    Some (JObj (omit_false "release" (wr_Release r) ++
      [("control_id", JStr (wr_ControlID r)); ("local_id", JStr (wr_LocalID r));
       ("device_ref", JStr (wr_DeviceRef r)); ("value", JNum lit); ("priority", JNum (itoa (wr_Priority r)))]))
  end.

(** An [int32] field: an integer literal in range. *)
Definition decode_i32 (cur : Z) (v : json) : option Z :=
  match v with
  | JNull => Some cur
  | JNum lit =>
    let '(neg, d) := match lit with String "-" r => (true, r) | _ => (false, lit) end in
    if negb (String.eqb d "") && all_digits d then
      let z := if neg then - digits_val 0 d else digits_val 0 d in
      if (- 2 ^ 31 <=? z) && (z <? 2 ^ 31) then Some z else None
    else None
  | _ => None
  end.

Definition decode_f64 (cur : float64) (v : json) : option float64 :=
  match v with JNull => Some cur | JNum lit => parse_f64 lit | _ => None end.

Definition zero_request : WriteRequest :=
  {| wr_Release := false; wr_ControlID := ""; wr_LocalID := ""; wr_DeviceRef := ""; wr_Value := f64_zero; wr_Priority := 0 |}.

Definition request_names : list string :=
  ["release"; "control_id"; "local_id"; "device_ref"; "value"; "priority"].

Definition request_set (f : string) (v : json) (r : WriteRequest) : option WriteRequest :=
  if String.eqb f "release" then option_map (fun x => {| r with wr_Release := x |}) (decode_bool (wr_Release r) v)
  else if String.eqb f "control_id" then option_map (fun x => {| r with wr_ControlID := x |}) (decode_str (wr_ControlID r) v)
  else if String.eqb f "local_id" then option_map (fun x => {| r with wr_LocalID := x |}) (decode_str (wr_LocalID r) v)
  else if String.eqb f "device_ref" then option_map (fun x => {| r with wr_DeviceRef := x |}) (decode_str (wr_DeviceRef r) v)
  else if String.eqb f "value" then option_map (fun x => {| r with wr_Value := x |}) (decode_f64 (wr_Value r) v)
  else if String.eqb f "priority" then option_map (fun x => {| r with wr_Priority := x |}) (decode_i32 (wr_Priority r) v)
  else Some r.

Definition request_unjson (data : string) : option WriteRequest :=
  match parse data with
  | Some v => decode_struct false request_names request_set zero_request v
  | None => None
  end.

Definition reply_json (r : WriteReply) : json :=
  JObj [("success", JBool (rp_Success r)); ("response", JStr (rp_Response r))].

Definition reply_names : list string := ["success"; "response"].
Definition reply_set (f : string) (v : json) (r : WriteReply) : option WriteReply :=
  if String.eqb f "success" then option_map (fun x => {| r with rp_Success := x |}) (decode_bool (rp_Success r) v)
  else if String.eqb f "response" then option_map (fun x => {| r with rp_Response := x |}) (decode_str (rp_Response r) v)
  else Some r.

Definition reply_unjson (data : string) : option WriteReply :=
  match parse data with
  | Some v => decode_struct false reply_names reply_set {| rp_Success := false; rp_Response := "" |} v
  | None => None
  end.

(** ** Command deduplication *)

(** An entry is [None] while its command is in flight. *)
Record CommandDedup := {
  dd_entries : gmap string (option WriteReply);
  dd_keys : list string;
  dd_cap : Z
}.

Definition NewCommandDedup (cap : Z) : CommandDedup :=
  {| dd_entries := ∅; dd_keys := []; dd_cap := cap |}.

Inductive reserved := Proceed | InFlight | Cached (r : WriteReply).

(** [None] is the panic of indexing an empty slice, when the capacity is not
    positive. *)
Definition TryReserve (d : CommandDedup) (controlID : string) : option (CommandDedup * reserved) :=
  match dd_entries d !! controlID with
  | Some None => Some (d, InFlight)
  | Some (Some r) => Some (d, Cached r)
  | None =>
    let evicted :=
      if dd_cap d <=? Z.of_nat (length (dd_keys d)) then
        match dd_keys d with
        | [] => None
        | oldest :: keys => Some {| dd_entries := delete oldest (dd_entries d); dd_keys := keys; dd_cap := dd_cap d |}
        end
      else Some d in
    match evicted with
    | None => None
    | Some d => Some ({| dd_entries := <[controlID := None]> (dd_entries d);
                         dd_keys := dd_keys d ++ [controlID]; dd_cap := dd_cap d |}, Proceed)
    end
  end.

Definition Complete (d : CommandDedup) (controlID : string) (reply : WriteReply) : CommandDedup :=
  {| dd_entries := <[controlID := Some reply]> (dd_entries d); dd_keys := dd_keys d; dd_cap := dd_cap d |}.

(** *** Runs of concurrent handlers *)

Inductive dedup_op := Reserve (id : string) | Finish (id : string) (r : WriteReply).

Fixpoint run_dedup (d : CommandDedup) (ops : list dedup_op) : option (CommandDedup * list reserved) :=
  match ops with
  | [] => Some (d, [])
  | Reserve id :: ops =>
    match TryReserve d id with
    | Some (d, o) => match run_dedup d ops with Some (d, os) => Some (d, o :: os) | None => None end
    | None => None
    end
  | Finish id r :: ops => run_dedup (Complete d id r) ops
  end.

Fixpoint proceeds (os : list reserved) : Z :=
  match os with [] => 0 | Proceed :: os => 1 + proceeds os | _ :: os => proceeds os end.

(** The reply of [id] after a run that started with [last]. *)
Fixpoint last_reply (id : string) (last : option WriteReply) (ops : list dedup_op) : option WriteReply :=
  match ops with
  | [] => last
  | Finish i r :: ops => last_reply id (if String.eqb i id then Some r else last) ops
  | _ :: ops => last_reply id last ops
  end.

Definition dedup_ok (d : CommandDedup) : Prop :=
  0 < dd_cap d /\ NoDup (dd_keys d) /\ Z.of_nat (length (dd_keys d)) <= dd_cap d /\
  forall k, k ∈ dd_keys d -> is_Some (dd_entries d !! k).

(** [id] was reserved [m] reservations ago and its reply is [last]. *)
Definition holds (id : string) (m : Z) (last : option WriteReply) (d : CommandDedup) : Prop :=
  0 <= m < dd_cap d /\ dd_entries d !! id = Some last /\
  exists p, dd_keys d !! p = Some id /\ Z.of_nat p = Z.of_nat (length (dd_keys d)) - 1 - m.

Lemma Complete_ok d id r : dedup_ok d -> dedup_ok (Complete d id r).
Proof.
  intros (Hc & Hn & Hl & Hk). repeat split; try assumption. cbn. intros k Hin.
  destruct (decide (id = k)) as [->|]; [rewrite lookup_insert_eq; eauto|].
  rewrite lookup_insert_ne by assumption. auto.
Qed.

(** Eviction of the oldest key, and appending a key, as [TryReserve] does them. *)
Lemma evict_spec d old keys : dedup_ok d -> dd_keys d = old :: keys -> dd_cap d <= Z.of_nat (length (dd_keys d)) ->
  let d' := {| dd_entries := delete old (dd_entries d); dd_keys := keys; dd_cap := dd_cap d |} in
  dedup_ok d' /\ Z.of_nat (length keys) < dd_cap d /\
  forall x m last, holds x m last d -> m + 1 < dd_cap d -> holds x m last d'.
Proof.
  intros (Hc & Hn & Hl & Hk) Ek Hfull. unfold holds, dedup_ok. cbn. rewrite Ek in *. cbn [length] in *.
  apply NoDup_cons in Hn as [Hold Hn].
  assert (forall k, k ∈ keys -> old <> k) as Hne by (intros k Hin ->; contradiction).
  split; [|split; [lia|]].
  - split; [assumption|]. split; [assumption|]. split; [lia|]. intros k Hin.
    rewrite lookup_delete_ne by auto. apply Hk. right. assumption.
  - intros x m last (Hm & Hx & p & Hp & Hpl) Hm'. destruct p as [|p]; [lia|]. cbn in Hp.
    assert (x ∈ keys) by (eapply list_elem_of_lookup_2; eassumption).
    split; [assumption|]. split; [rewrite lookup_delete_ne by auto; assumption|]. exists p. split; [assumption|lia].
Qed.

Lemma push_spec d id : dedup_ok d -> Z.of_nat (length (dd_keys d)) < dd_cap d -> dd_entries d !! id = None ->
  let d' := {| dd_entries := <[id := None]> (dd_entries d); dd_keys := dd_keys d ++ [id]; dd_cap := dd_cap d |} in
  dedup_ok d' /\ holds id 0 None d' /\
  forall x m last, holds x m last d -> m + 1 < dd_cap d -> holds x (m + 1) last d'.
Proof.
  intros (Hc & Hn & Hl & Hk) Hroom Hid. unfold holds, dedup_ok. cbn. rewrite length_app. cbn [length].
  assert (forall k, k ∈ dd_keys d -> id <> k) as Hne by (intros k Hin ->; destruct (Hk _ Hin); congruence).
  split; [|split].
  - split; [assumption|]. split; [|split; [lia|]].
    + apply NoDup_app. split; [assumption|]. split; [|apply NoDup_singleton].
      intros x Hx ->%list_elem_of_singleton. apply (Hne id Hx eq_refl).
    + intros k [Hin| ->%list_elem_of_singleton]%elem_of_app; [|rewrite lookup_insert_eq; eauto].
      rewrite lookup_insert_ne by auto. auto.
  - split; [lia|]. split; [apply lookup_insert_eq|]. exists (length (dd_keys d)). split; [|lia].
    rewrite lookup_app_r, Nat.sub_diag by lia. reflexivity.
  - intros x m last (Hm & Hx & p & Hp & Hpl) Hm'.
    assert (x ∈ dd_keys d) by (eapply list_elem_of_lookup_2; eassumption).
    split; [lia|]. split; [rewrite lookup_insert_ne by auto; assumption|].
    exists p. split; [apply lookup_app_l_Some; assumption|lia].
Qed.

Lemma TryReserve_spec d id : dedup_ok d -> exists d' o, TryReserve d id = Some (d', o) /\ dedup_ok d' /\
  dd_cap d' = dd_cap d /\
  match o with
  | Proceed => dd_entries d !! id = None /\ holds id 0 None d' /\
      forall x m last, holds x m last d -> m + 1 < dd_cap d -> holds x (m + 1) last d'
  | InFlight => d' = d /\ dd_entries d !! id = Some None
  | Cached r => d' = d /\ dd_entries d !! id = Some (Some r)
  end.
Proof.
  intros Hok. unfold TryReserve.
  destruct (dd_entries d !! id) as [[r|]|] eqn:E; [eexists _, _; split; [reflexivity|]; auto..|].
  destruct (Z.leb_spec (dd_cap d) (Z.of_nat (length (dd_keys d)))) as [Hfull|Hroom].
  - destruct (dd_keys d) as [|old keys] eqn:Ek; [cbn in Hfull; destruct Hok; lia|]. eexists _, _. split; [reflexivity|].
    rewrite <- Ek in Hfull. destruct (evict_spec d old keys Hok Ek Hfull) as (Hok1 & Hl1 & Hh1).
    destruct (push_spec _ id Hok1 Hl1) as (Hok2 & H0 & Hh2); [apply lookup_delete_None; auto|]. cbn in *.
    repeat (split; [first [assumption|reflexivity]|]). intros. auto.
  - eexists _, _. split; [reflexivity|]. destruct (push_spec d id Hok Hroom E) as (Hok2 & H0 & Hh2). auto.
Qed.

Lemma holds_run ops : forall id m last d d' os, dedup_ok d -> holds id m last d ->
  run_dedup d ops = Some (d', os) -> m + proceeds os < dd_cap d ->
  dedup_ok d' /\ holds id (m + proceeds os) (last_reply id last ops) d'.
Proof.
  induction ops as [|[i|i r] ops IH]; intros id m last d d' os Hok Hh E Hlt; cbn [run_dedup last_reply] in *.
  - injection E as <- <-. rewrite Z.add_0_r. auto.
  - destruct (TryReserve_spec d i Hok) as (d1 & o & E1 & Hok1 & Hcap & Ho). rewrite E1 in E.
    destruct (run_dedup d1 ops) as [[d2 os2]|] eqn:E2; [|discriminate]. injection E as <- <-.
    assert (0 <= proceeds os2) by (clear; induction os2 as [|[] os2 IH]; cbn; lia).
    destruct o; cbn [proceeds] in *.
    + destruct Ho as (_ & _ & Ho). rewrite Z.add_assoc in *. apply (IH _ _ _ d1); auto; [apply Ho; auto; lia|lia].
    + destruct Ho as [-> _]. eauto.
    + destruct Ho as [-> _]. eauto.
  - apply (IH id m _ (Complete d i r)); auto using Complete_ok.
    destruct Hh as (Hm & Hx & Hp). split; [exact Hm|]. split; [|exact Hp]. cbn.
    destruct (String.eqb_spec i id) as [->|]; [apply lookup_insert_eq|rewrite lookup_insert_ne by assumption; exact Hx].
Qed.

Lemma run_total ops : forall d, dedup_ok d ->
  exists d' os, run_dedup d ops = Some (d', os) /\ dedup_ok d' /\ dd_cap d' = dd_cap d.
Proof.
  induction ops as [|[i|i r] ops IH]; intros d Hok; cbn [run_dedup]; [eauto| |apply (IH (Complete d i r)); auto using Complete_ok].
  destruct (TryReserve_spec d i Hok) as (d1 & o & -> & Hok1 & Hc & _).
  destruct (IH _ Hok1) as (d2 & os & -> & Hok2 & Hc2). rewrite Hc in Hc2. eauto.
Qed.

Lemma new_dedup_ok cap : 0 < cap -> dedup_ok (NewCommandDedup cap).
Proof. intros. repeat split; cbn; [assumption|constructor|lia|intros k Hk; inversion Hk]. Qed.

(** C37: A command runs at most once per window.  With a positive capacity the
    table never fails, under any interleaving of reservations and completions
    by concurrent handlers.  Once a command id has been let through, as long as
    fewer than the capacity's number of further commands have been let through,
    another request with that id is not: it is answered "in flight" until some
    handler completes it, and with the latest reply from then on. *)
Theorem dedup_once_per_window (cap : Z) (before after : list dedup_op) (id : string) d os1 d1 d2 os2 :
  0 < cap ->
  run_dedup (NewCommandDedup cap) before = Some (d, os1) ->
  TryReserve d id = Some (d1, Proceed) ->
  run_dedup d1 after = Some (d2, os2) -> proceeds os2 < cap ->
  TryReserve d2 id = Some (d2, match last_reply id None after with Some r => Cached r | None => InFlight end).
Proof.
  intros Hc E Er E2 Hp. destruct (run_total before _ (new_dedup_ok cap Hc)) as (x & y & Ex & Hok & Ed).
  rewrite Ex in E. injection E as -> ->. cbn in Ed.
  destruct (TryReserve_spec d id Hok) as (d1' & o & E1 & Hok1 & Hcap & Ho). rewrite Er in E1. injection E1 as <- <-.
  destruct Ho as (_ & Hh & _). destruct (holds_run _ _ _ _ _ _ _ Hok1 Hh E2) as (_ & _ & Hx & _); [lia|].
  unfold TryReserve. rewrite Hx. destruct (last_reply id None after); reflexivity.
Qed.

(** Ids written in unary, for a run of any length. *)
Fixpoint unary (n : nat) : string := match n with O => "" | S k => String "x" (unary k) end.

Fixpoint late_ops (n : nat) : list dedup_op :=
  match n with
  | O => [Reserve (unary 0)]
  | S k => late_ops k ++ [Reserve (unary (S k)); Finish (unary k) {| rp_Success := true; rp_Response := "" |}]
  end.

Lemma unary_inj n m : unary n = unary m -> n = m.
Proof. revert m. induction n; intros [|m]; cbn; try congruence. intros [= E]. f_equal. auto. Qed.

Lemma run_dedup_app d ops1 ops2 :
  run_dedup d (ops1 ++ ops2) =
  match run_dedup d ops1 with
  | Some (d1, os1) => match run_dedup d1 ops2 with Some (d2, os2) => Some (d2, os1 ++ os2) | None => None end
  | None => None
  end.
Proof.
  revert d. induction ops1 as [|[i|i r] ops IH]; intros d; cbn [app run_dedup]; [destruct (run_dedup d ops2) as [[? ?]|]; reflexivity| |apply IH].
  destruct (TryReserve d i) as [[d1 o]|]; [|reflexivity]. rewrite IH. destruct (run_dedup d1 ops) as [[d2 os]|]; [|reflexivity].
  destruct (run_dedup d2 ops2) as [[? ?]|]; reflexivity.
Qed.

(** After the run, the newest id is in flight and every older one is stored
    although only the newest is a key. *)
Lemma late_run n : exists d os, run_dedup (NewCommandDedup 1) (late_ops n) = Some (d, os) /\
  dd_keys d = [unary n] /\ dd_cap d = 1 /\ size (dd_entries d) = S n /\
  forall m, is_Some (dd_entries d !! unary m) <-> (m <= n)%nat.
Proof.
  induction n as [|n (d & os & E & Ek & Ec & Es & Hm)].
  - eexists _, _. split; [reflexivity|]. repeat split; try reflexivity.
    + cbn. intros H. destruct m; [lia|]. rewrite lookup_insert_ne, lookup_empty in H by discriminate. destruct H. discriminate.
    + cbn. intros H. destruct m; [|lia]. rewrite lookup_insert_eq. eauto.
  - cbn [late_ops]. rewrite run_dedup_app, E. cbn [run_dedup]. unfold TryReserve.
    assert (dd_entries d !! unary (S n) = None) as ->
      by (destruct (dd_entries d !! unary (S n)) eqn:X; [exfalso; assert (S n <= n)%nat by (apply Hm; rewrite X; eauto); lia|reflexivity]).
    rewrite Ek, Ec. cbn [length Z.leb Z.of_nat]. change (1 <=? Z.of_nat 1) with true. cbn match.
    eexists _, _. split; [reflexivity|]. cbn [Complete dd_keys dd_cap dd_entries].
    assert (unary n <> unary (S n)) as Hne by (intros X%unary_inj; lia).
    split; [reflexivity|]. split; [reflexivity|]. split.
    + rewrite map_size_insert_None; [rewrite map_size_insert_None|].
      * rewrite map_size_delete_Some, Es by (apply Hm; lia). reflexivity.
      * rewrite lookup_delete_ne by assumption. destruct (dd_entries d !! unary (S n)) eqn:X; [|reflexivity].
        exfalso. assert (S n <= n)%nat by (apply Hm; rewrite X; eauto). lia.
      * rewrite lookup_insert_ne by congruence. apply lookup_delete_eq.
    + intros m. destruct (decide (m = n)) as [->|]; [rewrite lookup_insert_eq; split; [lia|eauto]|].
      rewrite lookup_insert_ne by (intros X%unary_inj; congruence).
      destruct (decide (m = S n)) as [->|]; [rewrite lookup_insert_eq; split; [lia|eauto]|].
      rewrite lookup_insert_ne, lookup_delete_ne, Hm by (intros X%unary_inj; congruence). lia.
Qed.

(** The table is not bounded by its capacity.  A completion that arrives
    after its reservation was evicted stores an entry that no key refers to and
    nothing removes: with capacity 1 there is a run, of handlers that each
    complete what they reserved, after which [n + 1] entries are held. *)
Theorem dedup_outgrows_capacity (n : nat) :
  exists ops d os, run_dedup (NewCommandDedup 1) ops = Some (d, os) /\ dd_cap d = 1 /\
    length (dd_keys d) = 1%nat /\ size (dd_entries d) = S n.
Proof.
  destruct (late_run n) as (d & os & E & Ek & Ec & Es & _). exists (late_ops n), d, os.
  rewrite Ek. auto.
Qed.

(** ** Wire round trips *)

Lemma decode_i32_itoa cur z : - 2 ^ 31 <= z < 2 ^ 31 -> decode_i32 cur (JNum (itoa z)) = Some z.
Proof.
  intros Hz. assert (forall n, 0 <= n -> negb (String.eqb (dec_string n) "") && all_digits (dec_string n) = true /\
    digits_val 0 (dec_string n) = n) as Hd.
  { intros n Hn. destruct (dec_string_spec n Hn) as (E & Ha & c & r & Es & _). rewrite E, Ha, Es. auto. }
  unfold decode_i32, itoa. destruct (Z.ltb_spec z 0).
  - change ("-" +:+ dec_string (- z)) with (String "-" (dec_string (- z))). cbv iota beta.
    destruct (Hd (- z) ltac:(lia)) as [-> ->]. rewrite Z.opp_involutive.
    destruct (Z.leb_spec (- 2 ^ 31) z), (Z.ltb_spec z (2 ^ 31)); cbn; lia || reflexivity.
  - destruct (Hd z ltac:(lia)) as [Ht Ev]. destruct (dec_string_spec z ltac:(lia)) as (_ & Ha & c & r & E & _).
    assert (c <> "-"%char) as Hc by (intros ->; rewrite E in Ha; discriminate).
    assert ((match dec_string z with String "-" r => (true, r) | _ => (false, dec_string z) end) = (false, dec_string z)) as ->.
    { rewrite E. destruct c as [[] [] [] [] [] [] [] []]; try reflexivity. destruct Hc. reflexivity. }
    rewrite Ht, Ev. destruct (Z.leb_spec (- 2 ^ 31) z), (Z.ltb_spec z (2 ^ 31)); cbn; lia || reflexivity.
Qed.

Lemma reply_roundtrip p : valid_utf8 (rp_Response p) = true -> reply_unjson (marshal (reply_json p)) = Some p.
Proof.
  intros H. unfold reply_unjson. rewrite parse_marshal; [destruct p; reflexivity| |cbn; unfold max_nesting; lia].
  cbn. rewrite H. reflexivity.
Qed.

Lemma request_roundtrip r j : request_json r = Some j -> - 2 ^ 31 <= wr_Priority r < 2 ^ 31 ->
  valid_utf8 (wr_ControlID r) && valid_utf8 (wr_LocalID r) && valid_utf8 (wr_DeviceRef r) = true ->
  request_unjson (marshal j) = Some r.
Proof.
  unfold request_json. intros E Hp Hv. bools. destruct (f64_finite _); [|discriminate].
  destruct (format_f64 _) as [lit|] eqn:Ef; [|discriminate]. injection E as <-.
  apply parse_format in Ef as [Hn Hf]. unfold request_unjson. rewrite parse_marshal.
  - cbn [decode_struct]. erewrite (decode_omit_false _ _ _ _ (fun b => {| zero_request with wr_Release := b |}));
      [|cbn; tauto|reflexivity|reflexivity].
    do 4 (erewrite decode_member; [|cbn; tauto|cbn; try rewrite Hf; reflexivity]).
    erewrite decode_member; [|cbn; tauto|cbn -[decode_i32]; rewrite decode_i32_itoa by assumption; reflexivity].
    destruct r; reflexivity.
  - cbn [valid]. rewrite forallb_app. apply andb_true_iff. split; [apply valid_omit_false; reflexivity|].
    cbn [forallb fst snd valid]. rewrite H, H0, H1, Hn, itoa_valid. reflexivity.
  - pose proof (depth_flat (omit_false "release" (wr_Release r) ++
      [("control_id", JStr (wr_ControlID r)); ("local_id", JStr (wr_LocalID r)); ("device_ref", JStr (wr_DeviceRef r));
       ("value", JNum lit); ("priority", JNum (itoa (wr_Priority r)))]) ltac:(auto 12 with gw)). unfold max_nesting. lia.
Qed.

(** What the gateway requests is what the connector's handler reads, and
    the reply comes back as it was sent: requests that marshal (finite value,
    valid strings, an [int32] priority) and replies decode to themselves. *)
Theorem request_reply_roundtrip (r : WriteRequest) (j : json) (p : WriteReply) :
  request_json r = Some j -> - 2 ^ 31 <= wr_Priority r < 2 ^ 31 ->
  valid_utf8 (wr_ControlID r) && valid_utf8 (wr_LocalID r) && valid_utf8 (wr_DeviceRef r) = true ->
  valid_utf8 (rp_Response p) = true ->
  request_unjson (marshal j) = Some r /\ reply_unjson (marshal (reply_json p)) = Some p.
Proof. intros. split; [eapply request_roundtrip|apply reply_roundtrip]; eassumption. Qed.

(** Concrete runs. *)
Module SdkExample.

Definition ok_reply : WriteReply := {| rp_Success := true; rp_Response := "ok" |}.

Lemma dedup_once_per_window_witness :
  exists d2, TryReserve d2 "a" = Some (d2, Cached ok_reply).
Proof.
  eexists. apply (dedup_once_per_window 2 [Reserve "z"] [Reserve "b"; Finish "a" ok_reply] "a"
    {| dd_entries := {["z" := None]}; dd_keys := ["z"]; dd_cap := 2 |} [Proceed]
    {| dd_entries := <["a" := None]> {["z" := None]}; dd_keys := ["z"; "a"]; dd_cap := 2 |}
    (Complete {| dd_entries := <["b" := None]> (delete "z" (<["a" := None]> {["z" := None]}));
       dd_keys := ["a"; "b"]; dd_cap := 2 |} "a" ok_reply) [Proceed]); try reflexivity; lia.
Defined.

Definition write_req : WriteRequest :=
  {| wr_Release := false; wr_ControlID := "c1"; wr_LocalID := "analog-value,3"; wr_DeviceRef := "100";
     wr_Value := f64_of_Z 21; wr_Priority := -8 |}.
Definition write_json : json := Eval vm_compute in default JNull (request_json write_req).

Lemma request_reply_roundtrip_witness :
  request_unjson (marshal write_json) = Some write_req /\ reply_unjson (marshal (reply_json ok_reply)) = Some ok_reply.
Proof. apply (request_reply_roundtrip write_req write_json ok_reply); try (vm_compute; reflexivity). cbn. lia. Defined.

End SdkExample.
