(* ===== verification/PointList.v ===== *)
(** * The point list

    [src/internal/pointlist]: entries that map a connector's native address to
    a canonical point, the static [Fixture], the live [SyncedResolver] with its
    JSON snapshot on disk, and the CSV loader.  The theorems show which entry
    each lookup answers from, that a persisted snapshot loads back, and what
    the entries of a loaded CSV satisfy. *)

From Stdlib Require Import ZArith Lia Bool Ascii String List.
From stdpp Require Import base list strings gmap.
From S2P Require Import Prelude Json GoText.
#[local] Open Scope string_scope.
#[local] Open Scope list_scope.
#[local] Open Scope Z_scope.

(** ** Entries *)

Record Entry := mkEntry {
  ReleaseOf : string;
  ConnectorID : string;
  Protocol : string;
  LocalID : string;
  PointID : string;
  Unit : string;
  Writable : bool;
  DeviceRef : string;
  ControlSchema : string
}.

#[export] Instance Entry_eq_dec : EqDecision Entry.
Proof. solve_decision. Defined.

Definition zero_entry : Entry := mkEntry "" "" "" "" "" "" false "" "".

Definition nul : ascii := "000"%char.

Definition key (connectorID localID : string) : string := connectorID +:+ String nul localID.

(** The seams of the normalizer and of control dispatch. *)
Class Resolver (R : Type) := Resolve : R -> string -> string -> option string.
Class ReverseResolver (R : Type) := ResolveReverse : R -> string -> option Entry.

(** ** The fixture *)

Definition Fixture : Type := gmap string string.

Definition forward_entry (m : gmap string string) (e : Entry) : gmap string string :=
  if String.eqb (ReleaseOf e) "" then <[key (ConnectorID e) (LocalID e) := PointID e]> m else m.

Definition NewFixture (entries : list Entry) : Fixture := fold_left forward_entry entries ∅.

#[export] Instance fixture_resolver : Resolver Fixture := fun f c l => f !! key c l.

(** ** The synced resolver *)

Record index := { forward : gmap string string; reverse : gmap string Entry; entries : list Entry }.

(** [notify] is the optional one-slot channel: absent, or whether it holds a
    signal. *)
Record SyncedResolver := { ptr : index; sr_notify : option bool }.

Definition NewSynced (notify : option bool) : SyncedResolver :=
  {| ptr := {| forward := ∅; reverse := ∅; entries := [] |}; sr_notify := notify |}.

#[export] Instance synced_resolver : Resolver SyncedResolver := fun r c l => forward (ptr r) !! key c l.
#[export] Instance synced_reverse : ReverseResolver SyncedResolver := fun r p => reverse (ptr r) !! p.

Definition Update (r : SyncedResolver) (es : list Entry) : SyncedResolver :=
  {| ptr := {| forward := fold_left forward_entry es ∅;
               reverse := fold_left (fun m e => <[PointID e := e]> m) es ∅;
               entries := es |};
     sr_notify := match sr_notify r with Some _ => Some true | None => None end |}.

Definition Snapshot (r : SyncedResolver) : list Entry := entries (ptr r).

Definition ResolveControl (r : SyncedResolver) (pointID : string) : Entry * Entry * bool :=
  let found := reverse (ptr r) !! pointID in
  let entry := default zero_entry found in
  let target := if String.eqb (ReleaseOf entry) "" then entry
                else default zero_entry (reverse (ptr r) !! ReleaseOf entry) in
  (entry, target, match found with Some _ => true | None => false end).

(** ** The snapshot on disk *)

Definition entry_json (e : Entry) : json :=
  JObj (omit_empty "release_of" (ReleaseOf e)
        ++ [("connector_id", JStr (ConnectorID e)); ("protocol", JStr (Protocol e));
            ("local_id", JStr (LocalID e)); ("point_id", JStr (PointID e))]
        ++ omit_empty "unit" (Unit e) ++ omit_false "writable" (Writable e)
        ++ omit_empty "device_ref" (DeviceRef e) ++ omit_empty "control_schema" (ControlSchema e)).

Definition entry_names : list string :=
  ["release_of"; "connector_id"; "protocol"; "local_id"; "point_id"; "unit"; "writable";
   "device_ref"; "control_schema"].

Definition entry_set (f : string) (v : json) (e : Entry) : option Entry :=
  let str cur (upd : string -> Entry) := match decode_str cur v with Some s => Some (upd s) | None => None end in
  if String.eqb f "release_of" then str (ReleaseOf e) (fun s => {| e with ReleaseOf := s |})
  else if String.eqb f "connector_id" then str (ConnectorID e) (fun s => {| e with ConnectorID := s |})
  else if String.eqb f "protocol" then str (Protocol e) (fun s => {| e with Protocol := s |})
  else if String.eqb f "local_id" then str (LocalID e) (fun s => {| e with LocalID := s |})
  else if String.eqb f "point_id" then str (PointID e) (fun s => {| e with PointID := s |})
  else if String.eqb f "unit" then str (Unit e) (fun s => {| e with Unit := s |})
  else if String.eqb f "writable" then
    match decode_bool (Writable e) v with Some b => Some {| e with Writable := b |} | None => None end
  else if String.eqb f "device_ref" then str (DeviceRef e) (fun s => {| e with DeviceRef := s |})
  else if String.eqb f "control_schema" then str (ControlSchema e) (fun s => {| e with ControlSchema := s |})
  else Some e.

Definition entry_unjson : json -> option Entry := decode_struct false entry_names entry_set zero_entry.

(** [json.Unmarshal(data, &entries)] for [var entries []Entry]. *)
Definition entries_unjson (data : string) : option (list Entry) :=
  match parse data with Some v => decode_slice entry_unjson v | None => None end.

(** The bytes [Persist] writes. *)
Definition persist_bytes (r : SyncedResolver) : string :=
  marshal_indent (JArr (map entry_json (Snapshot r))).

Inductive file_error := NotExist | IOError.
Inductive load_error := LoadIO | LoadJSON.

(** [Load], given what reading the file returned. *)
Definition Load (r : SyncedResolver) (file : result file_error string) : SyncedResolver * option load_error :=
  match file with
  | Err NotExist => (r, None)
  | Err IOError => (r, Some LoadIO)
  | Ok data =>
    match entries_unjson data with
    | None => (r, Some LoadJSON)
    | Some es => (Update r es, None)
    end
  end.

(** ** The CSV loader *)

Record CSVOptions := { opt_ConnectorID : string; opt_ConnectorMap : gmap string string }.

Inductive csv_error := CsvRead | CsvEmpty | CsvNoPointID.

(** What is logged: a protocol that could not be inferred, a protocol without a
    connector (with or without a fallback), a duplicate point. *)
Inductive csv_log :=
| LogInfer (pointID : string)
| LogNoConnector (proto : string)
| LogFallback (proto : string)
| LogDuplicate (pointID : string).

Fixpoint all_digits_then (s : string) (k : string -> bool) (some : bool) : bool :=
  match s with
  | String c r => if is_digit c then all_digits_then r k true else some && k s
  | EmptyString => false
  end.

(** The pattern [^ns=\d+;[isgb]=]. *)
Definition match_opcua (s : string) : bool :=
  has_prefix s "ns=" &&
  all_digits_then (drop_str 3 s)
    (fun t => match t with
     | String a (String b (String c _)) =>
       (code a =? 59) && contains_byte "isgb" b && (code c =? 61)
     | _ => false
     end) false.

Definition match_mqtt (s : string) : bool := contains_byte s "/".

Definition InferProtocol (localID : string) : string :=
  if match_opcua localID then "opcua" else if match_mqtt localID then "mqtt" else "".

(** The UTF-8 byte order mark. *)
Definition bom : string := String (chr 239) (String (chr 187) (String (chr 191) "")).

(** Column positions by trimmed header name; a later duplicate wins. *)
Fixpoint header_cols (i : nat) (names : list string) (m : gmap string nat) : gmap string nat :=
  match names with
  | [] => m
  | n :: rest => header_cols (S i) rest (<[trim_space n := i]> m)
  end.

Definition header (row : list string) : gmap string nat :=
  match row with
  | [] => ∅
  | h :: t => header_cols 0 (trim_prefix h bom :: t) ∅
  end.

Definition get (col : gmap string nat) (row : list string) (name : string) : string :=
  match col !! name with
  | Some i => match row !! i with Some v => trim_space v | None => "" end
  | None => ""
  end.

(** [warnFallback]: what it logs and the protocols reported afterwards. *)
Definition warnFallback (warned : gset string) (opts : CSVOptions) (proto : string)
  : gset string * list csv_log :=
  if decide (proto ∈ warned) then (warned, [])
  else if String.eqb (opt_ConnectorID opts) "" then ({[proto]} ∪ warned, [LogNoConnector proto])
  else if decide (opt_ConnectorMap opts = ∅) then (warned, [])
  else ({[proto]} ∪ warned, [LogFallback proto]).

(** The address of a row: [None] skips it; the protocol is empty unless the
    BACnet columns give it. *)
Definition row_address (objType instance localIDCol releaseOf : string) : option (string * string) :=
  if negb (String.eqb objType "") && negb (String.eqb instance "") then
    Some (objType +:+ "," +:+ instance, "bacnet")
  else if negb (String.eqb releaseOf "") then Some (localIDCol, "")
  else if negb (String.eqb localIDCol "") then Some (localIDCol, "")
  else None.

Definition row_protocol (bacnet : bool) (releaseOf localID column : string) : string * bool :=
  if bacnet then ("bacnet", false)
  else
    let p := to_lower (trim_space column) in
    if negb (String.eqb releaseOf "") then (p, false)
    else if negb (String.eqb p "") then (p, false)
    else let q := InferProtocol localID in
         if String.eqb q "" then ("unknown", true) else (q, false).

(** The connector of a row, and whether it fell back to the default. *)
Definition row_connector (opts : CSVOptions) (column proto : string) : string * bool :=
  if negb (String.eqb column "") then (column, false)
  else match opt_ConnectorMap opts !! proto with
       | Some v => if String.eqb v "" then (opt_ConnectorID opts, true) else (v, false)
       | None => (opt_ConnectorID opts, true)
       end.

(** The state of the loop over rows. *)
Record csv_state := { cs_entries : list Entry; cs_seen : gset string; cs_warned : gset string;
                      cs_log : list csv_log }.

Definition csv_row (col : gmap string nat) (opts : CSVOptions) (s : csv_state) (row : list string)
  : csv_state :=
  let g := get col row in
  let pointID := g "point_id" in
  if String.eqb pointID "" then s else
  let releaseOf := g "release_of" in
  match row_address (g "object_type_bacnet") (g "instance_no_bacnet") (g "local_id") releaseOf with
  | None => s
  | Some (localID, proto0) =>
    let '(proto, guessed) := row_protocol (String.eqb proto0 "bacnet") releaseOf localID (g "protocol") in
    let log1 := if guessed then [LogInfer pointID] else [] in
    let '(cid, fell) := row_connector opts (g "connector_id") proto in
    let '(warned, log2) :=
      if fell && String.eqb releaseOf "" then warnFallback (cs_warned s) opts proto
      else (cs_warned s, []) in
    if decide (pointID ∈ cs_seen s) then
      {| cs_entries := cs_entries s; cs_seen := cs_seen s; cs_warned := warned;
         cs_log := cs_log s ++ log1 ++ log2 ++ [LogDuplicate pointID] |}
    else
      {| cs_entries := cs_entries s ++
           [mkEntry releaseOf cid proto localID pointID (g "unit") (equal_fold (g "writable") "true")
              (g "device_id") ""];
         cs_seen := {[pointID]} ∪ cs_seen s; cs_warned := warned;
         cs_log := cs_log s ++ log1 ++ log2 |}
  end.

(** [LoadCSV], given what reading the input returned. *)
Definition LoadCSV (input : result file_error string) (opts : CSVOptions)
  : result csv_error (list Entry * list csv_log) :=
  match input with
  | Err _ => Err CsvRead
  | Ok data =>
    match csv_read_all data with
    | None => Err CsvRead
    | Some [] => Err CsvEmpty
    | Some (h :: rows) =>
      let col := header h in
      match col !! "point_id" with
      | None => Err CsvNoPointID
      | Some _ =>
        let s := fold_left (csv_row col opts) rows
                   {| cs_entries := []; cs_seen := ∅; cs_warned := ∅; cs_log := [] |} in
        Ok (cs_entries s, cs_log s)
      end
    end
  end.

(** ** Which entry a lookup answers from *)

(** The last entry satisfying [p]. *)
Definition last_entry (p : Entry -> bool) (es : list Entry) : option Entry := last (List.filter p es).

Definition at_address (c l : string) (e : Entry) : bool :=
  String.eqb (ReleaseOf e) "" && String.eqb (ConnectorID e) c && String.eqb (LocalID e) l.

Lemma last_entry_snoc p es e :
  last_entry p (es ++ [e]) = if p e then Some e else last_entry p es.
Proof.
  unfold last_entry. rewrite List.filter_app. cbn. destruct (p e); [apply last_snoc|].
  rewrite app_nil_r. reflexivity.
Qed.

Lemma key_inj c c' l l' : contains_byte c nul = false -> contains_byte c' nul = false ->
  key c l = key c' l' -> c = c' /\ l = l'.
Proof.
  unfold key. revert c'. induction c as [|a c IH]; intros [|a' c']; cbn.
  - intros _ _ [= ->]. auto.
  - intros _ H. apply orb_false_elim in H as [H _]. intros [= <- _].
    rewrite Ascii.eqb_refl in H. discriminate.
  - intros H _. apply orb_false_elim in H as [H _]. intros [= -> _].
    rewrite Ascii.eqb_refl in H. discriminate.
  - intros H H' [= -> E]. bools. destruct (IH c' ltac:(assumption) ltac:(assumption) E) as [-> ->]. auto.
Qed.

Lemma forward_lookup es c l : contains_byte c nul = false ->
  Forall (fun e => contains_byte (ConnectorID e) nul = false) es ->
  fold_left forward_entry es ∅ !! key c l = option_map PointID (last_entry (at_address c l) es).
Proof.
  intros Hc. induction es as [|e es IH] using rev_ind; intros Hf; [reflexivity|].
  apply Forall_app in Hf as [Hf He]. inversion He as [|? ? Hce _]; subst.
  rewrite fold_left_app, last_entry_snoc. cbn [fold_left]. unfold forward_entry at 1, at_address at 1.
  destruct (String.eqb (ReleaseOf e) ""); cbn [andb]; [|apply IH; assumption].
  destruct (String.eqb_spec (ConnectorID e) c) as [<-|Hne]; cbn [andb];
    [destruct (String.eqb_spec (LocalID e) l) as [<-|Hne]|].
  - rewrite lookup_insert_eq. reflexivity.
  - rewrite lookup_insert_ne; [apply IH; assumption|]. intros E.
    apply key_inj in E as [_ E]; auto.
  - rewrite lookup_insert_ne; [apply IH; assumption|]. intros E.
    apply key_inj in E as [E _]; auto.
Qed.

Lemma reverse_lookup es p :
  fold_left (fun m e => <[PointID e := e]> m) es (∅ : gmap string Entry) !! p
  = last_entry (fun e => String.eqb (PointID e) p) es.
Proof.
  induction es as [|e es IH] using rev_ind; [reflexivity|].
  rewrite fold_left_app, last_entry_snoc. cbn [fold_left].
  destruct (String.eqb_spec (PointID e) p) as [<-|Hne].
  - apply lookup_insert_eq.
  - rewrite lookup_insert_ne by assumption. exact IH.
Qed.

(** after [Update], the forward lookup answers with the last telemetry entry
    (not a release point) at that connector and native address, the reverse
    lookup with the last entry of that point, and the control lookup with that
    entry and its release target from the same list; connector names contain no
    NUL. *)
Theorem Update_lookups (r : SyncedResolver) (es : list Entry) (c l p : string) :
  contains_byte c nul = false -> Forall (fun e => contains_byte (ConnectorID e) nul = false) es ->
  Resolve (Update r es) c l = option_map PointID (last_entry (at_address c l) es) /\
  ResolveReverse (Update r es) p = last_entry (fun e => String.eqb (PointID e) p) es /\
  ResolveControl (Update r es) p =
    match last_entry (fun e => String.eqb (PointID e) p) es with
    | None => (zero_entry, zero_entry, false)
    | Some e =>
      (e, if String.eqb (ReleaseOf e) "" then e
          else default zero_entry (last_entry (fun x => String.eqb (PointID x) (ReleaseOf e)) es), true)
    end /\
  Snapshot (Update r es) = es.
Proof.
  intros Hc Hf. split; [apply forward_lookup; assumption|]. split; [apply reverse_lookup|].
  split; [|reflexivity]. unfold ResolveControl. cbn [Update ptr reverse]. rewrite reverse_lookup.
  destruct (last_entry _ es) as [e|]; [|reflexivity]. cbn [default from_option]. unfold id.
  rewrite reverse_lookup. reflexivity.
Qed.

Definition sample : list Entry :=
  [mkEntry "" "bacnet-1" "bacnet" "ai,1" "p1" "degC" false "" "";
   mkEntry "p1" "bacnet-1" "bacnet" "ai,1" "p1-release" "" true "" ""].

Lemma Update_lookups_witness :
  Resolve (Update (NewSynced None) sample) "bacnet-1" "ai,1" = Some "p1" /\
  exists e t, ResolveControl (Update (NewSynced None) sample) "p1-release" = (e, t, true) /\ PointID t = "p1".
Proof.
  destruct (Update_lookups (NewSynced None) sample "bacnet-1" "ai,1" "p1-release")
    as (H1 & _ & H2 & _); [reflexivity | repeat constructor |].
  split; [rewrite H1; reflexivity|]. rewrite H2. eexists _, _. split; reflexivity.
Defined.

(** ** A persisted snapshot loads back *)

Definition valid_entry (e : Entry) : bool :=
  forallb valid_utf8 [ReleaseOf e; ConnectorID e; Protocol e; LocalID e; PointID e; Unit e;
                      DeviceRef e; ControlSchema e].

Lemma entry_unjson_json e : entry_unjson (entry_json e) = Some e.
Proof.
  destruct e as [rel con pro loc poi uni wri dev ctl]. unfold entry_unjson, entry_json.
  cbn [decode_struct ReleaseOf ConnectorID Protocol LocalID PointID Unit Writable DeviceRef ControlSchema app].
  rewrite <- (app_nil_r (omit_empty "control_schema" ctl)).
  erewrite (decode_omit_empty _ _ _ _ (fun s => mkEntry s "" "" "" "" "" false "" ""));
    [|cbn; tauto | reflexivity | reflexivity].
  do 4 (erewrite decode_member; [|cbn; tauto | reflexivity]). cbn [app].
  erewrite (decode_omit_empty _ _ _ _ (fun s => mkEntry rel con pro loc poi s false "" ""));
    [|cbn; tauto | reflexivity | reflexivity].
  erewrite (decode_omit_false _ _ _ _ (fun b => mkEntry rel con pro loc poi uni b "" ""));
    [|cbn; tauto | reflexivity | reflexivity].
  erewrite (decode_omit_empty _ _ _ _ (fun s => mkEntry rel con pro loc poi uni wri s ""));
    [|cbn; tauto | reflexivity | reflexivity].
  erewrite (decode_omit_empty _ _ _ _ (fun s => mkEntry rel con pro loc poi uni wri dev s));
    [|cbn; tauto | reflexivity | reflexivity].
  reflexivity.
Qed.

Lemma entry_json_valid e : valid_entry e = true -> valid (entry_json e) = true.
Proof.
  unfold valid_entry, entry_json. cbn [forallb]. intros. bools. cbn [valid].
  change (fun kv : string * json => valid_utf8 (fst kv) && valid (snd kv)) with valid_member.
  rewrite !forallb_app, !valid_omit_empty, valid_omit_false by (reflexivity || assumption).
  cbn [forallb]. rewrite !valid_str_member by (reflexivity || assumption). reflexivity.
Qed.

Lemma entry_json_depth e : depth_of (entry_json e) <= 1.
Proof. apply depth_flat. auto 12 with gw. Qed.

Lemma entries_unjson_persist r : forallb valid_entry (Snapshot r) = true ->
  entries_unjson (persist_bytes r) = Some (Snapshot r).
Proof.
  intros Hv.
  unfold entries_unjson, persist_bytes. rewrite parse_marshal_indent.
  - cbn [decode_slice]. assert (forall es, decode_list entry_unjson (map entry_json es) = Some es) as ->; [|reflexivity].
    induction es as [|e es IH]; cbn [map decode_list]; [reflexivity|].
    rewrite entry_unjson_json, IH. reflexivity.
  - cbn [valid]. apply forallb_forall. intros v Hin. apply in_map_iff in Hin as (e & <- & He).
    rewrite forallb_forall in Hv. apply entry_json_valid. auto.
  - cbn [depth_of]. unfold max_nesting.
    assert (fold_right (fun x m => Z.max (depth_of x) m) 0 (map entry_json (Snapshot r)) <= 1); [|lia].
    induction (Snapshot r) as [|e es IH]; cbn [map fold_right]; [lia|].
    pose proof (entry_json_depth e). cbn [forallb] in Hv. bools. specialize (IH ltac:(assumption)). lia.
Qed.

(** what [Persist] writes, [Load] restores: for entries whose strings are
    valid UTF-8 the loaded resolver has the same entries and answers every
    lookup alike.  A missing file changes nothing, and an unreadable or
    malformed one is an error that changes nothing. *)
Theorem Persist_Load_roundtrip (r r' : SyncedResolver) :
  forallb valid_entry (Snapshot r) = true ->
  Load r' (Ok (persist_bytes r)) = (Update r' (Snapshot r), None) /\
  Load r' (Err NotExist) = (r', None) /\ fst (Load r' (Err IOError)) = r' /\
  (forall data, entries_unjson data = None -> Load r' (Ok data) = (r', Some LoadJSON)).
Proof.
  intros Hv. split; [|repeat split; intros data E; cbn; rewrite E; reflexivity].
  unfold Load. rewrite entries_unjson_persist by assumption. reflexivity.
Qed.

Lemma Persist_Load_roundtrip_witness :
  Snapshot (fst (Load (NewSynced None) (Ok (persist_bytes (Update (NewSynced None) sample))))) = sample.
Proof.
  destruct (Persist_Load_roundtrip (Update (NewSynced None) sample) (NewSynced None)) as [E _];
    [vm_compute; reflexivity|].
  rewrite E. reflexivity.
Defined.

(** ** What a loaded CSV satisfies *)

(** The entry of a row taken on its own; [None] for a skipped row. *)
Definition row_entry (col : gmap string nat) (opts : CSVOptions) (row : list string) : option Entry :=
  let g := get col row in
  if String.eqb (g "point_id") "" then None else
  match row_address (g "object_type_bacnet") (g "instance_no_bacnet") (g "local_id") (g "release_of") with
  | None => None
  | Some (localID, proto0) =>
    let proto := fst (row_protocol (String.eqb proto0 "bacnet") (g "release_of") localID (g "protocol")) in
    Some (mkEntry (g "release_of") (fst (row_connector opts (g "connector_id") proto)) proto localID
            (g "point_id") (g "unit") (equal_fold (g "writable") "true") (g "device_id") "")
  end.

(** The first entry of each point. *)
Fixpoint keep_first (seen : list string) (es : list Entry) : list Entry :=
  match es with
  | [] => []
  | e :: es' =>
    if existsb (String.eqb (PointID e)) seen then keep_first seen es'
    else e :: keep_first (PointID e :: seen) es'
  end.

Definition option_list {A} (o : option A) : list A := match o with Some a => [a] | None => [] end.

Definition fallback_of (l : csv_log) : list string :=
  match l with LogNoConnector p | LogFallback p => [p] | _ => [] end.

Record csv_inv (s : csv_state) : Prop := {
  ci_seen : forall p, p ∈ cs_seen s <-> In p (map PointID (cs_entries s));
  ci_warned : forall p, In p (flat_map fallback_of (cs_log s)) -> p ∈ cs_warned s;
  ci_once : NoDup (flat_map fallback_of (cs_log s))
}.

Lemma warnFallback_spec warned opts proto w l : warnFallback warned opts proto = (w, l) ->
  (w = warned /\ l = []) \/
  ((proto ∉ warned) /\ w = {[proto]} ∪ warned /\ flat_map fallback_of l = [proto]).
Proof.
  unfold warnFallback. case_decide; [intros [= <- <-]; auto|].
  destruct (String.eqb _ ""); [intros [= <- <-]; auto|].
  case_decide; intros [= <- <-]; auto.
Qed.

(** The entries and the once-per-protocol reports of one row. *)
Lemma csv_row_spec col opts s row : csv_inv s ->
  csv_inv (csv_row col opts s row) /\
  cs_entries (csv_row col opts s row) = cs_entries s ++
    match row_entry col opts row with
    | None => []
    | Some e => if existsb (String.eqb (PointID e)) (map PointID (cs_entries s)) then [] else [e]
    end.
Proof.
  intros Hinv. unfold csv_row, row_entry. set (g := get col row).
  destruct (String.eqb (g "point_id") ""); [rewrite app_nil_r; auto|].
  destruct (row_address _ _ _ _) as [[localID proto0]|]; [|rewrite app_nil_r; auto].
  destruct (row_protocol _ _ localID _) as [proto guessed]. cbn [fst].
  destruct (row_connector opts (g "connector_id") proto) as [cid fell]. cbn [fst PointID].
  destruct (if fell && String.eqb (g "release_of") "" then _ else _) as [w l2] eqn:EW.
  assert ((w = cs_warned s /\ flat_map fallback_of l2 = []) \/
          ((proto ∉ cs_warned s) /\ w = {[proto]} ∪ cs_warned s /\ flat_map fallback_of l2 = [proto])) as Hw.
  { destruct (fell && String.eqb (g "release_of") "").
    - apply warnFallback_spec in EW as [[-> ->]|?]; auto.
    - injection EW as <- <-. auto. }
  destruct Hinv as [Hseen Hwarn Honce].
  assert (forall extra, flat_map fallback_of extra = [] ->
    let log := cs_log s ++ (if guessed then [LogInfer (g "point_id")] else []) ++ l2 ++ extra in
    (forall p, In p (flat_map fallback_of log) -> p ∈ w) /\ NoDup (flat_map fallback_of log)) as Hlog.
  { intros extra Hx log. unfold log. rewrite !flat_map_app, Hx, app_nil_r.
    replace (flat_map fallback_of (if guessed then _ else _)) with (@nil string) by (destruct guessed; reflexivity).
    cbn [app]. destruct Hw as [[-> ->]|(Hn & -> & ->)].
    - rewrite app_nil_r. auto.
    - split.
      + intros p Hp. apply in_app_or in Hp as [Hp|[<-|[]]]; [apply Hwarn in Hp|];
          rewrite elem_of_union, elem_of_singleton; auto.
      + apply NoDup_app. split; [assumption|]. split; [|apply NoDup_singleton].
        intros p Hp Hp'. apply list_elem_of_In, Hwarn in Hp. apply list_elem_of_singleton in Hp' as ->.
        contradiction. }
  case_decide as Hd.
  - assert (existsb (String.eqb (g "point_id")) (map PointID (cs_entries s)) = true) as ->.
    { apply existsb_exists. exists (g "point_id"). split; [apply Hseen; assumption | apply String.eqb_refl]. }
    rewrite app_nil_r. split; [|reflexivity].
    destruct (Hlog [LogDuplicate (g "point_id")] eq_refl). constructor; cbn; auto.
  - assert (existsb (String.eqb (g "point_id")) (map PointID (cs_entries s)) = false) as ->.
    { apply not_true_is_false. intros E. apply existsb_exists in E as (p & Hp & Ep).
      apply String.eqb_eq in Ep as <-. apply Hseen in Hp. contradiction. }
    split; [|reflexivity]. destruct (Hlog [] eq_refl) as [H1 H2]. rewrite app_nil_r in H1, H2.
    constructor; cbn; auto. intros p. rewrite map_app, in_app_iff, elem_of_union, elem_of_singleton, Hseen. cbn.
    intuition congruence.
Qed.

Lemma keep_first_ext es : forall seen seen', (forall p, In p seen <-> In p seen') ->
  keep_first seen es = keep_first seen' es.
Proof.
  induction es as [|e es IH]; intros seen seen' H; cbn; [reflexivity|].
  assert (existsb (String.eqb (PointID e)) seen = existsb (String.eqb (PointID e)) seen') as ->.
  { apply eq_true_iff_eq. rewrite !existsb_exists. split; intros (p & Hp & Ep); exists p; split; auto; apply H; auto. }
  rewrite (IH seen seen' H), (IH (PointID e :: seen) (PointID e :: seen')); [reflexivity|].
  intros p. cbn. rewrite H. tauto.
Qed.

Lemma csv_rows_spec col opts rows : forall s, csv_inv s ->
  csv_inv (fold_left (csv_row col opts) rows s) /\
  cs_entries (fold_left (csv_row col opts) rows s)
  = cs_entries s ++ keep_first (map PointID (cs_entries s))
                      (flat_map (fun r => option_list (row_entry col opts r)) rows).
Proof.
  induction rows as [|row rows IH]; intros s Hs; cbn [fold_left flat_map keep_first].
  - rewrite app_nil_r. auto.
  - destruct (csv_row_spec col opts s row Hs) as [Hs1 E1]. destruct (IH _ Hs1) as [Hs2 E2].
    split; [assumption|]. rewrite E2, E1. destruct (row_entry col opts row) as [e|]; cbn [option_list app].
    + cbn [keep_first]. destruct (existsb _ _); [rewrite app_nil_r; reflexivity|].
      rewrite <- app_assoc. cbn [app]. f_equal. f_equal. apply keep_first_ext.
      intros p. rewrite map_app, in_app_iff. cbn. tauto.
    + rewrite app_nil_r. reflexivity.
Qed.

Lemma keep_first_spec es : forall seen,
  NoDup (map PointID (keep_first seen es)) /\
  (forall e, In e (keep_first seen es) -> In e es /\ ~ In (PointID e) seen) /\
  (forall e, In e es -> In (PointID e) seen \/ In (PointID e) (map PointID (keep_first seen es))).
Proof.
  induction es as [|e es IH]; intros seen; cbn [keep_first].
  - split; [constructor|]. split; intros ? [].
  - destruct (existsb (String.eqb (PointID e)) seen) eqn:E.
    + apply existsb_exists in E as (p & Hp & Ep). apply String.eqb_eq in Ep as <-.
      destruct (IH seen) as (H1 & H2 & H3). split; [assumption|]. split.
      * intros x Hx. destruct (H2 x Hx). cbn. auto.
      * intros x [<-|Hx]; auto.
    + assert (~ In (PointID e) seen) as Hn.
      { intros Hin. assert (existsb (String.eqb (PointID e)) seen = true); [|congruence].
        apply existsb_exists. exists (PointID e). split; [assumption | apply String.eqb_refl]. }
      destruct (IH (PointID e :: seen)) as (H1 & H2 & H3). cbn [map]. split; [|split].
      * constructor; [|assumption]. intros Hin. apply list_elem_of_In, in_map_iff in Hin as (x & Ex & Hx).
        destruct (H2 x Hx) as [_ Hx']. apply Hx'. left. auto.
      * intros x [<-|Hx]; [cbn; auto|]. destruct (H2 x Hx) as [? Hx']. cbn in *. tauto.
      * intros x [<-|Hx]; [cbn; auto|]. destruct (H3 x Hx) as [[?|?]|?]; cbn; auto.
Qed.

Lemma row_entry_ok col opts row e : row_entry col opts row = Some e ->
  PointID e <> "" /\ (LocalID e <> "" \/ ReleaseOf e <> "").
Proof.
  unfold row_entry. set (g := get col row). destruct (String.eqb_spec (g "point_id") ""); [discriminate|].
  destruct (row_address _ _ _ _) as [[localID proto0]|] eqn:EA; [|discriminate]. intros [= <-]. cbn.
  split; [assumption|]. unfold row_address in EA.
  destruct (negb (String.eqb (g "object_type_bacnet") "") && _).
  - injection EA as <- _. left. destruct (g "object_type_bacnet"); discriminate.
  - destruct (String.eqb_spec (g "release_of") ""); cbn in EA; [|auto].
    destruct (String.eqb_spec (g "local_id") ""); cbn in EA; [discriminate|].
    injection EA as <- _. auto.
Qed.

(** a loaded CSV is the list of its acceptable rows in order, the first row
    of each point winning: points are distinct and non-empty, each entry has a
    native address or is a release point, every acceptable row's point is
    present, and an unmapped protocol is reported at most once per load. *)
Theorem LoadCSV_exact (input : result file_error string) (opts : CSVOptions) es log :
  LoadCSV input opts = Ok (es, log) ->
  exists h rows, csv_read_all (match input with Ok d => d | Err _ => "" end) = Some (h :: rows) /\
    es = keep_first [] (flat_map (fun r => option_list (row_entry (header h) opts r)) rows) /\
    NoDup (map PointID es) /\
    Forall (fun e => PointID e <> "" /\ (LocalID e <> "" \/ ReleaseOf e <> "")) es /\
    (forall row e, In row rows -> row_entry (header h) opts row = Some e -> In (PointID e) (map PointID es)) /\
    NoDup (flat_map fallback_of log).
Proof.
  unfold LoadCSV. destruct input as [data|]; [|discriminate].
  destruct (csv_read_all data) as [[|h rows]|]; try discriminate.
  destruct (header h !! "point_id"); [|discriminate]. intros [= <- <-]. exists h, rows.
  set (s0 := {| cs_entries := []; cs_seen := ∅; cs_warned := ∅; cs_log := [] |}).
  assert (csv_inv s0) as H0 by (constructor; cbn; [set_solver | intros ? [] | constructor]).
  destruct (csv_rows_spec (header h) opts rows s0 H0) as [[_ _ Honce] E]. cbn [cs_entries s0 map app] in E.
  rewrite E. destruct (keep_first_spec (flat_map (fun r => option_list (row_entry (header h) opts r)) rows) [])
    as (H1 & H2 & H3).
  split; [reflexivity|]. split; [reflexivity|]. split; [assumption|]. split; [|split; [|assumption]].
  - apply Forall_forall. intros e He. apply list_elem_of_In, H2 in He as [He _].
    apply in_flat_map in He as (row & _ & He). destruct (row_entry (header h) opts row) eqn:Er; [|destruct He].
    destruct He as [<-|[]]. eapply row_entry_ok, Er.
  - intros row e Hrow Er. destruct (H3 e) as [[]|?]; [|assumption].
    apply in_flat_map. exists row. rewrite Er. cbn. auto.
Qed.

Definition sample_csv : string :=
  "point_id,local_id,unit" +:+ str1 10 +:+ "p1,ns=2;s=PT001,degC" +:+ str1 10 +:+
  "p2,sensors/room1/temp," +:+ str1 10 +:+ "p1,other,K" +:+ str1 10 +:+ ",x," +:+ str1 10.

Lemma LoadCSV_exact_witness :
  exists es log, LoadCSV (Ok sample_csv) {| opt_ConnectorID := "c1"; opt_ConnectorMap := ∅ |} = Ok (es, log) /\
    map (fun e => (PointID e, Protocol e, ConnectorID e)) es = [("p1", "opcua", "c1"); ("p2", "mqtt", "c1")] /\
    NoDup (map PointID es).
Proof.
  destruct (LoadCSV (Ok sample_csv) {| opt_ConnectorID := "c1"; opt_ConnectorMap := ∅ |}) as [[es log]|e] eqn:E;
    [|vm_compute in E; discriminate].
  exists es, log. split; [reflexivity|]. split.
  - vm_compute in E. injection E as <- _. reflexivity.
  - destruct (LoadCSV_exact _ _ _ _ E) as (_ & _ & _ & _ & H & _). exact H.
Defined.
