(* ===== verification/Normalizer.v ===== *)
(** * Common events and the normalizer

    [src/internal/common] and [src/internal/normalizer]: the event a connector
    publishes, its JSON form with the discriminated scalar [Value], the pure
    [Normalize] that turns it into a telemetry frame, and the consume loop that
    settles every fetched message.  The theorems give [Normalize] on every
    payload, show that a published event arrives unchanged, and account for
    every message the loop fetches. *)

From Stdlib Require Import ZArith Lia Bool Ascii String List SpecFloat.
From stdpp Require Import base list strings gmap sorting.
From S2P Require Import Prelude Json GoText Float Wire PointList Pump.
#[local] Open Scope string_scope.
#[local] Open Scope list_scope.
#[local] Open Scope Z_scope.

(** ** Values *)

(** [ValueInvalid] is the zero value. *)
Inductive Value :=
| ValueInvalid
| NumberValue (x : float64)
| StringValue (s : string)
| BoolValue (b : bool).

#[export] Instance Value_eq_dec : EqDecision Value.
Proof. solve_decision. Defined.

(** [MarshalJSON]: [None] is an error. *)
Definition value_json (v : Value) : option json :=
  match v with
  | ValueInvalid => None
  | NumberValue x => if f64_finite x then option_map JNum (format_f64 x) else None
  | StringValue s => Some (JStr s)
  | BoolValue b => Some (JBool b)
  end.

(** [UnmarshalJSON], on the value's syntax. *)
Definition value_unjson (v : json) : option Value :=
  match v with
  | JNum lit =>
    match parse_f64 lit with
    | Some x => if f64_finite x then Some (NumberValue x) else None
    | None => None
    end
  | JStr s => Some (StringValue s)
  | JBool b => Some (BoolValue b)
  | _ => None
  end.

(** ** Events *)

Record Event := mkEvent {
  ev_Protocol : string;
  ev_ConnectorID : string;
  ev_LocalID : string;
  ev_DeviceRef : string;
  ev_Value : Value;
  ev_Unit : string;
  ev_Quality : string;
  ev_Timestamp : string;
  ev_Attributes : gmap string string
}.

Definition zero_event : Event := mkEvent "" "" "" "" ValueInvalid "" "" "" ∅.

(** A [map[string]string] is written with its keys sorted, and read into the
    map already there. *)
Definition key_le (a b : string * string) : Prop := String.leb (fst a) (fst b) = true.
#[export] Instance key_le_dec : RelDecision key_le.
Proof. intros a b. unfold key_le. apply _. Defined.

Definition map_json (m : gmap string string) : json :=
  JObj (map (fun kv => (fst kv, JStr (snd kv))) (merge_sort key_le (map_to_list m))).

Fixpoint map_members (cur : gmap string string) (l : list (string * json)) : option (gmap string string) :=
  match l with
  | [] => Some cur
  | (k, v) :: l => match decode_str "" v with Some s => map_members (<[k := s]> cur) l | None => None end
  end.

Definition map_unjson (cur : gmap string string) (v : json) : option (gmap string string) :=
  match v with JObj l => map_members cur l | JNull => Some ∅ | _ => None end.

Definition event_names : list string :=
  ["protocol"; "connector_id"; "local_id"; "device_ref"; "value"; "unit"; "quality"; "timestamp"; "attributes"].

Definition event_json (e : Event) : option json :=
  match value_json (ev_Value e) with
  | None => None
  | Some v =>
    Some (JObj ([("protocol", JStr (ev_Protocol e)); ("connector_id", JStr (ev_ConnectorID e));
                 ("local_id", JStr (ev_LocalID e)); ("device_ref", JStr (ev_DeviceRef e)); ("value", v);
                 ("unit", JStr (ev_Unit e)); ("quality", JStr (ev_Quality e));
                 ("timestamp", JStr (ev_Timestamp e))]
                ++ (if decide (ev_Attributes e = ∅) then [] else [("attributes", map_json (ev_Attributes e))])))
  end.

Definition event_set (f : string) (v : json) (e : Event) : option Event :=
  if String.eqb f "protocol" then option_map (fun s => {| e with ev_Protocol := s |}) (decode_str (ev_Protocol e) v)
  else if String.eqb f "connector_id" then option_map (fun s => {| e with ev_ConnectorID := s |}) (decode_str (ev_ConnectorID e) v)
  else if String.eqb f "local_id" then option_map (fun s => {| e with ev_LocalID := s |}) (decode_str (ev_LocalID e) v)
  else if String.eqb f "device_ref" then option_map (fun s => {| e with ev_DeviceRef := s |}) (decode_str (ev_DeviceRef e) v)
  else if String.eqb f "value" then option_map (fun x => {| e with ev_Value := x |}) (value_unjson v)
  else if String.eqb f "unit" then option_map (fun s => {| e with ev_Unit := s |}) (decode_str (ev_Unit e) v)
  else if String.eqb f "quality" then option_map (fun s => {| e with ev_Quality := s |}) (decode_str (ev_Quality e) v)
  else if String.eqb f "timestamp" then option_map (fun s => {| e with ev_Timestamp := s |}) (decode_str (ev_Timestamp e) v)
  else if String.eqb f "attributes" then option_map (fun m => {| e with ev_Attributes := m |}) (map_unjson (ev_Attributes e) v)
  else Some e.

Definition event_unjson (data : string) : option Event :=
  match parse data with
  | Some v => decode_struct false event_names event_set zero_event v
  | None => None
  end.

(** ** Normalize *)

Inductive Outcome := OutcomeOK | OutcomePoison | OutcomeMiss.

Definition deviates (quality : string) : bool :=
  negb (String.eqb quality "") && negb (String.eqb quality "Good").

Definition event_attrs (evt : Event) : gmap string string :=
  if negb (bool_decide (ev_Attributes evt = ∅)) || negb (String.eqb (ev_Unit evt) "") || deviates (ev_Quality evt)
  then
    let attrs := ev_Attributes evt in
    let attrs := if negb (String.eqb (ev_Unit evt) "") then <["unit" := ev_Unit evt]> attrs else attrs in
    if deviates (ev_Quality evt) then <["quality" := ev_Quality evt]> attrs else attrs
  else ∅.

(** [now] is the current time in RFC 3339. *)
Definition Normalize {R} `{Resolver R} (now : string) (data : string) (resolver : R) (gatewayID : string)
  : option TelemetryFrame * Outcome :=
  match event_unjson data with
  | None => (None, OutcomePoison)
  | Some evt =>
    match Resolve resolver (ev_ConnectorID evt) (ev_LocalID evt) with
    | None => (None, OutcomeMiss)
    | Some pointID =>
      let ts := if String.eqb (ev_Timestamp evt) "" then now else ev_Timestamp evt in
      let frame v := (Some (mkFrame gatewayID pointID (Some v) ts (event_attrs evt)), OutcomeOK) in
      match ev_Value evt with
      | NumberValue x => frame (ValueNum x)
      | StringValue s => frame (ValueStr s)
      | BoolValue b => frame (ValueBool b)
      | ValueInvalid => (None, OutcomePoison)
      end
    end
  end.

(** ** The consume loop *)

(** A fetched message: an identifier for its ack controls, its payload, and its
    stream sequence and delivery count when the metadata is readable. *)
Record EventMsg := { em_id : Z; em_data : string; em_meta : option (Z * Z) }.

Inductive settle := Term (msg : Z) | Nak (msg : Z) | Handed (fm : FrameMsg).

Definition fetchBatch : Z := 32.
Definition frames_cap : Z := 256.

Record normalizer := {
  frames : list FrameMsg;
  n_settled : list settle;
  n_redelivered : Z;
  n_invalid : Z;
  n_unresolved : Z;
  n_stopped : bool
}.

Definition start : normalizer :=
  {| frames := []; n_settled := []; n_redelivered := 0; n_invalid := 0; n_unresolved := 0; n_stopped := false |}.

Section Consume.
Context {R : Type} `{Resolver R} (gatewayID : string).

(** One message.  [done] is whether the select finds the context cancelled
    instead of sending; with room in the channel it may take either branch when
    both are ready. *)
Definition consume_msg (resolver : R) (now : string) (done : bool) (n : normalizer) (m : EventMsg) : normalizer :=
  let seq := match em_meta m with Some (s, _) => s | None => 0 end in
  let n := match em_meta m with
           | Some (_, d) => if 1 <? d then {| n with n_redelivered := u64 (n_redelivered n + 1) |} else n
           | None => n
           end in
  match Normalize now (em_data m) resolver gatewayID with
  | (Some frame, OutcomeOK) =>
    if done then {| n with n_settled := n_settled n ++ [Nak (em_id m)]; n_stopped := true |}
    else
      let fm := {| FM_Frame := frame; FM_Msg := Some (em_id m); FM_Seq := seq |} in
      {| n with frames := frames n ++ [fm]; n_settled := n_settled n ++ [Handed fm] |}
  | (_, OutcomeMiss) =>
    {| n with n_unresolved := u64 (n_unresolved n + 1); n_settled := n_settled n ++ [Term (em_id m)] |}
  | _ => {| n with n_invalid := u64 (n_invalid n + 1); n_settled := n_settled n ++ [Term (em_id m)] |}
  end.

(** A message of a batch with what the loop meets there: the resolver's state,
    the clock, the context, and how many frames the pump takes first. *)
Record arrival := { a_msg : EventMsg; a_resolver : R; a_now : string; a_done : bool; a_taken : nat }.

Definition take_frames (k : nat) (n : normalizer) : normalizer := {| n with frames := drop k (frames n) |}.

Fixpoint consume_batch (n : normalizer) (batch : list arrival) : normalizer :=
  match batch with
  | [] => n
  | a :: batch =>
    let n := consume_msg (a_resolver a) (a_now a) (a_done a) (take_frames (a_taken a) n) (a_msg a) in
    if n_stopped n then n else consume_batch n batch
  end.

(** What one iteration of the loop meets: the context is done, or the source
    answers a fetch of at most [k] messages. *)
Inductive round := CtxDone | Fetched (taken : nat) (source : Z -> list arrival).

Fixpoint consume (n : normalizer) (rounds : list round) : normalizer :=
  match rounds with
  | [] => n
  | CtxDone :: _ => {| n with n_stopped := true |}
  | Fetched taken source :: rounds =>
    let n := take_frames taken n in
    let free := frames_cap - Z.of_nat (length (frames n)) in
    if free =? 0 then consume n rounds
    else
      let n := consume_batch n (source (Z.min fetchBatch free)) in
      if n_stopped n then n else consume n rounds
  end.
End Consume.

(** ** What [Normalize] does *)

Lemma event_attrs_lookup evt k : event_attrs evt !! k =
  if decide (k = "quality" /\ ev_Quality evt <> "" /\ ev_Quality evt <> "Good") then Some (ev_Quality evt)
  else if decide (k = "unit" /\ ev_Unit evt <> "") then Some (ev_Unit evt)
  else ev_Attributes evt !! k.
Proof.
  assert (event_attrs evt =
    let attrs := if String.eqb (ev_Unit evt) "" then ev_Attributes evt else <["unit" := ev_Unit evt]> (ev_Attributes evt) in
    if deviates (ev_Quality evt) then <["quality" := ev_Quality evt]> attrs else attrs) as ->.
  { unfold event_attrs. destruct (bool_decide_reflect (ev_Attributes evt = ∅)) as [->|], (String.eqb (ev_Unit evt) ""),
      (deviates (ev_Quality evt)); reflexivity. }
  cbn zeta. unfold deviates.
  destruct (String.eqb_spec (ev_Unit evt) ""), (String.eqb_spec (ev_Quality evt) ""),
    (String.eqb_spec (ev_Quality evt) "Good"); cbn [negb andb]; rewrite ?lookup_insert;
    repeat case_decide; subst; try reflexivity; exfalso; intuition congruence.
Qed.

(** The number of a decoded event is finite. *)
Definition value_finite (v : Value) : Prop :=
  match v with NumberValue x => f64_finite x = true | _ => True end.

Lemma value_unjson_finite v x : value_unjson v = Some x -> value_finite x.
Proof.
  destruct v as [|b|lit|s|l|l]; cbn; try discriminate; try (intros [= <-]; exact I).
  destruct (parse_f64 lit) as [y|]; [|discriminate]. destruct (f64_finite y) eqn:E; [|discriminate].
  intros [= <-]. exact E.
Qed.

Lemma event_set_finite f v e e' : value_finite (ev_Value e) -> event_set f v e = Some e' -> value_finite (ev_Value e').
Proof.
  intros He. unfold event_set.
  repeat (case_if; [match goal with |- option_map _ ?o = _ -> _ => destruct o eqn:?; [|discriminate] end;
    intros [= <-]; cbn; eauto using value_unjson_finite|]).
  intros [= <-]. exact He.
Qed.

Lemma event_unjson_finite data evt : event_unjson data = Some evt -> value_finite (ev_Value evt).
Proof.
  unfold event_unjson. destruct (parse data) as [v|]; [|discriminate].
  destruct v as [|b|lit|s|l|l]; cbn [decode_struct]; try discriminate; [intros [= <-]; exact I|].
  assert (value_finite (ev_Value zero_event)) as H by exact I. revert H. generalize zero_event.
  induction l as [|[k v] l IH]; intros e He; cbn [decode_members]; [intros [= <-]; exact He|].
  destruct (match_field _ k) as [f|]; [|apply IH; exact He]. destruct (event_set f v e) as [e'|] eqn:E; [|discriminate].
  apply IH. eapply event_set_finite; eassumption.
Qed.

(** [Normalize] on every payload.  A payload that is no event is poison; an
    event the resolver does not know is a miss, whatever its value; a resolved
    event without a value is poison; and otherwise the frame carries the
    resolver's point, the event's own value, its timestamp (or the clock's when
    it has none) and its attributes with the unit, and the quality when it is
    not Good, laid over them.  A number in a frame is always finite. *)
Theorem Normalize_exact {R} `{Resolver R} (now data gatewayID : string) (resolver : R) :
  match event_unjson data with
  | None => Normalize now data resolver gatewayID = (None, OutcomePoison)
  | Some evt =>
    match Resolve resolver (ev_ConnectorID evt) (ev_LocalID evt) with
    | None => Normalize now data resolver gatewayID = (None, OutcomeMiss)
    | Some pid =>
      if decide (ev_Value evt = ValueInvalid) then Normalize now data resolver gatewayID = (None, OutcomePoison)
      else exists f, Normalize now data resolver gatewayID = (Some f, OutcomeOK) /\
        GatewayId f = gatewayID /\ PointId f = pid /\
        (ev_Timestamp evt <> "" -> Timestamp f = ev_Timestamp evt) /\
        (ev_Timestamp evt = "" -> Timestamp f = now) /\
        match FValue f with
        | Some (ValueNum x) => ev_Value evt = NumberValue x /\ f64_finite x = true
        | Some (ValueStr s) => ev_Value evt = StringValue s
        | Some (ValueBool b) => ev_Value evt = BoolValue b
        | None => False
        end /\
        (forall k, Attributes f !! k =
           if decide (k = "quality" /\ ev_Quality evt <> "" /\ ev_Quality evt <> "Good") then Some (ev_Quality evt)
           else if decide (k = "unit" /\ ev_Unit evt <> "") then Some (ev_Unit evt)
           else ev_Attributes evt !! k)
    end
  end.
Proof.
  unfold Normalize. destruct (event_unjson data) as [evt|] eqn:E; [|reflexivity].
  apply event_unjson_finite in E. destruct (Resolve _ _ _) as [pid|]; [|reflexivity].
  destruct (decide (ev_Value evt = ValueInvalid)) as [->|Hv]; [reflexivity|].
  assert (forall a, (ev_Timestamp evt <> "" -> (if String.eqb (ev_Timestamp evt) "" then a else ev_Timestamp evt) = ev_Timestamp evt) /\
    (ev_Timestamp evt = "" -> (if String.eqb (ev_Timestamp evt) "" then a else ev_Timestamp evt) = a)) as Ht
    by (intros a; destruct (String.eqb_spec (ev_Timestamp evt) ""); tauto).
  destruct (Ht now) as [Ht1 Ht2].
  destruct (ev_Value evt) as [|x|x|x] eqn:Ev; [contradiction|..];
    eexists; (split; [reflexivity|]); cbn [GatewayId PointId Timestamp FValue Attributes];
    auto 10 using event_attrs_lookup.
Qed.

(** ** A published event arrives *)

Definition valid_event (e : Event) : bool :=
  valid_utf8 (ev_Protocol e) && valid_utf8 (ev_ConnectorID e) && valid_utf8 (ev_LocalID e) &&
  valid_utf8 (ev_DeviceRef e) && valid_utf8 (ev_Unit e) && valid_utf8 (ev_Quality e) &&
  valid_utf8 (ev_Timestamp e) &&
  forallb (fun kv => valid_utf8 (fst kv) && valid_utf8 (snd kv)) (map_to_list (ev_Attributes e)) &&
  match ev_Value e with StringValue s => valid_utf8 s | _ => true end.

Lemma value_roundtrip v j : value_json v = Some j -> value_unjson j = Some v /\ depth_of j <= 0 /\
  (match v with StringValue s => valid_utf8 s | _ => true end = true -> valid j = true).
Proof.
  destruct v as [|x|x|x]; cbn; try discriminate; try (intros [= <-]; cbn; repeat split; auto; lia).
  destruct (f64_finite x) eqn:F; [|discriminate]. destruct (format_f64 x) as [lit|] eqn:E; [|discriminate].
  intros [= <-]. apply parse_format in E as [Hv Hp]. cbn. rewrite Hp, F. repeat split; auto. lia.
Qed.

Lemma map_members_fold l : forall cur,
  map_members cur (map (fun kv => (fst kv, JStr (snd kv))) l)
  = Some (fold_left (fun m (kv : string * string) => <[fst kv := snd kv]> m) l cur).
Proof. induction l as [|[k v] l IH]; intros cur; cbn; [reflexivity|]. apply IH. Qed.

Lemma fold_insert_map (l : list (string * string)) : NoDup l.*1 ->
  fold_left (fun m kv => <[fst kv := snd kv]> m) l (∅ : gmap string string) = list_to_map l.
Proof.
  induction l as [|[k v] l IH] using rev_ind; [reflexivity|]. rewrite fmap_app. intros (Hn & Hd & _)%NoDup_app.
  rewrite fold_left_app, IH by assumption. cbn. symmetry. apply list_to_map_snoc.
  intros Hk. apply (Hd k Hk). left.
Qed.

Lemma sorted_perm m : merge_sort key_le (map_to_list m) ≡ₚ map_to_list m.
Proof. apply merge_sort_Permutation. Qed.

Lemma map_roundtrip m : map_unjson ∅ (map_json m) = Some m.
Proof.
  unfold map_json, map_unjson. rewrite map_members_fold. f_equal.
  rewrite fold_insert_map by (rewrite sorted_perm; apply NoDup_fst_map_to_list).
  rewrite (list_to_map_proper _ (map_to_list m)); [apply list_to_map_to_list| |apply sorted_perm].
  rewrite sorted_perm. apply NoDup_fst_map_to_list.
Qed.

Lemma map_json_depth m : depth_of (map_json m) <= 1.
Proof.
  apply depth_flat. apply List.Forall_forall. intros kv Hin. apply in_map_iff in Hin as (x & <- & _). cbn. lia.
Qed.

Lemma map_json_valid m :
  forallb (fun kv => valid_utf8 (fst kv) && valid_utf8 (snd kv)) (map_to_list m) = true -> valid (map_json m) = true.
Proof.
  intros H. cbn [valid map_json]. apply forallb_forall. intros kv Hin. apply in_map_iff in Hin as (x & <- & Hx). cbn.
  rewrite forallb_forall in H. apply H. apply list_elem_of_In. rewrite <- sorted_perm. apply list_elem_of_In. exact Hx.
Qed.

Lemma decode_event e j : event_json e = Some j ->
  decode_struct false event_names event_set zero_event j = Some e.
Proof.
  unfold event_json. destruct (value_json (ev_Value e)) as [v|] eqn:Ev; [|discriminate]. intros [= <-].
  apply value_roundtrip in Ev as (Ev & _). cbn [decode_struct app].
  repeat (erewrite decode_member; [|cbn; tauto|cbn; try rewrite Ev; reflexivity]).
  destruct (decide (ev_Attributes e = ∅)) as [E|E].
  - cbn. destruct e; cbn in *. subst. reflexivity.
  - erewrite decode_member; [|cbn; tauto|cbn -[map_json]; rewrite map_roundtrip; reflexivity]. destruct e; reflexivity.
Qed.

Lemma event_json_ok e j : event_json e = Some j -> valid_event e = true ->
  valid j = true /\ depth_of j <= 2.
Proof.
  unfold event_json, valid_event. destruct (value_json (ev_Value e)) as [v|] eqn:Ev; [|discriminate].
  intros [= <-] H. apply value_roundtrip in Ev as (_ & Hd & Hv). bools. split.
  - cbn [valid app forallb fst snd].
    repeat match goal with H : valid_utf8 ?x = true |- _ => rewrite H; clear H end. rewrite Hv by assumption.
    destruct (decide _); [reflexivity|]. cbn [forallb fst snd]. rewrite map_json_valid by assumption. reflexivity.
  - cbn [depth_of app fold_right snd]. pose proof (map_json_depth (ev_Attributes e)).
    destruct (decide _); cbn [fold_right snd]; lia.
Qed.

(** What a connector publishes is what the normalizer reads.  An event that
    marshals (its value is present and finite) with valid UTF-8 strings decodes
    from its JSON bytes to itself, and for a resolved address it normalizes to
    a frame with its value. *)
Theorem event_published {R} `{Resolver R} (e : Event) (j : json) (now gatewayID pid : string) (resolver : R) :
  event_json e = Some j -> valid_event e = true ->
  event_unjson (marshal j) = Some e /\
  (Resolve resolver (ev_ConnectorID e) (ev_LocalID e) = Some pid ->
   exists f, Normalize now (marshal j) resolver gatewayID = (Some f, OutcomeOK) /\ PointId f = pid /\
     FValue f = match ev_Value e with
                | NumberValue x => Some (ValueNum x) | StringValue s => Some (ValueStr s)
                | BoolValue b => Some (ValueBool b) | ValueInvalid => None end).
Proof.
  intros E Hv. destruct (event_json_ok _ _ E Hv) as [Hj Hd].
  assert (event_unjson (marshal j) = Some e) as He.
  { unfold event_unjson. rewrite parse_marshal by (assumption || (unfold max_nesting; lia)).
    apply decode_event. exact E. }
  split; [exact He|]. intros Hr. unfold Normalize. rewrite He, Hr.
  destruct (ev_Value e) eqn:Ev; [|eexists; repeat split..].
  unfold event_json in E. rewrite Ev in E. discriminate.
Qed.

(** ** Every fetched message is settled *)

Section Accounting.
Context {R : Type} `{Resolver R} (gatewayID : string).

(** How a message is settled. *)
Definition settles (a : arrival (R := R)) (s : settle) : Prop :=
  match Normalize (a_now a) (em_data (a_msg a)) (a_resolver a) gatewayID with
  | (Some f, OutcomeOK) =>
    if a_done a then s = Nak (em_id (a_msg a))
    else s = Handed {| FM_Frame := f; FM_Msg := Some (em_id (a_msg a));
                       FM_Seq := match em_meta (a_msg a) with Some (q, _) => q | None => 0 end |}
  | _ => s = Term (em_id (a_msg a))
  end.

Definition handed (l : list settle) : list FrameMsg :=
  flat_map (fun s => match s with Handed f => [f] | _ => [] end) l.
Definition terms (l : list settle) : Z :=
  Z.of_nat (length (List.filter (fun s => match s with Term _ => true | _ => false end) l)).

(** The channel holds the newest handed frames; every terminated message is
    counted as invalid or unresolved. *)
Definition kept_account (n : normalizer) : Prop :=
  (exists out, handed (n_settled n) = out ++ frames n) /\
  u64 (n_invalid n + n_unresolved n) = u64 (terms (n_settled n)).

Lemma handed_app l l' : handed (l ++ l') = handed l ++ handed l'.
Proof. apply flat_map_app. Qed.

Lemma terms_app l l' : terms (l ++ l') = terms l + terms l'.
Proof. unfold terms. rewrite List.filter_app, length_app. lia. Qed.

Lemma take_frames_account k n : kept_account n -> kept_account (take_frames k n).
Proof.
  intros [[out E] Ht]. split; [|exact Ht]. cbn. exists (out ++ take k (frames n)).
  rewrite <- app_assoc, take_drop. exact E.
Qed.

Lemma u64_bump a b c : u64 (a + b) = u64 c -> u64 (u64 (a + 1) + b) = u64 (c + 1).
Proof.
  unfold u64. intros E. rewrite Zplus_mod_idemp_l, <- (Zplus_mod_idemp_l c), <- E, Zplus_mod_idemp_l. f_equal. lia.
Qed.

Lemma consume_msg_spec a n : kept_account n -> n_stopped n = false ->
  let n' := consume_msg gatewayID (a_resolver a) (a_now a) (a_done a) n (a_msg a) in
  exists s, settles a s /\ n_settled n' = n_settled n ++ [s] /\ kept_account n' /\
    (length (frames n') <= S (length (frames n)))%nat /\ (n_stopped n' = true <-> exists m, s = Nak m).
Proof.
  intros [[out Ho] Ht] Hn. unfold consume_msg, settles. set (n1 := match em_meta (a_msg a) with Some (_, d) => _ | None => n end).
  assert (frames n1 = frames n /\ n_settled n1 = n_settled n /\ n_invalid n1 = n_invalid n /\
    n_unresolved n1 = n_unresolved n /\ n_stopped n1 = n_stopped n) as (E1 & E2 & E3 & E4 & E5)
    by (subst n1; destruct (em_meta (a_msg a)) as [[? ?]|]; [case_if|]; auto).
  assert (forall inv unr : Z, u64 (inv + unr) = u64 (terms (n_settled n) + 1) ->
    exists s, s = Term (em_id (a_msg a)) /\ n_settled n1 ++ [Term (em_id (a_msg a))] = n_settled n ++ [s] /\
    kept_account {| n1 with n_invalid := inv; n_unresolved := unr; n_settled := n_settled n1 ++ [Term (em_id (a_msg a))] |} /\
    (length (frames n1) <= S (length (frames n)))%nat /\ (n_stopped n1 = true <-> exists m, s = Nak m)) as Hterm.
  { intros inv unr Hu. eexists. split; [reflexivity|]. rewrite E1, E2, E5. split; [reflexivity|].
    split; [|split; [lia|split; [congruence|intros [? [=]]]]]. unfold kept_account; cbn. rewrite ?E1, handed_app, terms_app.
    rewrite app_nil_r. split; [eauto|exact Hu]. }
  destruct (Normalize _ _ _ _) as [[f|] []]; try (apply Hterm; rewrite E3, E4; apply u64_bump; exact Ht);
    try (apply Hterm; rewrite E3, E4, Z.add_comm; apply u64_bump; rewrite Z.add_comm; exact Ht).
  destruct (a_done a); eexists; (split; [reflexivity|]); cbn; rewrite ?E1, ?E2; (split; [reflexivity|]);
    unfold kept_account; cbn; rewrite ?E1, ?E2, ?E3, ?E4, ?handed_app, ?terms_app; cbn.
  - rewrite app_nil_r, Z.add_0_r. split; [eauto|]. split; [lia|]. split; eauto.
  - rewrite Z.add_0_r, length_app, Ho. cbn. split; [rewrite <- app_assoc; eauto|]. split; [lia|].
    rewrite E5, Hn. split; [discriminate|intros [? [=]]].
Qed.

(** Messages up to the one the loop stopped at. *)
Definition account (msgs : list (arrival (R := R))) (n : normalizer) : Prop :=
  kept_account n /\ Forall2 settles msgs (n_settled n).

Lemma consume_batch_spec batch : forall msgs n, account msgs n -> n_stopped n = false ->
  let n' := consume_batch gatewayID n batch in
  exists k, account (msgs ++ take k batch) n' /\ (k <= length batch)%nat /\
    (length (frames n') <= length (frames n) + k)%nat /\
    (n_stopped n' = false -> k = length batch).
Proof.
  induction batch as [|a batch IH]; intros msgs n [Hk Hf] Hs; cbn [consume_batch].
  - exists 0%nat. rewrite app_nil_r. repeat split; try assumption; try apply Hk; cbn; lia.
  - destruct (consume_msg_spec a (take_frames (a_taken a) n)) as (s & Hset & Happ & Hk' & Hl & Hst);
      [apply take_frames_account; assumption|exact Hs|].
    set (n1 := consume_msg _ _ _ _ _ _) in *. change (n_settled (take_frames (a_taken a) n)) with (n_settled n) in Happ.
    assert (length (frames (take_frames (a_taken a) n)) <= length (frames n))%nat by (cbn; rewrite length_drop; lia).
    assert (account (msgs ++ [a]) n1) as Ha by (split; [assumption|rewrite Happ; apply Forall2_app; auto]).
    destruct (n_stopped n1) eqn:Es.
    + exists 1%nat. cbn [take length]. split; [exact Ha|]. split; [lia|]. split; [lia|]. congruence.
    + destruct (IH _ _ Ha Es) as (k & Hk2 & Hle & Hl2 & Hst2). exists (S k). cbn [take length].
      rewrite <- app_assoc in Hk2. split; [exact Hk2|]. split; [lia|]. split; [lia|]. intros; f_equal; auto.
Qed.

(** The source yields at most as many messages as were asked for. *)
Definition bounded (r : round (R := R)) : Prop :=
  match r with CtxDone => True | Fetched _ source => forall k, 0 <= k -> Z.of_nat (length (source k)) <= k end.

(** All messages the source yields over a run. *)
Fixpoint fetched (n : normalizer) (rounds : list (round (R := R))) : list (arrival (R := R)) :=
  match rounds with
  | [] | CtxDone :: _ => []
  | Fetched taken source :: rounds =>
    let n := take_frames taken n in
    let free := frames_cap - Z.of_nat (length (frames n)) in
    if free =? 0 then fetched n rounds
    else
      let batch := source (Z.min fetchBatch free) in
      let n := consume_batch gatewayID n batch in
      batch ++ (if n_stopped n then [] else fetched n rounds)
  end.

Lemma consume_spec rounds : forall msgs n, Forall bounded rounds -> account msgs n -> n_stopped n = false ->
  Z.of_nat (length (frames n)) <= frames_cap ->
  let n' := consume gatewayID n rounds in
  exists k, account (msgs ++ take k (fetched n rounds)) n' /\ Z.of_nat (length (frames n')) <= frames_cap /\
    (n_stopped n' = false -> (length (fetched n rounds) <= k)%nat).
Proof.
  induction rounds as [|[|taken source] rounds IH]; intros msgs n Hb Ha Hs Hl.
  - exists 0%nat. cbn. rewrite app_nil_r. auto.
  - exists 0%nat. cbn. rewrite app_nil_r. repeat split; try apply Ha; [exact Hl|discriminate].
  - inversion Hb as [|? ? Hsrc Hb']; subst. cbn [bounded] in Hsrc. cbn [consume fetched].
    assert (account msgs (take_frames taken n)) as Ha1 by (destruct Ha; split; [apply take_frames_account|]; assumption).
    assert (Z.of_nat (length (frames (take_frames taken n))) <= frames_cap) as Hl1 by (cbn; rewrite length_drop; lia).
    assert (n_stopped (take_frames taken n) = false) as Hs1 by exact Hs.
    revert Ha1 Hl1 Hs1. generalize (take_frames taken n). clear n Ha Hs Hl. intros n Ha Hl Hs.
    destruct (Z.eqb_spec (frames_cap - Z.of_nat (length (frames n))) 0) as [_|Hne]; [apply IH; assumption|].
    specialize (Hsrc (Z.min fetchBatch (frames_cap - Z.of_nat (length (frames n)))) ltac:(unfold fetchBatch; lia)).
    set (batch := source _) in *. destruct (consume_batch_spec batch msgs n Ha Hs) as (k & Ha2 & Hk & Hl2 & Hst).
    set (n2 := consume_batch gatewayID n batch) in *. destruct (n_stopped n2) eqn:Es.
    + exists k. rewrite app_nil_r. split; [exact Ha2|]. split; [lia|congruence].
    + assert (Z.of_nat (length (frames n2)) <= frames_cap) as Hl3 by lia.
      rewrite (Hst eq_refl), firstn_all in Ha2.
      destruct (IH _ _ Hb' Ha2 Es Hl3) as (j & Ha3 & Hl4 & Hst2). exists (length batch + j)%nat.
      rewrite take_app_add. rewrite <- app_assoc in Ha3. split; [exact Ha3|]. split; [exact Hl4|].
      intros Hn. rewrite length_app. specialize (Hst2 Hn). lia.
Qed.

(** The normalizer accounts for every message it fetches.  Over any run of
    the loop, against a source that yields at most what it is asked for, and
    with the pump taking frames at any time: each fetched message in turn is
    terminated when it is poison or a miss, handed on exactly once with its
    frame and stream sequence when it normalizes, or NAKed when the context is
    done, after which the loop has stopped and the rest stays unsettled; none
    is acknowledged here.  The channel holds the newest of the handed frames
    and never more than its capacity, so a send never blocks; and every
    termination is counted. *)
Theorem consume_accounts (rounds : list (round (R := R))) :
  Forall bounded rounds ->
  let n := consume gatewayID start rounds in
  exists k, Forall2 settles (take k (fetched start rounds)) (n_settled n) /\
    (n_stopped n = false -> take k (fetched start rounds) = fetched start rounds) /\
    (exists out, handed (n_settled n) = out ++ frames n) /\
    Z.of_nat (length (frames n)) <= frames_cap /\
    u64 (n_invalid n + n_unresolved n) = u64 (terms (n_settled n)).
Proof.
  intros Hb. destruct (consume_spec rounds [] start Hb) as (k & [[Ho Ht] Hf] & Hl & Hst);
    [|reflexivity|vm_compute; congruence|].
  - split; [|constructor]. split; [exists []; reflexivity|reflexivity].
  - exists k. repeat split; try assumption. intros Hn. apply take_ge. auto.
Qed.
End Accounting.

(** A connector's event through a fixture. *)
Module NormalizerExample.

Definition points : Fixture := NewFixture [mkEntry "" "bacnet-01" "bacnet" "analog-input,1" "p1" "" false "" ""].
Definition reading : Event :=
  mkEvent "bacnet" "bacnet-01" "analog-input,1" "dev" (NumberValue (f64_of_Z 21)) "C" "Good" "t0" {["k" := "v"]}.
Definition reading_json : json := Eval vm_compute in default JNull (event_json reading).

Lemma event_published_witness :
  exists f, Normalize "now" (marshal reading_json) points "gw" = (Some f, OutcomeOK) /\ PointId f = "p1" /\
    FValue f = Some (ValueNum (f64_of_Z 21)).
Proof.
  apply (event_published reading reading_json "now" "gw" "p1" points); vm_compute; reflexivity.
Defined.

Definition arrives (id : Z) (data : string) (done : bool) : arrival (R := Fixture) :=
  {| a_msg := {| em_id := id; em_data := data; em_meta := Some (id, 1) |}; a_resolver := points; a_now := "now";
     a_done := done; a_taken := 0 |}.
Definition rounds0 : list (round (R := Fixture)) :=
  [Fetched 0 (fun k => if 3 <=? k then [arrives 1 (marshal reading_json) false; arrives 2 "junk" false;
                                        arrives 3 (marshal reading_json) true] else []);
   CtxDone].

Lemma consume_accounts_witness :
  map (fun s => match s with Handed f => FM_Seq f | Term m => - m | Nak m => 1000 + m end)
    (n_settled (consume "gw" start rounds0)) = [1; -2; 1003] /\
  Z.of_nat (length (frames (consume "gw" start rounds0))) <= frames_cap.
Proof.
  split; [vm_compute; reflexivity|].
  destruct (consume_accounts "gw" rounds0) as (k & _ & _ & _ & Hl & _); [|exact Hl].
  repeat constructor. intros k Hk. destruct (Z.leb_spec 3 k); cbn; lia.
Defined.

End NormalizerExample.
