(* ===== verification/Dispatch.v ===== *)
(** * Control dispatch and the egress agent

    [src/internal/dispatch/dispatcher.go] and [src/internal/egress/agent.go]:
    commands from Building OS arrive on the egress stream, are resolved against
    the point list, sent to a connector over request-reply, and answered on the
    stream.  NATS and the gRPC stream are interfaces.  The theorems show which
    requests a command can cause, that a command id is executed once, and that
    the stream answers every command in order. *)

From Stdlib Require Import ZArith Lia Bool Ascii String List SpecFloat.
From stdpp Require Import base list strings gmap.
From S2P Require Import Prelude Json GoText Float Wire Sdk PointList Uplink.
#[local] Open Scope string_scope.
#[local] Open Scope list_scope.
#[local] Open Scope Z_scope.

(** ** The dispatcher *)

(** A control point with its release target, from one snapshot. *)
Class ControlResolver (R : Type) := resolve_control : R -> string -> Entry * Entry * bool.
#[export] Instance synced_control : ControlResolver SyncedResolver := ResolveControl.

(** A core NATS request: a reply payload, no responders, or any other error
    (a timeout). *)
Inductive nats_answer := Reply (data : string) | NoResponders | RequestFailed.
Class NatsRequest (K : Type) := nats_request : K -> string -> string -> K * nats_answer.

Section Dispatcher.
Context {R K : Type} `{ControlResolver R} `{NatsRequest K}.
(** The text of the error [json.Unmarshal] returns on a payload. *)
Context (unmarshal_error : string -> string).

Record Dispatcher := { nc : K; dedup : gmap string ControlResult }.

Definition NewDispatcher (k : K) : Dispatcher := {| nc := k; dedup := ∅ |}.

Definition failed (cmd : ControlCommand) (response : string) : ControlResult :=
  mkResult (ControlId cmd) false response.

(** The text of a float that JSON cannot represent. *)
Definition nonfinite (x : float64) : string :=
  match x with S754_infinity true => "-Inf" | S754_infinity false => "+Inf" | _ => "NaN" end.

Definition request_of (cmd : ControlCommand) (release : bool) (entry : Entry) : WriteRequest :=
  {| wr_Release := release; wr_ControlID := ControlId cmd; wr_LocalID := LocalID entry;
     wr_DeviceRef := DeviceRef entry; wr_Value := PresentValue cmd; wr_Priority := Priority cmd |}.

Definition subject (entry : Entry) : string := "cmd." +:+ Protocol entry +:+ "." +:+ ConnectorID entry.

(** The request-reply exchange of [execute]. *)
Definition exchange (k : K) (cmd : ControlCommand) (release : bool) (entry : Entry) : K * ControlResult :=
  match request_json (request_of cmd release entry) with
  | None => (k, failed cmd ("marshal_error: json: unsupported value: " +:+ nonfinite (PresentValue cmd)))
  | Some j =>
    let '(k, a) := nats_request k (subject entry) (marshal j) in
    (k, match a with
        | RequestFailed => failed cmd "timeout"
        | NoResponders => failed cmd "no_responder"
        | Reply data =>
          match reply_unjson data with
          | None => failed cmd ("parse_error: " +:+ unmarshal_error data)
          | Some reply => mkResult (ControlId cmd) (rp_Success reply) (rp_Response reply)
          end
        end)
  end.

Definition execute (resolver : R) (k : K) (cmd : ControlCommand) : K * ControlResult :=
  let '(entry, target, ok) := resolve_control resolver (CmdPointId cmd) in
  if negb ok then (k, failed cmd "no_connector")
  else if negb (Writable entry) then (k, failed cmd "not_writable")
  else if negb (String.eqb (ReleaseOf entry) "") then
    if negb (feqb (PresentValue cmd) (f64_of_Z 1)) || (Priority cmd <? 0) || (16 <? Priority cmd) then
      (k, failed cmd "bad_request")
    else if String.eqb (PointID target) "" || negb (String.eqb (ReleaseOf target) "") then
      (k, failed cmd "bad_request")
    else if negb (Writable target) then (k, failed cmd "not_writable")
    else if negb (String.eqb (Protocol target) "bacnet") || String.eqb (ConnectorID target) ""
            || String.eqb (LocalID target) "" then (k, failed cmd "bad_request")
    else exchange k cmd true target
  else exchange k cmd false entry.

(** [Execute]; [admission] is the gate's answer when one is attached. *)
Definition Execute (resolver : R) (admission : option bool) (d : Dispatcher) (cmd : ControlCommand)
  : Dispatcher * ControlResult :=
  match dedup d !! ControlId cmd with
  | Some r => (d, r)
  | None =>
    match admission with
    | Some false => (d, failed cmd "configuration_paused")
    | _ =>
      let '(k, result) := execute resolver (nc d) cmd in
      ({| nc := k; dedup := <[ControlId cmd := result]> (dedup d) |}, result)
    end
  end.
End Dispatcher.
Arguments Dispatcher : clear implicits.
Arguments nc {K} _.
Arguments dedup {K} _.

(** ** The egress agent *)

(** [Executor] and [RevisionProvider] are the agent's interfaces. *)
Class Executor (X : Type) := exec_Execute : X -> ControlCommand -> X * ControlResult.

Record Agent (X : Type) := {
  gatewayID : string;
  exec : X;
  (** The one-slot push channel, when attached: whether it holds a signal. *)
  revalidate : option bool;
  (** Whether applied revisions are reported. *)
  reporting : bool;
  up : list EgressUp
}.
Arguments gatewayID {X} _.
Arguments exec {X} _.
Arguments revalidate {X} _.
Arguments reporting {X} _.
Arguments up {X} _.

Section Agent.
Context {X : Type} `{Executor X}.

Definition sent (a : Agent X) (m : EgressUp) : Agent X := {| a with up := up a ++ [m] |}.

(** What happens on an open stream: a received message (with whether sending
    its result works), a receive error, a status report of the reporter
    goroutine (with the revision it reads and whether its send works), or the
    sync loop taking the push signal. *)
Inductive stream_event :=
| Received (d : EgressDown) (send_ok : bool)
| RecvError
| Report (revision : string) (send_ok : bool)
| SignalTaken.

(** [reporter] is whether the reporter goroutine is still running. *)
Fixpoint stream_loop (reporter : bool) (a : Agent X) (evs : list stream_event) : Agent X * bool :=
  match evs with
  | [] => (a, false)
  | RecvError :: _ => (a, true)
  | Report rev ok :: evs =>
    if reporter then stream_loop ok (if ok then sent a (UpStatus rev) else a) evs
    else stream_loop reporter a evs
  | SignalTaken :: evs =>
    stream_loop reporter {| a with revalidate := option_map (fun _ => false) (revalidate a) |} evs
  | Received d ok :: evs =>
    match d with
    | DownCommand c =>
      let '(x, result) := exec_Execute (exec a) c in
      let a := {| a with exec := x |} in
      if ok then stream_loop reporter (sent a (UpResult result)) evs else (a, true)
    | DownPointListUpdate _ _ =>
      stream_loop reporter {| a with revalidate := option_map (fun _ => true) (revalidate a) |} evs
    | DownNone => stream_loop reporter a evs
    end
  end.

(** [runStream]: [None] for [connected] is a failed connect or hello.  Whether
    the stream has ended with an error (it ends no other way). *)
Definition runStream (a : Agent X) (connected hello_ok : bool) (evs : list stream_event) : Agent X * bool :=
  if connected && hello_ok then stream_loop (reporting a) (sent a (UpHello (gatewayID a))) evs
  else (a, true).

(** A stream's course, whether the context is alive when it ends, and after the
    wait. *)
Record stream := { st_connected : bool; st_hello : bool; st_events : list stream_event;
                   st_alive : bool; st_resumed : bool }.

(** [Run]: the delays waited, and whether the loop has ended. *)
Fixpoint agent_loop (a : Agent X) (bo : Backoff) (streams : list stream) (rs : list float64)
  : Agent X * Backoff * list Z * bool :=
  match streams with
  | [] => (a, bo, [], false)
  | s :: streams =>
    let '(a, ended) := runStream a (st_connected s) (st_hello s) (st_events s) in
    if negb ended then (a, bo, [], false)
    else if st_alive s then
      let '(bo, d) := Next bo (hd f64_zero rs) in
      if st_resumed s then
        let '(a, bo, ds, fin) := agent_loop a bo streams (tl rs) in (a, bo, d :: ds, fin)
      else (a, bo, [d], true)
    else (a, Reset bo, [], true)
  end.
End Agent.

(** ** A command id is executed once *)

Section DispatchFacts.
Context {R K : Type} `{ControlResolver R} `{NatsRequest K}.
Context (unmarshal_error : string -> string).

(** A sequence of commands, each with the resolver's state and the gate's
    answer at its time. *)
Fixpoint execs (d : Dispatcher K) (l : list (R * option bool * ControlCommand))
  : Dispatcher K * list ControlResult :=
  match l with
  | [] => (d, [])
  | (res, adm, cmd) :: l =>
    let '(d, r) := Execute unmarshal_error res adm d cmd in
    let '(d, rs) := execs d l in (d, r :: rs)
  end.

Lemma Execute_keeps res adm d cmd id r : dedup d !! id = Some r ->
  dedup (fst (Execute unmarshal_error res adm d cmd)) !! id = Some r.
Proof.
  intros E. unfold Execute. destruct (dedup d !! ControlId cmd) as [r0|] eqn:E0; [exact E|].
  assert (ControlId cmd <> id) by congruence.
  destruct adm as [[]|]; try exact E; destruct (execute _ _ _ _) as [k x]; cbn; rewrite lookup_insert_ne; assumption.
Qed.

Lemma execs_keep l : forall d id r, dedup d !! id = Some r -> dedup (fst (execs d l)) !! id = Some r.
Proof.
  induction l as [|[[res adm] cmd] l IH]; intros d id r E; cbn [execs]; [exact E|].
  pose proof (Execute_keeps res adm d cmd id r E) as E1. destruct (Execute _ _ _ _ _) as [d1 x]. cbn in E1.
  specialize (IH d1 id r E1). destruct (execs d1 l). exact IH.
Qed.

(** A command id is executed once.  Once a command has been executed (the
    configuration gate did not refuse it), every later command with the same
    control id, whatever it asks for and after any other commands, gets the
    same result and causes no request.  A refusal is not remembered. *)
Theorem commands_once (d : Dispatcher K) (res : R) (adm : option bool) (cmd : ControlCommand)
    (l : list (R * option bool * ControlCommand)) (res' : R) (adm' : option bool) (cmd' : ControlCommand) :
  ControlId cmd' = ControlId cmd ->
  let '(d1, r) := Execute unmarshal_error res adm d cmd in
  let d2 := fst (execs d1 l) in
  (adm <> Some false -> Execute unmarshal_error res' adm' d2 cmd' = (d2, r)) /\
  (adm = Some false -> dedup d !! ControlId cmd = None ->
     r = failed cmd "configuration_paused" /\ d1 = d).
Proof.
  intros Eid. destruct (Execute unmarshal_error res adm d cmd) as [d1 r] eqn:E. cbn zeta.
  unfold Execute in E. split.
  - intros Ha. assert (dedup d1 !! ControlId cmd = Some r) as Hd.
    { destruct (dedup d !! ControlId cmd) as [r0|] eqn:E0; [congruence|].
      destruct adm as [[]|]; [| congruence |]; destruct (execute _ _ _ _) as [k x]; injection E as <- <-; apply lookup_insert_eq. }
    unfold Execute. rewrite Eid, (execs_keep l d1 _ r Hd). reflexivity.
  - intros -> E0. rewrite E0 in E. injection E as <- <-. auto.
Qed.

(** What a command must satisfy for a request to be sent for it: to [entry],
    as a release or as a write. *)
Definition authorized (res : R) (cmd : ControlCommand) (release : bool) (entry : Entry) : Prop :=
  exists e t, resolve_control res (CmdPointId cmd) = (e, t, true) /\ Writable e = true /\ Writable entry = true /\
  if release then
    ReleaseOf e <> "" /\ entry = t /\ PointID t <> "" /\ ReleaseOf t = "" /\ Protocol t = "bacnet" /\
    ConnectorID t <> "" /\ LocalID t <> "" /\ feqb (PresentValue cmd) (f64_of_Z 1) = true /\ 0 <= Priority cmd <= 16
  else ReleaseOf e = "" /\ entry = e.

Lemma exchange_spec k cmd release entry k' r : exchange unmarshal_error k cmd release entry = (k', r) ->
  ResControlId r = ControlId cmd /\
  match request_json (request_of cmd release entry) with
  | None => k' = k /\ Success r = false
  | Some j => k' = fst (nats_request k (subject entry) (marshal j)) /\
      (Success r = true -> exists data reply, snd (nats_request k (subject entry) (marshal j)) = Reply data /\
         reply_unjson data = Some reply /\ rp_Success reply = true /\ rp_Response reply = Response r)
  end.
Proof.
  unfold exchange. destruct (request_json _) as [j|]; [|intros [= <- <-]; auto].
  destruct (nats_request k _ _) as [k1 a]. intros [= <- <-].
  destruct a as [data| |]; cbn; [|repeat split; discriminate..].
  destruct (reply_unjson data) as [reply|] eqn:E; cbn; [|repeat split; discriminate].
  repeat split. intros Hs. exists data, reply. auto.
Qed.

(** C6: A command causes at most one request, and only an authorized one: to
    the connector subject of a writable resolved point, with that point's
    address; or, for a release point, to its writable BACnet target, when the
    value is 1 and the priority in range.  The request carries the command's
    id, value and priority; any other command fails without a request; and
    success is reported only when the connector replied success. *)
Theorem execute_authorized (res : R) (k k' : K) (cmd : ControlCommand) (r : ControlResult) :
  execute unmarshal_error res k cmd = (k', r) ->
  ResControlId r = ControlId cmd /\
  ((k' = k /\ Success r = false) \/
   exists release entry j, authorized res cmd release entry /\
     request_json (request_of cmd release entry) = Some j /\
     k' = fst (nats_request k (subject entry) (marshal j)) /\
     (Success r = true -> exists data reply, snd (nats_request k (subject entry) (marshal j)) = Reply data /\
        reply_unjson data = Some reply /\ rp_Success reply = true /\ rp_Response reply = Response r)).
Proof.
  assert (forall release entry, authorized res cmd release entry -> exchange unmarshal_error k cmd release entry = (k', r) ->
    ResControlId r = ControlId cmd /\ ((k' = k /\ Success r = false) \/
    exists release entry j, authorized res cmd release entry /\ request_json (request_of cmd release entry) = Some j /\
     k' = fst (nats_request k (subject entry) (marshal j)) /\
     (Success r = true -> exists data reply, snd (nats_request k (subject entry) (marshal j)) = Reply data /\
        reply_unjson data = Some reply /\ rp_Success reply = true /\ rp_Response reply = Response r))) as Hx.
  { intros rel e Ha E. apply exchange_spec in E as [Hid E]. split; [exact Hid|].
    destruct (request_json (request_of cmd rel e)) as [j|] eqn:Ej; [|auto]. right. exists rel, e, j. tauto. }
  unfold execute. destruct (resolve_control res (CmdPointId cmd)) as [[e t] ok] eqn:Er.
  destruct ok; cbn [negb]; [|intros [= <- <-]; auto].
  destruct (Writable e) eqn:Ew; cbn [negb]; [|intros [= <- <-]; auto].
  destruct (String.eqb_spec (ReleaseOf e) "") as [Erel|Erel]; cbn [negb].
  - apply Hx. exists e, t. auto.
  - repeat (case_if; [intros [= <- <-]; auto|]). apply Hx. exists e, t. bools.
    repeat match goal with H : String.eqb _ _ = true |- _ => apply String.eqb_eq in H
                         | H : String.eqb _ _ = false |- _ => apply String.eqb_neq in H end.
    repeat split; auto; lia.
Qed.
End DispatchFacts.

(** ** The stream answers every command in order *)

Section AgentFacts.
Context {X : Type} `{Executor X}.

(** Executing commands in order, keeping the results of those whose answer can
    be sent. *)
Fixpoint answers (x : X) (cs : list (ControlCommand * bool)) : X * list ControlResult :=
  match cs with
  | [] => (x, [])
  | (c, ok) :: cs =>
    let '(x, r) := exec_Execute x c in
    let '(x, rs) := answers x cs in (x, if ok then r :: rs else rs)
  end.

(** The commands received before the stream ends; only the last one's answer
    may fail to be sent, which ends it. *)
Fixpoint received (evs : list stream_event) : list (ControlCommand * bool) :=
  match evs with
  | [] | RecvError :: _ => []
  | Received (DownCommand c) ok :: evs => (c, ok) :: (if ok then received evs else [])
  | _ :: evs => received evs
  end.

Definition results (l : list EgressUp) : list ControlResult :=
  flat_map (fun m => match m with UpResult r => [r] | _ => [] end) l.

(** Whether a push arrived that the sync loop has not taken. *)
Fixpoint pushed (b : bool) (evs : list stream_event) : bool :=
  match evs with
  | [] | RecvError :: _ => b
  | Received (DownCommand _) ok :: evs => if ok then pushed b evs else b
  | Received (DownPointListUpdate _ _) _ :: evs => pushed true evs
  | SignalTaken :: evs => pushed false evs
  | _ :: evs => pushed b evs
  end.

Lemma results_sent (a : Agent X) m : results (up (sent a m)) = results (up a) ++ results [m].
Proof. apply flat_map_app. Qed.

Lemma stream_loop_spec evs : forall reporter (a a' : Agent X) ended,
  stream_loop reporter a evs = (a', ended) ->
  let '(x, rs) := answers (exec a) (received evs) in
  exec a' = x /\ results (up a') = results (up a) ++ rs /\
  revalidate a' = option_map (fun b => pushed b evs) (revalidate a).
Proof.
  induction evs as [|[d ok| |rev ok|] evs IH]; intros reporter a a' ended E; cbn [stream_loop received pushed answers] in *.
  - injection E as <- <-. rewrite app_nil_r. repeat split. destruct (revalidate a); reflexivity.
  - destruct d as [c|g rv|]; cbn [answers].
    + destruct (exec_Execute (exec a) c) as [x r] eqn:Ex. destruct ok.
      * apply IH in E. cbn [sent exec revalidate] in E. destruct (answers x (received evs)) as [x2 rs].
        destruct E as (-> & -> & ->). rewrite results_sent. cbn. rewrite <- app_assoc. auto.
      * injection E as <- <-. cbn. rewrite app_nil_r. repeat split. destruct (revalidate a); reflexivity.
    + apply IH in E. cbn [exec up revalidate] in E. destruct (answers _ _) as [x2 rs].
      destruct E as (-> & -> & ->). repeat split. destruct (revalidate a); reflexivity.
    + apply IH in E. exact E.
  - injection E as <- <-. rewrite app_nil_r. repeat split. destruct (revalidate a); reflexivity.
  - destruct reporter; [|apply IH in E; exact E]. destruct ok; apply IH in E; [|exact E].
    cbn [sent exec revalidate] in E. destruct (answers _ _) as [x2 rs]. destruct E as (-> & -> & ->).
    rewrite results_sent. cbn. rewrite app_nil_r. auto.
  - apply IH in E. cbn [exec up revalidate] in E. destruct (answers _ _) as [x2 rs].
    destruct E as (-> & -> & ->). repeat split. destruct (revalidate a); reflexivity.
Qed.

Lemma stream_prefix evs : forall reporter (a a' : Agent X) ended,
  stream_loop reporter a evs = (a', ended) -> exists l, up a' = up a ++ l.
Proof.
  induction evs as [|[d ok| |rev ok|] evs IH]; intros reporter a a' ended E; cbn [stream_loop] in E.
  - injection E as <- <-. exists []. rewrite app_nil_r. reflexivity.
  - destruct d as [c|g rv|]; [destruct (exec_Execute (exec a) c) as [x r]; destruct ok|..];
      try (apply IH in E as [l ->]; cbn; rewrite <- ?app_assoc; eauto).
    injection E as <- <-. exists []. rewrite app_nil_r. reflexivity.
  - injection E as <- <-. exists []. rewrite app_nil_r. reflexivity.
  - destruct reporter, ok; apply IH in E as [l ->]; cbn; rewrite <- ?app_assoc; eauto.
  - apply IH in E as [l ->]. cbn. eauto.
Qed.

(** One session of the egress stream.  It opens with the hello; the
    commands received are executed one at a time in the order received, and
    their results are sent in that order, one each, whatever status reports
    interleave; only the command whose answer fails to send goes unanswered,
    and that ends the stream.  A pushed point-list update is never lost: the
    signal stands until the sync loop takes it. *)
Theorem runStream_answers (a a' : Agent X) (connected hello_ok ended : bool) (evs : list stream_event) :
  runStream a connected hello_ok evs = (a', ended) ->
  if connected && hello_ok then
    let '(x, rs) := answers (exec a) (received evs) in
    exec a' = x /\ results (up a') = results (up a) ++ rs /\
    (exists later, up a' = up a ++ UpHello (gatewayID a) :: later) /\
    revalidate a' = option_map (fun b => pushed b evs) (revalidate a)
  else a' = a /\ ended = true.
Proof.
  unfold runStream. destruct (connected && hello_ok); [|intros [= <- <-]; auto]. intros E.
  pose proof (stream_loop_spec _ _ _ _ _ E) as Hs. cbn [sent exec revalidate] in Hs.
  destruct (answers _ _) as [x rs]. destruct Hs as (-> & Hr & ->). rewrite results_sent, app_nil_r in Hr.
  repeat split; [exact Hr|]. destruct (stream_prefix _ _ _ _ _ E) as [l El]. exists l. rewrite El. cbn.
  rewrite <- app_assoc. reflexivity.
Qed.

Lemma agent_ratchet streams : forall (a a' : Agent X) n rs bo' ds,
  agent_loop a (uplink_backoff_at n) streams rs = (a', bo', ds, false) -> bo' = uplink_backoff_at (n + length ds).
Proof.
  induction streams as [|s streams IH]; intros a a' n rs bo' ds; cbn [agent_loop].
  - intros [= _ <- <-]. f_equal. cbn. lia.
  - destruct (runStream _ _ _ _) as [a1 ended]. destruct ended; cbn [negb]; [|intros [= _ <- <-]; f_equal; cbn; lia].
    destruct (st_alive s); [|discriminate].
    pose proof (uplink_next n (hd f64_zero rs)) as Hn.
    destruct (Next (uplink_backoff_at n) (hd f64_zero rs)) as [bo1 d]. cbn [fst] in Hn. subst bo1.
    destruct (st_resumed s); [|discriminate].
    destruct (agent_loop a1 _ streams (tl rs)) as [[[a2 bo2] ds'] fin] eqn:E.
    intros [= <- <- <- ->]. apply IH in E as ->. f_equal. cbn [length]. lia.
Qed.

(** The egress link's reconnect delay only grows: a session ends only with
    an error, so the reset is reached only when the context is done, and after
    [k] sessions the base delay is [min(60s, 2^k s)] however long each lived. *)
Theorem egress_backoff_never_resets (a a' : Agent X) streams rs bo' ds :
  agent_loop a uplink_backoff streams rs = (a', bo', ds, false) -> bo_cur bo' = uplink_delay (length ds).
Proof. intros E. apply (agent_ratchet _ _ _ 0) in E as ->. reflexivity. Qed.
End AgentFacts.

(** A gateway with one BACnet connector. *)
Module DispatchExample.

(** A network that records requests and answers each with success. *)
#[export] Instance recorder : NatsRequest (list (string * string)) := fun k s d =>
  (k ++ [(s, d)], Reply (marshal (reply_json {| rp_Success := true; rp_Response := "ok" |}))).

Definition resolver0 : SyncedResolver :=
  Update (NewSynced None) [mkEntry "" "bacnet-01" "bacnet" "analog-value,3" "p1" "" true "100" ""].
Definition command (id : string) : ControlCommand := mkCommand id "p1" (f64_of_Z 21) 8.
Definition no_text (s : string) : string := "".
Definition d0 : Dispatcher (list (string * string)) := NewDispatcher [].

Lemma commands_once_witness :
  let '(d1, r) := Execute no_text resolver0 None d0 (command "c1") in
  Success r = true /\ Execute no_text resolver0 (Some true) d1 (command "c1") = (d1, r).
Proof.
  pose proof (commands_once no_text d0 resolver0 None (command "c1") [] resolver0 (Some true) (command "c1") eq_refl) as Hx.
  assert (Success (snd (Execute no_text resolver0 None d0 (command "c1"))) = true) as Hs by (vm_compute; reflexivity).
  destruct (Execute no_text resolver0 None d0 (command "c1")) as [d1 r]. split; [exact Hs|].
  apply (proj1 Hx). discriminate.
Defined.

Lemma execute_authorized_witness :
  exists release entry, authorized resolver0 (command "c1") release entry.
Proof.
  destruct (execute no_text resolver0 ([] : list (string * string)) (command "c1")) as [k' r] eqn:E.
  assert (Success r = true) as Hs by (change r with (snd (k', r)); rewrite <- E; vm_compute; reflexivity).
  destruct (execute_authorized no_text resolver0 [] k' (command "c1") r E) as [_ [[_ Hf]|(rel & e & j & Ha & _)]];
    [congruence|eauto].
Defined.

#[export] Instance echo : Executor Z := fun n c => (n + 1, mkResult (ControlId c) true "").
Definition agent0 : Agent Z :=
  {| gatewayID := "gw"; exec := 0; revalidate := Some false; reporting := true; up := [] |}.
Definition session0 : list stream_event :=
  [Report "r1" true; Received (DownCommand (command "c1")) true; Received (DownPointListUpdate "gw" "r2") true;
   Received (DownCommand (command "c2")) true; RecvError].

Lemma runStream_answers_witness :
  results (up (fst (runStream agent0 true true session0))) = [mkResult "c1" true ""; mkResult "c2" true ""] /\
  revalidate (fst (runStream agent0 true true session0)) = Some true.
Proof.
  destruct (runStream agent0 true true session0) as [a' e] eqn:E.
  destruct (runStream_answers agent0 a' true true e session0 E) as (_ & Hr & _ & Hv).
  split; [exact Hr|exact Hv].
Defined.

Definition flap : stream :=
  {| st_connected := true; st_hello := true; st_events := session0; st_alive := true; st_resumed := true |}.

Lemma egress_backoff_never_resets_witness :
  exists a' bo' ds, agent_loop agent0 uplink_backoff [flap; flap; flap] [] = (a', bo', ds, false) /\
    bo_cur bo' = uplink_delay 3.
Proof.
  assert (snd (agent_loop agent0 uplink_backoff [flap; flap; flap] []) = false /\
    length (snd (fst (agent_loop agent0 uplink_backoff [flap; flap; flap] []))) = 3%nat) as [Hf Hl]
    by (split; vm_compute; reflexivity).
  destruct (agent_loop agent0 uplink_backoff [flap; flap; flap] []) as [[[a' bo'] ds] fin] eqn:E.
  cbn in Hf, Hl. subst fin.
  exists a', bo', ds. split; [reflexivity|]. rewrite <- Hl. apply (egress_backoff_never_resets agent0 a' [flap; flap; flap] [] bo' ds E).
Defined.

End DispatchExample.
