(* ===== verification/MqttTopics.v ===== *)
(** * MQTT topics and subscriptions

    The subscription side of [src/connector/mqtt]: topic filters
    ([topicmatch.go]), the topic index with its explicit subscriptions, and the
    live apply of a new point set ([connector.go]).  The broker session is an
    interface.  The theorems characterise filter matching by the MQTT rules,
    show that the index subscribes to every point exactly once, and that an
    apply converges a session that was in step, or is refused with the index and
    every filter kept. *)

From Stdlib Require Import ZArith Lia Bool Ascii String List.
From stdpp Require Import base list strings gmap sorting.
From S2P Require Import Prelude Json GoText Float Sdk.
#[local] Open Scope string_scope.
#[local] Open Scope list_scope.
#[local] Open Scope Z_scope.

(** ** Topic filters *)

Definition levels (s : string) : list string := split_byte "/" s.

(** The loop of [filterMatches]: the topic levels left, and how many filter
    levels there are compared to topic levels at the end. *)
Fixpoint match_levels (filter topic : list string) : bool :=
  match filter with
  | [] => match topic with [] => true | _ => false end
  | fl :: filter' =>
    if String.eqb fl "#" then match filter' with [] => true | _ => false end
    else match topic with
         | [] => false
         | tl :: topic' => (String.eqb fl "+" || String.eqb fl tl) && match_levels filter' topic'
         end
  end.

Definition filterMatches (filter topic : string) : bool :=
  if String.eqb filter topic then true
  else
    let filterLevels := levels filter in
    let topicLevels := levels topic in
    if has_prefix (hd "" topicLevels) "$" && negb (has_prefix (hd "" filterLevels) "$") then false
    else match_levels filterLevels topicLevels.

Definition is_wild (level : string) : bool := String.eqb level "+" || String.eqb level "#".

Definition hasWildcard (filter : string) : bool := existsb is_wild (levels filter).

Definition literalLevels (filter : string) : Z :=
  Z.of_nat (length (List.filter (fun l => negb (is_wild l)) (levels filter))).

(** ** Points and subscriptions *)

Record PointConfig := {
  Topic : string;
  pc_DeviceRef : string;
  pc_Unit : string;
  pc_Writable : bool;
  CommandTopic : string;
  PayloadTemplate : string;
  QoS : Z;
  CommandQoS : Z
}.

#[export] Instance PointConfig_eq_dec : EqDecision PointConfig.
Proof. solve_decision. Defined.

Definition subscribeQoS (p : PointConfig) : Z := if QoS p =? 0 then 1 else QoS p.
Definition commandQoS (p : PointConfig) : Z := if CommandQoS p =? 0 then 1 else CommandQoS p.

Record SubscriptionConfig := { Filter : string; sc_QoS : Z }.

(** The fields of [paho.SubscribeOptions] that are set. *)
Record SubscribeOptions := { so_Topic : string; so_QoS : Z; NoLocal : bool }.

#[export] Instance SubscribeOptions_eq_dec : EqDecision SubscribeOptions.
Proof. solve_decision. Defined.

Definition subscribeOptionsFor (p : PointConfig) : SubscribeOptions :=
  {| so_Topic := Topic p; so_QoS := subscribeQoS p;
     NoLocal := pc_Writable p && String.eqb (CommandTopic p) (Topic p) |}.

Definition coveredByWildcard (topic : string) (wildcards : list SubscriptionConfig) : bool :=
  existsb (fun w => filterMatches (Filter w) topic) wildcards.

(** ** The topic index *)

Record topicIndex := {
  points : gmap string PointConfig;
  explicitSubs : gmap string SubscribeOptions;
  wildcards : list PointConfig;
  revision : string
}.

(** The order of the wildcard points: more literal levels first, then by
    topic. *)
Definition wild_le (a b : PointConfig) : Prop :=
  literalLevels (Topic b) < literalLevels (Topic a) \/
  literalLevels (Topic a) = literalLevels (Topic b) /\ String.leb (Topic a) (Topic b) = true.
#[export] Instance wild_le_dec : RelDecision wild_le.
Proof. intros a b. unfold wild_le. apply _. Defined.

Definition covered (static : list SubscriptionConfig) (wild : list PointConfig) (topic : string) : bool :=
  coveredByWildcard topic static
  || (negb (hasWildcard topic) && existsb (fun w => filterMatches (Topic w) topic) wild).

Definition newTopicIndex (pts : list PointConfig) (static : list SubscriptionConfig) (rev : string) : topicIndex :=
  let wild := List.filter (fun p => hasWildcard (Topic p)) pts in
  {| points := fold_left (fun m p => <[Topic p := p]> m) pts ∅;
     explicitSubs := fold_left (fun m p => if covered static wild (Topic p) then m else <[Topic p := subscribeOptionsFor p]> m) pts ∅;
     wildcards := merge_sort wild_le wild;
     revision := rev |}.

(** The point of a received topic, and whether it is configured exactly. *)
Definition resolve (idx : topicIndex) (topic : string) : option (PointConfig * bool) :=
  match points idx !! topic with
  | Some p => Some (p, true)
  | None =>
    match List.find (fun w => filterMatches (Topic w) topic) (wildcards idx) with
    | Some w => Some (w, false)
    | None => None
    end
  end.

(** The broker calls from one index to the next, sorted by topic. *)
Definition topic_le (a b : string) : Prop := String.leb a b = true.
#[export] Instance topic_le_dec : RelDecision topic_le.
Proof. intros a b. unfold topic_le. apply _. Defined.

Definition planSubscriptions (current next : topicIndex) (changed : gset string)
  : list SubscribeOptions * list string :=
  let subs := filter (fun kv : string * SubscribeOptions =>
                        explicitSubs current !! fst kv = None \/ fst kv ∈ changed)
                (map_to_list (explicitSubs next)) in
  let unsubs := filter (fun t : string => explicitSubs next !! t = None) (map_to_list (explicitSubs current)).*1 in
  (omap (fun t => explicitSubs next !! t) (merge_sort topic_le subs.*1), merge_sort topic_le unsubs).

(** ** Validation *)

Inductive point_error := NoTopic (i : nat) | NoCommandTopic (i : nat) | BadQoS (i : nat) | BadCommandQoS (i : nat).

Definition point_check (i : nat) (p : PointConfig) : option point_error :=
  if String.eqb (Topic p) "" then Some (NoTopic i)
  else if pc_Writable p && String.eqb (CommandTopic p) "" then Some (NoCommandTopic i)
  else if 1 <? QoS p then Some (BadQoS i)
  else if 1 <? CommandQoS p then Some (BadCommandQoS i)
  else None.

Fixpoint validate_from (i : nat) (pts : list PointConfig) : option point_error :=
  match pts with
  | [] => None
  | p :: pts => match point_check i p with Some e => Some e | None => validate_from (S i) pts end
  end.

Definition ValidatePoints (pts : list PointConfig) : option point_error := validate_from 0 pts.

(** ** Applying a point set to a live session *)

Record SubscriptionSpec := {
  sp_Topic : string; sp_QoS : Z; sp_Writable : bool; sp_CommandTopic : string; sp_CommandQoS : Z;
  sp_DeviceRef : string; sp_Unit : string; sp_PayloadTemplate : string
}.

#[export] Instance SubscriptionSpec_eq_dec : EqDecision SubscriptionSpec.
Proof. solve_decision. Defined.

Definition pointConfigFromSpec (s : SubscriptionSpec) : PointConfig :=
  {| Topic := sp_Topic s; pc_DeviceRef := sp_DeviceRef s; pc_Unit := sp_Unit s; pc_Writable := sp_Writable s;
     CommandTopic := sp_CommandTopic s; PayloadTemplate := sp_PayloadTemplate s; QoS := sp_QoS s;
     CommandQoS := sp_CommandQoS s |}.

Record SubscriptionApplyRequest := { rq_Revision : string; rq_Points : list SubscriptionSpec }.

Inductive apply_error := NotConnected | BadRequest | InvalidRequest (e : point_error) | SubscribeError (msg : string)
| UnsubscribeError (msg : string).

(** [Added], [Changed] and [Removed] are in map iteration order in the source;
    here they are sets. *)
Record SubscriptionApplyReply := {
  ar_Applied : bool; ar_Revision : string; ar_Count : Z;
  ar_Added : gset string; ar_Changed : gset string; ar_Removed : gset string; ar_Errors : list apply_error
}.

Definition refused (e : apply_error) : SubscriptionApplyReply :=
  {| ar_Applied := false; ar_Revision := ""; ar_Count := 0; ar_Added := ∅; ar_Changed := ∅; ar_Removed := ∅;
     ar_Errors := [e] |}.

(** The broker session: SUBSCRIBE and UNSUBSCRIBE, each with an error text on
    failure. *)
Class Broker (B : Type) := {
  broker_subscribe : B -> list SubscribeOptions -> B * option string;
  broker_unsubscribe : B -> list string -> B * option string
}.

(** An iteration order over the values of a point map. *)
Definition point_order : Type := gmap string PointConfig -> list PointConfig.
Definition is_point_order (o : point_order) : Prop := forall m, o m ≡ₚ (map_to_list m).*2.

Definition desired_points (specs : list SubscriptionSpec) : gmap string PointConfig :=
  fold_left (fun m s => <[sp_Topic s := pointConfigFromSpec s]> m) specs ∅.

Definition changed_topics (current desired : gmap string PointConfig) : gset string :=
  dom (filter (fun kv : string * PointConfig => is_Some (current !! fst kv) /\ current !! fst kv <> Some (snd kv)) desired).

Section Apply.
Context {B : Type} `{Broker B} (static : list SubscriptionConfig).

(** [None] for the broker is a connection manager that is not up yet.  The two
    orders are those of the two flattenings of the desired map. *)
Definition ApplySubscriptions (o1 o2 : point_order) (cm : option B) (current : topicIndex)
    (req : SubscriptionApplyRequest) : option B * topicIndex * SubscriptionApplyReply :=
  match cm with
  | None => (cm, current, refused NotConnected)
  | Some b =>
    let desired := desired_points (rq_Points req) in
    match ValidatePoints (o1 desired) with
    | Some e => (cm, current, refused (InvalidRequest e))
    | None =>
      let changed := changed_topics (points current) desired in
      let next := newTopicIndex (o2 desired) static (rq_Revision req) in
      let '(toSubscribe, toUnsubscribe) := planSubscriptions current next changed in
      let '(b, err) := match toSubscribe with [] => (b, None) | _ => broker_subscribe b toSubscribe end in
      match err with
      | Some msg => (Some b, current, refused (SubscribeError msg))
      | None =>
        let '(b, err) := match toUnsubscribe with [] => (b, None) | _ => broker_unsubscribe b toUnsubscribe end in
        (Some b, next,
         {| ar_Applied := true; ar_Revision := rq_Revision req; ar_Count := Z.of_nat (size (points next));
            ar_Added := dom desired ∖ dom (points current); ar_Changed := changed;
            ar_Removed := dom (points current) ∖ dom desired;
            ar_Errors := match err with Some msg => [UnsubscribeError msg] | None => [] end |})
      end
    end
  end.
End Apply.

(** The subscriptions re-established after every connect. *)
Definition brokerSubscriptions (static : list SubscriptionConfig) (idx : topicIndex) : list SubscribeOptions :=
  map (fun w => {| so_Topic := Filter w; so_QoS := sc_QoS w; NoLocal := false |}) static
  ++ (map_to_list (explicitSubs idx)).*2.

Definition status_spec (p : PointConfig) : SubscriptionSpec :=
  {| sp_Topic := Topic p; sp_QoS := subscribeQoS p; sp_Writable := pc_Writable p; sp_CommandTopic := CommandTopic p;
     sp_CommandQoS := if pc_Writable p then commandQoS p else 0;
     sp_DeviceRef := pc_DeviceRef p; sp_Unit := pc_Unit p; sp_PayloadTemplate := PayloadTemplate p |}.

(** [SubscriptionStatus], with its map order. *)
Definition SubscriptionStatus (o : point_order) (idx : topicIndex) : string * list SubscriptionSpec :=
  (revision idx, map status_spec (o (points idx))).

(** ** Filters match by the MQTT rules *)

(** MQTT 5.0 section 4.7.1 on levels: "+" is any one level, a final "#" is any
    number of further levels, none included. *)
Inductive level_match : list string -> list string -> Prop :=
| lm_nil : level_match [] []
| lm_multi t : level_match ["#"] t
| lm_single f t l : level_match f t -> level_match ("+" :: f) (l :: t)
| lm_literal f t l : l <> "+" -> l <> "#" -> level_match f t -> level_match (l :: f) (l :: t).

(** Section 4.7.2: a filter that starts with a wildcard matches no topic whose
    first level starts with "$". *)
Definition dollar_ok (filter topic : string) : Prop :=
  has_prefix (hd "" (levels topic)) "$" = true -> has_prefix (hd "" (levels filter)) "$" = true.

Lemma match_levels_spec f : forall t, forallb (fun l => negb (is_wild l)) t = true ->
  match_levels f t = true <-> level_match f t.
Proof.
  induction f as [|fl f IH]; intros t Ht; cbn [match_levels].
  - destruct t; split; try discriminate; [constructor|auto|intros H; inversion H].
  - destruct (String.eqb_spec fl "#") as [->|Hm].
    + destruct f; [split; [constructor|reflexivity]|]. split; [discriminate|].
      intros H. inversion H; subst. contradiction.
    + destruct t as [|l t]; [split; [discriminate|intros H; inversion H; subst; contradiction]|].
      cbn [forallb] in Ht. bools. unfold is_wild in H. bools.
      apply String.eqb_neq in H, H1. destruct (String.eqb_spec fl "+") as [->|Hp]; cbn [orb andb].
      * rewrite IH by assumption. split; [constructor; assumption|]. intros X. inversion X; subst; [assumption|contradiction].
      * destruct (String.eqb_spec fl l) as [->|Hl]; cbn [andb].
        -- rewrite IH by assumption. split; [constructor; assumption|]. intros X. inversion X; subst; [contradiction|contradiction|assumption].
        -- split; [discriminate|]. intros X. inversion X; subst; contradiction.
Qed.

Lemma level_match_refl t : forallb (fun l => negb (is_wild l)) t = true -> level_match t t.
Proof.
  induction t as [|l t IH]; cbn [forallb]; [constructor|]. intros H. bools. unfold is_wild in H. bools.
  apply String.eqb_neq in H, H1. constructor; auto.
Qed.

Lemma no_wild_levels t : hasWildcard t = false -> forallb (fun l => negb (is_wild l)) (levels t) = true.
Proof.
  unfold hasWildcard. induction (levels t) as [|l ls IH]; cbn; [reflexivity|]. intros H. bools. rewrite H. auto.
Qed.

(** C39: [filterMatches] is MQTT filter matching.  For a topic name (which has
    no wildcard levels) it is true exactly when the levels match by the rules
    for "+" and "#" and the "$" rule holds. *)
Theorem filterMatches_spec (filter topic : string) :
  hasWildcard topic = false ->
  filterMatches filter topic = true <-> level_match (levels filter) (levels topic) /\ dollar_ok filter topic.
Proof.
  intros Ht. apply no_wild_levels in Ht. unfold filterMatches, dollar_ok.
  destruct (String.eqb_spec filter topic) as [->|_].
  - split; [intros _; split; [apply level_match_refl; assumption|auto]|reflexivity].
  - rewrite <- match_levels_spec by assumption.
    destruct (has_prefix (hd "" (levels topic)) "$"), (has_prefix (hd "" (levels filter)) "$"); cbn [negb andb];
      intuition congruence.
Qed.

Lemma filterMatches_spec_witness :
  level_match (levels "sensors/+/temp/#") (levels "sensors/room1/temp") /\ filterMatches "#" "$SYS/uptime" = false.
Proof.
  split; [|reflexivity].
  apply (proj1 (filterMatches_spec "sensors/+/temp/#" "sensors/room1/temp" eq_refl)). reflexivity.
Defined.

(** ** The index subscribes to every point once *)

Section Index.
Context (static : list SubscriptionConfig) (pts : list PointConfig) (rev : string).
#[local] Notation idx := (newTopicIndex pts static rev).
Definition wild_points (l : list PointConfig) : list PointConfig := List.filter (fun p => hasWildcard (Topic p)) l.

Lemma points_lookup t : points idx !! t = last (List.filter (fun p => String.eqb (Topic p) t) pts).
Proof.
  cbn [newTopicIndex points]. induction pts as [|p l IH] using rev_ind; [reflexivity|].
  rewrite fold_left_app, List.filter_app. cbn. destruct (String.eqb_spec (Topic p) t) as [<-|Hne].
  - rewrite lookup_insert_eq, last_snoc. reflexivity.
  - rewrite lookup_insert_ne, app_nil_r by assumption. exact IH.
Qed.

Lemma explicit_lookup t : explicitSubs idx !! t =
  if covered static (wild_points pts) t then None else option_map subscribeOptionsFor (points idx !! t).
Proof.
  cbn [newTopicIndex points explicitSubs]. fold (wild_points pts). generalize (wild_points pts) as w. intros w.
  induction pts as [|p l IH] using rev_ind; [cbn; rewrite lookup_empty; case_if; reflexivity|].
  rewrite !fold_left_app. cbn [fold_left]. destruct (decide (Topic p = t)) as [<-|Hne].
  - revert IH. rewrite lookup_insert_eq. destruct (covered static w (Topic p)); [auto|].
    rewrite lookup_insert_eq. reflexivity.
  - rewrite (lookup_insert_ne _ (Topic p)) by assumption.
    destruct (covered static w (Topic p)); [|rewrite lookup_insert_ne by assumption]; exact IH.
Qed.

Lemma points_in t p : points idx !! t = Some p -> In p pts /\ Topic p = t.
Proof.
  rewrite points_lookup. intros E. apply last_Some in E as [l' E].
  assert (In p (List.filter (fun p => String.eqb (Topic p) t) pts)) as Hin by (rewrite E; apply in_or_app; right; left; reflexivity).
  apply filter_In in Hin as [Hin Ht%String.eqb_eq]. auto.
Qed.

Lemma points_some p : In p pts -> is_Some (points idx !! Topic p).
Proof.
  intros Hin. rewrite points_lookup. destruct (last _) as [q|] eqn:E; [eauto|]. apply last_None in E.
  assert (In p (List.filter (fun q => String.eqb (Topic q) (Topic p)) pts)) as H
    by (apply filter_In; split; [assumption|apply String.eqb_refl]).
  rewrite E in H. destruct H.
Qed.

(** A filter the session subscribes to, by configuration or for the index. *)
Definition subscribed (f : string) : Prop :=
  (exists w, In w static /\ Filter w = f) \/ is_Some (explicitSubs idx !! f).

Lemma existsb_in {A} (g : A -> bool) l : existsb g l = true <-> exists x, In x l /\ g x = true.
Proof. apply existsb_exists. Qed.

Lemma filterMatches_refl t : filterMatches t t = true.
Proof. unfold filterMatches. rewrite String.eqb_refl. reflexivity. Qed.

(** A wildcard point that no static filter swallows subscribes itself. *)
Lemma wild_subscribed w : In w pts -> hasWildcard (Topic w) = true ->
  coveredByWildcard (Topic w) static = false -> is_Some (explicitSubs idx !! Topic w).
Proof.
  intros Hin Hw Hs. rewrite explicit_lookup. unfold covered. rewrite Hs, Hw. cbn [orb andb negb].
  destruct (points_some w Hin) as [p ->]. cbn. eauto.
Qed.

Lemma topic_reached t : (forall w, In w pts -> hasWildcard (Topic w) = true -> coveredByWildcard (Topic w) static = false) ->
  is_Some (resolve idx t) -> exists f, subscribed f /\ filterMatches f t = true.
Proof.
  intros Hs Hr. unfold resolve in Hr. destruct (points idx !! t) as [p|] eqn:Ep.
  - destruct (explicitSubs idx !! t) as [o|] eqn:Eo.
    + exists t. split; [right; eauto|apply filterMatches_refl].
    + rewrite explicit_lookup, Ep in Eo. unfold covered in Eo.
      destruct (coveredByWildcard t static) eqn:Ec; cbn in Eo.
      * apply existsb_in in Ec as (w & Hw & Hm). exists (Filter w). split; [left; eauto|exact Hm].
      * destruct (hasWildcard t); cbn in Eo; [discriminate|]. destruct (existsb _ _) eqn:Ee; [|discriminate].
        apply existsb_in in Ee as (w & Hw & Hm). apply filter_In in Hw as [Hw Hwild].
        exists (Topic w). split; [right; apply wild_subscribed; auto|exact Hm].
  - destruct (List.find _ (wildcards idx)) as [w|] eqn:Ef; [|destruct Hr; discriminate].
    apply find_some in Ef as [Hin Hm]. exists (Topic w). split; [right|exact Hm].
    cbn in Hin. apply list_elem_of_In in Hin. rewrite merge_sort_Permutation in Hin. apply list_elem_of_In, filter_In in Hin as [Hin Hw].
    apply wild_subscribed; auto.
Qed.

(** The index subscribes to what it routes, once.  Provided no wildcard
    point is itself swallowed by a configured static filter: every topic that
    resolves to a point, exactly or through a wildcard point, is reached by a
    subscription of the session; and an exact topic with a subscription of its
    own is reached by no static filter and by no wildcard point, so that no
    message of it is delivered twice. *)
Theorem index_subscribes_once :
  (forall w, In w pts -> hasWildcard (Topic w) = true -> coveredByWildcard (Topic w) static = false) ->
  (forall t, is_Some (resolve idx t) -> exists f, subscribed f /\ filterMatches f t = true) /\
  (forall t, hasWildcard t = false -> is_Some (explicitSubs idx !! t) ->
     (forall w, In w static -> filterMatches (Filter w) t = false) /\
     (forall w, In w pts -> hasWildcard (Topic w) = true -> filterMatches (Topic w) t = false)).
Proof.
  intros Hs. split; [intros t; apply topic_reached; exact Hs|]. intros t Ht He.
  rewrite explicit_lookup in He. unfold covered in He. rewrite Ht in He. cbn [negb andb] in He.
  destruct (coveredByWildcard t static) eqn:Ec; [destruct He; discriminate|].
  destruct (existsb _ (wild_points pts)) eqn:Ee; [destruct He; discriminate|]. split.
  - intros w Hw. destruct (filterMatches (Filter w) t) eqn:E; [|reflexivity].
    rewrite <- Ec. symmetry. apply existsb_in. eauto.
  - intros w Hw Hwild. destruct (filterMatches (Topic w) t) eqn:E; [|reflexivity].
    rewrite <- Ee. symmetry. apply existsb_in. exists w. split; [apply filter_In; auto|exact E].
Qed.
End Index.

Definition read_point (topic : string) : PointConfig :=
  {| Topic := topic; pc_DeviceRef := ""; pc_Unit := ""; pc_Writable := false; CommandTopic := "";
     PayloadTemplate := ""; QoS := 1; CommandQoS := 0 |}.

Lemma index_subscribes_once_witness :
  exists f, subscribed [] [read_point "a/+"; read_point "a/x"] "" f /\ filterMatches f "a/x" = true.
Proof.
  apply (proj1 (index_subscribes_once [] [read_point "a/+"; read_point "a/x"] "" ltac:(reflexivity))).
  vm_compute. eauto.
Defined.

(** A wildcard point can be left without any subscription.  Coverage by a
    static filter is decided by matching the point's filter as if it were a
    topic name, and "+" matches the level "#": with the static filter
    [sensors/+], the point [sensors/#] gets no subscription, although it routes
    [sensors/a/b], which nothing subscribed reaches. *)
Theorem wildcard_point_swallowed :
  let static := [{| Filter := "sensors/+"; sc_QoS := 1 |}] in
  let idx := newTopicIndex [read_point "sensors/#"] static "" in
  resolve idx "sensors/a/b" = Some (read_point "sensors/#", false) /\
  explicitSubs idx = ∅ /\ map so_Topic (brokerSubscriptions static idx) = ["sensors/+"] /\
  filterMatches "sensors/+" "sensors/a/b" = false.
Proof. vm_compute. auto. Qed.

(** ** An apply converges or changes nothing *)

(** What the session holds, by filter.  A SUBSCRIBE that succeeds sets its
    filters; one that fails may have set some of them; an UNSUBSCRIBE that
    succeeds removes its filters, and one that fails may have removed some. *)
Class BrokerLaws (B : Type) `{Broker B} := {
  session : B -> gmap string SubscribeOptions;
  subscribe_law : forall b l b' e, broker_subscribe b l = (b', e) -> forall t,
    let set := last (List.filter (fun o => String.eqb (so_Topic o) t) l) in
    match set with
    | None => session b' !! t = session b !! t
    | Some o => session b' !! t = Some o \/ (e <> None /\ session b' !! t = session b !! t)
    end;
  unsubscribe_law : forall b l b' e, broker_unsubscribe b l = (b', e) -> forall t,
    if decide (t ∈ l) then session b' !! t = None \/ (e <> None /\ session b' !! t = session b !! t)
    else session b' !! t = session b !! t
}.

Section Converge.
Context {B : Type} `{Broker B} `{!BrokerLaws B} (static : list SubscriptionConfig).

Definition static_session : gmap string SubscribeOptions :=
  fold_left (fun m w => <[Filter w := {| so_Topic := Filter w; so_QoS := sc_QoS w; NoLocal := false |}]> m) static ∅.

(** The session holds exactly the static filters and the index's own. *)
Definition converged (b : B) (idx : topicIndex) : Prop :=
  forall t, session b !! t = match explicitSubs idx !! t with Some o => Some o | None => static_session !! t end.

(** An index built for this configuration. *)
Definition built (idx : topicIndex) : Prop := exists pts rev, idx = newTopicIndex pts static rev.

Lemma static_in t : is_Some (static_session !! t) -> exists w, In w static /\ Filter w = t.
Proof.
  unfold static_session. induction static as [|w l IH] using rev_ind; [cbn; rewrite lookup_empty; intros [? [=]]|].
  rewrite fold_left_app. cbn. destruct (decide (Filter w = t)) as [<-|Hne].
  - intros _. exists w. split; [apply in_or_app; right; left; reflexivity|reflexivity].
  - rewrite lookup_insert_ne by assumption. intros Hs. destruct (IH Hs) as (x & Hx & E).
    exists x. split; [apply in_or_app; auto|exact E].
Qed.

(** A filter of the index's own is not a static one, and is its point's. *)
Lemma explicit_own idx t o : built idx -> explicitSubs idx !! t = Some o ->
  static_session !! t = None /\ exists p, points idx !! t = Some p /\ o = subscribeOptionsFor p /\ so_Topic o = t.
Proof.
  intros (pts & rev & ->) E. rewrite explicit_lookup in E. destruct (covered _ _ _) eqn:Ec; [discriminate|]. split.
  - destruct (static_session !! t) as [x|] eqn:Es; [|reflexivity]. exfalso.
    destruct (static_in t (ex_intro _ x Es)) as (w & Hw & <-). unfold covered, coveredByWildcard in Ec. bools.
    assert (existsb (fun v => filterMatches (Filter v) (Filter w)) static = true)
      by (apply existsb_in; exists w; split; [exact Hw|apply filterMatches_refl]). congruence.
  - destruct (points _ !! t) as [p|] eqn:Ep; [|discriminate]. injection E as <-. exists p.
    apply points_in in Ep as [_ Et]. auto.
Qed.

Lemma sort_elem {A} (R : relation A) `{!RelDecision R} (l : list A) x : x ∈ merge_sort R l <-> x ∈ l.
Proof. rewrite merge_sort_Permutation. reflexivity. Qed.

(** The last options set for a topic, in a list of topics with their options. *)
Lemma last_omap (m : gmap string SubscribeOptions) t l :
  (forall x, x ∈ l -> exists o, m !! x = Some o /\ so_Topic o = x) ->
  last (List.filter (fun o => String.eqb (so_Topic o) t) (omap (fun x => m !! x) l)) =
  if decide (t ∈ l) then m !! t else None.
Proof.
  induction l as [|x l IH] using rev_ind; intros Hsub; [reflexivity|].
  rewrite omap_app, List.filter_app. cbn.
  destruct (Hsub x) as (o & Eo & Et); [apply elem_of_app; right; left|]. rewrite Eo. cbn. rewrite Et.
  destruct (String.eqb_spec x t) as [->|Hne].
  - rewrite last_snoc, decide_True by (apply elem_of_app; right; left). auto.
  - rewrite app_nil_r, IH by (intros y Hy; apply Hsub, elem_of_app; auto).
    assert (t ∈ l <-> t ∈ l ++ [x]) as Hiff by (rewrite elem_of_app, list_elem_of_singleton; intuition congruence).
    destruct (decide (t ∈ l)), (decide (t ∈ l ++ [x])); tauto.
Qed.

(** The plan's calls, by topic. *)
Lemma plan_spec current next changed subs unsubs t : built next ->
  planSubscriptions current next changed = (subs, unsubs) ->
  last (List.filter (fun o => String.eqb (so_Topic o) t) subs) =
    (if decide (explicitSubs current !! t = None \/ t ∈ changed) then explicitSubs next !! t else None) /\
  (t ∈ unsubs <-> is_Some (explicitSubs current !! t) /\ explicitSubs next !! t = None).
Proof.
  intros Hb [= <- <-]. split.
  - set (ts := merge_sort topic_le _).
    assert (forall x, x ∈ ts <-> (explicitSubs current !! x = None \/ x ∈ changed) /\ is_Some (explicitSubs next !! x)) as Hts.
    { intros x. subst ts. rewrite sort_elem, list_elem_of_fmap. split.
      - intros ([k v] & -> & Hin). apply list_elem_of_filter in Hin as [Hc Hin%elem_of_map_to_list]. cbn in *. eauto.
      - intros [Hc [v Hv]]. exists (x, v). split; [reflexivity|]. apply list_elem_of_filter.
        split; [exact Hc|apply elem_of_map_to_list; exact Hv]. }
    rewrite last_omap.
    + specialize (Hts t). destruct (decide (t ∈ ts)) as [Hin|Hni]; [rewrite decide_True by tauto; reflexivity|].
      destruct (decide _) as [Hd|]; [|reflexivity]. destruct (explicitSubs next !! t) as [o|]; [|reflexivity].
      exfalso. apply Hni, Hts. split; [exact Hd|eauto].
    + intros x Hx. destruct (proj1 (Hts x) Hx) as [_ [o Eo]]. exists o. split; [exact Eo|].
      apply (explicit_own next x o Hb) in Eo as (_ & p & _ & _ & E). exact E.
  - rewrite sort_elem, list_elem_of_filter, list_elem_of_fmap. split.
    + intros [Hn ([k v] & -> & Hin%elem_of_map_to_list)]. cbn in *. eauto.
    + intros [[v Hv] Hn]. split; [exact Hn|]. exists (t, v). split; [reflexivity|apply elem_of_map_to_list; exact Hv].
Qed.

Lemma desired_topic specs t p : desired_points specs !! t = Some p -> Topic p = t.
Proof.
  unfold desired_points. induction specs as [|s l IH] using rev_ind; [cbn; rewrite lookup_empty; discriminate|].
  rewrite fold_left_app. cbn. destruct (decide (sp_Topic s = t)) as [<-|Hne].
  - rewrite lookup_insert_eq. intros [= <-]. reflexivity.
  - rewrite lookup_insert_ne by assumption. exact IH.
Qed.

Lemma order_in (o : point_order) (m : gmap string PointConfig) : is_point_order o ->
  (forall t p, m !! t = Some p -> Topic p = t) -> forall p, In p (o m) <-> m !! Topic p = Some p.
Proof.
  intros Ho Hm p. rewrite <- list_elem_of_In, (Ho m), list_elem_of_fmap. split.
  - intros ([k v] & -> & Hkv%elem_of_map_to_list). cbn. rewrite (Hm _ _ Hkv). exact Hkv.
  - intros E. exists (Topic p, p). split; [reflexivity|apply elem_of_map_to_list; exact E].
Qed.

(** Flattening a map of points by topic and indexing it again gives the map. *)
Lemma points_of_order (o : point_order) (m : gmap string PointConfig) rev : is_point_order o ->
  (forall t p, m !! t = Some p -> Topic p = t) -> points (newTopicIndex (o m) static rev) = m.
Proof.
  intros Ho Hm. apply map_eq. intros t.
  pose proof (order_in o m Ho Hm) as Hin.
  destruct (points _ !! t) as [p|] eqn:Ep.
  - apply points_in in Ep as [Hp <-]. symmetry. apply Hin. exact Hp.
  - destruct (m !! t) as [p|] eqn:E; [|reflexivity]. pose proof (Hm t p E) as <-.
    destruct (points_some static (o m) rev p (proj2 (Hin p) E)) as [q Eq]. congruence.
Qed.

Lemma changed_elem cur des t :
  t ∈ changed_topics cur des <-> exists p, des !! t = Some p /\ is_Some (cur !! t) /\ cur !! t <> Some p.
Proof.
  unfold changed_topics. rewrite elem_of_dom. split.
  - intros [p Hp]. apply map_lookup_filter_Some in Hp as [Hd Hc]. cbn in Hc. eauto.
  - intros (p & Hd & Hc). exists p. apply map_lookup_filter_Some. auto.
Qed.

(** An explicit subscription that the plan does not renew is already right. *)
Lemma unchanged_sub current next t o : built current -> built next ->
  explicitSubs next !! t = Some o -> is_Some (explicitSubs current !! t) ->
  ~ t ∈ changed_topics (points current) (points next) -> explicitSubs current !! t = Some o.
Proof.
  intros Hc Hn En [o0 E0] Hch. destruct (explicit_own _ _ _ Hn En) as (_ & p & Ep & -> & _).
  destruct (explicit_own _ _ _ Hc E0) as (_ & p0 & Ep0 & -> & _). rewrite E0. do 2 f_equal.
  destruct (decide (p0 = p)); [assumption|]. exfalso. apply Hch, changed_elem. exists p.
  split; [assumption|]. rewrite Ep0. split; [eauto|congruence].
Qed.

Lemma validate_none i pts : validate_from i pts = None -> forall p, In p pts -> exists j, point_check j p = None.
Proof.
  revert i. induction pts as [|q pts IH]; intros i E p Hin; [destruct Hin|]. cbn in E. destruct Hin as [<-|Hin].
  - destruct (point_check i q) eqn:Eq; [discriminate|eauto].
  - destruct (point_check i q); [discriminate|eauto].
Qed.

(** What a point must satisfy to be applied. *)
Definition sound_point (p : PointConfig) : Prop :=
  Topic p <> "" /\ (pc_Writable p = true -> CommandTopic p <> "") /\ QoS p <= 1 /\ CommandQoS p <= 1.

Lemma point_check_none j p : point_check j p = None -> sound_point p.
Proof.
  unfold point_check, sound_point. destruct (String.eqb_spec (Topic p) ""), (pc_Writable p), (String.eqb_spec (CommandTopic p) "");
    cbn [andb]; try discriminate; repeat (case_if; [discriminate|]); intros _; bools; repeat split; auto; discriminate.
Qed.

Lemma validated o des : is_point_order o -> ValidatePoints (o des) = None ->
  forall t p, des !! t = Some p -> sound_point p.
Proof.
  intros Ho E t p Hp. destruct (validate_none 0 (o des) E p) as [j Hj]; [|eapply point_check_none; eassumption].
  apply list_elem_of_In. rewrite (Ho des). apply list_elem_of_fmap. exists (t, p).
  split; [reflexivity|apply elem_of_map_to_list; exact Hp].
Qed.

(** The session after the SUBSCRIBE and after the UNSUBSCRIBE of a plan. *)
Lemma plan_session current next subs unsubs b b1 e1 b2 e2 : built current -> built next -> converged b current ->
  planSubscriptions current next (changed_topics (points current) (points next)) = (subs, unsubs) ->
  match subs with [] => (b, None) | _ => broker_subscribe b subs end = (b1, e1) ->
  match unsubs with [] => (b1, None) | _ => broker_unsubscribe b1 unsubs end = (b2, e2) ->
  (forall t, is_Some (session b !! t) -> is_Some (session b1 !! t)) /\
  (e1 = None -> (forall t o, explicitSubs next !! t = Some o -> session b2 !! t = Some o) /\
     (e2 = None -> converged b2 next)).
Proof.
  intros Hc Hn Hb Hp Es Eu.
  assert (forall t, match last (List.filter (fun o => String.eqb (so_Topic o) t) subs) with
    | None => session b1 !! t = session b !! t
    | Some o => session b1 !! t = Some o \/ (e1 <> None /\ session b1 !! t = session b !! t) end) as Hs
    by (destruct subs; [injection Es as <- <-; reflexivity|apply (subscribe_law _ _ _ _ Es)]).
  assert (forall t, if decide (t ∈ unsubs) then session b2 !! t = None \/ (e2 <> None /\ session b2 !! t = session b1 !! t)
    else session b2 !! t = session b1 !! t) as Hu.
  { destruct unsubs; [injection Eu as <- <-; intros t; rewrite decide_False by (intros X; inversion X); reflexivity|].
    apply (unsubscribe_law _ _ _ _ Eu). }
  split.
  - intros t Ht. specialize (Hs t). destruct (last _); [destruct Hs as [->|[_ ->]]|rewrite Hs]; eauto.
  - intros ->.
    assert (forall t, session b1 !! t = match explicitSubs next !! t with Some o => Some o
      | None => match explicitSubs current !! t with Some o => Some o | None => static_session !! t end end) as H1.
    { intros t. specialize (Hs t). destruct (plan_spec current next _ subs unsubs t Hn Hp) as [Hl _]. rewrite Hl in Hs.
      destruct (explicitSubs next !! t) as [o|] eqn:En.
      - destruct (decide _) as [_|Hd]; [destruct Hs as [->|[He _]]; congruence|]. rewrite Hs, Hb.
        rewrite (unchanged_sub current next t o Hc Hn En); [reflexivity| |tauto].
        destruct (explicitSubs current !! t); [eauto|tauto].
      - destruct (decide _); rewrite Hs, Hb; reflexivity. }
    split.
    + intros t o En. specialize (Hu t). destruct (plan_spec current next _ subs unsubs t Hn Hp) as [_ Hi].
      rewrite decide_False in Hu by (rewrite Hi, En; intros [_ [=]]). rewrite Hu, H1, En. reflexivity.
    + intros -> t. specialize (Hu t). destruct (plan_spec current next _ subs unsubs t Hn Hp) as [_ Hi].
      destruct (decide (t ∈ unsubs)) as [Hin|Hni].
      * apply Hi in Hin as [[o Eo] En]. destruct Hu as [->|[He _]]; [|congruence]. rewrite En.
        symmetry. apply (explicit_own current t o Hc Eo).
      * rewrite Hu, H1. destruct (explicitSubs next !! t) eqn:En; [reflexivity|].
        destruct (explicitSubs current !! t) as [o|] eqn:Eo; [|reflexivity]. exfalso. apply Hni, Hi. eauto.
Qed.

Lemma apply_spec (o1 o2 : point_order) (b : B) (current idx : topicIndex)
    (req : SubscriptionApplyRequest) (cm : option B) (reply : SubscriptionApplyReply) :
  is_point_order o1 -> is_point_order o2 -> built current -> converged b current ->
  ApplySubscriptions static o1 o2 (Some b) current req = (cm, idx, reply) ->
  built idx /\ exists b', cm = Some b' /\
  if ar_Applied reply then
    points idx = desired_points (rq_Points req) /\ (forall t p, points idx !! t = Some p -> sound_point p) /\
    revision idx = rq_Revision req /\ ar_Revision reply = rq_Revision req /\
    (forall t o, explicitSubs idx !! t = Some o -> session b' !! t = Some o) /\
    (ar_Errors reply = [] -> converged b' idx)
  else idx = current /\ ar_Errors reply <> [] /\ forall t, is_Some (session b !! t) -> is_Some (session b' !! t).
Proof.
  intros Ho1 Ho2 Hc Hb E. cbn [ApplySubscriptions] in E. set (des := desired_points (rq_Points req)) in *.
  destruct (ValidatePoints (o1 des)) eqn:Ev.
  { injection E as <- <- <-. split; [exact Hc|]. exists b. split; [reflexivity|]. cbn. split; [reflexivity|]. split; [discriminate|auto]. }
  set (next := newTopicIndex (o2 des) static (rq_Revision req)) in *.
  assert (points next = des) as Hd by (apply points_of_order; [exact Ho2|intros t p; apply desired_topic]).
  assert (built next) as Hn by (eexists _, _; reflexivity).
  destruct (planSubscriptions current next (changed_topics (points current) des)) as [subs unsubs] eqn:Hp.
  destruct (match subs with [] => (b, None) | _ => broker_subscribe b subs end) as [b1 e1] eqn:Es.
  destruct (match unsubs with [] => (b1, None) | _ => broker_unsubscribe b1 unsubs end) as [b2 e2] eqn:Eu.
  destruct (plan_session current next subs unsubs b b1 e1 b2 e2 Hc Hn Hb ltac:(rewrite Hd; exact Hp) Es Eu) as [Hk Hok].
  destruct e1 as [msg|].
  - injection E as <- <- <-. split; [exact Hc|]. exists b1. split; [reflexivity|]. cbn. split; [reflexivity|]. split; [discriminate|auto].
  - injection E as <- <- <-. split; [exact Hn|]. exists b2. split; [reflexivity|]. cbn [ar_Applied ar_Revision ar_Errors].
    destruct (Hok eq_refl) as [Hx Hy]. split; [exact Hd|]. split; [rewrite Hd; apply (validated o1); assumption|].
    split; [reflexivity|]. split; [reflexivity|]. split; [exact Hx|]. intros He. apply Hy. destruct e2; [discriminate|reflexivity].
Qed.

(** What a refused apply did: nothing at all to the broker, or one SUBSCRIBE of
    which the broker took some filters before it failed. *)
Definition refusal (o1 o2 : point_order) (b : B) (req : SubscriptionApplyRequest) (b' : B) (reply : SubscriptionApplyReply) : Prop :=
  let desired := desired_points (rq_Points req) in
  (exists e, ValidatePoints (o1 desired) = Some e /\ reply = refused (InvalidRequest e) /\ b' = b) \/
  (exists msg, ValidatePoints (o1 desired) = None /\ reply = refused (SubscribeError msg) /\
     forall t, session b' !! t = session b !! t \/
       exists o, explicitSubs (newTopicIndex (o2 desired) static (rq_Revision req)) !! t = Some o /\ session b' !! t = Some o).

Lemma apply_refusal o1 o2 b current req b' idx reply : ApplySubscriptions static o1 o2 (Some b) current req = (Some b', idx, reply) ->
  ar_Applied reply = false -> refusal o1 o2 b req b' reply.
Proof.
  intros E Ha. unfold refusal. cbn [ApplySubscriptions] in E. set (des := desired_points (rq_Points req)) in *.
  destruct (ValidatePoints (o1 des)) as [e|]; [injection E as <- <- <-; left; by exists e|].
  set (next := newTopicIndex (o2 des) static (rq_Revision req)) in *.
  destruct (planSubscriptions current next (changed_topics (points current) des)) as [subs unsubs] eqn:Hp.
  destruct (match subs with [] => (b, None) | _ => broker_subscribe b subs end) as [b1 e1] eqn:Es. destruct e1 as [msg|].
  - injection E as <- <- <-. right. exists msg. split; [reflexivity|]. split; [reflexivity|]. intros t.
    destruct subs as [|s0 subs]; [discriminate|]. pose proof (subscribe_law _ _ _ _ Es t) as Hs. cbv zeta in Hs.
    destruct (plan_spec current next _ _ _ t (ex_intro _ _ (ex_intro _ _ eq_refl)) Hp) as [Hl _]. rewrite Hl in Hs.
    destruct (decide _) as [_|_]; [|by left]. destruct (explicitSubs next !! t) as [o|]; [|by left]. destruct Hs as [Hs|[_ Hs]]; [right; by exists o|by left].
  - destruct (match unsubs with [] => (b1, None) | _ => broker_unsubscribe b1 unsubs end) as [b2 e2]. injection E as <- <- <-. discriminate Ha.
Qed.

(** C34: Applying a point set converges a session or refuses.  From a session that
    holds exactly the static filters and the index's own, an apply of an invalid
    point set is refused before any call to the broker, which is left as it was;
    one whose SUBSCRIBE fails leaves the index as it was and no filter lost, and
    adds none but filters of the requested points; one that is accepted installs an
    index of exactly the requested points, all of them sound, under the requested
    revision, with all its filters held by the session with the right options; and
    without an UNSUBSCRIBE error the session again holds exactly what it should.
    After an UNSUBSCRIBE error the session no longer does, and the theorem says
    nothing of the next apply. *)
Theorem apply_converges (o1 o2 : point_order) (b : B) (current idx : topicIndex)
    (req : SubscriptionApplyRequest) (cm : option B) (reply : SubscriptionApplyReply) :
  is_point_order o1 -> is_point_order o2 -> built current -> converged b current ->
  ApplySubscriptions static o1 o2 (Some b) current req = (cm, idx, reply) ->
  built idx /\ exists b', cm = Some b' /\
  if ar_Applied reply then
    points idx = desired_points (rq_Points req) /\ (forall t p, points idx !! t = Some p -> sound_point p) /\
    revision idx = rq_Revision req /\ ar_Revision reply = rq_Revision req /\
    (forall t o, explicitSubs idx !! t = Some o -> session b' !! t = Some o) /\
    (ar_Errors reply = [] -> converged b' idx)
  else idx = current /\ ar_Errors reply <> [] /\ (forall t, is_Some (session b !! t) -> is_Some (session b' !! t)) /\
    refusal o1 o2 b req b' reply.
Proof.
  intros Ho1 Ho2 Hc Hb E. destruct (apply_spec o1 o2 b current idx req cm reply Ho1 Ho2 Hc Hb E) as (Hi & b' & -> & Hr).
  split; [exact Hi|]. exists b'. split; [reflexivity|]. destruct (ar_Applied reply) eqn:Ea; [exact Hr|]. destruct Hr as (H1 & H2 & H3).
  split; [exact H1|]. split; [exact H2|]. split; [exact H3|]. exact (apply_refusal _ _ _ _ _ _ _ _ E Ea).
Qed.
End Converge.

(** A broker session in memory whose UNSUBSCRIBE can be made to fail. *)
Module MqttTopicsExample.

Record sess := { s_subs : gmap string SubscribeOptions; s_fail : bool }.

#[export] Instance sess_broker : Broker sess := {|
  broker_subscribe b l :=
    ({| s_subs := fold_left (fun m o => <[so_Topic o := o]> m) l (s_subs b); s_fail := s_fail b |}, None);
  broker_unsubscribe b l :=
    if s_fail b then (b, Some "timeout")
    else ({| s_subs := fold_left (fun m t => delete t m) l (s_subs b); s_fail := s_fail b |}, None)
|}.

#[export] Instance sess_laws : BrokerLaws sess.
Proof.
  refine {| session := s_subs |}.
  - intros b l b' e [= <- <-] t. cbn. induction l as [|o l IH] using rev_ind; [reflexivity|].
    rewrite fold_left_app, List.filter_app. cbn. destruct (String.eqb_spec (so_Topic o) t) as [<-|Hne].
    + rewrite last_snoc, lookup_insert_eq. auto.
    + rewrite app_nil_r. destruct (last _); [destruct IH as [IH|[[] _]]; [left|reflexivity]|];
        rewrite lookup_insert_ne by assumption; exact IH.
  - intros b l b' e. cbn. destruct (s_fail b); intros [= <- <-] t; [destruct (decide _); [right; split; [discriminate|]|]; reflexivity|].
    cbn. generalize (s_subs b) as m. induction l as [|x l IH]; intros m; cbn [fold_left]; [reflexivity|].
    specialize (IH (delete x m)). destruct (decide (t ∈ l)) as [Hin|Hni].
    + rewrite decide_True by (right; exact Hin). destruct IH as [IH|[[] _]]; [auto|reflexivity].
    + destruct (decide (t ∈ x :: l)) as [[->|]%elem_of_cons|Hn]; [left; rewrite IH; apply lookup_delete_eq|contradiction|].
      rewrite IH. apply lookup_delete_ne. intros ->. apply Hn. left.
Defined.

Definition any_order : point_order := fun m => (map_to_list m).*2.
Definition spec (topic : string) : SubscriptionSpec :=
  {| sp_Topic := topic; sp_QoS := 1; sp_Writable := false; sp_CommandTopic := ""; sp_CommandQoS := 0;
     sp_DeviceRef := ""; sp_Unit := ""; sp_PayloadTemplate := "" |}.
Definition idx0 : topicIndex := newTopicIndex [read_point "a/x"] [] "r0".
Definition sess0 (fail : bool) : sess := {| s_subs := explicitSubs idx0; s_fail := fail |}.
Definition req1 : SubscriptionApplyRequest := {| rq_Revision := "r1"; rq_Points := [spec "a/x"; spec "a/+"] |}.

Lemma sess0_converged fail : converged [] (sess0 fail) idx0.
Proof. intros t. cbn [session sess_laws sess0 s_subs]. destruct (explicitSubs idx0 !! t); [reflexivity|]. cbn. rewrite lookup_empty. reflexivity. Qed.

Lemma apply_converges_witness :
  exists b' idx reply, ApplySubscriptions [] any_order any_order (Some (sess0 false)) idx0 req1 = (Some b', idx, reply) /\
    ar_Applied reply = true /\ converged [] b' idx.
Proof.
  destruct (ApplySubscriptions [] any_order any_order (Some (sess0 false)) idx0 req1) as [[cm idx] reply] eqn:E.
  assert (ar_Applied reply = true /\ ar_Errors reply = []) as [Ha He].
  { change reply with (snd (cm, idx, reply)). rewrite <- E. vm_compute. auto. }
  destruct (apply_converges [] any_order any_order (sess0 false) idx0 idx req1 cm reply) as (_ & b' & -> & H);
    [intros m; reflexivity|intros m; reflexivity|eexists _, _; reflexivity|apply sess0_converged|exact E|].
  rewrite Ha in H. exists b', idx, reply. split; [reflexivity|]. split; [exact Ha|]. apply H, He.
Defined.

(** After a failed UNSUBSCRIBE a topic is delivered twice.  When a wildcard
    point comes to cover an exact one and the UNSUBSCRIBE fails, the apply is
    reported as applied, both filters stay subscribed and match the exact
    topic, and applying again does not retry: the filter is no longer the
    index's own. *)
Theorem failed_unsubscribe_doubles :
  let '(cm, idx, reply) := ApplySubscriptions [] any_order any_order (Some (sess0 true)) idx0 req1 in
  let '(cm2, _, reply2) := ApplySubscriptions [] any_order any_order cm idx req1 in
  ar_Applied reply = true /\ ar_Errors reply2 = [] /\ cm2 = cm /\
  option_map (fun b => (map_to_list (s_subs b)).*1) cm = Some ["a/+"; "a/x"] /\
  filterMatches "a/x" "a/x" = true /\ filterMatches "a/+" "a/x" = true.
Proof. vm_compute. repeat split. Qed.

End MqttTopicsExample.
