(* ===== verification/MqttSync.v ===== *)
(** * Keeping an MQTT connector in step with the point list

    [src/internal/mqttsync]: the subscriptions the point list implies for a
    connector, the difference from what the connector reports, and the client
    that previews and applies it.  A request to the connector's control plane
    is an interface that carries the wire values; their JSON appears in the
    content revision.  The theorem is that a successful apply leaves nothing
    to apply. *)

From Stdlib Require Import ZArith Lia Bool Ascii String List.
From stdpp Require Import base list strings gmap sorting.
From S2P Require Import Prelude Json GoText Float Sha256 Sdk PointList MqttTopics.
#[local] Open Scope string_scope.
#[local] Open Scope list_scope.
#[local] Open Scope Z_scope.

(** ** Deriving subscriptions *)

Definition derive_spec (subQoS cmdQoS : Z) (e : Entry) : SubscriptionSpec :=
  {| sp_Topic := LocalID e; sp_QoS := subQoS; sp_Writable := Writable e;
     sp_CommandTopic := if Writable e then LocalID e else "";
     sp_CommandQoS := if Writable e then cmdQoS else 0;
     sp_DeviceRef := DeviceRef e; sp_Unit := Unit e; sp_PayloadTemplate := "" |}.

Definition derivable (connectorID : string) (e : Entry) : bool :=
  negb (negb (String.eqb (Protocol e) "mqtt") || negb (String.eqb (ConnectorID e) connectorID)
        || String.eqb (LocalID e) "" || negb (String.eqb (ReleaseOf e) "")).

Definition Derive (entries : list Entry) (connectorID : string) (subQoS cmdQoS : Z) : list SubscriptionSpec :=
  map (derive_spec subQoS cmdQoS) (List.filter (derivable connectorID) entries).

(** ** Differences *)

Record Diff := {
  df_Added : list SubscriptionSpec; df_Changed : list SubscriptionSpec; df_Removed : list SubscriptionSpec;
  CurrentRevision : string; TargetRevision : string; SubscribedCount : Z
}.

Definition by_topic (l : list SubscriptionSpec) : gmap string SubscriptionSpec :=
  fold_left (fun m s => <[sp_Topic s := s]> m) l ∅.

(** The values of a map sorted by topic. *)
Definition sorted_specs (m : gmap string SubscriptionSpec) : list SubscriptionSpec :=
  omap (fun t => m !! t) (merge_sort topic_le (map_to_list m).*1).

Definition computeDiff (current desired : list SubscriptionSpec) : Diff :=
  let cur := by_topic current in
  let des := by_topic desired in
  {| df_Added := sorted_specs (filter (fun kv : string * SubscriptionSpec => cur !! fst kv = None) des);
     df_Changed := sorted_specs (filter (fun kv : string * SubscriptionSpec =>
                     is_Some (cur !! fst kv) /\ cur !! fst kv <> Some (snd kv)) des);
     df_Removed := sorted_specs (filter (fun kv : string * SubscriptionSpec => des !! fst kv = None) cur);
     CurrentRevision := ""; TargetRevision := ""; SubscribedCount := Z.of_nat (length desired) |}.

(** ** Revisions *)

Definition omit_zero (k : string) (z : Z) : list (string * json) :=
  if z =? 0 then [] else [(k, JNum (itoa z))].

Definition spec_json (s : SubscriptionSpec) : json :=
  JObj ([("topic", JStr (sp_Topic s)); ("qos", JNum (itoa (sp_QoS s)))]
        ++ omit_false "writable" (sp_Writable s) ++ omit_empty "command_topic" (sp_CommandTopic s)
        ++ omit_zero "command_qos" (sp_CommandQoS s) ++ omit_empty "device_ref" (sp_DeviceRef s)
        ++ omit_empty "unit" (sp_Unit s) ++ omit_empty "payload_template" (sp_PayloadTemplate s)).

Definition spec_le (a b : SubscriptionSpec) : Prop := topic_le (sp_Topic a) (sp_Topic b).
#[export] Instance spec_le_dec : RelDecision spec_le.
Proof. intros a b. unfold spec_le. apply _. Defined.

(** The copy that is sorted is nil, and marshals as [null], when there is no
    spec. *)
Definition revisionOf (specs : list SubscriptionSpec) : string :=
  let doc := match specs with [] => JNull | _ => JArr (map spec_json (merge_sort spec_le specs)) end in
  "sha256:" +:+ sha256_hex (marshal doc).

(** ** The client *)

Record Config := { DefaultSubscribeQoS : gmap string Z; DefaultCommandQoS : gmap string Z }.

(** The control plane of a connector: its status, and applying a request;
    [None] is a failed request or an undecodable reply. *)
Class ControlPlane (K : Type) := {
  cfg_status : K -> string -> K * option (string * list SubscriptionSpec);
  cfg_apply : K -> string -> SubscriptionApplyRequest -> K * option SubscriptionApplyReply
}.

Inductive sync_error := RequestError | InvalidSubscriptions (e : point_error).

Section Client.
Context {K : Type} `{ControlPlane K} (cfg : Config).

Definition client_subscribeQoS (connectorID : string) : Z :=
  match DefaultSubscribeQoS cfg !! connectorID with Some q => if negb (q =? 0) then q else 1 | None => 1 end.
Definition client_commandQoS (connectorID : string) : Z :=
  match DefaultCommandQoS cfg !! connectorID with Some q => if negb (q =? 0) then q else 1 | None => 1 end.

Definition desired (resolver : SyncedResolver) (connectorID : string) : list SubscriptionSpec :=
  Derive (Snapshot resolver) connectorID (client_subscribeQoS connectorID) (client_commandQoS connectorID).

Definition Preview (resolver : SyncedResolver) (k : K) (connectorID : string) : K * result sync_error Diff :=
  let '(k, r) := cfg_status k connectorID in
  match r with
  | None => (k, Err RequestError)
  | Some (rev, subs) =>
    let want := desired resolver connectorID in
    let d := computeDiff subs want in
    (k, Ok {| d with CurrentRevision := rev; TargetRevision := revisionOf want |})
  end.

Definition Apply (resolver : SyncedResolver) (k : K) (connectorID : string) : K * result sync_error SubscriptionApplyReply :=
  let want := desired resolver connectorID in
  match ValidatePoints (map pointConfigFromSpec want) with
  | Some e => (k, Err (InvalidSubscriptions e))
  | None =>
    let '(k, r) := cfg_apply k connectorID {| rq_Revision := revisionOf want; rq_Points := want |} in
    (k, match r with Some reply => Ok reply | None => Err RequestError end)
  end.
End Client.

(** ** A connector behind the control plane *)

(** The running connector: its session, index and the map orders its next
    calls meet. *)
Record Running (B : Type) := {
  rn_id : string; rn_static : list SubscriptionConfig; rn_cm : option B; rn_idx : topicIndex;
  rn_order : point_order
}.
Arguments rn_id {B} _.
Arguments rn_static {B} _.
Arguments rn_cm {B} _.
Arguments rn_idx {B} _.
Arguments rn_order {B} _.

#[export] Instance running_plane {B} `{Broker B} : ControlPlane (Running B) := {|
  cfg_status r id :=
    if String.eqb id (rn_id r) then (r, Some (SubscriptionStatus (rn_order r) (rn_idx r))) else (r, None);
  cfg_apply r id req :=
    if String.eqb id (rn_id r) then
      let '(cm, idx, reply) := ApplySubscriptions (rn_static r) (rn_order r) (rn_order r) (rn_cm r) (rn_idx r) req in
      ({| r with rn_cm := cm; rn_idx := idx |}, Some reply)
    else (r, None)
|}.

(** ** A successful apply leaves nothing to apply *)

Lemma by_topic_lookup l t : by_topic l !! t = last (List.filter (fun s => String.eqb (sp_Topic s) t) l).
Proof.
  unfold by_topic. induction l as [|s l IH] using rev_ind; [reflexivity|].
  rewrite fold_left_app, List.filter_app. cbn. destruct (String.eqb_spec (sp_Topic s) t) as [<-|Hne].
  - rewrite lookup_insert_eq, last_snoc. reflexivity.
  - rewrite lookup_insert_ne, app_nil_r by assumption. exact IH.
Qed.

Lemma desired_by_topic l t : desired_points l !! t = option_map pointConfigFromSpec (by_topic l !! t).
Proof.
  unfold desired_points, by_topic. induction l as [|s l IH] using rev_ind; [reflexivity|].
  rewrite !fold_left_app. cbn. destruct (decide (sp_Topic s = t)) as [<-|Hne].
  - rewrite !lookup_insert_eq. reflexivity.
  - rewrite !lookup_insert_ne by assumption. exact IH.
Qed.

(** A spec survives being applied and reported back. *)
Definition canonical (s : SubscriptionSpec) : Prop :=
  sp_QoS s <> 0 /\ (if sp_Writable s then sp_CommandQoS s <> 0 else sp_CommandQoS s = 0).

Lemma status_spec_id s : canonical s -> status_spec (pointConfigFromSpec s) = s.
Proof.
  intros [Hq Hc]. destruct s as [t q w ct cq d u pt]. unfold status_spec, subscribeQoS, commandQoS. cbn in *.
  apply Z.eqb_neq in Hq. rewrite Hq. destruct w; [apply Z.eqb_neq in Hc|]; rewrite Hc; reflexivity.
Qed.

Lemma derive_canonical es id q c : q <> 0 -> c <> 0 -> Forall canonical (Derive es id q c).
Proof.
  intros Hq Hc. apply List.Forall_forall. intros s Hin. apply in_map_iff in Hin as (e & <- & _).
  unfold canonical, derive_spec. cbn. destruct (Writable e); auto.
Qed.

Lemma status_by_topic o m t : is_point_order o -> (forall k p, m !! k = Some p -> Topic p = k) ->
  by_topic (map status_spec (o m)) !! t = option_map status_spec (m !! t).
Proof.
  intros Ho Hm. rewrite by_topic_lookup.
  pose proof (order_in o m Ho Hm) as Hin.
  destruct (last _) as [s|] eqn:El.
  - apply last_Some in El as [l' El].
    assert (In s (List.filter (fun s => String.eqb (sp_Topic s) t) (map status_spec (o m)))) as Hs
      by (rewrite El; apply in_or_app; right; left; reflexivity).
    apply filter_In in Hs as [Hs Ht%String.eqb_eq]. apply in_map_iff in Hs as (p & <- & Hp). cbn in Ht.
    apply Hin in Hp. rewrite <- Ht, Hp. reflexivity.
  - apply last_None in El. destruct (m !! t) as [p|] eqn:Ep; [|reflexivity]. exfalso.
    assert (In (status_spec p) (List.filter (fun s => String.eqb (sp_Topic s) t) (map status_spec (o m)))) as Hs.
    { apply filter_In. cbn. rewrite (Hm _ _ Ep), String.eqb_refl. split; [|reflexivity].
      apply in_map, Hin. rewrite (Hm _ _ Ep). exact Ep. }
    rewrite El in Hs. destruct Hs.
Qed.

Lemma sorted_specs_empty m : (forall t, m !! t = None) -> sorted_specs m = [].
Proof. intros Hm. assert (m = ∅) as -> by (apply map_eq; intros t; rewrite Hm, lookup_empty; reflexivity). reflexivity. Qed.

(** Reported and wanted subscriptions that agree by topic have no difference. *)
Lemma no_diff current want : (forall t, by_topic current !! t = by_topic want !! t) ->
  let d := computeDiff current want in df_Added d = [] /\ df_Changed d = [] /\ df_Removed d = [].
Proof.
  intros He. cbn. repeat split; apply sorted_specs_empty; intros t; apply map_lookup_filter_None_2; cbn.
  - rewrite He. destruct (by_topic want !! t) as [x|]; [right; intros s [= <-]; discriminate|auto].
  - rewrite He. destruct (by_topic want !! t) as [x|]; [right; intros s [= <-] [_ []]; reflexivity|auto].
  - rewrite He. destruct (by_topic want !! t) as [x|]; [right; intros s [= <-]; discriminate|auto].
Qed.

Section Converges.
Context {B : Type} `{Broker B} `{!BrokerLaws B} (cfg : Config).

(** A successful apply leaves nothing to apply.  When a connector in step
    with its broker session accepts the subscriptions derived from the point
    list, the preview that follows shows no subscription to add, change or
    remove, and equal current and target revisions; and the session holds every
    subscription of the connector's index. *)
Theorem sync_converges (resolver : SyncedResolver) (r r' : Running B) (b : B) (reply : SubscriptionApplyReply) :
  is_point_order (rn_order r) -> rn_cm r = Some b -> built (rn_static r) (rn_idx r) ->
  converged (rn_static r) b (rn_idx r) ->
  Apply cfg resolver r (rn_id r) = (r', Ok reply) -> ar_Applied reply = true ->
  (exists d, Preview cfg resolver r' (rn_id r) = (r', Ok d) /\
     df_Added d = [] /\ df_Changed d = [] /\ df_Removed d = [] /\ CurrentRevision d = TargetRevision d) /\
  exists b', rn_cm r' = Some b' /\
    forall t o, explicitSubs (rn_idx r') !! t = Some o -> session b' !! t = Some o.
Proof.
  intros Ho Hb Hbuilt Hconv E Ha. unfold Apply in E. set (want := desired cfg resolver (rn_id r)) in *.
  destruct (ValidatePoints _); [discriminate|]. cbn [cfg_apply running_plane] in E. rewrite String.eqb_refl, Hb in E.
  destruct (ApplySubscriptions _ _ _ _ _ _) as [[cm idx] rep] eqn:EA. injection E as <- ->.
  destruct (apply_spec (rn_static r) (rn_order r) (rn_order r) b (rn_idx r) idx _ cm reply Ho Ho Hbuilt Hconv EA)
    as (_ & b' & -> & Hx). rewrite Ha in Hx. destruct Hx as (Hp & _ & Hrev & _ & Hsub & _).
  split; [|exists b'; auto].
  unfold Preview. cbn [cfg_status running_plane rn_id rn_order rn_idx]. rewrite String.eqb_refl. fold want. cbn [SubscriptionStatus].
  eexists. split; [reflexivity|]. cbn [df_Added df_Changed df_Removed CurrentRevision TargetRevision].
  assert (forall t, by_topic (map status_spec (rn_order r (points idx))) !! t = by_topic want !! t) as He.
  { intros t. rewrite status_by_topic; [|exact Ho|rewrite Hp; intros k p; apply desired_topic].
    rewrite Hp. cbn [rq_Points]. rewrite desired_by_topic. destruct (by_topic want !! t) as [s|] eqn:Es; [|reflexivity].
    cbn. f_equal. apply status_spec_id. rewrite by_topic_lookup in Es. apply last_Some in Es as [l' Es].
    assert (In s want) as Hin.
    { apply (proj1 (filter_In (fun s => String.eqb (sp_Topic s) t) s want)). rewrite Es. apply in_or_app. right. left. reflexivity. }
    assert (Forall canonical want) as Hc.
    { apply derive_canonical; [unfold client_subscribeQoS|unfold client_commandQoS];
        destruct (_ !! _) as [q|]; try lia; destruct (Z.eqb_spec q 0); cbn; lia. }
    rewrite List.Forall_forall in Hc. auto. }
  destruct (no_diff _ _ He) as (-> & -> & ->). repeat split. exact Hrev.
Qed.
End Converges.

(** A connector that gains a point. *)
Module MqttSyncExample.
Import MqttTopicsExample.

Definition cfg0 : Config := {| DefaultSubscribeQoS := ∅; DefaultCommandQoS := ∅ |}.
Definition list0 : SyncedResolver :=
  Update (NewSynced None) [mkEntry "" "mqtt-01" "mqtt" "a/x" "p1" "" false "" ""; mkEntry "" "mqtt-01" "mqtt" "b" "p2" "" true "" ""].
Definition running0 : Running sess :=
  {| rn_id := "mqtt-01"; rn_static := []; rn_cm := Some (sess0 false); rn_idx := idx0; rn_order := any_order |}.

Lemma sync_converges_witness :
  exists r' reply d, Apply cfg0 list0 running0 "mqtt-01" = (r', Ok reply) /\
    Preview cfg0 list0 r' "mqtt-01" = (r', Ok d) /\ df_Added d = [].
Proof.
  destruct (Apply cfg0 list0 running0 "mqtt-01") as [r' [reply|e]] eqn:E.
  - assert (match snd (Apply cfg0 list0 running0 "mqtt-01") with Ok x => ar_Applied x | Err _ => false end = true) as Ha
      by (vm_compute; reflexivity).
    rewrite E in Ha.
    destruct (sync_converges cfg0 list0 running0 r' (sess0 false) reply) as [(d & Hd & Hadd & _) _];
      [intros m; reflexivity|reflexivity|eexists _, _; reflexivity|apply sess0_converged|exact E|exact Ha|].
    exists r', reply, d. auto.
  - exfalso. assert (is_ok (snd (Apply cfg0 list0 running0 "mqtt-01")) = true) as Ha by (vm_compute; reflexivity).
    rewrite E in Ha. discriminate.
Defined.

End MqttSyncExample.
