(* ===== verification/MqttSession.v ===== *)
(** * The MQTT connector's broker session

    [Run] and [ApplySubscriptions] of [src/connector/mqtt/connector.go] as they
    interleave: the broker link comes and goes, the callback of a new connection
    reads the topic index and subscribes, and an apply subscribes, unsubscribes
    and commits the next index.  A step is one exchange with the broker or one
    access to the shared index.  The callback runs on the connection manager's
    own goroutine, so there is one at a time; applies hold [applyMu].  Also the
    health and metrics of [connector.go] and the control handler around an apply.

    The theorems: whenever the link is up and neither a callback nor an apply is
    under way, the session holds every subscription of the index, unless a
    callback overlapped an apply since the link came up; one that did can leave
    points that are reported as applied without a subscription. *)

From Stdlib Require Import ZArith Lia Bool Ascii String List.
From stdpp Require Import base list strings gmap.
From S2P Require Import Prelude Json GoText Float MqttTopics MqttSync.
#[local] Open Scope string_scope.
#[local] Open Scope list_scope.
#[local] Open Scope Z_scope.

(** ** State *)

(** [OnConnectionUp]: called, after [brokerSubscriptions], after a successful
    SUBSCRIBE, after a failed one with its disconnect to come. *)
Inductive up_pc := UpIdle | UpCalled | UpRead (subs : list SubscribeOptions) | UpSubscribed | UpFailed.

(** [ApplySubscriptions]: after the SUBSCRIBE, after the UNSUBSCRIBE. *)
Inductive apply_pc := ApIdle | ApSubscribed (next : topicIndex) (unsubs : list string) | ApUnsubscribed (next : topicIndex).

(** Since the link came up: [overlap] records that a callback and an apply were
    under way together, [half] that the SUBSCRIBE of an apply failed. *)
Record conn := {
  link : bool; held : gmap string SubscribeOptions; topics : topicIndex; connected : bool; ready : bool;
  up : up_pc; apply : apply_pc; overlap : bool; half : bool
}.

(** ** Exchanges with the broker *)

Definition subscribe_all (m : gmap string SubscribeOptions) (l : list SubscribeOptions) : gmap string SubscribeOptions :=
  fold_left (fun m o => <[so_Topic o := o]> m) l m.
Definition unsubscribe_all (m : gmap string SubscribeOptions) (l : list string) : gmap string SubscribeOptions :=
  fold_left (fun m t => delete t m) l m.

(** A failed SUBSCRIBE or UNSUBSCRIBE may have taken effect in part. *)
Definition partly {A} (m full m' : gmap string A) : Prop := forall t, m' !! t = m !! t \/ m' !! t = full !! t.

#[local] Existing Instance MqttTopicsExample.sess_broker.

Section Session.
  Variable static : list SubscriptionConfig.

(** What an apply does before its SUBSCRIBE: the next index and the plan;
    [None] when the request is refused. *)
Definition apply_plan (o1 o2 : point_order) (current : topicIndex) (req : SubscriptionApplyRequest)
  : option (topicIndex * list SubscribeOptions * list string) :=
  let desired := desired_points (rq_Points req) in
  match ValidatePoints (o1 desired) with
  | Some _ => None
  | None =>
    let next := newTopicIndex (o2 desired) static (rq_Revision req) in
    let '(subs, unsubs) := planSubscriptions current next (changed_topics (points current) desired) in
    Some (next, subs, unsubs)
  end.

Definition callback_reads (u : up_pc) : bool := match u with UpRead _ => true | _ => false end.
Definition applying (a : apply_pc) : bool := match a with ApIdle => false | _ => true end.

Inductive step : conn -> conn -> Prop :=
(** The link: lost at any time; up again with the session kept or expired. *)
| Drop s : step s {| s with link := false |}
| Reconnect s m : link s = false -> up s = UpIdle -> m = held s \/ m = ∅ ->
    step s {| s with link := true; held := m; up := UpCalled; overlap := false; half := false |}
(** [OnConnectError], [OnServerDisconnect], [OnClientError]. *)
| Offline s : step s {| s with connected := false |}
(** [OnConnectionUp]. *)
| UpReads s : up s = UpCalled ->
    step s {| s with up := UpRead (brokerSubscriptions static (topics s)); overlap := overlap s || applying (apply s) |}
| UpSubscribes s subs : up s = UpRead subs -> link s = true \/ subs = [] ->
    step s {| s with up := UpSubscribed; held := subscribe_all (held s) subs |}
| UpFails s subs m : up s = UpRead subs -> partly (held s) (subscribe_all (held s) subs) m ->
    step s {| s with up := UpFailed; held := m |}
| UpDisconnects s : up s = UpFailed -> step s {| s with up := UpIdle; link := false |}
| UpDone s : up s = UpSubscribed -> step s {| s with up := UpIdle; connected := true; ready := true |}
(** [ApplySubscriptions]. *)
| ApplySubscribes s o1 o2 req next subs unsubs : apply s = ApIdle -> is_point_order o1 -> is_point_order o2 ->
    apply_plan o1 o2 (topics s) req = Some (next, subs, unsubs) -> link s = true \/ subs = [] ->
    step s {| s with apply := ApSubscribed next unsubs; held := subscribe_all (held s) subs;
                     overlap := overlap s || callback_reads (up s) |}
| ApplyFails s o1 o2 req next subs unsubs m : apply s = ApIdle -> is_point_order o1 -> is_point_order o2 ->
    apply_plan o1 o2 (topics s) req = Some (next, subs, unsubs) -> partly (held s) (subscribe_all (held s) subs) m ->
    step s {| s with held := m; half := true |}
| ApplyUnsubscribes s next unsubs : apply s = ApSubscribed next unsubs -> link s = true \/ unsubs = [] ->
    step s {| s with apply := ApUnsubscribed next; held := unsubscribe_all (held s) unsubs |}
| ApplyKeeps s next unsubs m : apply s = ApSubscribed next unsubs -> partly (held s) (unsubscribe_all (held s) unsubs) m ->
    step s {| s with apply := ApUnsubscribed next; held := m |}
| ApplyCommits s next : apply s = ApUnsubscribed next -> step s {| s with apply := ApIdle; topics := next |}.

(** [Run] before the first connection. *)
Definition conn_start (pts : list PointConfig) : conn :=
  {| link := false; held := ∅; topics := newTopicIndex pts static ""; connected := false; ready := false; up := UpIdle;
     apply := ApIdle; overlap := false; half := false |}.

Inductive reaches (pts : list PointConfig) : conn -> Prop :=
| ReachStart : reaches pts (conn_start pts)
| ReachStep s s' : reaches pts s -> step s s' -> reaches pts s'.

(** ** The session holds what the index needs *)

(** Every filter of the index, static or its own, is held, with its options when
    [exactly]. *)
Definition needs (idx : topicIndex) (t : string) : option SubscribeOptions :=
  match explicitSubs idx !! t with Some o => Some o | None => static_session static !! t end.
Definition covers (exactly : bool) (m : gmap string SubscribeOptions) (idx : topicIndex) : Prop :=
  forall t o, needs idx t = Some o -> is_Some (m !! t) /\ (exactly = true -> m !! t = Some o).

Lemma subscribe_all_lookup l : forall m t,
  subscribe_all m l !! t = match last (List.filter (fun o => String.eqb (so_Topic o) t) l) with Some o => Some o | None => m !! t end.
Proof.
  induction l as [|o l IH] using rev_ind; intros m t; [done|].
  unfold subscribe_all. rewrite fold_left_app, List.filter_app. cbn. destruct (String.eqb_spec (so_Topic o) t) as [<-|Hn].
  - by rewrite last_snoc, lookup_insert_eq.
  - rewrite app_nil_r, lookup_insert_ne by done. apply IH.
Qed.

Lemma unsubscribe_all_lookup l : forall m t, ~ t ∈ l -> unsubscribe_all m l !! t = m !! t.
Proof.
  induction l as [|x l IH]; intros m t Ht; [done|]. apply not_elem_of_cons in Ht as [Hx Hl].
  cbn. unfold unsubscribe_all in IH. rewrite IH by done. by rewrite lookup_delete_ne.
Qed.

Lemma subscribe_all_keeps m l t : is_Some (m !! t) -> is_Some (subscribe_all m l !! t).
Proof. intros Hm. rewrite subscribe_all_lookup. destruct (last _); by eauto. Qed.

(** The static filters, as the callback subscribes to them. *)
Lemma static_last t :
  last (List.filter (fun o => String.eqb (so_Topic o) t)
    (map (fun w => {| so_Topic := Filter w; so_QoS := sc_QoS w; NoLocal := false |}) static)) = static_session static !! t.
Proof.
  unfold static_session. induction static as [|w l IH] using rev_ind; [done|].
  rewrite map_app, List.filter_app, fold_left_app. cbn. destruct (String.eqb_spec (Filter w) t) as [<-|Hn].
  - by rewrite last_snoc, lookup_insert_eq.
  - by rewrite app_nil_r, lookup_insert_ne, IH.
Qed.

Lemma explicit_last idx t : built static idx ->
  last (List.filter (fun o => String.eqb (so_Topic o) t) (map_to_list (explicitSubs idx)).*2) = explicitSubs idx !! t.
Proof.
  intros Hb.
  assert ((map_to_list (explicitSubs idx)).*2 = omap (fun x => explicitSubs idx !! x) (map_to_list (explicitSubs idx)).*1) as ->.
  { assert (forall kv, kv ∈ map_to_list (explicitSubs idx) -> explicitSubs idx !! kv.1 = Some kv.2) as Hl
      by (intros [k v]; apply elem_of_map_to_list).
    induction (map_to_list (explicitSubs idx)) as [|kv l IH]; [done|]. cbn. rewrite (Hl kv) by left. f_equal.
    apply IH. intros x Hx. apply Hl. by right. }
  rewrite last_omap.
  - case_decide as Hd; [done|]. destruct (explicitSubs idx !! t) as [o|] eqn:E; [|done]. destruct Hd.
    apply list_elem_of_fmap. exists (t, o). by split; [|apply elem_of_map_to_list].
  - intros x ([k v] & -> & Hin%elem_of_map_to_list)%list_elem_of_fmap. cbn in *.
    destruct (explicit_own static idx k v Hb Hin) as (_ & p & _ & _ & Ht). by exists v.
Qed.

(** The callback's SUBSCRIBE installs everything. *)
Lemma callback_covers m idx : built static idx -> covers true (subscribe_all m (brokerSubscriptions static idx)) idx.
Proof.
  intros Hb t o Hn. enough (subscribe_all m (brokerSubscriptions static idx) !! t = Some o) as ->; [by eauto|].
  unfold brokerSubscriptions, subscribe_all. rewrite fold_left_app. fold (subscribe_all m (map (fun w =>
    {| so_Topic := Filter w; so_QoS := sc_QoS w; NoLocal := false |}) static)).
  fold (subscribe_all (subscribe_all m (map (fun w => {| so_Topic := Filter w; so_QoS := sc_QoS w; NoLocal := false |}) static))
    (map_to_list (explicitSubs idx)).*2).
  rewrite subscribe_all_lookup, explicit_last by done. unfold needs in Hn. destruct (explicitSubs idx !! t); [done|].
  by rewrite subscribe_all_lookup, static_last, Hn.
Qed.

Lemma covers_weaken x m idx : covers true m idx -> covers x m idx.
Proof. intros Hc t o Hn. destruct (Hc t o Hn) as [Hs He]. auto. Qed.

(** A failed exchange keeps what it could only add, and what it does not name. *)
Lemma partly_sub m l m' x idx : covers x m idx -> partly m (subscribe_all m l) m' -> covers false m' idx.
Proof.
  intros Hc Hp t o Hn. destruct (Hc t o Hn) as [Hs _]. split; [|done].
  destruct (Hp t) as [->| ->]; [done|by apply subscribe_all_keeps].
Qed.
Lemma partly_unsub m l m' x idx : covers x m idx -> (forall t, t ∈ l -> needs idx t = None) ->
  partly m (unsubscribe_all m l) m' -> covers x m' idx.
Proof.
  intros Hc Hl Hp t o Hn. assert (m' !! t = m !! t) as ->; [|by apply Hc].
  assert (~ t ∈ l) as Ht by (intros Hin%Hl; congruence). destruct (Hp t) as [->| ->]; [done|by apply unsubscribe_all_lookup].
Qed.

(** What an apply has ready before its SUBSCRIBE. *)
Lemma apply_plan_ok o1 o2 current req next subs unsubs : is_point_order o2 -> built static current ->
  apply_plan o1 o2 current req = Some (next, subs, unsubs) ->
  built static next /\ (forall t, t ∈ unsubs -> needs next t = None) /\
  forall x m, covers x m current -> covers x (subscribe_all m subs) next.
Proof.
  intros Ho2 Hc. unfold apply_plan. set (des := desired_points (rq_Points req)). destruct (ValidatePoints (o1 des)); [done|].
  set (nx := newTopicIndex (o2 des) static (rq_Revision req)).
  assert (points nx = des) as Hd by (apply points_of_order; [exact Ho2|intros t p; apply desired_topic]).
  assert (built static nx) as Hn by (by eexists _, _).
  destruct (planSubscriptions current nx (changed_topics (points current) des)) as [ss us] eqn:Hp. intros [= <- <- <-].
  split; [done|]. pose proof (fun t => plan_spec static current nx _ ss us t Hn Hp) as Hplan. split.
  - intros t Hin. destruct (Hplan t) as [_ [Hu _]]. destruct (Hu Hin) as [[o Ho] He]. unfold needs. rewrite He.
    apply (explicit_own static current t o Hc Ho).
  - intros x m Hm t o. unfold needs. destruct (Hplan t) as [Hl _]. rewrite subscribe_all_lookup, Hl.
    destruct (explicitSubs nx !! t) as [o'|] eqn:E.
    + intros [= ->]. case_decide as Hd'; [by eauto|]. apply Hm. unfold needs.
      rewrite (unchanged_sub static current nx t o Hc Hn E); [done| |rewrite Hd; tauto].
      destruct (explicitSubs current !! t); [by eauto|tauto].
    + intros Hs. assert (needs current t = Some o) as Hcur.
      { unfold needs. destruct (explicitSubs current !! t) as [o'|] eqn:Eo; [|done].
        destruct (explicit_own static current t o' Hc Eo) as [Hno _]. congruence. }
      destruct (decide _); by apply Hm.
Qed.

(** The invariant: the indexes were built here; without an overlap a callback
    has read the index that is current; and on a link whose callback is through
    the session serves the index that is, or is about to be, current. *)
Definition settled (u : up_pc) : bool := match u with UpIdle | UpSubscribed => true | _ => false end.
Record conn_inv (s : conn) : Prop := {
  inv_built : built static (topics s);
  inv_next : match apply s with
             | ApIdle => True
             | ApSubscribed next unsubs => built static next /\ forall t, t ∈ unsubs -> needs next t = None
             | ApUnsubscribed next => built static next
             end;
  inv_read : forall subs, overlap s = false -> up s = UpRead subs ->
             apply s = ApIdle /\ subs = brokerSubscriptions static (topics s);
  inv_covers : overlap s = false -> link s = true -> settled (up s) = true ->
               covers (negb (half s)) (held s)
                 (match apply s with ApIdle => topics s | ApSubscribed next _ => next | ApUnsubscribed next => next end)
}.

Lemma start_inv pts : conn_inv (conn_start pts).
Proof. by split; [eexists _, _| | |]. Qed.

Lemma conn_step_inv s s' : conn_inv s -> step s s' -> conn_inv s'.
Proof.
  intros [Hb Hn Hr Hc]. destruct 1 as [s|s m Hl Hu Hm|s|s Hu|s subs Hu Hl|s subs m Hu Hm|s Hu|s Hu|
    s o1 o2 req next subs unsubs Ha Ho1 Ho2 Hp Hl|s o1 o2 req next subs unsubs m Ha Ho1 Ho2 Hp Hm|
    s next unsubs Ha Hl|s next unsubs m Ha Hm|s next Ha]; split; cbn [topics apply up overlap link held half]; try done.
  - intros subs [Ho Hx]%orb_false_iff [= <-]. by destruct (apply s).
  - intros Ho _ _. destruct (Hr subs Ho Hu) as [Ea ->]. rewrite Ea. by apply covers_weaken, callback_covers.
  - intros Ho Hl _. by apply Hc; [..|rewrite Hu].
  - by destruct (apply_plan_ok o1 o2 _ _ _ _ _ Ho2 Hb Hp) as (Hb' & Hu' & _).
  - intros sb [_ Hx]%orb_false_iff Hu. by rewrite Hu in Hx.
  - intros [Ho _]%orb_false_iff Hlk Hs. destruct (apply_plan_ok o1 o2 _ _ _ _ _ Ho2 Hb Hp) as (_ & _ & Hcov).
    apply Hcov. specialize (Hc Ho Hlk Hs). by rewrite Ha in Hc.
  - intros Ho Hlk Hs. rewrite Ha. specialize (Hc Ho Hlk Hs). rewrite Ha in Hc. by eapply partly_sub.
  - rewrite Ha in Hn. apply Hn.
  - intros sb Ho Hu. destruct (Hr sb Ho Hu) as [Hx _]. congruence.
  - intros Ho Hlk Hs. specialize (Hc Ho Hlk Hs). rewrite Ha in Hc, Hn. apply (partly_unsub (held s) unsubs); [done|apply Hn|by right].
  - rewrite Ha in Hn. apply Hn.
  - intros sb Ho Hu. destruct (Hr sb Ho Hu) as [Hx _]. congruence.
  - intros Ho Hlk Hs. specialize (Hc Ho Hlk Hs). rewrite Ha in Hc, Hn. apply (partly_unsub (held s) unsubs); [done|apply Hn|done].
  - rewrite Ha in Hn. apply Hn.
  - intros sb Ho Hu. destruct (Hr sb Ho Hu) as [Hx _]. congruence.
  - intros Ho Hlk Hs. specialize (Hc Ho Hlk Hs). by rewrite Ha in Hc.
Qed.

Lemma reaches_inv pts s : reaches pts s -> conn_inv s.
Proof. induction 1; [apply start_inv|by eapply conn_step_inv]. Qed.

(** C13: whatever the interleaving of link losses, reconnects and applies, with
    exchanges that fail in part: while the link is up and neither a connection
    callback nor an apply is under way, the broker session holds every filter
    the connector's index needs, so every configured point is received; and
    with exactly the index's options when no SUBSCRIBE of an apply failed on this
    link.  The exception is a link on which the callback overlapped an apply. *)
Theorem subscriptions_live pts s : reaches pts s -> overlap s = false ->
  link s = true -> up s = UpIdle -> apply s = ApIdle ->
  forall t o, needs (topics s) t = Some o -> is_Some (held s !! t) /\ (half s = false -> held s !! t = Some o).
Proof.
  intros [_ _ _ Hc]%reaches_inv Ho Hl Hu Ha t o Hn. rewrite Hu, Ha in Hc.
  destruct (Hc Ho Hl eq_refl t o Hn) as [Hs He]. split; [done|]. intros Hh. apply He. by rewrite Hh.
Qed.

(** An apply that is not interrupted takes the steps of [ApplySubscriptions]. *)
Lemma apply_uninterrupted s o1 o2 req b idx reply : is_point_order o1 -> is_point_order o2 ->
  apply s = ApIdle -> up s = UpIdle -> link s = true ->
  ApplySubscriptions static o1 o2 (Some {| MqttTopicsExample.s_subs := held s; MqttTopicsExample.s_fail := false |}) (topics s) req
    = (Some b, idx, reply) ->
  rtc step s (if ar_Applied reply then {| s with held := MqttTopicsExample.s_subs b; topics := idx |} else s).
Proof.
  intros Ho1 Ho2 Ha Hu Hl. cbn [ApplySubscriptions].
  destruct (ValidatePoints _) eqn:Ev; [by intros [= <- <- <-]|].
  destruct (planSubscriptions _ _ _) as [subs unsubs] eqn:Ep.
  set (next := newTopicIndex _ _ _) in *.
  assert (apply_plan o1 o2 (topics s) req = Some (next, subs, unsubs)) as Hp
    by (unfold apply_plan; rewrite Ev; fold next; by rewrite Ep).
  assert (forall x : MqttTopicsExample.sess, match subs with [] => (x, None) | _ => broker_subscribe x subs end =
    ({| x with MqttTopicsExample.s_subs := subscribe_all (MqttTopicsExample.s_subs x) subs |}, None)) as Hsub
    by (intros []; by destruct subs).
  rewrite Hsub. clear Hsub. cbn [MqttTopicsExample.s_subs MqttTopicsExample.s_fail].
  match goal with |- context [match unsubs with [] => (?x, None) | _ => _ end] =>
    assert (match unsubs with [] => (x, None) | _ => broker_unsubscribe x unsubs end =
      ({| x with MqttTopicsExample.s_subs := unsubscribe_all (MqttTopicsExample.s_subs x) unsubs |}, None)) as ->
      by (by destruct unsubs) end.
  intros [= <- <- <-]. cbn [ar_Applied MqttTopicsExample.s_subs].
  eapply rtc_l; [eapply (ApplySubscribes s o1 o2 req next subs unsubs); by auto|].
  eapply rtc_l; [eapply ApplyUnsubscribes; [done|by left]|].
  eapply rtc_l; [by eapply ApplyCommits|]. cbn. rewrite Hu, <- Ha. rewrite orb_false_r. destruct s. cbn in *. subst. apply rtc_refl.
Qed.
End Session.

(** ** Health and metrics *)

Definition second : Z := 1000000000.
Definition publishStallThreshold : Z := 30 * second.
Definition defaultReceiveMaximum : Z := 1024.

(** [time.Since] is on the wall clock here, since the argument comes from
    [time.Unix], and saturates. *)
Definition publishStalled (failingSince now : Z) : Z :=
  if failingSince =? 0 then 0 else Z.max (- 2 ^ 63) (Z.min (2 ^ 63 - 1) (now - failingSince)).
Definition Healthy (s : conn) (failingSince now : Z) : bool :=
  connected s && (publishStalled failingSince now <? publishStallThreshold).
Definition receiveMaximum (setting : Z) : Z := if setting =? 0 then defaultReceiveMaximum else setting.

(** ** The control plane's wire form *)

Definition decode_u8 (cur : Z) (v : json) : option Z :=
  match v with
  | JNull => Some cur
  | JNum lit => if all_digits lit && negb (String.eqb lit "") && (digits_val 0 lit <=? 255) then Some (digits_val 0 lit) else None
  | _ => None
  end.

Definition sub_names : list string :=
  ["topic"; "qos"; "writable"; "command_topic"; "command_qos"; "device_ref"; "unit"; "payload_template"].
Definition sub_set (f : string) (v : json) (s : SubscriptionSpec) : option SubscriptionSpec :=
  if String.eqb f "topic" then option_map (fun x => {| s with sp_Topic := x |}) (decode_str (sp_Topic s) v)
  else if String.eqb f "qos" then option_map (fun x => {| s with sp_QoS := x |}) (decode_u8 (sp_QoS s) v)
  else if String.eqb f "writable" then option_map (fun x => {| s with sp_Writable := x |}) (decode_bool (sp_Writable s) v)
  else if String.eqb f "command_topic" then option_map (fun x => {| s with sp_CommandTopic := x |}) (decode_str (sp_CommandTopic s) v)
  else if String.eqb f "command_qos" then option_map (fun x => {| s with sp_CommandQoS := x |}) (decode_u8 (sp_CommandQoS s) v)
  else if String.eqb f "device_ref" then option_map (fun x => {| s with sp_DeviceRef := x |}) (decode_str (sp_DeviceRef s) v)
  else if String.eqb f "unit" then option_map (fun x => {| s with sp_Unit := x |}) (decode_str (sp_Unit s) v)
  else option_map (fun x => {| s with sp_PayloadTemplate := x |}) (decode_str (sp_PayloadTemplate s) v).
Definition zero_sub : SubscriptionSpec :=
  {| sp_Topic := ""; sp_QoS := 0; sp_Writable := false; sp_CommandTopic := ""; sp_CommandQoS := 0; sp_DeviceRef := "";
     sp_Unit := ""; sp_PayloadTemplate := "" |}.
Definition sub_unjson : json -> option SubscriptionSpec := decode_struct false sub_names sub_set zero_sub.

Definition apply_request_set (f : string) (v : json) (r : SubscriptionApplyRequest) : option SubscriptionApplyRequest :=
  if String.eqb f "revision" then option_map (fun x => {| r with rq_Revision := x |}) (decode_str (rq_Revision r) v)
  else option_map (fun x => {| r with rq_Points := x |}) (decode_slice sub_unjson v).
Definition apply_request_unjson (data : string) : option SubscriptionApplyRequest :=
  match parse data with
  | None => None
  | Some v => decode_struct false ["revision"; "points"] apply_request_set {| rq_Revision := ""; rq_Points := [] |} v
  end.

(** [json.Marshal] of a request; a nil slice of points is [null]. *)
Definition apply_request_bytes (r : SubscriptionApplyRequest) : string :=
  marshal (JObj [("revision", JStr (rq_Revision r));
                 ("points", match rq_Points r with [] => JNull | l => JArr (map spec_json l) end)]).

(** [handleSubscriptionApply], up to the bytes of the reply. *)
Definition handleSubscriptionApply {B} `{Broker B} (static : list SubscriptionConfig) (o1 o2 : point_order) (cm : option B)
    (current : topicIndex) (data : string) : option B * topicIndex * SubscriptionApplyReply :=
  match apply_request_unjson data with
  | None => (cm, current, refused BadRequest)
  | Some req => ApplySubscriptions static o1 o2 cm current req
  end.

Definition valid_sub (s : SubscriptionSpec) : bool :=
  forallb valid_utf8 [sp_Topic s; sp_CommandTopic s; sp_DeviceRef s; sp_Unit s; sp_PayloadTemplate s]
  && between 0 255 (sp_QoS s) && between 0 255 (sp_CommandQoS s).

Lemma decode_u8_itoa cur z : between 0 255 z = true -> decode_u8 cur (JNum (itoa z)) = Some z.
Proof.
  unfold between. intros Hz. bools. unfold decode_u8, itoa. destruct (Z.ltb_spec z 0); [lia|].
  destruct (dec_string_spec z ltac:(lia)) as (E & Ha & c & r & Es & _). rewrite E, Ha, Es. cbn [negb String.eqb andb].
  destruct (Z.leb_spec z 255); [done|lia].
Qed.

Lemma decode_omit_zero {R} names set (r : R) (upd : Z -> R) k z l : In k names ->
  set k (JNum (itoa z)) r = Some (upd z) -> upd 0 = r ->
  decode_members false names set r (omit_zero k z ++ l) = decode_members false names set (upd z) l.
Proof.
  intros Hk E E0. unfold omit_zero. destruct (Z.eqb_spec z 0) as [->|]; [by rewrite E0|]. by apply decode_member.
Qed.

Lemma sub_unjson_json s : valid_sub s = true -> sub_unjson (spec_json s) = Some s.
Proof.
  unfold valid_sub. intros Hv. apply andb_true_iff in Hv as [[_ Hq]%andb_true_iff Hc]. destruct s as [to qo wr ct cq dr un pt]. cbn in Hq, Hc.
  unfold sub_unjson, spec_json. cbn [decode_struct sp_Topic sp_QoS sp_Writable sp_CommandTopic sp_CommandQoS sp_DeviceRef sp_Unit sp_PayloadTemplate app].
  erewrite decode_member; [|cbn; tauto|reflexivity].
  erewrite decode_member; [|cbn; tauto|cbn -[decode_u8]; rewrite decode_u8_itoa by done; reflexivity].
  cbn [decode_str sp_Topic sp_QoS sp_Writable sp_CommandTopic sp_CommandQoS sp_DeviceRef sp_Unit sp_PayloadTemplate zero_sub].
  erewrite (decode_omit_false _ _ _ _ (fun x => Build_SubscriptionSpec to qo x "" 0 "" "" "")); [|cbn; tauto|reflexivity|reflexivity].
  erewrite (decode_omit_empty _ _ _ _ (fun x => Build_SubscriptionSpec to qo wr x 0 "" "" "")); [|cbn; tauto|reflexivity|reflexivity].
  erewrite (decode_omit_zero _ _ _ (fun x => Build_SubscriptionSpec to qo wr ct x "" "" ""));
    [|cbn; tauto|cbn -[decode_u8]; rewrite decode_u8_itoa by done; reflexivity|reflexivity].
  erewrite (decode_omit_empty _ _ _ _ (fun x => Build_SubscriptionSpec to qo wr ct cq x "" "")); [|cbn; tauto|reflexivity|reflexivity].
  erewrite (decode_omit_empty _ _ _ _ (fun x => Build_SubscriptionSpec to qo wr ct cq dr x "")); [|cbn; tauto|reflexivity|reflexivity].
  rewrite <- (app_nil_r (omit_empty _ _)).
  erewrite (decode_omit_empty _ _ _ _ (fun x => Build_SubscriptionSpec to qo wr ct cq dr un x)); [|cbn; tauto|reflexivity|reflexivity].
  reflexivity.
Qed.

Lemma valid_omit_zero k z : valid_utf8 k = true -> forallb valid_member (omit_zero k z) = true.
Proof.
  intros Hk. unfold omit_zero. destruct (z =? 0); [done|]. cbn [forallb]. unfold valid_member. cbn [fst snd valid].
  by rewrite Hk, itoa_valid.
Qed.
Lemma flat_omit_zero k z : flat_members (omit_zero k z).
Proof. unfold omit_zero. destruct (z =? 0); auto with gw. Qed.
#[local] Hint Resolve flat_omit_zero : gw.

Lemma spec_json_valid s : valid_sub s = true -> valid (spec_json s) = true.
Proof.
  unfold valid_sub, spec_json. cbn [forallb]. intros. bools. cbn [valid].
  change (fun kv : string * json => valid_utf8 (fst kv) && valid (snd kv)) with valid_member.
  rewrite !forallb_app, !valid_omit_empty, valid_omit_false, valid_omit_zero by (reflexivity || assumption).
  cbn [forallb]. rewrite valid_str_member by (reflexivity || assumption). unfold valid_member. cbn [fst snd valid]. by rewrite itoa_valid.
Qed.

Lemma spec_json_depth s : depth_of (spec_json s) <= 1.
Proof. apply depth_flat. auto 14 with gw. Qed.

Lemma specs_depth l : depth_of (JArr (map spec_json l)) <= 2.
Proof.
  cbn [depth_of]. assert (fold_right (fun x m => Z.max (depth_of x) m) 0 (map spec_json l) <= 1); [|lia].
  induction l as [|s l IH]; cbn [map fold_right]; [lia|]. pose proof (spec_json_depth s). lia.
Qed.

Lemma sub_list_json l : forallb valid_sub l = true -> decode_list sub_unjson (map spec_json l) = Some l.
Proof.
  induction l as [|s l IH]; [done|]. cbn [forallb map decode_list]. intros [Hs Hl]%andb_true_iff. by rewrite sub_unjson_json, IH.
Qed.

(** the control handler of a connector reads exactly the request the
    gateway's client marshalled, so that the points and the revision it
    converges to, reports and is compared by are those that were sent; and on
    bytes that are not a request it answers without touching the index or the
    session. *)
Theorem apply_request_roundtrip {B} `{Broker B} static o1 o2 (cm : option B) current (req : SubscriptionApplyRequest) :
  valid_utf8 (rq_Revision req) = true -> forallb valid_sub (rq_Points req) = true ->
  apply_request_unjson (apply_request_bytes req) = Some req /\
  handleSubscriptionApply static o1 o2 cm current (apply_request_bytes req) = ApplySubscriptions static o1 o2 cm current req /\
  forall data, apply_request_unjson data = None ->
    handleSubscriptionApply static o1 o2 cm current data = (cm, current, refused BadRequest).
Proof.
  intros Hr Hp. assert (apply_request_unjson (apply_request_bytes req) = Some req) as E.
  { destruct req as [rev pts]. cbn [rq_Revision rq_Points] in *. unfold apply_request_unjson, apply_request_bytes. cbn [rq_Revision rq_Points].
    set (j := match pts with [] => JNull | _ => _ end).
    assert (valid j = true /\ depth_of j <= 2 /\ decode_slice sub_unjson j = Some pts) as (Hv & Hd & Hj).
    { subst j. destruct pts as [|s l]; [split_and!; by cbn|]. split_and!; [|apply specs_depth|by apply sub_list_json].
      cbn [valid]. apply forallb_forall. intros v (x & <- & Hx)%in_map_iff. apply spec_json_valid. rewrite forallb_forall in Hp. by apply Hp. }
    rewrite parse_marshal.
    - cbn [decode_struct]. do 2 (erewrite decode_member; [|cbn; tauto|cbn -[decode_slice]; rewrite ?Hj; reflexivity]). done.
    - cbn [valid forallb fst snd]. rewrite Hr, Hv. done.
    - cbn [depth_of fold_right snd]. unfold max_nesting. lia. }
  split; [done|]. unfold handleSubscriptionApply. rewrite E. split; [done|]. by intros data ->.
Qed.

(** A connector with one point that is sent a second one. *)
Module MqttSessionExample.

Definition pts : list PointConfig := [read_point "a/x"].
Definition req : SubscriptionApplyRequest :=
  {| rq_Revision := "r1"; rq_Points := [MqttTopicsExample.spec "a/x"; MqttTopicsExample.spec "a/y"] |}.

Lemma apply_request_roundtrip_witness : apply_request_unjson (apply_request_bytes req) = Some req.
Proof.
  exact (proj1 (apply_request_roundtrip [] MqttTopicsExample.any_order MqttTopicsExample.any_order
    (@None MqttTopicsExample.sess) MqttTopicsExample.idx0 req eq_refl eq_refl)).
Defined.

(** The link comes up and the callback runs to its end. *)
Lemma comes_up s : reaches [] pts s -> link s = false -> up s = UpIdle ->
  reaches [] pts {| s with link := true; held := subscribe_all ∅ (brokerSubscriptions [] (topics s)); up := UpIdle; connected := true;
    ready := true; overlap := applying (apply s); half := false |}.
Proof.
  intros Hr Hl Hu.
  eapply ReachStep in Hr; [|apply (Reconnect [] s ∅); by auto]. eapply ReachStep in Hr; [|by apply UpReads].
  eapply ReachStep in Hr; [|eapply UpSubscribes; [done|by left]]. eapply ReachStep in Hr; [|by apply UpDone]. exact Hr.
Qed.

Definition next : topicIndex := Eval vm_compute in
  match apply_plan [] MqttTopicsExample.any_order MqttTopicsExample.any_order (newTopicIndex pts [] "") req with
  | Some (n, _, _) => n | None => newTopicIndex pts [] "" end.

Lemma subscriptions_live_witness : exists s, reaches [] pts s /\ needs [] (topics s) "a/x" <> None /\ is_Some (held s !! "a/x").
Proof.
  pose proof (comes_up _ (ReachStart [] pts) eq_refl eq_refl) as Hr. eexists. split; [exact Hr|]. split; [vm_compute; discriminate|].
  eapply (subscriptions_live [] pts _ Hr eq_refl eq_refl eq_refl eq_refl "a/x"). vm_compute. reflexivity.
Defined.

(** A reconnect between the SUBSCRIBE and the commit of an apply: the callback
    subscribes the old index on the new session, then the apply commits and is
    reported as applied.  The connector is connected and ready, its status is the
    new revision, and a point of it has no subscription. *)
Theorem reconnect_during_apply_loses : exists s, reaches [] pts s /\
  link s = true /\ up s = UpIdle /\ apply s = ApIdle /\ connected s = true /\ ready s = true /\
  revision (topics s) = "r1" /\ is_Some (points (topics s) !! "a/y") /\
  needs [] (topics s) "a/y" <> None /\ held s !! "a/y" = None.
Proof.
  pose proof (comes_up _ (ReachStart [] pts) eq_refl eq_refl) as Hr.
  eapply ReachStep in Hr; [|eapply (ApplySubscribes [] _ MqttTopicsExample.any_order MqttTopicsExample.any_order req next);
    [reflexivity|intros ?; reflexivity|intros ?; reflexivity|vm_compute; reflexivity|by left]].
  eapply ReachStep in Hr; [|apply Drop]. apply comes_up in Hr; [|done..].
  eapply ReachStep in Hr; [|eapply ApplyUnsubscribes; [reflexivity|by left]].
  eapply ReachStep in Hr; [|eapply ApplyCommits; reflexivity].
  eexists. split; [exact Hr|]. cbn [link up apply connected ready topics held].
  repeat (split; [vm_compute; first [reflexivity|discriminate|by eexists]|]). vm_compute. reflexivity.
Qed.
End MqttSessionExample.
