(* ===== verification/MqttIngest.v ===== *)
(** * The MQTT connector's data path

    [src/connector/mqtt/payload.go] and the receive, publish and write paths of
    [connector.go]: decoding broker payloads, limiting topics matched only by a
    wildcard, handing events to the JetStream publisher, acknowledging to the
    broker, republishing stale values, and writing commands.  Number and time
    texts, the broker and JetStream are inputs.  The theorems show what a
    payload decodes to, that a message is acknowledged only when dropped or
    stored, and that nothing queued is lost on shutdown while publishing works. *)

From Stdlib Require Import ZArith Lia Bool Ascii String List SpecFloat Sorted.
From stdpp Require Import base list strings gmap.
From S2P Require Import Prelude Json GoText Float Wire Sdk PointList Pump Normalizer MqttTopics.
#[local] Open Scope string_scope.
#[local] Open Scope list_scope.
#[local] Open Scope Z_scope.

(** ** Payloads *)

(** [strconv.ParseFloat], which reads more spellings than JSON; [time.Parse] and
    [Format] with RFC 3339 on UTC instants in nanoseconds. *)
Class GoStrconv := {
  parse_float : string -> option float64;
  parse_time : string -> option Z;
  format_time : Z -> string
}.

(** On JSON numbers it is correctly rounded parsing; the empty string is no
    number. *)
Class GoStrconvLaws `{GoStrconv} : Prop := {
  parse_float_json : forall lit, valid_num lit = true -> parse_float lit = parse_f64 lit;
  parse_float_empty : parse_float "" = None
}.

Inductive payloadOutcome := payloadTelemetry | payloadIgnored | payloadInvalid.

Record decodedPayload := { dp_Value : Value; dp_Timestamp : Z }.

(** A raw message is represented by its value. *)
Record wirePayload := {
  wp_Datetime : string; wp_SnapshotAt : string;
  wp_Value : option json; wp_ValueUpper : option json; wp_V : option json; wp_Status : option json
}.

Definition wire_names : list string := ["datetime"; "snapshot_at"; "value"; "Value"; "v"; "status"].

Definition wire_set (f : string) (v : json) (p : wirePayload) : option wirePayload :=
  if String.eqb f "datetime" then option_map (fun s => {| p with wp_Datetime := s |}) (decode_str (wp_Datetime p) v)
  else if String.eqb f "snapshot_at" then option_map (fun s => {| p with wp_SnapshotAt := s |}) (decode_str (wp_SnapshotAt p) v)
  else if String.eqb f "value" then Some {| p with wp_Value := Some v |}
  else if String.eqb f "Value" then Some {| p with wp_ValueUpper := Some v |}
  else if String.eqb f "v" then Some {| p with wp_V := Some v |}
  else if String.eqb f "status" then Some {| p with wp_Status := Some v |}
  else Some p.

Definition zero_wire : wirePayload :=
  {| wp_Datetime := ""; wp_SnapshotAt := ""; wp_Value := None; wp_ValueUpper := None; wp_V := None; wp_Status := None |}.

Definition wire_unjson (data : string) : option wirePayload :=
  match parse data with
  | Some v => decode_struct false wire_names wire_set zero_wire v
  | None => None
  end.

Section Payload.
Context `{GoStrconv}.

Definition numeric_text (s : string) : option float64 :=
  match parse_float s with Some f => if f64_finite f then Some f else None | None => None end.

(** A value decoded into a [json.Number], then parsed: a number, or a string
    that spells one. *)
Definition number_of (v : json) : option float64 :=
  match v with
  | JNum lit => numeric_text lit
  | JStr s => if valid_num s then numeric_text s else None
  | _ => None
  end.

(** The decoder reads the first value of [raw]; [json.Unmarshal] all of it. *)
Definition numericValue (raw : string) : option float64 :=
  let raw := trim_space raw in
  match (match parse_prefix raw with Some (v, _) => number_of v | None => None end) with
  | Some f => Some f
  | None =>
    match parse raw with
    | Some (JStr s) => numeric_text (trim_space s)
    | Some JNull => numeric_text (trim_space "")
    | _ => None
    end
  end.

Definition scalarValue (raw : string) : option Value :=
  let trimmed := trim_space raw in
  if String.eqb trimmed "null" then None
  else if String.eqb trimmed "true" then Some (BoolValue true)
  else if String.eqb trimmed "false" then Some (BoolValue false)
  else
    match numericValue trimmed with
    | Some x => Some (NumberValue x)
    | None =>
      match parse trimmed with
      | Some (JStr text) => Some (StringValue text)
      | Some JNull => Some (StringValue "")
      | _ => None
      end
    end.

(** The first of the candidate timestamps that parses. *)
Fixpoint first_time (candidates : list string) (received : Z) : Z :=
  match candidates with
  | [] => received
  | c :: cs =>
    if String.eqb c "" then first_time cs received
    else match parse_time c with Some t => t | None => first_time cs received end
  end.

Definition decodePayload (data : string) (receivedAt : Z) : option decodedPayload * payloadOutcome :=
  let plain := match trim_space data with String c _ => negb (Ascii.eqb c "{") | EmptyString => false end in
  if plain then
    match scalarValue (trim_space data) with
    | Some v => (Some {| dp_Value := v; dp_Timestamp := receivedAt |}, payloadTelemetry)
    | None => (None, payloadInvalid)
    end
  else
    match wire_unjson data with
    | None => (None, payloadInvalid)
    | Some p =>
      let raw := match wp_Value p with
                 | Some v => Some v
                 | None => match wp_ValueUpper p with Some v => Some v | None => wp_V p end
                 end in
      match raw with
      | None => (None, match wp_Status p with Some _ => payloadIgnored | None => payloadInvalid end)
      | Some v =>
        match scalarValue (marshal v) with
        | None => (None, payloadInvalid)
        | Some x => (Some {| dp_Value := x; dp_Timestamp := first_time [wp_Datetime p; wp_SnapshotAt p] receivedAt |},
                     payloadTelemetry)
        end
      end
    end.
End Payload.

(** ** The wildcard limiter *)

Definition maxWildcardTracked : Z := 65536.
Definition defaultWildcardMinInterval : Z := 10 * 1000000000.

Definition wildcardMinInterval (setting : Z) : Z :=
  if setting =? 0 then defaultWildcardMinInterval else if setting <? 0 then 0 else setting.

Definition allowWildcard (setting : Z) (wildLast : gmap string Z) (topic : string) (now : Z) : gmap string Z * bool :=
  let minGap := wildcardMinInterval setting in
  if minGap =? 0 then (wildLast, true)
  else if match wildLast !! topic with Some last => now - last <? minGap | None => false end then (wildLast, false)
  else
    let w := if maxWildcardTracked <=? Z.of_nat (size wildLast) then
               let w := filter (fun kv : string * Z => now - snd kv < minGap) wildLast in
               if maxWildcardTracked <=? Z.of_nat (size w) then ∅ else w
             else wildLast in
    (<[topic := now]> w, true).

(** ** Receiving and publishing *)

(** [pp_msg] stands for the packet whose acknowledgement is deferred. *)
Record pendingPublish := {
  pp_data : string; pp_topic : string; pp_value : option float64; pp_timestamp : Z; pp_msg : Z
}.

Definition publishQueueSize : Z := 256.

Record mqtt_config := {
  mc_ConnectorID : string; mc_Ignore : gset string; mc_WildcardMinInterval : Z; mc_MaxPayloadBytes : Z
}.

Definition maxPayloadBytes (cfg : mqtt_config) : Z :=
  if mc_MaxPayloadBytes cfg =? 0 then 1024 else mc_MaxPayloadBytes cfg.

Record packet := { pk_id : Z; pk_topic : string; pk_payload : string }.

(** A packet received, with what the callback finds: the time, the topics in force
    and the limiter's record. *)
Record arrival := { ar_packet : packet; ar_now : Z; ar_topics : topicIndex; ar_wild : gmap string Z }.

(** The connector's ingest state.  [ig_blocked] are the frames of callbacks that
    wait for room in the queue, [ig_hand] is the frame the publisher took off it,
    [ig_cancelled] that the publisher's context is done, [ig_running] that it has
    not returned; [ig_js] is what JetStream holds and [ig_acked] the packets
    acknowledged to the broker.  The last four lists are a history of what became
    of the packets received. *)
Record ingest := {
  ig_topics : topicIndex;
  ig_received : Z; ig_published : Z; ig_errors : Z; ig_throttled : Z;
  ig_wildLast : gmap string Z;
  ig_failingSince : Z;
  ig_lkv : gmap string (float64 * Z);
  ig_queue : list pendingPublish;
  ig_blocked : list pendingPublish;
  ig_hand : option pendingPublish;
  ig_cancelled : bool; ig_running : bool;
  ig_js : list string; ig_acked : list Z;
  ig_seen : list arrival; ig_dropped : list arrival;
  ig_stored : list pendingPublish; ig_abandoned : list pendingPublish
}.

(** One attempt to publish: it succeeds; or it fails at a time, though the
    event may have been stored, with the context dead right after or by the end
    of the wait. *)
Inductive attempt := PubOk | PubFail (stored : bool) (now : Z) (dead waited_dead : bool).
Inductive pub_result := Landed | Cancelled | Retrying.

#[export] Instance pub_result_eq_dec : EqDecision pub_result.
Proof. solve_decision. Defined.

Section Ingest.
Context `{GoStrconv} (cfg : mqtt_config).

Definition store (c : ingest) (data : string) : ingest := {| c with ig_js := ig_js c ++ [data] |}.

(** [publishPending], by its attempts; when they run out it is still retrying. *)
Fixpoint publishPending (c : ingest) (p : pendingPublish) (l : list attempt) : ingest * pub_result :=
  match l with
  | [] => (c, Retrying)
  | PubOk :: _ =>
    let c := store c (pp_data p) in
    ({| c with ig_failingSince := 0; ig_published := i64 (ig_published c + 1);
               ig_lkv := match pp_value p with
                         | Some x => <[pp_topic p := (x, pp_timestamp p)]> (ig_lkv c)
                         | None => ig_lkv c
                         end;
               ig_acked := ig_acked c ++ [pp_msg p];
               ig_stored := ig_stored c ++ [p] |}, Landed)
  | PubFail stored now dead waited_dead :: l =>
    let c := if stored then store c (pp_data p) else c in
    if dead then (c, Cancelled)
    else
      let c := {| c with ig_errors := i64 (ig_errors c + 1);
                         ig_failingSince := if ig_failingSince c =? 0 then now else ig_failingSince c |} in
      if waited_dead then (c, Cancelled) else publishPending c p l
  end.

Definition abandon (c : ingest) (l : list pendingPublish) : ingest :=
  {| c with ig_abandoned := ig_abandoned c ++ l |}.

(** [drainQueue]: the frame in hand, then the queue, each with its attempts on
    the bounded context; the first that does not land is lost and ends it, the
    rest staying queued. *)
Fixpoint drain_frames (c : ingest) (frames : list pendingPublish) (ls : list (list attempt)) : ingest :=
  match frames with
  | [] => c
  | p :: frames =>
    match publishPending c p (hd [] ls) with
    | (c, Landed) => drain_frames c frames (tl ls)
    | (c, _) => abandon {| c with ig_queue := frames |} [p]
    end
  end.

Definition in_hand (c : ingest) : list pendingPublish := match ig_hand c with Some p => [p] | None => [] end.

Definition drainQueue (c : ingest) (ls : list (list attempt)) : ingest :=
  drain_frames {| c with ig_queue := []; ig_hand := None |} (in_hand c ++ ig_queue c) ls.

(** [publishDirect]. *)
Definition publishDirect (c : ingest) (p : pendingPublish) (l : list attempt) : ingest :=
  match publishPending c p l with
  | (c, Landed) => c
  | (c, _) => abandon c [p]
  end.

(** A packet that is not published is acknowledged at once. *)
Definition drop_packet (c : ingest) (pk : packet) : ingest := {| c with ig_acked := ig_acked c ++ [pk_id pk] |}.

(** The event of a packet that resolved to a point. *)
Definition packet_event (pk : packet) (p : PointConfig) (d : decodedPayload) : Event :=
  mkEvent "mqtt" (mc_ConnectorID cfg) (pk_topic pk) (pc_DeviceRef p) (dp_Value d) (pc_Unit p) "Good"
    (format_time (dp_Timestamp d)) ∅.

Definition value_number (v : Value) : option float64 := match v with NumberValue x => Some x | _ => None end.

(** The receive callback up to the hand-off: the packet is dropped
    (acknowledged at once), or is to be published. *)
Definition receive (c : ingest) (pk : packet) (now : Z) : ingest * option pendingPublish :=
  let c := {| c with ig_received := i64 (ig_received c + 1) |} in
  if decide (pk_topic pk ∈ mc_Ignore cfg) then (drop_packet c pk, None)
  else
    match resolve (ig_topics c) (pk_topic pk) with
    | None => (drop_packet c pk, None)
    | Some (p, explicit) =>
      let '(w, allowed) := if explicit then (ig_wildLast c, true)
                           else allowWildcard (mc_WildcardMinInterval cfg) (ig_wildLast c) (pk_topic pk) now in
      let c := {| c with ig_wildLast := w |} in
      if negb allowed then
        (drop_packet {| c with ig_throttled := i64 (ig_throttled c + 1) |} pk, None)
      else if maxPayloadBytes cfg <? Z.of_nat (String.length (pk_payload pk)) then (drop_packet c pk, None)
      else
        match decodePayload (pk_payload pk) now with
        | (Some d, payloadTelemetry) =>
          match event_json (packet_event pk p d) with
          | None => (drop_packet c pk, None)
          | Some j =>
            (c, Some {| pp_data := marshal j; pp_topic := pk_topic pk; pp_value := value_number (dp_Value d);
                        pp_timestamp := dp_Timestamp d; pp_msg := pk_id pk |})
          end
        | _ => (drop_packet c pk, None)
        end
    end.

(** What happens: a packet arrives, and when it is to be published its callback
    waits to hand the frame off, or publishes it itself if the publisher's context
    is done already; the frame of a waiting callback finds room in the queue, or its
    callback sees the context done; the context is cancelled; the publisher takes
    the oldest frame; it publishes the frame it took, flushing when the context
    dies meanwhile; it sees the context done and flushes; the last sweep of the
    queue; a live apply replaces the topics. *)
Inductive ingest_event :=
| Arrives (pk : packet) (now : Z) (l : list attempt)
| Enqueues (i : nat)
| Diverts (i : nat) (l : list attempt)
| Cancels
| Takes
| Publishes (l : list attempt) (flush : list (list attempt))
| Flushes (flush : list (list attempt))
| Sweeps (flush : list (list attempt))
| Applies (idx : topicIndex).

Definition arrival_at (c : ingest) (pk : packet) (now : Z) : arrival :=
  {| ar_packet := pk; ar_now := now; ar_topics := ig_topics c; ar_wild := ig_wildLast c |}.
Definition note_seen (c : ingest) (a : arrival) : ingest := {| c with ig_seen := ig_seen c ++ [a] |}.

(** [None] when the event is not possible: a full queue keeps the callback
    waiting, and the flushes belong to a context that is done. *)
Definition ingest_step (c : ingest) (ev : ingest_event) : option ingest :=
  match ev with
  | Arrives pk now l =>
    let a := arrival_at c pk now in
    match receive c pk now with
    | (c, None) => let c := note_seen c a in Some {| c with ig_dropped := ig_dropped c ++ [a] |}
    | (c, Some p) =>
      let c := note_seen c a in
      if ig_cancelled c then Some (publishDirect c p l) else Some {| c with ig_blocked := ig_blocked c ++ [p] |}
    end
  | Enqueues i =>
    match ig_blocked c !! i with
    | Some p =>
      if Z.of_nat (length (ig_queue c)) <? publishQueueSize
      then Some {| c with ig_queue := ig_queue c ++ [p]; ig_blocked := delete i (ig_blocked c) |} else None
    | None => None
    end
  | Diverts i l =>
    match ig_blocked c !! i with
    | Some p => if ig_cancelled c then Some (publishDirect {| c with ig_blocked := delete i (ig_blocked c) |} p l) else None
    | None => None
    end
  | Cancels => Some {| c with ig_cancelled := true |}
  | Takes =>
    match ig_running c, ig_hand c, ig_queue c with
    | true, None, p :: rest => Some {| c with ig_hand := Some p; ig_queue := rest |}
    | _, _, _ => None
    end
  | Publishes l flush =>
    match ig_running c, ig_hand c with
    | true, Some p =>
      match publishPending c p l with
      | (c, Landed) => Some {| c with ig_hand := None |}
      | (c, Retrying) => Some c
      | (c, Cancelled) =>
        if ig_cancelled c then Some (drainQueue {| c with ig_running := false |} flush) else None
      end
    | _, _ => None
    end
  | Flushes flush =>
    if ig_running c && ig_cancelled c then Some (drainQueue {| c with ig_running := false |} flush) else None
  | Sweeps flush => if ig_running c then None else Some (drainQueue c flush)
  | Applies idx => Some {| c with ig_topics := idx |}
  end.

Fixpoint ingest_run (c : ingest) (evs : list ingest_event) : option ingest :=
  match evs with
  | [] => Some c
  | ev :: evs => match ingest_step c ev with Some c => ingest_run c evs | None => None end
  end.

Definition ingest_start (idx : topicIndex) : ingest :=
  {| ig_topics := idx; ig_received := 0; ig_published := 0; ig_errors := 0; ig_throttled := 0; ig_wildLast := ∅;
     ig_failingSince := 0; ig_lkv := ∅; ig_queue := []; ig_blocked := []; ig_hand := None; ig_cancelled := false;
     ig_running := true; ig_js := []; ig_acked := []; ig_seen := []; ig_dropped := []; ig_stored := []; ig_abandoned := [] |}.
End Ingest.

(** ** The freshness floor *)

Notation lkv_map := (gmap string (float64 * Z)).

Section Freshness.
Context `{GoStrconv} (cfg : mqtt_config) (interval : Z).

(** The topics due, in map order. *)
Definition dueForRepublish (lkv : lkv_map) (now : Z) : list string :=
  if interval <=? 0 then []
  else (filter (fun kv : string * (float64 * Z) => interval <= now - snd (snd kv)) (map_to_list lkv)).*1.

(** The event of a republished value. *)
Definition fresh_event (topic : string) (p : PointConfig) (x : float64) (now : Z) : Event :=
  mkEvent "mqtt" (mc_ConnectorID cfg) topic (pc_DeviceRef p) (NumberValue x) (pc_Unit p) "Good" (format_time now) ∅.

(** One due topic: pruned when no longer routed, otherwise published with the
    time moved on. *)
Definition freshen (idx : topicIndex) (now : Z) (s : lkv_map * list Event) (topic : string) : lkv_map * list Event :=
  let '(lkv, out) := s in
  match resolve idx topic with
  | None => (delete topic lkv, out)
  | Some (p, _) =>
    match lkv !! topic with
    | None => (lkv, out)
    | Some (x, last) =>
      if now - last <? interval then (lkv, out)
      else (<[topic := (x, now)]> lkv, out ++ [fresh_event topic p x now])
    end
  end.

(** One tick: the events given to JetStream. *)
Definition freshness_tick (idx : topicIndex) (lkv : lkv_map) (now : Z) : lkv_map * list Event :=
  fold_left (freshen idx now) (dueForRepublish lkv now) (lkv, []).
End Freshness.

(** ** Writing commands *)

(** [strconv.FormatFloat(x, 'g', -1, 64)] and [fmt.Sprintf] with one argument. *)
Class GoFormat := { format_g : float64 -> string; sprintf1 : string -> float64 -> string }.

Section Write.
Context `{GoFormat}.

Definition formatPayload (tmpl : string) (value : float64) : string :=
  let plain := format_g value in
  if String.eqb tmpl "" then plain
  else let r := sprintf1 tmpl value in if contains_str r "%!" then plain else r.

Record broker_publish := { bp_Topic : string; bp_QoS : Z; bp_Payload : string }.

(** [handleWrite]: [err] is the broker's answer to the publish, when there is
    one.  The new table, the reply, and what was published; [None] is a panic
    of the table. *)
Definition handleWrite (connected : bool) (idx : topicIndex) (d : CommandDedup) (data : string) (err : option string)
  : option (CommandDedup * WriteReply * option broker_publish) :=
  let reply s r := {| rp_Success := s; rp_Response := r |} in
  match request_unjson data with
  | None => Some (d, reply false "bad_request", None)
  | Some req =>
    if wr_Release req then Some (d, reply false "bad_request", None)
    else if negb connected then Some (d, reply false "not_connected", None)
    else
      match TryReserve d (wr_ControlID req) with
      | None => None
      | Some (d, InFlight) => Some (d, reply false "in_flight", None)
      | Some (d, Cached r) => Some (d, r, None)
      | Some (d, Proceed) =>
        let refuse := let r := reply false "not_writable" in Some (Complete d (wr_ControlID req) r, r, None) in
        match points idx !! wr_LocalID req with
        | None => refuse
        | Some p =>
          if negb (pc_Writable p) || String.eqb (CommandTopic p) "" then refuse
          else
            let r := match err with Some e => reply false ("device_error: " +:+ e) | None => reply true "ok" end in
            Some (Complete d (wr_ControlID req) r, r,
                  Some {| bp_Topic := CommandTopic p; bp_QoS := commandQoS p;
                          bp_Payload := formatPayload (PayloadTemplate p) (wr_Value req) |})
        end
      end
  end.
End Write.

(** ** What a payload decodes to *)

Section PayloadFacts.
Context `{GoStrconv}.

Lemma numericValue_finite raw x : numericValue raw = Some x -> f64_finite x = true.
Proof.
  assert (forall s y, numeric_text s = Some y -> f64_finite y = true) as Hn.
  { intros s y. unfold numeric_text. destruct (parse_float s) as [f|]; [|discriminate].
    destruct (f64_finite f) eqn:E; [|discriminate]. intros [= <-]. exact E. }
  assert (forall v y, number_of v = Some y -> f64_finite y = true) as Hv.
  { intros [|b|lit|s|l|l] y; cbn; try discriminate; eauto. destruct (valid_num s); [eauto|discriminate]. }
  unfold numericValue. destruct (parse_prefix (trim_space raw)) as [[v rest]|].
  - destruct (number_of v) eqn:E; [intros [= <-]; eauto|].
    destruct (parse _) as [[]|]; try discriminate; eauto.
  - destruct (parse _) as [[]|]; try discriminate; eauto.
Qed.

Lemma scalarValue_ok raw v : scalarValue raw = Some v -> value_finite v /\ v <> ValueInvalid.
Proof.
  unfold scalarValue. repeat (case_if; [first [discriminate | intros [= <-]; split; [exact I|discriminate]]|]).
  destruct (numericValue _) as [x|] eqn:E2; [intros [= <-]; split; [apply (numericValue_finite _ _ E2)|discriminate]|].
  destruct (parse _) as [[]|]; try discriminate; intros [= <-]; split; try exact I; discriminate.
Qed.

(** What a broker payload decodes to is always publishable: a decoded
    value is present and, if a number, finite; its time is the receipt unless
    the envelope gives one that parses, the datetime first.  An envelope
    without a value is ignored when it carries a status and invalid otherwise. *)
Theorem decodePayload_sound (data : string) (receivedAt : Z) :
  match decodePayload data receivedAt with
  | (Some d, payloadTelemetry) =>
    value_finite (dp_Value d) /\ dp_Value d <> ValueInvalid /\
    (dp_Timestamp d = receivedAt \/
     exists p, wire_unjson data = Some p /\
       (parse_time (wp_Datetime p) = Some (dp_Timestamp d) \/ parse_time (wp_SnapshotAt p) = Some (dp_Timestamp d)))
  | (None, payloadIgnored) => exists p s, wire_unjson data = Some p /\ wp_Status p = Some s /\
      wp_Value p = None /\ wp_ValueUpper p = None /\ wp_V p = None
  | (None, payloadInvalid) => True
  | _ => False
  end.
Proof.
  unfold decodePayload. case_if.
  - destruct (scalarValue _) as [v|] eqn:E1; [|exact I]. apply scalarValue_ok in E1 as [Hf Hv]. auto.
  - destruct (wire_unjson data) as [p|] eqn:Ew; [|exact I].
    set (raw := match wp_Value p with Some v => Some v | None => _ end).
    assert (raw = None -> wp_Value p = None /\ wp_ValueUpper p = None /\ wp_V p = None) as Hraw
      by (subst raw; destruct (wp_Value p), (wp_ValueUpper p); auto; discriminate).
    destruct raw as [v|].
    + destruct (scalarValue _) as [x|] eqn:Ex; [|exact I]. apply scalarValue_ok in Ex as [Hf Hv]. cbn [dp_Value dp_Timestamp].
      split; [exact Hf|]. split; [exact Hv|]. cbn [first_time].
      destruct (String.eqb (wp_Datetime p) ""), (parse_time (wp_Datetime p)) eqn:Ed,
        (String.eqb (wp_SnapshotAt p) ""), (parse_time (wp_SnapshotAt p)) eqn:Es; eauto 10.
    + destruct (wp_Status p) as [s|] eqn:Es; [|exact I]. exists p, s. tauto.
Qed.
End PayloadFacts.

(** ** Every packet is accounted for *)

Section IngestFacts.
Context `{GoStrconv} (cfg : mqtt_config).

(** The event a packet stands for at point [pc]: its concrete topic, the point's
    device and unit, the value and the time of the payload. *)
Definition event_for (a : arrival) (pc : PointConfig) (d : decodedPayload) : Event :=
  mkEvent "mqtt" (mc_ConnectorID cfg) (pk_topic (ar_packet a)) (pc_DeviceRef pc) (dp_Value d) (pc_Unit pc) "Good"
    (format_time (dp_Timestamp d)) ∅.

(** A topic that matches a wildcard only, and came too soon after the last. *)
Definition limited_now (a : arrival) : bool :=
  negb (snd (allowWildcard (mc_WildcardMinInterval cfg) (ar_wild a) (pk_topic (ar_packet a)) (ar_now a))).

(** The frame carries exactly the event of the packet, at the point its topic
    resolved to when it came. *)
Inductive carries (a : arrival) (p : pendingPublish) : Prop :=
| Carries pc explicit d j :
    pk_topic (ar_packet a) ∉ mc_Ignore cfg ->
    resolve (ar_topics a) (pk_topic (ar_packet a)) = Some (pc, explicit) ->
    (explicit = false -> limited_now a = false) ->
    Z.of_nat (String.length (pk_payload (ar_packet a))) <= maxPayloadBytes cfg ->
    decodePayload (pk_payload (ar_packet a)) (ar_now a) = (Some d, payloadTelemetry) ->
    event_json (event_for a pc d) = Some j ->
    p = {| pp_data := marshal j; pp_topic := pk_topic (ar_packet a); pp_value := value_number (dp_Value d);
           pp_timestamp := dp_Timestamp d; pp_msg := pk_id (ar_packet a) |} ->
    carries a p.

(** The reasons not to publish a packet. *)
Inductive unusable (a : arrival) : Prop :=
| Ignored : pk_topic (ar_packet a) ∈ mc_Ignore cfg -> unusable a
| Unrouted : resolve (ar_topics a) (pk_topic (ar_packet a)) = None -> unusable a
| Limited pc : resolve (ar_topics a) (pk_topic (ar_packet a)) = Some (pc, false) -> limited_now a = true -> unusable a
| Oversized : maxPayloadBytes cfg < Z.of_nat (String.length (pk_payload (ar_packet a))) -> unusable a
| NoTelemetry : (forall d, decodePayload (pk_payload (ar_packet a)) (ar_now a) <> (Some d, payloadTelemetry)) -> unusable a
| Unwritable pc explicit d : resolve (ar_topics a) (pk_topic (ar_packet a)) = Some (pc, explicit) ->
    decodePayload (pk_payload (ar_packet a)) (ar_now a) = (Some d, payloadTelemetry) ->
    event_json (event_for a pc d) = None -> unusable a.

Definition ar_id (a : arrival) : Z := pk_id (ar_packet a).

(** What became of the packets received, in terms of the packets dropped and
    the frames stored, waiting and abandoned. *)
Record fate := { f_seen : list arrival; f_dropped : list arrival; f_stored : list pendingPublish;
                 f_waiting : list pendingPublish; f_lost : list pendingPublish; f_js : list string; f_acked : list Z }.

Definition fate_ok (f : fate) : Prop :=
  map ar_id (f_dropped f) ++ map pp_msg (f_stored f ++ f_waiting f ++ f_lost f) ≡ₚ map ar_id (f_seen f) /\
  Forall (fun p => exists a, a ∈ f_seen f /\ carries a p) (f_stored f ++ f_waiting f ++ f_lost f) /\
  Forall (fun a => a ∈ f_seen f /\ unusable a) (f_dropped f) /\
  Forall (fun p => pp_data p ∈ f_js f) (f_stored f) /\
  f_acked f ≡ₚ map ar_id (f_dropped f) ++ map pp_msg (f_stored f).

Definition waiting_in (c : ingest) : list pendingPublish := in_hand c ++ ig_queue c ++ ig_blocked c.
Definition fate_with (c : ingest) (waiting : list pendingPublish) : fate :=
  {| f_seen := ig_seen c; f_dropped := ig_dropped c; f_stored := ig_stored c; f_waiting := waiting;
     f_lost := ig_abandoned c; f_js := ig_js c; f_acked := ig_acked c |}.
Definition fate_of (c : ingest) : fate := fate_with c (waiting_in c).

Definition ingest_ok (c : ingest) : Prop :=
  fate_ok (fate_of c) /\ (ig_cancelled c = false -> ig_running c = true /\ ig_abandoned c = []) /\
  Z.of_nat (length (ig_queue c)) <= publishQueueSize.

(** A publish moves at most its own frame, to the stored ones. *)
Lemma publishPending_spec l : forall c p c' r, publishPending c p l = (c', r) ->
  (ig_seen c' = ig_seen c /\ ig_dropped c' = ig_dropped c) /\ (ig_queue c' = ig_queue c /\ ig_blocked c' = ig_blocked c) /\
  ig_abandoned c' = ig_abandoned c /\
  (ig_hand c' = ig_hand c /\ ig_cancelled c' = ig_cancelled c /\ ig_running c' = ig_running c /\ ig_topics c' = ig_topics c) /\
  (exists new, ig_js c' = ig_js c ++ new) /\
  match r with
  | Landed => ig_stored c' = ig_stored c ++ [p] /\ pp_data p ∈ ig_js c' /\ ig_acked c' = ig_acked c ++ [pp_msg p]
  | _ => ig_stored c' = ig_stored c /\ ig_acked c' = ig_acked c
  end.
Proof.
  induction l as [|[|st now dead wd] l IH]; intros c p c' r E; cbn [publishPending] in E.
  - injection E as <- <-. repeat split. exists []. rewrite app_nil_r. reflexivity.
  - injection E as <- <-. cbn. repeat split; eauto. apply elem_of_app. right. left.
  - assert (exists new, ig_js (if st then store c (pp_data p) else c) = ig_js c ++ new) as [new En]
      by (destruct st; cbn; [eauto|exists []; rewrite app_nil_r; reflexivity]).
    set (c1 := if st then store c (pp_data p) else c) in *.
    assert ((ig_seen c1 = ig_seen c /\ ig_dropped c1 = ig_dropped c) /\ (ig_queue c1 = ig_queue c /\ ig_blocked c1 = ig_blocked c) /\
      ig_abandoned c1 = ig_abandoned c /\
      (ig_hand c1 = ig_hand c /\ ig_cancelled c1 = ig_cancelled c /\ ig_running c1 = ig_running c /\ ig_topics c1 = ig_topics c) /\
      ig_stored c1 = ig_stored c /\ ig_acked c1 = ig_acked c) as Hc1 by (subst c1; destruct st; auto 10).
    clearbody c1. destruct Hc1 as (E1 & E2 & E3 & E4 & E5 & E6).
    destruct dead; [injection E as <- <-; eauto 10|]. destruct wd; [injection E as <- <-; cbn; eauto 10|].
    apply IH in E. cbn in E. destruct E as ([-> ->] & [-> ->] & -> & (-> & -> & -> & ->) & (new2 & ->) & Hr).
    rewrite En, <- app_assoc, E5, E6 in *. destruct E1, E2, E4 as (? & ? & ? & ?). repeat split; eauto.
Qed.

(** Publishing the first waiting frame. *)
Lemma fate_land seen dropped stored p rest lost js new acked : fate_ok (Build_fate seen dropped stored (p :: rest) lost js acked) ->
  pp_data p ∈ js ++ new ->
  fate_ok (Build_fate seen dropped (stored ++ [p]) rest lost (js ++ new) (acked ++ [pp_msg p])).
Proof.
  unfold fate_ok; cbn. intros (Hp & Hc & Hu & Hj & Ha) Hd. rewrite <- (app_assoc stored). cbn.
  split; [exact Hp|]. split; [exact Hc|]. split; [exact Hu|]. split.
  - apply Forall_app. split; [|repeat constructor; exact Hd].
    eapply List.Forall_impl; [|exact Hj]. intros q Hq. apply elem_of_app. auto.
  - rewrite Ha, map_app, app_assoc. reflexivity.
Qed.

Lemma fate_js seen dropped stored waiting lost js new acked : fate_ok (Build_fate seen dropped stored waiting lost js acked) ->
  fate_ok (Build_fate seen dropped stored waiting lost (js ++ new) acked).
Proof.
  unfold fate_ok; cbn. intros (Hp & Hc & Hu & Hj & Ha). repeat split; auto.
  eapply List.Forall_impl; [|exact Hj]. intros q Hq. apply elem_of_app. auto.
Qed.

Lemma fate_perm seen dropped stored waiting waiting' lost js acked : waiting ≡ₚ waiting' ->
  fate_ok (Build_fate seen dropped stored waiting lost js acked) -> fate_ok (Build_fate seen dropped stored waiting' lost js acked).
Proof. unfold fate_ok; cbn. intros Hw (Hp & Hc & Hr). rewrite <- Hw. auto. Qed.

(** Giving one frame up. *)
Lemma fate_abandon_one seen dropped stored p rest lost js acked : fate_ok (Build_fate seen dropped stored (p :: rest) lost js acked) ->
  fate_ok (Build_fate seen dropped stored rest (lost ++ [p]) js acked).
Proof.
  unfold fate_ok; cbn. intros (Hp & Hc & Hr).
  assert (stored ++ rest ++ lost ++ [p] ≡ₚ stored ++ p :: rest ++ lost) as Hperm by solve_Permutation.
  rewrite Hperm. auto.
Qed.

(** Receiving: the packet is dropped and acknowledged, or becomes one frame that
    carries it. *)
Lemma receive_spec c pk now c' o : receive cfg c pk now = (c', o) ->
  (ig_seen c' = ig_seen c /\ ig_dropped c' = ig_dropped c) /\ (ig_queue c' = ig_queue c /\ ig_blocked c' = ig_blocked c) /\
  (ig_stored c' = ig_stored c /\ ig_abandoned c' = ig_abandoned c) /\
  (ig_hand c' = ig_hand c /\ ig_cancelled c' = ig_cancelled c /\ ig_running c' = ig_running c /\ ig_topics c' = ig_topics c) /\
  ig_js c' = ig_js c /\
  match o with
  | None => unusable (arrival_at c pk now) /\ ig_acked c' = ig_acked c ++ [pk_id pk]
  | Some p => carries (arrival_at c pk now) p /\ ig_acked c' = ig_acked c
  end.
Proof.
  unfold receive. cbn [ig_topics ig_wildLast]. case_decide as Hi; [intros [= <- <-]; auto 15 using Ignored|].
  destruct (resolve (ig_topics c) (pk_topic pk)) as [[pc ex]|] eqn:Er; [|intros [= <- <-]; auto 15 using Unrouted].
  assert (exists w, (if ex then (ig_wildLast c, true)
    else allowWildcard (mc_WildcardMinInterval cfg) (ig_wildLast c) (pk_topic pk) now) = (w, ex || negb (limited_now (arrival_at c pk now)))) as [w ->].
  { destruct ex; [eauto|]. unfold limited_now. cbn. destruct (allowWildcard _ _ _ _) as [w []]; eauto. }
  destruct (ex || negb (limited_now (arrival_at c pk now))) eqn:El; cbn [negb].
  2:{ intros [= <- <-]. apply orb_false_elim in El as [-> El%negb_false_iff]. split_and!; auto. exact (Limited (arrival_at c pk now) pc Er El). }
  destruct (Z.ltb_spec (maxPayloadBytes cfg) (Z.of_nat (String.length (pk_payload pk)))); [intros [= <- <-]; auto 15 using Oversized|].
  destruct (decodePayload (pk_payload pk) now) as [od oc] eqn:Ed.
  destruct od as [d|]; [destruct oc|]; try (intros [= <- <-]; split_and!; auto;
    apply NoTelemetry; cbn; rewrite Ed; intros x; discriminate).
  destruct (event_json _) as [j|] eqn:Ej; intros [= <- <-]; split_and!; auto.
  - apply (Carries (arrival_at c pk now) _ pc ex d j); auto. intros ->. cbn in El. apply negb_true_iff. exact El.
  - exact (Unwritable (arrival_at c pk now) pc ex d Er Ed Ej).
Qed.

(** A packet that is dropped, or whose frame joins the waiting ones. *)
Lemma fate_drop seen dropped stored waiting lost js acked a : fate_ok (Build_fate seen dropped stored waiting lost js acked) ->
  unusable a -> fate_ok (Build_fate (seen ++ [a]) (dropped ++ [a]) stored waiting lost js (acked ++ [ar_id a])).
Proof.
  unfold fate_ok; cbn. intros (Hp & Hc & Hu & Hj & Ha) Hn. rewrite !(map_app ar_id). cbn. split_and!.
  - rewrite <- Hp. solve_Permutation.
  - eapply List.Forall_impl; [|exact Hc]. intros q (x & Hx & Hq). exists x. split; [apply elem_of_app; auto|exact Hq].
  - apply Forall_app. split; [|constructor; [split; [apply elem_of_app; right; left|exact Hn]|constructor]].
    eapply List.Forall_impl; [|exact Hu]. intros x [Hx Hux]. split; [apply elem_of_app; auto|exact Hux].
  - exact Hj.
  - rewrite Ha. solve_Permutation.
Qed.

Lemma fate_arrive seen dropped stored waiting lost js acked a p : fate_ok (Build_fate seen dropped stored waiting lost js acked) ->
  carries a p -> fate_ok (Build_fate (seen ++ [a]) dropped stored (p :: waiting) lost js acked).
Proof.
  unfold fate_ok; cbn. intros (Hp & Hc & Hu & Hj & Ha) Hn.
  assert (pp_msg p = ar_id a) as Hm by (destruct Hn; subst p; reflexivity).
  assert (stored ++ p :: waiting ++ lost ≡ₚ p :: stored ++ waiting ++ lost) as Hperm by solve_Permutation.
  rewrite Hperm, (map_app ar_id). cbn. split_and!; auto.
  - rewrite <- Hp, Hm. solve_Permutation.
  - constructor; [exists a; split; [apply elem_of_app; right; left|exact Hn]|].
    eapply List.Forall_impl; [|exact Hc]. intros q (x & Hx & Hq). exists x. split; [apply elem_of_app; auto|exact Hq].
  - eapply List.Forall_impl; [|exact Hu]. intros x [Hx Hux]. split; [apply elem_of_app; auto|exact Hux].
Qed.

(** One frame published, landed or given up. *)
Lemma publish_fate c p l c' r rest : publishPending c p l = (c', r) -> fate_ok (fate_with c (p :: rest)) ->
  fate_ok (fate_with c' (match r with Landed => rest | _ => p :: rest end)).
Proof.
  intros E Hf. apply publishPending_spec in E as ([E1 E2] & _ & E3 & _ & (new & E4) & Er). unfold fate_with in *.
  rewrite E1, E2, E3, E4. destruct r; [destruct Er as (-> & Hd & ->)|destruct Er as [-> ->]..].
  - apply fate_land; [exact Hf|]. rewrite <- E4. exact Hd.
  - apply fate_js, Hf.
  - apply fate_js, Hf.
Qed.

(** Flushing: frames land in order until one does not, which is given up. *)
Lemma drain_frames_spec frames : forall c ls, ig_queue c = [] -> ig_hand c = None -> fate_ok (fate_with c (frames ++ ig_blocked c)) ->
  let c' := drain_frames c frames ls in
  fate_ok (fate_of c') /\ (length (ig_queue c') <= pred (length frames))%nat /\ ig_running c' = ig_running c /\
  ig_cancelled c' = ig_cancelled c.
Proof.
  induction frames as [|p frames IH]; intros c ls Hq Hh Hf; cbn [drain_frames].
  - unfold fate_of, waiting_in, in_hand. rewrite Hq, Hh. auto.
  - destruct (publishPending c p (hd [] ls)) as [c1 r] eqn:E. pose proof (publish_fate _ _ _ _ _ _ E Hf) as Hf1.
    apply publishPending_spec in E as (_ & [E2 E3] & _ & (E4 & E5 & E6 & _) & _).
    destruct (decide (r = Landed)) as [->|Hr].
    + rewrite <- E5, <- E6. destruct (IH c1 (tl ls)) as (H1 & H2 & H3); [congruence..|rewrite E3; exact Hf1|].
      split; [exact H1|]. split; [cbn [length]; lia|exact H3].
    + assert (fate_ok (fate_with c1 (p :: frames ++ ig_blocked c))) as Hf2 by (destruct r; [congruence|exact Hf1..]).
      unfold fate_with in Hf2. apply fate_abandon_one in Hf2.
      destruct r; [congruence|..]; unfold fate_of, fate_with, waiting_in, in_hand; cbn; rewrite E3, E4, Hh; auto.
Qed.

Lemma drainQueue_ok c ls : ig_cancelled c = true -> fate_ok (fate_of c) ->
  Z.of_nat (length (ig_queue c)) <= publishQueueSize -> ingest_ok (drainQueue c ls).
Proof.
  intros Hcan Hf Hq. unfold drainQueue. unfold fate_of, waiting_in in Hf. rewrite app_assoc in Hf.
  destruct (drain_frames_spec (in_hand c ++ ig_queue c) {| c with ig_queue := []; ig_hand := None |} ls eq_refl eq_refl Hf) as (H1 & H2 & H3 & H4).
  split; [exact H1|]. rewrite H4. split; [cbn; congruence|]. rewrite length_app in H2.
  assert (length (in_hand c) <= 1)%nat by (unfold in_hand; destruct (ig_hand c); cbn; lia). lia.
Qed.

Lemma publishDirect_ok c p l : ig_cancelled c = true -> fate_ok (fate_with c (p :: waiting_in c)) ->
  Z.of_nat (length (ig_queue c)) <= publishQueueSize -> ingest_ok (publishDirect c p l).
Proof.
  intros Hcan Hf Hq. unfold publishDirect. destruct (publishPending c p l) as [c' r] eqn:E.
  pose proof (publish_fate _ _ _ _ _ _ E Hf) as Hf1. unfold waiting_in, in_hand in Hf1.
  apply publishPending_spec in E as (_ & [E2 E3] & _ & (E4 & E5 & E6 & _) & _).
  unfold ingest_ok, fate_of, fate_with, waiting_in, in_hand in *.
  destruct r; cbn; rewrite E2, E3, E4, E5, Hcan; (split; [|split; [discriminate|exact Hq]]);
    [exact Hf1|apply fate_abandon_one in Hf1; exact Hf1..].
Qed.

Lemma arrives_ok c pk now l c' : ingest_ok c -> ingest_step cfg c (Arrives pk now l) = Some c' -> ingest_ok c'.
Proof.
  intros (Hf & Hr & Hq) E. cbn [ingest_step] in E. destruct (receive cfg c pk now) as [c1 o] eqn:Ec.
  apply receive_spec in Ec as ([E1 E2] & [E3 E4] & [E5 E6] & (E7 & E8 & E9 & _) & E10 & Eo).
  unfold fate_of, fate_with, waiting_in, in_hand in Hf.
  rewrite <- E1, <- E2, <- E3, <- E4, <- E5, <- E6, <- E7, <- E10 in Hf. rewrite <- E3 in Hq. rewrite <- E6, <- E8, <- E9 in Hr.
  destruct o as [p|]; destruct Eo as [Hn Ea].
  - rewrite <- Ea in Hf. apply (fate_arrive _ _ _ _ _ _ _ (arrival_at c pk now) p) in Hf; [|exact Hn].
    cbn in E. destruct (ig_cancelled c1) eqn:Ecan; injection E as <-.
    + apply publishDirect_ok; [exact Ecan|exact Hf|exact Hq].
    + split; [|split; [intros _; exact (Hr eq_refl)|exact Hq]]. unfold fate_of, fate_with, waiting_in, in_hand. cbn.
      eapply fate_perm; [|exact Hf]. rewrite !app_assoc. apply Permutation_cons_append.
  - injection E as <-. apply (fate_drop _ _ _ _ _ _ _ (arrival_at c pk now)) in Hf; [|exact Hn].
    split; [|split; [exact Hr|exact Hq]]. unfold fate_of, fate_with, waiting_in, in_hand. cbn. rewrite Ea. exact Hf.
Qed.

(** The frame of a waiting callback. *)
Lemma blocked_fate c i p : ig_blocked c !! i = Some p -> fate_ok (fate_of c) ->
  fate_ok (fate_with c (p :: in_hand c ++ ig_queue c ++ delete i (ig_blocked c))).
Proof.
  intros Hi. apply fate_perm. unfold waiting_in. rewrite (delete_Permutation _ _ _ Hi) at 1. solve_Permutation.
Qed.

Lemma publishes_ok c l flush c' : ingest_ok c -> ingest_step cfg c (Publishes l flush) = Some c' -> ingest_ok c'.
Proof.
  intros (Hf & Hr & Hq) E. cbn [ingest_step] in E. destruct (ig_running c) eqn:Erun; [|discriminate].
  destruct (ig_hand c) as [p|] eqn:Eh; [|discriminate].
  unfold fate_of, waiting_in, in_hand in Hf. rewrite Eh in Hf.
  destruct (publishPending c p l) as [c1 r] eqn:Ep. pose proof (publish_fate _ _ _ _ _ _ Ep Hf) as Hf1.
  apply publishPending_spec in Ep as (_ & [E2 E3] & E1 & (E4 & E5 & E6 & _) & _).
  assert (r <> Landed -> ingest_ok c1) as Hc1.
  { intros Hne. unfold ingest_ok, fate_of, waiting_in, in_hand. rewrite E1, E2, E3, E4, E5, E6, Eh, Erun.
    split; [destruct r; [congruence|exact Hf1..]|auto]. }
  destruct r.
  - injection E as <-. unfold ingest_ok, fate_of, fate_with, waiting_in, in_hand in *; cbn in *.
    rewrite E2, E3, E5, E6, E1, Erun. rewrite E1 in Hf1. split; [exact Hf1|auto].
  - destruct (ig_cancelled c1) eqn:Ecan; [|discriminate]. injection E as <-.
    destruct Hc1 as (Hf2 & _ & Hq1); [discriminate|]. apply drainQueue_ok; [reflexivity|exact Hf2|exact Hq1].
  - injection E as <-. apply Hc1. discriminate.
Qed.

Lemma ingest_step_ok c ev c' : ingest_ok c -> ingest_step cfg c ev = Some c' -> ingest_ok c'.
Proof.
  intros Hc E. destruct ev as [pk now l|i|i l| | |l flush|flush|flush|idx]; [eauto using arrives_ok| | | | |eauto using publishes_ok|..];
    cbn [ingest_step] in E; destruct Hc as (Hf & Hr & Hq).
  - destruct (ig_blocked c !! i) as [p|] eqn:Ei; [|discriminate].
    destruct (Z.ltb_spec (Z.of_nat (length (ig_queue c))) publishQueueSize); [|discriminate]. injection E as <-.
    apply (blocked_fate _ _ _ Ei) in Hf. split; [|split; [exact Hr|cbn; rewrite length_app; cbn; lia]].
    unfold fate_of, fate_with, waiting_in, in_hand in *. cbn. eapply fate_perm; [|exact Hf]. solve_Permutation.
  - destruct (ig_blocked c !! i) as [p|] eqn:Ei; [|discriminate]. destruct (ig_cancelled c) eqn:Ecan; [|discriminate].
    injection E as <-. apply (blocked_fate _ _ _ Ei) in Hf. apply publishDirect_ok; [reflexivity|exact Hf|exact Hq].
  - injection E as <-. split; [exact Hf|]. split; [discriminate|exact Hq].
  - destruct (ig_running c) eqn:Erun; [|discriminate]. destruct (ig_hand c) eqn:Eh; [discriminate|].
    destruct (ig_queue c) as [|p rest] eqn:Eq; [discriminate|]. injection E as <-.
    unfold fate_of, waiting_in, in_hand in Hf. rewrite Eh, Eq in Hf. unfold ingest_ok; cbn.
    split; [exact Hf|]. split; [exact Hr|]. cbn [length] in Hq. lia.
  - destruct (ig_running c); [|discriminate]. destruct (ig_cancelled c) eqn:Ecan; [|discriminate]. injection E as <-.
    apply drainQueue_ok; [reflexivity|exact Hf|exact Hq].
  - destruct (ig_running c) eqn:Erun; [discriminate|]. injection E as <-. apply drainQueue_ok; [|assumption..].
    destruct (ig_cancelled c); [reflexivity|]. destruct (Hr eq_refl). congruence.
  - injection E as <-. split; [exact Hf|auto].
Qed.

Lemma ingest_run_ok evs : forall c c', ingest_ok c -> ingest_run cfg c evs = Some c' -> ingest_ok c'.
Proof.
  induction evs as [|ev evs IH]; intros c c' Hc E; cbn [ingest_run] in E; [congruence|].
  destruct (ingest_step cfg c ev) as [c1|] eqn:E1; [|discriminate]. eauto using ingest_step_ok.
Qed.

Lemma ingest_start_ok idx : ingest_ok (ingest_start idx).
Proof. split; [repeat constructor|]. split; [auto|]. cbn. unfold publishQueueSize. lia. Qed.

(** The packets that arrive in a run, with the topics in force. *)
Fixpoint arriving (idx : topicIndex) (evs : list ingest_event) : list (packet * Z * topicIndex) :=
  match evs with
  | [] => []
  | Arrives pk now _ :: evs => (pk, now, idx) :: arriving idx evs
  | Applies idx' :: evs => arriving idx' evs
  | _ :: evs => arriving idx evs
  end.
Definition as_arriving (a : arrival) : packet * Z * topicIndex := (ar_packet a, ar_now a, ar_topics a).

Lemma drain_history frames : forall c ls, let c' := drain_frames c frames ls in ig_seen c' = ig_seen c /\ ig_topics c' = ig_topics c.
Proof.
  induction frames as [|p frames IH]; intros c ls; cbn [drain_frames]; [auto|].
  destruct (publishPending c p (hd [] ls)) as [c1 r] eqn:E. apply publishPending_spec in E as ([E1 _] & _ & _ & (_ & _ & _ & E2) & _).
  destruct r; cbn; rewrite <- E1, <- E2; auto.
Qed.

Lemma direct_history c p l : ig_seen (publishDirect c p l) = ig_seen c /\ ig_topics (publishDirect c p l) = ig_topics c.
Proof.
  unfold publishDirect. destruct (publishPending c p l) as [c1 r] eqn:E.
  apply publishPending_spec in E as ([E1 _] & _ & _ & (_ & _ & _ & E2) & _). destruct r; auto.
Qed.

Lemma step_history c ev c' : ingest_step cfg c ev = Some c' -> forall evs,
  map as_arriving (ig_seen c') ++ arriving (ig_topics c') evs = map as_arriving (ig_seen c) ++ arriving (ig_topics c) (ev :: evs).
Proof.
  intros E evs. assert (forall a b, ig_seen c' = a -> ig_topics c' = b ->
    map as_arriving (ig_seen c') ++ arriving (ig_topics c') evs = map as_arriving a ++ arriving b evs) as Hs by (intros a b -> ->; reflexivity).
  destruct ev as [pk now l|i|i l| | |l flush|flush|flush|idx]; cbn [ingest_step arriving] in *.
  - destruct (receive cfg c pk now) as [c1 o] eqn:Er. apply receive_spec in Er as ([E1 _] & _ & _ & (_ & _ & _ & E2) & _).
    transitivity (map as_arriving (ig_seen c ++ [arrival_at c pk now]) ++ arriving (ig_topics c) evs);
      [|rewrite map_app, <- app_assoc; reflexivity].
    apply Hs; destruct o; cbn in E; [destruct (ig_cancelled c1)| |destruct (ig_cancelled c1)|]; injection E as <-;
      rewrite ?(proj1 (direct_history _ _ _)), ?(proj2 (direct_history _ _ _)); cbn; congruence.
  - destruct (ig_blocked c !! i); [|discriminate]. destruct (_ <? _); [|discriminate]. injection E as <-. reflexivity.
  - destruct (ig_blocked c !! i); [|discriminate]. destruct (ig_cancelled c); [|discriminate]. injection E as <-.
    apply Hs; [rewrite (proj1 (direct_history _ _ _))|rewrite (proj2 (direct_history _ _ _))]; reflexivity.
  - injection E as <-. reflexivity.
  - destruct (ig_running c), (ig_hand c), (ig_queue c); try discriminate. injection E as <-. reflexivity.
  - destruct (ig_running c); [|discriminate]. destruct (ig_hand c) as [p|]; [|discriminate].
    destruct (publishPending c p l) as [c1 r] eqn:Ep. apply publishPending_spec in Ep as ([E1 _] & _ & _ & (_ & _ & _ & E2) & _).
    apply Hs; destruct r; [|destruct (ig_cancelled c1); [|discriminate]| |  |destruct (ig_cancelled c1); [|discriminate]|]; injection E as <-;
      unfold drainQueue; rewrite ?(proj1 (drain_history _ _ _)), ?(proj2 (drain_history _ _ _)); cbn; congruence.
  - destruct (_ && _); [|discriminate]. injection E as <-. unfold drainQueue in *.
    apply Hs; [rewrite (proj1 (drain_history _ _ _))|rewrite (proj2 (drain_history _ _ _))]; reflexivity.
  - destruct (ig_running c); [discriminate|]. injection E as <-. unfold drainQueue in *.
    apply Hs; [rewrite (proj1 (drain_history _ _ _))|rewrite (proj2 (drain_history _ _ _))]; reflexivity.
  - injection E as <-. reflexivity.
Qed.

Lemma run_history evs : forall c c', ingest_run cfg c evs = Some c' ->
  map as_arriving (ig_seen c') = map as_arriving (ig_seen c) ++ arriving (ig_topics c) evs.
Proof.
  induction evs as [|ev evs IH]; intros c c' E; cbn [ingest_run] in E; [injection E as <-; rewrite app_nil_r; reflexivity|].
  destruct (ingest_step cfg c ev) as [c1|] eqn:E1; [|discriminate]. rewrite (IH _ _ E). apply step_history. exact E1.
Qed.

(** C15: The MQTT connector loses nothing it acknowledges.  Over any run of
    arrivals, callbacks that wait for room, publishes with retries, live topic
    changes and a shutdown with its flushes: every packet received is exactly one
    of dropped, stored, in the publisher's hand, queued, waiting in its callback, or
    given up.  A packet is dropped only for one of the reasons of [unusable], judged
    by the topics and the time at its arrival, and an exactly configured topic is
    never limited.  A frame carries exactly its packet's event: the concrete topic,
    the device and unit of the point the topic resolved to at arrival, the value and
    the time of the payload.  The packets acknowledged to the broker are the dropped
    ones and those whose event JetStream holds; the queue never exceeds its size; and
    nothing is given up before the shutdown. *)
Theorem ingest_accounts (idx : topicIndex) (evs : list ingest_event) (c : ingest) :
  ingest_run cfg (ingest_start idx) evs = Some c ->
  let frames := ig_stored c ++ (in_hand c ++ ig_queue c ++ ig_blocked c) ++ ig_abandoned c in
  map as_arriving (ig_seen c) = arriving idx evs /\
  map ar_id (ig_dropped c) ++ map pp_msg frames ≡ₚ map ar_id (ig_seen c) /\
  Forall (fun p => exists a, a ∈ ig_seen c /\ carries a p) frames /\
  Forall (fun a => a ∈ ig_seen c /\ unusable a) (ig_dropped c) /\
  ig_acked c ≡ₚ map ar_id (ig_dropped c) ++ map pp_msg (ig_stored c) /\
  Forall (fun p => pp_data p ∈ ig_js c) (ig_stored c) /\
  Z.of_nat (length (ig_queue c)) <= publishQueueSize /\
  (ig_cancelled c = false -> ig_abandoned c = []).
Proof.
  intros E. split; [exact (run_history _ _ _ E)|].
  destruct (ingest_run_ok evs _ _ (ingest_start_ok idx) E) as ((Hp & Hc & Hu & Hj & Ha) & Hr & Hq).
  do 5 (split; [assumption|]). split; [exact Hq|]. intros Hcan. destruct (Hr Hcan). assumption.
Qed.

(** Attempts that fail while the context lives, and then succeed. *)
Definition lands (l : list attempt) : Prop :=
  exists pre, l = pre ++ [PubOk] /\ Forall (fun a => exists stored now, a = PubFail stored now false false) pre.

(** A flush whose publishes end in success stores everything that waits. *)
Lemma drain_complete frames : forall c ls, ig_queue c = [] -> (length frames <= length ls)%nat ->
  Forall lands ls ->
  let c' := drain_frames c frames ls in
  ig_stored c' = ig_stored c ++ frames /\ ig_queue c' = [] /\ ig_abandoned c' = ig_abandoned c.
Proof.
  induction frames as [|p frames IH]; intros c ls Hq Hl Hls; cbn [drain_frames]; [rewrite app_nil_r; auto|].
  destruct ls as [|l ls]; [cbn in Hl; lia|]. inversion Hls as [|x y (pre & -> & Hpre) Hls']; subst. cbn [hd tl].
  assert (forall d, exists d', publishPending d p (pre ++ [PubOk]) = (d', Landed)) as Hn.
  { clear -Hpre. induction Hpre as [|a pre (st & now & ->) Hpre IH]; intros d; cbn; [eauto|apply IH]. }
  destruct (Hn c) as [c1 E1]. rewrite E1. apply publishPending_spec in E1 as (_ & [E3 _] & E4 & _ & _ & Es & _).
  destruct (IH c1 ls) as (H1 & H2 & H3); [congruence|cbn in Hl; lia|exact Hls'|].
  cbn zeta. rewrite H1, H2, H3, Es, <- app_assoc. auto.
Qed.

(** A graceful stop loses nothing while the uplink recovers: flushing,
    with each publish retried until it succeeds, stores the frame in hand and
    then the queue in order, leaves nothing waiting and gives nothing up. *)
Theorem shutdown_flush_complete (c : ingest) (ls : list (list attempt)) :
  ig_running c = true -> ig_cancelled c = true -> (length (in_hand c ++ ig_queue c) <= length ls)%nat ->
  Forall lands ls ->
  exists c', ingest_step cfg c (Flushes ls) = Some c' /\
    ig_stored c' = ig_stored c ++ in_hand c ++ ig_queue c /\ ig_queue c' = [] /\ ig_abandoned c' = ig_abandoned c.
Proof.
  intros Hrun Hcan Hl Hls. cbn [ingest_step].
  replace (ig_running c && ig_cancelled c) with true by (rewrite Hrun, Hcan; reflexivity). eexists. split; [reflexivity|].
  apply (drain_complete (in_hand c ++ ig_queue c)
    {| c with ig_queue := []; ig_hand := None; ig_running := false |} ls eq_refl Hl Hls).
Qed.
End IngestFacts.

(** ** The limiter *)

Section Limiter.
Context (setting : Z).

(** A sequence of calls, and those allowed. *)
Fixpoint limited (w : gmap string Z) (calls : list (string * Z)) : list (string * Z) :=
  match calls with
  | [] => []
  | (topic, now) :: calls =>
    let '(w, ok) := allowWildcard setting w topic now in
    if ok then (topic, now) :: limited w calls else limited w calls
  end.

(** A call inside the gap is refused; an allowed one is remembered, and with
    room in the table the other topics keep their entries. *)
Lemma allowWildcard_spec w topic now w' ok : allowWildcard setting w topic now = (w', ok) ->
  wildcardMinInterval setting <> 0 -> Z.of_nat (size w) < maxWildcardTracked ->
  if ok then w' = <[topic := now]> w /\ (forall last, w !! topic = Some last -> wildcardMinInterval setting <= now - last)
  else w' = w.
Proof.
  unfold allowWildcard. intros E Hg Hs. destruct (Z.eqb_spec (wildcardMinInterval setting) 0); [contradiction|].
  destruct (Z.leb_spec maxWildcardTracked (Z.of_nat (size w))); [lia|].
  destruct (w !! topic) as [last|] eqn:El.
  - destruct (Z.ltb_spec (now - last) (wildcardMinInterval setting)); injection E as <- <-; [reflexivity|].
    split; [reflexivity|]. intros l [= <-]. assumption.
  - injection E as <- <-. split; [reflexivity|discriminate].
Qed.

Lemma limited_later (T : gset string) calls : Z.of_nat (size T) < maxWildcardTracked -> wildcardMinInterval setting <> 0 ->
  Forall (fun c => fst c ∈ T) calls -> forall w topic last, dom w ⊆ T -> w !! topic = Some last ->
  forall now, (topic, now) ∈ limited w calls -> Forall (fun c => last <= snd c) calls -> StronglySorted Z.le (map snd calls) ->
  wildcardMinInterval setting <= now - last.
Proof.
  intros HT Hg. induction calls as [|[t u] calls IH]; intros Hin w topic last Hd Hw now Hnow Hl Hs; cbn [limited] in Hnow; [inversion Hnow|].
  inversion Hin as [|? ? Ht Hin']; inversion Hl as [|? ? Hu Hl']; inversion Hs as [|? ? Hs' Hu']; subst; cbn [fst snd] in *.
  destruct (allowWildcard setting w t u) as [w' ok] eqn:E.
  assert (Z.of_nat (size w) < maxWildcardTracked) as Hsz by (rewrite <- size_dom; pose proof (subseteq_size _ _ Hd); lia).
  apply allowWildcard_spec in E; [|assumption..]. destruct ok; [|subst w'; eauto]. destruct E as [-> Hgap].
  apply elem_of_cons in Hnow as [[= <- <-]|Hnow]; [auto|]. destruct (decide (topic = t)) as [->|Hne].
  - specialize (Hgap _ Hw). assert (wildcardMinInterval setting <= now - u); [|lia].
    apply (IH Hin' (<[t:=u]> w) t u); [set_solver|apply lookup_insert_eq|assumption| |assumption].
    rewrite List.Forall_forall in Hu' |- *. intros x Hx. apply Hu', in_map. exact Hx.
  - apply (IH Hin' (<[t:=u]> w) topic last); [set_solver|rewrite lookup_insert_ne; auto|assumption..].
Qed.

(** The limiter keeps an unconfigured publisher off the uplink: while the
    topics seen fit its table and the clock does not run backwards, two
    messages let through on one topic are at least the configured interval
    apart, whatever else arrives in between. *)
Theorem wildcard_limited (T : gset string) (calls : list (string * Z)) (w : gmap string Z) :
  Z.of_nat (size T) < maxWildcardTracked -> wildcardMinInterval setting <> 0 -> dom w ⊆ T ->
  Forall (fun c => fst c ∈ T) calls -> StronglySorted Z.le (map snd calls) ->
  forall i j topic t u, (i < j)%nat -> limited w calls !! i = Some (topic, t) -> limited w calls !! j = Some (topic, u) ->
    wildcardMinInterval setting <= u - t.
Proof.
  intros HT Hg. revert w. induction calls as [|[c v] calls IH]; intros w Hd Hin Hs i j topic t u Hij Hi Hj; [discriminate|].
  inversion Hin as [|? ? Hc Hin']; inversion Hs as [|? ? Hs' Hu']; subst; cbn [fst snd limited] in *.
  destruct (allowWildcard setting w c v) as [w' ok] eqn:E.
  assert (Z.of_nat (size w) < maxWildcardTracked) as Hsz by (rewrite <- size_dom; pose proof (subseteq_size _ _ Hd); lia).
  apply allowWildcard_spec in E; [|assumption..]. destruct ok; [|subst w'; eauto]. destruct E as [-> _].
  assert (dom (<[c:=v]> w) ⊆ T) as Hd' by set_solver. destruct j as [|j]; [lia|]. cbn in Hj.
  destruct i as [|i]; cbn in Hi; [|apply (IH (<[c:=v]> w) Hd' Hin' Hs' i j topic); auto; lia].
  injection Hi as -> ->. apply (limited_later T calls HT Hg Hin' (<[topic:=t]> w) topic t); [assumption|apply lookup_insert_eq| | |assumption].
  - eapply list_elem_of_lookup_2. exact Hj.
  - rewrite List.Forall_forall in Hu' |- *. intros x Hx. apply Hu', in_map. exact Hx.
Qed.

Lemma allowWildcard_bounded w topic now : Z.of_nat (size w) <= maxWildcardTracked ->
  Z.of_nat (size (fst (allowWildcard setting w topic now))) <= maxWildcardTracked.
Proof.
  unfold allowWildcard. intros Hs. destruct (_ =? 0); [exact Hs|]. match goal with |- context [if ?b then (w, false) else _] => destruct b end; [exact Hs|]. cbn [fst].
  destruct (Z.leb_spec maxWildcardTracked (Z.of_nat (size w))) as [Hf|Hf].
  - set (w1 := filter _ w). destruct (Z.leb_spec maxWildcardTracked (Z.of_nat (size w1))) as [Hg|Hg].
    + rewrite map_size_insert, lookup_empty, map_size_empty. unfold maxWildcardTracked. lia.
    + rewrite map_size_insert. destruct (w1 !! topic); unfold id; lia.
  - rewrite map_size_insert. destruct (w !! topic); unfold id; lia.
Qed.
End Limiter.

(** ** The freshness floor *)

Section FreshnessFacts.
Context `{GoStrconv} (cfg : mqtt_config) (interval : Z) (idx : topicIndex) (now : Z).

(** What a tick does to one topic's entry, and the event it gives. *)
Definition fresh_entry (topic : string) (e : option (float64 * Z)) : option (float64 * Z) :=
  match e with
  | Some (x, last) =>
    if interval <=? now - last then match resolve idx topic with Some _ => Some (x, now) | None => None end else Some (x, last)
  | None => None
  end.

Definition fresh_events (lkv : lkv_map) (topic : string) : list Event :=
  match resolve idx topic, lkv !! topic with
  | Some (p, _), Some (x, _) => [fresh_event cfg topic p x now]
  | _, _ => []
  end.

Lemma freshen_fold l : forall lkv out, NoDup l ->
  Forall (fun t => exists x last, lkv !! t = Some (x, last) /\ interval <= now - last) l ->
  let '(lkv', out') := fold_left (freshen cfg interval idx now) l (lkv, out) in
  out' = out ++ concat (map (fresh_events lkv) l) /\
  forall t, lkv' !! t = if decide (t ∈ l) then fresh_entry t (lkv !! t) else lkv !! t.
Proof.
  induction l as [|t l IH]; intros lkv out Hnd Hl; cbn [fold_left].
  { cbn. rewrite app_nil_r. auto. }
  apply NoDup_cons in Hnd as [Hnt Hnd]. inversion Hl as [|? ? (x & last & Hx & Hd) Hl']; subst.
  set (lkv1 := match resolve idx t with None => delete t lkv | Some _ => <[t := (x, now)]> lkv end).
  assert (freshen cfg interval idx now (lkv, out) t = (lkv1, out ++ fresh_events lkv t)) as ->.
  { unfold freshen, fresh_events, lkv1. rewrite Hx. destruct (resolve idx t) as [[p e]|]; [|rewrite app_nil_r; reflexivity].
    destruct (Z.ltb_spec (now - last) interval); [lia|reflexivity]. }
  assert (forall u, u <> t -> lkv1 !! u = lkv !! u) as Hne
    by (intros u Hu; subst lkv1; destruct (resolve idx t); [rewrite lookup_insert_ne; auto|rewrite lookup_delete_ne; auto]).
  assert (lkv1 !! t = fresh_entry t (lkv !! t)) as Ht.
  { unfold fresh_entry. rewrite Hx. destruct (Z.leb_spec interval (now - last)); [|lia]. subst lkv1.
    destruct (resolve idx t); [apply lookup_insert_eq|apply lookup_delete_eq]. }
  specialize (IH lkv1 (out ++ fresh_events lkv t) Hnd).
  destruct (fold_left _ l _) as [lkv' out'].
  destruct IH as [Hout Hlk].
  { rewrite List.Forall_forall in Hl' |- *. intros u Hu. rewrite Hne; [auto|]. intros ->. apply Hnt, list_elem_of_In, Hu. }
  split.
  - rewrite Hout, <- app_assoc. cbn. f_equal. f_equal. f_equal. apply map_ext_in. intros u Hu. unfold fresh_events.
    rewrite Hne; [reflexivity|]. intros ->. apply Hnt, list_elem_of_In, Hu.
  - intros u. rewrite Hlk. destruct (decide (u = t)) as [->|Hu].
    + rewrite decide_False by assumption. rewrite decide_True by left. exact Ht.
    + rewrite Hne by exact Hu. destruct (decide (u ∈ l)); [rewrite decide_True by (right; assumption)|rewrite decide_False by set_solver]; reflexivity.
Qed.

Lemma due_spec lkv t : 0 < interval ->
  t ∈ dueForRepublish interval lkv now <-> (exists x last, lkv !! t = Some (x, last) /\ interval <= now - last).
Proof.
  intros Hi. unfold dueForRepublish. destruct (Z.leb_spec interval 0); [lia|]. rewrite list_elem_of_fmap. split.
  - intros ([u [x last]] & -> & Hf). apply list_elem_of_filter in Hf as [Hd Hin]. apply elem_of_map_to_list in Hin. eauto.
  - intros (x & last & Hx & Hd). exists (t, (x, last)). split; [reflexivity|]. apply list_elem_of_filter.
    split; [exact Hd|]. apply elem_of_map_to_list. exact Hx.
Qed.

Lemma due_nodup lkv : NoDup (dueForRepublish interval lkv now).
Proof.
  unfold dueForRepublish. destruct (interval <=? 0); [constructor|].
  eapply sublist_NoDup; [apply (NoDup_fst_map_to_list lkv)|]. apply fmap_sublist, sublist_filter.
Qed.

(** The freshness floor keeps every routed point current: one tick
    republishes exactly the last values that are an interval old and still
    routed, once each and stamped with the tick; it forgets the stale topics no
    longer routed, leaves the others alone, and afterwards nothing is due. *)
Theorem freshness_tick_exact (lkv : lkv_map) : 0 < interval ->
  let '(lkv', out) := freshness_tick cfg interval idx lkv now in
  (forall t, lkv' !! t = fresh_entry t (lkv !! t)) /\
  out = concat (map (fresh_events lkv) (dueForRepublish interval lkv now)) /\
  NoDup (dueForRepublish interval lkv now) /\
  dueForRepublish interval lkv' now = [].
Proof.
  intros Hi. unfold freshness_tick.
  pose proof (freshen_fold (dueForRepublish interval lkv now) lkv [] (due_nodup lkv)) as Hf.
  destruct (fold_left _ _ _) as [lkv' out]. destruct Hf as [Hout Hlk].
  { apply List.Forall_forall. intros t Ht. apply due_spec; [exact Hi|]. apply list_elem_of_In, Ht. }
  assert (forall t, lkv' !! t = fresh_entry t (lkv !! t)) as Hl.
  { intros t. rewrite Hlk. case_decide as Hd; [reflexivity|]. unfold fresh_entry. destruct (lkv !! t) as [[x last]|] eqn:E; [|reflexivity].
    destruct (Z.leb_spec interval (now - last)); [|reflexivity]. exfalso. apply Hd, due_spec; eauto. }
  split; [exact Hl|]. split; [exact Hout|]. split; [apply due_nodup|].
  destruct (dueForRepublish interval lkv' now) as [|t l] eqn:E; [reflexivity|]. exfalso.
  assert (t ∈ dueForRepublish interval lkv' now) as Ht by (rewrite E; left).
  apply due_spec in Ht as (x & last & Hx & Hd); [|exact Hi]. rewrite Hl in Hx. unfold fresh_entry in Hx.
  destruct (lkv !! t) as [[y l0]|]; [|discriminate]. destruct (Z.leb_spec interval (now - l0)); [|congruence || (injection Hx as <- <-; lia)].
  destruct (resolve idx t); [injection Hx as <- <-; lia|discriminate].
Qed.
End FreshnessFacts.

(** ** Writing *)

Section WriteFacts.
Context `{GoFormat}.

Lemma TryReserve_Complete d id r : TryReserve (Complete d id r) id = Some (Complete d id r, Cached r).
Proof. unfold TryReserve. cbn. rewrite lookup_insert_eq. reflexivity. Qed.

(** A write command reaches the broker only for a configured writable
    point, on that point's own command topic and QoS with its formatted value;
    success is reported exactly when the broker took it; and a retry of the
    command is answered with the same reply without another publish. *)
Theorem handleWrite_safe (idx : topicIndex) (d : CommandDedup) (data : string) (err : option string) d' r pub :
  handleWrite true idx d data err = Some (d', r, Some pub) ->
  (exists req p, request_unjson data = Some req /\ wr_Release req = false /\ points idx !! wr_LocalID req = Some p /\
     pc_Writable p = true /\ CommandTopic p <> "" /\ bp_Topic pub = CommandTopic p /\ bp_QoS pub = commandQoS p /\
     bp_Payload pub = formatPayload (PayloadTemplate p) (wr_Value req) /\ dd_entries d !! wr_ControlID req = None) /\
  (rp_Success r = true <-> err = None) /\
  forall idx' err', handleWrite true idx' d' data err' = Some (d', r, None).
Proof.
  intros E. unfold handleWrite in E. destruct (request_unjson data) as [req|] eqn:Er; [|discriminate].
  destruct (wr_Release req) eqn:Erel; [discriminate|]. cbn [negb] in E.
  destruct (TryReserve d (wr_ControlID req)) as [[d1 o]|] eqn:Et; [|discriminate]. destruct o; try discriminate.
  destruct (points idx !! wr_LocalID req) as [p|] eqn:Ep; [|discriminate].
  destruct (negb (pc_Writable p) || String.eqb (CommandTopic p) "") eqn:Ew; [discriminate|]. injection E as <- <- <-.
  apply orb_false_elim in Ew as [Ew Ec]. apply negb_false_iff in Ew. apply String.eqb_neq in Ec. split; [|split].
  - exists req, p. repeat split; try assumption. unfold TryReserve in Et.
    destruct (dd_entries d !! wr_ControlID req) as [[]|]; [discriminate..|reflexivity].
  - destruct err; cbn; split; congruence.
  - intros idx' err'. unfold handleWrite. rewrite Er, Erel. cbn [negb]. rewrite TryReserve_Complete. reflexivity.
Qed.
End WriteFacts.

(** A plain payload is read up to the end of its first JSON value only:
    any text that starts with a number and goes on with something that cannot
    extend it, such as a date or a value with its unit, is published as that
    number. *)
Theorem plain_prefix_accepted `{GoStrconvLaws} (now : Z) :
  decodePayload "2026-11-16" now = (Some {| dp_Value := NumberValue (f64_of_Z 2026); dp_Timestamp := now |}, payloadTelemetry) /\
  decodePayload "21 C" now = (Some {| dp_Value := NumberValue (f64_of_Z 21); dp_Timestamp := now |}, payloadTelemetry).
Proof.
  assert (forall lit f, valid_num lit = true -> parse_f64 lit = Some f -> f64_finite f = true -> numeric_text lit = Some f) as Hn.
  { intros lit f Hv Hp Hf. unfold numeric_text. rewrite (parse_float_json lit Hv), Hp, Hf. reflexivity. }
  assert (numeric_text "2026" = Some (f64_of_Z 2026)) as H1 by (apply Hn; vm_compute; reflexivity).
  assert (numeric_text "21" = Some (f64_of_Z 21)) as H2 by (apply Hn; vm_compute; reflexivity).
  assert (parse_prefix "2026-11-16" = Some (JNum "2026", "-11-16")) as P1 by (vm_compute; reflexivity).
  assert (parse_prefix "21 C" = Some (JNum "21", " C")) as P2 by (vm_compute; reflexivity).
  assert (trim_space "2026-11-16" = "2026-11-16") as T1 by (vm_compute; reflexivity).
  assert (trim_space "21 C" = "21 C") as T2 by (vm_compute; reflexivity).
  split; unfold decodePayload, scalarValue, numericValue.
  - rewrite !T1, P1. cbn [number_of]. rewrite H1. reflexivity.
  - rewrite !T2, P2. cbn [number_of]. rewrite H2. reflexivity.
Qed.

(** ** Examples *)

Module MqttIngestExample.

#[export] Instance json_strconv : GoStrconv := {|
  parse_float s := if valid_num s then parse_f64 s else None;
  parse_time s := if String.eqb s "1970-01-01T00:00:01Z" then Some 1000000000 else None;
  format_time t := if t =? 1000000000 then "1970-01-01T00:00:01Z" else "1970-01-01T00:00:00Z"
|}.

#[export] Instance json_strconv_laws : GoStrconvLaws.
Proof. split; [intros lit Hv; cbn; rewrite Hv; reflexivity|vm_compute; reflexivity]. Qed.

#[export] Instance plain_format : GoFormat := {|
  format_g x := default "NaN" (format_f64 x);
  sprintf1 tmpl x := "%!" +:+ tmpl
|}.

Definition cfg1 : mqtt_config :=
  {| mc_ConnectorID := "m1"; mc_Ignore := ∅; mc_WildcardMinInterval := 0; mc_MaxPayloadBytes := 0 |}.
Definition rw_point : PointConfig := 
  let p := read_point "a/x" in {| p with pc_Writable := true; CommandTopic := "a/x/set" |}.
Definition idx1 : topicIndex := newTopicIndex [rw_point] [] "r0".
Definition pk1 : packet := {| pk_id := 1; pk_topic := "a/x"; pk_payload := "21" |}.
Definition pk2 : packet := {| pk_id := 2; pk_topic := "b"; pk_payload := "21" |}.

Definition evs1 : list ingest_event :=
  [Arrives pk1 0 []; Enqueues 0; Arrives pk2 0 []; Takes; Publishes [PubFail true 5 false false; PubOk] [];
   Arrives {| pk1 with pk_id := 3 |} 9 []; Enqueues 0].
Definition run1 : ingest := Eval vm_compute in default (ingest_start idx1) (ingest_run cfg1 (ingest_start idx1) evs1).
Definition stopping : ingest := {| run1 with ig_cancelled := true |}.

Lemma ingest_accounts_witness :
  map ar_id (ig_dropped run1) ++ map pp_msg (ig_stored run1 ++ ig_queue run1) ≡ₚ [1; 2; 3] /\
  ig_acked run1 ≡ₚ [2; 1] /\ Forall (fun p => pp_data p ∈ ig_js run1) (ig_stored run1).
Proof.
  assert (ingest_run cfg1 (ingest_start idx1) evs1 = Some run1) as E by (vm_compute; reflexivity).
  destruct (ingest_accounts cfg1 idx1 evs1 run1 E) as (_ & H1 & _ & _ & H2 & H3 & _).
  split; [exact H1|]. split; [exact H2|exact H3].
Defined.

Lemma shutdown_flush_complete_witness :
  exists c', ingest_step cfg1 stopping (Flushes [[PubFail false 7 false false; PubOk]]) = Some c' /\ ig_queue c' = [] /\
    ig_abandoned c' = [].
Proof.
  destruct (shutdown_flush_complete cfg1 stopping [[PubFail false 7 false false; PubOk]]) as (c' & E & _ & Hq & Ha);
    [reflexivity|reflexivity|cbn; lia| |exists c'; auto].
  constructor; [|constructor]. exists [PubFail false 7 false false]. split; [reflexivity|]. repeat constructor. eauto.
Defined.

Lemma wildcard_limited_witness : 10000000000 <= 12000000000 - 0.
Proof.
  refine (wildcard_limited 0 {["t"; "u"]} [("t", 0); ("t", 1); ("u", 5000000000); ("t", 12000000000)] ∅ _ _ _ _ _
    0 2 "t" 0 12000000000 _ _ _); [vm_compute; reflexivity|discriminate|set_solver| | |lia|vm_compute; reflexivity..].
  - apply (bool_decide_unpack _). vm_compute. exact I.
  - cbn. repeat constructor; discriminate.
Defined.

Lemma freshness_tick_exact_witness :
  snd (freshness_tick cfg1 60 idx1 {["a/x" := (f64_of_Z 21, 0)]} 100) = [fresh_event cfg1 "a/x" rw_point (f64_of_Z 21) 100].
Proof.
  pose proof (freshness_tick_exact cfg1 60 idx1 100 {["a/x" := (f64_of_Z 21, 0)]} ltac:(lia)) as H.
  destruct (freshness_tick _ _ _ _ _) as [l out]. destruct H as (_ & -> & _). vm_compute. reflexivity.
Defined.

Definition write1 : string :=
  Eval vm_compute in
    let r := {| wr_Release := false; wr_ControlID := "c1"; wr_LocalID := "a/x"; wr_DeviceRef := ""; wr_Value := f64_of_Z 21; wr_Priority := 0 |} in
    match request_json r with Some j => marshal j | None => "" end.

Lemma handleWrite_safe_witness :
  exists d' pub, handleWrite true idx1 (NewCommandDedup 4) write1 None = Some (d', {| rp_Success := true; rp_Response := "ok" |}, Some pub) /\
    forall idx' err', handleWrite true idx' d' write1 err' = Some (d', {| rp_Success := true; rp_Response := "ok" |}, None).
Proof.
  destruct (handleWrite true idx1 (NewCommandDedup 4) write1 None) as [[[d' r] [pub|]]|] eqn:E; [|vm_compute in E; discriminate E..].
  assert (r = {| rp_Success := true; rp_Response := "ok" |}) as Hr.
  { change r with (snd (fst (d', r, Some pub))). pose proof (f_equal (fun o => match o with Some x => snd (fst x) | None => r end) E) as E'.
    cbn beta iota in E'. rewrite <- E'. vm_compute. reflexivity. }
  destruct (handleWrite_safe idx1 (NewCommandDedup 4) write1 None d' r pub E) as (_ & _ & H). subst r. eauto.
Defined.

Lemma plain_prefix_accepted_witness : exists d, decodePayload "2026-11-16" 5 = (Some d, payloadTelemetry).
Proof. eexists. apply (plain_prefix_accepted 5). Defined.

End MqttIngestExample.
