(* ===== verification/Transport.v ===== *)
(** * Transport security

    [src/internal/transport/transport.go] and [src/connector/mqtt/tls.go]: which
    TLS configuration, or explicit plaintext, a link gets from its settings.
    Reading files and parsing certificates are operations of [PKI].  The
    theorem is that a link never falls back to plaintext or to fewer
    credentials than its settings name. *)

From Stdlib Require Import ZArith Lia Bool Ascii String List.
From stdpp Require Import base list strings.
From S2P Require Import Prelude.
#[local] Open Scope string_scope.
#[local] Open Scope list_scope.
#[local] Open Scope Z_scope.
#[local] Open Scope go_scope.

(** [os.ReadFile], [AppendCertsFromPEM] (whether a certificate was added) and
    [tls.LoadX509KeyPair] on a certificate and a key file. *)
Class PKI (K : Type) := {
  read_file : K -> string -> option string;
  pem_parses : K -> string -> bool;
  load_pair : K -> string -> string -> option string
}.

Module Transport.

Record Config := {
  Insecure : bool;
  CAFile : string;
  CertFile : string;
  KeyFile : string;
  ServerName : string
}.

(** [RootCAs = None] is the host's system roots; a pool is the bundles added to
    it and whether it starts from the system roots. *)
Record tls_config := {
  MinVersion : Z;
  RootCAs : option (bool * string);
  Certificates : list string;
  tls_ServerName : string
}.

Inductive tls_error := ReadCA | NoCerts | PairIncomplete | LoadCert | Contradictory.

(** [None] is [insecure.NewCredentials]. *)
Definition credentials : Type := option tls_config.

Section WithPKI.
Context {K : Type} `{PKI K}.

Definition VersionTLS12 : Z := 771.

Definition TLSConfig (k : K) (cfg : Config) : result tls_error tls_config :=
  let! roots :=
    if String.eqb (CAFile cfg) "" then Ok None
    else match read_file k (CAFile cfg) with
         | None => Err ReadCA
         | Some pem => if pem_parses k pem then Ok (Some (false, pem)) else Err NoCerts
         end in
  if negb (Bool.eqb (String.eqb (CertFile cfg) "") (String.eqb (KeyFile cfg) "")) then Err PairIncomplete
  else
    let! certs :=
      if String.eqb (CertFile cfg) "" then Ok []
      else match load_pair k (CertFile cfg) (KeyFile cfg) with
           | None => Err LoadCert
           | Some p => Ok [p]
           end in
    Ok {| MinVersion := VersionTLS12; RootCAs := roots; Certificates := certs;
          tls_ServerName := ServerName cfg |}.

Definition ClientCredentials (k : K) (cfg : Config) : result tls_error credentials :=
  if Insecure cfg then
    if negb (String.eqb (CAFile cfg) "") || negb (String.eqb (CertFile cfg) "")
       || negb (String.eqb (KeyFile cfg) "") || negb (String.eqb (ServerName cfg) "")
    then Err Contradictory
    else Ok None
  else let! t := TLSConfig k cfg in Ok (Some t).

(** The MQTT link's variant: the pair is checked first and a custom bundle is
    added to the system roots ([SystemCertPool], or an empty pool when that
    fails: [sys]). *)
Definition LoadTLSConfig (k : K) (sys : bool) (caFile certFile keyFile : string)
  : result tls_error tls_config :=
  if negb (Bool.eqb (String.eqb certFile "") (String.eqb keyFile "")) then Err PairIncomplete
  else
    let! roots :=
      if String.eqb caFile "" then Ok None
      else match read_file k caFile with
           | None => Err ReadCA
           | Some pem => if pem_parses k pem then Ok (Some (sys, pem)) else Err NoCerts
           end in
    let! certs :=
      if String.eqb certFile "" then Ok []
      else match load_pair k certFile keyFile with
           | None => Err LoadCert
           | Some p => Ok [p]
           end in
    Ok {| MinVersion := VersionTLS12; RootCAs := roots; Certificates := certs; tls_ServerName := "" |}.

(** What settings ask of a TLS configuration. *)
Definition honours (k : K) (sys : bool) (ca cert key name : string) (t : tls_config) : Prop :=
  MinVersion t = VersionTLS12 /\ tls_ServerName t = name /\
  (ca = "" -> RootCAs t = None) /\
  (ca <> "" -> exists pem, read_file k ca = Some pem /\ pem_parses k pem = true /\
                           RootCAs t = Some (sys, pem)) /\
  (cert = "" <-> key = "") /\
  (cert = "" -> Certificates t = []) /\
  (cert <> "" -> exists p, load_pair k cert key = Some p /\ Certificates t = [p]).

Lemma pair_together (a b : string) :
  negb (Bool.eqb (String.eqb a "") (String.eqb b "")) = false -> a = "" <-> b = "".
Proof.
  destruct (String.eqb_spec a ""), (String.eqb_spec b ""); cbn; try discriminate; tauto.
Qed.

Ltac honour E :=
  repeat match type of E with
  | context [if String.eqb ?a "" then _ else _] => destruct (String.eqb_spec a ""); cbn [result_bind] in E
  | context [match ?x with None => _ | Some _ => _ end] => let F := fresh "F" in destruct x eqn:F; cbn [result_bind] in E
  | context [if pem_parses ?k ?p then _ else _] => let F := fresh "F" in destruct (pem_parses k p) eqn:F; cbn [result_bind] in E
  end; try discriminate; injection E as <-; unfold honours; cbn; repeat split; try tauto; eauto.

Lemma TLSConfig_honours k cfg t : TLSConfig k cfg = Ok t ->
  honours k false (CAFile cfg) (CertFile cfg) (KeyFile cfg) (ServerName cfg) t.
Proof.
  unfold TLSConfig. intros E.
  destruct (negb (Bool.eqb (String.eqb (CertFile cfg) "") (String.eqb (KeyFile cfg) ""))) eqn:P.
  - apply result_bind_ok in E as (? & _ & E). discriminate.
  - apply pair_together in P. honour E.
Qed.

Lemma LoadTLSConfig_honours k sys ca cert key t : LoadTLSConfig k sys ca cert key = Ok t ->
  honours k sys ca cert key "" t.
Proof.
  unfold LoadTLSConfig. intros E.
  destruct (negb (Bool.eqb (String.eqb cert "") (String.eqb key ""))) eqn:P; [discriminate|].
  apply pair_together in P. honour E.
Qed.

(** A link never gets less protection than its settings name.  Credentials
    are plaintext only when plaintext was asked for and no CA, certificate, key
    or server name is set; otherwise they are TLS 1.2 or later that verifies
    against the system roots, or against the named bundle, which was read and
    parsed, and presents the named client pair, which was loaded.  Half a client
    pair is refused.  The same holds of the MQTT link. *)
Theorem credentials_never_downgrade (k : K) :
  (forall cfg c, ClientCredentials k cfg = Ok c ->
     match c with
     | None => cfg = {| Insecure := true; CAFile := ""; CertFile := ""; KeyFile := ""; ServerName := "" |}
     | Some t => Insecure cfg = false /\
                 honours k false (CAFile cfg) (CertFile cfg) (KeyFile cfg) (ServerName cfg) t
     end) /\
  (forall sys ca cert key t, LoadTLSConfig k sys ca cert key = Ok t -> honours k sys ca cert key "" t).
Proof.
  split; [|apply LoadTLSConfig_honours].
  intros [ins ca cert key name] c. unfold ClientCredentials. cbn [Insecure CAFile CertFile KeyFile ServerName].
  destruct ins.
  - destruct (String.eqb_spec ca ""), (String.eqb_spec cert ""), (String.eqb_spec key ""),
      (String.eqb_spec name ""); cbn; try discriminate. intros [= <-]. congruence.
  - intros E. apply result_bind_ok in E as (t & E & [= <-]).
    split; [reflexivity|]. apply (TLSConfig_honours _ _ _ E).
Qed.

End WithPKI.

End Transport.

(** A host with one CA bundle and one key pair. *)
Module TransportExample.

#[export] Instance disk : PKI (list (string * string)) := {|
  read_file := fun k p => option_map snd (find (fun x => String.eqb (fst x) p) k);
  pem_parses := fun _ s => negb (String.eqb s "");
  load_pair := fun k c y => match find (fun x => String.eqb (fst x) c) k, find (fun x => String.eqb (fst x) y) k with
    | Some a, Some b => Some (snd a +:+ snd b) | _, _ => None end
|}.

Definition files : list (string * string) := [("ca.pem", "CA"); ("gw.crt", "C"); ("gw.key", "K")].
Definition mtls : Transport.Config :=
  {| Transport.Insecure := false; Transport.CAFile := "ca.pem"; Transport.CertFile := "gw.crt";
     Transport.KeyFile := "gw.key"; Transport.ServerName := "bos" |}.

Lemma credentials_never_downgrade_witness :
  exists t, Transport.ClientCredentials files mtls = Ok (Some t) /\
  Transport.honours files false "ca.pem" "gw.crt" "gw.key" "bos" t.
Proof.
  eexists. split; [reflexivity|].
  exact (proj2 (proj1 (Transport.credentials_never_downgrade files) mtls _ eq_refl)).
Defined.

End TransportExample.
