(* ===== verification/MqttMain.v ===== *)
(** * The MQTT connector's process

    [src/cmd/mqtt-connector/main.go]: the settings of the connector from its
    environment, each with its default, its check and its failure, up to the
    [Config] the connector runs with; [src/connector/sdk/health.go] and
    [metrics.go]: the wait for the gateway's stream, the readiness and metrics
    pages.

    The environment is a map of variables; files and certificates are those of
    [Transport].  The theorems show what every accepted configuration satisfies,
    that the limits in force are the ones the environment names, where a session
    expiry is truncated instead, and what the wait for the stream answers. *)

From Stdlib Require Import ZArith Lia Bool Ascii String List SpecFloat.
From stdpp Require Import base list strings gmap.
From S2P Require Import Prelude Json GoText Float GoTime Transport MqttTopics MqttSync MqttSession MqttIngest.
#[local] Open Scope string_scope.
#[local] Open Scope list_scope.
#[local] Open Scope Z_scope.
#[local] Open Scope go_scope.

(** ** Environment *)

Definition environ : Type := gmap string string.
Definition getenv (env : environ) (key : string) : string := default "" (env !! key).

Definition env_default (env : environ) (key def : string) : string :=
  if negb (String.eqb (getenv env key) "") then getenv env key else def.
Definition envAlias (env : environ) (primary alias : string) : string :=
  if negb (String.eqb (getenv env primary) "") then getenv env primary else getenv env alias.

(** A value that does not parse is ignored with a warning. *)
Definition envUint (env : environ) (key : string) (def : Z) : Z :=
  if negb (String.eqb (getenv env key) "") then default def (parse_u64 (getenv env key)) else def.

(** [None] is an error. *)
Definition parseDurationDefault (env : environ) (key : string) (def : Z) : option Z :=
  if String.eqb (getenv env key) "" then Some def else ParseDuration (getenv env key).

Definition isTruthy (value : string) : bool :=
  existsb (String.eqb (to_lower (trim_space value))) ["1"; "true"; "yes"; "on"].

(** ** Lists in JSON *)

Definition parseStringListEnv (raw : string) : option (list string) :=
  match parse raw with
  | None => None
  | Some v =>
    match decode_slice (decode_str "") v with
    | None => None
    | Some l => if existsb (fun s => String.eqb s "") l then None else Some l
    end
  end.

(** [pointEnv] has the fields of [PointConfig]. *)
Definition point_names : list string :=
  ["topic"; "device_ref"; "unit"; "writable"; "command_topic"; "payload_template"; "qos"; "command_qos"].
Definition point_set (f : string) (v : json) (p : PointConfig) : option PointConfig :=
  if String.eqb f "topic" then option_map (fun x => {| p with Topic := x |}) (decode_str (Topic p) v)
  else if String.eqb f "device_ref" then option_map (fun x => {| p with pc_DeviceRef := x |}) (decode_str (pc_DeviceRef p) v)
  else if String.eqb f "unit" then option_map (fun x => {| p with pc_Unit := x |}) (decode_str (pc_Unit p) v)
  else if String.eqb f "writable" then option_map (fun x => {| p with pc_Writable := x |}) (decode_bool (pc_Writable p) v)
  else if String.eqb f "command_topic" then option_map (fun x => {| p with CommandTopic := x |}) (decode_str (CommandTopic p) v)
  else if String.eqb f "payload_template" then option_map (fun x => {| p with PayloadTemplate := x |}) (decode_str (PayloadTemplate p) v)
  else if String.eqb f "qos" then option_map (fun x => {| p with QoS := x |}) (decode_u8 (QoS p) v)
  else option_map (fun x => {| p with CommandQoS := x |}) (decode_u8 (CommandQoS p) v).
Definition zero_point : PointConfig :=
  {| Topic := ""; pc_DeviceRef := ""; pc_Unit := ""; pc_Writable := false; CommandTopic := ""; PayloadTemplate := ""; QoS := 0;
     CommandQoS := 0 |}.

Definition loadPointEnv {K} `{PKI K} (k : K) (raw file : string) : option (list PointConfig) :=
  match (if negb (String.eqb file "") then read_file k file else Some raw) with
  | None => None
  | Some text =>
    match parse text with
    | None => None
    | Some v => decode_slice (decode_struct false point_names point_set zero_point) v
    end
  end.

Definition subscription_set (f : string) (v : json) (s : SubscriptionConfig) : option SubscriptionConfig :=
  if String.eqb f "filter" then option_map (fun x => {| s with Filter := x |}) (decode_str (Filter s) v)
  else option_map (fun x => {| s with sc_QoS := x |}) (decode_u8 (sc_QoS s) v).

Definition parseSubscriptionEnv (raw : string) : option (list SubscriptionConfig) :=
  match parse raw with
  | None => None
  | Some v =>
    match decode_slice (decode_struct false ["filter"; "qos"] subscription_set {| Filter := ""; sc_QoS := 0 |}) v with
    | None => None
    | Some l => if existsb (fun s => String.eqb (Filter s) "" || (1 <? sc_QoS s)) l then None else Some l
    end
  end.

(** ** The configuration *)

(** [Config]; [cf_skip] is [InsecureSkipVerify]. *)
Record conn_config := {
  cf_ConnectorID : string; cf_BrokerURL : string; cf_ClientID : string; cf_Username : string; cf_Password : option string;
  cf_KeepAlive : Z; cf_SessionExpiry : Z; cf_MaxPayloadBytes : Z; cf_TLS : Transport.tls_config; cf_skip : bool;
  cf_Subscriptions : list SubscriptionConfig; cf_IgnoreTopics : list string; cf_Points : list PointConfig;
  cf_FreshnessInterval : Z; cf_ReceiveMaximum : Z; cf_WildcardMinInterval : Z
}.

Inductive config_error :=
  KeepAliveTooBig | BadReceiveMaximum | BadFreshness | BadWildcardInterval | ZeroPayload | BadPoints | BadSubscriptions
| BadIgnoreTopics | BadPoint (e : point_error) | BadTLS (e : Transport.tls_error).

Definition need {E A} (o : option A) (e : E) : result E A := match o with Some a => Ok a | None => Err e end.
Definition check {E} (b : bool) (e : E) : result E unit := if b then Ok tt else Err e.

Section Load.
  Context {K : Type} `{PKI K} (k : K) (sys : bool).

(** [main], up to the connection to NATS. *)
Definition load_config (env : environ) : result config_error conn_config :=
  let connID := env_default env "CONNECTOR_ID" "mqtt-01" in
  let password := getenv env "MQTT_PASSWORD" in
  let keepAlive := envUint env "MQTT_KEEPALIVE" 30 in
  let! _ := check (negb (65535 <? keepAlive)) KeepAliveTooBig in
  let receiveMaximum := envUint env "MQTT_RECEIVE_MAXIMUM" defaultReceiveMaximum in
  let! _ := check (negb ((receiveMaximum =? 0) || (65535 <? receiveMaximum))) BadReceiveMaximum in
  let! freshness := need (parseDurationDefault env "MQTT_FRESHNESS_INTERVAL" (60 * second)) BadFreshness in
  let! wildcard := need (parseDurationDefault env "MQTT_WILDCARD_MIN_INTERVAL" (10 * second)) BadWildcardInterval in
  let! _ := check (negb (wildcard <? 0)) BadWildcardInterval in
  let maxPayload := envUint env "MQTT_MAX_PAYLOAD_BYTES" 1024 in
  let! _ := check (negb (maxPayload =? 0)) ZeroPayload in
  let! pts := need (loadPointEnv k (env_default env "MQTT_POINTS" "[]") (getenv env "MQTT_POINTS_FILE")) BadPoints in
  let! subs := need (parseSubscriptionEnv (env_default env "MQTT_SUBSCRIPTIONS" "[]")) BadSubscriptions in
  let! ignore := need (parseStringListEnv (env_default env "MQTT_IGNORE_TOPICS" "[]")) BadIgnoreTopics in
  let! _ := match ValidatePoints pts with Some e => Err (BadPoint e) | None => Ok tt end in
  match Transport.LoadTLSConfig k sys (envAlias env "MQTT_TLS_CA_FILE" "MQTT_CA_FILE")
          (envAlias env "MQTT_TLS_CERT_FILE" "MQTT_CERT_FILE") (envAlias env "MQTT_TLS_KEY_FILE" "MQTT_KEY_FILE") with
  | Err e => Err (BadTLS e)
  | Ok tls =>
    Ok {| cf_ConnectorID := connID; cf_BrokerURL := env_default env "MQTT_BROKER_URL" "mqtt://localhost:1883";
          cf_ClientID := env_default env "MQTT_CLIENT_ID" connID; cf_Username := getenv env "MQTT_USERNAME";
          cf_Password := if String.eqb password "" then None else Some password;
          cf_KeepAlive := keepAlive; cf_SessionExpiry := envUint env "MQTT_SESSION_EXPIRY" 0 mod 2 ^ 32;
          cf_MaxPayloadBytes := maxPayload; cf_TLS := tls; cf_skip := isTruthy (getenv env "MQTT_TLS_INSECURE_SKIP_VERIFY");
          cf_Subscriptions := subs; cf_IgnoreTopics := ignore; cf_Points := pts; cf_FreshnessInterval := freshness;
          cf_ReceiveMaximum := receiveMaximum; cf_WildcardMinInterval := if wildcard =? 0 then -1 else wildcard |}
  end.
End Load.

(** What the data path of the connector takes of it. *)
Definition ingest_config (cfg : conn_config) : mqtt_config :=
  {| mc_ConnectorID := cf_ConnectorID cfg; mc_Ignore := list_to_set (cf_IgnoreTopics cfg);
     mc_WildcardMinInterval := cf_WildcardMinInterval cfg; mc_MaxPayloadBytes := cf_MaxPayloadBytes cfg |}.

(** ** Around a connector *)

(** [HealthHandler]: status and body. *)
Definition quote1 (s : string) : string := String (chr 34) (s +:+ String (chr 34) "").
Definition HealthHandler (is_ready : bool) : Z * string :=
  if is_ready then (200, "{" +:+ quote1 "status" +:+ ":" +:+ quote1 "ok" +:+ "}")
  else (503, "{" +:+ quote1 "status" +:+ ":" +:+ quote1 "degraded" +:+ "}").

Record Metric := { mt_Name : string; mt_Help : string; mt_Type : string; mt_Value : Z }.

Definition newline : string := String (chr 10) "".
Definition metric_text (m : Metric) : string :=
  "# HELP " +:+ mt_Name m +:+ " " +:+ mt_Help m +:+ newline +:+ "# TYPE " +:+ mt_Name m +:+ " " +:+ mt_Type m +:+ newline
  +:+ mt_Name m +:+ " " +:+ itoa (mt_Value m) +:+ newline.
Definition MetricsHandler (collect : option (list Metric)) : string :=
  match collect with None => "" | Some l => join "" (map metric_text l) end.

(** [Duration.Seconds]. *)
Definition seconds_of (d : Z) : spec_float :=
  fadd (f64_of_Z (Z.quot d second)) (fdiv (f64_of_Z (Z.rem d second)) (f64_of_Z second)).

(** [Connector.Metrics]. *)
Definition Metrics (c : ingest) (now : Z) : list Metric :=
  [{| mt_Name := "mqtt_received_total"; mt_Type := "counter";
      mt_Help := "MQTT messages received from the broker, before topic filtering."; mt_Value := ig_received c |};
   {| mt_Name := "mqtt_published_total"; mt_Type := "counter";
      mt_Help := "Common Events published to JetStream from received broker messages."; mt_Value := ig_published c |};
   {| mt_Name := "mqtt_publish_error_total"; mt_Type := "counter";
      mt_Help := "JetStream publish failures; each failed frame is retried with backoff until it lands."; mt_Value := ig_errors c |};
   {| mt_Name := "mqtt_wildcard_throttled_total"; mt_Type := "counter";
      mt_Help := "Messages dropped because their topic matched only a wildcard Point and repeated within the minimum interval.";
      mt_Value := ig_throttled c |};
   {| mt_Name := "mqtt_publish_stalled_seconds"; mt_Type := "gauge";
      mt_Help := "Seconds JetStream publishes have been failing continuously; 0 while publishing succeeds.";
      mt_Value := f64_trunc (seconds_of (publishStalled (ig_failingSince c) now)) |}].

(** One round of [AwaitStream]: whether the stream answered, whether the context
    had ended by then, whether it ended during the pause. *)
Record await_round := { aw_stream : bool; aw_ended : bool; aw_pause_ended : bool }.
Inductive await_result := StreamReady | AwaitCancelled | Waiting.

Fixpoint AwaitStream (rounds : list await_round) : await_result :=
  match rounds with
  | [] => Waiting
  | r :: rest =>
    if aw_stream r then StreamReady
    else if aw_ended r then AwaitCancelled
    else if aw_pause_ended r then AwaitCancelled
    else AwaitStream rest
  end.

(** ** What a configuration satisfies *)

Lemma check_bind {E A} b (e : E) (r : unit -> result E A) x : result_bind (check b e) r = Ok x -> b = true /\ r tt = Ok x.
Proof. destruct b; [done|discriminate]. Qed.
Lemma need_bind {E A B} (o : option A) (e : E) (r : A -> result E B) x :
  result_bind (need o e) r = Ok x -> exists a, o = Some a /\ r a = Ok x.
Proof. destruct o; [by eauto|discriminate]. Qed.

Lemma envUint_range env key def : 0 <= def < 2 ^ 64 -> 0 <= envUint env key def < 2 ^ 64.
Proof.
  intros Hd. unfold envUint. case_if; [|done]. unfold parse_u64. case_if; [|done]. cbn. bools. split; [|done].
  assert (forall s x, 0 <= x -> all_digits s = true -> 0 <= digits_val x s) as Hp; [|by apply Hp].
  induction s as [|c s IH]; intros x Hx; [done|]. cbn. intros [Hc Hs]%andb_true_iff. apply IH; [|done].
  pose proof (digit_value c Hc). lia.
Qed.

Lemma none_such {A} (f : A -> bool) (P : A -> Prop) l : existsb f l = false -> (forall x, f x = false -> P x) -> Forall P l.
Proof.
  intros E Hp. apply Forall_forall. intros x Hx. apply Hp. apply list_elem_of_In in Hx.
  destruct (f x) eqn:Ef; [|done]. rewrite <- E. symmetry. apply existsb_exists. by exists x.
Qed.
Lemma subscriptions_ok raw l : parseSubscriptionEnv raw = Some l -> Forall (fun s => Filter s <> "" /\ sc_QoS s <= 1) l.
Proof.
  unfold parseSubscriptionEnv. destruct (parse raw); [|done]. destruct (decode_slice _ _) as [l'|]; [|done].
  destruct (existsb _ l') eqn:E; [done|]. intros [= <-]. apply (none_such _ _ _ E). intros s Hs. bools.
  split; [by apply String.eqb_neq|done].
Qed.
Lemma string_list_ok raw l : parseStringListEnv raw = Some l -> Forall (fun t => t <> "") l.
Proof.
  unfold parseStringListEnv. destruct (parse raw); [|done]. destruct (decode_slice _ _) as [l'|]; [|done].
  destruct (existsb _ l') eqn:E; [done|]. intros [= <-]. apply (none_such _ _ _ E). intros s Hs. by apply String.eqb_neq.
Qed.

(** The minimum gap the environment asks for. *)
Definition asked_gap (env : environ) : option Z := parseDurationDefault env "MQTT_WILDCARD_MIN_INTERVAL" (10 * second).

(** C38: a configuration the process accepts is one the connector can run: the
    16-bit settings fit their packets and no limit is zero by accident, every
    point is sound and every static filter non-empty with a QoS the data path
    acknowledges, no ignored topic is empty, TLS is what the certificate
    settings name; and the limits the data path enforces are exactly the ones
    the environment asks for, a zero gap meaning no limit. *)
Theorem load_config_sound {K} `{PKI K} (k : K) sys env cfg : load_config k sys env = Ok cfg ->
  0 <= cf_KeepAlive cfg <= 65535 /\ 1 <= cf_ReceiveMaximum cfg <= 65535 /\
  receiveMaximum (cf_ReceiveMaximum cfg) = cf_ReceiveMaximum cfg /\
  0 < cf_MaxPayloadBytes cfg < 2 ^ 64 /\ maxPayloadBytes (ingest_config cfg) = envUint env "MQTT_MAX_PAYLOAD_BYTES" 1024 /\
  Forall sound_point (cf_Points cfg) /\
  Forall (fun s => Filter s <> "" /\ sc_QoS s <= 1) (cf_Subscriptions cfg) /\
  Forall (fun t => t <> "") (cf_IgnoreTopics cfg) /\
  Some (wildcardMinInterval (mc_WildcardMinInterval (ingest_config cfg))) = asked_gap env /\
  Transport.honours k sys (envAlias env "MQTT_TLS_CA_FILE" "MQTT_CA_FILE") (envAlias env "MQTT_TLS_CERT_FILE" "MQTT_CERT_FILE")
    (envAlias env "MQTT_TLS_KEY_FILE" "MQTT_KEY_FILE") "" (cf_TLS cfg).
Proof.
  unfold load_config. intros E. apply check_bind in E as [Hk E]. apply check_bind in E as [Hr E].
  apply need_bind in E as (fresh & _ & E). apply need_bind in E as (gap & Hg & E). apply check_bind in E as [Hgap E].
  apply check_bind in E as [Hm E]. apply need_bind in E as (pts & _ & E). apply need_bind in E as (subs & Hsub & E).
  apply need_bind in E as (ign & Hi & E). destruct (ValidatePoints pts) eqn:Hv; [discriminate|]. cbn [result_bind] in E.
  destruct (Transport.LoadTLSConfig _ _ _ _ _) as [tls|] eqn:Ht; [|discriminate]. injection E as <-.
  cbn [cf_KeepAlive cf_ReceiveMaximum cf_MaxPayloadBytes cf_Points cf_Subscriptions cf_IgnoreTopics cf_TLS cf_WildcardMinInterval].
  pose proof (envUint_range env "MQTT_KEEPALIVE" 30 ltac:(lia)). pose proof (envUint_range env "MQTT_MAX_PAYLOAD_BYTES" 1024 ltac:(lia)).
  pose proof (envUint_range env "MQTT_RECEIVE_MAXIMUM" defaultReceiveMaximum ltac:(unfold defaultReceiveMaximum; lia)). bools.
  split; [lia|]. split; [lia|]. split; [unfold receiveMaximum; by destruct (Z.eqb_spec (envUint env "MQTT_RECEIVE_MAXIMUM" defaultReceiveMaximum) 0)|].
  split; [lia|]. split; [|split; [|split; [|split; [|split]]]].
  - unfold maxPayloadBytes. cbn [ingest_config mc_MaxPayloadBytes cf_MaxPayloadBytes].
    by destruct (Z.eqb_spec (envUint env "MQTT_MAX_PAYLOAD_BYTES" 1024) 0).
  - apply Forall_forall. intros p Hp. apply list_elem_of_In in Hp. destruct (validate_none 0 pts Hv p Hp) as [j Hj].
    by apply (point_check_none j).
  - by apply subscriptions_ok in Hsub.
  - by apply string_list_ok in Hi.
  - unfold asked_gap. rewrite Hg. f_equal. cbn [ingest_config mc_WildcardMinInterval cf_WildcardMinInterval]. unfold wildcardMinInterval.
    destruct (Z.eqb_spec gap 0) as [->|]; [done|]. destruct (Z.eqb_spec gap 0); [done|]. by destruct (Z.ltb_spec gap 0); [lia|].
  - by apply Transport.LoadTLSConfig_honours.
Qed.

(** Any expiry of 2^32 seconds or more is taken modulo 2^32: asking for
    4294967296 gives a session that ends on disconnect. *)
Theorem session_expiry_wraps {K} `{PKI K} (k : K) sys env cfg : load_config k sys env = Ok cfg ->
  getenv env "MQTT_SESSION_EXPIRY" = "4294967296" -> cf_SessionExpiry cfg = 0.
Proof.
  unfold load_config. intros E He. do 2 apply check_bind in E as [_ E]. do 2 apply need_bind in E as (? & _ & E).
  do 2 apply check_bind in E as [_ E]. do 3 apply need_bind in E as (? & _ & E).
  destruct (ValidatePoints _); [discriminate|]. cbn [result_bind] in E. destruct (Transport.LoadTLSConfig _ _ _ _ _); [|discriminate].
  injection E as <-. cbn [cf_SessionExpiry]. unfold envUint. rewrite He. vm_compute. reflexivity.
Qed.

(** the wait for the gateway's stream ends exactly when the stream first
    answers, if the context lived until then, and as cancelled as soon as the
    context ends; it never returns without one of the two. *)
Theorem AwaitStream_exact rounds :
  match AwaitStream rounds with
  | StreamReady => exists pre r post, rounds = pre ++ r :: post /\ aw_stream r = true /\
      forall x, x ∈ pre -> aw_stream x = false /\ aw_ended x = false /\ aw_pause_ended x = false
  | AwaitCancelled => exists pre r post, rounds = pre ++ r :: post /\ aw_stream r = false /\
      (aw_ended r = true \/ aw_pause_ended r = true) /\
      forall x, x ∈ pre -> aw_stream x = false /\ aw_ended x = false /\ aw_pause_ended x = false
  | Waiting => forall x, x ∈ rounds -> aw_stream x = false /\ aw_ended x = false /\ aw_pause_ended x = false
  end.
Proof.
  induction rounds as [|r l IH]; cbn [AwaitStream]; [intros x Hx; by apply not_elem_of_nil in Hx|].
  assert (forall x, x ∈ @nil await_round -> aw_stream x = false /\ aw_ended x = false /\ aw_pause_ended x = false) as Hnil
    by (intros x Hx; by apply not_elem_of_nil in Hx).
  destruct (aw_stream r) eqn:Es; [by exists [], r, l|].
  destruct (aw_ended r) eqn:Ee; [exists [], r, l; by auto|]. destruct (aw_pause_ended r) eqn:Ep; [exists [], r, l; by auto|].
  destruct (AwaitStream l).
  - destruct IH as (pre & x & post & -> & Hx & Hpre). exists (r :: pre), x, post. split_and!; [done..|]. set_solver.
  - destruct IH as (pre & x & post & -> & Hx & He & Hpre). exists (r :: pre), x, post. split_and!; [done..|]. set_solver.
  - set_solver.
Qed.

(** The environment of the shipped container, with one point. *)
Module MqttMainExample.

Definition points_text : string := marshal (JArr [JObj [("topic", JStr "a/x"); ("qos", JNum "1")]]).
Definition env : environ :=
  {["MQTT_POINTS" := points_text; "MQTT_WILDCARD_MIN_INTERVAL" := "0"; "MQTT_KEEPALIVE" := "abc"; "MQTT_SESSION_EXPIRY" := "4294967296";
    "MQTT_CERT_FILE" := "gw.crt"; "MQTT_TLS_KEY_FILE" := "gw.key"]}.
Definition loaded := load_config (H := TransportExample.disk) TransportExample.files true env.

Lemma load_config_sound_witness : exists cfg, loaded = Ok cfg /\ 1 <= cf_ReceiveMaximum cfg <= 65535.
Proof.
  destruct loaded as [cfg|e] eqn:E; [|vm_compute in E; discriminate]. exists cfg. split; [reflexivity|].
  exact (proj1 (proj2 (load_config_sound (H := TransportExample.disk) TransportExample.files true env cfg E))).
Defined.
Example loaded_values : match loaded with
  | Ok c => (cf_KeepAlive c, cf_SessionExpiry c, cf_WildcardMinInterval c, length (cf_Points c), cf_FreshnessInterval c)
            = (30, 0, -1, 1%nat, 60 * second)
  | Err _ => False end.
Proof. vm_compute. reflexivity. Qed.
End MqttMainExample.
