(* ===== verification/Provisioning.v ===== *)
(** * Provisioning clients

    [src/internal/provisioning]: where the point list comes from.  [Client] is
    the interface, with the HTTP client of Building OS, the file client, the
    in-memory [Mock], and [FallbackClient], which serves a local source until
    Building OS first answers.  HTTP exchanges and file reads are inputs.  The
    theorems give the results of the HTTP client on every response, the exact
    calls a fallback client makes over any sequence of fetches, and that the
    file client serves back a snapshot the gateway wrote. *)

From Stdlib Require Import ZArith Lia Bool Ascii String List.
From stdpp Require Import base list strings gmap.
From S2P Require Import Prelude Json GoText Sha256 PointList Transport.
#[local] Open Scope string_scope.
#[local] Open Scope list_scope.
#[local] Open Scope Z_scope.

(** ** The interface *)

Record FetchResult := {
  ETag : string;
  Full : bool;
  Entries : list Entry;
  Added : list Entry;
  Removed : list string;
  Changed : list Entry
}.

(** [Ok None] is 304 Not Modified. *)
Class Client (C : Type) := Fetch : C -> string -> C * result unit (option FetchResult).

(** ** The HTTP client *)

Record request := { rq_url : string; rq_if_none_match : option string }.
Record response := { rs_status : Z; rs_etag : string; rs_body : string }.

(** One exchange; [None] is an unusable URL or a transport failure. *)
Class HttpDo (K : Type) := http_do : K -> request -> K * option response.

Inductive prov_log :=
| LogProvFallback (proto pointID : string)
| LogProvUnmapped (proto pointID : string)
| LogProvUnknown (pointID localID : string)
| LogNoETag.

Record HTTPClient (K : Type) := {
  baseURL : string;
  hc_gatewayID : string;
  hc_connectorMap : gmap string string;
  hc_http : K;
  fallbackConnectorID : string;
  warnedUnmapped : gset string;
  hc_log : list prov_log
}.
Arguments baseURL {K} _.
Arguments hc_gatewayID {K} _.
Arguments hc_connectorMap {K} _.
Arguments hc_http {K} _.
Arguments fallbackConnectorID {K} _.
Arguments warnedUnmapped {K} _.
Arguments hc_log {K} _.

Record nativeAddressing := { n_protocol : string; n_deviceId : string; n_objectType : string; n_instanceNo : string }.
Record controlSchema := { cs_dataType : string; cs_minValue : string; cs_maxValue : string; cs_enumLabels : string }.
Record deviceRef := { d_dtId : string; d_id : string; d_name : string }.

Record gatewayPointDTO := {
  dto_PointID : string;
  dto_LocalID : string;
  dto_Protocol : string;
  dto_ReleaseOf : string;
  dto_Native : option nativeAddressing;
  dto_Unit : string;
  dto_Writable : option bool;
  dto_ControlSchema : option controlSchema;
  dto_Device : option deviceRef
}.

Record pointListResponse := {
  pr_GatewayID : string; pr_Revision : string; pr_Since : string; pr_Full : bool;
  pr_Points : list gatewayPointDTO; pr_Added : list gatewayPointDTO;
  pr_Removed : list string; pr_Changed : list gatewayPointDTO
}.

(** *** Decoding *)

(** [strict] is [DisallowUnknownFields], which only the clock snapshot sets.
    A struct all of whose fields are strings, as the list of its values. *)
Fixpoint set_nth (names vals : list string) (f : string) (v : json) : option (list string) :=
  match names, vals with
  | n :: ns, x :: xs =>
    if String.eqb n f then option_map (fun s => s :: xs) (decode_str x v)
    else option_map (cons x) (set_nth ns xs f v)
  | _, _ => Some vals
  end.

Definition decode_strings (strict : bool) (names : list string) (cur : list string) : json -> option (list string) :=
  decode_struct strict names (fun f v vals => set_nth names vals f v) cur.

(** A pointer to [A]: [null] is nil, anything else decodes into the value
    pointed to, fresh when there is none. *)
Definition decode_ptr {A} (dec : A -> json -> option A) (zero : A) (cur : option A) (v : json)
  : option (option A) :=
  match v with JNull => Some None | _ => option_map Some (dec (default zero cur) v) end.

Definition native_names : list string := ["protocol"; "deviceId"; "objectType"; "instanceNo"].
Definition native_dec (strict : bool) (x : nativeAddressing) (v : json) : option nativeAddressing :=
  match decode_strings strict native_names [n_protocol x; n_deviceId x; n_objectType x; n_instanceNo x] v with
  | Some [a; b; c; d] => Some {| n_protocol := a; n_deviceId := b; n_objectType := c; n_instanceNo := d |}
  | _ => None
  end.

Definition schema_names : list string := ["dataType"; "minValue"; "maxValue"; "enumLabels"].
Definition schema_dec (strict : bool) (x : controlSchema) (v : json) : option controlSchema :=
  match decode_strings strict schema_names [cs_dataType x; cs_minValue x; cs_maxValue x; cs_enumLabels x] v with
  | Some [a; b; c; d] => Some {| cs_dataType := a; cs_minValue := b; cs_maxValue := c; cs_enumLabels := d |}
  | _ => None
  end.
Definition schema_json (x : controlSchema) : json :=
  JObj (omit_empty "dataType" (cs_dataType x) ++ omit_empty "minValue" (cs_minValue x)
        ++ omit_empty "maxValue" (cs_maxValue x) ++ omit_empty "enumLabels" (cs_enumLabels x)).

Definition device_names : list string := ["dtId"; "id"; "name"].
Definition device_dec (strict : bool) (x : deviceRef) (v : json) : option deviceRef :=
  match decode_strings strict device_names [d_dtId x; d_id x; d_name x] v with
  | Some [a; b; c] => Some {| d_dtId := a; d_id := b; d_name := c |}
  | _ => None
  end.

Definition zero_dto : gatewayPointDTO :=
  {| dto_PointID := ""; dto_LocalID := ""; dto_Protocol := ""; dto_ReleaseOf := ""; dto_Native := None;
     dto_Unit := ""; dto_Writable := None; dto_ControlSchema := None; dto_Device := None |}.

Definition dto_names : list string :=
  ["pointId"; "localId"; "protocol"; "releaseOf"; "native"; "unit"; "writable"; "controlSchema"; "device"].

Definition dto_set (strict : bool) (f : string) (v : json) (d : gatewayPointDTO) : option gatewayPointDTO :=
  if String.eqb f "pointId" then option_map (fun s => {| d with dto_PointID := s |}) (decode_str (dto_PointID d) v)
  else if String.eqb f "localId" then option_map (fun s => {| d with dto_LocalID := s |}) (decode_str (dto_LocalID d) v)
  else if String.eqb f "protocol" then option_map (fun s => {| d with dto_Protocol := s |}) (decode_str (dto_Protocol d) v)
  else if String.eqb f "releaseOf" then option_map (fun s => {| d with dto_ReleaseOf := s |}) (decode_str (dto_ReleaseOf d) v)
  else if String.eqb f "native" then
    option_map (fun s => {| d with dto_Native := s |}) (decode_ptr (native_dec strict) (Build_nativeAddressing "" "" "" "") (dto_Native d) v)
  else if String.eqb f "unit" then option_map (fun s => {| d with dto_Unit := s |}) (decode_str (dto_Unit d) v)
  else if String.eqb f "writable" then
    option_map (fun s => {| d with dto_Writable := s |}) (decode_ptr decode_bool false (dto_Writable d) v)
  else if String.eqb f "controlSchema" then
    option_map (fun s => {| d with dto_ControlSchema := s |})
      (decode_ptr (schema_dec strict) (Build_controlSchema "" "" "" "") (dto_ControlSchema d) v)
  else if String.eqb f "device" then
    option_map (fun s => {| d with dto_Device := s |}) (decode_ptr (device_dec strict) (Build_deviceRef "" "" "") (dto_Device d) v)
  else Some d.

Definition dto_dec (strict : bool) : gatewayPointDTO -> json -> option gatewayPointDTO :=
  decode_struct strict dto_names (dto_set strict).
Definition dto_unjson : json -> option gatewayPointDTO := dto_dec false zero_dto.

Definition resp_names : list string :=
  ["gatewayId"; "revision"; "since"; "full"; "points"; "added"; "removed"; "changed"].

Definition resp_set (f : string) (v : json) (r : pointListResponse) : option pointListResponse :=
  if String.eqb f "gatewayId" then option_map (fun s => {| r with pr_GatewayID := s |}) (decode_str (pr_GatewayID r) v)
  else if String.eqb f "revision" then option_map (fun s => {| r with pr_Revision := s |}) (decode_str (pr_Revision r) v)
  else if String.eqb f "since" then option_map (fun s => {| r with pr_Since := s |}) (decode_str (pr_Since r) v)
  else if String.eqb f "full" then option_map (fun s => {| r with pr_Full := s |}) (decode_bool (pr_Full r) v)
  else if String.eqb f "points" then option_map (fun s => {| r with pr_Points := s |}) (decode_slice dto_unjson v)
  else if String.eqb f "added" then option_map (fun s => {| r with pr_Added := s |}) (decode_slice dto_unjson v)
  else if String.eqb f "removed" then
    option_map (fun s => {| r with pr_Removed := s |}) (decode_slice (decode_str "") v)
  else if String.eqb f "changed" then option_map (fun s => {| r with pr_Changed := s |}) (decode_slice dto_unjson v)
  else Some r.

Definition zero_resp : pointListResponse :=
  {| pr_GatewayID := ""; pr_Revision := ""; pr_Since := ""; pr_Full := false; pr_Points := [];
     pr_Added := []; pr_Removed := []; pr_Changed := [] |}.

(** [json.NewDecoder(body).Decode(&r)]: the first value; what follows is not
    read. *)
Definition resp_decode (body : string) : option pointListResponse :=
  match parse_prefix body with
  | Some (v, _) => decode_struct false resp_names resp_set zero_resp v
  | None => None
  end.

(** *** Construction *)

Record TLSOptions := { to_CAFile : string; to_CertFile : string; to_KeyFile : string; to_ServerName : string }.

Definition configured (o : TLSOptions) : bool :=
  negb (String.eqb (to_CAFile o) "") || negb (String.eqb (to_CertFile o) "")
  || negb (String.eqb (to_KeyFile o) "") || negb (String.eqb (to_ServerName o) "").

Inductive new_client_error := BadURL | NotHTTPS | TLSError (e : Transport.tls_error) | NoDefaultTransport.

(** [scheme] is the scheme [url.Parse] finds in [baseURL], if it parses;
    [default_ok] is whether [http.DefaultTransport] is an [*http.Transport];
    [dial] is the link a TLS configuration, or none, gives. *)
Definition NewHTTPClient {K P} `{PKI P} (k : P) (scheme : option string) (default_ok : bool)
    (dial : option Transport.tls_config -> K)
    (baseURL gatewayID : string) (connectorMap : gmap string string) (tlsOpts : TLSOptions)
  : result new_client_error (HTTPClient K) :=
  let client t :=
    {| baseURL := baseURL; hc_gatewayID := gatewayID; hc_connectorMap := connectorMap;
       hc_http := dial t; fallbackConnectorID := ""; warnedUnmapped := ∅; hc_log := [] |} in
  if configured tlsOpts then
    match scheme with
    | None => Err BadURL
    | Some s =>
      if negb (String.eqb s "https") then Err NotHTTPS
      else
        match Transport.TLSConfig k
                {| Transport.Insecure := false; Transport.CAFile := to_CAFile tlsOpts;
                   Transport.CertFile := to_CertFile tlsOpts; Transport.KeyFile := to_KeyFile tlsOpts;
                   Transport.ServerName := to_ServerName tlsOpts |} with
        | Err e => Err (TLSError e)
        | Ok t => if default_ok then Ok (client (Some t)) else Err NoDefaultTransport
        end
    end
  else Ok (client None).

Definition WithFallbackConnectorID {K} (c : HTTPClient K) (id : string) : HTTPClient K :=
  {| c with fallbackConnectorID := id |}.

(** *** Mapping points to entries *)

Definition connectorFor {K} (c : HTTPClient K) (protocol pointID : string) : HTTPClient K * string :=
  let id := default "" (hc_connectorMap c !! protocol) in
  if negb (String.eqb id "") then (c, id)
  else
    (if decide (protocol ∈ warnedUnmapped c) then c
     else {| c with warnedUnmapped := {[protocol]} ∪ warnedUnmapped c;
                    hc_log := hc_log c ++
                      [if negb (String.eqb (fallbackConnectorID c) "") then LogProvFallback protocol pointID
                       else LogProvUnmapped protocol pointID] |},
     fallbackConnectorID c).

(** The local id and the device of a point. *)
Definition dto_local (dto : gatewayPointDTO) : string :=
  match dto_Native dto with
  | Some n => if negb (String.eqb (n_objectType n) "") || negb (String.eqb (n_instanceNo n) "")
              then n_objectType n +:+ "," +:+ n_instanceNo n else dto_LocalID dto
  | None => dto_LocalID dto
  end.

Definition dto_device (dto : gatewayPointDTO) : string :=
  let dev := match dto_Native dto with Some n => n_deviceId n | None => "" end in
  match dto_Device dto with
  | Some d => if String.eqb dev "" then d_id d else dev
  | None => dev
  end.

(** The protocol the server names, before inference. *)
Definition dto_protocol (dto : gatewayPointDTO) : string :=
  let p := to_lower (trim_space (dto_Protocol dto)) in
  match dto_Native dto with
  | Some n => if String.eqb p "" then to_lower (trim_space (n_protocol n)) else p
  | None => p
  end.

Definition mapDTO {K} (c : HTTPClient K) (dto : gatewayPointDTO) : HTTPClient K * Entry :=
  let localID := dto_local dto in
  let schema := match dto_ControlSchema dto with Some s => marshal (schema_json s) | None => "" end in
  let entry proto cid :=
    mkEntry (dto_ReleaseOf dto) cid proto localID (dto_PointID dto) (dto_Unit dto)
      (default false (dto_Writable dto)) (dto_device dto) schema in
  let protocol := dto_protocol dto in
  if negb (String.eqb (dto_ReleaseOf dto) "") then
    (c, entry protocol (default "" (hc_connectorMap c !! protocol)))
  else
    let protocol := if String.eqb protocol "" then InferProtocol localID else protocol in
    let '(c, protocol) :=
      if String.eqb protocol "" then
        ({| c with hc_log := hc_log c ++ [LogProvUnknown (dto_PointID dto) localID] |}, "unknown")
      else (c, protocol) in
    let '(c, cid) := connectorFor c protocol (dto_PointID dto) in
    (c, entry protocol cid).

Fixpoint mapDTOs {K} (c : HTTPClient K) (dtos : list gatewayPointDTO) : HTTPClient K * list Entry :=
  match dtos with
  | [] => (c, [])
  | d :: ds =>
    let '(c, e) := mapDTO c d in
    let '(c, es) := mapDTOs c ds in
    (c, e :: es)
  end.

(** *** Fetching *)

Definition http_url {K} (c : HTTPClient K) (knownETag : string) : string :=
  baseURL c +:+ "/gateways/" +:+ path_escape (hc_gatewayID c) +:+ "/pointlist"
  +:+ (if String.eqb knownETag "" then "" else "?since=" +:+ query_escape knownETag).

Definition http_request {K} (c : HTTPClient K) (knownETag : string) : request :=
  {| rq_url := http_url c knownETag;
     rq_if_none_match := if String.eqb knownETag "" then None else Some knownETag |}.

Definition response_etag (resp : response) (body : pointListResponse) : string :=
  if String.eqb (rs_etag resp) "" then pr_Revision body else rs_etag resp.

Definition http_result {K} (c : HTTPClient K) (knownETag : string) (resp : response)
    (body : pointListResponse) : HTTPClient K * FetchResult :=
  let etag := response_etag resp body in
  let c := if String.eqb etag "" then {| c with hc_log := hc_log c ++ [LogNoETag] |} else c in
  if String.eqb knownETag "" || pr_Full body then
    let '(c, es) := mapDTOs c (pr_Points body) in
    (c, {| ETag := etag; Full := true; Entries := es; Added := []; Removed := []; Changed := [] |})
  else
    let '(c, added) := mapDTOs c (pr_Added body) in
    let '(c, changed) := mapDTOs c (pr_Changed body) in
    (c, {| ETag := etag; Full := false; Entries := []; Added := added; Removed := pr_Removed body;
           Changed := changed |}).

Definition http_Fetch {K} `{HttpDo K} (c : HTTPClient K) (knownETag : string)
  : HTTPClient K * result unit (option FetchResult) :=
  let '(k, r) := http_do (hc_http c) (http_request c knownETag) in
  let c := {| c with hc_http := k |} in
  match r with
  | None => (c, Err tt)
  | Some resp =>
    if rs_status resp =? 304 then (c, Ok None)
    else if negb (rs_status resp =? 200) then (c, Err tt)
    else
      match resp_decode (rs_body resp) with
      | None => (c, Err tt)
      | Some body => let '(c, res) := http_result c knownETag resp body in (c, Ok (Some res))
      end
  end.

#[export] Instance http_client {K} `{HttpDo K} : Client (HTTPClient K) := http_Fetch.

(** ** The file client *)

Record FileClient := { fc_path : string; fc_connectorID : string; fc_connectorMap : gmap string string }.

Definition file_parse (c : FileClient) (data : string) : option (list Entry) :=
  let lower := to_lower (fc_path c) in
  if has_suffix lower ".csv" then
    match LoadCSV (Ok data) {| opt_ConnectorID := fc_connectorID c; opt_ConnectorMap := fc_connectorMap c |} with
    | Ok (es, _) => Some es
    | Err _ => None
    end
  else if has_suffix lower ".json" then entries_unjson data
  else None.

(** [file] is what [os.ReadFile] returned. *)
Definition file_Fetch (c : FileClient) (file : result file_error string) (knownETag : string)
  : result unit (option FetchResult) :=
  match file with
  | Err _ => Err tt
  | Ok data =>
    let etag := sha256_hex data in
    if String.eqb etag knownETag then Ok None
    else match file_parse c data with
         | None => Err tt
         | Some es => Ok (Some {| ETag := etag; Full := true; Entries := es; Added := []; Removed := [];
                                  Changed := [] |})
         end
  end.

(** The file client against a sequence of file states: each fetch reads the
    file as it is then. *)
Record FileOn := { fo_client : FileClient; fo_reads : list (result file_error string) }.
#[export] Instance file_client : Client FileOn := fun c known =>
  match fo_reads c with
  | [] => (c, file_Fetch (fo_client c) (Err NotExist) known)
  | f :: fs => ({| fo_client := fo_client c; fo_reads := fs |}, file_Fetch (fo_client c) f known)
  end.

(** ** The mock *)

Record Mock := { mock_entries : list Entry; mock_etag : string; fetchCalls : Z }.

(** [es] is [None] for a nil slice, which marshals as [null]. *)
Definition setEntries (m : Mock) (es : option (list Entry)) : Mock :=
  let doc := match es with Some l => JArr (map entry_json l) | None => JNull end in
  {| mock_entries := default [] es;
     mock_etag := String.substring 0 16 (sha256_hex (marshal doc));
     fetchCalls := fetchCalls m |}.

Definition NewMock (es : option (list Entry)) : Mock :=
  setEntries {| mock_entries := []; mock_etag := ""; fetchCalls := 0 |} es.

#[export] Instance mock_client : Client Mock := fun m knownETag =>
  let m := {| m with fetchCalls := i64 (fetchCalls m + 1) |} in
  if String.eqb knownETag (mock_etag m) then (m, Ok None)
  else (m, Ok (Some {| ETag := mock_etag m; Full := true; Entries := mock_entries m; Added := [];
                       Removed := []; Changed := [] |})).

(** ** The fallback client *)

Record FallbackClient (P S : Type) := {
  primary : P;
  secondary : S;
  promoted : bool;
  (** Calls of [onPromote], oldest first, when one is registered. *)
  onPromote : option (list string)
}.
Arguments primary {P S} _.
Arguments secondary {P S} _.
Arguments promoted {P S} _.
Arguments onPromote {P S} _.

Definition NewFallbackClient {P S} (p : P) (s : S) : FallbackClient P S :=
  {| primary := p; secondary := s; promoted := false; onPromote := None |}.

Definition OnPromote {P S} (f : FallbackClient P S) : FallbackClient P S := {| f with onPromote := Some [] |}.

(** [promote] mutates the result it is given. *)
Definition forced (r : FetchResult) : FetchResult :=
  {| r with Full := true; Added := []; Removed := []; Changed := [] |}.

Definition promote {P S} (f : FallbackClient P S) (result : option FetchResult)
  : FallbackClient P S * option FetchResult :=
  let etag := match result with Some r => ETag r | None => "" end in
  ({| f with promoted := true; onPromote := option_map (fun calls => calls ++ [etag]) (onPromote f) |},
   option_map forced result).

Definition fallback_Fetch {P S} `{Client P} `{Client S} (f : FallbackClient P S) (knownETag : string)
  : FallbackClient P S * result unit (option FetchResult) :=
  if promoted f then
    let '(p, r) := Fetch (primary f) knownETag in ({| f with primary := p |}, r)
  else
    let '(p, r) := Fetch (primary f) "" in
    let f := {| f with primary := p |} in
    match r with
    | Ok res => let '(f, res) := promote f res in (f, Ok res)
    | Err _ => let '(s, r) := Fetch (secondary f) knownETag in ({| f with secondary := s |}, r)
    end.

#[export] Instance fallback_client {P S} `{Client P} `{Client S} : Client (FallbackClient P S) := fallback_Fetch.

(** ** Sequences of fetches *)

Fixpoint fetch_all {C} `{Client C} (c : C) (ks : list string)
  : C * list (result unit (option FetchResult)) :=
  match ks with
  | [] => (c, [])
  | k :: ks => let '(c, r) := Fetch c k in let '(c, rs) := fetch_all c ks in (c, r :: rs)
  end.

Section Fallback.
Context {P S : Type} `{Client P} `{Client S}.

Lemma fallback_step (f : FallbackClient P S) k : Fetch f k = fallback_Fetch f k.
Proof. reflexivity. Qed.

Lemma fetch_all_promoted (f : FallbackClient P S) ks : promoted f = true ->
  fetch_all f ks = ({| f with primary := fst (fetch_all (primary f) ks) |}, snd (fetch_all (primary f) ks)).
Proof.
  revert f. induction ks as [|k ks IH]; intros f Hf; cbn [fetch_all]; [destruct f; reflexivity|].
  destruct f as [p0 s pr hook]; cbn in Hf; subst pr.
  unfold Fetch at 1, fallback_client, fallback_Fetch. cbn [promoted primary].
  destruct (Fetch p0 k) as [p r]. rewrite IH by reflexivity. cbn [primary].
  destruct (fetch_all p ks). reflexivity.
Qed.

(** What a fallback client does with its two sources when the primary fails
    exactly the first [n] fetches. *)
Definition ratchet (p : P) (s : S) (ks : list string) (n : nat) (f : FallbackClient P S)
    (rs : list (result unit (option FetchResult))) : Prop :=
  let '(s', srs) := fetch_all s (take n ks) in
  let '(p', prs) := fetch_all p (repeat "" n ++ match drop n ks with [] => [] | _ :: rest => "" :: rest end) in
  secondary f = s' /\ primary f = p' /\ take n rs = srs /\
  Forall (fun r => r = Err tt) (take n prs) /\
  match drop n ks with
  | [] => length rs = n /\ promoted f = false /\ onPromote f = Some []
  | _ :: _ =>
    exists r prs', drop n prs = Ok r :: prs' /\ drop n rs = Ok (option_map forced r) :: prs' /\
      promoted f = true /\ onPromote f = Some [match r with Some x => ETag x | None => "" end]
  end.

Lemma fallback_run p s ks :
  exists n, (n <= length ks)%nat /\
    ratchet p s ks n (fst (fetch_all (OnPromote (NewFallbackClient p s)) ks))
      (snd (fetch_all (OnPromote (NewFallbackClient p s)) ks)).
Proof.
  revert p s. induction ks as [|k ks IH]; intros p s; [exists 0%nat; cbn; repeat split; constructor|].
  cbn [fetch_all]. rewrite !fallback_step. unfold fallback_Fetch. cbn [promoted OnPromote NewFallbackClient primary].
  destruct (Fetch p "") as [p1 [r|[]]] eqn:Ep; cbn [secondary promote].
  - exists 0%nat. split; [lia|]. rewrite fetch_all_promoted by reflexivity. cbn [primary].
    unfold ratchet. cbn [take fetch_all repeat app drop].
    rewrite Ep. destruct (fetch_all p1 ks) as [p2 prs] eqn:E2. cbn.
    repeat (split; [constructor|]). eauto 10.
  - change (secondary (OnPromote (NewFallbackClient p s))) with s.
    destruct (Fetch s k) as [s1 r] eqn:Es. destruct (IH p1 s1) as (n & Hn & HR).
    exists (Datatypes.S n). split; [cbn; lia|]. cbn [secondary].
    match goal with |- context [fetch_all ?x ks] => change x with (OnPromote (NewFallbackClient p1 s1)) end.
    destruct (fetch_all (OnPromote _) ks) as [f rs]. unfold ratchet in *. cbn [fst snd take repeat app fetch_all drop] in *.
    rewrite Ep, Es. destruct (fetch_all s1 (take n ks)) as [s2 srs].
    destruct (fetch_all p1 _) as [p2 prs]. destruct HR as (Hs & Hp & Hrs & Hf & HR).
    cbn [take drop]. rewrite Hrs. do 4 (split; [auto|]).
    destruct (drop n ks); [|exact HR]. destruct HR as (? & ? & ?). cbn. auto.
Qed.

(** The fallback client is a one-way ratchet.  Over any sequence of
    fetches there is a point [n] (possibly never reached) before which the
    primary was probed with no ETag and failed each time while the secondary
    served with the caller's ETags.  At [n] the primary's answer is served,
    forced to a full result, and its ETag is passed to the promotion hook once.
    From then on the primary alone serves, errors included, and the secondary
    is not consulted again. *)
Theorem fallback_ratchet (p : P) (s : S) (ks : list string) :
  exists n, (n <= length ks)%nat /\
    ratchet p s ks n (fst (fetch_all (OnPromote (NewFallbackClient p s)) ks))
      (snd (fetch_all (OnPromote (NewFallbackClient p s)) ks)).
Proof. apply fallback_run. Qed.

End Fallback.

(** ** The HTTP client on every response *)

(** The entry a point becomes, field by field. *)
Definition dto_maps (cmap : gmap string string) (fallback : string) (d : gatewayPointDTO) (e : Entry) : Prop :=
  PointID e = dto_PointID d /\ ReleaseOf e = dto_ReleaseOf d /\ Unit e = dto_Unit d /\
  LocalID e = dto_local d /\ DeviceRef e = dto_device d /\
  (Writable e = true <-> dto_Writable d = Some true) /\
  (dto_protocol d <> "" -> Protocol e = dto_protocol d) /\
  (ReleaseOf e <> "" -> Protocol e = dto_protocol d /\ ConnectorID e = default "" (cmap !! Protocol e)) /\
  (ReleaseOf e = "" -> Protocol e <> "" /\
     (default "" (cmap !! Protocol e) <> "" -> ConnectorID e = default "" (cmap !! Protocol e)) /\
     (default "" (cmap !! Protocol e) = "" -> ConnectorID e = fallback)).

(** The protocols reported as having no connector, in order. *)
Definition reported (log : list prov_log) : list string :=
  flat_map (fun l => match l with LogProvFallback p _ | LogProvUnmapped p _ => [p] | _ => [] end) log.

Section Http.
Context {K : Type}.

(** Settings are kept and a protocol is reported at most once. *)
Definition same_client (c c' : HTTPClient K) : Prop :=
  hc_connectorMap c' = hc_connectorMap c /\ fallbackConnectorID c' = fallbackConnectorID c /\
  hc_http c' = hc_http c.

Definition warned_ok (c : HTTPClient K) : Prop :=
  NoDup (reported (hc_log c)) /\ forall p, p ∈ reported (hc_log c) <-> p ∈ warnedUnmapped c.

Lemma reported_app l1 l2 : reported (l1 ++ l2) = reported l1 ++ reported l2.
Proof. apply flat_map_app. Qed.

Lemma warned_ok_log c l : reported l = [] -> warned_ok c -> warned_ok {| c with hc_log := hc_log c ++ l |}.
Proof. unfold warned_ok. cbn. intros E H. rewrite reported_app, E, app_nil_r. exact H. Qed.

Lemma same_client_trans c1 c2 c3 : same_client c1 c2 -> same_client c2 c3 -> same_client c1 c3.
Proof. unfold same_client. intuition congruence. Qed.

Lemma connectorFor_spec c protocol pid c' id : connectorFor c protocol pid = (c', id) -> warned_ok c ->
  same_client c c' /\ warned_ok c' /\
  id = (if String.eqb (default "" (hc_connectorMap c !! protocol)) "" then fallbackConnectorID c
        else default "" (hc_connectorMap c !! protocol)).
Proof.
  unfold connectorFor. intros E [Hn Hw]. destruct (String.eqb _ "") eqn:E0; cbn in E.
  - injection E as <- <-. split; [destruct (decide _); repeat split|]. split; [|reflexivity].
    destruct (decide _) as [|Hni]; [split; assumption|]. unfold warned_ok. cbn [hc_log warnedUnmapped].
    rewrite reported_app. assert (reported [if negb (String.eqb (fallbackConnectorID c) "") then LogProvFallback protocol pid
      else LogProvUnmapped protocol pid] = [protocol]) as -> by (case_if; reflexivity).
    split.
    + apply NoDup_app. split; [exact Hn|]. split; [|apply NoDup_singleton].
      intros x Hx%Hw ->%list_elem_of_singleton. contradiction.
    + intros p. rewrite elem_of_app, elem_of_union, elem_of_singleton, list_elem_of_singleton, Hw. tauto.
  - injection E as <- <-. repeat split; try apply Hw; assumption.
Qed.

Lemma mapDTO_spec c d c' e : mapDTO c d = (c', e) -> warned_ok c ->
  same_client c c' /\ warned_ok c' /\ dto_maps (hc_connectorMap c) (fallbackConnectorID c) d e.
Proof.
  unfold mapDTO. intros E Hw.
  assert (Hwr : default false (dto_Writable d) = true <-> dto_Writable d = Some true)
    by (destruct (dto_Writable d) as [[]|]; cbn; split; congruence).
  destruct (String.eqb_spec (dto_ReleaseOf d) "") as [Hr|Hr]; cbn [negb] in E.
  - set (proto := if String.eqb (dto_protocol d) "" then InferProtocol (dto_local d) else dto_protocol d) in E.
    assert (dto_protocol d <> "" -> proto = dto_protocol d) as Hp
      by (unfold proto; intros Hne%String.eqb_neq; rewrite Hne; reflexivity).
    set (q := if String.eqb proto "" then "unknown" else proto).
    assert (exists c1 cid, same_client c c1 /\ warned_ok c1 /\ connectorFor c1 q (dto_PointID d) = (c', cid) /\
      e = mkEntry (dto_ReleaseOf d) cid q (dto_local d) (dto_PointID d) (dto_Unit d) (default false (dto_Writable d))
            (dto_device d) (match dto_ControlSchema d with Some s => marshal (schema_json s) | None => "" end))
      as (c1 & cid & Hs1 & Hw1 & EC & ->).
    { subst q. destruct (String.eqb proto ""); destruct (connectorFor _ _ _) as [c2 cid] eqn:EC in E;
        injection E as <- <-; eexists _, _;
        (split; [|split; [|split; [exact EC|reflexivity]]]); try (solve [repeat split]); auto using warned_ok_log. }
    destruct (connectorFor_spec _ _ _ _ _ EC Hw1) as (Hs2 & Hw2 & ->). destruct Hs1 as (E1 & E2 & E3).
    rewrite E1, E2 in *. split; [eapply same_client_trans; eauto; repeat split; assumption|]. split; [assumption|].
    assert (q <> "") as Hq by (subst q; destruct (String.eqb_spec proto ""); congruence).
    unfold dto_maps; cbn. do 6 (split; [tauto|]).
    split; [intros Hne; rewrite <- (Hp Hne); subst q; rewrite <- (Hp Hne) in Hne; apply String.eqb_neq in Hne; rewrite Hne; reflexivity|].
    split; [tauto|]. intros _. split; [exact Hq|].
    destruct (String.eqb_spec (default "" (hc_connectorMap c !! q)) ""); tauto.
  - injection E as <- <-. split; [repeat split|]. split; [assumption|]. unfold dto_maps; cbn. tauto.
Qed.

Lemma mapDTOs_spec ds : forall c c' es, mapDTOs c ds = (c', es) -> warned_ok c ->
  same_client c c' /\ warned_ok c' /\ Forall2 (dto_maps (hc_connectorMap c) (fallbackConnectorID c)) ds es.
Proof.
  induction ds as [|d ds IH]; cbn; intros c c' es E Hw; [injection E as <- <-; repeat split; try apply Hw; constructor|].
  destruct (mapDTO c d) as [c1 e] eqn:E1. destruct (mapDTOs c1 ds) as [c2 es2] eqn:E2. injection E as <- <-.
  destruct (mapDTO_spec _ _ _ _ E1 Hw) as (Hs1 & Hw1 & Hm).
  destruct (IH _ _ _ E2 Hw1) as (Hs2 & Hw2 & Hms).
  split; [eapply same_client_trans; eauto|]. split; [assumption|]. constructor; [assumption|].
  destruct Hs1 as (<- & <- & _). exact Hms.
Qed.

Lemma http_result_spec c known resp body c' r : http_result c known resp body = (c', r) -> warned_ok c ->
  same_client c c' /\ warned_ok c' /\ ETag r = response_etag resp body /\
  (Full r = true <-> known = "" \/ pr_Full body = true) /\
  let maps := Forall2 (dto_maps (hc_connectorMap c) (fallbackConnectorID c)) in
  if Full r then maps (pr_Points body) (Entries r) /\ Added r = [] /\ Removed r = [] /\ Changed r = []
  else maps (pr_Added body) (Added r) /\ Removed r = pr_Removed body /\
       maps (pr_Changed body) (Changed r) /\ Entries r = [].
Proof.
  unfold http_result. intros E Hw.
  set (c0 := if String.eqb _ "" then _ else c) in E.
  assert (same_client c c0 /\ warned_ok c0) as [Hs0 Hw0].
  { subst c0. case_if; [|repeat split; try apply Hw]. split; [repeat split|auto using warned_ok_log]. }
  pose proof Hs0 as (Em & Ef & _). clearbody c0. destruct (String.eqb_spec known "" ) as [Hk|Hk]; cbn [orb] in E;
    [|destruct (pr_Full body) eqn:EF].
  - destruct (mapDTOs c0 _) as [c1 es] eqn:E1. injection E as <- <-.
    destruct (mapDTOs_spec _ _ _ _ E1 Hw0) as (Hs1 & Hw1 & Hm). rewrite Em, Ef in Hm. cbn.
    repeat (split; [solve [tauto | eapply same_client_trans; eauto]|]). auto.
  - destruct (mapDTOs c0 _) as [c1 es] eqn:E1. injection E as <- <-.
    destruct (mapDTOs_spec _ _ _ _ E1 Hw0) as (Hs1 & Hw1 & Hm). rewrite Em, Ef in Hm. cbn.
    repeat (split; [solve [tauto | eapply same_client_trans; eauto]|]). auto.
  - destruct (mapDTOs c0 _) as [c1 es] eqn:E1. destruct (mapDTOs c1 _) as [c2 es2] eqn:E2. injection E as <- <-.
    destruct (mapDTOs_spec _ _ _ _ E1 Hw0) as (Hs1 & Hw1 & Hm). rewrite Em, Ef in Hm.
    destruct (mapDTOs_spec _ _ _ _ E2 Hw1) as (Hs2 & Hw2 & Hm2). pose proof Hs1 as (Em1 & Ef1 & _).
    rewrite Em1, Ef1, Em, Ef in Hm2. cbn.
    assert (same_client c c2) by (eapply same_client_trans; [eassumption|]; eapply same_client_trans; eauto).
    repeat (split; [solve [auto | intuition congruence]|]). auto.
Qed.

(** One fetch from Building OS, for every response.  The known ETag, when
    there is one, is sent as If-None-Match and as the since parameter.  304 is
    "unchanged"; a transport failure, any other status than 200 and an
    undecodable body are errors; a 200 gives a result under the response's ETag
    (else its revision) that is full exactly when nothing was known or the
    server says so, whose entries are the response's points field by field: a
    point that is no release always gets a protocol, and the connector of that
    protocol or else the fallback.  Settings are kept and each protocol without
    a connector is reported once over the client's life. *)
Theorem http_Fetch_exact `{HttpDo K} (c : HTTPClient K) (known : string) :
  warned_ok c ->
  let '(k, answer) := http_do (hc_http c) (http_request c known) in
  let '(c', r) := http_Fetch c known in
  hc_http c' = k /\ warned_ok c' /\ hc_connectorMap c' = hc_connectorMap c /\
  fallbackConnectorID c' = fallbackConnectorID c /\
  match answer with
  | None => r = Err tt
  | Some resp =>
    (rs_status resp = 304 -> r = Ok None) /\
    (rs_status resp <> 304 -> rs_status resp <> 200 -> r = Err tt) /\
    (rs_status resp = 200 ->
      match resp_decode (rs_body resp) with
      | None => r = Err tt
      | Some body => exists res, r = Ok (Some res) /\ ETag res = response_etag resp body /\
          (Full res = true <-> known = "" \/ pr_Full body = true) /\
          let maps := Forall2 (dto_maps (hc_connectorMap c) (fallbackConnectorID c)) in
          if Full res then maps (pr_Points body) (Entries res) /\ Added res = [] /\ Removed res = [] /\ Changed res = []
          else maps (pr_Added body) (Added res) /\ Removed res = pr_Removed body /\
               maps (pr_Changed body) (Changed res) /\ Entries res = []
      end)
  end.
Proof.
  intros Hw. unfold http_Fetch. destruct (http_do _ _) as [k [resp|]]; [|repeat split; apply Hw].
  destruct (Z.eqb_spec (rs_status resp) 304) as [E|E]; [repeat split; try apply Hw; try lia; auto; congruence|].
  destruct (Z.eqb_spec (rs_status resp) 200) as [E2|E2]; cbn [negb]; [|repeat split; try apply Hw; auto; congruence].
  destruct (resp_decode _) as [body|]; [|repeat split; try apply Hw; auto; congruence].
  destruct (http_result _ _ _ _) as [c' res] eqn:ER. apply http_result_spec in ER as ((E3 & E4 & E5) & Hw' & ER); [|exact Hw].
  repeat (split; [solve [assumption | congruence]|]). intros _. exists res. auto.
Qed.

End Http.

(** The file client serves back the snapshot the gateway wrote: from a
    [.json] path holding what [Persist] writes it gives the full entry list
    under the content hash, and "unchanged" to a caller that knows the hash. *)
Theorem file_serves_snapshot (c : FileClient) (r : SyncedResolver) (known : string) :
  forallb valid_entry (Snapshot r) = true ->
  has_suffix (to_lower (fc_path c)) ".csv" = false -> has_suffix (to_lower (fc_path c)) ".json" = true ->
  let etag := sha256_hex (persist_bytes r) in
  file_Fetch c (Ok (persist_bytes r)) known =
    if String.eqb etag known then Ok None
    else Ok (Some {| ETag := etag; Full := true; Entries := Snapshot r; Added := []; Removed := []; Changed := [] |}).
Proof.
  intros Hv Hc Hj. cbn zeta. unfold file_Fetch, file_parse. rewrite Hc, Hj, entries_unjson_persist by assumption.
  reflexivity.
Qed.

(** Concrete clients. *)
Module ProvisioningExample.

(** A client that answers from a script. *)
Definition script : Type := list (result unit (option FetchResult)).
#[export] Instance script_client : Client script := fun s _ =>
  match s with [] => ([], Err tt) | r :: s => (s, r) end.

(** An endpoint that answers from a script. *)
Definition endpoint : Type := list (option response).
#[export] Instance endpoint_do : HttpDo endpoint := fun s _ =>
  match s with [] => ([], None) | r :: s => (s, r) end.

(** Double quotes in JSON text are written as single ones. *)
Fixpoint dq (s : string) : string :=
  match s with
  | EmptyString => ""
  | String c r => String (if code c =? 39 then chr 34 else c) (dq r)
  end.

Definition body : string :=
  dq "{'revision':'r1','full':true,'points':[{'pointId':'p1','localId':'analog-input,1','protocol':' BACnet '},{'pointId':'p2','localId':'a/b'}]}".

Definition http0 : HTTPClient endpoint :=
  {| baseURL := "https://bos"; hc_gatewayID := "gw 1"; hc_connectorMap := {["bacnet" := "bacnet-01"]};
     hc_http := [Some {| rs_status := 200; rs_etag := "e1"; rs_body := body |}];
     fallbackConnectorID := "fb"; warnedUnmapped := ∅; hc_log := [] |}.

Definition entries0 : list Entry :=
  [mkEntry "" "bacnet-01" "bacnet" "analog-input,1" "p1" "" false "" "";
   mkEntry "" "fb" "mqtt" "a/b" "p2" "" false "" ""].

Lemma http_Fetch_exact_witness :
  warned_ok http0 /\ warned_ok (fst (http_Fetch http0 "")) /\
  snd (http_Fetch http0 "") = Ok (Some {| ETag := "e1"; Full := true; Entries := entries0; Added := [];
                                          Removed := []; Changed := [] |}).
Proof.
  assert (warned_ok http0) as Hw by (split; [constructor|intros p; split; intros H; inversion H]).
  split; [exact Hw|]. pose proof (http_Fetch_exact http0 "" Hw) as H.
  destruct (http_do _ _) as [k a]. split; [|vm_compute; reflexivity].
  destruct (http_Fetch http0 "") as [c' r]. apply H.
Defined.

Definition file0 : FileClient := {| fc_path := "points.JSON"; fc_connectorID := ""; fc_connectorMap := ∅ |}.

Lemma file_serves_snapshot_witness :
  exists etag, file_Fetch file0 (Ok (persist_bytes (Update (NewSynced None) entries0))) "old" =
    Ok (Some {| ETag := etag; Full := true; Entries := entries0; Added := []; Removed := []; Changed := [] |}).
Proof.
  eexists. rewrite (file_serves_snapshot file0 (Update (NewSynced None) entries0) "old");
    [|vm_compute; reflexivity..].
  match goal with |- (if ?b then _ else _) = _ => assert (b = false) as -> by (vm_compute; reflexivity) end.
  reflexivity.
Defined.

End ProvisioningExample.
