(* ===== verification/PointSync.v ===== *)
(** * Point list synchronisation

    [src/internal/pointsync/loop.go]: polling a provisioning client and keeping
    the resolver up to date, by full lists and by diffs.  The iteration order
    of a Go map is an argument wherever it is visible.  The theorems show that
    against a server that publishes revisions the resolver holds exactly the
    list of the revision the loop reports, unless a diff since the last full list
    moved a point to an address another listed point held before; and what
    happens when one does. *)

From Stdlib Require Import ZArith Lia Bool Ascii String List.
From stdpp Require Import base list strings gmap.
From S2P Require Import Prelude Json GoText PointList Provisioning.
#[local] Open Scope string_scope.
#[local] Open Scope list_scope.
#[local] Open Scope Z_scope.

(** ** Applying a diff *)

(** An iteration order over the values of a map. *)
Definition map_order : Type := gmap string Entry -> list Entry.
Definition is_order (o : map_order) : Prop := forall m, o m ≡ₚ (map_to_list m).*2.

Definition index_id (m : gmap string Entry) (e : Entry) : gmap string Entry := <[PointID e := e]> m.

Definition change (byLocal : gmap string string) (m : gmap string Entry) (e : Entry) : gmap string Entry :=
  let oldPID := default "" (byLocal !! key (ConnectorID e) (LocalID e)) in
  let m := if String.eqb (ReleaseOf e) "" && negb (String.eqb oldPID "") && negb (String.eqb oldPID (PointID e))
           then delete oldPID m else m in
  <[PointID e := e]> m.

Definition applyDiff_map (current : list Entry) (r : FetchResult) : gmap string Entry :=
  let byID := fold_left index_id current ∅ in
  let byLocal := fold_left forward_entry current ∅ in
  let byID := fold_left (fun m pid => delete pid m) (Removed r) byID in
  let byID := fold_left index_id (Added r) byID in
  fold_left (change byLocal) (Changed r) byID.

Definition applyDiff (order : map_order) (current : list Entry) (r : FetchResult) : list Entry :=
  order (applyDiff_map current r).

(** ** The loop *)

Record syncState := { etag : string; cached : list Entry }.

Inductive sync_log := LogLoadFailed | LogFetchError | LogUpdated (etag : string) (count : nat) | LogPersistFailed.

Record Loop (C : Type) := {
  client : C;
  resolver : SyncedResolver;
  (** Whether [cfg.PersistPath] is set, and what reading that path gives. *)
  persisting : bool;
  disk : result file_error string;
  appliedETag : string;
  ready : bool;
  lp_log : list sync_log
}.
Arguments client {C} _.
Arguments resolver {C} _.
Arguments persisting {C} _.
Arguments disk {C} _.
Arguments appliedETag {C} _.
Arguments ready {C} _.
Arguments lp_log {C} _.

Definition New {C} (c : C) (r : SyncedResolver) (persist : bool) (d : result file_error string) : Loop C :=
  {| client := c; resolver := r; persisting := persist; disk := d; appliedETag := ""; ready := false;
     lp_log := [] |}.

Definition AppliedRevision {C} (l : Loop C) : string := appliedETag l.

(** What one sync meets: the map order, whether the context is done when a
    fetch fails, and what the path holds after a failed write. *)
Record weather := { w_order : map_order; w_done : bool; w_write : option (result file_error string) }.

Definition log {C} (l : Loop C) (x : sync_log) : Loop C := {| l with lp_log := lp_log l ++ [x] |}.

Definition persist {C} (l : Loop C) (w : weather) : Loop C :=
  if persisting l then
    match w_write w with
    | None => {| l with disk := Ok (persist_bytes (resolver l)) |}
    | Some rest => log {| l with disk := rest |} LogPersistFailed
    end
  else l.

Definition sync {C} `{Client C} (l : Loop C) (s : syncState) (w : weather) : Loop C * syncState :=
  let '(c, r) := Fetch (client l) (etag s) in
  let l := {| l with client := c |} in
  match r with
  | Err _ => (if w_done w then l else log l LogFetchError, s)
  | Ok None => (l, s)
  | Ok (Some res) =>
    let es := if Full res then Entries res else applyDiff (w_order w) (cached s) res in
    let l := {| l with resolver := Update (resolver l) es; appliedETag := ETag res |} in
    (persist (log l (LogUpdated (ETag res) (length es))) w, {| etag := ETag res; cached := es |})
  end.

(** What the select of [Run] receives. *)
Inductive event := Done | Tick (w : weather) | Revalidate (w : weather) | RevalidateClosed.

Fixpoint run_events {C} `{Client C} (l : Loop C) (s : syncState) (evs : list event) : Loop C * syncState :=
  match evs with
  | [] | Done :: _ | RevalidateClosed :: _ => (l, s)
  | Tick w :: evs | Revalidate w :: evs => let '(l, s) := sync l s w in run_events l s evs
  end.

Definition Run {C} `{Client C} (l : Loop C) (first : weather) (evs : list event) : Loop C * syncState :=
  let l := if persisting l then
             let '(r, e) := Load (resolver l) (disk l) in
             let l := {| l with resolver := r |} in
             match e with Some _ => log l LogLoadFailed | None => l end
           else l in
  let '(l, s) := sync l {| etag := ""; cached := [] |} first in
  run_events {| l with ready := true |} s evs.

(** ** What a diff means *)

(** Point ids are unique, and so are the addresses of points that have one. *)
Definition wf_list (l : list Entry) : Prop :=
  NoDup (map PointID l) /\
  forall e e', e ∈ l -> e' ∈ l -> ReleaseOf e = "" -> ReleaseOf e' = "" ->
    key (ConnectorID e) (LocalID e) = key (ConnectorID e') (LocalID e') -> e = e'.

(** [r] is a difference from [cur] to [tgt]: what it adds or changes is in [tgt],
    what is new in [tgt] is added or changed, and a point of [cur] whose id is gone
    is removed by id or renamed, that is, its address is a changed point's.  An id
    may be removed and listed again. *)
Record is_diff (cur tgt : list Entry) (r : FetchResult) : Prop := {
  df_listed : forall e, e ∈ Added r \/ e ∈ Changed r -> e ∈ tgt;
  df_new : forall e, e ∈ tgt -> e ∈ cur \/ e ∈ Added r \/ e ∈ Changed r;
  df_removed : forall e, e ∈ tgt -> PointID e ∈ Removed r -> e ∈ Added r \/ e ∈ Changed r;
  df_gone : forall c, c ∈ cur -> (forall e, e ∈ tgt -> PointID e <> PointID c) ->
    PointID c ∈ Removed r \/
    exists e, e ∈ Changed r /\ ReleaseOf e = "" /\ ReleaseOf c = "" /\ PointID c <> "" /\
      key (ConnectorID e) (LocalID e) = key (ConnectorID c) (LocalID c)
}.

(** No changed point takes an address of another point that the diff lists. *)
Definition unmixed (cur : list Entry) (r : FetchResult) : Prop :=
  forall e c e', e ∈ Changed r -> ReleaseOf e = "" -> c ∈ cur -> ReleaseOf c = "" ->
    key (ConnectorID c) (LocalID c) = key (ConnectorID e) (LocalID e) -> PointID c <> PointID e ->
    e' ∈ Added r \/ e' ∈ Changed r -> PointID e' <> PointID c.

Definition has_pid (p : string) (e : Entry) : bool := String.eqb (PointID e) p.

Lemma last_entry_some q l e : last_entry q l = Some e -> e ∈ l /\ q e = true.
Proof.
  unfold last_entry. intros E. apply last_Some in E as [l' E].
  assert (In e (List.filter q l)) as Hin by (rewrite E; apply in_or_app; right; left; reflexivity).
  apply filter_In in Hin as [Hin Hq]. split; [apply list_elem_of_In|]; assumption.
Qed.

Lemma last_entry_none q l e : last_entry q l = None -> e ∈ l -> q e = false.
Proof.
  unfold last_entry. intros E Hin. apply last_None in E. destruct (q e) eqn:Q; [|reflexivity].
  assert (In e (List.filter q l)) as H by (apply filter_In; split; [apply list_elem_of_In|]; assumption).
  rewrite E in H. destruct H.
Qed.

Lemma pid_unique l e e' : NoDup (map PointID l) -> e ∈ l -> e' ∈ l -> PointID e = PointID e' -> e = e'.
Proof.
  intros Hn. induction l as [|a l IH]; [intros H; inversion H|]. cbn in Hn.
  apply NoDup_cons in Hn as [Ha Hn].
  intros [->|H1]%elem_of_cons [->|H2]%elem_of_cons E; auto; exfalso; apply Ha.
  - rewrite E. apply (list_elem_of_fmap_2 PointID). assumption.
  - rewrite <- E. apply (list_elem_of_fmap_2 PointID). assumption.
Qed.

Lemma fold_index_lookup l m p :
  fold_left index_id l m !! p = match last_entry (has_pid p) l with Some e => Some e | None => m !! p end.
Proof.
  induction l as [|e l IH] using rev_ind; [reflexivity|].
  rewrite fold_left_app, last_entry_snoc. cbn [fold_left]. unfold index_id at 1, has_pid at 1.
  destruct (String.eqb_spec (PointID e) p) as [<-|Hne]; [apply lookup_insert_eq|].
  rewrite lookup_insert_ne by assumption. exact IH.
Qed.

Lemma fold_delete_lookup l (m : gmap string Entry) p :
  fold_left (fun m pid => delete pid m) l m !! p = if decide (p ∈ l) then None else m !! p.
Proof.
  revert m. induction l as [|q l IH]; intros m; cbn [fold_left]; [reflexivity|]. rewrite IH.
  destruct (decide (p ∈ l)), (decide (p ∈ q :: l)) as [Hd|Hd]; try reflexivity.
  - exfalso. apply Hd. right. assumption.
  - apply elem_of_cons in Hd as [->|]; [apply lookup_delete_eq | contradiction].
  - apply lookup_delete_ne. intros ->. apply Hd. left.
Qed.

Lemma forward_sound l k p : fold_left forward_entry l ∅ !! k = Some p ->
  exists c, c ∈ l /\ ReleaseOf c = "" /\ key (ConnectorID c) (LocalID c) = k /\ PointID c = p.
Proof.
  induction l as [|e l IH] using rev_ind; [cbn [fold_left]; rewrite lookup_empty; discriminate|].
  rewrite fold_left_app. cbn [fold_left]. unfold forward_entry at 1.
  assert (fold_left forward_entry l ∅ !! k = Some p -> exists c, c ∈ l ++ [e] /\ ReleaseOf c = "" /\
    key (ConnectorID c) (LocalID c) = k /\ PointID c = p) as Hl.
  { intros (c & Hc & H)%IH. exists c. split; [apply elem_of_app; left|]; assumption. }
  destruct (String.eqb_spec (ReleaseOf e) ""); [|exact Hl].
  destruct (decide (key (ConnectorID e) (LocalID e) = k)) as [<-|Hne].
  - rewrite lookup_insert_eq. intros [= <-]. exists e. split; [apply elem_of_app; right; left|auto].
  - rewrite lookup_insert_ne by assumption. exact Hl.
Qed.

Lemma forward_complete l e : wf_list l -> e ∈ l -> ReleaseOf e = "" ->
  fold_left forward_entry l ∅ !! key (ConnectorID e) (LocalID e) = Some (PointID e).
Proof.
  intros [Hn Ha] He Hr. induction l as [|y l IH] using rev_ind; [inversion He|].
  rewrite fold_left_app. cbn [fold_left]. unfold forward_entry at 1.
  assert (e ∈ l \/ e = y) as Hey by (apply elem_of_app in He as [| ->%list_elem_of_singleton]; auto).
  rewrite map_app in Hn. apply NoDup_app in Hn as (Hn & _).
  assert (e ∈ l -> fold_left forward_entry l ∅ !! key (ConnectorID e) (LocalID e) = Some (PointID e)) as Hes
    by (intros He'; apply IH; auto; intros a b Hb Hb'; apply Ha; apply elem_of_app; auto).
  destruct (String.eqb_spec (ReleaseOf y) "") as [Hry|Hry]; [|apply Hes; intuition congruence].
  destruct (decide (key (ConnectorID y) (LocalID y) = key (ConnectorID e) (LocalID e))) as [Hk|Hk].
  - assert (y = e) as -> by (apply Ha; auto; apply elem_of_app; right; left). apply lookup_insert_eq.
  - rewrite lookup_insert_ne by assumption. apply Hes. intuition congruence.
Qed.

(** [p]'s old address is now another point's. *)
Definition superseded (byLocal : gmap string string) (ch : list Entry) (p : string) : Prop :=
  exists e, e ∈ ch /\ ReleaseOf e = "" /\ byLocal !! key (ConnectorID e) (LocalID e) = Some p /\ p <> PointID e.

Lemma change_lookup byLocal m e p : p <> PointID e ->
  change byLocal m e !! p = m !! p \/
  change byLocal m e !! p = None /\ superseded byLocal [e] p.
Proof.
  intros Hne. unfold change. rewrite lookup_insert_ne by congruence. case_if; [|auto]. bools.
  destruct (byLocal !! _) as [old|] eqn:El; cbn in *; [|discriminate].
  destruct (decide (old = p)) as [->|Ho]; [|left; apply lookup_delete_ne; assumption].
  right. split; [apply lookup_delete_eq|]. exists e. split; [left|]. split; [apply String.eqb_eq; assumption|]. auto.
Qed.

Lemma fold_change_lookup byLocal ch m p : ~ superseded byLocal ch p ->
  fold_left (change byLocal) ch m !! p = match last_entry (has_pid p) ch with Some e => Some e | None => m !! p end.
Proof.
  induction ch as [|e ch IH] using rev_ind; [reflexivity|]. intros Hs.
  rewrite fold_left_app, last_entry_snoc. cbn [fold_left]. unfold has_pid at 1.
  destruct (String.eqb_spec (PointID e) p) as [<-|Hne]; [apply lookup_insert_eq|].
  rewrite <- IH.
  - destruct (change_lookup byLocal (fold_left (change byLocal) ch m) e p ltac:(congruence)) as [E|[_ (x & Hx & H)]]; [exact E|].
    exfalso. apply Hs. apply list_elem_of_singleton in Hx as ->. exists e. split; [apply elem_of_app; right; left|assumption].
  - intros (x & Hx & H). apply Hs. exists x. split; [apply elem_of_app; left|]; assumption.
Qed.

Lemma fold_change_none byLocal ch m p : (forall e, e ∈ ch -> PointID e <> p) -> m !! p = None ->
  fold_left (change byLocal) ch m !! p = None.
Proof.
  revert m. induction ch as [|e ch IH]; intros m Hc Hm; [exact Hm|]. cbn [fold_left].
  apply IH; [intros x Hx; apply Hc; right; assumption|].
  destruct (change_lookup byLocal m e p) as [->|[-> _]]; auto. intros ->. apply (Hc e); [left|reflexivity].
Qed.

Lemma fold_change_superseded byLocal ch m p : superseded byLocal ch p -> p <> "" -> (forall e, e ∈ ch -> PointID e <> p) ->
  fold_left (change byLocal) ch m !! p = None.
Proof.
  intros (e & He & Hr & Hl & Hne) Hp Hc. apply list_elem_of_split in He as (l1 & l2 & ->).
  rewrite fold_left_app. cbn [fold_left]. apply fold_change_none.
  - intros x Hx. apply Hc, elem_of_app. right. right. assumption.
  - unfold change at 1. rewrite lookup_insert_ne by congruence. rewrite Hr, Hl. change (default "" (Some p)) with p.
    destruct (String.eqb_spec p ""); [contradiction|]. destruct (String.eqb_spec p (PointID e)); [contradiction|].
    apply lookup_delete_eq.
Qed.

Lemma applyDiff_base cur r p :
  fold_left index_id (Added r) (fold_left (fun m pid => delete pid m) (Removed r) (fold_left index_id cur ∅)) !! p
  = match last_entry (has_pid p) (Added r) with
    | Some e => Some e
    | None => if decide (p ∈ Removed r) then None else last_entry (has_pid p) cur
    end.
Proof.
  rewrite fold_index_lookup, fold_delete_lookup, fold_index_lookup.
  destruct (last_entry (has_pid p) (Added r)); [reflexivity|]. destruct (decide _); [reflexivity|].
  destruct (last_entry (has_pid p) cur); [reflexivity|]. apply lookup_empty.
Qed.

Lemma is_diff_not_superseded cur tgt r e : wf_list cur -> wf_list tgt -> is_diff cur tgt r -> unmixed cur r ->
  e ∈ tgt -> ~ superseded (fold_left forward_entry cur ∅) (Changed r) (PointID e).
Proof.
  intros [Hnc _] [Hnt Ht] Hd Hu He (x & Hx & Hxr & Hl & Hne).
  apply forward_sound in Hl as (c & Hc & Hcr & Hk & Hp).
  destruct (df_new _ _ _ Hd e He) as [Hin|Hl].
  - assert (e = c) as -> by (apply (pid_unique cur); auto).
    pose proof (df_listed _ _ _ Hd x (or_intror Hx)). apply Hne. f_equal. apply Ht; auto.
  - refine (Hu x c e Hx Hxr Hc Hcr Hk _ Hl _); congruence.
Qed.

Section Diff.
Context (cur tgt : list Entry) (r : FetchResult).
Hypotheses (Hcur : wf_list cur) (Htgt : wf_list tgt) (Hdiff : is_diff cur tgt r).

Lemma last_tgt (l : list Entry) e y : (forall x, x ∈ l -> x ∈ tgt) -> e ∈ tgt ->
  last_entry (has_pid (PointID e)) l = Some y -> y = e.
Proof.
  intros Hl He E. apply last_entry_some in E as [Hy Hp%String.eqb_eq].
  apply (pid_unique tgt); auto. apply Htgt.
Qed.

Lemma last_absent (l : list Entry) e : last_entry (has_pid (PointID e)) l = None -> ~ (e ∈ l).
Proof. intros E H. apply (last_entry_none _ _ _ E), String.eqb_neq in H. congruence. Qed.

Lemma applyDiff_kept e : unmixed cur r -> e ∈ tgt -> applyDiff_map cur r !! PointID e = Some e.
Proof.
  intros Hu He. pose proof Hdiff as [HL HN HR _]. unfold applyDiff_map.
  rewrite fold_change_lookup, applyDiff_base by (apply (is_diff_not_superseded cur tgt); assumption).
  destruct (last_entry _ (Changed r)) as [y|] eqn:E1; [f_equal; apply (last_tgt (Changed r)); auto|].
  destruct (last_entry _ (Added r)) as [y|] eqn:E2; [f_equal; apply (last_tgt (Added r)); auto|].
  apply last_absent in E1, E2. rewrite decide_False by (intros Hr; destruct (HR e He Hr); contradiction).
  destruct (HN e He) as [Hin|[?|?]]; [|contradiction..].
  destruct (last_entry _ cur) as [y|] eqn:E3; [|destruct (last_absent _ _ E3 Hin)].
  apply last_entry_some in E3 as [Hy Hp%String.eqb_eq]. f_equal. apply (pid_unique cur); auto. apply Hcur.
Qed.

Lemma applyDiff_gone p : (forall x, x ∈ tgt -> PointID x <> p) -> applyDiff_map cur r !! p = None.
Proof.
  intros Hp. pose proof Hdiff as [HL _ _ HG]. unfold applyDiff_map.
  assert (forall e, e ∈ Changed r -> PointID e <> p) as Hch by auto.
  destruct (last_entry (has_pid p) cur) as [c|] eqn:E3.
  - apply last_entry_some in E3 as [Hc <-%String.eqb_eq].
    destruct (HG c Hc Hp) as [Hr|(e & He & Her & Hcr & Hne & Hk)].
    + apply fold_change_none; [exact Hch|]. rewrite applyDiff_base.
      destruct (last_entry _ (Added r)) as [y|] eqn:E2; [|rewrite decide_True by assumption; reflexivity].
      apply last_entry_some in E2 as [Hy Hq%String.eqb_eq]. destruct (Hp y); auto.
    + apply fold_change_superseded; auto. exists e. split; [assumption|]. split; [assumption|].
      split; [rewrite Hk; apply forward_complete; assumption|]. specialize (Hch e He). congruence.
  - apply fold_change_none; [exact Hch|]. rewrite applyDiff_base, E3.
    destruct (last_entry _ (Added r)) as [y|] eqn:E2; [|destruct (decide _); reflexivity].
    apply last_entry_some in E2 as [Hy Hq%String.eqb_eq]. destruct (Hp y); auto.
Qed.

Lemma applyDiff_lookup p e : unmixed cur r ->
  applyDiff_map cur r !! p = Some e <-> e ∈ tgt /\ PointID e = p.
Proof.
  intros Hu. split; [|intros [He <-]; apply applyDiff_kept; assumption]. intros E.
  destruct (last_entry (has_pid p) tgt) as [x|] eqn:Ex.
  - apply last_entry_some in Ex as [Hx <-%String.eqb_eq]. rewrite applyDiff_kept in E by assumption.
    injection E as ->. auto.
  - rewrite applyDiff_gone in E; [discriminate|]. intros x Hx Hp.
    apply (last_entry_none _ _ x) in Ex; [|assumption]. apply String.eqb_neq in Ex. contradiction.
Qed.

Lemma applyDiff_perm o : is_order o -> unmixed cur r -> applyDiff o cur r ≡ₚ tgt.
Proof.
  intros Ho Hu. unfold applyDiff. etransitivity; [apply Ho|].
  assert (map_to_list (applyDiff_map cur r) ≡ₚ map (fun e => (PointID e, e)) tgt) as ->.
  { apply NoDup_Permutation; [apply NoDup_map_to_list| |].
    - apply (NoDup_fmap_1 fst). change (fst <$> map _ tgt) with (map fst (map (fun e => (PointID e, e)) tgt)).
      rewrite map_map. apply Htgt.
    - intros [p e]. rewrite elem_of_map_to_list, applyDiff_lookup by assumption.
      rewrite !list_elem_of_In, in_map_iff. split.
      + intros [He <-]. exists e. auto.
      + intros (x & [= <- ->] & Hx). auto. }
  change (map snd (map (fun e => (PointID e, e)) tgt) ≡ₚ tgt). rewrite map_map. cbn [snd].
  rewrite map_id. reflexivity.
Qed.
End Diff.

(** ** Tracking a server *)

(** A server whose ETags name point lists: [published] is the list of each
    revision.  A fetch gives a published revision in full, or its difference
    from the revision the caller names; with no ETag it is in full.  The lists are
    well-formed; nothing is said of how a difference is split up. *)
Class ServerLaws (C : Type) `{Client C} (published : string -> option (list Entry)) : Prop :=
  fetch_published : forall c known c' r, Fetch c known = (c', Ok (Some r)) ->
    exists tgt, published (ETag r) = Some tgt /\ wf_list tgt /\
      (Full r = true -> Entries r = tgt) /\
      (Full r = false -> known <> "" /\ exists cur, published known = Some cur /\ wf_list cur /\
         is_diff cur tgt r).

(** The fallback client of two sources is one, when an ETag names the same list
    in both. *)
#[export] Instance fallback_laws {P S} `{Client P} `{Client S} pub :
  ServerLaws P pub -> ServerLaws S pub -> ServerLaws (FallbackClient P S) pub.
Proof.
  intros LP LS f known f' r. unfold Fetch, fallback_client, fallback_Fetch.
  destruct (promoted f).
  - destruct (Fetch (primary f) known) as [p x] eqn:E. intros [= _ ->]. apply (LP _ _ _ _ E).
  - destruct (Fetch (primary f) "") as [p [[x|]|[]]] eqn:E; cbn.
    + intros [= _ <-]. destruct (LP _ _ _ _ E) as (tgt & Hp & Hw & HF & HD). exists tgt. cbn.
      split; [assumption|]. split; [assumption|]. split; [|discriminate].
      intros _. apply HF. destruct (Full x); [reflexivity|]. destruct (HD eq_refl) as [[] _]. reflexivity.
    + discriminate.
    + destruct (Fetch (secondary f) known) as [s y] eqn:E2. intros [= _ ->]. apply (LS _ _ _ _ E2).
Qed.

Lemma wf_list_perm l l' : l ≡ₚ l' -> wf_list l -> wf_list l'.
Proof.
  intros Hp [Hn Ha]. split; [rewrite <- Hp; assumption|]. intros e e'. rewrite <- Hp. apply Ha.
Qed.

Lemma is_diff_perm cur cur' tgt r : cur ≡ₚ cur' -> is_diff cur tgt r -> is_diff cur' tgt r.
Proof.
  intros Hp [HL HN HR HG]. constructor; auto.
  - intros e He. rewrite <- Hp. auto.
  - intros c. rewrite <- Hp. auto.
Qed.

Lemma unmixed_perm cur cur' r : cur ≡ₚ cur' -> unmixed cur r -> unmixed cur' r.
Proof. unfold unmixed. intros Hp H e c e'. rewrite <- Hp. apply H. Qed.

(** The answers a run takes, each with the list it is applied to. *)
Definition answer {C} `{Client C} (l : Loop C) (s : syncState) : list (list Entry * FetchResult) :=
  match snd (Fetch (client l) (etag s)) with Ok (Some r) => [(cached s, r)] | _ => [] end.

Fixpoint answers {C} `{Client C} (l : Loop C) (s : syncState) (evs : list event) : list (list Entry * FetchResult) :=
  match evs with
  | [] | Done :: _ | RevalidateClosed :: _ => []
  | Tick w :: evs | Revalidate w :: evs => answer l s ++ answers (fst (sync l s w)) (snd (sync l s w)) evs
  end.

(** Every difference since the last full list is unmixed. *)
Definition kept_apart (ok : Prop) (a : list Entry * FetchResult) : Prop :=
  if Full (snd a) then True else ok /\ unmixed (fst a) (snd a).
Definition all_apart (ok : Prop) (l : list (list Entry * FetchResult)) : Prop := fold_left kept_apart l ok.

(** The resolver holds the revision the loop reports, if [ok]. *)
Definition in_step {C} (published : string -> option (list Entry)) (ok : Prop) (l : Loop C) (s : syncState) : Prop :=
  appliedETag l = etag s /\
  (etag s <> "" -> Snapshot (resolver l) = cached s /\
     resolver l = Update (resolver l) (cached s) /\
     exists cur, published (etag s) = Some cur /\ wf_list cur /\ (ok -> cached s ≡ₚ cur)).

(** The answers of [Run], its first sync included. *)
Definition loaded {C} (l : Loop C) : Loop C :=
  if persisting l then
    let '(r, e) := Load (resolver l) (disk l) in
    let l := {| l with resolver := r |} in
    match e with Some _ => log l LogLoadFailed | None => l end
  else l.
Definition Run_answers {C} `{Client C} (l : Loop C) (first : weather) (evs : list event) : list (list Entry * FetchResult) :=
  answers (loaded l) {| etag := ""; cached := [] |} (Tick first :: evs).

Definition fair (ev : event) : Prop :=
  match ev with Tick w | Revalidate w => is_order (w_order w) | _ => True end.

Section Tracking.
Context {C : Type} `{Client C} (published : string -> option (list Entry)) `{!ServerLaws C published}.

Lemma persist_resolver (l : Loop C) w : resolver (persist l w) = resolver l /\ appliedETag (persist l w) = appliedETag l.
Proof. unfold persist. destruct (persisting l), (w_write w); auto. Qed.

Lemma Update_idem r es : Update (Update r es) es = Update r es.
Proof. unfold Update. cbn. destruct (sr_notify r); reflexivity. Qed.

Lemma sync_in_step ok (l : Loop C) s w : is_order (w_order w) -> in_step published ok l s ->
  in_step published (all_apart ok (answer l s)) (fst (sync l s w)) (snd (sync l s w)).
Proof.
  intros Ho Hi. unfold sync, answer. destruct (Fetch (client l) (etag s)) as [c [[r|]|[]]] eqn:EF; cbn [snd all_apart fold_left].
  - cbn zeta. unfold in_step. destruct (persist_resolver (log {| {| l with client := c |} with
      resolver := Update (resolver l) (if Full r then Entries r else applyDiff (w_order w) (cached s) r); appliedETag := ETag r |}
      (LogUpdated (ETag r) (length (if Full r then Entries r else applyDiff (w_order w) (cached s) r)))) w) as [E1 E2].
    cbn [fst snd]. cbn in E1, E2 |- *. rewrite E1, E2. split; [reflexivity|]. intros _.
    split; [reflexivity|]. split; [symmetry; apply Update_idem|].
    destruct (fetch_published _ _ _ _ EF) as (tgt & Hp & Hw & HF & HD). exists tgt. split; [assumption|]. split; [assumption|].
    unfold kept_apart. cbn [fst snd]. destruct (Full r); [rewrite HF; reflexivity|]. intros [Hok Hu].
    destruct (HD eq_refl) as (Hk & cur & Hc & Hwc & Hdf). destruct Hi as (_ & Hi).
    destruct (Hi Hk) as (_ & _ & cur' & Hc' & _ & Hperm). specialize (Hperm Hok).
    assert (cur' = cur) as -> by congruence. symmetry in Hperm.
    apply applyDiff_perm; eauto using wf_list_perm, is_diff_perm.
  - exact Hi.
  - destruct (w_done w); exact Hi.
Qed.

Lemma run_in_step evs : forall ok (l : Loop C) s, Forall fair evs -> in_step published ok l s ->
  in_step published (all_apart ok (answers l s evs)) (fst (run_events l s evs)) (snd (run_events l s evs)).
Proof.
  induction evs as [|[|w|w|] evs IH]; intros ok l s Hf Hi; cbn [run_events answers]; try exact Hi;
    inversion Hf as [|? ? Hw Hf']; subst; pose proof (sync_in_step ok l s w Hw Hi) as Hs;
    destruct (sync l s w) as [l' s']; unfold all_apart; rewrite fold_left_app; apply IH; assumption.
Qed.

(** Which answers a run takes depends on the client alone. *)
Lemma sync_client (l l' : Loop C) s w : client l = client l' ->
  client (fst (sync l s w)) = client (fst (sync l' s w)) /\ snd (sync l s w) = snd (sync l' s w).
Proof.
  intros E. unfold sync, persist, log. rewrite E. destruct (Fetch _ _) as [c [[r|]|[]]]; cbn; try (destruct (w_done w); auto; fail).
  destruct (persisting l), (persisting l'), (w_write w); auto.
Qed.

Lemma answers_client evs : forall (l l' : Loop C) s, client l = client l' -> answers l s evs = answers l' s evs.
Proof.
  induction evs as [|[|w|w|] evs IH]; intros l l' s E; cbn [answers]; auto; unfold answer; rewrite E; f_equal;
    destruct (sync_client l l' s w E) as [E1 ->]; apply IH; assumption.
Qed.

Lemma Run_in_step (l : Loop C) w evs : is_order (w_order w) -> Forall fair evs -> appliedETag l = "" ->
  in_step published (all_apart True (Run_answers l w evs)) (fst (Run l w evs)) (snd (Run l w evs)).
Proof.
  intros Ho Hf Ha. unfold Run, Run_answers. fold (loaded l).
  assert (in_step published True (loaded l) {| etag := ""; cached := [] |}) as Hi.
  { split; [|intros []; reflexivity]. unfold loaded. destruct (persisting l); [|exact Ha].
    destruct (Load _ _) as [r [e|]]; exact Ha. }
  cbn [answers]. pose proof (sync_in_step True (loaded l) {| etag := ""; cached := [] |} w Ho Hi) as Hs.
  destruct (sync (loaded l) _ w) as [l2 s2]. unfold all_apart. rewrite fold_left_app. cbn [fst snd] in *.
  pose proof (run_in_step evs _ {| l2 with ready := true |} s2 Hf Hs) as Hr.
  rewrite (answers_client evs _ l2) in Hr by reflexivity. exact Hr.
Qed.

Lemma ready_run evs : forall (l : Loop C) s, ready l = true -> ready (fst (run_events l s evs)) = true.
Proof.
  assert (forall (l : Loop C) s w, ready l = true -> ready (fst (sync l s w)) = true) as Hs.
  { intros l s w Hl. unfold sync. destruct (Fetch _ _) as [c [[r|]|[]]]; cbn; auto.
    - unfold persist. cbn. destruct (persisting l), (w_write w); auto.
    - destruct (w_done w); auto. }
  induction evs as [|[|w|w|] evs IH]; intros l s Hl; cbn [run_events]; auto;
    specialize (Hs l s w Hl); destruct (sync l s w); auto.
Qed.

Lemma Update_serves es cur r e : es ≡ₚ cur -> wf_list cur ->
  let r := Update r es in
  (ResolveReverse r (PointID e) = Some e <-> e ∈ cur) /\
  (e ∈ cur -> ReleaseOf e = "" -> Resolve r (ConnectorID e) (LocalID e) = Some (PointID e)).
Proof.
  intros Hp Hw. symmetry in Hp. apply (wf_list_perm _ _ Hp) in Hw. pose proof Hw as [Hn _]. cbn.
  unfold ResolveReverse, synced_reverse, Resolve, synced_resolver. cbn [Update ptr reverse forward].
  rewrite reverse_lookup, Hp. split; [|intros; apply forward_complete; assumption].
  split; [intros E; apply last_entry_some in E; tauto|]. intros He.
  destruct (last_entry _ es) as [y|] eqn:E.
  - apply last_entry_some in E as [Hy Hq%String.eqb_eq]. f_equal. apply (pid_unique es); auto.
  - apply (last_entry_none _ _ _ E), String.eqb_neq in He. congruence.
Qed.

End Tracking.

(** Applying a diff gives the server's new list, in some order: for
    well-formed lists and a difference between them, renames included, provided no
    changed point moves to an address that another listed point held. *)
Theorem applyDiff_exact (o : map_order) (cur tgt : list Entry) (r : FetchResult) :
  is_order o -> wf_list cur -> wf_list tgt -> is_diff cur tgt r -> unmixed cur r ->
  applyDiff o cur r ≡ₚ tgt.
Proof. intros. apply applyDiff_perm; assumption. Qed.

Definition at_point (local pid : string) : Entry := mkEntry "" "c1" "bacnet" local pid "" false "" "".
Definition diff_of (added : list Entry) (removed : list string) (changed : list Entry) : FetchResult :=
  {| ETag := "e2"; Full := false; Entries := []; Added := added; Removed := removed; Changed := changed |}.

(** Membership in a list that is written out. *)
Ltac members :=
  repeat match goal with
  | H : _ ∈ _ :: _ |- _ => apply elem_of_cons in H as [->|H]
  | H : _ ∈ [] |- _ => inversion H
  | H : exists _, _ |- _ => destruct H
  | H : _ /\ _ |- _ => destruct H
  end.
Ltac in_list := apply list_elem_of_In; cbn; tauto.

Lemma not_listed l p l1 p1 l2 p2 : (l <> l1 \/ p <> p1) -> (l <> l2 \/ p <> p2) ->
  ~ (at_point l p ∈ [at_point l1 p1; at_point l2 p2]).
Proof.
  intros H1 H2 H. apply elem_of_cons in H as [[= -> ->]|H]; [tauto|].
  apply list_elem_of_singleton in H as [= -> ->]. tauto.
Qed.

Lemma wf_two l1 l2 p1 p2 : l1 <> l2 -> p1 <> p2 -> wf_list [at_point l1 p1; at_point l2 p2].
Proof.
  intros Hl Hp. split.
  - cbn. repeat constructor; intros H; members; congruence.
  - intros e e' He He' _ _ E. members; try reflexivity; cbn in E; injection E; congruence.
Qed.

Lemma order_singleton o p e : is_order o -> o {[p := e]} = [e].
Proof.
  intros Ho. apply Permutation_singleton_r. etransitivity; [apply Ho|]. rewrite map_to_list_singleton. reflexivity.
Qed.

(** When two points exchange addresses, the diff that says so drops one of
    them: the old index makes each a stale holder of the other's address, and
    the second change deletes the first.  The same happens when one point moves
    to the address a second one is leaving. *)
Theorem applyDiff_swap_drops (o : map_order) : is_order o ->
  let cur := [at_point "l1" "A"; at_point "l2" "B"] in
  let swapped := [at_point "l2" "A"; at_point "l1" "B"] in
  let moved := [at_point "l3" "B"; at_point "l2" "A"] in
  wf_list cur /\ wf_list swapped /\ wf_list moved /\
  is_diff cur swapped (diff_of [] [] swapped) /\ is_diff cur moved (diff_of [] [] moved) /\
  applyDiff o cur (diff_of [] [] swapped) = [at_point "l1" "B"] /\
  applyDiff o cur (diff_of [] [] moved) = [at_point "l2" "A"].
Proof.
  intros Ho. cbn zeta.
  assert (forall es, (forall p, p ∈ ["A"; "B"] -> exists e, e ∈ es /\ PointID e = p) ->
    is_diff [at_point "l1" "A"; at_point "l2" "B"] es (diff_of [] [] es)) as Hd.
  { intros es Hes. constructor; cbn [diff_of Added Removed Changed].
    - intros e [H|H]; [inversion H|exact H].
    - auto.
    - intros e _ H. inversion H.
    - intros c Hc Hn. exfalso. destruct (Hes (PointID c)) as (e & He & Ep); [members; in_list|]. exact (Hn e He Ep). }
  do 3 (split; [apply wf_two; discriminate|]).
  do 2 (split; [apply Hd; intros p Hp; members;
    first [exists (at_point "l2" "A"); split; [in_list|reflexivity]
      | exists (at_point "l1" "B"); split; [in_list|reflexivity] | exists (at_point "l3" "B"); split; [in_list|reflexivity]]|]).
  unfold applyDiff.
  split; [transitivity (o {["B" := at_point "l1" "B"]}) | transitivity (o {["A" := at_point "l2" "A"]})];
    first [apply order_singleton; assumption | apply (f_equal o); vm_compute; reflexivity].
Qed.

(** A server with two revisions; the difference adds a point, removes one and
    renames the third. *)
Module PointSyncExample.

Definition rev1 : list Entry := [at_point "l1" "A"; at_point "l2" "B"].
Definition rev2 : list Entry := [at_point "l1" "A2"; at_point "l3" "C"].
Definition step12 : FetchResult := diff_of [at_point "l3" "C"] ["B"] [at_point "l1" "A2"].
Definition publishedEx (e : string) : option (list Entry) :=
  if String.eqb e "e1" then Some rev1 else if String.eqb e "e2" then Some rev2 else None.

(** The state is the current revision's number; every fetch moves it on. *)
#[export] Instance two_revs : Client bool := fun c known =>
  (true, Ok (if negb c then Some {| ETag := "e1"; Full := true; Entries := rev1; Added := []; Removed := []; Changed := [] |}
             else if String.eqb known "e2" then None
             else if String.eqb known "e1" then Some step12
             else Some {| ETag := "e2"; Full := true; Entries := rev2; Added := []; Removed := []; Changed := [] |})).

Lemma step12_diff : is_diff rev1 rev2 step12.
Proof.
  constructor; cbn [step12 diff_of Added Removed Changed].
  - intros e [H|H]; members; in_list.
  - intros e H. unfold rev2 in H. members; [right; right|right; left]; in_list.
  - intros e H Hr%list_elem_of_singleton. unfold rev2 in H. members; discriminate.
  - intros c Hc _. unfold rev1 in Hc. members; [right|left; in_list].
    exists (at_point "l1" "A2"). split; [in_list|]. repeat split; discriminate.
Qed.

Lemma step12_unmixed : unmixed rev1 step12.
Proof.
  intros e c e' He _ Hc _ Hk Hne He'. cbn [step12 diff_of Added Changed] in He, He'. unfold rev1 in Hc.
  destruct He' as [He'|He']; members; try discriminate.
Qed.

#[export] Instance two_revs_laws : ServerLaws bool publishedEx.
Proof.
  intros c known c' r. unfold Fetch, two_revs. destruct c; cbn [negb].
  - destruct (String.eqb_spec known "e2"); [discriminate|]. destruct (String.eqb_spec known "e1") as [->|].
    + intros [= _ <-]. exists rev2. split; [reflexivity|]. split; [apply wf_two; discriminate|].
      split; [discriminate|]. intros _. split; [discriminate|]. exists rev1.
      split; [reflexivity|]. split; [apply wf_two; discriminate|]. exact step12_diff.
    + intros [= _ <-]. exists rev2. split; [reflexivity|]. split; [apply wf_two; discriminate|]. split; [auto|discriminate].
  - intros [= _ <-]. exists rev1. split; [reflexivity|]. split; [apply wf_two; discriminate|]. split; [auto|discriminate].
Qed.

Definition any_order : map_order := fun m => (map_to_list m).*2.
Definition calm : weather := {| w_order := any_order; w_done := false; w_write := None |}.


Lemma applyDiff_exact_witness : applyDiff any_order rev1 step12 ≡ₚ rev2.
Proof.
  apply applyDiff_exact; [intros m; reflexivity|apply wf_two; discriminate|apply wf_two; discriminate|exact step12_diff|exact step12_unmixed].
Defined.

Lemma applyDiff_swap_drops_witness :
  applyDiff any_order rev1 (diff_of [] [] [at_point "l2" "A"; at_point "l1" "B"]) = [at_point "l1" "B"].
Proof. apply (applyDiff_swap_drops any_order). intros m. reflexivity. Defined.

End PointSyncExample.
