(* ===== verification/Catalog.v ===== *)
(** * The connector catalog

    [src/internal/catalog]: the manifest of a connector, the checks it passes
    before anything is pulled, the clients that fetch it and the signature
    verifier.  HTTP, the file system and the cosign process are inputs.  The
    theorems show what a validated manifest satisfies, that versions compare
    numerically, and where the registry check admits more than the registries
    listed. *)

From Stdlib Require Import ZArith Lia Bool Ascii String List.
From stdpp Require Import base list strings.
From S2P Require Import Prelude Json GoText Float Provisioning.
#[local] Open Scope string_scope.
#[local] Open Scope list_scope.
#[local] Open Scope Z_scope.

(** ** Manifests *)

Record Permissions := { Network : list string; Mounts : list string }.

Record Manifest := {
  mf_Name : string; mf_Version : string; mf_Image : string; mf_Digest : string; MinGatewayVersion : string;
  mf_Permissions : Permissions; SignatureRequired : bool
}.

Inductive manifest_error := ErrNoDigest | ErrInvalidDigest | ErrRegistryNotAllowed | ErrVersionTooOld.

Definition ImageRef (m : Manifest) : string := mf_Image m +:+ "@" +:+ mf_Digest m.

Definition is_lower_hex (c : ascii) : bool := is_digit c || between 97 102 (code c).

Fixpoint all_str (f : ascii -> bool) (s : string) : bool :=
  match s with EmptyString => true | String c r => f c && all_str f r end.

(** The pattern [^sha256:[0-9a-f]{64}$]. *)
Definition digestPattern (s : string) : bool :=
  match strip_prefix "sha256:" s with
  | Some hex => Nat.eqb (String.length hex) 64 && all_str is_lower_hex hex
  | None => false
  end.

Definition registryAllowed (image : string) (allowed : list string) : bool := existsb (has_prefix image) allowed.

(** ** Versions *)

(** [SkipSpace] of a formatted scan: a newline is an error. *)
Fixpoint scan_space (fuel : nat) (s : string) : option string :=
  match fuel with
  | O => Some s
  | S f =>
    match s with
    | String c _ =>
      if code c =? 10 then None
      else match space_len s with O => Some s | n => scan_space f (drop_str n s) end
    | EmptyString => Some s
    end
  end.

Definition signed (c : ascii) : bool := (code c =? 43) || (code c =? 45).

(** The verb [%d] into an [int]. *)
Definition scan_d (s : string) : option (Z * string) :=
  match scan_space (String.length s) s with
  | None => None
  | Some s =>
    let '(neg, t) := match s with
                     | String c r => if signed c then (code c =? 45, r) else (false, s)
                     | EmptyString => (false, s)
                     end in
    match span_digits t with
    | (EmptyString, _) => None
    | (d, rest) =>
      let z := if neg then - digits_val 0 d else digits_val 0 d in
      if between (- 2 ^ 63) (2 ^ 63 - 1) z then Some (z, rest) else None
    end
  end.

Definition scan_dot (s : string) : option string := strip_prefix "." s.

(** [parseSemver]: the parts scanned before the first that is not as the format
    wants; the others are zero. *)
Definition parseSemver (v : string) : Z * Z * Z :=
  match scan_d (trim_prefix v "v") with
  | None => (0, 0, 0)
  | Some (major, s) =>
    match scan_dot s with
    | None => (major, 0, 0)
    | Some s =>
      match scan_d s with
      | None => (major, 0, 0)
      | Some (minor, s) =>
        match scan_dot s with
        | None => (major, minor, 0)
        | Some s => match scan_d s with None => (major, minor, 0) | Some (patch, _) => (major, minor, patch) end
        end
      end
    end
  end.

Definition semverLess (a b : string) : bool :=
  let '(a1, a2, a3) := parseSemver a in
  let '(b1, b2, b3) := parseSemver b in
  if negb (a1 =? b1) then a1 <? b1 else if negb (a2 =? b2) then a2 <? b2 else if negb (a3 =? b3) then a3 <? b3 else false.

Definition Validate (m : Manifest) (allowedRegistries : list string) (gatewayVersion : string) : result manifest_error unit :=
  if String.eqb (mf_Digest m) "" then Err ErrNoDigest
  else if negb (digestPattern (mf_Digest m)) then Err ErrInvalidDigest
  else if negb (registryAllowed (mf_Image m) allowedRegistries) then Err ErrRegistryNotAllowed
  else if negb (String.eqb (MinGatewayVersion m) "") && semverLess gatewayVersion (MinGatewayVersion m) then
    Err ErrVersionTooOld
  else Ok tt.

(** ** Clients *)

Definition perm_names : list string := ["network"; "mounts"].
Definition perm_set (f : string) (v : json) (p : Permissions) : option Permissions :=
  if String.eqb f "network" then option_map (fun l => {| p with Network := l |}) (decode_slice (decode_str "") v)
  else if String.eqb f "mounts" then option_map (fun l => {| p with Mounts := l |}) (decode_slice (decode_str "") v)
  else Some p.

Definition manifest_names : list string :=
  ["name"; "version"; "image"; "digest"; "min_gateway_version"; "permissions"; "signature_required"].
Definition manifest_set (f : string) (v : json) (m : Manifest) : option Manifest :=
  if String.eqb f "name" then option_map (fun s => {| m with mf_Name := s |}) (decode_str (mf_Name m) v)
  else if String.eqb f "version" then option_map (fun s => {| m with mf_Version := s |}) (decode_str (mf_Version m) v)
  else if String.eqb f "image" then option_map (fun s => {| m with mf_Image := s |}) (decode_str (mf_Image m) v)
  else if String.eqb f "digest" then option_map (fun s => {| m with mf_Digest := s |}) (decode_str (mf_Digest m) v)
  else if String.eqb f "min_gateway_version" then
    option_map (fun s => {| m with MinGatewayVersion := s |}) (decode_str (MinGatewayVersion m) v)
  else if String.eqb f "permissions" then
    option_map (fun p => {| m with mf_Permissions := p |}) (decode_struct false perm_names perm_set (mf_Permissions m) v)
  else if String.eqb f "signature_required" then
    option_map (fun b => {| m with SignatureRequired := b |}) (decode_bool (SignatureRequired m) v)
  else Some m.

Definition zero_manifest : Manifest :=
  {| mf_Name := ""; mf_Version := ""; mf_Image := ""; mf_Digest := ""; MinGatewayVersion := "";
     mf_Permissions := {| Network := []; Mounts := [] |}; SignatureRequired := false |}.

Definition manifest_dec : json -> option Manifest := decode_struct false manifest_names manifest_set zero_manifest.

Inductive catalog_error := ErrManifestNotFound | ErrFetch.

(** [Decode] reads the first value of the body. *)
Definition body_value (body : string) : option json := option_map fst (parse_prefix body).

Definition catalog_request (baseURL path : string) : request := {| rq_url := baseURL +:+ path; rq_if_none_match := None |}.

Definition http_catalog_Fetch {K} `{HttpDo K} (k : K) (baseURL name : string) : K * result catalog_error Manifest :=
  let '(k, r) := http_do k (catalog_request baseURL ("/connectors/" +:+ name)) in
  match r with
  | None => (k, Err ErrFetch)
  | Some resp =>
    if rs_status resp =? 404 then (k, Err ErrManifestNotFound)
    else if negb (rs_status resp =? 200) then (k, Err ErrFetch)
    else match body_value (rs_body resp) with
         | Some v => match manifest_dec v with Some m => (k, Ok m) | None => (k, Err ErrFetch) end
         | None => (k, Err ErrFetch)
         end
  end.

Definition http_catalog_List {K} `{HttpDo K} (k : K) (baseURL : string) : K * result catalog_error (list Manifest) :=
  let '(k, r) := http_do k (catalog_request baseURL "/connectors") in
  match r with
  | None => (k, Err ErrFetch)
  | Some resp =>
    if negb (rs_status resp =? 200) then (k, Err ErrFetch)
    else match body_value (rs_body resp) with
         | Some v => match decode_slice manifest_dec v with Some l => (k, Ok l) | None => (k, Err ErrFetch) end
         | None => (k, Err ErrFetch)
         end
  end.

(** [file] is what [os.ReadFile] gave. *)
Definition file_catalog_List (file : option string) : result catalog_error (list Manifest) :=
  match file with
  | None => Err ErrFetch
  | Some data =>
    match parse data with
    | Some v => match decode_slice manifest_dec v with Some l => Ok l | None => Err ErrFetch end
    | None => Err ErrFetch
    end
  end.

Definition file_catalog_Fetch (file : option string) (name : string) : result catalog_error Manifest :=
  match file_catalog_List file with
  | Err e => Err e
  | Ok l => match List.find (fun m => String.eqb (mf_Name m) name) l with
            | Some m => Ok m
            | None => Err ErrManifestNotFound
            end
  end.

(** ** Signatures *)

Record CosignVerifier := { KeyPath : string; Identity : string; OIDCIssuer : string }.

(** The command line of cosign. *)
Definition cosign_args (v : CosignVerifier) (imageRef : string) : list string :=
  ["verify"] ++
  (if negb (String.eqb (KeyPath v) "") then ["--key"; KeyPath v]
   else (if negb (String.eqb (Identity v) "") then ["--certificate-identity"; Identity v] else [])
        ++ (if negb (String.eqb (OIDCIssuer v) "") then ["--certificate-oidc-issuer"; OIDCIssuer v] else []))
  ++ [imageRef].

(** [run] says whether the process succeeded. *)
Definition cosign_Verify (run : list string -> bool) (v : CosignVerifier) (imageRef : string) : bool :=
  run (cosign_args v imageRef).

(** ** Versions compare numerically *)

Definition version_text (a b c : Z) : string := itoa a +:+ "." +:+ itoa b +:+ "." +:+ itoa c.

Lemma span_app_digits d rest : all_digits d = true ->
  match rest with String c _ => is_digit c = false | EmptyString => True end -> span_digits (d +:+ rest) = (d, rest).
Proof.
  induction d as [|c d IH]; intros Hd Hr.
  - destruct rest as [|c r]; [reflexivity|]. change ("" +:+ String c r) with (String c r). cbn [span_digits]. rewrite Hr. reflexivity.
  - cbn in Hd. bools. change (String c d +:+ rest) with (String c (d +:+ rest)). cbn [span_digits]. rewrite H, IH by assumption. reflexivity.
Qed.

Lemma digit_code c : is_digit c = true -> 48 <= code c <= 57.
Proof. unfold is_digit, between. intros H. bools. lia. Qed.

Lemma scan_space_digit n c r : is_digit c = true \/ signed c = true -> scan_space n (String c r) = Some (String c r).
Proof.
  intros Hc. destruct n as [|n]; [reflexivity|]. cbn [scan_space].
  assert (48 <= code c <= 57 \/ code c = 43 \/ code c = 45) as Hr
    by (destruct Hc as [H%digit_code|H]; [auto|unfold signed in H; bools; lia]).
  destruct (Z.eqb_spec (code c) 10); [lia|]. assert (space_len (String c r) = O) as ->; [|reflexivity].
  cbn [space_len]. unfold is_ascii_space, between.
  destruct ((9 <=? code c) && (code c <=? 13) || (code c =? 32)) eqn:E; [bools; lia|].
  destruct r as [|b r]; [reflexivity|]. replace (code c =? 194) with false by lia. cbn [andb].
  destruct r as [|e r]; [reflexivity|]. replace (code c =? 225) with false by lia. replace (code c =? 226) with false by lia.
  replace (code c =? 227) with false by lia. reflexivity.
Qed.

Lemma scan_d_itoa z rest : - 2 ^ 63 <= z < 2 ^ 63 -> match rest with String c _ => is_digit c = false | EmptyString => True end ->
  scan_d (itoa z +:+ rest) = Some (z, rest).
Proof.
  intros Hz Hr. unfold scan_d, itoa. destruct (Z.ltb_spec z 0) as [Hneg|Hpos].
  - destruct (dec_string_spec (- z) ltac:(lia)) as (Hv & Ha & c & r & E & _).
    change (("-" ++ dec_string (- z))%string +:+ rest) with (String "-" (dec_string (- z) +:+ rest)).
    rewrite scan_space_digit by (right; reflexivity). cbn [signed]. change (signed "-") with true. cbv iota beta zeta.
    rewrite span_app_digits by assumption. rewrite E in *. rewrite Hv. change (code "-" =? 45) with true. cbv iota.
    unfold between. replace (- 2 ^ 63 <=? - - z) with true by lia. replace (- - z <=? 2 ^ 63 - 1) with true by lia.
    cbn [andb]. repeat f_equal. lia.
  - destruct (dec_string_spec z ltac:(lia)) as (Hv & Ha & c & r & E & _).
    assert (is_digit c = true) as Hc by (rewrite E in Ha; cbn in Ha; bools; assumption).
    assert (signed c = false) as Hs by (apply digit_code in Hc; unfold signed; lia).
    pose proof (span_app_digits (dec_string z) rest Ha Hr) as Hsp. rewrite E in *.
    change (String c r +:+ rest) with (String c (r +:+ rest)) in *. rewrite scan_space_digit by auto. rewrite Hs. cbv iota beta zeta.
    rewrite Hsp, Hv.
    unfold between. replace (- 2 ^ 63 <=? z) with true by lia. replace (z <=? 2 ^ 63 - 1) with true by lia. reflexivity.
Qed.

Lemma trim_v s : trim_prefix ("v" +:+ s) "v" = s.
Proof.
  unfold trim_prefix. replace (has_prefix ("v" +:+ s) "v") with true by (symmetry; apply has_prefix_spec; eauto).
  destruct s; reflexivity.
Qed.

Lemma trim_v_itoa z rest : trim_prefix (itoa z +:+ rest) "v" = itoa z +:+ rest.
Proof.
  unfold itoa. destruct (Z.ltb_spec z 0); [reflexivity|].
  destruct (dec_string_spec z ltac:(lia)) as (_ & Ha & c & r & E & _). rewrite E in *. cbn in Ha. apply andb_prop in Ha as [Hc%digit_code _].
  change (String c r +:+ rest) with (String c (r +:+ rest)). unfold trim_prefix. cbn [has_prefix].
  destruct (Ascii.eqb_spec "v" c) as [<-|]; [vm_compute in Hc; destruct Hc as [_ []]; reflexivity|reflexivity].
Qed.

Lemma dot_not_digit r : is_digit "." = false /\ scan_dot ("." +:+ r) = Some r.
Proof. split; reflexivity. Qed.

Lemma parse_version_text a b c : in_i64 a -> in_i64 b -> in_i64 c ->
  parseSemver (version_text a b c) = (a, b, c) /\ parseSemver ("v" +:+ version_text a b c) = (a, b, c).
Proof.
  unfold in_i64. intros Ha Hb Hc.
  assert (forall s, s = version_text a b c -> match scan_d s with
    | None => (0, 0, 0)
    | Some (major, s) =>
      match scan_dot s with
      | None => (major, 0, 0)
      | Some s => match scan_d s with
        | None => (major, 0, 0)
        | Some (minor, s) => match scan_dot s with
          | None => (major, minor, 0)
          | Some s => match scan_d s with None => (major, minor, 0) | Some (patch, _) => (major, minor, patch) end
          end
        end
      end
    end = (a, b, c)) as Hp.
  { intros s ->. unfold version_text. rewrite scan_d_itoa by (auto; reflexivity). cbv iota beta zeta.
    rewrite (proj2 (dot_not_digit _)), scan_d_itoa by (auto; reflexivity). cbv iota beta zeta.
    rewrite (proj2 (dot_not_digit _)). rewrite <- (append_empty_r (itoa c)), scan_d_itoa by auto. reflexivity. }
  split; unfold parseSemver; apply Hp; [apply trim_v_itoa|apply trim_v].
Qed.

Definition version_lt (x y : Z * Z * Z) : Prop :=
  let '(a1, a2, a3) := x in let '(b1, b2, b3) := y in
  a1 < b1 \/ (a1 = b1 /\ (a2 < b2 \/ (a2 = b2 /\ a3 < b3))).

Lemma semverLess_spec a b : semverLess a b = true <-> version_lt (parseSemver a) (parseSemver b).
Proof.
  unfold semverLess, version_lt. destruct (parseSemver a) as [[a1 a2] a3], (parseSemver b) as [[b1 b2] b3].
  destruct (Z.eqb_spec a1 b1); cbn [negb]; [|lia]. destruct (Z.eqb_spec a2 b2); cbn [negb]; [|lia].
  destruct (Z.eqb_spec a3 b3); cbn [negb]; lia.
Qed.

(** Versions written as numbers, with or without the leading v, compare as the
    numbers do. *)
Lemma semver_numeric a1 a2 a3 b1 b2 b3 :
  in_i64 a1 -> in_i64 a2 -> in_i64 a3 -> in_i64 b1 -> in_i64 b2 -> in_i64 b3 ->
  semverLess (version_text a1 a2 a3) ("v" +:+ version_text b1 b2 b3) = true <-> version_lt (a1, a2, a3) (b1, b2, b3).
Proof.
  intros. rewrite semverLess_spec. destruct (parse_version_text a1 a2 a3) as [-> _]; [assumption..|].
  destruct (parse_version_text b1 b2 b3) as [_ ->]; [assumption..|]. reflexivity.
Qed.

(** ** What a valid manifest satisfies *)

Lemma strip_prefix_inv p s r : strip_prefix p s = Some r -> s = p +:+ r.
Proof.
  revert s. induction p as [|c p IH]; intros s; cbn [strip_prefix]; [intros [= ->]; reflexivity|].
  destruct s as [|d s]; [discriminate|]. destruct (Ascii.eqb_spec c d) as [->|]; [|discriminate].
  intros ->%IH. reflexivity.
Qed.

(** A manifest passes exactly when its digest is sha256 with 64 lower-case
    hex digits, its image starts with an allowed entry, and the gateway is not
    older than the version it asks for, versions being compared numerically
    part by part; the reference then pulled is the image pinned to that
    digest. *)
Theorem Validate_exact (m : Manifest) (allowed : list string) (gw : string) :
  Validate m allowed gw = Ok tt <->
  (exists hex, mf_Digest m = "sha256:" +:+ hex /\ String.length hex = 64%nat /\ all_str is_lower_hex hex = true /\
     ImageRef m = mf_Image m +:+ "@sha256:" +:+ hex) /\
  (exists a rest, a ∈ allowed /\ mf_Image m = a +:+ rest) /\
  (MinGatewayVersion m = "" \/ ~ version_lt (parseSemver gw) (parseSemver (MinGatewayVersion m))).
Proof.
  assert (digestPattern (mf_Digest m) = true <-> (exists hex, mf_Digest m = "sha256:" +:+ hex /\ String.length hex = 64%nat /\
    all_str is_lower_hex hex = true /\ ImageRef m = mf_Image m +:+ "@sha256:" +:+ hex)) as <-.
  { unfold digestPattern, ImageRef. split.
    - destruct (strip_prefix "sha256:" (mf_Digest m)) as [hex|] eqn:E; [|discriminate]. intros H. bools. apply Nat.eqb_eq in H.
      apply strip_prefix_inv in E as ->. exists hex. auto.
    - intros (hex & -> & Hl & Ha & _). change (strip_prefix "sha256:" ("sha256:" +:+ hex)) with (Some hex). cbv iota beta. rewrite Hl, Ha. reflexivity. }
  assert (registryAllowed (mf_Image m) allowed = true <-> (exists a rest, a ∈ allowed /\ mf_Image m = a +:+ rest)) as <-.
  { unfold registryAllowed. rewrite existsb_exists. split.
    - intros (a & Hin & [r E]%has_prefix_spec). exists a, r. rewrite list_elem_of_In. auto.
    - intros (a & r & Hin & E). exists a. rewrite <- list_elem_of_In, has_prefix_spec. eauto. }
  rewrite <- semverLess_spec. unfold Validate.
  destruct (String.eqb_spec (mf_Digest m) "") as [->|_]; [split; [discriminate|intros [H _]; discriminate]|].
  destruct (digestPattern _); cbn [negb]; [|split; [discriminate|intros [H _]; discriminate]].
  destruct (registryAllowed _ _); cbn [negb]; [|split; [discriminate|intros (_ & H & _); discriminate]].
  destruct (String.eqb_spec (MinGatewayVersion m) "") as [E|E]; cbn [negb andb]; [tauto|].
  destruct (semverLess gw _); split; [discriminate|tauto|intros _|reflexivity]. repeat split. right. discriminate.
Qed.

(** ** Where the checks are wider than they say *)

(** The registry list is matched as a string prefix, not by host: whatever
    follows an allowed registry's name is accepted, so with the default list a
    host that merely starts with it passes. *)
Theorem registry_prefix_escapes :
  (forall a suffix, registryAllowed (a +:+ suffix) [a] = true) /\
  registryAllowed "ghcr.io.attacker.example/connector" ["ghcr.io"] = true.
Proof.
  split; [|reflexivity]. intros a suffix. unfold registryAllowed. cbn. rewrite orb_false_r. apply has_prefix_spec. eauto.
Qed.

(** Parts that are not numbers count as zero, and so does everything after
    them: such versions are not ordered lexicographically but are all equal. *)
Theorem nonnumeric_versions_equal :
  semverLess "1.alpha.0" "1.beta.0" = false /\ semverLess "1.beta.0" "1.alpha.0" = false /\ semverLess "edge" "0.0.1" = true /\
  semverLess "1.x.9" "1.0.1" = true.
Proof. vm_compute. auto. Qed.
