(* ===== verification/ClockConfig.v ===== *)
(** * Staging of clock snapshots

    [src/internal/provisioning/clock.go] and [clock_http.go]: the strict decoder
    of a full provisioning snapshot, its content hash, the native bundle and
    the mapping it stages, and the client that fetches it.

    A snapshot is accepted only when it hashes to its own revision and its
    points, clocks, bindings and releases are consistent; the theorems say what
    an accepted snapshot satisfies and what a fetch may answer. *)

From Stdlib Require Import ZArith Lia Bool Ascii String List.
From stdpp Require Import base list strings gmap sorting.
From S2P Require Import Prelude Json GoText Sha256 Float Encoding PointList Transport Provisioning.
#[local] Open Scope string_scope.
#[local] Open Scope list_scope.
#[local] Open Scope Z_scope.
#[local] Open Scope go_scope.

(** ** The snapshot *)

Record clockNative := {
  cn_Protocol : string; cn_GatewayID : string; cn_ConnectorID : string; cn_DeviceInstance : option Z;
  cn_ObjectType : string; cn_ObjectInstance : option Z; cn_Property : string; cn_Unit : string
}.

Record clockSource := {
  cs_ClockID : string; cs_ClockDomain : string; cs_Unit : string; cs_ReadOnly : bool;
  cs_AcquisitionMode : string; cs_Native : clockNative
}.

Record clockBinding := { cb_EquipmentID : string; cb_ClockID : string }.

(** A Go slice under [json.Unmarshal]: a later occurrence of the same key
    decodes into the elements that are still in the backing array. *)
Record slice (A : Type) := { sl_len : nat; sl_back : list A }.
Arguments sl_len {A} _.
Arguments sl_back {A} _.
Definition nil_slice {A} : slice A := {| sl_len := 0; sl_back := [] |}.
Definition sl_list {A} (s : slice A) : list A := take (sl_len s) (sl_back s).

Record clockSnapshot := {
  s_SchemaVersion : string; s_GatewayID : string; s_Revision : string; s_GeneratedAt : string;
  s_Points : slice gatewayPointDTO; s_ClockSources : slice clockSource; s_ClockBindings : slice clockBinding
}.

(** What the connector is given: no canonical point identifiers. *)
Record NativeClock := { nc_ClockID : string; nc_LocalID : string; nc_Property : string; nc_PointLocalIDs : list string }.
Record NativeClockPoint := { np_LocalID : string; np_DeviceRef : string; np_Unit : string; np_Writable : bool }.
Record NativeClockConfig := {
  nk_Revision : string; nk_ConnectorID : string; nk_DeviceID : Z;
  nk_Points : list NativeClockPoint; nk_Clocks : list NativeClock
}.

(** ** Strict decoding *)

Definition decode_i64 : Z -> json -> option Z := decode_int (- 2 ^ 63) (2 ^ 63 - 1).

Fixpoint decode_into {A} (dec : A -> json -> option A) (zero : A) (back : list A) (l : list json) : option (list A) :=
  match l with
  | [] => Some back
  | v :: l' =>
    match dec (default zero (head back)) v with
    | Some a => option_map (cons a) (decode_into dec zero (tail back) l')
    | None => None
    end
  end.

Definition decode_array {A} (dec : A -> json -> option A) (zero : A) (cur : slice A) (v : json) : option (slice A) :=
  match v with
  | JNull | JArr [] => Some nil_slice
  | JArr l => option_map (fun b => {| sl_len := length l; sl_back := b |}) (decode_into dec zero (sl_back cur) l)
  | _ => None
  end.

Definition cn_names : list string :=
  ["protocol"; "gatewayId"; "connectorId"; "deviceInstance"; "objectType"; "objectInstance"; "property"; "unit"].

Definition cn_set (f : string) (v : json) (n : clockNative) : option clockNative :=
  if String.eqb f "protocol" then option_map (fun s => {| n with cn_Protocol := s |}) (decode_str (cn_Protocol n) v)
  else if String.eqb f "gatewayId" then option_map (fun s => {| n with cn_GatewayID := s |}) (decode_str (cn_GatewayID n) v)
  else if String.eqb f "connectorId" then
    option_map (fun s => {| n with cn_ConnectorID := s |}) (decode_str (cn_ConnectorID n) v)
  else if String.eqb f "deviceInstance" then
    option_map (fun s => {| n with cn_DeviceInstance := s |}) (decode_ptr decode_i64 0 (cn_DeviceInstance n) v)
  else if String.eqb f "objectType" then option_map (fun s => {| n with cn_ObjectType := s |}) (decode_str (cn_ObjectType n) v)
  else if String.eqb f "objectInstance" then
    option_map (fun s => {| n with cn_ObjectInstance := s |}) (decode_ptr decode_i64 0 (cn_ObjectInstance n) v)
  else if String.eqb f "property" then option_map (fun s => {| n with cn_Property := s |}) (decode_str (cn_Property n) v)
  else if String.eqb f "unit" then option_map (fun s => {| n with cn_Unit := s |}) (decode_str (cn_Unit n) v)
  else Some n.

Definition source_names : list string := ["clockId"; "clockDomain"; "unit"; "readOnly"; "acquisitionMode"; "native"].

Definition source_set (f : string) (v : json) (c : clockSource) : option clockSource :=
  if String.eqb f "clockId" then option_map (fun s => {| c with cs_ClockID := s |}) (decode_str (cs_ClockID c) v)
  else if String.eqb f "clockDomain" then option_map (fun s => {| c with cs_ClockDomain := s |}) (decode_str (cs_ClockDomain c) v)
  else if String.eqb f "unit" then option_map (fun s => {| c with cs_Unit := s |}) (decode_str (cs_Unit c) v)
  else if String.eqb f "readOnly" then option_map (fun s => {| c with cs_ReadOnly := s |}) (decode_bool (cs_ReadOnly c) v)
  else if String.eqb f "acquisitionMode" then
    option_map (fun s => {| c with cs_AcquisitionMode := s |}) (decode_str (cs_AcquisitionMode c) v)
  else if String.eqb f "native" then
    option_map (fun s => {| c with cs_Native := s |}) (decode_struct true cn_names cn_set (cs_Native c) v)
  else Some c.

Definition binding_names : list string := ["equipmentId"; "clockId"].

Definition binding_set (f : string) (v : json) (b : clockBinding) : option clockBinding :=
  if String.eqb f "equipmentId" then option_map (fun s => {| b with cb_EquipmentID := s |}) (decode_str (cb_EquipmentID b) v)
  else if String.eqb f "clockId" then option_map (fun s => {| b with cb_ClockID := s |}) (decode_str (cb_ClockID b) v)
  else Some b.

Definition zero_source : clockSource :=
  {| cs_ClockID := ""; cs_ClockDomain := ""; cs_Unit := ""; cs_ReadOnly := false; cs_AcquisitionMode := "";
     cs_Native := Build_clockNative "" "" "" None "" None "" "" |}.

Definition snapshot_names : list string :=
  ["schemaVersion"; "gatewayId"; "revision"; "generatedAt"; "points"; "clockSources"; "clockBindings"].

Definition snapshot_set (f : string) (v : json) (s : clockSnapshot) : option clockSnapshot :=
  if String.eqb f "schemaVersion" then
    option_map (fun x => {| s with s_SchemaVersion := x |}) (decode_str (s_SchemaVersion s) v)
  else if String.eqb f "gatewayId" then option_map (fun x => {| s with s_GatewayID := x |}) (decode_str (s_GatewayID s) v)
  else if String.eqb f "revision" then option_map (fun x => {| s with s_Revision := x |}) (decode_str (s_Revision s) v)
  else if String.eqb f "generatedAt" then option_map (fun x => {| s with s_GeneratedAt := x |}) (decode_str (s_GeneratedAt s) v)
  else if String.eqb f "points" then
    option_map (fun x => {| s with s_Points := x |}) (decode_array (dto_dec true) zero_dto (s_Points s) v)
  else if String.eqb f "clockSources" then
    option_map (fun x => {| s with s_ClockSources := x |})
      (decode_array (decode_struct true source_names source_set) zero_source (s_ClockSources s) v)
  else if String.eqb f "clockBindings" then
    option_map (fun x => {| s with s_ClockBindings := x |})
      (decode_array (decode_struct true binding_names binding_set) (Build_clockBinding "" "") (s_ClockBindings s) v)
  else Some s.

Definition zero_snapshot : clockSnapshot :=
  {| s_SchemaVersion := ""; s_GatewayID := ""; s_Revision := ""; s_GeneratedAt := ""; s_Points := nil_slice;
     s_ClockSources := nil_slice; s_ClockBindings := nil_slice |}.

Definition snapshot_decode : json -> option clockSnapshot := decode_struct true snapshot_names snapshot_set zero_snapshot.

(** ** The canonical form and its hash *)

Inductive stage_error :=
  DecodeFailed | BadScope | NullProperty | NotInteger | DuplicateKey | TrailingData | NotObject | ArraysRequired
| RevisionMismatch | BadOrder | BadClock | DuplicateClock | DuplicateAddress | DanglingBinding | ConflictingBinding
| BadRelease | BadPoint | BadInstance | AmbiguousAddress | NoEquipmentID | NoEquipment | BadTarget | EmptyEquipment
| UnboundClock.

(** [strconv.ParseInt(s, 10, 64)] and [strconv.Atoi]. *)
Definition parse_i64 (s : string) : option Z :=
  let '(neg, d) :=
    match s with String "-" r => (true, r) | String "+" r => (false, r) | _ => (false, s) end in
  if negb (String.eqb d "") && all_digits d then
    let z := if (neg : bool) then - digits_val 0 d else digits_val 0 d in
    if between (- 2 ^ 63) (2 ^ 63 - 1) z then Some z else None
  else None.

Definition has_key {A} (k : string) (l : list (string * A)) : bool := existsb (fun kv => String.eqb (fst kv) k) l.

Fixpoint clockJSONValue (v : json) : result stage_error json :=
  match v with
  | JNull => Err NullProperty
  | JNum lit => match parse_i64 lit with Some _ => Ok v | None => Err NotInteger end
  | JObj l =>
    (fix members acc l :=
       match l with
       | [] => Ok (JObj acc)
       | (name, x) :: l' =>
         if has_key name acc then Err DuplicateKey
         else let! value := clockJSONValue x in members (acc ++ [(name, value)]) l'
       end) [] l
  | JArr l =>
    (fix elems acc l :=
       match l with
       | [] => Ok (JArr acc)
       | x :: l' => let! value := clockJSONValue x in elems (acc ++ [value]) l'
       end) [] l
  | JBool _ | JStr _ => Ok v
  end.

(** A quoted string without HTML escaping. *)
Definition raw_byte (c : ascii) : string :=
  if (code c =? 38) || (code c =? 60) || (code c =? 62) then String c "" else quote_byte c.

Fixpoint raw_body (s : string) : string :=
  match s with
  | EmptyString => ""
  | String c r =>
    if code c <? 128 then raw_byte c +:+ raw_body r
    else
      match utf8_len c r, r with
      | 2%nat, String c1 r1 => String c (String c1 (raw_body r1))
      | 3%nat, String c1 (String c2 r2) =>
          if is_line_sep c c1 c2 then escape_u (8232 + (code c2 - 168)) +:+ raw_body r2
          else String c (String c1 (String c2 (raw_body r2)))
      | 4%nat, String c1 (String c2 (String c3 r3)) =>
          String c (String c1 (String c2 (String c3 (raw_body r3))))
      | _, _ => escape_u 65533 +:+ raw_body r
      end
  end.

Definition raw_quote (s : string) : string := str1 34 +:+ raw_body s +:+ str1 34.

Definition name_le (a b : string * string) : Prop := String.leb (fst a) (fst b) = true.
#[export] Instance name_le_dec a b : Decision (name_le a b).
Proof. unfold name_le. apply _. Defined.

(** [json.Encoder.Encode] of a value with maps for objects, without its final
    newline: names sorted, numbers verbatim. *)
Fixpoint encode_canonical (v : json) : string :=
  match v with
  | JNull => "null"
  | JBool b => if b then "true" else "false"
  | JNum lit => lit
  | JStr s => raw_quote s
  | JArr l => "[" +:+ String.concat "," (map encode_canonical l) +:+ "]"
  | JObj l =>
    "{" +:+ String.concat "," (map (fun kv => raw_quote (fst kv) +:+ ":" +:+ snd kv)
              (merge_sort name_le (map (fun kv => (fst kv, encode_canonical (snd kv))) l))) +:+ "}"
  end.

Definition without (k : string) (l : list (string * json)) : list (string * json) :=
  List.filter (fun kv => negb (String.eqb (fst kv) k)) l.

(** The ETag form of the hash of a snapshot's body. *)
Definition revision_of (body : list (string * json)) : string :=
  str1 34 +:+ "sha256:" +:+ sha256_hex (encode_canonical (JObj (without "generatedAt" (without "revision" body))))
  +:+ str1 34.

Definition is_array (body : list (string * json)) (k : string) : bool :=
  match find (fun kv => String.eqb (fst kv) k) body with Some (_, JArr _) => true | _ => false end.

(** [sort.SliceIsSorted] by a string. *)
Fixpoint sorted_by {A} (f : A -> string) (l : list A) : bool :=
  match l with
  | [] => true
  | a :: l' => match l' with b :: _ => negb (String.ltb (f b) (f a)) | [] => true end && sorted_by f l'
  end.

(** ** Staging *)

(** A loop that stops at its first error. *)
Fixpoint fold_res {E S A} (f : S -> A -> result E S) (s : S) (l : list A) : result E S :=
  match l with [] => Ok s | a :: l' => let! s' := f s a in fold_res f s' l' end.

Definition guard {E} (b : bool) (e : E) : result E unit := if b then Ok tt else Err e.

Record clock_state := { ck_index : gmap string nat; ck_objects : gset string; ck_list : list NativeClock }.

Record point_state := {
  pt_ids : gset string; pt_natives : gset string; pt_equipment : gset string; pt_writable : gset string;
  pt_mapper : HTTPClient unit; pt_points : list NativeClockPoint; pt_entries : list Entry;
  pt_clocks : list NativeClock; pt_releases : list gatewayPointDTO
}.

Definition opt_is {A} (p : A -> bool) (o : option A) : bool := match o with Some a => p a | None => false end.

Section Stage.
  Context (gatewayID connectorID : string) (deviceID : Z).

Definition clock_local (n : clockNative) : string := cn_ObjectType n +:+ "," +:+ itoa (default 0 (cn_ObjectInstance n)).

Definition clock_supported (c : clockSource) : bool :=
  let n := cs_Native c in
  negb (String.eqb (cs_ClockID c) "") && String.eqb (cs_ClockDomain c) "simulation" && String.eqb (cs_Unit c) "s"
  && cs_ReadOnly c && String.eqb (cs_AcquisitionMode c) "poll" && String.eqb (cn_Protocol n) "bacnet"
  && String.eqb (cn_GatewayID n) gatewayID && String.eqb (cn_ConnectorID n) connectorID
  && opt_is (Z.eqb deviceID) (cn_DeviceInstance n) && opt_is (between 0 4194303) (cn_ObjectInstance n)
  && (String.eqb (cn_ObjectType n) "analogValue" || String.eqb (cn_ObjectType n) "analogInput")
  && String.eqb (cn_Property n) "presentValue" && String.eqb (cn_Unit n) "seconds".

Definition stage_clock (st : clock_state) (c : clockSource) : result stage_error clock_state :=
  let! _ := guard (clock_supported c) BadClock in
  let! _ := guard (negb (bool_decide (is_Some (ck_index st !! cs_ClockID c)))) DuplicateClock in
  let localID := clock_local (cs_Native c) in
  let! _ := guard (negb (bool_decide (localID ∈ ck_objects st))) DuplicateAddress in
  Ok {| ck_index := <[cs_ClockID c := length (ck_list st)]> (ck_index st);
        ck_objects := {[localID]} ∪ ck_objects st;
        ck_list := ck_list st ++ [{| nc_ClockID := cs_ClockID c; nc_LocalID := localID;
                                     nc_Property := cn_Property (cs_Native c); nc_PointLocalIDs := [] |}] |}.

Definition stage_binding (clocks : gmap string nat) (m : gmap string string) (b : clockBinding)
  : result stage_error (gmap string string) :=
  let! _ := guard (bool_decide (is_Some (clocks !! cb_ClockID b)) && negb (String.eqb (cb_EquipmentID b) "")) DanglingBinding in
  let! _ := guard (negb (bool_decide (is_Some (m !! cb_EquipmentID b)))) ConflictingBinding in
  Ok (<[cb_EquipmentID b := cb_ClockID b]> m).

Definition release_ok (st : point_state) (p : gatewayPointDTO) : bool :=
  negb (String.eqb (dto_PointID p) "") && negb (bool_decide (dto_PointID p ∈ pt_ids st))
  && match dto_Native p with None => true | Some _ => false end && String.eqb (dto_LocalID p) ""
  && String.eqb (dto_Protocol p) "bacnet" && default false (dto_Writable p).

Definition point_ok (st : point_state) (p : gatewayPointDTO) (n : nativeAddressing) : bool :=
  negb (String.eqb (dto_PointID p) "") && negb (bool_decide (dto_PointID p ∈ pt_ids st))
  && String.eqb (n_protocol n) "bacnet" && String.eqb (dto_Protocol p) "bacnet"
  && String.eqb (n_deviceId n) (itoa deviceID) && negb (String.eqb (n_objectType n) "").

Definition instance_ok (s : string) : bool :=
  opt_is (fun i => between 0 4194303 i && String.eqb (itoa i) s) (parse_i64 s).

Definition bind_point (localID : string) (c : NativeClock) : NativeClock :=
  {| c with nc_PointLocalIDs := nc_PointLocalIDs c ++ [localID] |}.

(** The equipment part of a point: the equipment seen and the clock it is
    bound to. *)
Definition stage_equipment (has_clocks : bool) (clocks : gmap string nat) (bindings : gmap string string)
    (p : gatewayPointDTO) (localID : string) (eq : gset string) (cs : list NativeClock)
  : result stage_error (gset string * list NativeClock) :=
  match dto_Device p with
  | Some d =>
    let! _ := guard (negb (has_clocks && (String.eqb (d_dtId d) "" || String.eqb (d_id d) ""))) NoEquipmentID in
    Ok ({[d_dtId d]} ∪ eq,
        match bindings !! d_dtId d with
        | Some c => alter (bind_point localID) (default 0%nat (clocks !! c)) cs
        | None => cs
        end)
  | None => let! _ := guard (negb has_clocks) NoEquipment in Ok (eq, cs)
  end.

Definition stage_point (has_clocks : bool) (objects : gset string) (clocks : gmap string nat)
    (bindings : gmap string string) (st : point_state) (p : gatewayPointDTO) : result stage_error point_state :=
  if negb (String.eqb (dto_ReleaseOf p) "") then
    let! _ := guard (release_ok st p) BadRelease in
    let '(m, e) := mapDTO (pt_mapper st) p in
    Ok {| st with pt_ids := {[dto_PointID p]} ∪ pt_ids st; pt_releases := pt_releases st ++ [p];
                  pt_mapper := m; pt_entries := pt_entries st ++ [e] |}
  else
    match dto_Native p with
    | None => Err BadPoint
    | Some n =>
      let! _ := guard (point_ok st p n) BadPoint in
      let! _ := guard (instance_ok (n_instanceNo n)) BadInstance in
      let '(m, e) := mapDTO (pt_mapper st) p in
      let! _ := guard (negb (bool_decide (LocalID e ∈ pt_natives st) || bool_decide (LocalID e ∈ objects)
                             || (negb (String.eqb (dto_LocalID p) "") && negb (String.eqb (dto_LocalID p) (LocalID e)))))
                      AmbiguousAddress in
      let! eqc := stage_equipment has_clocks clocks bindings p (LocalID e) (pt_equipment st) (pt_clocks st) in
      Ok {| pt_ids := {[dto_PointID p]} ∪ pt_ids st; pt_natives := {[LocalID e]} ∪ pt_natives st;
            pt_equipment := fst eqc;
            pt_writable := if Writable e then {[dto_PointID p]} ∪ pt_writable st else pt_writable st;
            pt_mapper := m;
            pt_points := pt_points st ++ [{| np_LocalID := LocalID e; np_DeviceRef := DeviceRef e; np_Unit := Unit e;
                                             np_Writable := Writable e |}];
            pt_entries := pt_entries st ++ [e]; pt_clocks := snd eqc; pt_releases := pt_releases st |}
    end.

Definition stage_release (writable : gset string) (released : gset string) (r : gatewayPointDTO)
  : result stage_error (gset string) :=
  let! _ := guard (bool_decide (dto_ReleaseOf r ∈ writable) && negb (bool_decide (dto_ReleaseOf r ∈ released))) BadTarget in
  Ok ({[dto_ReleaseOf r]} ∪ released).

(** The mapper that names the connector: [connectorMap] alone is set. *)
Definition clock_mapper : HTTPClient unit :=
  {| hc_http := tt; baseURL := ""; hc_gatewayID := ""; hc_connectorMap := {["bacnet" := connectorID]};
     fallbackConnectorID := ""; warnedUnmapped := ∅; hc_log := [] |}.

(** The consistency of the decoded snapshot and what it stages. *)
Definition stage_body (s : clockSnapshot) : result stage_error (NativeClockConfig * list Entry) :=
  let points := sl_list (s_Points s) in
  let sources := sl_list (s_ClockSources s) in
  let! _ := guard (sorted_by dto_PointID points && sorted_by cs_ClockID sources
                   && sorted_by cb_EquipmentID (sl_list (s_ClockBindings s))) BadOrder in
  let! ck := fold_res stage_clock {| ck_index := ∅; ck_objects := ∅; ck_list := [] |} sources in
  let! bindings := fold_res (stage_binding (ck_index ck)) ∅ (sl_list (s_ClockBindings s)) in
  let! st := fold_res (stage_point (match sources with [] => false | _ => true end) (ck_objects ck) (ck_index ck) bindings)
               {| pt_ids := ∅; pt_natives := ∅; pt_equipment := ∅; pt_writable := ∅; pt_mapper := clock_mapper;
                  pt_points := []; pt_entries := []; pt_clocks := ck_list ck; pt_releases := [] |} points in
  let! _ := fold_res (stage_release (pt_writable st)) ∅ (pt_releases st) in
  let! _ := guard (forallb (fun e => bool_decide (e ∈ pt_equipment st)) (map fst (map_to_list bindings))) EmptyEquipment in
  let! _ := guard (forallb (fun c => match nc_PointLocalIDs c with [] => false | _ => true end) (pt_clocks st)) UnboundClock in
  Ok ({| nk_Revision := s_Revision s; nk_ConnectorID := connectorID; nk_DeviceID := deviceID;
         nk_Points := pt_points st; nk_Clocks := pt_clocks st |}, pt_entries st).

Definition StageClockSnapshot (data : string) : result stage_error (NativeClockConfig * list Entry) :=
  match parse_prefix data with
  | None => Err DecodeFailed
  | Some (v, rest) =>
    match snapshot_decode v with
    | None => Err DecodeFailed
    | Some s =>
      let! _ := guard (String.eqb (s_SchemaVersion s) "clock-provisioning/1-draft" && negb (String.eqb gatewayID "")
                       && String.eqb (s_GatewayID s) gatewayID && negb (String.eqb connectorID "")
                       && between 0 4194302 deviceID) BadScope in
      let! decoded := clockJSONValue v in
      let! _ := guard (String.eqb (skip_ws rest) "") TrailingData in
      match decoded with
      | JObj body =>
        let! _ := guard (forallb (is_array body) ["points"; "clockSources"; "clockBindings"]) ArraysRequired in
        let! _ := guard (String.eqb (s_Revision s) (revision_of body)) RevisionMismatch in
        stage_body s
      | _ => Err NotObject
      end
    end
  end.
End Stage.

(** ** The staged snapshot *)

Record ClockScope := { sc_GatewayID : string; sc_ConnectorID : string; sc_DeviceID : Z }.

Record ClockSnapshot := { cl_raw : string; cl_native : NativeClockConfig; cl_entries : list Entry }.

Definition StageClock (data : string) (scope : ClockScope) : result stage_error ClockSnapshot :=
  let! r := StageClockSnapshot (sc_GatewayID scope) (sc_ConnectorID scope) (sc_DeviceID scope) data in
  Ok {| cl_raw := data; cl_native := fst r; cl_entries := snd r |}.

Definition Revision (s : ClockSnapshot) : string := nk_Revision (cl_native s).

(** ** Fetching *)

Record ClockHTTPOptions := { ho_TLS : TLSOptions; ho_Timeout : Z; ho_Attempts : Z; ho_RetryDelay : Z }.

Record ClockHTTPClient := { ch_http : HTTPClient unit; ch_endpoint : string; ch_scope : ClockScope; ch_opts : ClockHTTPOptions }.

(** What [url.Parse] found of a base URL. *)
Record parsed_url := { u_scheme : string; u_host : string; u_user : bool; u_query : string; u_fragment : string }.

Inductive clock_client_error := BadBaseURL | BadClockScope | NoClientCert | BadBounds | LegacyError (e : new_client_error).

Definition millisecond : Z := 1000000.

Definition with_defaults (o : ClockHTTPOptions) : ClockHTTPOptions :=
  {| ho_TLS := ho_TLS o;
     ho_Timeout := if ho_Timeout o =? 0 then 10000 * millisecond else ho_Timeout o;
     ho_Attempts := if ho_Attempts o =? 0 then 3 else ho_Attempts o;
     ho_RetryDelay := if ho_RetryDelay o =? 0 then 250 * millisecond else ho_RetryDelay o |}.

Definition bounds_ok (o : ClockHTTPOptions) : bool :=
  (0 <? ho_Timeout o) && between 1 5 (ho_Attempts o) && between 0 (5000 * millisecond) (ho_RetryDelay o).

Definition scope_ok (s : ClockScope) : bool :=
  String.eqb (trim_space (sc_GatewayID s)) (sc_GatewayID s) && negb (String.eqb (sc_GatewayID s) "")
  && forallb (fun z => negb (contains_byte (sc_GatewayID s) (chr z))) [47; 92; 13; 10; 9]
  && negb (String.eqb (sc_ConnectorID s) "") && between 0 4194302 (sc_DeviceID s).

(** [strings.TrimRight(s, "/")]. *)
Definition trim_slashes (s : string) : string :=
  rev_str ((fix go r := match r with String "/" r' => go r' | _ => r end) (rev_str s)).

(** The parsed URL is [None] when [url.Parse] fails. *)
Definition NewClockHTTPClient {P} `{PKI P} (k : P) (parsed : option parsed_url) (default_ok : bool)
    (url : string) (scope : ClockScope) (opts : ClockHTTPOptions) : result clock_client_error ClockHTTPClient :=
  match parsed with
  | None => Err BadBaseURL
  | Some u =>
    let! _ := guard (String.eqb (u_scheme u) "https" && negb (String.eqb (u_host u) "") && negb (u_user u)
                     && String.eqb (u_query u) "" && String.eqb (u_fragment u) "") BadBaseURL in
    let! _ := guard (scope_ok scope) BadClockScope in
    let! _ := guard (negb (String.eqb (to_CertFile (ho_TLS opts)) "") && negb (String.eqb (to_KeyFile (ho_TLS opts)) ""))
                    NoClientCert in
    let opts := with_defaults opts in
    let! _ := guard (bounds_ok opts) BadBounds in
    match NewHTTPClient k (Some (u_scheme u)) default_ok (fun _ => tt) url (sc_GatewayID scope) ∅ (ho_TLS opts) with
    | Err e => Err (LegacyError e)
    | Ok legacy =>
      Ok {| ch_http := legacy; ch_scope := scope; ch_opts := opts;
            ch_endpoint := trim_slashes url +:+ "/gateways/" +:+ path_escape (sc_GatewayID scope) +:+ "/provisioning/v1" |}
    end
  end.

(** What one attempt meets: the answer of [Do] ([NoReply refused] is an error,
    a refused redirect or certificate when [refused]; a body that cannot be
    read is [None]) and when a context has ended: the attempt's after [Do]
    and after staging, the caller's after the attempt and during the wait. *)
Inductive reply := NoReply (refused : bool) | Reply (status : Z) (etag : string) (body : option string).

Record attempt := {
  at_request : bool; at_reply : reply; at_ended_do : bool; at_ended_stage : bool; at_ended : bool; at_ended_wait : bool
}.

Inductive fetch_error :=
  FRequest | FEnded | FRefused | FTransport | FUnexpected304 | FStatus (code : Z) | FBody | FTooLarge
| FStage (e : stage_error) | FETag.

Definition body_limit : Z := 16777216.

(** The result and whether it may be retried. *)
Definition clock_fetch (c : ClockHTTPClient) (known : string) (a : attempt)
  : result fetch_error (option ClockSnapshot) * bool :=
  if negb (at_request a) then (Err FRequest, false)
  else
    match at_reply a with
    | NoReply refused =>
      if at_ended_do a then (Err FEnded, true) else if refused then (Err FRefused, false) else (Err FTransport, true)
    | Reply status etag body =>
      if status =? 304 then
        if String.eqb known "" || negb (String.eqb etag known) then (Err FUnexpected304, false) else (Ok None, false)
      else if negb (status =? 200) then (Err (FStatus status), (status =? 429) || between 500 599 status)
      else
        match body with
        | None => (Err FBody, true)
        | Some data =>
          if body_limit <? Z.of_nat (String.length data) then (Err FTooLarge, false)
          else
            match StageClock data (ch_scope c) with
            | Err e => (Err (FStage e), false)
            | Ok s =>
              if at_ended_stage a then (Err FEnded, true)
              else if negb (String.eqb etag (Revision s)) then (Err FETag, false)
              else (Ok (Some s), false)
            end
        end
    end.

(** The server and network: each request, with its [If-None-Match], meets an
    attempt. *)
Class ClockDo (K : Type) := clock_do : K -> option string -> K * attempt.

Record fetched (K : Type) := {
  fd_world : K; fd_attempts : list attempt; fd_delays : list Z; fd_result : option (result fetch_error (option ClockSnapshot))
}.
Arguments fd_world {K} _.
Arguments fd_attempts {K} _.
Arguments fd_delays {K} _.
Arguments fd_result {K} _.

Definition retry_delay (c : ClockHTTPClient) (n : Z) : Z :=
  Z.min (2000 * millisecond) (i64 (ho_RetryDelay (ch_opts c) * i64 (Z.shiftl 1 n))).

(** The retry loop, with fuel for the attempts it may make; no result is
    running out of it. *)
Fixpoint clock_Fetch {K} `{ClockDo K} (fuel : nat) (n : Z) (c : ClockHTTPClient) (known : string) (k : K) : fetched K :=
  match fuel with
  | O => {| fd_world := k; fd_attempts := []; fd_delays := []; fd_result := None |}
  | S fuel' =>
    let '(k, a) := clock_do k (if String.eqb known "" then None else Some known) in
    let '(r, retry) := clock_fetch c known a in
    if is_ok r || negb retry || (ho_Attempts (ch_opts c) <=? n + 1) || at_ended a then
      {| fd_world := k; fd_attempts := [a]; fd_delays := []; fd_result := Some r |}
    else if at_ended_wait a then
      {| fd_world := k; fd_attempts := [a]; fd_delays := [retry_delay c n]; fd_result := Some (Err FEnded) |}
    else
      let f := clock_Fetch fuel' (n + 1) c known k in
      {| fd_world := fd_world f; fd_attempts := a :: fd_attempts f; fd_delays := retry_delay c n :: fd_delays f;
         fd_result := fd_result f |}
  end.

Definition FetchClock {K} `{ClockDo K} (c : ClockHTTPClient) (known : string) (k : K) : fetched K :=
  clock_Fetch (Z.to_nat (ho_Attempts (ch_opts c))) 0 c known k.

(** ** Theorems: fetching *)

Lemma guard_ok {E} b (e : E) u : guard b e = Ok u -> b = true.
Proof. unfold guard. destruct b; congruence. Qed.

Section Fetch.
  Context {K} `{ClockDo K} (c : ClockHTTPClient) (known : string).

(** What a successful answer rests on. *)
Definition answers (a : attempt) (r : result fetch_error (option ClockSnapshot)) : Prop :=
  match r with
  | Ok (Some s) => exists data, at_reply a = Reply 200 (Revision s) (Some data) /\ StageClock data (ch_scope c) = Ok s
  | Ok None => known <> "" /\ exists body, at_reply a = Reply 304 known body
  | Err _ => True
  end.

Lemma clock_fetch_answers a r retry : clock_fetch c known a = (r, retry) -> answers a r /\ (is_ok r = true -> retry = false).
Proof.
  unfold clock_fetch, answers. destruct (at_request a); cbn [negb]; [|by intros [= <- <-]].
  destruct (at_reply a) as [refused|status etag body] eqn:Ea.
  { repeat case_if; by intros [= <- <-]. }
  destruct (Z.eqb_spec status 304) as [->|]; [destruct (String.eqb_spec known "") as [|Hn], (String.eqb_spec etag known) as [->|]; cbn|].
  1-4: intros [= <- <-]; cbn; try done; naive_solver.
  destruct (Z.eqb_spec status 200) as [->|]; cbn; [|by intros [= <- <-]].
  destruct body as [data|]; [|by intros [= <- <-]]. destruct (_ <? _); [by intros [= <- <-]|].
  destruct (StageClock data _) as [s|] eqn:Es; [|by intros [= <- <-]]. destruct (at_ended_stage a); [by intros [= <- <-]|].
  destruct (String.eqb_spec etag (Revision s)) as [->|]; cbn; intros [= <- <-]; [|done].
  split; [|done]. exists data. by split.
Qed.

Lemma retry_delay_bounds n : bounds_ok (ch_opts c) = true -> 0 <= n <= 4 -> 0 <= retry_delay c n <= 2000 * millisecond.
Proof.
  unfold bounds_ok, between, retry_delay. intros Hb Hn. bools. rewrite Z.shiftl_mul_pow2 by lia.
  assert (1 <= 2 ^ n <= 16) by (split; [pose proof (Z.pow_pos_nonneg 2 n); lia | change 16 with (2 ^ 4); apply Z.pow_le_mono_r; lia]).
  unfold millisecond in *. rewrite (i64_small (1 * 2 ^ n)) by (unfold in_i64; lia).
  rewrite i64_small by (unfold in_i64; nia). nia.
Qed.

Lemma clock_Fetch_spec fuel : forall n k, bounds_ok (ch_opts c) = true -> 0 <= n ->
  Z.of_nat fuel = ho_Attempts (ch_opts c) - n -> (0 < fuel)%nat ->
  let f := clock_Fetch fuel n c known k in
  exists r pre a, fd_result f = Some r /\ fd_attempts f = pre ++ [a] /\ (length (fd_attempts f) <= fuel)%nat /\
    (length (fd_delays f) <= length (fd_attempts f))%nat /\
    Forall (fun d => 0 <= d <= 2000 * millisecond) (fd_delays f) /\
    Forall (fun a => snd (clock_fetch c known a) = true) pre /\ answers a r.
Proof.
  induction fuel as [|fuel IH]; intros n k Hb Hn Hf Hp; [lia|].
  assert (0 <= n <= 4) as Hn4 by (unfold bounds_ok, between in Hb; bools; lia). cbn.
  destruct (clock_do k _) as [k' a]. destruct (clock_fetch c known a) as [r retry] eqn:E.
  destruct (clock_fetch_answers _ _ _ E) as [Ha _]. pose proof (retry_delay_bounds n Hb Hn4) as Hd.
  destruct (_ || at_ended a) eqn:Es; [|destruct (at_ended_wait a)]; cbn.
  - exists r, [], a. cbn. repeat split; [lia..|constructor|constructor|done].
  - exists (Err FEnded), [], a. cbn. repeat split; [lia..|by constructor; [exact Hd|constructor]|constructor].
  - rewrite !orb_false_iff in Es. destruct Es as [[[_ Hr] Hl] _].
    destruct (IH (n + 1) k' Hb ltac:(lia) ltac:(lia) ltac:(lia)) as (r' & pre & b & Er & Ep & H1 & H2 & H3 & H4 & H5).
    exists r', (a :: pre), b. rewrite Er, Ep in *. repeat split; cbn in *; [lia..|by constructor| |done].
    constructor; [rewrite E; cbn; by destruct retry|done].
Qed.

End Fetch.

(** ** Theorems: staging *)

Lemma fold_res_inv {E S A} (f : S -> A -> result E S) (P : list A -> S -> Prop) s0 l s : P [] s0 ->
  (forall done s a s', P done s -> f s a = Ok s' -> P (done ++ [a]) s') -> fold_res f s0 l = Ok s -> P l s.
Proof.
  intros H0 Hs. cut (forall l done s0, P done s0 -> fold_res f s0 l = Ok s -> P (done ++ l) s).
  { intros Hc Hl. by apply (Hc l [] s0). }
  clear s0 H0 l. induction l as [|a l IH]; intros done s0 H0; cbn.
  - intros [= ->]. by rewrite app_nil_r.
  - intros [s1 [H1 H2]]%result_bind_ok. change (a :: l) with ([a] ++ l)%list. rewrite (app_assoc done [a] l). eauto.
Qed.

Lemma NoDup_map_inj {A B} (f : A -> B) l a b : NoDup (map f l) -> a ∈ l -> b ∈ l -> f a = f b -> a = b.
Proof.
  intros Hn Ha Hb Hf. apply list_elem_of_lookup in Ha as [i Hi]. apply list_elem_of_lookup in Hb as [j Hj].
  assert (i = j) as ->; [|congruence].
  apply (NoDup_lookup _ _ _ (f a) Hn); rewrite list_lookup_fmap; [by rewrite Hi|by rewrite Hj, Hf].
Qed.

Lemma NoDup_snoc {A} (l : list A) x : NoDup l -> x ∉ l -> NoDup (l ++ [x]).
Proof.
  intros Hl Hx. apply NoDup_app. split_and!; [done| |apply NoDup_singleton].
  intros y Hy ->%list_elem_of_singleton. by apply Hx.
Qed.

Ltac guards H :=
  repeat match type of H with
  | result_bind (guard _ _) _ = Ok _ =>
    let G := fresh "G" in let u := fresh "u" in apply result_bind_ok in H as [u [G H]]; apply guard_ok in G; clear u
  end.

Section StageTheorems.
  Context (gatewayID connectorID : string) (deviceID : Z).

(** The reference: what a snapshot means, read off its lists. *)
Definition entry_of (p : gatewayPointDTO) : Entry := snd (mapDTO (clock_mapper connectorID) p).
Definition is_native (e : Entry) : bool := String.eqb (ReleaseOf e) "".
Definition native_point (e : Entry) : NativeClockPoint :=
  {| np_LocalID := LocalID e; np_DeviceRef := DeviceRef e; np_Unit := Unit e; np_Writable := Writable e |}.
Definition equipment_of (p : gatewayPointDTO) : option string :=
  if String.eqb (dto_ReleaseOf p) "" then option_map d_dtId (dto_Device p) else None.
Definition bound (bs : list clockBinding) (clock : string) (p : gatewayPointDTO) : bool :=
  opt_is (fun e => existsb (fun b => String.eqb (cb_EquipmentID b) e && String.eqb (cb_ClockID b) clock) bs) (equipment_of p).
Definition clock_of (bs : list clockBinding) (ps : list gatewayPointDTO) (c : clockSource) : NativeClock :=
  {| nc_ClockID := cs_ClockID c; nc_LocalID := clock_local (cs_Native c); nc_Property := cn_Property (cs_Native c);
     nc_PointLocalIDs := map (fun p => LocalID (entry_of p)) (List.filter (bound bs (cs_ClockID c)) ps) |}.

Lemma entry_of_bacnet p : dto_Protocol p = "bacnet" -> connectorID <> "" ->
  mapDTO (clock_mapper connectorID) p = (clock_mapper connectorID, entry_of p) /\
  PointID (entry_of p) = dto_PointID p /\ ReleaseOf (entry_of p) = dto_ReleaseOf p /\
  ConnectorID (entry_of p) = connectorID /\ Protocol (entry_of p) = "bacnet" /\
  Writable (entry_of p) = default false (dto_Writable p).
Proof.
  intros Hp Hc. unfold entry_of, mapDTO.
  assert (hc_connectorMap (clock_mapper connectorID) !! "bacnet" = Some connectorID) as Hm by apply lookup_singleton_eq.
  assert (dto_protocol p = "bacnet") as ->.
  { unfold dto_protocol. rewrite Hp. change (to_lower (trim_space "bacnet")) with "bacnet". by destruct (dto_Native p). }
  destruct (String.eqb_spec (dto_ReleaseOf p) "") as [E|E]; cbn [negb].
  - cbv zeta. do 2 (change (String.eqb "bacnet" "") with false; cbv iota beta). unfold connectorFor. rewrite Hm.
    change (default "" (Some connectorID)) with connectorID. by destruct (String.eqb_spec connectorID "").
  - by rewrite Hm.
Qed.

(** *** The clocks *)

Record clocks_inv (done : list clockSource) (st : clock_state) : Prop := {
  ci_list : ck_list st = map (clock_of [] []) done;
  ci_ids : NoDup (map cs_ClockID done);
  ci_locals : NoDup (map (fun c => clock_local (cs_Native c)) done);
  ci_objects : forall x, x ∈ ck_objects st <-> x ∈ map (fun c => clock_local (cs_Native c)) done;
  ci_index : forall id i, ck_index st !! id = Some i <-> map cs_ClockID done !! i = Some id
}.

Lemma stage_clocks_spec sources st :
  fold_res (stage_clock gatewayID connectorID deviceID) {| ck_index := ∅; ck_objects := ∅; ck_list := [] |} sources = Ok st ->
  clocks_inv sources st.
Proof.
  apply fold_res_inv with (P := clocks_inv).
  - split; cbn; [done|constructor..| |].
    + intros x. by rewrite elem_of_empty, elem_of_nil.
    + intros id i. by rewrite lookup_empty, lookup_nil.
  - intros done s c s' [Hl Hi Ho Hs Hx] H. unfold stage_clock in H. guards H. injection H as <-.
    rewrite negb_true_iff, bool_decide_eq_false in G0, G1.
    assert (cs_ClockID c ∉ map cs_ClockID done) as Hc.
    { intros (i & Hi')%list_elem_of_lookup. apply G0. exists i. by apply Hx. }
    rewrite Hs in G1. split; cbn; rewrite ?map_app; cbn.
    + by rewrite Hl.
    + by apply NoDup_snoc.
    + by apply NoDup_snoc.
    + intros x. rewrite elem_of_union, elem_of_app, Hs, elem_of_singleton, list_elem_of_singleton. tauto.
    + intros id i. rewrite Hl, length_map. destruct (decide (id = cs_ClockID c)) as [->|Hne].
      * rewrite lookup_insert, decide_True by done. split.
        -- intros [= <-]. rewrite lookup_app_r; rewrite length_map; [by rewrite Nat.sub_diag|done].
        -- intros [Hd|[Hge Hd]]%lookup_app_Some; [destruct Hc; by eapply list_elem_of_lookup_2|].
           rewrite length_map in *. f_equal. destruct (i - length done)%nat eqn:Ed; [lia|done].
      * rewrite lookup_insert_ne, Hx by done. rewrite lookup_app_Some. split; [auto|]. intros [?|[_ Hd]]; [done|].
        destruct (_ - _)%nat; [|done]. by injection Hd.
Qed.

(** *** The bindings *)

Record bindings_inv (index : gmap string nat) (done : list clockBinding) (m : gmap string string) : Prop := {
  bi_equipment : NoDup (map cb_EquipmentID done);
  bi_map : forall e c, m !! e = Some c <-> Build_clockBinding e c ∈ done;
  bi_clocks : forall b, b ∈ done -> is_Some (index !! cb_ClockID b)
}.

Lemma stage_bindings_spec index bs m : fold_res (stage_binding index) ∅ bs = Ok m -> bindings_inv index bs m.
Proof.
  apply fold_res_inv with (P := bindings_inv index).
  - split; cbn; [constructor| |].
    + intros e c. by rewrite lookup_empty, elem_of_nil.
    + by intros b ?%elem_of_nil.
  - intros done s b s' [He Hm Hc] H. unfold stage_binding in H. guards H. injection H as <-.
    apply andb_prop in G as [G _]. apply bool_decide_eq_true in G. rewrite negb_true_iff, bool_decide_eq_false in G0.
    assert (cb_EquipmentID b ∉ map cb_EquipmentID done) as Hn.
    { intros ([e c] & E & Hb)%list_elem_of_fmap. apply G0. rewrite E. exists c. by apply Hm. }
    split.
    + rewrite map_app. by apply NoDup_snoc.
    + intros e c. rewrite elem_of_app, list_elem_of_singleton, <- Hm.
      destruct (decide (e = cb_EquipmentID b)) as [->|Hne].
      * rewrite lookup_insert, decide_True by done. split; [intros [= <-]; right; by destruct b|].
        intros [Hl|E]; [destruct G0; by exists c|by rewrite <- E].
      * rewrite lookup_insert_ne by done. split; [auto|]. intros [?|E]; [done|]. by rewrite <- E in Hne.
    + intros b' [Hb| ->%list_elem_of_singleton]%elem_of_app; auto.
Qed.

Lemma bound_lookup index bs m id p : bindings_inv index bs m ->
  bound bs id p = true <-> exists e, equipment_of p = Some e /\ m !! e = Some id.
Proof.
  intros [_ Hm _]. unfold bound, opt_is. destruct (equipment_of p) as [e|]; [|naive_solver].
  rewrite existsb_exists. split.
  - intros ([e' c] & Hb & Hq). cbn in Hq. apply andb_prop in Hq as [->%String.eqb_eq ->%String.eqb_eq]. exists e. split; [done|]. apply Hm. apply list_elem_of_In. exact Hb.
  - intros (? & [= <-] & Hl%Hm%list_elem_of_In). eexists. split; [exact Hl|]. cbn. by rewrite !String.eqb_refl.
Qed.

(** *** The points *)

Section Points.
  Context (sources : list clockSource) (bs : list clockBinding) (objects : gset string) (index : gmap string nat)
    (m : gmap string string) (Hconn : connectorID <> "") (Hids : NoDup (map cs_ClockID sources))
    (Hindex : forall id i, index !! id = Some i <-> map cs_ClockID sources !! i = Some id)
    (Hm : bindings_inv index bs m).

Record points_inv (done : list gatewayPointDTO) (st : point_state) : Prop := {
  pi_mapper : pt_mapper st = clock_mapper connectorID;
  pi_protocol : Forall (fun p => dto_Protocol p = "bacnet") done;
  pi_entries : pt_entries st = map entry_of done;
  pi_nodup : NoDup (map dto_PointID done);
  pi_ids : forall x, x ∈ pt_ids st <-> x ∈ map dto_PointID done;
  pi_points : pt_points st = map native_point (List.filter is_native (map entry_of done));
  pi_locals : NoDup (map np_LocalID (pt_points st));
  pi_natives : forall x, x ∈ pt_natives st <-> x ∈ map np_LocalID (pt_points st);
  pi_objects : forall x, x ∈ pt_natives st -> x ∉ objects;
  pi_writable : forall x, x ∈ pt_writable st ->
    exists e, e ∈ pt_entries st /\ is_native e = true /\ Writable e = true /\ PointID e = x;
  pi_clocks : pt_clocks st = map (clock_of bs done) sources;
  pi_equipment : forall x, x ∈ pt_equipment st -> exists p, p ∈ done /\ equipment_of p = Some x;
  pi_releases : pt_releases st = List.filter (fun p => negb (String.eqb (dto_ReleaseOf p) "")) done
}.

Lemma filter_snoc {A} (f : A -> bool) l a : List.filter f (l ++ [a]) = List.filter f l ++ (if f a then [a] else []).
Proof. rewrite List.filter_app. cbn. by destruct (f a). Qed.

Lemma clock_of_snoc done p c : clock_of bs (done ++ [p]) c =
  if bound bs (cs_ClockID c) p then bind_point (LocalID (entry_of p)) (clock_of bs done c) else clock_of bs done c.
Proof.
  unfold clock_of, bind_point. rewrite filter_snoc. destruct (bound _ _ p); rewrite map_app; cbn; [done|by rewrite app_nil_r].
Qed.

Lemma clocks_unbound done p : (forall id, bound bs id p = false) ->
  map (clock_of bs (done ++ [p])) sources = map (clock_of bs done) sources.
Proof. intros Hb. apply map_ext. intros c. by rewrite clock_of_snoc, Hb. Qed.

Lemma clocks_bound done p e id : equipment_of p = Some e -> m !! e = Some id ->
  map (clock_of bs (done ++ [p])) sources =
  alter (bind_point (LocalID (entry_of p))) (default 0%nat (index !! id)) (map (clock_of bs done) sources).
Proof.
  intros He Hl. destruct (bi_clocks _ _ _ Hm (Build_clockBinding e id)) as [i Hi]; [by apply (bi_map _ _ _ Hm)|].
  cbn in Hi. rewrite Hi. cbn. apply Hindex in Hi. apply list_eq. intros j. rewrite list_lookup_fmap.
  assert (forall c, sources !! j = Some c -> bound bs (cs_ClockID c) p = true <-> j = i) as Hb.
  { intros c Hc. rewrite (bound_lookup _ _ _ _ _ Hm). rewrite He.
    assert (map cs_ClockID sources !! j = Some (cs_ClockID c)) as Hj by by rewrite list_lookup_fmap, Hc.
    split.
    - intros (e' & [= <-] & Hl'). apply (NoDup_lookup _ _ _ id Hids); congruence.
    - intros ->. exists e. split; congruence. }
  destruct (decide (j = i)) as [->|Hne].
  - rewrite list_lookup_alter, decide_True, list_lookup_fmap by done.
    destruct (sources !! i) as [c|] eqn:Ec; [|done]. cbn. rewrite clock_of_snoc. by rewrite (proj2 (Hb c eq_refl)).
  - rewrite list_lookup_alter_ne, list_lookup_fmap by done.
    destruct (sources !! j) as [c|] eqn:Ec; [|done]. cbn. rewrite clock_of_snoc.
    destruct (bound bs (cs_ClockID c) p) eqn:E; [|done]. by apply Hb in E.
Qed.

Lemma release_step done st p : points_inv done st -> dto_ReleaseOf p <> "" -> release_ok st p = true ->
  points_inv (done ++ [p])
    {| st with pt_ids := {[dto_PointID p]} ∪ pt_ids st; pt_releases := pt_releases st ++ [p];
               pt_mapper := clock_mapper connectorID; pt_entries := pt_entries st ++ [entry_of p] |}.
Proof.
  intros [] Hr Ho. unfold release_ok in Ho. rewrite !andb_true_iff, !negb_true_iff, bool_decide_eq_false, pi_ids0 in Ho.
  destruct Ho as [[[[[_ Hn] _] _] Hp%String.eqb_eq] _]. destruct (entry_of_bacnet p Hp Hconn) as (_ & _ & Er & _).
  assert (is_native (entry_of p) = false) as Hi by (unfold is_native; rewrite Er; by apply String.eqb_neq).
  assert (equipment_of p = None) as He by (unfold equipment_of; apply String.eqb_neq in Hr; by rewrite Hr).
  split; cbn; rewrite ?map_app; cbn; rewrite ?filter_snoc, ?Hi, ?app_nil_r; try done.
  - apply Forall_app. repeat constructor; done.
  - by rewrite pi_entries0.
  - by apply NoDup_snoc.
  - intros x. rewrite elem_of_union, elem_of_app, pi_ids0, elem_of_singleton, list_elem_of_singleton. tauto.
  - intros x (e & He' & Hx)%pi_writable0. exists e. rewrite elem_of_app. tauto.
  - rewrite clocks_unbound; [done|]. intros id. unfold bound. by rewrite He.
  - intros x (q & Hq & Hx)%pi_equipment0. exists q. rewrite elem_of_app. tauto.
  - apply String.eqb_neq in Hr. rewrite Hr. cbn. by rewrite pi_releases0.
Qed.

Lemma equipment_step has_clocks done st p eqc : points_inv done st -> dto_ReleaseOf p = "" ->
  stage_equipment has_clocks index m p (LocalID (entry_of p)) (pt_equipment st) (pt_clocks st) = Ok eqc ->
  snd eqc = map (clock_of bs (done ++ [p])) sources /\
  forall x, x ∈ fst eqc -> exists q, q ∈ done ++ [p] /\ equipment_of q = Some x.
Proof.
  intros [] Hr H. unfold stage_equipment in H.
  assert (equipment_of p = option_map d_dtId (dto_Device p)) as He by (unfold equipment_of; by rewrite Hr).
  assert (forall x, x ∈ pt_equipment st -> exists q, q ∈ done ++ [p] /\ equipment_of q = Some x) as Hq.
  { intros x (q & Hq & Hx)%pi_equipment0. exists q. rewrite elem_of_app. tauto. }
  destruct (dto_Device p) as [d|]; guards H; injection H as <-; cbn in *.
  - split.
    + destruct (m !! d_dtId d) as [c|] eqn:Em.
      * rewrite pi_clocks0. symmetry. by apply (clocks_bound _ _ (d_dtId d)).
      * rewrite clocks_unbound; [done|]. intros id. apply not_true_is_false. rewrite (bound_lookup _ _ _ _ _ Hm), He.
        intros (? & [= <-] & ?). congruence.
    + intros x [->%elem_of_singleton|Hx]%elem_of_union; [|auto]. exists p. rewrite elem_of_app, list_elem_of_singleton. auto.
  - split; [|done]. rewrite clocks_unbound; [done|]. intros id. unfold bound. by rewrite He.
Qed.

Lemma native_step done st p n eqc : points_inv done st -> dto_ReleaseOf p = "" -> point_ok deviceID st p n = true ->
  (LocalID (entry_of p) ∉ pt_natives st) -> (LocalID (entry_of p) ∉ objects) ->
  snd eqc = map (clock_of bs (done ++ [p])) sources ->
  (forall x, x ∈ fst eqc -> exists q, q ∈ done ++ [p] /\ equipment_of q = Some x) ->
  let e := entry_of p in
  points_inv (done ++ [p])
    {| pt_ids := {[dto_PointID p]} ∪ pt_ids st; pt_natives := {[LocalID e]} ∪ pt_natives st; pt_equipment := fst eqc;
       pt_writable := if Writable e then {[dto_PointID p]} ∪ pt_writable st else pt_writable st;
       pt_mapper := clock_mapper connectorID; pt_points := pt_points st ++ [native_point e];
       pt_entries := pt_entries st ++ [e]; pt_clocks := snd eqc; pt_releases := pt_releases st |}.
Proof.
  intros [] Hr Ho Hl Hb Hc Hq e. unfold point_ok in Ho.
  rewrite !andb_true_iff, !negb_true_iff, bool_decide_eq_false, pi_ids0 in Ho. destruct Ho as [[[[[_ Hn] _] Hp%String.eqb_eq] _] _].
  destruct (entry_of_bacnet p Hp Hconn) as (_ & Ei & Er & _).
  assert (is_native (entry_of p) = true) as Hi by (unfold is_native; by rewrite Er, Hr).
  split; cbn; rewrite ?map_app; cbn; rewrite ?filter_snoc, ?Hi, ?Hr, ?map_app; cbn; rewrite ?app_nil_r; try done.
  - apply Forall_app. repeat constructor; done.
  - by rewrite pi_entries0.
  - by apply NoDup_snoc.
  - intros x. rewrite elem_of_union, elem_of_app, pi_ids0, elem_of_singleton, list_elem_of_singleton. tauto.
  - by rewrite pi_points0.
  - apply NoDup_snoc; [done|]. by rewrite <- pi_natives0.
  - intros x. rewrite elem_of_union, elem_of_app, pi_natives0, elem_of_singleton, list_elem_of_singleton. tauto.
  - intros x [->%elem_of_singleton|Hx]%elem_of_union; auto.
  - intros x. destruct (Writable e) eqn:Ew; [rewrite elem_of_union, elem_of_singleton; intros [->|Hx]|intros Hx].
    + exists e. rewrite elem_of_app, list_elem_of_singleton. tauto.
    + apply pi_writable0 in Hx as (e' & He & Hx). exists e'. rewrite elem_of_app. tauto.
    + apply pi_writable0 in Hx as (e' & He & Hx). exists e'. rewrite elem_of_app. tauto.
Qed.

Lemma stage_points_spec has_clocks ps st0 st : points_inv [] st0 ->
  fold_res (stage_point deviceID has_clocks objects index m) st0 ps = Ok st -> points_inv ps st.
Proof.
  intros H0. apply fold_res_inv with (P := points_inv); [done|]. clear st0 H0 st.
  intros done st p st' Hi H. pose proof (pi_mapper _ _ Hi) as Em. unfold stage_point in H. rewrite Em in H.
  destruct (String.eqb_spec (dto_ReleaseOf p) "") as [Hr|Hr]; cbn [negb] in H.
  - destruct (dto_Native p) as [n|] eqn:En; [|done]. guards H.
    assert (dto_Protocol p = "bacnet") as Hp by (unfold point_ok in G; bools; by apply String.eqb_eq).
    destruct (entry_of_bacnet p Hp Hconn) as [Ep _]. rewrite Ep in H. guards H.
    rewrite negb_true_iff, !orb_false_iff, !bool_decide_eq_false in G1. destruct G1 as [[Hn Ho] _].
    apply result_bind_ok in H as [eqc [Hq [= <-]]]. destruct (equipment_step _ _ _ _ _ Hi Hr Hq) as [Hc Hx].
    by apply (native_step _ _ _ n).
  - guards H. assert (dto_Protocol p = "bacnet") as Hp by (unfold release_ok in G; bools; by apply String.eqb_eq).
    destruct (entry_of_bacnet p Hp Hconn) as [Ep _]. rewrite Ep in H. injection H as <-. by apply release_step.
Qed.
End Points.

Lemma stage_releases_spec writable rs released : fold_res (stage_release writable) ∅ rs = Ok released ->
  NoDup (map dto_ReleaseOf rs) /\ Forall (fun r => dto_ReleaseOf r ∈ writable) rs.
Proof.
  intros H. cut ((NoDup (map dto_ReleaseOf rs) /\ Forall (fun r => dto_ReleaseOf r ∈ writable) rs) /\
                 forall x, x ∈ released <-> x ∈ map dto_ReleaseOf rs); [tauto|].
  revert H. apply fold_res_inv with (P := fun rs released =>
    (NoDup (map dto_ReleaseOf rs) /\ Forall (fun r => dto_ReleaseOf r ∈ writable) rs) /\
    forall x, x ∈ released <-> x ∈ map dto_ReleaseOf rs).
  - split; [split; constructor|]. intros x. cbn. by rewrite elem_of_empty, elem_of_nil.
  - intros done s r s' [[Hn Hw] Hx] H. unfold stage_release in H. guards H. injection H as <-.
    apply andb_prop in G as [Gw%bool_decide_eq_true Gr]. rewrite negb_true_iff, bool_decide_eq_false, Hx in Gr.
    rewrite map_app. cbn. split; [split|].
    + by apply NoDup_snoc.
    + apply Forall_app. by repeat constructor.
    + intros x. rewrite elem_of_union, elem_of_app, Hx, elem_of_singleton, list_elem_of_singleton. tauto.
Qed.
End StageTheorems.

(** What the canonical form admits: no null, integers only, no name twice. *)
Fixpoint hashable (v : json) : bool :=
  match v with
  | JNull => false
  | JNum lit => match parse_i64 lit with Some _ => true | None => false end
  | JArr l => forallb hashable l
  | JObj l => bool_decide (NoDup (map fst l)) && forallb (fun kv => hashable (snd kv)) l
  | JBool _ | JStr _ => true
  end.

Lemma has_key_false {A} k (l : list (string * A)) : has_key k l = false -> k ∉ map fst l.
Proof.
  unfold has_key. intros Hf ([k' a] & -> & Hi%list_elem_of_In)%list_elem_of_fmap.
  assert (existsb (fun kv => String.eqb (fst kv) k') l = true); [|cbn in Hf; congruence].
  apply existsb_exists. eexists. split; [exact Hi|]. apply String.eqb_refl.
Qed.

Lemma clockJSONValue_spec v v' : clockJSONValue v = Ok v' -> v' = v /\ hashable v = true.
Proof.
  revert v'. induction v as [ |b|lit|s|l IH|l IH] using json_ind; intros v' H; cbn in H.
  - done.
  - by injection H as <-.
  - cbn. destruct (parse_i64 lit); [|done]. by injection H as <-.
  - by injection H as <-.
  - cut (v' = JArr ([] ++ l) /\ forallb hashable l = true); [done|]. revert H. generalize (@nil json) at 2 3.
    induction IH as [|x l Hx IHl IH']; intros acc H; [injection H as <-; by rewrite app_nil_r|].
    apply result_bind_ok in H as [x' [[-> Ex]%Hx H]]. apply IH' in H as [-> Hl]. cbn. rewrite Ex, <- app_assoc. done.
  - cut (NoDup (map fst (@nil (string * json))) ->
         v' = JObj ([] ++ l) /\ NoDup (map fst ([] ++ l)) /\ forallb (fun kv => hashable (snd kv)) l = true).
    { intros Hc. destruct Hc as (-> & Hn & Hl); [constructor|]. cbn in *. by rewrite Hl, bool_decide_true. }
    revert H. generalize (@nil (string * json)) at 2 3 4 5.
    induction IH as [|[k x] l Hx IHl IH']; intros acc H Hacc; [injection H as <-; by rewrite app_nil_r|].
    destruct (has_key k acc) eqn:Ek; [done|]. apply has_key_false in Ek.
    apply result_bind_ok in H as [x' [[-> Ex]%Hx H]]. cbn in Ex.
    apply IH' in H as (-> & Hn & Hl); [|rewrite map_app; by apply NoDup_snoc].
    rewrite <- app_assoc in *. cbn. by rewrite Ex.
Qed.

(** *** What a staged snapshot satisfies *)

Section StageExact.
  Context (gatewayID connectorID : string) (deviceID : Z).

(** The bundle and the mapping a decoded snapshot of content hash [rev]
    means. *)
Definition bundle (rev : string) (s : clockSnapshot) : NativeClockConfig * list Entry :=
  let points := sl_list (s_Points s) in
  let es := map (entry_of connectorID) points in
  ({| nk_Revision := rev; nk_ConnectorID := connectorID; nk_DeviceID := deviceID;
      nk_Points := map native_point (List.filter is_native es);
      nk_Clocks := map (clock_of connectorID (sl_list (s_ClockBindings s)) points) (sl_list (s_ClockSources s)) |}, es).

(** Addresses and identifiers name one thing each, every clock times at least
    one point and every point has at most one clock. *)
Record coherent (cfg : NativeClockConfig) (es : list Entry) : Prop := {
  co_scope : Forall (fun e => ConnectorID e = connectorID /\ Protocol e = "bacnet") es;
  co_points : NoDup (map PointID es);
  co_addresses : NoDup (map np_LocalID (nk_Points cfg) ++ map nc_LocalID (nk_Clocks cfg));
  co_clocks : NoDup (map nc_ClockID (nk_Clocks cfg));
  co_timed : Forall (fun c => nc_PointLocalIDs c <> []) (nk_Clocks cfg);
  co_known : forall c l, c ∈ nk_Clocks cfg -> l ∈ nc_PointLocalIDs c -> l ∈ map np_LocalID (nk_Points cfg);
  co_one_clock : forall c c' l, c ∈ nk_Clocks cfg -> c' ∈ nk_Clocks cfg ->
    l ∈ nc_PointLocalIDs c -> l ∈ nc_PointLocalIDs c' -> c = c';
  co_releases : NoDup (map ReleaseOf (List.filter (fun e => negb (is_native e)) es));
  co_targets : forall r, r ∈ es -> is_native r = false ->
    exists e, e ∈ es /\ is_native e = true /\ Writable e = true /\ PointID e = ReleaseOf r
}.

Lemma elem_of_filter_In {A} (f : A -> bool) l a : a ∈ List.filter f l <-> a ∈ l /\ f a = true.
Proof. rewrite !list_elem_of_In. apply List.filter_In. Qed.

Lemma filter_map_swap {A B} (g : A -> B) (f : B -> bool) l :
  List.filter f (map g l) = map g (List.filter (fun a => f (g a)) l).
Proof. induction l as [|a l IH]; [done|]. cbn. rewrite IH. by destruct (f (g a)). Qed.

Lemma entries_native ps p : Forall (fun p => dto_Protocol p = "bacnet") ps -> connectorID <> "" -> p ∈ ps ->
  is_native (entry_of connectorID p) = String.eqb (dto_ReleaseOf p) "".
Proof.
  intros Hp Hc Hi. rewrite Forall_forall in Hp. destruct (entry_of_bacnet _ p (Hp _ Hi) Hc) as (_ & _ & Er & _).
  unfold is_native. by rewrite Er.
Qed.

(** The local ids under a clock are addresses of points bound to it. *)
Lemma clock_of_elem bs ps c l : l ∈ nc_PointLocalIDs (clock_of connectorID bs ps c) <->
  exists p, p ∈ ps /\ bound bs (cs_ClockID c) p = true /\ l = LocalID (entry_of connectorID p).
Proof.
  cbn. rewrite list_elem_of_fmap. split.
  - intros (p & -> & Hp%elem_of_filter_In). exists p. tauto.
  - intros (p & Hp & Hb & ->). exists p. rewrite elem_of_filter_In. tauto.
Qed.

Lemma bound_native bs id p : bound bs id p = true -> dto_ReleaseOf p = "".
Proof. unfold bound, equipment_of. by destruct (String.eqb_spec (dto_ReleaseOf p) ""). Qed.

Lemma points_init sources bs objects (ck : clock_state) : ck_list ck = map (clock_of connectorID [] []) sources ->
  points_inv connectorID sources bs objects []
    {| pt_ids := ∅; pt_natives := ∅; pt_equipment := ∅; pt_writable := ∅; pt_mapper := clock_mapper connectorID;
       pt_points := []; pt_entries := []; pt_clocks := ck_list ck; pt_releases := [] |}.
Proof.
  intros Hl. split; cbn; try done; try constructor; try (intros x Hx%elem_of_empty; done).
  - by intros ?%elem_of_empty.
  - by intros ?%elem_of_nil.
  - by intros ?%elem_of_empty.
  - by intros ?%elem_of_nil.
Qed.

Section Coherent.
  Context (sources : list clockSource) (bs : list clockBinding) (ps : list gatewayPointDTO) (ck : clock_state)
    (m : gmap string string) (st : point_state) (Hconn : connectorID <> "") (Hck : clocks_inv connectorID sources ck)
    (Hm : bindings_inv (ck_index ck) bs m) (Hp : points_inv connectorID sources bs (ck_objects ck) ps st).

Lemma native_local p : p ∈ ps -> dto_ReleaseOf p = "" -> LocalID (entry_of connectorID p) ∈ map np_LocalID (pt_points st).
Proof.
  intros Hi Hr. destruct Hp. rewrite pi_points0, map_map. apply list_elem_of_fmap. exists (entry_of connectorID p).
  split; [done|]. rewrite elem_of_filter_In, (entries_native ps) by done. rewrite Hr. split; [|done].
  apply list_elem_of_fmap. by exists p.
Qed.

Lemma native_unique p q : p ∈ ps -> q ∈ ps -> dto_ReleaseOf p = "" -> dto_ReleaseOf q = "" ->
  LocalID (entry_of connectorID p) = LocalID (entry_of connectorID q) -> p = q.
Proof.
  intros Hi Hj Hr Hs El. destruct Hp. rewrite pi_points0, filter_map_swap, !map_map in pi_locals0.
  apply (NoDup_map_inj _ _ _ _ pi_locals0); [..|exact El]; rewrite elem_of_filter_In, (entries_native ps) by done;
    (split; [done|]); apply String.eqb_eq; done.
Qed.

Lemma one_clock c c' l : c ∈ sources -> c' ∈ sources -> l ∈ nc_PointLocalIDs (clock_of connectorID bs ps c) ->
  l ∈ nc_PointLocalIDs (clock_of connectorID bs ps c') -> c = c'.
Proof.
  rewrite !clock_of_elem. intros Hc Hc' (p & Hi & Hb & El) (q & Hj & Hb' & Eq).
  assert (p = q) as -> by (apply native_unique; eauto using bound_native; congruence).
  apply (bound_lookup _ _ _ _ _ Hm) in Hb as (e & He & Hl). apply (bound_lookup _ _ _ _ _ Hm) in Hb' as (e' & He' & Hl').
  apply (NoDup_map_inj cs_ClockID sources); [apply (ci_ids _ _ _ Hck)|done..|congruence].
Qed.

Lemma coherent_of_inv rev : NoDup (map dto_ReleaseOf (pt_releases st)) ->
  Forall (fun r => dto_ReleaseOf r ∈ pt_writable st) (pt_releases st) ->
  forallb (fun c => match nc_PointLocalIDs c with [] => false | _ => true end) (pt_clocks st) = true ->
  coherent {| nk_Revision := rev; nk_ConnectorID := connectorID; nk_DeviceID := deviceID; nk_Points := pt_points st;
              nk_Clocks := pt_clocks st |} (pt_entries st).
Proof.
  intros Hr Hw Ht. pose proof Hp as []. pose proof Hck as []. split; cbn.
  - rewrite pi_entries0, Forall_map. apply (Forall_impl _ _ _ pi_protocol0). intros p Ep.
    destruct (entry_of_bacnet _ p Ep Hconn) as (_ & _ & _ & ? & ? & _). done.
  - rewrite pi_entries0, map_map. erewrite map_ext_in; [exact pi_nodup0|]. intros p Hi%list_elem_of_In.
    rewrite Forall_forall in pi_protocol0. by destruct (entry_of_bacnet _ p (pi_protocol0 _ Hi) Hconn) as (_ & ? & _).
  - apply NoDup_app. split_and!; [done| |rewrite pi_clocks0, map_map; exact ci_locals0].
    intros x Hx Hc. apply pi_natives0, pi_objects0 in Hx. apply Hx, ci_objects0. by rewrite pi_clocks0, map_map in Hc.
  - rewrite pi_clocks0, map_map. exact ci_ids0.
  - apply Forall_forall. intros c Hc%list_elem_of_In E. rewrite forallb_forall in Ht. specialize (Ht c Hc). by rewrite E in Ht.
  - rewrite pi_clocks0. intros c l (c0 & -> & Hc)%list_elem_of_fmap (p & Hi & Hb & ->)%clock_of_elem.
    apply native_local; [done|]. by eapply bound_native.
  - rewrite pi_clocks0. intros c c' l (d & -> & Hd)%list_elem_of_fmap (d' & -> & Hd')%list_elem_of_fmap H1 H2.
    f_equal. by eapply one_clock.
  - rewrite pi_releases0 in Hr. rewrite pi_entries0, filter_map_swap, map_map.
    erewrite filter_ext_in, map_ext_in; [exact Hr|..].
    + intros p [Hi _]%filter_In. apply list_elem_of_In in Hi. rewrite Forall_forall in pi_protocol0.
      by destruct (entry_of_bacnet _ p (pi_protocol0 _ Hi) Hconn) as (_ & _ & ? & _).
    + intros p Hi%list_elem_of_In. cbn. by rewrite (entries_native ps).
  - rewrite pi_entries0. intros r (p & -> & Hi)%list_elem_of_fmap Hn. pose proof pi_protocol0 as Hq.
    rewrite Forall_forall in Hq. destruct (entry_of_bacnet _ p (Hq _ Hi) Hconn) as (_ & _ & Er & _).
    rewrite <- pi_entries0, Er. apply pi_writable0. rewrite Forall_forall in Hw. apply Hw.
    rewrite pi_releases0, elem_of_filter_In. split; [done|]. rewrite (entries_native ps) in Hn by done. by rewrite Hn.
Qed.
End Coherent.

Lemma stage_body_spec s cfg es : connectorID <> "" -> stage_body gatewayID connectorID deviceID s = Ok (cfg, es) ->
  (cfg, es) = bundle (s_Revision s) s /\ coherent cfg es.
Proof.
  intros Hconn H. unfold stage_body in H. guards H.
  apply result_bind_ok in H as [ck [Hck%stage_clocks_spec H]]. apply result_bind_ok in H as [m [Hm%stage_bindings_spec H]].
  apply result_bind_ok in H as [st [Hst H]]. apply result_bind_ok in H as [rel [[Hr1 Hr2]%stage_releases_spec H]]. guards H.
  apply (stage_points_spec connectorID deviceID _ _ _ _ _ Hconn (ci_ids _ _ _ Hck) (ci_index _ _ _ Hck) Hm) in Hst;
    [|apply points_init, (ci_list _ _ _ Hck)].
  injection H as <- <-. split; [|by eapply coherent_of_inv].
  unfold bundle. rewrite (pi_points _ _ _ _ _ _ Hst), (pi_entries _ _ _ _ _ _ Hst), (pi_clocks _ _ _ _ _ _ Hst). done.
Qed.
End StageExact.

(** What the accepting path of [StageClockSnapshot] went through. *)
Lemma stage_accepts gatewayID connectorID deviceID data cfg es :
  StageClockSnapshot gatewayID connectorID deviceID data = Ok (cfg, es) ->
  exists body rest s, parse_prefix data = Some (JObj body, rest) /\ skip_ws rest = "" /\ hashable (JObj body) = true /\
    snapshot_decode (JObj body) = Some s /\ s_GatewayID s = gatewayID /\ connectorID <> "" /\ s_Revision s = revision_of body /\
    stage_body gatewayID connectorID deviceID s = Ok (cfg, es).
Proof.
  intros H. unfold StageClockSnapshot in H. destruct (parse_prefix data) as [[v rest]|]; [|done].
  destruct (snapshot_decode v) as [s|] eqn:Es; [|done]. guards H.
  apply result_bind_ok in H as [w [[-> Hh]%clockJSONValue_spec H]]. guards H. destruct v as [| | | | |body]; try done. guards H.
  rewrite !andb_true_iff, !negb_true_iff in G. destruct G as [[[[_ _] Hg%String.eqb_eq] Hc%String.eqb_neq] _].
  apply String.eqb_eq in G0, G2. exists body, rest, s. by split_and!.
Qed.

(** C30: A staged clock snapshot is one JSON object without nulls, fractions or
    repeated names that hashes to its own revision; the bundle and the mapping
    are exactly those its lists mean; every identifier and address names one
    thing; every clock times at least one point of the bundle and no point has
    two clocks; every release point names a writable point of the snapshot that
    no other one releases. *)
Theorem stage_sound (gatewayID connectorID : string) (deviceID : Z) (data : string) (cfg : NativeClockConfig)
    (es : list Entry) : StageClockSnapshot gatewayID connectorID deviceID data = Ok (cfg, es) ->
  exists body rest s, parse_prefix data = Some (JObj body, rest) /\ skip_ws rest = "" /\ hashable (JObj body) = true /\
    snapshot_decode (JObj body) = Some s /\ s_GatewayID s = gatewayID /\ s_Revision s = revision_of body /\
    (cfg, es) = bundle connectorID deviceID (revision_of body) s /\ coherent connectorID cfg es.
Proof.
  intros (body & rest & s & Hp & Hr & Hh & Hd & Hg & Hc & Hv & H)%stage_accepts.
  apply stage_body_spec in H as [Hb Hco]; [|done]. rewrite Hv in Hb. exists body, rest, s. by split_and!.
Qed.

(** The same of a [ClockSnapshot], as its users need it. *)
Lemma StageClock_coherent data scope s : StageClock data scope = Ok s ->
  Revision s <> "" /\ nk_Points (cl_native s) = map native_point (List.filter is_native (cl_entries s)) /\
  coherent (sc_ConnectorID scope) (cl_native s) (cl_entries s).
Proof.
  intros [[cfg es] [(body & rest & sn & _ & _ & _ & _ & _ & Hc & Hv & H)%stage_accepts [= <-]]]%result_bind_ok. cbn.
  apply stage_body_spec in H as [Hb Hco]; [|done]. unfold bundle in Hb. injection Hb as -> ->. split_and!; [|done..].
  unfold Revision. cbn. by rewrite Hv.
Qed.

Lemma StageClock_revision data scope s : StageClock data scope = Ok s -> Revision s <> "".
Proof. by intros (? & _)%StageClock_coherent. Qed.

(** Staging what was staged stages the same. *)
Lemma StageClock_raw data scope s : StageClock data scope = Ok s -> StageClock (cl_raw s) scope = Ok s.
Proof. intros H. pose proof H as [r [_ [= <-]]]%result_bind_ok. done. Qed.

(** ** A concrete snapshot *)

Module ClockConfigExample.
Definition text (hex : string) : string :=
  ProvisioningExample.dq ("{'schemaVersion':'clock-provisioning/1-draft','gatewayId':'gw-1','generatedAt':'now','revision':'\'sha256:"
    +:+ hex +:+ "\'','points':[{'pointId':'p1','protocol':'bacnet','writable':true,'native':{'protocol':'bacnet','deviceId':'7',"
    +:+ "'objectType':'analogOutput','instanceNo':'3'},'device':{'dtId':'ahu','id':'d1'}},"
    +:+ "{'pointId':'p2','protocol':'bacnet','writable':true,'releaseOf':'p1'}],"
    +:+ "'clockSources':[{'clockId':'sim','clockDomain':'simulation','unit':'s','readOnly':true,'acquisitionMode':'poll',"
    +:+ "'native':{'protocol':'bacnet','gatewayId':'gw-1','connectorId':'bac-1','deviceInstance':7,'objectType':'analogValue',"
    +:+ "'objectInstance':9,'property':'presentValue','unit':'seconds'}}],"
    +:+ "'clockBindings':[{'equipmentId':'ahu','clockId':'sim'}]}").

Definition hex : string := Eval vm_compute in
  match parse (text "") with
  | Some (JObj body) => sha256_hex (encode_canonical (JObj (without "generatedAt" (without "revision" body))))
  | _ => ""
  end.

Definition scope : ClockScope := {| sc_GatewayID := "gw-1"; sc_ConnectorID := "bac-1"; sc_DeviceID := 7 |}.

Definition cfg : NativeClockConfig :=
  {| nk_Revision := str1 34 +:+ "sha256:" +:+ hex +:+ str1 34; nk_ConnectorID := "bac-1"; nk_DeviceID := 7;
     nk_Points := [{| np_LocalID := "analogOutput,3"; np_DeviceRef := "7"; np_Unit := ""; np_Writable := true |}];
     nk_Clocks := [{| nc_ClockID := "sim"; nc_LocalID := "analogValue,9"; nc_Property := "presentValue";
                      nc_PointLocalIDs := ["analogOutput,3"] |}] |}.
Definition mapping : list Entry :=
  [mkEntry "" "bac-1" "bacnet" "analogOutput,3" "p1" "" true "7" ""; mkEntry "p1" "bac-1" "bacnet" "" "p2" "" true "" ""].
Definition snap : ClockSnapshot := {| cl_raw := text hex; cl_native := cfg; cl_entries := mapping |}.

Example snap_staged : StageClock (text hex) scope = Ok snap.
Proof. vm_compute. reflexivity. Qed.
Example tampered_refused : StageClock (text "00") scope = Err RevisionMismatch.
Proof. vm_compute. reflexivity. Qed.

Lemma stage_sound_witness : StageClockSnapshot "gw-1" "bac-1" 7 (text hex) = Ok (cfg, mapping) /\ coherent "bac-1" cfg mapping.
Proof.
  assert (StageClockSnapshot "gw-1" "bac-1" 7 (text hex) = Ok (cfg, mapping)) as H by (vm_compute; reflexivity).
  split; [exact H|]. destruct (stage_sound "gw-1" "bac-1" 7 (text hex) cfg mapping H) as (body & rest & s & Hs). apply Hs.
Defined.

#[local] Instance script_do : ClockDo (list attempt) := fun l _ =>
  match l with
  | a :: l' => (l', a)
  | [] => ([], {| at_request := true; at_reply := NoReply false; at_ended_do := false; at_ended_stage := false;
                  at_ended := false; at_ended_wait := false |})
  end.
Definition plain (r : reply) : attempt :=
  {| at_request := true; at_reply := r; at_ended_do := false; at_ended_stage := false; at_ended := false; at_ended_wait := false |}.
Definition client : ClockHTTPClient :=
  {| ch_http := clock_mapper ""; ch_endpoint := ""; ch_scope := scope;
     ch_opts := {| ho_TLS := Build_TLSOptions "" "c" "k" ""; ho_Timeout := 1; ho_Attempts := 3; ho_RetryDelay := 5 |} |}.
Definition answers0 : list attempt := [plain (Reply 503 "" None); plain (Reply 200 (Revision snap) (Some (text hex)))].

End ClockConfigExample.
