(* ===== verification/ClockSync.v ===== *)
(** * The clock apply transaction

    [src/internal/clocksync/controller.go] and [runtime.go]: the controller
    that fetches a clock snapshot and applies it to a running connector under a
    closed admission gate, with rollback, and the runtime that enforces the
    order of the steps and swaps the point mapping.

    The controller is proved against the contract its [Runtime] interface
    documents; [ResolverRuntime] meets that contract whenever its gate and its
    connector meet theirs ([ClockGateway] shows that the real ones do).  The
    theorems say that traffic is admitted only while the connector runs, and
    the resolver maps, the snapshot the controller claims to have applied. *)

From Stdlib Require Import ZArith Lia Bool Ascii String List.
From stdpp Require Import base list strings gmap.
From S2P Require Import Prelude PointList ClockConfig.
#[local] Open Scope string_scope.
#[local] Open Scope list_scope.
#[local] Open Scope Z_scope.

(** ** The runtime *)

(** An operation of a runtime or of an adapter, which may fail. *)
Definition op (R A : Type) : Type := R -> R * result string A.

(** [rt_Configure] is [ConfigureSnapshot] where the runtime has it, and
    [Configure] of the snapshot's bundle and mapping otherwise. *)
Class Runtime (R : Type) := {
  rt_Hold : op R unit;
  rt_Stop : op R unit;
  rt_Drain : op R unit;
  rt_Configure : ClockSnapshot -> op R unit;
  rt_Start : op R unit;
  rt_Verify : string -> op R unit;
  rt_Resume : op R unit
}.

(** What the interface promises: [admitted] is the gate, [configured r s] that
    [s] is what the next start runs and maps, [checked r s] that the running
    connector was seen to run it. *)
Class RuntimeLaws (R : Type) `{Runtime R} := {
  admitted : R -> bool;
  configured : R -> ClockSnapshot -> Prop;
  checked : R -> ClockSnapshot -> Prop;
  serving : R -> ClockSnapshot -> Prop;
  hold_closes r : admitted (fst (rt_Hold r)) = false;
  stop_closed r : admitted r = false -> admitted (fst (rt_Stop r)) = false;
  drain_closed r : admitted r = false -> admitted (fst (rt_Drain r)) = false;
  configure_closed s r : admitted r = false -> admitted (fst (rt_Configure s r)) = false;
  start_closed r : admitted r = false -> admitted (fst (rt_Start r)) = false;
  verify_closed v r : admitted r = false -> admitted (fst (rt_Verify v r)) = false;
  resume_closed r r' e : admitted r = false -> rt_Resume r = (r', Err e) -> admitted r' = false;
  configure_ok s r r' : rt_Configure s r = (r', Ok tt) -> configured r' s;
  start_ok s r r' : configured r s -> rt_Start r = (r', Ok tt) -> configured r' s;
  verify_ok s r r' : configured r s -> rt_Verify (Revision s) r = (r', Ok tt) -> checked r' s;
  resume_ok s r r' : checked r s -> rt_Resume r = (r', Ok tt) -> admitted r' = true /\ serving r' s
}.

(** ** The controller *)

Inductive phase :=
  Uninitialized | Holding | WaitingSnapshot | Staged | Stopping | Draining | Configuring | Starting | Verifying
| Resuming | Active | RollingBack | RetryPending | Halted.

Inductive sync_error :=
  Busy | StepEnded (p : phase) | StepFailed (p : phase) (e : string) | FetchFailed (e : string)
| StageFailed (e : stage_error) | NotModifiedUnstaged | RollbackFailed (e : string) | Joined (e e' : sync_error)
| AlreadyStarted.

Record Status := {
  Phase : phase; DesiredRevision : string; AppliedRevision : string; LastGoodRevision : string;
  LastError : option sync_error
}.

Record Controller := {
  c_scope : ClockScope; c_status : Status; c_desired : option ClockSnapshot; c_good : option ClockSnapshot;
  c_initialized : bool
}.

Definition NewController (scope : ClockScope) : Controller :=
  {| c_scope := scope; c_desired := None; c_good := None; c_initialized := false;
     c_status := {| Phase := Uninitialized; DesiredRevision := ""; AppliedRevision := ""; LastGoodRevision := ""; LastError := None |} |}.

Definition update (f : Status -> Status) (c : Controller) : Controller := {| c with c_status := f (c_status c) |}.
Definition set_phase (p : phase) : Controller -> Controller := update (fun s => {| s with Phase := p |}).
Definition set_error (e : sync_error) : Controller -> Controller := update (fun s => {| s with LastError := Some e |}).

(** What one call of [Sync] meets: whether another holds the lock, whether the
    caller's context has ended when a step begins, and what the source answers
    to the known revision, a fetch that outlives its context included. *)
Record sync_env := { se_busy : bool; se_ended : phase -> bool; se_fetch : string -> result string (option ClockSnapshot) }.

Section Controller.
  Context {R : Type} `{Runtime R}.

Definition step (ended : phase -> bool) (p : phase) (fn : op R unit) (c : Controller) (r : R)
  : Controller * R * result sync_error unit :=
  let c := set_phase p c in
  if ended p then (c, r, Err (StepEnded p))
  else
    let '(r, x) := fn r in
    (c, r, match x with Ok u => Ok u | Err e => Err (StepFailed p e) end).

Fixpoint run_steps (ended : phase -> bool) (steps : list (phase * op R unit)) (c : Controller) (r : R)
  : Controller * R * result sync_error unit :=
  match steps with
  | [] => (c, r, Ok tt)
  | (p, fn) :: steps' =>
    let '(c, r, x) := step ended p fn c r in
    match x with Ok _ => run_steps ended steps' c r | Err e => (c, r, Err e) end
  end.

Definition apply_steps (s : ClockSnapshot) : list (phase * op R unit) :=
  [(Holding, rt_Hold); (Stopping, rt_Stop); (Draining, rt_Drain); (Configuring, rt_Configure s);
   (Starting, rt_Start); (Verifying, rt_Verify (Revision s)); (Resuming, rt_Resume)].

Definition apply (ended : phase -> bool) (s : ClockSnapshot) (c : Controller) (r : R)
  : Controller * R * result sync_error unit :=
  run_steps ended (apply_steps s) (update (fun st => {| st with AppliedRevision := "" |}) c) r.

Fixpoint run_ops (ops : list (op R unit)) (r : R) : R * result string unit :=
  match ops with
  | [] => (r, Ok tt)
  | fn :: ops' => let '(r, x) := fn r in match x with Ok _ => run_ops ops' r | Err e => (r, Err e) end
  end.

Definition rollback_fail (e : string) (c : Controller) (r : R) : Controller * R * option sync_error :=
  let r := fst (rt_Hold r) in
  let r := fst (rt_Stop r) in
  (update (fun s => {| s with Phase := Halted; AppliedRevision := "" |}) c, r, Some (RollbackFailed e)).

Definition rollback (c : Controller) (r : R) : Controller * R * option sync_error :=
  let c := set_phase RollingBack c in
  let '(r, x) := run_ops [rt_Hold; rt_Stop; rt_Drain] r in
  match x with
  | Err e => rollback_fail e c r
  | Ok _ =>
    match c_good c with
    | None => (set_phase Halted c, r, None)
    | Some good =>
      let '(r, x) := run_ops [rt_Configure good; rt_Start; rt_Verify (Revision good); rt_Resume] r in
      match x with
      | Err e => rollback_fail e c r
      | Ok _ => (update (fun s => {| s with Phase := RetryPending; AppliedRevision := Revision good |}) c, r, None)
      end
    end
  end.

(** [Sync] after the fetch: the desired snapshot is known. *)
Definition sync_desired (ended : phase -> bool) (desired : ClockSnapshot) (c : Controller) (r : R)
  : Controller * R * result sync_error unit :=
  if String.eqb (AppliedRevision (c_status c)) (Revision desired) then
    (update (fun s => {| s with LastError := None |}) c, r, Ok tt)
  else
    let '(c, r, x) := apply ended desired (set_phase Staged c) r in
    match x with
    | Ok _ =>
      let c := {| c with c_good := Some desired |} in
      (update (fun s => {| s with Phase := Active; AppliedRevision := Revision desired;
                                  LastGoodRevision := Revision desired; LastError := None |}) c, r, Ok tt)
    | Err e =>
      let '(c, r, x) := rollback c r in
      let e := match x with Some e' => Joined e e' | None => e end in
      (set_error e c, r, Err e)
    end.

Definition sync_fetch (env : sync_env) (c : Controller) (r : R) : Controller * R * result sync_error unit :=
  let known := match c_desired c with Some s => Revision s | None => "" end in
  match se_fetch env known with
  | Err e => (set_error (FetchFailed e) c, r, Err (FetchFailed e))
  | Ok None =>
    match c_desired c with
    | None => (set_error NotModifiedUnstaged c, r, Err NotModifiedUnstaged)
    | Some desired => sync_desired (se_ended env) desired c r
    end
  | Ok (Some s) =>
    match StageClock (cl_raw s) (c_scope c) with
    | Err e => (set_error (StageFailed e) c, r, Err (StageFailed e))
    | Ok s =>
      let c := {| c with c_desired := Some s |} in
      sync_desired (se_ended env) s (update (fun st => {| st with DesiredRevision := Revision s |}) c) r
    end
  end.

Definition Sync (env : sync_env) (c : Controller) (r : R) : Controller * R * result sync_error unit :=
  if se_busy env then (c, r, Err Busy)
  else if c_initialized c then sync_fetch env c r
  else
    let '(c, r, x) := step (se_ended env) Holding rt_Hold c r in
    match x with
    | Err e => (update (fun s => {| s with Phase := Halted; LastError := Some e |}) c, r, Err e)
    | Ok _ => let c := set_phase WaitingSnapshot c in sync_fetch env {| c with c_initialized := true |} r
    end.

Definition RestoreLastGood (s : option ClockSnapshot) (c : Controller) : Controller * result sync_error unit :=
  if c_initialized c then (c, Err AlreadyStarted)
  else
    match s with
    | None => (c, Ok tt)
    | Some s =>
      match StageClock (cl_raw s) (c_scope c) with
      | Err e => (c, Err (StageFailed e))
      | Ok copy =>
        let c := {| c with c_good := Some copy |} in
        (update (fun st => {| st with LastGoodRevision := Revision copy |}) c, Ok tt)
      end
    end.

(** A history of calls. *)
Inductive call := CallSync (env : sync_env) | CallRestore (s : option ClockSnapshot).

Definition do_call (k : call) (cr : Controller * R) : Controller * R :=
  match k with
  | CallSync env => fst (Sync env (fst cr) (snd cr))
  | CallRestore s => (fst (RestoreLastGood s (fst cr)), snd cr)
  end.

Definition history (ks : list call) (cr : Controller * R) : Controller * R := fold_left (fun cr k => do_call k cr) ks cr.
End Controller.

(** ** Theorems: the controller *)

Section ControllerTheorems.
  Context {R : Type} `{RuntimeLaws R} (scope : ClockScope).

Definition staged (s : ClockSnapshot) : Prop := StageClock (cl_raw s) scope = Ok s.

(** What the controller has applied is what is admitted and served; what it
    has not applied is not admitted. *)
Definition applied_inv (c : Controller) (r : R) : Prop :=
  if String.eqb (AppliedRevision (c_status c)) "" then c_initialized c = true -> admitted r = false
  else exists s, c_good c = Some s /\ Revision s = AppliedRevision (c_status c) /\ admitted r = true /\ serving r s.

Definition phase_applied (p : phase) : bool := match p with Active | RetryPending => true | _ => false end.

Record sync_inv (c : Controller) (r : R) : Prop := {
  si_scope : c_scope c = scope;
  si_applied : applied_inv c r;
  si_phase : phase_applied (Phase (c_status c)) = negb (String.eqb (AppliedRevision (c_status c)) "");
  si_desired : match c_desired c with
               | Some s => staged s /\ DesiredRevision (c_status c) = Revision s
               | None => DesiredRevision (c_status c) = "" end;
  si_good : match c_good c with
            | Some s => staged s /\ LastGoodRevision (c_status c) = Revision s
            | None => LastGoodRevision (c_status c) = "" end;
  si_fresh : c_initialized c = false -> AppliedRevision (c_status c) = ""
}.

Lemma run_steps_frame ended steps : forall c (r : R) c' r' x, run_steps ended steps c r = (c', r', x) ->
  exists p, c' = set_phase p c.
Proof.
  induction steps as [|[p fn] steps IH]; cbn; intros c r c' r' x.
  - intros [= <- _ _]. exists (Phase (c_status c)). by destruct c as [? [] ? ? ?].
  - unfold step. destruct (ended p); [intros [= <- _ _]; by exists p|]. destruct (fn r) as [r1 [u|e]].
    + intros [q ->]%IH. by exists q.
    + intros [= <- _ _]. by exists p.
Qed.

(** A chain of operations that starts by configuring under a closed gate. *)
Lemma bring_up s r r' x : admitted r = false ->
  run_ops [rt_Configure s; rt_Start; rt_Verify (Revision s); rt_Resume] r = (r', x) ->
  match x with Ok _ => admitted r' = true /\ serving r' s | Err _ => admitted r' = false end.
Proof.
  intros Hc. cbn. pose proof (configure_closed s r Hc) as H1.
  destruct (rt_Configure s r) as [r1 [[]|e]] eqn:E1; [|by intros [= <- <-]].
  pose proof (start_closed r1 H1) as H2. destruct (rt_Start r1) as [r2 [[]|e]] eqn:E2; [|by intros [= <- <-]].
  pose proof (verify_closed (Revision s) r2 H2) as H3.
  destruct (rt_Verify (Revision s) r2) as [r3 [[]|e]] eqn:E3; [|by intros [= <- <-]].
  destruct (rt_Resume r3) as [r4 [[]|e]] eqn:E4; intros [= <- <-].
  - eapply resume_ok, E4. eapply verify_ok, E3. eapply start_ok, E2. eapply configure_ok, E1.
  - by eapply resume_closed, E4.
Qed.

Lemma quiesce r r' x : run_ops [rt_Hold; rt_Stop; rt_Drain] r = (r', x) -> admitted r' = false.
Proof.
  cbn. pose proof (hold_closes r) as H1. destruct (rt_Hold r) as [r1 [[]|e]]; [|by intros [= <- _]].
  pose proof (stop_closed r1 H1) as H2. destruct (rt_Stop r1) as [r2 [[]|e]]; [|by intros [= <- _]].
  pose proof (drain_closed r2 H2) as H3. destruct (rt_Drain r2) as [r3 [[]|e]]; by intros [= <- _].
Qed.

(** Steps that succeed are the operations themselves. *)
Lemma run_steps_ok ended steps : forall c (r : R) c' r' u, run_steps ended steps c r = (c', r', Ok u) ->
  run_ops (map snd steps) r = (r', Ok tt).
Proof.
  induction steps as [|[p fn] steps IH]; cbn; intros c r c' r' u; [by intros [= _ <- _]|].
  unfold step. destruct (ended p); [done|]. destruct (fn r) as [r1 [[]|e]]; [|done]. apply IH.
Qed.

Lemma run_ops_app ops1 ops2 (r r' : R) : run_ops (ops1 ++ ops2) r = (r', Ok tt) ->
  exists r1, run_ops ops1 r = (r1, Ok tt) /\ run_ops ops2 r1 = (r', Ok tt).
Proof.
  revert r. induction ops1 as [|fn ops IH]; cbn; intros r; [by exists r|].
  destruct (fn r) as [r1 [[]|e]]; [apply IH|done].
Qed.

Lemma apply_ok ended s c (r : R) c' r' u : apply ended s c r = (c', r', Ok u) -> admitted r' = true /\ serving r' s.
Proof.
  unfold apply. intros Hr%run_steps_ok. cbn [apply_steps map snd] in Hr.
  apply (run_ops_app [rt_Hold; rt_Stop; rt_Drain]) in Hr as (r1 & H1%quiesce & H2). exact (bring_up _ _ _ _ H1 H2).
Qed.

(** After a rollback either nothing is admitted, or what is admitted is the
    last good snapshot. *)
Lemma rollback_spec c (r : R) c' r' e : rollback c r = (c', r', e) -> AppliedRevision (c_status c) = "" ->
  c_scope c' = c_scope c /\ c_desired c' = c_desired c /\ c_good c' = c_good c /\ c_initialized c' = c_initialized c /\
  DesiredRevision (c_status c') = DesiredRevision (c_status c) /\
  LastGoodRevision (c_status c') = LastGoodRevision (c_status c) /\
  ((Phase (c_status c') = Halted /\ AppliedRevision (c_status c') = "" /\ admitted r' = false) \/
   (Phase (c_status c') = RetryPending /\ exists g, c_good c = Some g /\ AppliedRevision (c_status c') = Revision g /\
      admitted r' = true /\ serving r' g)).
Proof.
  unfold rollback. intros Hr Ha. destruct (run_ops [rt_Hold; rt_Stop; rt_Drain] r) as [r1 x1] eqn:E1.
  pose proof (quiesce _ _ _ E1) as H1.
  assert (forall e0 r0, admitted (fst (rt_Stop (fst (rt_Hold r0)))) = false /\
    rollback_fail e0 (set_phase RollingBack c) r0 =
      (update (fun s => {| s with Phase := Halted; AppliedRevision := "" |}) (set_phase RollingBack c),
       fst (rt_Stop (fst (rt_Hold r0))), Some (RollbackFailed e0))) as Hf.
  { intros e0 r0. split; [|done]. apply stop_closed, hold_closes. }
  destruct x1 as [u|e1]; [|destruct (Hf e1 r1) as [Hc Ef]; rewrite Ef in Hr; injection Hr as <- <- <-; cbn; tauto].
  change (c_good (set_phase RollingBack c)) with (c_good c) in Hr. destruct (c_good c) as [g|] eqn:Eg.
  - destruct (run_ops _ r1) as [r2 x2] eqn:E2. pose proof (bring_up _ _ _ _ H1 E2) as H2. destruct x2 as [u2|e2].
    + injection Hr as <- <- <-. cbn. split_and!; try done. right. split; [done|]. by exists g.
    + destruct (Hf e2 r2) as [Hc Ef]. rewrite Ef in Hr. injection Hr as <- <- <-. cbn. tauto.
  - injection Hr as <- <- <-. cbn. tauto.
Qed.

(** What a [Sync] that returns says, with the desired snapshot known. *)
Lemma sync_desired_spec ended s c (r : R) c' r' x : sync_inv c r -> c_initialized c = true -> c_desired c = Some s ->
  sync_desired ended s c r = (c', r', x) ->
  sync_inv c' r' /\ c_initialized c' = true /\ c_desired c' = Some s /\
  (is_ok x = true -> AppliedRevision (c_status c') = Revision s).
Proof.
  intros Hi Hin Hd Hs. pose proof Hi as [Hsc Ha Hp Hde Hg Hf]. rewrite Hd in Hde. destruct Hde as [Hst Hrev].
  unfold sync_desired in Hs. destruct (String.eqb_spec (AppliedRevision (c_status c)) (Revision s)) as [E|E].
  { injection Hs as <- <- <-. split_and!; try done. split; cbn; try done. by rewrite Hd. }
  destruct (apply _ s _ r) as [[c1 r1] x1] eqn:E1. pose proof (run_steps_frame _ _ _ _ _ _ _ E1) as [q ->].
  destruct x1 as [u|e].
  - apply apply_ok in E1 as [H1 H2]. injection Hs as <- <- <-. cbn. split_and!; try done.
    assert (Revision s <> "") as Hne by exact (StageClock_revision _ _ _ Hst). apply String.eqb_neq in Hne.
    split; unfold applied_inv, staged in *; cbn; rewrite ?Hne, ?Hd, ?Hin; try done. by exists s.
  - destruct (rollback _ r1) as [[c2 r2] x2] eqn:E2.
    apply rollback_spec in E2 as (Es & Ed & Eg & Ei & Edr & Elg & Hor); [|done]. cbn in Es, Ed, Eg, Ei, Edr, Elg, Hor.
    injection Hs as <- <- <-. cbn. rewrite Ei, Ed, Hd. split_and!; try done.
    split; cbn; unfold applied_inv, staged in *; cbn; rewrite ?Es, ?Hsc, ?Ed, ?Eg, ?Ei, ?Edr, ?Elg, ?Hd, ?Hin; try done.
    + destruct Hor as [(Hh & -> & Hc)|(Hh & g & Eg' & -> & Hc)]; [by intros _|]. rewrite Eg' in Hg.
      pose proof (StageClock_revision _ _ _ (proj1 Hg)) as Hne. apply String.eqb_neq in Hne. rewrite Hne. by exists g.
    + destruct Hor as [(-> & -> & _)|(-> & g & Eg' & -> & _)]; [done|]. rewrite Eg' in Hg.
      pose proof (StageClock_revision _ _ _ (proj1 Hg)) as Hne. apply String.eqb_neq in Hne. by rewrite Hne.
Qed.

Lemma sync_fetch_spec env c (r : R) c' r' x : sync_inv c r -> c_initialized c = true -> sync_fetch env c r = (c', r', x) ->
  sync_inv c' r' /\ c_initialized c' = true /\
  (is_ok x = true -> exists s, c_desired c' = Some s /\ AppliedRevision (c_status c') = Revision s).
Proof.
  intros Hi Hin Hs. unfold sync_fetch in Hs. rewrite (si_scope _ _ Hi) in Hs.
  destruct (se_fetch env _) as [[s|]|e].
  - destruct (StageClock (cl_raw s) scope) as [s'|e] eqn:Es.
    + apply sync_desired_spec in Hs as (? & ? & ? & ?); [naive_solver| |done..].
      destruct Hi. split; try done. cbn. split; [|done]. by apply StageClock_raw with (1 := Es).
    + injection Hs as <- <- <-. split_and!; try done. by destruct Hi.
  - destruct (c_desired c) as [s|] eqn:Ed.
    + apply sync_desired_spec in Hs as (? & ? & ? & ?); naive_solver.
    + injection Hs as <- <- <-. split_and!; try done. by destruct Hi.
  - injection Hs as <- <- <-. split_and!; try done. by destruct Hi.
Qed.

Lemma Sync_spec env c (r : R) c' r' x : sync_inv c r -> Sync env c r = (c', r', x) ->
  sync_inv c' r' /\
  (is_ok x = true -> exists s, c_desired c' = Some s /\ AppliedRevision (c_status c') = Revision s).
Proof.
  intros Hi Hs. unfold Sync in Hs. destruct (se_busy env); [by injection Hs as <- <- <-|].
  destruct (c_initialized c) eqn:Ei; [apply sync_fetch_spec in Hs as (? & _ & ?); done|].
  pose proof Hi as [Hsc Ha Hp Hd Hg Hf]. specialize (Hf Ei). unfold step in Hs.
  destruct (se_ended env Holding).
  { injection Hs as <- <- <-. split; [|done]. split; cbn; unfold applied_inv; cbn; rewrite ?Hf, ?Ei; try done; by rewrite ?Ei. }
  pose proof (hold_closes r) as Hc. destruct (rt_Hold r) as [r1 [u|e]].
  - apply sync_fetch_spec in Hs as (? & _ & ?); [done| |done].
    split; cbn; unfold applied_inv; cbn; rewrite ?Hf; try done. by intros _.
  - injection Hs as <- <- <-. split; [|done]. split; cbn; unfold applied_inv; cbn; rewrite ?Hf, ?Ei; done.
Qed.

Lemma RestoreLastGood_spec s c (r : R) : sync_inv c r -> sync_inv (fst (RestoreLastGood s c)) r.
Proof.
  intros Hi. unfold RestoreLastGood. destruct (c_initialized c) eqn:Ei; [done|]. destruct s as [s|]; [|done].
  pose proof Hi as [Hsc Ha Hp Hd Hg Hf]. specialize (Hf Ei). rewrite Hsc.
  destruct (StageClock _ _) as [copy|e] eqn:Es; [|done].
  split; cbn; unfold applied_inv; cbn; rewrite ?Hf, ?Ei in *; try done.
  split; [|done]. unfold staged. cbn. by apply StageClock_raw with (1 := Es).
Qed.

Lemma history_inv ks : forall c (r : R), sync_inv c r -> sync_inv (fst (history ks (c, r))) (snd (history ks (c, r))).
Proof.
  induction ks as [|k ks IH]; intros c r Hi; [done|]. cbn. destruct k as [env|s]; cbn.
  - destruct (Sync env c r) as [[c' r'] x] eqn:E. apply IH. by apply (Sync_spec _ _ _ _ _ _ Hi) in E as [? _].
  - by apply IH, RestoreLastGood_spec.
Qed.

Lemma new_inv (r : R) : sync_inv (NewController scope) r.
Proof. by split. Qed.

(** Over any history: what is reported as applied is admitted and served, and
    what is not is not admitted; a revision is reported exactly when the
    controller is active or waiting to retry. *)
Lemma history_coherent (r0 : R) (ks : list call) :
  let '(c, r) := history ks (NewController scope, r0) in
  (AppliedRevision (c_status c) = "" -> c_initialized c = true -> admitted r = false) /\
  (AppliedRevision (c_status c) <> "" -> exists s, c_good c = Some s /\ Revision s = AppliedRevision (c_status c) /\
     StageClock (cl_raw s) scope = Ok s /\ admitted r = true /\ serving r s) /\
  (AppliedRevision (c_status c) <> "" <-> Phase (c_status c) = Active \/ Phase (c_status c) = RetryPending).
Proof.
  pose proof (history_inv ks _ _ (new_inv r0)) as [_ Ha Hp _ Hg _]. destruct (history _ _) as [c r]. cbn in *.
  unfold applied_inv in Ha. destruct (String.eqb_spec (AppliedRevision (c_status c)) "") as [E|E]; split_and!; try done.
  - rewrite E. destruct (Phase (c_status c)); cbn in Hp; naive_solver.
  - intros _. destruct Ha as (s & Hs & Hr). exists s. rewrite Hs in Hg. unfold staged in Hg. naive_solver.
  - split; [|done]. intros _. destruct (Phase (c_status c)); cbn in Hp; naive_solver.
Qed.

(** Every return but that of a busy controller is in the status. *)
Lemma Sync_reports env c (r : R) c' r' x : Sync env c r = (c', r', x) ->
  match x with
  | Ok _ => LastError (c_status c') = None
  | Err e => (e = Busy /\ c' = c /\ r' = r) \/ LastError (c_status c') = Some e
  end.
Proof.
  assert (forall ended s c r c' r' x, sync_desired ended s c r = (c', r', x) ->
    match x with Ok _ => LastError (c_status c') = None | Err e => LastError (c_status c') = Some e end) as Hd.
  { clear. intros ended s c r c' r' x. unfold sync_desired. case_if; [by intros [= <- <- <-]|].
    destruct (apply _ _ _ _) as [[c1 r1] [u|e]]; [by intros [= <- <- <-]|].
    destruct (rollback c1 r1) as [[c2 r2] [e2|]]; by intros [= <- <- <-]. }
  assert (forall c r c' r' x, sync_fetch env c r = (c', r', x) ->
    match x with Ok _ => LastError (c_status c') = None | Err e => LastError (c_status c') = Some e end) as Hf.
  { clear c r c' r' x. intros c r c' r' x. unfold sync_fetch. destruct (se_fetch env _) as [[s|]|e].
    - destruct (StageClock _ _); [apply Hd|by intros [= <- <- <-]].
    - destruct (c_desired c); [apply Hd|by intros [= <- <- <-]].
    - by intros [= <- <- <-]. }
  unfold Sync. destruct (se_busy env); [intros [= <- <- <-]; by left|].
  destruct (c_initialized c); [intros Hs%Hf; destruct x; auto|]. unfold step.
  destruct (se_ended env Holding); [intros [= <- <- <-]; by right|].
  destruct (rt_Hold r) as [r1 [u|e]]; [intros Hs%Hf; destruct x; auto|intros [= <- <- <-]; by right].
Qed.

(** A property of the runtime that its operations keep, a configuration of a
    staged snapshot only behind the barrier a drain establishes, holds after
    any history. *)
Section Keeps.
  Context (Q B : R -> Prop)
    (Qhold : forall r, Q r -> Q (fst (rt_Hold r))) (Qstop : forall r, Q r -> Q (fst (rt_Stop r)))
    (Qdrain : forall r r' x, Q r -> rt_Drain r = (r', x) -> Q r' /\ (is_ok x = true -> B r'))
    (Qconfigure : forall s r, staged s -> Q r -> B r -> Q (fst (rt_Configure s r)))
    (Qstart : forall r, Q r -> Q (fst (rt_Start r))) (Qverify : forall v r, Q r -> Q (fst (rt_Verify v r)))
    (Qresume : forall r, Q r -> Q (fst (rt_Resume r))).

Lemma run_ops_keeps ops (r : R) : Forall (fun fn => forall r, Q r -> Q (fst (fn r))) ops -> Q r -> Q (fst (run_ops ops r)).
Proof.
  intros Hf. revert r. induction Hf as [|fn ops Hfn _ IH]; [done|]. cbn. intros r Hr. specialize (Hfn r Hr).
  destruct (fn r) as [r1 [u|e]]; [by apply IH|done].
Qed.

Lemma bring_up_keeps s (r : R) : staged s -> Q r -> B r ->
  Q (fst (run_ops [rt_Configure s; rt_Start; rt_Verify (Revision s); rt_Resume] r)).
Proof.
  intros Hs Hr Hb. pose proof (Qconfigure s r Hs Hr Hb) as Hc. cbn [run_ops]. destruct (rt_Configure s r) as [r1 [u|e]]; [|done].
  apply (run_ops_keeps [rt_Start; rt_Verify (Revision s); rt_Resume]); [|done]. rewrite !Forall_cons. auto.
Qed.

Lemma quiesce_keeps (r r' : R) x : Q r -> run_ops [rt_Hold; rt_Stop; rt_Drain] r = (r', x) -> Q r' /\ (is_ok x = true -> B r').
Proof.
  cbn. intros Hr. pose proof (Qhold r Hr) as H1. destruct (rt_Hold r) as [r1 [u|e]]; [|by intros [= <- <-]].
  pose proof (Qstop r1 H1) as H2. destruct (rt_Stop r1) as [r2 [u2|e]]; [|by intros [= <- <-]].
  pose proof (Qdrain r2) as H3. destruct (rt_Drain r2) as [r3 x3]. destruct (H3 r3 x3 H2 eq_refl) as [H4 H5].
  destruct x3; by intros [= <- <-].
Qed.

Lemma run_steps_prefix ended steps : forall c (r : R), exists n,
  snd (fst (run_steps ended steps c r)) = fst (run_ops (take n (map snd steps)) r).
Proof.
  induction steps as [|[p fn] steps IH]; intros c r; [by exists 0%nat|]. cbn. unfold step. destruct (ended p); [by exists 0%nat|].
  destruct (fn r) as [r1 [u|e]] eqn:E; [|exists 1%nat; cbn; by rewrite E].
  destruct (IH (set_phase p c) r1) as [n Hn]. exists (S n). cbn. by rewrite E.
Qed.

Lemma run_ops_split ops1 ops2 (r : R) : run_ops (ops1 ++ ops2) r
  = match run_ops ops1 r with (r1, Ok _) => run_ops ops2 r1 | (r1, Err e) => (r1, Err e) end.
Proof. revert r. induction ops1 as [|fn ops1 IH]; intros r; [done|]. cbn. destruct (fn r) as [r1 [u|e]]; [apply IH|done]. Qed.

Lemma apply_keeps ended s c (r : R) : staged s -> Q r -> Q (snd (fst (apply ended s c r))).
Proof.
  intros Hs Hr. unfold apply. destruct (run_steps_prefix ended (apply_steps s) (update (fun st => {| st with AppliedRevision := "" |}) c) r) as [n ->].
  change (map snd (apply_steps s)) with ([rt_Hold; rt_Stop; rt_Drain] ++ [rt_Configure s; rt_Start; rt_Verify (Revision s); rt_Resume]).
  assert (forall r, Q r -> Q (fst (rt_Drain r))) as Qd.
  { intros r1 H1'. destruct (rt_Drain r1) as [r2 x] eqn:E. by destruct (Qdrain _ _ _ H1' E). }
  rewrite take_app, run_ops_split. cbn [length]. destruct (decide (n <= 3)%nat) as [Hn|Hn].
  - replace (n - 3)%nat with 0%nat by lia. cbn [take].
    assert (Q (fst (run_ops (take n [rt_Hold; rt_Stop; rt_Drain]) r))) as Hq.
    { apply run_ops_keeps; [|done]. apply Forall_take. rewrite !Forall_cons. auto. }
    by destruct (run_ops _ r) as [r1 [u|e]].
  - rewrite take_ge by (cbn; lia). destruct (run_ops _ r) as [r1 x] eqn:E. apply quiesce_keeps in E as [Hq Hb]; [|done].
    destruct x as [u|e]; [|done]. specialize (Hb eq_refl). destruct (n - 3)%nat as [|m]; [done|]. cbn [take run_ops].
    pose proof (Qconfigure s r1 Hs Hq Hb) as Hc. destruct (rt_Configure s r1) as [r2 [u2|e]]; [|done].
    apply run_ops_keeps; [|done]. apply Forall_take. rewrite !Forall_cons. auto.
Qed.

Lemma rollback_keeps c (r : R) : (forall s, c_good c = Some s -> staged s) -> Q r -> Q (snd (fst (rollback c r))).
Proof.
  intros Hg Hr. assert (forall e c r, Q r -> Q (snd (fst (rollback_fail e c r)))) as Hf by (intros; cbn; auto).
  unfold rollback. destruct (run_ops [rt_Hold; rt_Stop; rt_Drain] r) as [r1 x] eqn:E. apply quiesce_keeps in E as [Hq Hb]; [|done].
  destruct x as [u|e]; [|by apply Hf]. change (c_good (set_phase RollingBack c)) with (c_good c).
  destruct (c_good c) as [good|]; [|done]. pose proof (bring_up_keeps good r1 (Hg _ eq_refl) Hq (Hb eq_refl)) as Hu.
  destruct (run_ops _ r1) as [r2 [u2|e]]; [done|by apply Hf].
Qed.

Lemma sync_desired_keeps ended s c (r : R) : staged s -> (forall s, c_good c = Some s -> staged s) -> Q r ->
  Q (snd (fst (sync_desired ended s c r))).
Proof.
  intros Hs Hg Hr. unfold sync_desired. case_if; [done|]. pose proof (apply_keeps ended s (set_phase Staged c) r Hs Hr) as Ha.
  unfold apply in *. destruct (run_steps _ _ _ r) as [[c1 r1] [u|e]] eqn:Es; [done|]. apply run_steps_frame in Es as [p ->].
  pose proof (rollback_keeps (set_phase p (update (fun st => {| st with AppliedRevision := "" |}) (set_phase Staged c))) r1 Hg Ha) as Hb.
  by destruct (rollback _ r1) as [[c2 r2] x].
Qed.

Lemma sync_fetch_keeps env c (r : R) : c_scope c = scope -> (forall s, c_desired c = Some s -> staged s) ->
  (forall s, c_good c = Some s -> staged s) -> Q r -> Q (snd (fst (sync_fetch env c r))).
Proof.
  intros Hsc Hd Hg Hr. unfold sync_fetch. destruct (se_fetch env _) as [[s|]|e]; [| |done].
  - rewrite Hsc. destruct (StageClock (cl_raw s) scope) as [s'|e] eqn:Es; [|done].
    apply sync_desired_keeps; [|done..]. by eapply StageClock_raw.
  - destruct (c_desired c) as [s|] eqn:Ec; [|done]. apply sync_desired_keeps; auto.
Qed.

Lemma history_keeps ks : forall c (r : R), sync_inv c r -> Q r -> Q (snd (history ks (c, r))).
Proof.
  induction ks as [|k ks IH]; intros c r Hi Hr; [done|]. cbn [history fold_left].
  pose proof (history_inv [k] c r Hi) as Hk. cbn [history fold_left] in Hk. destruct (do_call k (c, r)) as [c1 r1] eqn:Ek.
  apply IH; [exact Hk|]. destruct k as [env|s]; cbn in Ek; [|by injection Ek as <- <-].
  assert (Q (snd (fst (Sync env c r)))) as Hs; [|by rewrite Ek in Hs]. unfold Sync. destruct (se_busy env); [done|].
  destruct Hi as [Hsc _ _ Hd Hg _].
  assert (forall s, c_desired c = Some s -> staged s) as Hd' by (intros s E; rewrite E in Hd; tauto).
  assert (forall s, c_good c = Some s -> staged s) as Hg' by (intros s E; rewrite E in Hg; tauto).
  destruct (c_initialized c) eqn:Ei; [by apply sync_fetch_keeps|]. unfold step. destruct (se_ended env Holding); [done|].
  pose proof (Qhold r Hr) as Hq. destruct (rt_Hold r) as [r2 [u|e]]; [by apply sync_fetch_keeps|done].
Qed.
End Keeps.

(** A sync that returns without an error has the desired revision applied,
    admitted and served, with no error standing; one that returns an error has
    recorded it, unless another sync was running and nothing changed. *)
Theorem sync_acknowledges (r0 : R) (ks : list call) (env : sync_env) :
  let '(c, r) := history ks (NewController scope, r0) in
  let '(c', r', x) := Sync env c r in
  match x with
  | Ok _ => LastError (c_status c') = None /\ AppliedRevision (c_status c') = DesiredRevision (c_status c') /\
            admitted r' = true /\ exists s, Revision s = DesiredRevision (c_status c') /\ serving r' s
  | Err e => (e = Busy /\ c' = c /\ r' = r) \/ LastError (c_status c') = Some e
  end.
Proof.
  pose proof (history_inv ks _ _ (new_inv r0)) as Hi. destruct (history _ _) as [c r]. cbn in Hi.
  destruct (Sync env c r) as [[c' r'] x] eqn:E. pose proof (Sync_reports _ _ _ _ _ _ E) as Hr.
  apply (Sync_spec _ _ _ _ _ _ Hi) in E as [[_ Ha _ Hd _ _] Hok]. destruct x as [u|e]; [|done].
  destruct (Hok eq_refl) as (s & Es & Ea). rewrite Es in Hd. destruct Hd as [Hst Ed].
  pose proof (StageClock_revision _ _ _ Hst) as Hne. apply String.eqb_neq in Hne.
  unfold applied_inv in Ha. rewrite Ea, Hne in Ha. destruct Ha as (g & _ & Hg & Had & Hs). rewrite Ea, Ed.
  split_and!; try done. by exists g.
Qed.
End ControllerTheorems.

(** ** The resolver runtime *)

(** The adapters of a runtime over a world [W]: the admission gate, the
    connector, and what [ConfigureSnapshot] does before [Configure] (nothing
    for a bare runtime). *)
Class Adapters (W : Type) := {
  gate_Hold : op W unit;
  gate_Drain : op W unit;
  gate_Resume : op W unit;
  conn_Stop : op W unit;
  conn_Prepare : ClockSnapshot -> op W unit;
  conn_Configure : NativeClockConfig -> op W unit;
  conn_Start : op W unit;
  conn_Revision : op W string
}.

Record ResolverRuntime (W : Type) := {
  rr_world : W; rr_resolver : SyncedResolver; rr_held : bool; rr_stopped : bool; rr_drained : bool;
  configuredRevision : string; rr_verified : bool
}.
Arguments rr_world {W} _.
Arguments rr_resolver {W} _.
Arguments rr_held {W} _.
Arguments rr_stopped {W} _.
Arguments rr_drained {W} _.
Arguments configuredRevision {W} _.
Arguments rr_verified {W} _.

Definition NewResolverRuntime {W} (w : W) (r : SyncedResolver) : ResolverRuntime W :=
  {| rr_world := w; rr_resolver := r; rr_held := false; rr_stopped := false; rr_drained := false;
     configuredRevision := ""; rr_verified := false |}.

Section ResolverRuntime.
  Context {W : Type} `{Adapters W}.

(** An adapter call, and what the runtime does when it succeeds. *)
Definition on_world {A} (fn : op W A) (r : ResolverRuntime W) : ResolverRuntime W * result string A :=
  let '(w, x) := fn (rr_world r) in ({| r with rr_world := w |}, x).

Definition then_set (r : ResolverRuntime W * result string unit) (f : ResolverRuntime W -> ResolverRuntime W)
  : ResolverRuntime W * result string unit :=
  match r with (r, Ok u) => (f r, Ok u) | (r, Err e) => (r, Err e) end.

Definition rr_Hold : op (ResolverRuntime W) unit := fun r =>
  then_set (on_world gate_Hold r) (fun r => {| r with rr_held := true |}).

Definition rr_Stop : op (ResolverRuntime W) unit := fun r =>
  if negb (rr_held r) then (r, Err "clocksync: stop requires held admission")
  else then_set (on_world conn_Stop r) (fun r => {| r with rr_stopped := true; rr_drained := false; rr_verified := false |}).

Definition rr_Drain : op (ResolverRuntime W) unit := fun r =>
  if negb (rr_held r && rr_stopped r) then (r, Err "clocksync: drain requires stopped publishers")
  else then_set (on_world gate_Drain r) (fun r => {| r with rr_drained := true |}).

Definition rr_Configure (native : NativeClockConfig) (es : list Entry) : op (ResolverRuntime W) unit := fun r =>
  if negb (rr_held r && rr_stopped r && rr_drained r) then (r, Err "clocksync: configure requires stop/drain barrier")
  else then_set (on_world (conn_Configure native) r) (fun r =>
         {| r with rr_resolver := PointList.Update (rr_resolver r) es; configuredRevision := nk_Revision native;
                   rr_verified := false |}).

(** [ConfigureSnapshot]. *)
Definition rr_ConfigureSnapshot (s : ClockSnapshot) : op (ResolverRuntime W) unit := fun r =>
  match on_world (conn_Prepare s) r with
  | (r, Ok _) => rr_Configure (cl_native s) (cl_entries s) r
  | (r, Err e) => (r, Err e)
  end.

Definition rr_Start : op (ResolverRuntime W) unit := fun r =>
  if negb (rr_held r && rr_stopped r && rr_drained r && negb (String.eqb (configuredRevision r) "")) then
    (r, Err "clocksync: start requires held prepared configuration")
  else on_world conn_Start {| r with rr_stopped := false; rr_drained := false |}.

Definition rr_Verify (revision : string) : op (ResolverRuntime W) unit := fun r =>
  let r := {| r with rr_verified := false |} in
  if negb (rr_held r) || rr_stopped r then (r, Err "clocksync: verify requires held running connector")
  else
    match on_world conn_Revision r with
    | (r, Err e) => (r, Err e)
    | (r, Ok got) =>
      if negb (String.eqb got revision) || negb (String.eqb revision (configuredRevision r)) then
        (r, Err "clocksync: running connector revision mismatch")
      else ({| r with rr_verified := true |}, Ok tt)
    end.

Definition rr_Resume : op (ResolverRuntime W) unit := fun r =>
  if negb (rr_held r) || rr_stopped r || negb (rr_verified r) then (r, Err "clocksync: resume requires running connector")
  else then_set (on_world gate_Resume r) (fun r => {| r with rr_held := false |}).

#[export] Instance resolver_runtime : Runtime (ResolverRuntime W) := {|
  rt_Hold := rr_Hold; rt_Stop := rr_Stop; rt_Drain := rr_Drain; rt_Configure := rr_ConfigureSnapshot;
  rt_Start := rr_Start; rt_Verify := rr_Verify; rt_Resume := rr_Resume |}.
End ResolverRuntime.

(** What the adapters promise: a hold closes the gate whatever it returns,
    only a resume that succeeds opens it, and a revision that is reported is
    running. *)
Class AdapterLaws (W : Type) `{Adapters W} := {
  gate_open : W -> bool;
  running : W -> string -> Prop;
  gate_hold_closes w : gate_open (fst (gate_Hold w)) = false;
  gate_drain_closed w : gate_open w = false -> gate_open (fst (gate_Drain w)) = false;
  conn_stop_closed w : gate_open w = false -> gate_open (fst (conn_Stop w)) = false;
  conn_prepare_closed s w : gate_open w = false -> gate_open (fst (conn_Prepare s w)) = false;
  conn_configure_closed n w : gate_open w = false -> gate_open (fst (conn_Configure n w)) = false;
  conn_start_closed w : gate_open w = false -> gate_open (fst (conn_Start w)) = false;
  conn_revision_closed w : gate_open w = false -> gate_open (fst (conn_Revision w)) = false;
  gate_resume_closed w w' e : gate_open w = false -> gate_Resume w = (w', Err e) -> gate_open w' = false;
  gate_resume_ok w w' : gate_Resume w = (w', Ok tt) -> gate_open w' = true /\ forall v, running w v -> running w' v;
  conn_revision_ok w w' v : conn_Revision w = (w', Ok v) -> running w' v
}.

Section ResolverTheorems.
  Context {W : Type} `{AdapterLaws W}.
  Implicit Types (r : ResolverRuntime W) (w : W).

Definition open (r : ResolverRuntime W) : bool := gate_open (rr_world r).

(** The mapping and the configured revision are those of [s]. *)
Definition maps (r : ResolverRuntime W) (s : ClockSnapshot) : Prop :=
  configuredRevision r = Revision s /\ exists old, rr_resolver r = PointList.Update old (cl_entries s).

Definition serves (r : ResolverRuntime W) (s : ClockSnapshot) : Prop := maps r s /\ running (rr_world r) (Revision s).

Lemma on_world_open {A} (fn : op W A) r : (gate_open (rr_world r) = false -> gate_open (fst (fn (rr_world r))) = false) ->
  open r = false -> open (fst (on_world fn r)) = false.
Proof. unfold open, on_world. destruct (fn (rr_world r)) as [w x]. auto. Qed.

Lemma then_set_open x f : (forall r, open (f r) = open r) -> open (fst (then_set x f)) = open (fst x).
Proof. intros Hf. destruct x as [r [u|e]]; cbn; auto. Qed.

Lemma rr_Hold_closes r : open (fst (rr_Hold r)) = false.
Proof.
  unfold rr_Hold. rewrite then_set_open by done. unfold on_world, open. pose proof (gate_hold_closes (rr_world r)) as Hc.
  by destruct (gate_Hold (rr_world r)).
Qed.

Lemma rr_Stop_closed r : open r = false -> open (fst (rr_Stop r)) = false.
Proof. unfold rr_Stop. case_if; [done|]. rewrite then_set_open by done. apply on_world_open, conn_stop_closed. Qed.

Lemma rr_Drain_closed r : open r = false -> open (fst (rr_Drain r)) = false.
Proof. unfold rr_Drain. case_if; [done|]. rewrite then_set_open by done. apply on_world_open, gate_drain_closed. Qed.

Lemma rr_Configure_closed n es r : open r = false -> open (fst (rr_Configure n es r)) = false.
Proof. unfold rr_Configure. case_if; [done|]. rewrite then_set_open by done. apply on_world_open, conn_configure_closed. Qed.

Lemma rr_ConfigureSnapshot_closed s r : open r = false -> open (fst (rr_ConfigureSnapshot s r)) = false.
Proof.
  unfold rr_ConfigureSnapshot. intros Ho. pose proof (on_world_open (conn_Prepare s) r (conn_prepare_closed s _) Ho) as Hc.
  destruct (on_world _ r) as [r1 [u|e]]; [by apply rr_Configure_closed|done].
Qed.

Lemma rr_Start_closed r : open r = false -> open (fst (rr_Start r)) = false.
Proof. unfold rr_Start. case_if; [done|]. intros Ho. by apply on_world_open; [apply conn_start_closed|]. Qed.

Lemma rr_Verify_closed v r : open r = false -> open (fst (rr_Verify v r)) = false.
Proof.
  unfold rr_Verify. intros Ho. case_if; [done|].
  pose proof (on_world_open conn_Revision {| r with rr_verified := false |} (conn_revision_closed _) Ho) as Hc.
  destruct (on_world _ _) as [r1 [got|e]]; [|done]. by case_if.
Qed.

Lemma rr_Resume_closed r r' e : open r = false -> rr_Resume r = (r', Err e) -> open r' = false.
Proof.
  unfold rr_Resume, on_world, open. intros Ho. case_if; [by intros [= <- _]|].
  destruct (gate_Resume (rr_world r)) as [w [u|e1]] eqn:Ew; cbn; [done|]. intros [= <- _]. cbn. by eapply gate_resume_closed.
Qed.

#[export] Instance resolver_laws : RuntimeLaws (ResolverRuntime W).
Proof.
  refine {| admitted := open; configured := maps; checked := serves; serving := serves;
            hold_closes := rr_Hold_closes; stop_closed := rr_Stop_closed; drain_closed := rr_Drain_closed;
            configure_closed := rr_ConfigureSnapshot_closed; start_closed := rr_Start_closed;
            verify_closed := rr_Verify_closed; resume_closed := rr_Resume_closed |}.
  - intros s r r'. cbn. unfold rr_ConfigureSnapshot. destruct (on_world _ r) as [r1 [u|e]]; [|done].
    unfold rr_Configure. case_if; [done|]. unfold then_set. destruct (on_world _ r1) as [r2 [u2|e]]; [|done].
    intros [= <-]. split; [done|]. by exists (rr_resolver r2).
  - intros s r r' Hm. cbn. unfold rr_Start. case_if; [done|]. unfold on_world. destruct (conn_Start _) as [w x]. by intros [= <- ->].
  - intros s r r' Hm. cbn. unfold rr_Verify. case_if; [done|]. unfold on_world. cbn.
    destruct (conn_Revision (rr_world r)) as [w [got|e]] eqn:Ew; [|done]. cbn. case_if; [done|]. intros [= <-]. split; [done|].
    cbn. rewrite orb_false_iff, !negb_false_iff in *. destruct_and?. match goal with G : String.eqb got _ = true |- _ => apply String.eqb_eq in G as -> end.
    by eapply conn_revision_ok.
  - intros s r r' [Hm Hr]. cbn. unfold rr_Resume. case_if; [done|]. unfold on_world, then_set.
    destruct (gate_Resume (rr_world r)) as [w [[]|e]] eqn:Ew; [|done]. intros [= <-]. apply gate_resume_ok in Ew as [Ho Hk].
    split; [done|]. split; [done|]. by apply Hk.
Defined.

(** Calls of the runtime in any order. *)
Inductive rr_call := RHold | RStop | RDrain | RConfigure (s : ClockSnapshot) | RStart | RVerify (v : string) | RResume.

Definition rr_do (k : rr_call) (r : ResolverRuntime W) : ResolverRuntime W :=
  match k with
  | RHold => fst (rr_Hold r) | RStop => fst (rr_Stop r) | RDrain => fst (rr_Drain r)
  | RConfigure s => fst (rr_ConfigureSnapshot s r) | RStart => fst (rr_Start r) | RVerify v => fst (rr_Verify v r)
  | RResume => fst (rr_Resume r)
  end.

Lemma on_world_frame {A} (fn : op W A) r r' x : on_world fn r = (r', x) -> exists w, r' = {| r with rr_world := w |}.
Proof. unfold on_world. destruct (fn (rr_world r)) as [w y]. intros [= <- _]. by exists w. Qed.

(** Holding means closed. *)
Definition held_closed (r : ResolverRuntime W) : Prop := rr_held r = true -> open r = false.

Lemma held_step k r : held_closed r -> held_closed (rr_do k r).
Proof.
  intros Hi. destruct k; cbn.
  - intros _. apply rr_Hold_closes.
  - intros Hh. apply rr_Stop_closed, Hi. revert Hh. unfold rr_Stop. case_if; [done|].
    destruct (on_world _ r) as [r1 [u|e]] eqn:E1; apply on_world_frame in E1 as [w ->]; done.
  - intros Hh. apply rr_Drain_closed, Hi. revert Hh. unfold rr_Drain. case_if; [done|].
    destruct (on_world _ r) as [r1 [u|e]] eqn:E1; apply on_world_frame in E1 as [w ->]; done.
  - intros Hh. apply rr_ConfigureSnapshot_closed, Hi. revert Hh. unfold rr_ConfigureSnapshot, rr_Configure.
    destruct (on_world _ r) as [r1 [u|e]] eqn:E1; apply on_world_frame in E1 as [w ->]; [|done]. case_if; [done|].
    destruct (on_world _ _) as [r2 [u2|e]] eqn:E2; apply on_world_frame in E2 as [w2 ->]; done.
  - intros Hh. apply rr_Start_closed, Hi. revert Hh. unfold rr_Start. case_if; [done|].
    destruct (on_world _ _) as [r1 x] eqn:E1; apply on_world_frame in E1 as [w ->]; done.
  - intros Hh. apply rr_Verify_closed, Hi. revert Hh. unfold rr_Verify. case_if; [done|].
    destruct (on_world _ _) as [r1 [u|e]] eqn:E1; apply on_world_frame in E1 as [w ->]; [|done]. by case_if.
  - intros Hh. destruct (rr_Resume r) as [r' [u|e]] eqn:E1; cbn in *.
    + revert E1. unfold rr_Resume. case_if; [done|]. destruct (on_world _ _) as [r1 [u1|e]]; cbn; [|done].
      intros [= <- _]. done.
    + eapply rr_Resume_closed, E1. apply Hi. revert E1. unfold rr_Resume. case_if.
      * by intros [= <- _].
      * destruct (on_world _ r) as [r1 [u1|e1]] eqn:E2; cbn; [done|]. apply on_world_frame in E2 as [w ->]. by intros [= <- _].
Qed.

(** The runtime after some calls. *)
Definition after_calls (r0 : ResolverRuntime W) (ks : list rr_call) : ResolverRuntime W := fold_left (fun r k => rr_do k r) ks r0.

Lemma after_calls_snoc r0 ks k : after_calls r0 (ks ++ [k]) = rr_do k (after_calls r0 ks).
Proof. unfold after_calls. by rewrite fold_left_app. Qed.

(** A call that makes an earlier verification worthless: another verification,
    or a stop or a configuration that succeeds. *)
Definition disturbs (k : rr_call) (r : ResolverRuntime W) : Prop :=
  match k with
  | RVerify _ => True
  | RStop => is_ok (snd (rr_Stop r)) = true
  | RConfigure s => is_ok (snd (rr_ConfigureSnapshot s r)) = true
  | _ => False
  end.

(** Some call of [ks] asked the held, running connector for its revision, was
    told [v], and found it to be the configured one; nothing disturbed that
    since. *)
Inductive verified_since (r0 : ResolverRuntime W) : list rr_call -> string -> Prop :=
| VerifiedNow ks v w : conn_Revision (rr_world (after_calls r0 ks)) = (w, Ok v) -> configuredRevision (after_calls r0 ks) = v ->
    rr_held (after_calls r0 ks) = true -> rr_stopped (after_calls r0 ks) = false -> verified_since r0 (ks ++ [RVerify v]) v
| VerifiedStill ks k v : verified_since r0 ks v -> ~ disturbs k (after_calls r0 ks) -> verified_since r0 (ks ++ [k]) v.

(** The two flags only follow the calls that succeed. *)
Lemma undisturbed k r : ~ disturbs k r -> rr_verified (rr_do k r) = rr_verified r /\ configuredRevision (rr_do k r) = configuredRevision r.
Proof.
  destruct k; cbn; intros Hd; try done.
  1, 3, 5, 6: unfold rr_Hold, rr_Drain, rr_Start, rr_Resume; repeat case_if; try done;
    destruct (on_world _ _) as [r1 [u|e]] eqn:E1; apply on_world_frame in E1 as [w1 ->]; done.
  - revert Hd. unfold rr_Stop. case_if; [done|]. destruct (on_world _ _) as [r1 [u|e]] eqn:E1; apply on_world_frame in E1 as [w1 ->]; cbn; [|done].
    intros Hd. by destruct Hd.
  - revert Hd. unfold rr_ConfigureSnapshot, rr_Configure. destruct (on_world _ r) as [r1 [u|e]] eqn:E1; apply on_world_frame in E1 as [w1 ->]; [|done]. cbn.
    case_if; [done|]. destruct (on_world _ _) as [r2 [u2|e]] eqn:E2; apply on_world_frame in E2 as [w2 ->]; cbn; [|done]. intros Hd. by destruct Hd.
Qed.

Lemma disturbed_unverified k r : disturbs k r -> rr_verified (rr_do k r) = true ->
  exists v w, k = RVerify v /\ conn_Revision (rr_world r) = (w, Ok v) /\ configuredRevision r = v /\ configuredRevision (rr_do k r) = v /\
    rr_held r = true /\ rr_stopped r = false.
Proof.
  destruct k; cbn; try done.
  - unfold rr_Stop. case_if; [done|]. by destruct (on_world _ _) as [r1 [u|e]].
  - unfold rr_ConfigureSnapshot, rr_Configure. destruct (on_world _ r) as [r1 [u|e]]; [|done]. case_if; [done|].
    by destruct (on_world _ _) as [r2 [u2|e]].
  - intros _. unfold rr_Verify, on_world. cbn [rr_held rr_stopped rr_world]. destruct (negb (rr_held r) || rr_stopped r) eqn:Eb; [done|].
    destruct (conn_Revision (rr_world r)) as [w [got|e]]; [|done]. cbn [configuredRevision].
    destruct (negb (String.eqb got v) || negb (String.eqb v (configuredRevision r))) eqn:Ec; [done|]. intros _.
    rewrite orb_false_iff, !negb_false_iff, !String.eqb_eq in Ec. destruct Ec as [-> Ev].
    rewrite orb_false_iff, negb_false_iff in Eb. destruct Eb. exists v, w. by split_and!.
Qed.

Lemma disturbs_dec k r : disturbs k r \/ ~ disturbs k r.
Proof. destruct k; cbn; auto; [destruct (is_ok (snd (rr_Stop r)))|destruct (is_ok (snd (rr_ConfigureSnapshot s r)))]; auto. Qed.

Lemma verified_traced r0 ks : rr_verified r0 = false -> rr_verified (after_calls r0 ks) = true ->
  exists v, verified_since r0 ks v /\ configuredRevision (after_calls r0 ks) = v.
Proof.
  intros Hn. induction ks as [|k ks IH] using rev_ind; [cbn; congruence|]. rewrite after_calls_snoc. destruct (disturbs_dec k (after_calls r0 ks)) as [Hd|Hd].
  - intros (v & w & -> & Hr & Hc & Hc' & Hh & Hs)%disturbed_unverified; [|done]. exists v. split; [by eapply VerifiedNow|done].
  - destruct (undisturbed _ _ Hd) as [-> ->]. intros (v & Hv & Hc)%IH. exists v. split; [by apply VerifiedStill|done].
Qed.

(** C36: However the runtime's operations are called and fail, the point mapping
    is replaced only by a configuration made while admission is held, closed
    before and after, and the connector stopped and drained; and admission opens
    only by a resume.  Before that resume, and after the last successful stop and
    configuration, a verification asked the held and running connector for its
    revision and was told the very revision that is configured. *)
Theorem runtime_barrier (w : W) (res : SyncedResolver) (ks : list rr_call) (k : rr_call) :
  let r := after_calls (NewResolverRuntime w res) ks in
  (rr_resolver (rr_do k r) <> rr_resolver r ->
     (exists s, k = RConfigure s) /\ open r = false /\ open (rr_do k r) = false /\ rr_stopped r = true /\ rr_drained r = true) /\
  (open r = false -> open (rr_do k r) = true -> k = RResume /\ rr_held r = true /\ rr_verified r = true /\ rr_stopped r = false /\
     verified_since (NewResolverRuntime w res) ks (configuredRevision r)).
Proof.
  intros r. assert (held_closed r) as Hi.
  { subst r. unfold after_calls. assert (held_closed (NewResolverRuntime w res)) as Hn by done. revert Hn. generalize (NewResolverRuntime w res).
    induction ks as [|k' ks IH]; [done|]. cbn. intros r0 Hr. apply IH. by apply held_step. }
  split.
  - destruct k; cbn; unfold rr_Hold, rr_Stop, rr_Drain, rr_Start, rr_Verify, rr_Resume; repeat case_if;
      try (destruct (on_world _ _) as [r1 [u|e]] eqn:E1; apply on_world_frame in E1 as [w1 ->]; cbn; repeat case_if; done); try done.
    intros Hne. enough (rr_held r = true /\ rr_stopped r = true /\ rr_drained r = true) as (Hh & Hs & Hd).
    { split_and!; [by exists s|auto|apply rr_ConfigureSnapshot_closed; auto|done..]. }
    revert Hne. unfold rr_ConfigureSnapshot, rr_Configure.
    destruct (on_world _ r) as [r1 [u|e]] eqn:E1; apply on_world_frame in E1 as [w1 ->]; [|done]. cbn.
    case_if; [done|]. intros _. rewrite negb_false_iff, !andb_true_iff in *. tauto.
  - intros Ho Hop. assert (k = RResume) as ->.
    { destruct k; cbn [rr_do] in Hop; [rewrite (rr_Hold_closes r) in Hop|rewrite rr_Stop_closed in Hop|rewrite rr_Drain_closed in Hop
        |rewrite rr_ConfigureSnapshot_closed in Hop|rewrite rr_Start_closed in Hop|rewrite rr_Verify_closed in Hop|]; done. }
    split; [done|]. assert (rr_held r = true /\ rr_verified r = true /\ rr_stopped r = false) as (H1 & H2 & H3).
    { revert Hop. cbn [rr_do]. unfold rr_Resume. case_if; [cbn [fst]; congruence|]. intros _. rewrite !orb_false_iff, !negb_false_iff in *. tauto. }
    destruct (verified_traced (NewResolverRuntime w res) ks eq_refl H2) as (v & Hv & Hc). split_and!; try done. fold r in Hc. by rewrite Hc.
Qed.
End ResolverTheorems.
