(* ===== verification/Lifecycle.v ===== *)
(** * Connector lifecycle

    [src/internal/lifecycle]: the registry, the manager's operations on
    connector containers (start, stop, restart, upgrade, install, update with
    health soak and rollback, watching), and the exclusive handle clock
    provisioning claims.  Docker is an interface whose calls may fail with or
    without their effect.  Operations on one connector are serialised by its
    lock, so each is one step.  The theorems show what an update leaves behind
    on every path, that connectors do not disturb each other, that claimed
    connectors are out of the public operations' reach, and where the fixed
    container name defeats a restart. *)

From Stdlib Require Import ZArith Lia Bool Ascii String List.
From stdpp Require Import base list strings gmap.
From S2P Require Import Prelude Json GoText Catalog.
#[local] Open Scope string_scope.
#[local] Open Scope list_scope.
#[local] Open Scope Z_scope.

(** ** The registry *)

Record ConnectorSpec := {
  sp_ID : string; sp_Image : string; sp_PrevImage : string; sp_Env : list string; sp_Permissions : Permissions
}.

Record ConnectorStatus := { st_Spec : ConnectorSpec; st_ContainerID : string; st_Running : bool }.

Definition Registry : Type := gmap string ConnectorStatus.

Definition Register (r : Registry) (spec : ConnectorSpec) : Registry :=
  <[sp_ID spec := match r !! sp_ID spec with
                  | Some e => {| e with st_Spec := spec |}
                  | None => {| st_Spec := spec; st_ContainerID := ""; st_Running := false |}
                  end]> r.

Definition SetRunning (r : Registry) (id containerID : string) (running : bool) : Registry :=
  match r !! id with
  | Some e => <[id := {| e with st_ContainerID := containerID; st_Running := running |}]> r
  | None => r
  end.

Definition Remove (r : Registry) (id : string) : Registry := delete id r.

(** ** Docker *)

Record container := {
  ct_name : string; ct_image : string; ct_env : list string; ct_binds : list string; ct_network : option string;
  ct_owner : string; ct_running : bool
}.

(** What an inspection tells: the identity, the state and the owner label when
    the answer has them. *)
Record info := { i_ID : string; i_Running : option bool; i_Label : option string }.
Inductive inspected := Missing | Unreachable | Found (i : option info).

Class Docker (D : Type) := {
  ContainerCreate : D -> container -> D * option string;
  ContainerStart : D -> string -> D * bool;
  ContainerStop : D -> string -> D * bool;
  ContainerRemove : D -> string -> D * bool;
  ContainerInspect : D -> string -> inspected;
  ImagePull : D -> string -> D * bool;
  ImageInspect : D -> string -> bool
}.

Definition with_running (b : bool) (c : container) : container := {| c with ct_running := b |}.

(** The documented behaviour: identities are never used twice and names are
    unique; a call that fails may still have had its effect; starting, stopping
    and removing concern one container; a running one is not removed. *)
Class DockerLaws (D : Type) `{Docker D} := {
  containers : D -> gmap string container;
  used : D -> gset string;
  used_dom : forall d, dom (containers d) ⊆ used d;
  used_nonempty : forall d, "" ∉ used d;
  create_law : forall d c d' o, ContainerCreate d c = (d', o) ->
    (o = None /\ containers d' = containers d /\ used d' = used d) \/
    (exists id, (o = Some id \/ o = None) /\ (id ∉ used d) /\ used d' = {[id]} ∪ used d /\
       (forall k x, containers d !! k = Some x -> ct_name x <> ct_name c) /\
       containers d' = <[id := with_running false c]> (containers d));
  start_law : forall d id d' ok, ContainerStart d id = (d', ok) -> used d' = used d /\
    ((ok = false /\ containers d' = containers d) \/
     (exists c, containers d !! id = Some c /\ containers d' = <[id := with_running true c]> (containers d)));
  stop_law : forall d id d' ok, ContainerStop d id = (d', ok) -> used d' = used d /\
    ((ok = false /\ containers d' = containers d) \/
     (exists c, containers d !! id = Some c /\ containers d' = <[id := with_running false c]> (containers d)));
  remove_law : forall d id d' ok, ContainerRemove d id = (d', ok) -> used d' = used d /\
    ((ok = false /\ containers d' = containers d) \/
     (exists c, containers d !! id = Some c /\ ct_running c = false /\ containers d' = delete id (containers d)));
  inspect_law : forall d key, match ContainerInspect d key with
    | Found (Some i) => exists c, containers d !! i_ID i = Some c /\ (key = i_ID i \/ (containers d !! key = None /\ key = ct_name c)) /\
        (forall b, i_Running i = Some b -> b = ct_running c) /\ (forall l, i_Label i = Some l -> l = ct_owner c)
    | Missing => containers d !! key = None /\ forall k c, containers d !! k = Some c -> ct_name c <> key
    | _ => True
    end;
  pull_law : forall d ref d' ok, ImagePull d ref = (d', ok) -> containers d' = containers d /\ used d' = used d
}.

(** ** The manager *)

Record ManagerConfig := { NATSURL : string; ConnectorNetwork : string }.

Inductive lc_error :=
| ErrManaged | ErrConnectorNotFound | CreateFailed | StartFailed | StopFailed | RemoveFailed | PullFailed
| InvalidManifest (e : manifest_error) | SignatureFailed | NoPreviousImage
| SoakInspectFailed | SoakExited | SoakCancelled
| RollbackNoImage (cause : lc_error) | RollbackFailed (start cause : lc_error) | RolledBack (cause : lc_error).

Section Manager.
Context {D : Type} `{Docker D} (cfg : ManagerConfig).

Record Manager := { m_docker : D; m_registry : Registry; m_reserved : gset string }.

Definition container_name (id : string) : string := "nexus-" +:+ id.

(** The environment a container gets. *)
Definition container_env (spec : ConnectorSpec) : list string :=
  let env := sp_Env spec in
  let hasNATS := existsb (fun e => has_prefix e "NATS_URL") env in
  let hasID := existsb (fun e => has_prefix e "CONNECTOR_ID") env in
  env ++ (if negb hasNATS && negb (String.eqb (NATSURL cfg) "") then ["NATS_URL=" +:+ NATSURL cfg] else [])
      ++ (if negb hasID then ["CONNECTOR_ID=" +:+ sp_ID spec] else []).

(** The container [createWithLabels] asks for; [owner] is the value of the
    owner label, empty for none. *)
Definition container_of (spec : ConnectorSpec) (owner : string) : container :=
  {| ct_name := container_name (sp_ID spec); ct_image := sp_Image spec; ct_env := container_env spec;
     ct_binds := map (fun mnt => mnt +:+ ":" +:+ mnt +:+ ":ro") (Mounts (sp_Permissions spec));
     ct_network := if String.eqb (ConnectorNetwork cfg) "" then None else Some (ConnectorNetwork cfg);
     ct_owner := owner; ct_running := false |}.

Definition createWithLabels (d : D) (spec : ConnectorSpec) (owner : string) : D * option string :=
  ContainerCreate d (container_of spec owner).

Definition with_docker (m : Manager) (d : D) : Manager := {| m with m_docker := d |}.
Definition with_registry (m : Manager) (r : Registry) : Manager := {| m with m_registry := r |}.

Definition checkReserved (m : Manager) (id : string) : bool := bool_decide (id ∈ m_reserved m).

Definition doStart (m : Manager) (id : string) : Manager * result lc_error unit :=
  match m_registry m !! id with
  | None => (m, Err ErrConnectorNotFound)
  | Some status =>
    match createWithLabels (m_docker m) (st_Spec status) "" with
    | (d, None) => (with_docker m d, Err CreateFailed)
    | (d, Some cid) =>
      match ContainerStart d cid with
      | (d, false) => (with_docker m d, Err StartFailed)
      | (d, true) => (with_registry (with_docker m d) (SetRunning (m_registry m) id cid true), Ok tt)
      end
    end
  end.

Definition doStop (m : Manager) (id : string) : Manager * result lc_error unit :=
  match m_registry m !! id with
  | None => (m, Err ErrConnectorNotFound)
  | Some status =>
    if String.eqb (st_ContainerID status) "" then (m, Ok tt)
    else
      match ContainerStop (m_docker m) (st_ContainerID status) with
      | (d, false) => (with_docker m d, Err StopFailed)
      | (d, true) => (with_registry (with_docker m d) (SetRunning (m_registry m) id "" false), Ok tt)
      end
  end.

Definition Start (m : Manager) (id : string) : Manager * result lc_error unit :=
  if checkReserved m id then (m, Err ErrManaged) else doStart m id.

Definition Stop (m : Manager) (id : string) : Manager * result lc_error unit :=
  if checkReserved m id then (m, Err ErrManaged) else doStop m id.

Definition Restart (m : Manager) (id : string) : Manager * result lc_error unit :=
  if checkReserved m id then (m, Err ErrManaged)
  else
    match m_registry m !! id with
    | None => (m, Err ErrConnectorNotFound)
    | Some status =>
      if String.eqb (st_ContainerID status) "" then doStart m id
      else
        match ContainerStop (m_docker m) (st_ContainerID status) with
        | (d, false) => (with_docker m d, Err StopFailed)
        | (d, true) =>
          match ContainerRemove d (st_ContainerID status) with
          | (d, false) => (with_docker m d, Err RemoveFailed)
          | (d, true) => doStart (with_registry (with_docker m d) (SetRunning (m_registry m) id "" false)) id
          end
        end
    end.

(** Removing a container whose failure is only logged. *)
Definition remove_old (m : Manager) (cid : string) : Manager :=
  if String.eqb cid "" then m else with_docker m (fst (ContainerRemove (m_docker m) cid)).

Definition Upgrade (m : Manager) (id newImage : string) : Manager * result lc_error unit :=
  if checkReserved m id then (m, Err ErrManaged)
  else
    match m_registry m !! id with
    | None => (m, Err ErrConnectorNotFound)
    | Some status =>
      match ImagePull (m_docker m) newImage with
      | (d, false) => (with_docker m d, Err PullFailed)
      | (d, true) =>
        match doStop (with_docker m d) id with
        | (m, Err e) => (m, Err e)
        | (m, Ok _) =>
          let m := remove_old m (st_ContainerID status) in
          doStart (with_registry m (Register (m_registry m)
            {| sp_ID := id; sp_Image := newImage; sp_PrevImage := sp_Image (st_Spec status);
               sp_Env := sp_Env (st_Spec status); sp_Permissions := {| Network := []; Mounts := [] |} |})) id
        end
      end
    end.

(** One connector of a [Watch] tick: [status] is its snapshot, [locked] that an
    operation holds its lock. *)
Definition watch_one (m : Manager) (status : ConnectorStatus) (locked : bool) : Manager :=
  let id := sp_ID (st_Spec status) in
  if negb (st_Running status) || String.eqb (st_ContainerID status) "" then m
  else
    match ContainerInspect (m_docker m) (st_ContainerID status) with
    | Found (Some i) =>
      match i_Running i with
      | Some false =>
        if locked || checkReserved m id then m
        else fst (doStart (with_registry m (SetRunning (m_registry m) id "" false)) id)
      | _ => m
      end
    | _ => m
    end.

(** ** Installing and updating *)

Context (verify : string -> bool) (allowed : list string) (gatewayVersion : string).

Definition manifest_spec (m : Manifest) (image prev : string) (env : list string) : ConnectorSpec :=
  {| sp_ID := mf_Name m; sp_Image := image; sp_PrevImage := prev; sp_Env := env; sp_Permissions := mf_Permissions m |}.

Definition Install (m : Manager) (manifest : Manifest) : Manager * result lc_error unit :=
  match Validate manifest allowed gatewayVersion with
  | Err e => (m, Err (InvalidManifest e))
  | Ok _ =>
    let id := mf_Name manifest in
    if checkReserved m id then (m, Err ErrManaged)
    else
      let '(m, imageRef, pulled) :=
        if ImageInspect (m_docker m) (mf_Image manifest) then (m, mf_Image manifest, true)
        else let '(d, ok) := ImagePull (m_docker m) (ImageRef manifest) in (with_docker m d, ImageRef manifest, ok) in
      if negb pulled then (m, Err PullFailed)
      else if SignatureRequired manifest && negb (verify imageRef) then (m, Err SignatureFailed)
      else
        match doStart (with_registry m (Register (m_registry m) (manifest_spec manifest imageRef "" []))) id with
        | (m, Err e) => (with_registry m (Remove (m_registry m) id), Err e)
        | (m, Ok _) => (m, Ok tt)
        end
  end.

Definition digestFromRef (ref : string) : string :=
  match cut_byte "@" ref with Some (_, digest) => digest | None => "" end.

(** One poll of the soak: what containers did by themselves until then, whether
    the deadline has passed, and whether the context is done instead of the next
    tick. *)
Record poll := { po_env : D -> D; po_past : bool; po_done : bool }.

(** [soakCheck]: Docker when it returns, and its result; [None] while it is
    still polling. *)
Fixpoint soak_loop (d : D) (cid : string) (polls : list poll) : option (D * result lc_error unit) :=
  match polls with
  | [] => None
  | p :: polls =>
    let d := po_env p d in
    match ContainerInspect d cid with
    | Found (Some {| i_Running := Some true |}) =>
      if po_past p then Some (d, Ok tt)
      else if po_done p then Some (d, Err SoakCancelled)
      else soak_loop d cid polls
    | Found _ => Some (d, Err SoakExited)
    | _ => Some (d, Err SoakInspectFailed)
    end
  end.

Definition soakCheck (d : D) (cid : string) (soakWindow : Z) (polls : list poll) : option (D * result lc_error unit) :=
  if String.eqb cid "" || (soakWindow <=? 0) then Some (d, Ok tt) else soak_loop d cid polls.

Definition rollback (m : Manager) (id prevImage : string) (cause : lc_error) : Manager * result lc_error unit :=
  match m_registry m !! id with
  | None => (m, Err (RollbackNoImage cause))
  | Some prev =>
    if String.eqb prevImage "" then (m, Err (RollbackNoImage cause))
    else
      let m := fst (doStop m id) in
      let m := remove_old m (st_ContainerID prev) in
      let spec := st_Spec prev in
      match doStart (with_registry m (Register (m_registry m)
              {| sp_ID := id; sp_Image := prevImage; sp_PrevImage := sp_PrevImage spec; sp_Env := sp_Env spec;
                 sp_Permissions := sp_Permissions spec |})) id with
      | (m, Err e) => (m, Err (RollbackFailed e cause))
      | (m, Ok _) => (m, Err (RolledBack cause))
      end
  end.

(** The stop phase of an update. *)
Definition stop_phase (m : Manager) (id cid : string) : Manager * result lc_error unit :=
  if String.eqb cid "" then (m, Ok tt)
  else match doStop m id with
       | (m, Err e) => (m, Err e)
       | (m, Ok _) => (remove_old m cid, Ok tt)
       end.

Definition Update (m : Manager) (id : string) (manifest : Manifest) (soakWindow : Z) (polls : list poll)
  : option (Manager * result lc_error unit) :=
  match Validate manifest allowed gatewayVersion with
  | Err e => Some (m, Err (InvalidManifest e))
  | Ok _ =>
    if checkReserved m id then Some (m, Err ErrManaged)
    else
      match m_registry m !! id with
      | None => Some (m, Err ErrConnectorNotFound)
      | Some current =>
        if String.eqb (digestFromRef (sp_Image (st_Spec current))) (mf_Digest manifest) then Some (m, Ok tt)
        else
          match ImagePull (m_docker m) (ImageRef manifest) with
          | (d, false) => Some (with_docker m d, Err PullFailed)
          | (d, true) =>
            let m := with_docker m d in
            if SignatureRequired manifest && negb (verify (ImageRef manifest)) then Some (m, Err SignatureFailed)
            else
              let oldImage := sp_Image (st_Spec current) in
              match stop_phase m id (st_ContainerID current) with
              | (m, Err e) => Some (m, Err e)
              | (m, Ok _) =>
                let m := with_registry m (Register (m_registry m)
                  {| sp_ID := id; sp_Image := ImageRef manifest; sp_PrevImage := oldImage;
                     sp_Env := sp_Env (st_Spec current); sp_Permissions := mf_Permissions manifest |}) in
                match doStart m id with
                | (m, Err e) => Some (rollback m id oldImage e)
                | (m, Ok _) =>
                  let cid := match m_registry m !! id with Some s => st_ContainerID s | None => "" end in
                  match soakCheck (m_docker m) cid soakWindow polls with
                  | None => None
                  | Some (d, Err e) => Some (rollback (with_docker m d) id oldImage e)
                  | Some (d, Ok _) => Some (with_docker m d, Ok tt)
                  end
                end
              end
          end
      end
  end.

Definition Rollback (m : Manager) (id : string) : Manager * result lc_error unit :=
  if checkReserved m id then (m, Err ErrManaged)
  else
    match m_registry m !! id with
    | None => (m, Err ErrConnectorNotFound)
    | Some current =>
      let spec := st_Spec current in
      if String.eqb (sp_PrevImage spec) "" then (m, Err NoPreviousImage)
      else
        match doStop m id with
        | (m, Err e) => (m, Err e)
        | (m, Ok _) =>
          let m := remove_old m (st_ContainerID current) in
          doStart (with_registry m (Register (m_registry m)
            {| sp_ID := id; sp_Image := sp_PrevImage spec; sp_PrevImage := sp_Image spec; sp_Env := sp_Env spec;
               sp_Permissions := sp_Permissions spec |})) id
        end
    end.

(** One connector of an updater's poll: [status] is its snapshot and [fetched]
    the catalog's answer. *)
Definition poll_one (m : Manager) (status : ConnectorStatus) (fetched : result catalog_error Manifest)
    (soakWindow : Z) (polls : list poll) : option Manager :=
  let id := sp_ID (st_Spec status) in
  if negb (st_Running status) then Some m
  else
    match fetched with
    | Err _ => Some m
    | Ok manifest =>
      if negb (String.eqb (mf_Name manifest) id) then Some m
      else option_map fst (Update m id manifest soakWindow polls)
    end.
End Manager.

Arguments Manager : clear implicits.
Arguments poll : clear implicits.

(** ** The exclusive handle *)

Section Exclusive.
Context {D : Type} `{Docker D} (cfg : ManagerConfig).

Record Exclusive := { ex_id : string; ex_containerID : string }.

Inductive ex_error := ExManaged | ExNoID | ExUnreachable | ExUnowned | ExNoIdentity | ExStop | ExUnconfirmed | ExRemove
| ExConfigure | ExPrior | ExNotFound | ExCreate | ExStart.

(** [Claim], with a daemon client. *)
Definition Claim (m : Manager D) (spec : ConnectorSpec) : Manager D * result ex_error Exclusive :=
  if String.eqb (sp_ID spec) "" then (m, Err ExNoID)
  else if checkReserved m (sp_ID spec) then (m, Err ExManaged)
  else ({| m_docker := m_docker m; m_registry := Register (m_registry m) spec;
           m_reserved := {[sp_ID spec]} ∪ m_reserved m |},
        Ok {| ex_id := sp_ID spec; ex_containerID := "" |}).

(** Stopped for good: the handle and the registry forget the container. *)
Definition forget (m : Manager D) (e : Exclusive) : Manager D * Exclusive :=
  (with_registry m (SetRunning (m_registry m) (ex_id e) "" false), {| ex_id := ex_id e; ex_containerID := "" |}).

Definition ex_Stop (m : Manager D) (e : Exclusive) : Manager D * Exclusive * result ex_error unit :=
  let key := if String.eqb (ex_containerID e) "" then container_name (ex_id e) else ex_containerID e in
  match ContainerInspect (m_docker m) key with
  | Missing => (forget m e, Ok tt)
  | Unreachable => (m, e, Err ExUnreachable)
  | Found None => (m, e, Err ExUnowned)
  | Found (Some i) =>
    if match i_Label i with Some l => negb (String.eqb l (ex_id e)) | None => true end then (m, e, Err ExUnowned)
    else if String.eqb (i_ID i) "" then (m, e, Err ExNoIdentity)
    else
      let cid := i_ID i in
      let e := {| ex_id := ex_id e; ex_containerID := cid |} in
      let '(d, stopped) := match i_Running i with
                           | Some true => ContainerStop (m_docker m) cid
                           | _ => (m_docker m, true)
                           end in
      let m := with_docker m d in
      if negb stopped then (m, e, Err ExStop)
      else
        match ContainerInspect (m_docker m) cid with
        | Found (Some i) =>
          match i_Running i with
          | Some false =>
            match ContainerRemove (m_docker m) cid with
            | (d, false) => (with_docker m d, e, Err ExRemove)
            | (d, true) => (forget (with_docker m d) e, Ok tt)
            end
          | _ => (m, e, Err ExUnconfirmed)
          end
        | Found None => (m, e, Err ExUnconfirmed)
        | _ => (m, e, Err ExUnreachable)
        end
  end.

Definition ex_Configure (m : Manager D) (e : Exclusive) (spec : ConnectorSpec) : Manager D * result ex_error unit :=
  if negb (String.eqb (ex_containerID e) "") || negb (String.eqb (sp_ID spec) (ex_id e)) then (m, Err ExConfigure)
  else (with_registry m (Register (m_registry m) spec), Ok tt).

Definition ex_Start (m : Manager D) (e : Exclusive) : Manager D * Exclusive * result ex_error unit :=
  if negb (String.eqb (ex_containerID e) "") then (m, e, Err ExPrior)
  else
    match m_registry m !! ex_id e with
    | None => (m, e, Err ExNotFound)
    | Some s =>
      match createWithLabels cfg (m_docker m) (st_Spec s) (ex_id e) with
      | (d, None) => (with_docker m d, e, Err ExCreate)
      | (d, Some cid) =>
        let e := {| ex_id := ex_id e; ex_containerID := cid |} in
        let m := with_registry (with_docker m d) (SetRunning (m_registry m) (ex_id e) cid false) in
        match ContainerStart (m_docker m) cid with
        | (d, false) => (with_docker m d, e, Err ExStart)
        | (d, true) => (with_registry (with_docker m d) (SetRunning (m_registry m) (ex_id e) cid true), e, Ok tt)
        end
      end
    end.
End Exclusive.

(** ** Connectors do not disturb each other *)

Section Facts.
Context {D : Type} `{DockerLaws D} (cfg : ManagerConfig).

(** Between two states of Docker only containers of connector [id] were made,
    changed or removed. *)
Record touches (id : string) (d d' : D) : Prop := {
  to_used : used d ⊆ used d';
  to_kept : forall k c, containers d !! k = Some c -> ct_name c <> container_name id -> containers d' !! k = Some c;
  to_back : forall k c, containers d' !! k = Some c -> ct_name c <> container_name id -> containers d !! k = Some c;
  to_names : forall k c', containers d' !! k = Some c' ->
    (exists c, containers d !! k = Some c /\ ct_name c = ct_name c') \/ ((k ∉ used d) /\ ct_name c' = container_name id)
}.

(** The registry's view: every entry under its own ID, and its container, when
    it still exists, carries its name. *)
Definition entry_ok (d : D) (id : string) (s : ConnectorStatus) : Prop :=
  sp_ID (st_Spec s) = id /\ (st_ContainerID s = "" \/ st_ContainerID s ∈ used d) /\
  forall c, containers d !! st_ContainerID s = Some c -> ct_name c = container_name id.
Definition wf (m : Manager D) : Prop := forall id s, m_registry m !! id = Some s -> entry_ok (m_docker m) id s.

(** What an operation on [id] may change. *)
Definition local_to (id : string) (m m' : Manager D) : Prop :=
  touches id (m_docker m) (m_docker m') /\ m_reserved m' = m_reserved m /\
  forall j, j <> id -> m_registry m' !! j = m_registry m !! j.
Definition good (id : string) (m m' : Manager D) : Prop := local_to id m m' /\ wf m'.

Lemma container_name_inj i j : container_name i = container_name j -> i = j.
Proof. unfold container_name. cbn. intros [= E]. exact E. Qed.

Lemma touches_refl id d : touches id d d.
Proof. split; eauto. Qed.

Lemma touches_trans id d1 d2 d3 : touches id d1 d2 -> touches id d2 d3 -> touches id d1 d3.
Proof.
  intros [A1 A2 A3 A4] [B1 B2 B3 B4]. split; [set_solver|eauto..].
  intros k c3 E3. destruct (B4 k c3 E3) as [(c2 & E2 & N2)|[Hk N2]].
  - destruct (A4 k c2 E2) as [(c1 & E1 & N1)|[Hk N1]]; [left; exists c1; split; congruence|right; split; congruence].
  - right. split; [set_solver|exact N2].
Qed.

Lemma local_refl id m : local_to id m m.
Proof. split; [apply touches_refl|auto]. Qed.

Lemma local_trans id m1 m2 m3 : local_to id m1 m2 -> local_to id m2 m3 -> local_to id m1 m3.
Proof.
  intros (A & B & C) (A' & B' & C'). split; [eauto using touches_trans|]. split; [congruence|].
  intros j Hj. rewrite C', C; auto.
Qed.

Lemma good_trans id m1 m2 m3 : good id m1 m2 -> good id m2 m3 -> good id m1 m3.
Proof. intros [A _] [B C]. split; [eauto using local_trans|exact C]. Qed.

Lemma entry_touches id d d' j s : touches id d d' -> entry_ok d j s -> entry_ok d' j s.
Proof.
  intros [A1 A2 A3 A4] (H1 & H2 & H3). split; [exact H1|]. split; [set_solver|].
  intros c Ec. destruct (A4 _ _ Ec) as [(c0 & E0 & <-)|[Hn _]]; [auto|].
  destruct H2 as [E|Hu]; [|contradiction]. rewrite E in Ec. exfalso.
  apply (used_nonempty d'), used_dom, elem_of_dom. eauto.
Qed.

(** Only Docker changed. *)
Lemma good_docker id m d' : wf m -> touches id (m_docker m) d' -> good id m (with_docker m d').
Proof. intros Hw Ht. split; [split; [exact Ht|auto]|]. intros j s E. apply (entry_touches id (m_docker m)); auto. Qed.

(** Only the entry of [id] changed. *)
Lemma good_entry id m r s : wf m -> (forall j, j <> id -> r !! j = m_registry m !! j) -> r !! id = Some s ->
  entry_ok (m_docker m) id s -> good id m (with_registry m r).
Proof.
  intros Hw Hne Hid Hok. split; [split; [apply touches_refl|auto]|]. intros j t E. cbn in *.
  destruct (decide (j = id)) as [->|Hj]; [congruence|]. rewrite Hne in E by exact Hj. apply Hw. exact E.
Qed.

Lemma touches_update id d d' k c : used d' = used d -> containers d !! k = Some c -> ct_name c = container_name id ->
  (containers d' = delete k (containers d) \/ exists b, containers d' = <[k := with_running b c]> (containers d)) ->
  touches id d d'.
Proof.
  intros Hu Hk Hn Hd.
  assert (forall j x, j <> k -> containers d' !! j = Some x <-> containers d !! j = Some x) as Hj.
  { intros j x Hj. destruct Hd as [->|[b ->]]; [rewrite lookup_delete_ne|rewrite lookup_insert_ne]; auto. }
  assert (forall x, containers d' !! k = Some x -> ct_name x = container_name id) as Hx.
  { intros x Ex. destruct Hd as [Hd|[b Hd]]; rewrite Hd in Ex.
    - rewrite lookup_delete_eq in Ex. discriminate.
    - rewrite lookup_insert_eq in Ex. injection Ex as <-. exact Hn. }
  split; [rewrite Hu; reflexivity| | |].
  - intros j x Ex Nx. apply Hj; [|exact Ex]. intros ->. congruence.
  - intros j x Ex Nx. apply Hj; [|exact Ex]. intros ->. apply Nx. auto.
  - intros j x Ex. left. destruct (decide (j = k)) as [->|Hne]; [exists c; split; [exact Hk|rewrite (Hx x Ex); exact Hn]|].
    exists x. split; [apply Hj; auto|reflexivity].
Qed.

Lemma touches_create spec owner d d' o : createWithLabels cfg d spec owner = (d', o) -> touches (sp_ID spec) d d'.
Proof.
  intros E. apply create_law in E as [(_ & E1 & E2)|(id & _ & Hid & E2 & Hn & E1)].
  - split; rewrite ?E1, ?E2; eauto.
  - assert (containers d !! id = None) as Hnone by (apply not_elem_of_dom; intros Hin; apply Hid, used_dom, Hin).
    split; rewrite ?E1, ?E2.
    + apply union_subseteq_r.
    + intros k c Ek _. rewrite lookup_insert_ne; [exact Ek|congruence].
    + intros k c Ek Nc. apply lookup_insert_Some in Ek as [[<- <-]|[_ Ek]]; [destruct Nc; reflexivity|exact Ek].
    + intros k c Ek. apply lookup_insert_Some in Ek as [[<- <-]|[_ Ek]]; [right; auto|left; eauto].
Qed.

(** Starting, stopping and removing, as one kind of call. *)
Lemma touches_call id d k d' : used d' = used d ->
  containers d' = containers d \/
    (exists c, containers d !! k = Some c /\
       (containers d' = delete k (containers d) \/ exists b, containers d' = <[k := with_running b c]> (containers d))) ->
  (forall c, containers d !! k = Some c -> ct_name c = container_name id) -> touches id d d'.
Proof.
  intros Hu [E|(c & Ec & E)] Hn; [split; rewrite ?E, ?Hu; eauto|eauto using touches_update].
Qed.

Lemma touches_start id d k d' ok : ContainerStart d k = (d', ok) ->
  (forall c, containers d !! k = Some c -> ct_name c = container_name id) -> touches id d d'.
Proof. intros [Hu [[_ E]|(c & Ec & E)]]%start_law; apply touches_call; eauto 6. Qed.

Lemma touches_stop id d k d' ok : ContainerStop d k = (d', ok) ->
  (forall c, containers d !! k = Some c -> ct_name c = container_name id) -> touches id d d'.
Proof. intros [Hu [[_ E]|(c & Ec & E)]]%stop_law; apply touches_call; eauto 6. Qed.

Lemma touches_remove id d k d' ok : ContainerRemove d k = (d', ok) ->
  (forall c, containers d !! k = Some c -> ct_name c = container_name id) -> touches id d d'.
Proof. intros [Hu [[_ E]|(c & Ec & _ & E)]]%remove_law; apply touches_call; eauto 6. Qed.

Lemma SetRunning_lookup r id cid b j :
  SetRunning r id cid b !! j = if decide (j = id) then (fun e => {| e with st_ContainerID := cid; st_Running := b |}) <$> (r !! id) else r !! j.
Proof.
  unfold SetRunning. destruct (r !! id) as [e|] eqn:E; destruct (decide (j = id)) as [->|Hj]; cbn.
  - apply lookup_insert_eq.
  - apply lookup_insert_ne. auto.
  - exact E.
  - reflexivity.
Qed.

Lemma Register_lookup r spec j :
  Register r spec !! j = if decide (j = sp_ID spec)
    then Some match r !! sp_ID spec with
              | Some e => {| e with st_Spec := spec |}
              | None => {| st_Spec := spec; st_ContainerID := ""; st_Running := false |}
              end
    else r !! j.
Proof. unfold Register. case_decide as Hj; [subst; apply lookup_insert_eq|apply lookup_insert_ne; auto]. Qed.

Lemma good_register id m spec : wf m -> sp_ID spec = id -> good id m (with_registry m (Register (m_registry m) spec)).
Proof.
  intros Hw <-. eapply good_entry; [exact Hw| | |].
  - intros j Hj. rewrite Register_lookup, decide_False by exact Hj. reflexivity.
  - rewrite Register_lookup, decide_True by reflexivity. reflexivity.
  - destruct (m_registry m !! sp_ID spec) as [e|] eqn:E.
    + destruct (Hw _ _ E) as (_ & H2 & H3). split; [reflexivity|]. split; [exact H2|exact H3].
    + split; [reflexivity|]. split; [left; reflexivity|]. intros c Ec. cbn in Ec. exfalso.
      apply (used_nonempty (m_docker m)), used_dom, elem_of_dom. eauto.
Qed.

Lemma good_running id m cid b : wf m -> (cid = "" \/ cid ∈ used (m_docker m)) ->
  (forall c, containers (m_docker m) !! cid = Some c -> ct_name c = container_name id) ->
  good id m (with_registry m (SetRunning (m_registry m) id cid b)).
Proof.
  intros Hw Hc Hn. destruct (m_registry m !! id) as [e|] eqn:E.
  - eapply good_entry; [exact Hw| | |].
    + intros j Hj. rewrite SetRunning_lookup, decide_False by exact Hj. reflexivity.
    + rewrite SetRunning_lookup, decide_True, E by reflexivity. reflexivity.
    + destruct (Hw _ _ E) as (H1 & _ & _). split; [exact H1|]. split; [exact Hc|exact Hn].
  - unfold SetRunning. rewrite E. split; [split; [apply touches_refl|auto]|exact Hw].
Qed.

Lemma good_forget id m : wf m -> good id m (with_registry m (SetRunning (m_registry m) id "" false)).
Proof.
  intros Hw. apply good_running; [exact Hw|auto|]. intros c Ec. exfalso.
  apply (used_nonempty (m_docker m)), used_dom, elem_of_dom. eauto.
Qed.

(** What a start leaves: the container of the entry, running and recorded, or
    the registry as it was. *)
Definition started (m : Manager D) (id : string) (s : ConnectorStatus) (m' : Manager D) (r : result lc_error unit) : Prop :=
  match r with
  | Ok _ => exists cid, (cid ∉ used (m_docker m)) /\
      m_registry m' = SetRunning (m_registry m) id cid true /\
      containers (m_docker m') !! cid = Some (with_running true (container_of cfg (st_Spec s) ""))
  | Err e => m_registry m' = m_registry m /\ (e = CreateFailed \/ e = StartFailed)
  end.

Lemma doStart_spec m id s m' r : wf m -> m_registry m !! id = Some s -> doStart cfg m id = (m', r) ->
  good id m m' /\ started m id s m' r.
Proof.
  intros Hw Es E. unfold doStart in E. rewrite Es in E. destruct (Hw _ _ Es) as (Hid & _ & _).
  destruct (createWithLabels cfg (m_docker m) (st_Spec s) "") as [d1 [cid|]] eqn:E1.
  - pose proof (touches_create _ _ _ _ _ E1) as T1. rewrite Hid in T1.
    assert ((cid ∉ used (m_docker m)) /\ cid ∈ used d1 /\ containers d1 !! cid = Some (with_running false (container_of cfg (st_Spec s) "")))
      as (Hf & Hu & Hc).
    { apply create_law in E1 as [(E0 & _)|(k & [Ek|Ek] & Hk & Hu & _ & Hcs)]; [discriminate| |discriminate].
      injection Ek as <-. split; [exact Hk|]. rewrite Hu, Hcs, lookup_insert_eq. set_solver. }
    assert (forall c, containers d1 !! cid = Some c -> ct_name c = container_name id) as Hn
      by (intros c Ec; rewrite Ec in Hc; injection Hc as ->; cbn; rewrite Hid; reflexivity).
    destruct (ContainerStart d1 cid) as [d2 ok] eqn:E2. pose proof (touches_start id _ _ _ _ E2 Hn) as T2.
    pose proof (touches_trans _ _ _ _ T1 T2) as T12. pose proof (good_docker id m d2 Hw T12) as G.
    apply start_law in E2 as (Hu2 & Hs2). destruct ok; injection E as <- <-.
    + destruct Hs2 as [[E0 _]|(c & Ec & Ed)]; [discriminate|]. rewrite Hc in Ec. injection Ec as <-.
      assert (containers d2 !! cid = Some (with_running true (container_of cfg (st_Spec s) ""))) as Hr by (rewrite Ed; apply lookup_insert_eq).
      split; [|exists cid; auto]. eapply good_trans; [exact G|].
      apply (good_running id (with_docker m d2) cid true); [apply G|cbn; rewrite Hu2; auto|]. cbn. rewrite Hr. intros x [= <-]. cbn. rewrite Hid. reflexivity.
    + split; [exact G|cbn; auto].
  - pose proof (touches_create _ _ _ _ _ E1) as T1. rewrite Hid in T1. injection E as <- <-.
    split; [apply good_docker; assumption|cbn; auto].
Qed.

Lemma doStop_spec m id s m' r : wf m -> m_registry m !! id = Some s -> doStop m id = (m', r) ->
  good id m m' /\ match r with
  | Ok _ => m_registry m' !! id = Some {| s with st_ContainerID := ""; st_Running := if String.eqb (st_ContainerID s) "" then st_Running s else false |} /\
            (st_ContainerID s <> "" -> exists c, containers (m_docker m) !! st_ContainerID s = Some c /\
               containers (m_docker m') !! st_ContainerID s = Some (with_running false c))
  | Err e => e = StopFailed /\ m_registry m' = m_registry m
  end.
Proof.
  intros Hw Es E. unfold doStop in E. rewrite Es in E. destruct (Hw _ _ Es) as (Hid & Hu & Hn).
  destruct (String.eqb_spec (st_ContainerID s) "") as [Hc|Hc].
  - injection E as <- <-. split; [split; [apply local_refl|exact Hw]|]. split; [rewrite Es; destruct s; cbn in *; congruence|contradiction].
  - destruct (ContainerStop (m_docker m) (st_ContainerID s)) as [d1 ok] eqn:E1.
    pose proof (good_docker id m d1 Hw (touches_stop id _ _ _ _ E1 Hn)) as G. apply stop_law in E1 as (Hu1 & Hs1).
    destruct ok; injection E as <- <-; [|auto]. destruct Hs1 as [[E0 _]|(c & Ec & Ed)]; [discriminate|]. split.
    + eapply good_trans; [exact G|]. apply (good_forget id (with_docker m d1)). apply G.
    + split; [cbn; rewrite SetRunning_lookup, decide_True, Es by reflexivity; reflexivity|].
      intros _. exists c. split; [exact Ec|]. cbn. rewrite Ed. apply lookup_insert_eq.
Qed.

Lemma remove_old_good id m s : wf m -> entry_ok (m_docker m) id s ->
  good id m (remove_old m (st_ContainerID s)) /\ m_registry (remove_old m (st_ContainerID s)) = m_registry m.
Proof.
  intros Hw (_ & _ & Hn). unfold remove_old. destruct (String.eqb _ _); [split; [split; [apply local_refl|exact Hw]|reflexivity]|].
  destruct (ContainerRemove (m_docker m) (st_ContainerID s)) as [d ok] eqn:E. cbn [fst].
  split; [apply good_docker; [exact Hw|eapply touches_remove; eauto]|reflexivity].
Qed.

(** Stopping a connector, then removing the container it had. *)
Lemma stop_remove_good m id s m1 u : wf m -> m_registry m !! id = Some s -> doStop m id = (m1, Ok u) ->
  good id m (remove_old m1 (st_ContainerID s)) /\
  m_registry (remove_old m1 (st_ContainerID s)) !! id =
    Some {| s with st_ContainerID := ""; st_Running := if String.eqb (st_ContainerID s) "" then st_Running s else false |}.
Proof.
  intros Hw Es E. destruct (doStop_spec _ _ _ _ _ Hw Es E) as (G & Hr & _).
  destruct (remove_old_good id m1 s) as [G2 Hreg]; [apply G|apply (entry_touches id (m_docker m)); [apply G|auto]|].
  split; [eauto using good_trans|]. rewrite Hreg. exact Hr.
Qed.

(** Registering a new spec of the connector, then starting it. *)
Lemma register_start m id spec m' r : wf m -> sp_ID spec = id ->
  doStart cfg (with_registry m (Register (m_registry m) spec)) id = (m', r) ->
  let s := match m_registry m !! id with
           | Some e => {| e with st_Spec := spec |}
           | None => {| st_Spec := spec; st_ContainerID := ""; st_Running := false |}
           end in
  good id m m' /\ started (with_registry m (Register (m_registry m) spec)) id s m' r.
Proof.
  intros Hw Hid E. pose proof (good_register id m spec Hw Hid) as G. cbn zeta.
  match goal with |- _ /\ started ?m1 _ ?s _ _ =>
    destruct (doStart_spec m1 id s m' r (proj2 G)) as [G2 S2]; [|exact E|split; [eauto using good_trans|exact S2]] end.
  cbn. rewrite Register_lookup, Hid, decide_True by reflexivity. reflexivity.
Qed.

Lemma good_refl id m : wf m -> good id m m.
Proof. intros Hw. split; [apply local_refl|exact Hw]. Qed.

Lemma Start_good m id : wf m -> good id m (fst (Start cfg m id)).
Proof.
  intros Hw. unfold Start. destruct (checkReserved m id); [apply good_refl; exact Hw|].
  destruct (doStart cfg m id) as [m' r] eqn:E. destruct (m_registry m !! id) as [s|] eqn:Es.
  - apply (doStart_spec _ _ _ _ _ Hw Es E).
  - unfold doStart in E. rewrite Es in E. injection E as <- <-. apply good_refl. exact Hw.
Qed.

Lemma doStop_good m id : wf m -> good id m (fst (doStop m id)).
Proof.
  intros Hw. destruct (doStop m id) as [m' r] eqn:E. destruct (m_registry m !! id) as [s|] eqn:Es.
  - apply (doStop_spec _ _ _ _ _ Hw Es E).
  - unfold doStop in E. rewrite Es in E. injection E as <- <-. apply good_refl. exact Hw.
Qed.

Lemma Stop_good m id : wf m -> good id m (fst (Stop m id)).
Proof. intros Hw. unfold Stop. destruct (checkReserved m id); [apply good_refl|apply doStop_good]; exact Hw. Qed.

Lemma Restart_good m id : wf m -> good id m (fst (Restart cfg m id)).
Proof.
  intros Hw. unfold Restart. destruct (checkReserved m id) eqn:Er; [apply good_refl; exact Hw|].
  destruct (m_registry m !! id) as [s|] eqn:Es; [|apply good_refl; exact Hw].
  destruct (String.eqb _ _).
  { pose proof (Start_good m id Hw) as G. unfold Start in G. rewrite Er in G. exact G. }
  pose proof (Hw _ _ Es) as Hok. destruct (ContainerStop _ _) as [d1 ok1] eqn:E1.
  pose proof (touches_stop id _ _ _ _ E1 (proj2 (proj2 Hok))) as T1. pose proof (good_docker id m d1 Hw T1) as G1.
  destruct ok1; [|exact G1]. destruct (ContainerRemove d1 _) as [d2 ok2] eqn:E2.
  pose proof (touches_remove id _ _ _ _ E2 (proj2 (proj2 (entry_touches id _ _ _ _ T1 Hok)))) as T2.
  pose proof (good_docker id (with_docker m d1) d2 (proj2 G1) T2) as G2. destruct ok2; [|eapply good_trans; eauto].
  destruct (doStart cfg _ id) as [m' r] eqn:E3. eapply (good_trans id m (with_docker m d2)); [eapply good_trans; eauto|].
  pose proof (good_forget id (with_docker m d2) (proj2 G2)) as G3. eapply good_trans; [exact G3|].
  eapply doStart_spec; [apply G3| |exact E3]. cbn. rewrite SetRunning_lookup, decide_True, Es by reflexivity. reflexivity.
Qed.

Lemma good_pull id m ref d ok : wf m -> ImagePull (m_docker m) ref = (d, ok) -> good id m (with_docker m d).
Proof.
  intros Hw [E1 E2]%pull_law. apply good_docker; [exact Hw|]. split; rewrite ?E1, ?E2; eauto.
Qed.

Lemma Upgrade_good m id img : wf m -> good id m (fst (Upgrade cfg m id img)).
Proof.
  intros Hw. unfold Upgrade. destruct (checkReserved m id); [apply good_refl; exact Hw|].
  destruct (m_registry m !! id) as [s|] eqn:Es; [|apply good_refl; exact Hw].
  destruct (ImagePull _ _) as [d ok] eqn:Ep. pose proof (good_pull id m _ _ _ Hw Ep) as G1. destruct ok; [|exact G1].
  destruct (doStop (with_docker m d) id) as [m1 r1] eqn:E1.
  destruct r1 as [u|e]; [|cbn; eapply good_trans; [exact G1|]; eapply (doStop_spec _ _ s); [apply G1|exact Es|exact E1]].
  destruct (stop_remove_good (with_docker m d) id s m1 u (proj2 G1) Es E1) as [G2 _].
  destruct (doStart cfg _ id) as [m' r] eqn:E3. eapply good_trans; [exact G1|]. eapply good_trans; [exact G2|].
  apply register_start in E3 as [G3 _]; [exact G3|apply G2|reflexivity].
Qed.

Lemma watch_good m status locked : wf m -> good (sp_ID (st_Spec status)) m (watch_one cfg m status locked).
Proof.
  intros Hw. unfold watch_one. set (id := sp_ID (st_Spec status)).
  destruct (negb _ || _); [apply good_refl; exact Hw|]. destruct (ContainerInspect _ _) as [| |[i|]]; try (apply good_refl; exact Hw).
  destruct (i_Running i) as [[]|]; try (apply good_refl; exact Hw). destruct (locked || _); [apply good_refl; exact Hw|].
  pose proof (good_forget id m Hw) as G. eapply good_trans; [exact G|].
  set (m1 := with_registry m _) in *. destruct (doStart cfg m1 id) as [m' r] eqn:E. cbn [fst].
  destruct (m_registry m1 !! id) as [s|] eqn:Es; [apply (doStart_spec _ _ _ _ _ (proj2 G) Es E)|].
  unfold doStart in E. rewrite Es in E. injection E as <- <-. apply good_refl. apply G.
Qed.

Lemma good_delete id m : wf m -> good id m (with_registry m (Remove (m_registry m) id)).
Proof.
  intros Hw. split; [split; [apply touches_refl|]; split; [reflexivity|]|].
  - intros j Hj. cbn. apply lookup_delete_ne. auto.
  - intros j s Ej. cbn in *. unfold Remove in Ej. apply lookup_delete_Some in Ej as [_ Ej]. auto.
Qed.

Section Catalogued.
Context (verify : string -> bool) (allowed : list string) (gw : string).

Lemma Install_good m mf : wf m -> good (mf_Name mf) m (fst (Install cfg verify allowed gw m mf)).
Proof.
  intros Hw. unfold Install. destruct (Validate _ _ _); [|apply good_refl; exact Hw].
  destruct (checkReserved _ _); [apply good_refl; exact Hw|].
  assert (exists m1 ref pulled, (if ImageInspect (m_docker m) (mf_Image mf) then (m, mf_Image mf, true)
     else let '(d, ok) := ImagePull (m_docker m) (ImageRef mf) in (with_docker m d, ImageRef mf, ok)) = (m1, ref, pulled) /\
     good (mf_Name mf) m m1) as (m1 & ref & pulled & -> & G).
  { destruct (ImageInspect _ _); [eexists _, _, _; split; [reflexivity|apply good_refl; exact Hw]|].
    destruct (ImagePull _ _) as [d ok] eqn:Ep. eexists _, _, _. split; [reflexivity|]. eapply good_pull; eauto. }
  destruct pulled; [|exact G]. cbn [negb]. destruct (SignatureRequired mf && _); [exact G|].
  destruct (doStart cfg _ _) as [m2 r] eqn:E. apply register_start in E as [G2 _]; [|apply G|reflexivity].
  destruct r as [u|e]; cbn [fst]; [eauto using good_trans|].
  eapply good_trans; [exact G|]. eapply good_trans; [exact G2|]. apply good_delete. apply G2.
Qed.

Lemma rollback_good m id img cause : wf m -> good id m (fst (rollback cfg m id img cause)).
Proof.
  intros Hw. unfold rollback. destruct (m_registry m !! id) as [s|] eqn:Es; [|apply good_refl; exact Hw].
  destruct (String.eqb _ _); [apply good_refl; exact Hw|]. pose proof (doStop_good m id Hw) as G1.
  destruct (remove_old_good id (fst (doStop m id)) s (proj2 G1)) as [G2 _].
  { apply (entry_touches id (m_docker m)); [apply G1|auto]. }
  destruct (doStart cfg _ _) as [m2 r] eqn:E. apply register_start in E as [G3 _]; [|apply G2|reflexivity].
  destruct r; cbn [fst]; (eapply good_trans; [exact G1|]; eapply good_trans; [exact G2|]; exact G3).
Qed.

Lemma Rollback_good m id : wf m -> good id m (fst (Rollback cfg m id)).
Proof.
  intros Hw. unfold Rollback. destruct (checkReserved _ _); [apply good_refl; exact Hw|].
  destruct (m_registry m !! id) as [s|] eqn:Es; [|apply good_refl; exact Hw].
  destruct (String.eqb _ _); [apply good_refl; exact Hw|]. destruct (doStop m id) as [m1 r1] eqn:E1.
  destruct r1 as [u|e]; [|apply (doStop_spec _ _ _ _ _ Hw Es E1)].
  destruct (stop_remove_good m id s m1 u Hw Es E1) as [G2 _].
  destruct (doStart cfg _ id) as [m' r] eqn:E3. eapply good_trans; [exact G2|].
  apply register_start in E3 as [G3 _]; [exact G3|apply G2|reflexivity].
Qed.

(** By themselves, containers of [id] may exit. *)
Definition exits (id : string) (f : D -> D) : Prop := forall d, used (f d) = used d /\
  forall k, containers (f d) !! k = containers d !! k \/
    (exists c, containers d !! k = Some c /\ ct_name c = container_name id /\ containers (f d) !! k = Some (with_running false c)).

Lemma exits_touches id f d : exits id f -> touches id d (f d).
Proof.
  intros Hf. destruct (Hf d) as [Hu Hk]. split; [rewrite Hu; reflexivity| | |].
  - intros k c Ec Hn. destruct (Hk k) as [->|(x & Ex & Nx & _)]; [exact Ec|congruence].
  - intros k c Ec Hn. destruct (Hk k) as [<-|(x & Ex & Nx & E)]; [exact Ec|]. rewrite E in Ec. injection Ec as <-. contradiction.
  - intros k c Ec. left. destruct (Hk k) as [E|(x & Ex & Nx & E)]; [rewrite E in Ec; eauto|].
    rewrite E in Ec. injection Ec as <-. eauto.
Qed.

(** The soak: containers only exit, and a success means that the container
    was running at the last look. *)
Definition same_but_running (d d' : D) : Prop :=
  used d' = used d /\ forall k, with_running false <$> containers d' !! k = with_running false <$> containers d !! k.

Lemma exits_same id f d : exits id f -> same_but_running d (f d).
Proof.
  intros Hf. destruct (Hf d) as [Hu Hk]. split; [exact Hu|]. intros k.
  destruct (Hk k) as [->|(x & -> & _ & ->)]; reflexivity.
Qed.

Lemma soak_spec id cid polls : Forall (fun p => exits id (po_env p)) polls -> forall d d' r,
  soak_loop d cid polls = Some (d', r) -> is_Some (containers d !! cid) ->
  touches id d d' /\ same_but_running d d' /\
  match r with
  | Ok _ => exists c, containers d' !! cid = Some c /\ ct_running c = true
  | Err e => e = SoakInspectFailed \/ e = SoakExited \/ e = SoakCancelled
  end.
Proof.
  induction polls as [|p polls IH]; intros Hp d d' r E Hcid; cbn [soak_loop] in E; [discriminate|].
  apply Forall_cons in Hp as [Hf Hp]. pose proof (exits_touches id _ d Hf) as T. pose proof (exits_same id _ d Hf) as S.
  assert (is_Some (containers (po_env p d) !! cid)) as Hcid2.
  { destruct S as [_ S]. specialize (S cid). destruct Hcid as [c Ec]. rewrite Ec in S. cbn in S.
    destruct (containers (po_env p d) !! cid); [eauto|discriminate]. }
  pose proof (inspect_law (po_env p d) cid) as Hi.
  destruct (ContainerInspect (po_env p d) cid) as [| |[[iid [[]|] il]|]]; try (injection E as <- <-; auto).
  destruct (po_past p).
  - injection E as <- <-. split; [exact T|]. split; [exact S|]. destruct Hi as (c & Ec & Hkey & Hb & _). cbn in *.
    destruct Hkey as [->|[Hn _]]; [|rewrite Hn in Hcid2; destruct Hcid2; discriminate].
    exists c. split; [exact Ec|]. symmetry. apply Hb. reflexivity.
  - destruct (po_done p); [injection E as <- <-; auto|].
    destruct (IH Hp _ _ _ E Hcid2) as (T2 & S2 & Hr). split; [eauto using touches_trans|]. split; [|exact Hr].
    destruct S as [S1 S1'], S2 as [S2 S2']. split; [congruence|]. intros k. rewrite S2', S1'. reflexivity.
Qed.

(** Up and recorded: the entry runs the container of its spec. *)
Definition up (m : Manager D) (id : string) (spec : ConnectorSpec) : Prop :=
  exists cid, m_registry m !! id = Some {| st_Spec := spec; st_ContainerID := cid; st_Running := true |} /\
    containers (m_docker m) !! cid = Some (with_running true (container_of cfg spec "")).

Lemma started_up m id spec m' r : wf m -> sp_ID spec = id ->
  doStart cfg (with_registry m (Register (m_registry m) spec)) id = (m', r) ->
  good id m m' /\ match r with
  | Ok _ => up m' id spec
  | Err e => (e = CreateFailed \/ e = StartFailed) /\ m_registry m' = Register (m_registry m) spec
  end.
Proof.
  intros Hw Hid E. apply register_start in E as [G S]; [|exact Hw|exact Hid]. split; [exact G|].
  destruct r as [u|e]; [|destruct S; auto]. destruct S as (cid & _ & Hr & Hc). exists cid.
  rewrite Hr. cbn. rewrite SetRunning_lookup, decide_True, Register_lookup, Hid, decide_True by reflexivity.
  destruct (m_registry m !! id) as [e|]; cbn; auto.
Qed.

Definition rollback_spec (id prevImage : string) (prev : ConnectorSpec) : ConnectorSpec :=
  {| sp_ID := id; sp_Image := prevImage; sp_PrevImage := sp_PrevImage prev; sp_Env := sp_Env prev; sp_Permissions := sp_Permissions prev |}.

Lemma rollback_exact m id img cause prev m' r : wf m -> m_registry m !! id = Some prev ->
  rollback cfg m id img cause = (m', r) -> good id m m' /\
  ((img = "" /\ r = Err (RollbackNoImage cause) /\ m' = m) \/
   (img <> "" /\ r = Err (RolledBack cause) /\ up m' id (rollback_spec id img (st_Spec prev))) \/
   (exists e, img <> "" /\ r = Err (RollbackFailed e cause) /\
      exists t, m_registry m' !! id = Some t /\ st_Spec t = rollback_spec id img (st_Spec prev))).
Proof.
  intros Hw Ep E. pose proof (rollback_good m id img cause Hw) as G. rewrite E in G. split; [exact G|]. unfold rollback in E. rewrite Ep in E.
  destruct (String.eqb_spec img "") as [->|Hne]; [injection E as <- <-; auto|].
  pose proof (doStop_good m id Hw) as G1. destruct (remove_old_good id (fst (doStop m id)) prev (proj2 G1)) as [G2 _].
  { apply (entry_touches id (m_docker m)); [apply G1|auto]. }
  destruct (doStart cfg _ id) as [m2 r2] eqn:E2. apply started_up in E2 as [_ S]; [|apply G2|reflexivity].
  destruct r2 as [u|e]; injection E as <- <-; [right; left; auto|]. right. right. exists e. split; [exact Hne|]. split; [reflexivity|].
  destruct S as [_ ->]. rewrite Register_lookup, decide_True by reflexivity. eexists. split; [reflexivity|].
  cbn [sp_ID]. destruct (m_registry (remove_old _ _) !! id); reflexivity.
Qed.

Lemma stop_phase_spec m id s m' r : wf m -> m_registry m !! id = Some s -> stop_phase m id (st_ContainerID s) = (m', r) ->
  good id m m' /\ match r with
  | Ok _ => exists t, m_registry m' !! id = Some t
  | Err e => e = StopFailed /\ m_registry m' = m_registry m
  end.
Proof.
  intros Hw Es E. unfold stop_phase in E. destruct (String.eqb _ _); [injection E as <- <-; split; [apply good_refl; exact Hw|eauto]|].
  destruct (doStop m id) as [m1 r1] eqn:E1. destruct r1 as [u|e]; injection E as <- <-.
  - destruct (stop_remove_good m id s m1 u Hw Es E1) as [G Hr]. split; [exact G|eauto].
  - apply (doStop_spec _ _ _ _ _ Hw Es E1).
Qed.

(** Nothing changed but whether one container runs. *)
Definition only_stops (d : D) (cid : string) (d' : D) : Prop :=
  containers d' = containers d \/ exists c, containers d !! cid = Some c /\ containers d' = <[cid := with_running false c]> (containers d).

Lemma stop_phase_failed m id s m' e : m_registry m !! id = Some s -> stop_phase m id (st_ContainerID s) = (m', Err e) ->
  only_stops (m_docker m) (st_ContainerID s) (m_docker m').
Proof.
  intros Es E. unfold stop_phase, doStop in E. rewrite Es in E. destruct (String.eqb (st_ContainerID s) ""); [discriminate|].
  destruct (ContainerStop (m_docker m) (st_ContainerID s)) as [d1 []] eqn:E1; [discriminate|]. injection E as <- _. unfold only_stops. cbn.
  apply stop_law in E1 as (_ & [[_ ->]|(c & Ec & ->)]); [left; reflexivity|right; eauto].
Qed.

(** What became of a connector's entry and container after an update. *)
Definition updated (m : Manager D) (id : string) (mf : Manifest) (window : Z) (s : ConnectorStatus) (m' : Manager D)
    (r : result lc_error unit) : Prop :=
  let spec := st_Spec s in
  let next := {| sp_ID := id; sp_Image := ImageRef mf; sp_PrevImage := sp_Image spec; sp_Env := sp_Env spec;
                 sp_Permissions := mf_Permissions mf |} in
  let back := {| sp_ID := id; sp_Image := sp_Image spec; sp_PrevImage := sp_Image spec; sp_Env := sp_Env spec;
                 sp_Permissions := mf_Permissions mf |} in
  match r with
  | Ok _ =>
    (m' = m /\ digestFromRef (sp_Image spec) = mf_Digest mf) \/
    (SignatureRequired mf = true -> verify (ImageRef mf) = true) /\
    (exists cid c, m_registry m' !! id = Some {| st_Spec := next; st_ContainerID := cid; st_Running := true |} /\
       containers (m_docker m') !! cid = Some c /\ with_running true c = with_running true (container_of cfg next "") /\
       ct_running c = true)
  | Err (RolledBack _) => up m' id back
  | Err (RollbackFailed _ _) => exists t, m_registry m' !! id = Some t /\ st_Spec t = back
  | Err (RollbackNoImage _) => sp_Image spec = "" /\ exists t, m_registry m' !! id = Some t /\ st_Spec t = next
  | Err StopFailed => m_registry m' = m_registry m /\ only_stops (m_docker m) (st_ContainerID s) (m_docker m')
  | Err _ => m_registry m' = m_registry m /\ containers (m_docker m') = containers (m_docker m)
  end.

Lemma rolled_updated m id mf window s m1 m' r cause prev :
  wf m1 -> m_registry m1 !! id = Some prev ->
  st_Spec prev = {| sp_ID := id; sp_Image := ImageRef mf; sp_PrevImage := sp_Image (st_Spec s); sp_Env := sp_Env (st_Spec s);
                    sp_Permissions := mf_Permissions mf |} ->
  rollback cfg m1 id (sp_Image (st_Spec s)) cause = (m', r) -> good id m1 m' /\ updated m id mf window s m' r.
Proof.
  intros Hw Ep Hs E. destruct (rollback_exact _ _ _ _ _ _ _ Hw Ep E) as [G [(Hi & -> & Hm)|[(_ & -> & Hu)|(e & _ & -> & Ht)]]];
    (split; [exact G|]); [|rewrite Hs in *; assumption..]. subst m'. cbn. split; [exact Hi|]. exists prev. auto.
Qed.

(** The update once the new container is started. *)
Lemma soak_updated m id mf window polls s m1 m' r : wf m1 -> Forall (fun p => exits id (po_env p)) polls ->
  (SignatureRequired mf = true -> verify (ImageRef mf) = true) ->
  up m1 id {| sp_ID := id; sp_Image := ImageRef mf; sp_PrevImage := sp_Image (st_Spec s); sp_Env := sp_Env (st_Spec s);
              sp_Permissions := mf_Permissions mf |} ->
  match soakCheck (m_docker m1) (match m_registry m1 !! id with Some s => st_ContainerID s | None => "" end) window polls with
  | None => None
  | Some (d, Err e) => Some (rollback cfg (with_docker m1 d) id (sp_Image (st_Spec s)) e)
  | Some (d, Ok _) => Some (with_docker m1 d, Ok tt)
  end = Some (m', r) -> good id m1 m' /\ updated m id mf window s m' r.
Proof.
  intros Hw Hp Hsig (cid & Er & Ec) E. rewrite Er in E. cbn [st_ContainerID] in E. unfold soakCheck in E.
  destruct (String.eqb cid "" || (window <=? 0)).
  - injection E as <- <-. split; [apply good_docker; [exact Hw|apply touches_refl]|]. right. split; [exact Hsig|]. exists cid. eauto.
  - destruct (soak_loop (m_docker m1) cid polls) as [[d2 r2]|] eqn:Es; [|discriminate].
    destruct (soak_spec id cid polls Hp _ _ _ Es ltac:(eauto)) as (T & [_ S] & Hr).
    pose proof (good_docker id m1 d2 Hw T) as G. destruct r2 as [u|e].
    + injection E as <- <-. split; [exact G|]. right. split; [exact Hsig|]. destruct Hr as (c & Ec2 & Hrun). exists cid, c.
      split; [exact Er|]. split; [exact Ec2|]. split; [|exact Hrun]. specialize (S cid). rewrite Ec, Ec2 in S. cbn in S. injection S as S1 S2 S3 S4 S5 S6.
      destruct c. cbn in *. subst. reflexivity.
    + assert (rollback cfg (with_docker m1 d2) id (sp_Image (st_Spec s)) e = (m', r)) as E' by congruence. clear E. rename E' into E.
      apply (rolled_updated m id mf window s) with (prev := {| st_Spec := {| sp_ID := id; sp_Image := ImageRef mf;
        sp_PrevImage := sp_Image (st_Spec s); sp_Env := sp_Env (st_Spec s); sp_Permissions := mf_Permissions mf |};
        st_ContainerID := cid; st_Running := true |}) in E as [G2 U]; [|apply G|exact Er|reflexivity]. eauto using good_trans.
Qed.

Lemma Update_spec m id mf window polls s m' r : wf m -> Forall (fun p => exits id (po_env p)) polls ->
  m_registry m !! id = Some s -> Update cfg verify allowed gw m id mf window polls = Some (m', r) ->
  good id m m' /\ updated m id mf window s m' r.
Proof.
  intros Hw Hp Es E. unfold Update in E.
  destruct (Validate mf allowed gw) as [u|e]; [|injection E as <- <-; split; [apply good_refl; exact Hw|cbn; auto]].
  destruct (checkReserved m id); [injection E as <- <-; split; [apply good_refl; exact Hw|cbn; auto]|]. rewrite Es in E.
  destruct (String.eqb_spec (digestFromRef (sp_Image (st_Spec s))) (mf_Digest mf)) as [Hd|Hd];
    [injection E as <- <-; split; [apply good_refl; exact Hw|left; auto]|].
  destruct (ImagePull (m_docker m) (ImageRef mf)) as [d ok] eqn:Epull. pose proof (good_pull id m _ _ _ Hw Epull) as G1.
  apply pull_law in Epull as [Hcs _]. destruct ok; [|injection E as <- <-; split; [exact G1|cbn; auto]].
  destruct (SignatureRequired mf && negb (verify (ImageRef mf))) eqn:Esig; [injection E as <- <-; split; [exact G1|cbn; auto]|].
  assert (SignatureRequired mf = true -> verify (ImageRef mf) = true) as Hsig
    by (intros Hs; rewrite Hs in Esig; destruct (verify _); [reflexivity|discriminate]).
  destruct (stop_phase (with_docker m d) id (st_ContainerID s)) as [m2 r2] eqn:E2.
  destruct (stop_phase_spec _ id s _ _ (proj2 G1) Es E2) as [G2 H2]. destruct r2 as [u2|e2];
    [|injection E as <- <-; split; [eauto using good_trans|]; destruct H2 as [-> H2]; split; [exact H2|];
      apply (stop_phase_failed _ id s) in E2; [unfold only_stops in *; cbn in E2; rewrite Hcs in E2; exact E2|exact Es]].
  destruct (doStart cfg _ id) as [m3 r3] eqn:E3. pose proof E3 as E3'. apply started_up in E3 as [G3 S3]; [|apply G2|reflexivity].
  pose proof (good_trans _ _ _ _ G1 (good_trans _ _ _ _ G2 G3)) as G. destruct r3 as [u3|e3].
  - apply (soak_updated m id mf window polls s) in E as [G4 U]; [eauto using good_trans|apply G3|exact Hp|exact Hsig|exact S3].
  - assert (rollback cfg m3 id (sp_Image (st_Spec s)) e3 = (m', r)) as E' by congruence. clear E. rename E' into E. destruct S3 as [_ S3].
    pose proof (f_equal (fun g => g !! id) S3) as Er. cbn beta in Er. rewrite Register_lookup, decide_True in Er by reflexivity.
    apply (rolled_updated m id mf window s) with (2 := Er) in E as [G4 U]; [eauto using good_trans|apply G3|].
    cbn [sp_ID]. destruct (m_registry m2 !! id); reflexivity.
Qed.

(** *** The containers an update makes *)

Definition same_container (c c' : container) : Prop := with_running false c = with_running false c'.

(** Every container was there before or is one of these specs; only whether it
    runs may have changed. *)
Definition builds (specs : list ConnectorSpec) (d d' : D) : Prop :=
  forall k c, containers d' !! k = Some c ->
    (exists c0, containers d !! k = Some c0 /\ same_container c c0) \/ exists sp, sp ∈ specs /\ same_container c (container_of cfg sp "").

Lemma builds_eq specs d d' : containers d' = containers d -> builds specs d d'.
Proof. intros E k c Hc. rewrite E in Hc. left. exists c. split; [exact Hc|reflexivity]. Qed.
Lemma builds_trans specs d1 d2 d3 : builds specs d1 d2 -> builds specs d2 d3 -> builds specs d1 d3.
Proof.
  intros B1 B2 k c Hc. destruct (B2 k c Hc) as [(c0 & Hc0 & Es)|Hs]; [|auto]. destruct (B1 k c0 Hc0) as [(c1 & Hc1 & Es1)|(sp & Hsp & Es1)].
  - left. exists c1. split; [exact Hc1|]. unfold same_container in *; congruence.
  - right. exists sp. split; [exact Hsp|]. unfold same_container in *; congruence.
Qed.
Lemma builds_set specs d d' k c b : containers d !! k = Some c -> containers d' = <[k := with_running b c]> (containers d) -> builds specs d d'.
Proof.
  intros Hk E j x Hx. rewrite E in Hx. left. apply lookup_insert_Some in Hx as [[<- <-]|[_ Hx]]; [exists c|exists x]; (split; [assumption|reflexivity]).
Qed.
Lemma builds_same specs d d' : same_but_running d d' -> builds specs d d'.
Proof.
  intros [_ S] k c Hc. left. specialize (S k). rewrite Hc in S. cbn in S. destruct (containers d !! k) as [c0|]; [|discriminate].
  injection S as S. exists c0. split; [reflexivity|]. unfold same_container, with_running. f_equal; congruence.
Qed.
#[local] Hint Resolve builds_eq builds_trans builds_set : core.

Lemma doStop_builds specs m id : builds specs (m_docker m) (m_docker (fst (doStop m id))).
Proof.
  unfold doStop. destruct (m_registry m !! id) as [s|]; [|auto]. destruct (String.eqb _ _); [auto|].
  destruct (ContainerStop _ _) as [d ok] eqn:E. apply stop_law in E as (_ & [[-> Hc]|(c & Hk & Hc)]); [cbn; auto|destruct ok; cbn; eauto].
Qed.
Lemma remove_old_builds specs m cid : builds specs (m_docker m) (m_docker (remove_old m cid)).
Proof.
  unfold remove_old. destruct (String.eqb _ _); [auto|]. destruct (ContainerRemove _ _) as [d ok] eqn:E. cbn.
  apply remove_law in E as (_ & [[_ Hc]|(c & _ & _ & Hc)]); [auto|]. intros k x Hx. rewrite Hc in Hx. apply lookup_delete_Some in Hx as [_ Hx].
  left. exists x. split; [exact Hx|reflexivity].
Qed.
Lemma doStart_builds specs m id s : m_registry m !! id = Some s -> st_Spec s ∈ specs -> builds specs (m_docker m) (m_docker (fst (doStart cfg m id))).
Proof.
  intros Es Hin. unfold doStart. rewrite Es. destruct (createWithLabels cfg (m_docker m) (st_Spec s) "") as [d1 o] eqn:E1.
  assert (builds specs (m_docker m) d1) as B1.
  { apply create_law in E1 as [(_ & Hc & _)|(k & _ & _ & _ & _ & Hc)]; [auto|]. intros j x Hx. rewrite Hc in Hx.
    apply lookup_insert_Some in Hx as [[_ <-]|[_ Hx]]; [right; exists (st_Spec s); split; [exact Hin|reflexivity]|left; exists x; split; [exact Hx|reflexivity]]. }
  destruct o as [cid|]; [|exact B1]. destruct (ContainerStart d1 cid) as [d2 ok] eqn:E2.
  apply start_law in E2 as (_ & [[-> Hc]|(c & Hk & Hc)]); [cbn; eauto|destruct ok; cbn; eauto].
Qed.
Lemma register_builds specs m id spec : sp_ID spec = id -> spec ∈ specs ->
  builds specs (m_docker m) (m_docker (fst (doStart cfg (with_registry m (Register (m_registry m) spec)) id))).
Proof.
  intros Hid Hin. set (s := match m_registry m !! id with
    | Some e => {| e with st_Spec := spec |} | None => {| st_Spec := spec; st_ContainerID := ""; st_Running := false |} end).
  apply (doStart_builds specs (with_registry m (Register (m_registry m) spec)) id s); [|unfold s; destruct (m_registry m !! id); exact Hin].
  cbn. rewrite Register_lookup, Hid, decide_True by reflexivity. reflexivity.
Qed.

Lemma rollback_builds specs m id img cause prev : m_registry m !! id = Some prev -> rollback_spec id img (st_Spec prev) ∈ specs ->
  builds specs (m_docker m) (m_docker (fst (rollback cfg m id img cause))).
Proof.
  intros Ep Hin. unfold rollback. rewrite Ep. destruct (String.eqb _ _); [apply builds_eq; reflexivity|].
  eapply builds_trans; [apply (doStop_builds specs m id)|]. eapply builds_trans; [apply (remove_old_builds specs _ (st_ContainerID prev))|].
  set (m2 := remove_old _ _). pose proof (register_builds specs m2 id (rollback_spec id img (st_Spec prev)) eq_refl Hin) as B. unfold rollback_spec in B.
  destruct (doStart cfg _ id) as [m3 []]; exact B.
Qed.

(** The specs of an update: of the new version, and of the way back. *)
Definition next_spec (id : string) (mf : Manifest) (spec : ConnectorSpec) : ConnectorSpec :=
  {| sp_ID := id; sp_Image := ImageRef mf; sp_PrevImage := sp_Image spec; sp_Env := sp_Env spec; sp_Permissions := mf_Permissions mf |}.
Definition back_spec (id : string) (mf : Manifest) (spec : ConnectorSpec) : ConnectorSpec :=
  {| sp_ID := id; sp_Image := sp_Image spec; sp_PrevImage := sp_Image spec; sp_Env := sp_Env spec; sp_Permissions := mf_Permissions mf |}.

Lemma Update_builds m id mf window polls s m' r : wf m -> Forall (fun p => exits id (po_env p)) polls ->
  m_registry m !! id = Some s -> Update cfg verify allowed gw m id mf window polls = Some (m', r) ->
  builds [] (m_docker m) (m_docker m') \/
  (Validate mf allowed gw = Ok tt /\ (SignatureRequired mf = true -> verify (ImageRef mf) = true) /\
   builds [next_spec id mf (st_Spec s); back_spec id mf (st_Spec s)] (m_docker m) (m_docker m')).
Proof.
  intros Hw Hp Es E. unfold Update in E. destruct (Validate mf allowed gw) as [[]|e]; [|injection E as <- <-; auto].
  destruct (checkReserved m id); [injection E as <- <-; auto|]. rewrite Es in E. destruct (String.eqb _ (mf_Digest mf)); [injection E as <- <-; auto|].
  destruct (ImagePull (m_docker m) (ImageRef mf)) as [d ok] eqn:Epull. pose proof (good_pull id m _ _ _ Hw Epull) as G1. apply pull_law in Epull as [Hcs _].
  destruct ok; [|injection E as <- <-; auto].
  destruct (SignatureRequired mf && negb (verify (ImageRef mf))) eqn:Esig; [injection E as <- <-; auto|].
  right. split; [reflexivity|]. split; [intros Hs; rewrite Hs in Esig; destruct (verify _); [reflexivity|discriminate]|].
  set (specs := [next_spec _ _ _; _]). assert (builds specs (m_docker m) (m_docker (with_docker m d))) as B1 by auto.
  destruct (stop_phase (with_docker m d) id (st_ContainerID s)) as [m2 r2] eqn:E2.
  assert (builds specs (m_docker m) (m_docker m2)) as B2.
  { eapply builds_trans; [exact B1|]. unfold stop_phase in E2. destruct (String.eqb _ _); [injection E2 as <- <-; auto|].
    pose proof (doStop_builds specs (with_docker m d) id) as B. destruct (doStop (with_docker m d) id) as [m1 [u|e]]; injection E2 as <- <-; [|exact B].
    eapply builds_trans; [exact B|apply remove_old_builds]. }
  destruct (stop_phase_spec _ id s _ _ (proj2 G1) Es E2) as [G2 _]. destruct r2 as [u2|e2]; [|injection E as <- <-; exact B2].
  assert (next_spec id mf (st_Spec s) ∈ specs) as Hn by (left). assert (back_spec id mf (st_Spec s) ∈ specs) as Hb by (right; left).
  pose proof (register_builds specs m2 id (next_spec id mf (st_Spec s)) eq_refl Hn) as B3. unfold next_spec in B3.
  destruct (doStart cfg _ id) as [m3 r3] eqn:E3. cbn [fst] in B3. pose proof (builds_trans _ _ _ _ B2 B3) as B. apply started_up in E3 as [G3 S3]; [|apply G2|reflexivity].
  destruct r3 as [u3|e3].
  - destruct S3 as (cid & Er & Ec). rewrite Er in E. cbn [st_ContainerID] in E. unfold soakCheck in E.
    destruct (String.eqb cid "" || (window <=? 0)); [injection E as <- <-; exact B|].
    destruct (soak_loop (m_docker m3) cid polls) as [[d2 r2]|] eqn:Ek; [|discriminate].
    destruct (soak_spec id cid polls Hp _ _ _ Ek ltac:(eauto)) as (_ & S & _). pose proof (builds_trans _ _ _ _ B (builds_same specs _ _ S)) as B4.
    destruct r2 as [u|e]; [injection E as <- <-; exact B4|]. eapply builds_trans; [exact B4|].
    pose proof (rollback_builds specs (with_docker m3 d2) id (sp_Image (st_Spec s)) e _ Er Hb) as B5. injection E as E. rewrite E in B5. exact B5.
  - destruct S3 as [_ S3]. pose proof (f_equal (fun g => g !! id) S3) as Er. cbn beta in Er. rewrite Register_lookup, decide_True in Er by reflexivity.
    eapply builds_trans; [exact B|]. pose proof (fun H => rollback_builds specs m3 id (sp_Image (st_Spec s)) e3 _ Er H) as B5. injection E as E. rewrite E in B5.
    apply B5. cbn [sp_ID]. destruct (m_registry m2 !! id); exact Hb.
Qed.

(** C27: What an update leaves of a connector, outcome by outcome.  On success the
    connector runs, and at the last look still ran, exactly the container of
    the manifest's pinned image, its read-only mounts and the kept environment,
    with the old image recorded for rollback and the signature verified when
    one is required.  A refused, unpulled or unverified update changes neither
    the registry nor any container; a failed stop keeps the registry and every
    container but for whether the old one runs.  A rolled back one runs the old
    image again, recorded and running.  When the start of the old image fails too,
    only the entry is back on the old image, and nothing is claimed to run; with no
    image to go back to the entry stays on the new one.  On every path each
    container is one that was there before, or was made of the new spec or the
    rollback spec, and these only of a valid manifest whose signature was verified
    when required.  Whatever happens, no other connector's entry or container is
    touched. *)
Theorem Update_exact (m : Manager D) (id : string) (mf : Manifest) (window : Z) (polls : list (poll D)) (s : ConnectorStatus) m' r :
  wf m -> Forall (fun p => exits id (po_env p)) polls -> m_registry m !! id = Some s ->
  Update cfg verify allowed gw m id mf window polls = Some (m', r) ->
  updated m id mf window s m' r /\ local_to id m m' /\ wf m' /\ (r = Ok tt -> Validate mf allowed gw = Ok tt) /\
  (builds [] (m_docker m) (m_docker m') \/
   (Validate mf allowed gw = Ok tt /\ (SignatureRequired mf = true -> verify (ImageRef mf) = true) /\
    builds [next_spec id mf (st_Spec s); back_spec id mf (st_Spec s)] (m_docker m) (m_docker m'))).
Proof.
  intros Hw Hp Es E. destruct (Update_spec m id mf window polls s m' r Hw Hp Es E) as [[Hl Hw'] U].
  split; [exact U|]. split; [exact Hl|]. split; [exact Hw'|]. split; [|exact (Update_builds m id mf window polls s m' r Hw Hp Es E)].
  intros ->. unfold Update in E. destruct (Validate mf allowed gw) as [[]|]; [reflexivity|discriminate].
Qed.

(** An update returns once the soak's deadline passes. *)
Lemma Update_returns m id mf window polls : existsb po_past polls = true ->
  is_Some (Update cfg verify allowed gw m id mf window polls).
Proof.
  intros Hp. assert (forall d cid, is_Some (soakCheck d cid window polls)) as Hs.
  { intros d cid. unfold soakCheck. destruct (_ || _); [eauto|]. revert d. induction polls as [|p polls IH]; intros d; [discriminate|].
    cbn in Hp |- *. destruct (ContainerInspect _ _) as [| |[[iid [[]|] il]|]]; eauto. destruct (po_past p); [eauto|].
    destruct (po_done p); eauto. }
  unfold Update. destruct (Validate _ _ _); [|eauto]. destruct (checkReserved _ _); [eauto|].
  destruct (_ !! id) as [s|]; [|eauto]. destruct (String.eqb _ _); [eauto|]. destruct (ImagePull _ _) as [d []]; [|eauto].
  destruct (_ && _); [eauto|]. destruct (stop_phase _ _ _) as [m1 []]; [|eauto]. destruct (doStart _ _ _) as [m2 []]; [|eauto].
  destruct (Hs (m_docker m2) (match m_registry m2 !! id with Some s => st_ContainerID s | None => "" end)) as [[d2 [u|e]] ->]; eauto.
Qed.

(** ** Runs of public operations *)

Inductive lc_op :=
| OpStart (id : string) | OpStop (id : string) | OpRestart (id : string) | OpUpgrade (id image : string)
| OpInstall (mf : Manifest) | OpUpdate (id : string) (mf : Manifest) (window : Z) (polls : list (poll D))
| OpRollback (id : string) | OpWatch (status : ConnectorStatus) (locked : bool).

Definition op_id (op : lc_op) : string :=
  match op with
  | OpStart id | OpStop id | OpRestart id | OpUpgrade id _ | OpUpdate id _ _ _ | OpRollback id => id
  | OpInstall mf => mf_Name mf
  | OpWatch status _ => sp_ID (st_Spec status)
  end.

Definition run_op (m : Manager D) (op : lc_op) : option (Manager D) :=
  match op with
  | OpStart id => Some (fst (Start cfg m id))
  | OpStop id => Some (fst (Stop m id))
  | OpRestart id => Some (fst (Restart cfg m id))
  | OpUpgrade id img => Some (fst (Upgrade cfg m id img))
  | OpInstall mf => Some (fst (Install cfg verify allowed gw m mf))
  | OpUpdate id mf window polls => option_map fst (Update cfg verify allowed gw m id mf window polls)
  | OpRollback id => Some (fst (Rollback cfg m id))
  | OpWatch status locked => Some (watch_one cfg m status locked)
  end.

Fixpoint run_ops (m : Manager D) (ops : list lc_op) : option (Manager D) :=
  match ops with
  | [] => Some m
  | op :: ops => match run_op m op with Some m => run_ops m ops | None => None end
  end.

(** During a soak only the containers of the connector updated exit. *)
Definition calm (op : lc_op) : Prop :=
  match op with OpUpdate id _ _ polls => Forall (fun p => exits id (po_env p)) polls | _ => True end.

Lemma op_good m op m' : wf m -> calm op -> run_op m op = Some m' -> good (op_id op) m m'.
Proof.
  intros Hw Hc E. destruct op as [id|id|id|id img|mf|id mf window polls|id|status locked]; cbn [run_op op_id] in *;
    try (injection E as <-); auto using Start_good, Stop_good, Restart_good, Upgrade_good, Install_good, Rollback_good, watch_good.
  destruct (Update cfg verify allowed gw m id mf window polls) as [[m1 r]|] eqn:Eu; [|discriminate]. injection E as <-.
  destruct (m_registry m !! id) as [s|] eqn:Es; [apply (Update_spec _ _ _ _ _ _ _ _ Hw Hc Es Eu)|].
  unfold Update in Eu. rewrite Es in Eu. destruct (Validate _ _ _); [|injection Eu as <- <-; apply good_refl; exact Hw].
  destruct (checkReserved _ _); injection Eu as <- <-; apply good_refl; exact Hw.
Qed.

Lemma op_reserved m op : op_id op ∈ m_reserved m -> run_op m op = Some m.
Proof.
  intros Hr. assert (checkReserved m (op_id op) = true) as Hc by (apply bool_decide_eq_true_2; exact Hr).
  destruct op as [id|id|id|id img|mf|id mf window polls|id|status locked]; cbn [run_op op_id] in *.
  - unfold Start. rewrite Hc. reflexivity.
  - unfold Stop. rewrite Hc. reflexivity.
  - unfold Restart. rewrite Hc. reflexivity.
  - unfold Upgrade. rewrite Hc. reflexivity.
  - unfold Install. destruct (Validate _ _ _); [rewrite Hc|]; reflexivity.
  - unfold Update. destruct (Validate _ _ _); [rewrite Hc|]; reflexivity.
  - unfold Rollback. rewrite Hc. reflexivity.
  - unfold watch_one. destruct (_ || _); [reflexivity|]. destruct (ContainerInspect _ _) as [| |[i|]]; try reflexivity.
    destruct (i_Running i) as [[]|]; try reflexivity. rewrite Hc, orb_true_r. reflexivity.
Qed.

(** C31: Connectors do not disturb each other, and a connector claimed by clock
    provisioning is out of reach: over any run of starts, stops, restarts,
    upgrades, installs, updates with their rollbacks, rollbacks and watch
    restarts, a connector that is claimed, or that none of them names, keeps
    its registry entry, and its containers stay exactly as they were, running
    state included. *)
Theorem connectors_isolated (ops : list lc_op) : forall (m m' : Manager D) (j : string),
  wf m -> Forall calm ops -> run_ops m ops = Some m' ->
  (j ∈ m_reserved m \/ Forall (fun op => op_id op <> j) ops) ->
  wf m' /\ m_reserved m' = m_reserved m /\ m_registry m' !! j = m_registry m !! j /\
  forall k c, ct_name c = container_name j -> containers (m_docker m') !! k = Some c <-> containers (m_docker m) !! k = Some c.
Proof.
  induction ops as [|op ops IH]; intros m m' j Hw Hc E Hj; cbn [run_ops] in E; [injection E as <-; auto|].
  apply Forall_cons in Hc as [Hc0 Hc]. destruct (run_op m op) as [m1|] eqn:E1; [|discriminate].
  pose proof (op_good m op m1 Hw Hc0 E1) as [(T & Hr & Hreg) Hw1].
  destruct (IH m1 m' j Hw1 Hc E) as (Hw' & Hr' & Hreg' & Hct).
  { destruct Hj as [Hj|Hj]; [left; congruence|right; apply Forall_cons in Hj; apply Hj]. }
  split; [exact Hw'|]. split; [congruence|]. destruct (decide (op_id op = j)) as [<-|Hne].
  - assert (m1 = m) as -> by (destruct Hj as [Hj|Hj]; [rewrite op_reserved in E1 by exact Hj; congruence|]; apply Forall_cons in Hj as [[] _]; reflexivity).
    auto.
  - split; [rewrite Hreg'; apply Hreg; auto|]. intros k c Hn. rewrite Hct by exact Hn.
    assert (ct_name c <> container_name (op_id op)) by (rewrite Hn; intros E0%container_name_inj; congruence).
    split; intros Ek; [apply (to_back _ _ _ T)|apply (to_kept _ _ _ T)]; assumption.
Qed.
End Catalogued.

(** ** Where the fixed container name gets in the way *)

Lemma name_taken m id s k c : m_registry m !! id = Some s -> sp_ID (st_Spec s) = id ->
  containers (m_docker m) !! k = Some c -> ct_name c = container_name id ->
  exists m', doStart cfg m id = (m', Err CreateFailed) /\ m_registry m' = m_registry m /\ containers (m_docker m') = containers (m_docker m).
Proof.
  intros Es Hid Ek Hn. unfold doStart. rewrite Es. destruct (createWithLabels cfg (m_docker m) (st_Spec s) "") as [d o] eqn:E.
  apply create_law in E as [(-> & Hc & _)|(id' & _ & _ & _ & Hfree & _)].
  - eexists. split; [reflexivity|]. auto.
  - exfalso. apply (Hfree k c Ek). cbn. rewrite Hid. exact Hn.
Qed.

(** A stopped connector cannot be started again: stopping leaves the container
    behind under the name that starting asks for. *)
Theorem stopped_cannot_start (m m1 : Manager D) (id : string) (s : ConnectorStatus) :
  wf m -> m_registry m !! id = Some s -> st_ContainerID s <> "" -> Stop m id = (m1, Ok tt) ->
  snd (Start cfg m1 id) = Err CreateFailed.
Proof.
  intros Hw Es Hc E. unfold Stop in E. destruct (checkReserved m id) eqn:Er; [discriminate|].
  destruct (doStop_spec _ _ _ _ _ Hw Es E) as ([(_ & Hres & _) Hw1] & Hr & Hst). destruct (Hst Hc) as (c & Ec & Ec1).
  unfold Start. replace (checkReserved m1 id) with false by (unfold checkReserved in *; rewrite Hres, Er; reflexivity).
  destruct (Hw _ _ Es) as (Hid & _ & Hn).
  destruct (name_taken m1 id _ (st_ContainerID s) (with_running false c) Hr Hid Ec1 (Hn c Ec)) as (m2 & -> & _). reflexivity.
Qed.

(** Nor does watching restart a connector whose container exited: the start
    meets the exited container's name, and the entry is left without container,
    so that no later tick looks at it again. *)
Theorem watch_never_restarts (m : Manager D) (id : string) (s : ConnectorStatus) (i : info) :
  wf m -> m_registry m !! id = Some s -> st_Running s = true -> st_ContainerID s <> "" -> (id ∉ m_reserved m) ->
  ContainerInspect (m_docker m) (st_ContainerID s) = Found (Some i) -> i_Running i = Some false ->
  is_Some (containers (m_docker m) !! st_ContainerID s) ->
  let m' := watch_one cfg m s false in
  let s' := {| st_Spec := st_Spec s; st_ContainerID := ""; st_Running := false |} in
  m_registry m' !! id = Some s' /\ containers (m_docker m') = containers (m_docker m) /\
  forall m2 locked, watch_one cfg m2 s' locked = m2.
Proof.
  intros Hw Es Hrun Hc Hres Hi Hex [c Ec]. destruct (Hw _ _ Es) as (Hid & _ & Hn). cbn zeta. unfold watch_one at 1 2. rewrite Hid.
  assert (String.eqb (st_ContainerID s) "" = false) as Hcb by (apply String.eqb_neq; exact Hc).
  assert (checkReserved m id = false) as Hrb by (apply bool_decide_eq_false_2; exact Hres).
  rewrite Hrun, Hcb, Hi, Hex, Hrb. cbn [negb orb].
  assert (SetRunning (m_registry m) id "" false !! id = Some {| st_Spec := st_Spec s; st_ContainerID := ""; st_Running := false |}) as Er
    by (rewrite SetRunning_lookup, decide_True, Es by reflexivity; reflexivity).
  destruct (name_taken (with_registry m (SetRunning (m_registry m) id "" false)) id _ (st_ContainerID s) c Er Hid Ec (Hn c Ec)) as (m2 & -> & Hr2 & Hc2).
  cbn [fst]. rewrite Hr2, Hc2. split; [exact Er|]. split; [reflexivity|]. intros m3 locked. reflexivity.
Qed.

(** Upgrading drops the permissions: the new container has no mounts. *)
Theorem upgrade_drops_mounts (m m' : Manager D) (id img : string) (s : ConnectorStatus) :
  wf m -> m_registry m !! id = Some s -> Upgrade cfg m id img = (m', Ok tt) ->
  exists cid c, m_registry m' !! id = Some {| st_Spec := {| sp_ID := id; sp_Image := img; sp_PrevImage := sp_Image (st_Spec s);
      sp_Env := sp_Env (st_Spec s); sp_Permissions := {| Network := []; Mounts := [] |} |}; st_ContainerID := cid; st_Running := true |} /\
    containers (m_docker m') !! cid = Some c /\ ct_image c = img /\ ct_binds c = [].
Proof.
  intros Hw Es E. unfold Upgrade in E. destruct (checkReserved m id); [discriminate|]. rewrite Es in E.
  destruct (ImagePull _ _) as [d ok] eqn:Ep. pose proof (good_pull id m _ _ _ Hw Ep) as G1. destruct ok; [|discriminate].
  destruct (doStop (with_docker m d) id) as [m1 [u|e]] eqn:E1; [|discriminate].
  destruct (stop_remove_good (with_docker m d) id s m1 u (proj2 G1) Es E1) as [G2 _].
  apply started_up in E as [_ (cid & Er & Ec)]; [|apply G2|reflexivity]. exists cid. eexists. split; [exact Er|]. split; [exact Ec|]. auto.
Qed.

(** Installing a connector that is already installed and running drops it from
    the registry while its container keeps running. *)
Theorem reinstall_orphans verify allowed gw (m : Manager D) (mf : Manifest) (s : ConnectorStatus) (c : container) :
  wf m -> m_registry m !! mf_Name mf = Some s -> containers (m_docker m) !! st_ContainerID s = Some c ->
  Validate mf allowed gw = Ok tt -> (mf_Name mf ∉ m_reserved m) -> ImageInspect (m_docker m) (mf_Image mf) = true ->
  SignatureRequired mf = false ->
  exists m', Install cfg verify allowed gw m mf = (m', Err CreateFailed) /\ m_registry m' !! mf_Name mf = None /\
    containers (m_docker m') !! st_ContainerID s = Some c.
Proof.
  intros Hw Es Ec Hv Hres Himg Hsig. unfold Install. rewrite Hv, Himg, Hsig.
  assert (checkReserved m (mf_Name mf) = false) as -> by (apply bool_decide_eq_false_2; exact Hres). cbn [negb andb].
  destruct (Hw _ _ Es) as (Hid & _ & Hn).
  set (m1 := with_registry m _). assert (exists t, m_registry m1 !! mf_Name mf = Some t /\ sp_ID (st_Spec t) = mf_Name mf) as (t & Et & Ht).
  { change (m_registry m1) with (Register (m_registry m) (manifest_spec mf (mf_Image mf) "" [])).
    rewrite Register_lookup, decide_True by reflexivity. eexists. split; [reflexivity|]. cbn [sp_ID manifest_spec]. rewrite Es. reflexivity. }
  destruct (name_taken m1 (mf_Name mf) t (st_ContainerID s) c Et Ht Ec (Hn c Ec)) as (m2 & -> & Hr2 & Hc2).
  eexists. split; [reflexivity|]. split; [apply lookup_delete_eq|]. cbn. rewrite Hc2. exact Ec.
Qed.
End Facts.

Section MoreFacts.
Context {D : Type} `{DockerLaws D} (cfg : ManagerConfig).

(** A container that was made but not started stays, under the name. *)
Lemma doStart_left m id s m' : wf m -> m_registry m !! id = Some s -> doStart cfg m id = (m', Err StartFailed) ->
  m_registry m' = m_registry m /\ exists k c, containers (m_docker m') !! k = Some c /\ ct_name c = container_name id.
Proof.
  intros Hw Es E. destruct (Hw _ _ Es) as (Hid & _ & _). unfold doStart in E. rewrite Es in E.
  destruct (createWithLabels cfg (m_docker m) (st_Spec s) "") as [d1 [cid|]] eqn:E1; [|discriminate].
  apply create_law in E1 as [(E0 & _)|(k & [Ek|Ek] & _ & _ & _ & Hc)]; [discriminate| |discriminate]. injection Ek as <-.
  destruct (ContainerStart d1 cid) as [d2 []] eqn:E2; [discriminate|]. injection E as <-. split; [reflexivity|].
  apply start_law in E2 as [_ [[_ Hc2]|(c & Ec & Hc2)]]; cbn; rewrite Hc2.
  - rewrite Hc. exists cid, (with_running false (container_of cfg (st_Spec s) "")). rewrite lookup_insert_eq. cbn. rewrite Hid. auto.
  - rewrite Hc, lookup_insert_eq in Ec. injection Ec as <-. exists cid. eexists. rewrite lookup_insert_eq. split; [reflexivity|]. cbn. rewrite Hid. reflexivity.
Qed.

Lemma soak_not_start d cid window polls d' : soakCheck d cid window polls <> Some (d', Err StartFailed).
Proof.
  unfold soakCheck. destruct (_ || _); [discriminate|]. revert d.
  induction polls as [|p polls IH]; intros d; cbn [soak_loop]; [discriminate|].
  destruct (ContainerInspect _ _) as [| |[[iid [[]|] il]|]]; try discriminate.
  destruct (po_past p); [discriminate|]. destruct (po_done p); [discriminate|auto].
Qed.

Lemma rollback_cause m id img cause m' c : rollback cfg m id img cause = (m', Err (RolledBack c)) -> c = cause.
Proof.
  unfold rollback. destruct (m_registry m !! id); [|discriminate]. destruct (String.eqb _ _); [discriminate|].
  destruct (doStart cfg _ id) as [m6 []]; intros E; injection E as _ E; congruence.
Qed.

(** No rollback is possible while a container of that name is there and the
    entry does not know it. *)
Lemma rollback_blocked m id img cause s k c : m_registry m !! id = Some s -> st_ContainerID s = "" ->
  containers (m_docker m) !! k = Some c -> ct_name c = container_name id ->
  forall m' e, rollback cfg m id img cause <> (m', Err (RolledBack e)).
Proof.
  intros Es Hc Ek Hn m' e. unfold rollback. rewrite Es. destruct (String.eqb _ _); [discriminate|].
  unfold doStop. rewrite Es, Hc. cbn [String.eqb fst]. unfold remove_old. cbn [String.eqb].
  set (m5 := with_registry m _). assert (exists t5, m_registry m5 !! id = Some t5 /\ sp_ID (st_Spec t5) = id) as (t5 & Et5 & Ht5).
  { eexists. split; [apply lookup_insert_eq|]. destruct (m_registry m !! _); reflexivity. }
  destruct (name_taken cfg m5 id t5 k c Et5 Ht5 Ek Hn) as (m6 & -> & _). discriminate.
Qed.

Lemma stop_phase_clears m id s m' u : wf m -> m_registry m !! id = Some s -> stop_phase m id (st_ContainerID s) = (m', Ok u) ->
  wf m' /\ exists t, m_registry m' !! id = Some t /\ st_ContainerID t = "".
Proof.
  intros Hw Es E. unfold stop_phase in E. destruct (String.eqb_spec (st_ContainerID s) "") as [Hc|Hc]; [injection E as <- _; eauto|].
  destruct (doStop m id) as [m1 [u1|e1]] eqn:E1; [|discriminate]. injection E as <- _.
  destruct (stop_remove_good m id s m1 u1 Hw Es E1) as [G Hr]. split; [apply G|eauto].
Qed.

(** When the new version's container is made but does not start, the update
    does not roll back: the old version's container cannot be made under the
    same name, and the connector stays down. *)
Theorem failed_start_not_rolled_back verify allowed gw (m m' : Manager D) (id : string) (mf : Manifest) (window : Z) polls
    (s : ConnectorStatus) r :
  wf m -> m_registry m !! id = Some s -> Update cfg verify allowed gw m id mf window polls = Some (m', r) ->
  r <> Err (RolledBack StartFailed).
Proof.
  intros Hw Es E ->. unfold Update in E. destruct (Validate _ _ _) as [u|]; [|discriminate].
  destruct (checkReserved m id); [discriminate|]. rewrite Es in E. destruct (String.eqb _ _); [discriminate|].
  destruct (ImagePull (m_docker m) (ImageRef mf)) as [d ok] eqn:Ep. pose proof (good_pull id m _ _ _ Hw Ep) as G1.
  destruct ok; [|discriminate]. destruct (_ && _); [discriminate|].
  destruct (stop_phase (with_docker m d) id (st_ContainerID s)) as [m2 [u2|e2]] eqn:E2;
    [|apply (stop_phase_spec _ id s) in E2 as [_ [-> _]]; [discriminate|apply G1|exact Es]].
  destruct (stop_phase_clears _ id s m2 u2 (proj2 G1) Es E2) as (Hw2 & t & Et & Hct).
  set (spec := {| sp_ID := id; sp_Image := ImageRef mf; sp_PrevImage := _; sp_Env := _; sp_Permissions := _ |}) in E.
  pose proof (good_register id m2 spec Hw2 eq_refl) as G3. set (m3 := with_registry m2 _) in *.
  assert (m_registry m3 !! id = Some {| st_Spec := spec; st_ContainerID := ""; st_Running := st_Running t |}) as E3.
  { change (m_registry m3) with (Register (m_registry m2) spec). rewrite Register_lookup, decide_True by reflexivity.
    cbn [sp_ID spec]. rewrite Et, Hct. reflexivity. }
  destruct (doStart cfg m3 id) as [m4 [u4|e4]] eqn:E4.
  - destruct (soakCheck _ _ _ _) as [[d5 [u5|e5]]|] eqn:E5; [discriminate| |discriminate].
    injection E as E%rollback_cause. subst e5. exact (soak_not_start _ _ _ _ _ E5).
  - injection E as E. pose proof (rollback_cause _ _ _ _ _ _ E) as <-.
    destruct (doStart_left m3 id _ m4 (proj2 G3) E3 E4) as (Hr4 & k & c & Ek & Hn). rewrite <- Hr4 in E3.
    exact (rollback_blocked m4 id _ _ _ k c E3 eq_refl Ek Hn _ _ E).
Qed.
End MoreFacts.

(** ** The exclusive handle keeps to its own container *)

Section ExclusiveFacts.
Context {D : Type} `{DockerLaws D} (cfg : ManagerConfig).

(** Between two states only containers labelled [id] changed: stopped, or one
    of them removed. *)
Definition owned_only (id : string) (d d' : D) : Prop :=
  (forall k c, containers d !! k = Some c -> ct_owner c <> id -> containers d' !! k = Some c) /\
  (forall k c', containers d' !! k = Some c' ->
     exists c, containers d !! k = Some c /\ (c' = c \/ (ct_owner c = id /\ exists b, c' = with_running b c))).

Lemma owned_refl id d : owned_only id d d.
Proof. split; eauto. Qed.

Lemma owned_trans id d1 d2 d3 : owned_only id d1 d2 -> owned_only id d2 d3 -> owned_only id d1 d3.
Proof.
  intros [A1 A2] [B1 B2]. split; [eauto|]. intros k c3 E3.
  destruct (B2 k c3 E3) as (c2 & E2 & H2), (A2 k c2 E2) as (c1 & E1 & H1). exists c1. split; [exact E1|].
  destruct H1 as [->|(Ho & b & ->)]; [exact H2|]. right. split; [exact Ho|].
  destruct H2 as [->|(_ & b2 & ->)]; [eauto|]. exists b2. reflexivity.
Qed.

Lemma owned_stop id d k c d' ok : containers d !! k = Some c -> ct_owner c = id -> ContainerStop d k = (d', ok) ->
  owned_only id d d' /\ exists c', containers d' !! k = Some c' /\ ct_owner c' = id.
Proof.
  intros Ek Ho [_ [[_ E]|(x & Ex & E)]]%stop_law; unfold owned_only; rewrite E; [split; [split; eauto|eauto]|].
  rewrite Ek in Ex. injection Ex as <-. split; [split|].
  - intros j y Ej Hy. rewrite lookup_insert_ne; [exact Ej|]. intros ->. congruence.
  - intros j y [[<- <-]|[_ Ej]]%lookup_insert_Some; eauto 8.
  - rewrite lookup_insert_eq. eauto.
Qed.

Lemma owned_remove id d k c d' ok : containers d !! k = Some c -> ct_owner c = id -> ContainerRemove d k = (d', ok) ->
  owned_only id d d' /\ (ok = true -> containers d' = delete k (containers d)).
Proof.
  intros Ek Ho [_ [[-> E]|(x & Ex & _ & E)]]%remove_law; unfold owned_only; rewrite E; [split; [split; eauto|discriminate]|].
  split; [split|reflexivity].
  - intros j y Ej Hy. rewrite lookup_delete_ne; [exact Ej|]. intros ->. congruence.
  - intros j y [_ Ej]%lookup_delete_Some. eauto.
Qed.

Definition ex_key (e : Exclusive) : string :=
  if String.eqb (ex_containerID e) "" then container_name (ex_id e) else ex_containerID e.

(** What a stop of the handle leaves, by its result. *)
Definition ex_stopped (m : Manager D) (e : Exclusive) (m' : Manager D) (e' : Exclusive) (r : result ex_error unit) : Prop :=
  owned_only (ex_id e) (m_docker m) (m_docker m') /\
  match r with
  | Ok _ => e' = {| ex_id := ex_id e; ex_containerID := "" |} /\ m_registry m' = SetRunning (m_registry m) (ex_id e) "" false /\
      containers (m_docker m') !! ex_key e = None /\
      (containers (m_docker m) !! ex_key e = None ->
       (forall k k' c c', containers (m_docker m) !! k = Some c -> containers (m_docker m) !! k' = Some c' -> ct_name c = ct_name c' -> k = k') ->
       forall k c, containers (m_docker m') !! k = Some c -> ct_name c <> ex_key e)
  | Err _ => ex_id e' = ex_id e /\ m_registry m' = m_registry m
  end.

Lemma ex_removed m e i c m1 d' r : let cid := i_ID i in
  containers (m_docker m) !! cid = Some c ->
  (ex_key e = cid \/ (containers (m_docker m) !! ex_key e = None /\ ex_key e = ct_name c)) ->
  owned_only (ex_id e) (m_docker m) (m_docker m1) -> m_registry m1 = m_registry m -> r = Ok tt ->
  containers d' = delete cid (containers (m_docker m1)) -> owned_only (ex_id e) (m_docker m1) d' ->
  ex_stopped m e (fst (forget (with_docker m1 d') {| ex_id := ex_id e; ex_containerID := cid |}))
    (snd (forget (with_docker m1 d') {| ex_id := ex_id e; ex_containerID := cid |})) r.
Proof.
  intros cid Ec Hkey Ho1 Hr1 -> Ed Ho2. split; [exact (owned_trans _ _ _ _ Ho1 Ho2)|]. cbn. rewrite Hr1, Ed. split; [reflexivity|]. split; [reflexivity|].
  assert (forall k x, containers (m_docker m1) !! k = Some x -> exists y, containers (m_docker m) !! k = Some y /\ ct_name y = ct_name x) as Hback.
  { intros k x Ex. destruct Ho1 as [_ Ho1]. destruct (Ho1 k x Ex) as (y & Ey & [->|(_ & b & ->)]); eauto. }
  split.
  - destruct Hkey as [->|[Hn _]]; [apply lookup_delete_eq|]. destruct (decide (ex_key e = cid)) as [->|Hne]; [apply lookup_delete_eq|].
    rewrite lookup_delete_ne by congruence. destruct (containers (m_docker m1) !! ex_key e) eqn:E; [|reflexivity].
    destruct (Hback _ _ E) as (y & Ey & _). congruence.
  - intros Hn Huniq k x [Hk Ex]%lookup_delete_Some Hx. destruct Hkey as [Hkey|[_ Hkey]]; [congruence|].
    destruct (Hback k x Ex) as (y & Ey & Hy). apply Hk. eapply Huniq; [exact Ec|exact Ey|congruence].
Qed.

(** Stopping the exclusive handle touches only a container labelled with its
    own connector: every other container, even one under the same name, stays
    as it was, and nothing is created.  A success means that the container it
    stands for is gone, found by its name when left over by a crash, and then
    no container of that name remains; every failure keeps the registry entry
    and the handle on its connector. *)
Theorem exclusive_stop_exact (m : Manager D) (e : Exclusive) m' e' r :
  ex_Stop m e = (m', e', r) -> ex_stopped m e m' e' r.
Proof.
  intros E. unfold ex_Stop in E. fold (ex_key e) in E. pose proof (inspect_law (m_docker m) (ex_key e)) as Hi.
  assert (forall x, (m, e, Err x) = (m', e', r) -> ex_stopped m e m' e' r) as Hsame
    by (intros x [= <- <- <-]; split; [apply owned_refl|auto]).
  destruct (ContainerInspect (m_docker m) (ex_key e)) as [| |[i|]]; [|apply (Hsame _ E)| |apply (Hsame _ E)].
  { injection E as <- <- <-. split; [apply owned_refl|]. cbn. split; [reflexivity|]. split; [reflexivity|]. split; [apply Hi|]. intros _ _. apply Hi. }
  destruct (i_Label i) as [l|] eqn:El; [|apply (Hsame _ E)]. destruct (String.eqb_spec l (ex_id e)) as [->|]; cbn [negb] in E; [|apply (Hsame _ E)].
  destruct (String.eqb (i_ID i) ""); [apply (Hsame _ E)|]. destruct Hi as (c & Ec & Hkey & _ & Hown). specialize (Hown _ eq_refl).
  assert (exists d1 stopped, match i_Running i with Some true => ContainerStop (m_docker m) (i_ID i) | _ => (m_docker m, true) end = (d1, stopped) /\
    owned_only (ex_id e) (m_docker m) d1 /\ exists c1, containers d1 !! i_ID i = Some c1 /\ ct_owner c1 = ex_id e) as (d1 & stopped & Es & Ho1 & c1 & Ec1 & Hc1).
  { destruct (i_Running i) as [[]|]; [|eexists _, _; split; [reflexivity|]; split; [apply owned_refl|eauto]..].
    destruct (ContainerStop (m_docker m) (i_ID i)) as [d1 ok] eqn:Es. eexists _, _. split; [reflexivity|]. eapply owned_stop; eauto. }
  rewrite Es in E. assert (forall x, (with_docker m d1, {| ex_id := ex_id e; ex_containerID := i_ID i |}, Err x) = (m', e', r) -> ex_stopped m e m' e' r) as Hst
    by (intros x [= <- <- <-]; split; [exact Ho1|auto]).
  destruct stopped; cbn [negb] in E; [|apply (Hst _ E)]. cbn [m_docker with_docker] in E.
  destruct (ContainerInspect d1 (i_ID i)) as [| |[i2|]]; [apply (Hst _ E)..| |apply (Hst _ E)].
  destruct (i_Running i2) as [[]|]; [apply (Hst _ E)| |apply (Hst _ E)].
  destruct (ContainerRemove d1 (i_ID i)) as [d2 ok] eqn:Er. destruct (owned_remove _ _ _ _ _ _ Ec1 Hc1 Er) as [Ho2 Hd2].
  destruct ok; injection E as <- <- <-; [|split; [exact (owned_trans _ _ _ _ Ho1 Ho2)|auto]].
  exact (ex_removed m e i c (with_docker m d1) d2 (Ok tt) Ec Hkey Ho1 eq_refl eq_refl (Hd2 eq_refl) Ho2).
Qed.

(** Starting the exclusive handle never loses track of what it made: a
    success runs the labelled container of its spec and records it; when the
    container was made but not started, the handle keeps its identity and the
    registry shows it as not running, so a later stop can remove exactly it;
    otherwise nothing is recorded.  Only containers of this connector are
    touched. *)
Theorem exclusive_start_exact (m : Manager D) (e : Exclusive) (s : ConnectorStatus) m' e' r :
  m_registry m !! ex_id e = Some s -> sp_ID (st_Spec s) = ex_id e -> ex_containerID e = "" ->
  ex_Start cfg m e = (m', e', r) ->
  touches (ex_id e) (m_docker m) (m_docker m') /\
  match r with
  | Ok _ => exists cid, e' = {| ex_id := ex_id e; ex_containerID := cid |} /\
      m_registry m' !! ex_id e = Some {| st_Spec := st_Spec s; st_ContainerID := cid; st_Running := true |} /\
      containers (m_docker m') !! cid = Some (with_running true (container_of cfg (st_Spec s) (ex_id e)))
  | Err ExStart => exists cid c, e' = {| ex_id := ex_id e; ex_containerID := cid |} /\
      m_registry m' !! ex_id e = Some {| st_Spec := st_Spec s; st_ContainerID := cid; st_Running := false |} /\
      containers (m_docker m') !! cid = Some c /\ ct_owner c = ex_id e /\ ct_name c = container_name (ex_id e)
  | Err _ => e' = e /\ m_registry m' = m_registry m
  end.
Proof.
  intros Es Hid He E. unfold ex_Start in E. rewrite He, Es in E. cbn [String.eqb negb] in E.
  destruct (createWithLabels cfg (m_docker m) (st_Spec s) (ex_id e)) as [d1 o] eqn:E1.
  pose proof (touches_create cfg _ _ _ _ _ E1) as T1. rewrite Hid in T1. destruct o as [cid|]; [|injection E as <- <- <-; split; [exact T1|auto]].
  apply create_law in E1 as [(E0 & _)|(k & [Ek|Ek] & _ & _ & _ & Hc)]; [discriminate| |discriminate]. injection Ek as <-.
  assert (containers d1 !! cid = Some (with_running false (container_of cfg (st_Spec s) (ex_id e)))) as Hcid by (rewrite Hc; apply lookup_insert_eq).
  cbn [m_docker with_docker with_registry ex_id] in E. destruct (ContainerStart d1 cid) as [d2 ok] eqn:E2.
  pose proof (touches_start (ex_id e) _ _ _ _ E2 ltac:(intros c Ec; rewrite Hcid in Ec; injection Ec as <-; cbn; rewrite Hid; reflexivity)) as T2.
  apply start_law in E2 as [_ Hs]. cbn [m_registry with_docker with_registry] in E.
  destruct ok; injection E as <- <- <-; (split; [exact (touches_trans _ _ _ _ T1 T2)|]); exists cid.
  - destruct Hs as [[E0 _]|(c & Ec & Hd)]; [discriminate|]. rewrite Hcid in Ec. injection Ec as <-. split; [reflexivity|]. cbn.
    rewrite !SetRunning_lookup, !decide_True, Es by reflexivity. split; [reflexivity|]. rewrite Hd. apply lookup_insert_eq.
  - assert (exists b, containers d2 !! cid = Some (with_running b (container_of cfg (st_Spec s) (ex_id e)))) as [b Hb].
    { destruct Hs as [[_ ->]|(c & Ec & ->)]; [eauto|]. rewrite Hcid in Ec. injection Ec as <-. exists true. apply lookup_insert_eq. }
    eexists. split; [reflexivity|]. cbn. rewrite SetRunning_lookup, decide_True, Es by reflexivity. split; [reflexivity|]. split; [exact Hb|].
    cbn. rewrite Hid. auto.
Qed.
End ExclusiveFacts.

(** ** Examples *)

Module LifecycleExample.

(** A daemon where images listed as bad fail to start. *)
Record fake := { f_cs : gmap string container; f_used : gset string; f_bad : gset string }.

Definition cs (d : fake) : gmap string container := delete "" (f_cs d).
Definition ids (d : fake) : gset string := (dom (f_cs d) ∪ f_used d) ∖ {[""]}.
Fixpoint xs (n : nat) : string := match n with O => "" | S k => String "x" (xs k) end.
Definition next_id (d : fake) : string := xs (S (max_list (map String.length (elements (ids d))))).
Definition set_cs (d : fake) (m : gmap string container) : fake := {| f_cs := m; f_used := ids d; f_bad := f_bad d |}.
Definition by_name (d : fake) (n : string) : option (string * container) :=
  List.find (fun kc => String.eqb (ct_name (snd kc)) n) (map_to_list (cs d)).
Definition alter_ct (d : fake) (k : string) (f : container -> option container) : fake * bool :=
  match cs d !! k with
  | Some c => match f c with Some c' => (set_cs d (<[k := c']> (cs d)), true) | None => (d, false) end
  | None => (d, false)
  end.
Definition info_of (k : string) (c : container) : info := {| i_ID := k; i_Running := Some (ct_running c); i_Label := Some (ct_owner c) |}.

#[export] Instance fake_docker : Docker fake := {|
  ContainerCreate d c :=
    match by_name d (ct_name c) with
    | Some _ => (d, None)
    | None => (set_cs d (<[next_id d := with_running false c]> (cs d)), Some (next_id d))
    end;
  ContainerStart d k := alter_ct d k (fun c => if decide (ct_image c ∈ f_bad d) then None else Some (with_running true c));
  ContainerStop d k := alter_ct d k (fun c => Some (with_running false c));
  ContainerRemove d k :=
    match cs d !! k with
    | Some c => if ct_running c then (d, false) else (set_cs d (delete k (cs d)), true)
    | None => (d, false)
    end;
  ContainerInspect d k :=
    match cs d !! k with
    | Some c => Found (Some (info_of k c))
    | None => match by_name d k with Some (i, c) => Found (Some (info_of i c)) | None => Missing end
    end;
  ImagePull d ref := (d, true);
  ImageInspect d ref := false
|}.

Lemma xs_length n : String.length (xs n) = n.
Proof. induction n as [|n IH]; cbn; congruence. Qed.

Lemma next_fresh d : (next_id d ∉ ids d) /\ next_id d <> "".
Proof.
  split; [|discriminate]. intros Hin%elem_of_elements. unfold next_id in Hin.
  assert (In (String.length (xs (S (max_list (map String.length (elements (ids d))))))) (map String.length (elements (ids d)))) as Hl
    by (apply in_map, list_elem_of_In; exact Hin).
  rewrite xs_length in Hl. apply list_elem_of_In, max_list_elem_of_le in Hl. lia.
Qed.

Lemma set_cs_view d m : m !! "" = None -> cs (set_cs d m) = m.
Proof. intros Hm. apply delete_id. exact Hm. Qed.
Lemma cs_empty d : cs d !! "" = None.
Proof. apply lookup_delete_eq. Qed.
Lemma ids_dom d : dom (cs d) ⊆ ids d.
Proof. unfold cs, ids. rewrite dom_delete_L. set_solver. Qed.
Lemma ids_set d m : dom m ⊆ ids d -> ids (set_cs d m) = ids d.
Proof. intros Hm. unfold ids at 1. cbn. unfold ids in *. set_solver. Qed.

Lemma by_name_spec d n : match by_name d n with
  | Some (k, c) => cs d !! k = Some c /\ ct_name c = n
  | None => forall k c, cs d !! k = Some c -> ct_name c <> n
  end.
Proof.
  unfold by_name. destruct (List.find _ _) as [[k c]|] eqn:E.
  - apply find_some in E as [Hin Hn]. split; [apply elem_of_map_to_list, list_elem_of_In; exact Hin|apply String.eqb_eq; exact Hn].
  - intros k c Ek Hn. apply elem_of_map_to_list, list_elem_of_In in Ek. apply (find_none _ _ E) in Ek. cbn in Ek.
    apply String.eqb_neq in Ek. contradiction.
Qed.

Lemma alter_ct_spec d k f d' ok : alter_ct d k f = (d', ok) -> (forall c c', f c = Some c' -> exists b, c' = with_running b c) ->
  ids d' = ids d /\ ((ok = false /\ cs d' = cs d) \/ (exists c c', cs d !! k = Some c /\ f c = Some c' /\ cs d' = <[k := c']> (cs d))).
Proof.
  unfold alter_ct. intros E Hf. destruct (cs d !! k) as [c|] eqn:Ek; [|injection E as <- <-; auto].
  destruct (f c) as [c'|] eqn:Ef; injection E as <- <-; [|auto].
  assert (k <> "") as Hk by (intros ->; rewrite cs_empty in Ek; discriminate). split.
  - apply ids_set. rewrite dom_insert_L. pose proof (ids_dom d). apply elem_of_dom_2 in Ek. set_solver.
  - right. exists c, c'. split; [reflexivity|]. split; [exact Ef|]. apply set_cs_view. rewrite lookup_insert_ne by exact Hk. apply cs_empty.
Qed.

#[export] Instance fake_laws : DockerLaws fake.
Proof.
  refine {| containers := cs; used := ids |}; [apply ids_dom|intros d; unfold ids; set_solver|..].
  - intros d c d' o E. cbn in E. pose proof (by_name_spec d (ct_name c)) as Hn. destruct (by_name d (ct_name c)) as [p|]; injection E as <- <-; [auto|].
    destruct (next_fresh d) as [Hf Hne]. right. exists (next_id d). split; [auto|]. split; [exact Hf|]. split; [|split; [exact Hn|]].
    + unfold ids at 1. cbn. rewrite dom_insert_L. pose proof (ids_dom d). assert ("" ∉ ids d) by (unfold ids; set_solver). set_solver.
    + apply set_cs_view. rewrite lookup_insert_ne by exact Hne. apply cs_empty.
  - intros d k d' ok E. apply alter_ct_spec in E as [H1 H2]; [|intros c c'; destruct (decide _); intros [= <-]; eauto].
    split; [exact H1|]. destruct H2 as [H2|(c & c' & Ek & Ef & H2)]; [auto|]. destruct (decide _); [discriminate|]. injection Ef as <-. eauto.
  - intros d k d' ok E. apply alter_ct_spec in E as [H1 H2]; [|intros c c' [= <-]; eauto].
    split; [exact H1|]. destruct H2 as [H2|(c & c' & Ek & [= <-] & H2)]; eauto.
  - intros d k d' ok E. cbn in E. destruct (cs d !! k) as [c|] eqn:Ek; [|injection E as <- <-; auto].
    destruct (ct_running c) eqn:Er; injection E as <- <-; [auto|]. split.
    + apply ids_set. rewrite dom_delete_L. pose proof (ids_dom d). set_solver.
    + right. exists c. split; [reflexivity|]. split; [exact Er|]. apply set_cs_view. rewrite lookup_delete_None. right. apply cs_empty.
  - intros d key. cbn. destruct (cs d !! key) as [c|] eqn:Ek.
    + exists c. split; [exact Ek|]. split; [auto|]. split; intros x [= <-]; reflexivity.
    + pose proof (by_name_spec d key) as Hn. destruct (by_name d key) as [[k c]|]; [|auto]. destruct Hn as [Ec <-].
      exists c. split; [exact Ec|]. split; [auto|]. split; intros x [= <-]; reflexivity.
  - intros d ref d' ok [= <- <-]. auto.
Defined.

Definition cfg0 : ManagerConfig := {| NATSURL := "nats://nats:4222"; ConnectorNetwork := "" |}.
Definition old_spec : ConnectorSpec :=
  {| sp_ID := "mqtt"; sp_Image := "ghcr.io/g/mqtt@sha256:old"; sp_PrevImage := ""; sp_Env := ["A=1"]; sp_Permissions := {| Network := []; Mounts := [] |} |}.
Definition up_entry (spec : ConnectorSpec) (cid : string) : ConnectorStatus := {| st_Spec := spec; st_ContainerID := cid; st_Running := true |}.
Definition clock_spec : ConnectorSpec :=
  {| sp_ID := "bacnet"; sp_Image := "b"; sp_PrevImage := ""; sp_Env := []; sp_Permissions := {| Network := []; Mounts := [] |} |}.
Definition d0 (bad : gset string) : fake :=
  {| f_cs := <["a" := with_running true (container_of cfg0 old_spec "")]> {["b" := with_running true (container_of cfg0 clock_spec "bacnet")]};
     f_used := {["a"; "b"]}; f_bad := bad |}.
Definition m0 (bad : gset string) : Manager fake :=
  {| m_docker := d0 bad; m_registry := <["mqtt" := up_entry old_spec "a"]> {["bacnet" := up_entry clock_spec "b"]}; m_reserved := {["bacnet"]} |}.

Lemma m0_wf bad : wf (m0 bad).
Proof.
  intros id s E. cbn in E. apply lookup_insert_Some in E as [[<- <-]|[_ E]].
  - split; [reflexivity|]. split; [right; apply elem_of_difference; split; [cbn; set_solver|set_solver]|].
    intros c [= <-]. reflexivity.
  - apply lookup_singleton_Some in E as [<- <-]. split; [reflexivity|].
    split; [right; apply elem_of_difference; split; [cbn; set_solver|set_solver]|]. intros c [= <-]. reflexivity.
Qed.

Definition manifest1 : Manifest :=
  {| mf_Name := "mqtt"; mf_Version := "2"; mf_Image := "ghcr.io/g/mqtt"; mf_Digest := "sha256:0123456789abcdef0123456789abcdef0123456789abcdef0123456789abcdef";
     MinGatewayVersion := "0.1.0"; mf_Permissions := {| Network := []; Mounts := ["/etc/ssl"] |}; SignatureRequired := true |}.
Definition good_poll (past : bool) : poll fake := {| po_env := fun d => d; po_past := past; po_done := false |}.
Definition crash_env (d : fake) : fake := fst (ContainerStop d "x").
Definition verify_all (ref : string) : bool := true.
Definition run_update (bad : gset string) (polls : list (poll fake)) :=
  Update cfg0 verify_all ["ghcr.io"] "0.2.0" (m0 bad) "mqtt" manifest1 1000 polls.

Lemma good_polls_exit l : Forall (fun p => exits "mqtt" (po_env p)) (map good_poll l).
Proof. apply List.Forall_forall. intros p [b [<- _]]%in_map_iff d. split; [reflexivity|]. intros k. left. reflexivity. Qed.

Lemma Update_exact_witness :
  exists m', run_update ∅ [good_poll false; good_poll true] = Some (m', Ok tt) /\
    exists cid, m_registry m' !! "mqtt" = Some (up_entry {| sp_ID := "mqtt"; sp_Image := ImageRef manifest1; sp_PrevImage := sp_Image old_spec;
      sp_Env := ["A=1"]; sp_Permissions := mf_Permissions manifest1 |} cid).
Proof.
  destruct (run_update ∅ [good_poll false; good_poll true]) as [[m' r]|] eqn:E; [|vm_compute in E; discriminate E].
  assert (r = Ok tt) as ->.
  { change r with (match Some (m', r) with Some (_, x) => x | None => r end). rewrite <- E. vm_compute. reflexivity. }
  destruct (Update_exact cfg0 verify_all ["ghcr.io"] "0.2.0" (m0 ∅) "mqtt" manifest1 1000 _ (up_entry old_spec "a") m' (Ok tt)
    (m0_wf ∅) (good_polls_exit [false; true]) eq_refl E) as ([[_ Hd]|[_ (cid & c & Hr & _)]] & _).
  - vm_compute in Hd. discriminate Hd.
  - exists m'. split; [reflexivity|]. exists cid. exact Hr.
Defined.

Lemma connectors_isolated_witness :
  exists m', run_ops cfg0 verify_all ["ghcr.io"] "0.2.0" (m0 ∅) [OpStop "bacnet"; OpStop "mqtt"; OpRestart "bacnet"] = Some m' /\
    m_registry m' !! "bacnet" = Some (up_entry clock_spec "b") /\
    cs (m_docker m') !! "b" = Some (with_running true (container_of cfg0 clock_spec "bacnet")).
Proof.
  destruct (run_ops cfg0 verify_all ["ghcr.io"] "0.2.0" (m0 ∅) [OpStop "bacnet"; OpStop "mqtt"; OpRestart "bacnet"]) as [m'|] eqn:E;
    [|vm_compute in E; discriminate E].
  destruct (connectors_isolated cfg0 verify_all ["ghcr.io"] "0.2.0" [OpStop "bacnet"; OpStop "mqtt"; OpRestart "bacnet"] (m0 ∅) m' "bacnet"
    (m0_wf ∅)) as (_ & _ & Hr & Hc); [repeat constructor|exact E|left; cbn; set_solver|].
  exists m'. split; [reflexivity|]. split; [rewrite Hr; reflexivity|]. apply Hc; reflexivity.
Defined.

Definition handle (cid : string) : Exclusive := {| ex_id := "bacnet"; ex_containerID := cid |}.

Lemma exclusive_stop_exact_witness :
  exists m', ex_Stop (m0 ∅) (handle "") = (m', handle "", Ok tt) /\ cs (m_docker m') !! "nexus-bacnet" = None.
Proof.
  destruct (ex_Stop (m0 ∅) (handle "")) as [[m' e'] r] eqn:E.
  assert (e' = handle "" /\ r = Ok tt) as [-> ->].
  { change e' with (snd (fst (m', e', r))). change r with (snd (m', e', r)) at 2. rewrite <- E. vm_compute. auto. }
  destruct (exclusive_stop_exact (m0 ∅) (handle "") m' (handle "") (Ok tt) E) as (_ & _ & _ & Hn & _). exists m'. auto.
Defined.

Definition idle : Manager fake := let '(m, _, _) := ex_Stop (m0 {["b"]}) (handle "") in m.

Lemma exclusive_start_exact_witness :
  exists m' cid c, ex_Start cfg0 idle (handle "") = (m', handle cid, Err ExStart) /\ cs (m_docker m') !! cid = Some c /\ ct_owner c = "bacnet".
Proof.
  destruct (ex_Start cfg0 idle (handle "")) as [[m' e'] r] eqn:E.
  assert (r = Err ExStart) as ->. { change r with (snd (m', e', r)). rewrite <- E. vm_compute. reflexivity. }
  assert (m_registry idle !! "bacnet" = Some {| st_Spec := clock_spec; st_ContainerID := ""; st_Running := false |}) as Hr by (vm_compute; reflexivity).
  destruct (exclusive_start_exact cfg0 idle (handle "") _ m' e' (Err ExStart) Hr eq_refl eq_refl E) as (_ & cid & c & -> & _ & Hc & Ho & _).
  exists m', cid, c. auto.
Defined.

Lemma stopped_cannot_start_witness :
  exists m1, Stop (m0 ∅) "mqtt" = (m1, Ok tt) /\ snd (Start cfg0 m1 "mqtt") = Err CreateFailed.
Proof.
  destruct (Stop (m0 ∅) "mqtt") as [m1 r] eqn:E.
  assert (r = Ok tt) as ->. { change r with (snd (m1, r)). rewrite <- E. vm_compute. reflexivity. }
  exists m1. split; [reflexivity|]. apply (stopped_cannot_start cfg0 (m0 ∅) m1 "mqtt" (up_entry old_spec "a") (m0_wf ∅) eq_refl); [discriminate|exact E].
Defined.

End LifecycleExample.
