(* ===== verification/RunLedger.v ===== *)
(** * The run ledger

    [src/internal/runcontext/context.go]: run contexts issued to a receiver, and
    the durable ledger that commits, applies and invalidates them and judges
    acquisition intervals.  Disk writes succeed, fail before the rename, or fail
    after it; times are instants with a whole-minute zone offset whose text form
    is an interface.  The theorems show that the ledger survives crashes and
    reopening, that generations never go back or fork, that an invalidated run
    stays invalid for good, and when an interval is judged valid. *)

From Stdlib Require Import ZArith Lia Bool Ascii String List.
From stdpp Require Import base list strings gmap.
From S2P Require Import Prelude Json GoText Float Encoding Provisioning.
#[local] Open Scope string_scope.
#[local] Open Scope list_scope.
#[local] Open Scope Z_scope.

(** ** Times *)

(** Nanoseconds since the zero time, and the zone offset in minutes. *)
Record instant := { t_ns : Z; t_off : Z }.
Definition zero_time : instant := {| t_ns := 0; t_off := 0 |}.
Definition IsZero (t : instant) : bool := t_ns t =? 0.
Definition before (a b : instant) : bool := t_ns a <? t_ns b.

(** RFC 3339 text: [MarshalJSON] without the quotes (an error outside the years
    it can write) and [UnmarshalJSON]. *)
Class GoTime := { time_text : instant -> option string; time_parse : string -> option instant }.
Class GoTimeLaws `{GoTime} : Prop := {
  time_roundtrip : forall t s, time_text t = Some s -> time_parse s = Some t /\ valid_utf8 s = true;
  time_parsed : forall s t, time_parse s = Some t -> is_Some (time_text t);
  time_zero : is_Some (time_text zero_time)
}.

(** ** Contexts *)

Definition schema : string := "clock-run-context/2-draft".
Definition ledgerVersion : Z := 2.

Record Scope := { sc_GatewayID : string; sc_ClockID : string }.
#[export] Instance Scope_eq_dec : EqDecision Scope.
Proof. solve_decision. Defined.

Record Context := {
  SchemaVersion : string; cx_GatewayID : string; cx_ClockID : string; ProvisioningRevision : string; RunID : string;
  Generation : Z; cx_Status : string; IssuedAt : instant; ValidFrom : instant; ExpiresAt : instant
}.

Inductive ledger_error :=
| InvalidScope | DiskError | DecodeError | ScopeMismatch | InvalidCommit | InvalidApply | OrphanReceipts | PayloadTooLarge
| ContractError | NotUTC | NeedsRecovery | OutsideLifetime | NotGenerationOne | GenerationRollback | GenerationConflict
| ApplyBoundary | UnknownRun | HistoryUnavailable | UncommittedReset | NotReady.

Section Ledger.
Context `{GoTime}.

(** A time field: a string; null leaves it. *)
Definition decode_time (cur : instant) (v : json) : option instant :=
  match v with JNull => Some cur | JStr s => time_parse s | _ => None end.

Definition context_names : list string :=
  ["schemaVersion"; "gatewayId"; "clockId"; "provisioningRevision"; "runId"; "generation"; "status"; "issuedAt"; "validFrom"; "expiresAt"].

Definition context_set (f : string) (v : json) (c : Context) : option Context :=
  if String.eqb f "schemaVersion" then option_map (fun s => {| c with SchemaVersion := s |}) (decode_str (SchemaVersion c) v)
  else if String.eqb f "gatewayId" then option_map (fun s => {| c with cx_GatewayID := s |}) (decode_str (cx_GatewayID c) v)
  else if String.eqb f "clockId" then option_map (fun s => {| c with cx_ClockID := s |}) (decode_str (cx_ClockID c) v)
  else if String.eqb f "provisioningRevision" then
    option_map (fun s => {| c with ProvisioningRevision := s |}) (decode_str (ProvisioningRevision c) v)
  else if String.eqb f "runId" then option_map (fun s => {| c with RunID := s |}) (decode_str (RunID c) v)
  else if String.eqb f "generation" then
    option_map (fun z => {| c with Generation := z |}) (decode_int 0 (2 ^ 64 - 1) (Generation c) v)
  else if String.eqb f "status" then option_map (fun s => {| c with cx_Status := s |}) (decode_str (cx_Status c) v)
  else if String.eqb f "issuedAt" then option_map (fun t => {| c with IssuedAt := t |}) (decode_time (IssuedAt c) v)
  else if String.eqb f "validFrom" then option_map (fun t => {| c with ValidFrom := t |}) (decode_time (ValidFrom c) v)
  else if String.eqb f "expiresAt" then option_map (fun t => {| c with ExpiresAt := t |}) (decode_time (ExpiresAt c) v)
  else Some c.

Definition zero_context : Context :=
  {| SchemaVersion := ""; cx_GatewayID := ""; cx_ClockID := ""; ProvisioningRevision := ""; RunID := ""; Generation := 0;
     cx_Status := ""; IssuedAt := zero_time; ValidFrom := zero_time; ExpiresAt := zero_time |}.

(** [decode]: the whole input is one value without unknown fields. *)
Definition decode_context (raw : string) : option Context :=
  match parse raw with
  | Some v => decode_struct true context_names context_set zero_context v
  | None => None
  end.

(** [json.Marshal] of a context. *)
Definition context_text (c : Context) : option string :=
  match time_text (IssuedAt c), time_text (ValidFrom c), time_text (ExpiresAt c) with
  | Some a, Some b, Some e =>
    Some (marshal (JObj [("schemaVersion", JStr (SchemaVersion c)); ("gatewayId", JStr (cx_GatewayID c));
      ("clockId", JStr (cx_ClockID c)); ("provisioningRevision", JStr (ProvisioningRevision c)); ("runId", JStr (RunID c));
      ("generation", JNum (itoa (Generation c))); ("status", JStr (cx_Status c)); ("issuedAt", JStr a); ("validFrom", JStr b);
      ("expiresAt", JStr e)]))
  | _, _, _ => None
  end.

Definition contract_ok (scope : Scope) (c : Context) : bool :=
  String.eqb (SchemaVersion c) schema && String.eqb (cx_GatewayID c) (sc_GatewayID scope)
  && String.eqb (cx_ClockID c) (sc_ClockID scope) && negb (String.eqb (RunID c) "")
  && negb (String.eqb (ProvisioningRevision c) "") && (1 <=? Generation c) && (Generation c <=? 9007199254740991)
  && (String.eqb (cx_Status c) "active" || String.eqb (cx_Status c) "revoked") && negb (IsZero (IssuedAt c))
  && negb (before (ValidFrom c) (IssuedAt c)) && before (ValidFrom c) (ExpiresAt c).

Definition verify (scope : Scope) (payload : string) : result ledger_error Context :=
  if 65536 <? Z.of_nat (String.length payload) then Err PayloadTooLarge
  else
    match decode_context payload with
    | None => Err DecodeError
    | Some c =>
      if negb (contract_ok scope c) then Err ContractError
      else if negb (forallb (fun t => t_off t =? 0) [IssuedAt c; ValidFrom c; ExpiresAt c]) then Err NotUTC
      else Ok c
    end.

(** ** The persisted state *)

Record lstate := {
  InvalidRuns : option (gmap string bool); Version : Z; ls_Scope : Scope; ls_Envelope : option string;
  CommittedAt : instant; AppliedAt : option instant
}.

Definition scope_set (f : string) (v : json) (s : Scope) : option Scope :=
  if String.eqb f "gatewayId" then option_map (fun x => {| s with sc_GatewayID := x |}) (decode_str (sc_GatewayID s) v)
  else if String.eqb f "clockId" then option_map (fun x => {| s with sc_ClockID := x |}) (decode_str (sc_ClockID s) v)
  else Some s.

Definition envelope_dec (cur : string) (v : json) : option string :=
  decode_struct true ["payload"] (fun _ v _ => decode_bytes v) cur v.

Definition state_names : list string := ["invalidRuns"; "version"; "scope"; "envelope"; "committedAt"; "appliedAt"].

Definition state_set (f : string) (v : json) (d : lstate) : option lstate :=
  if String.eqb f "invalidRuns" then option_map (fun m => {| d with InvalidRuns := m |}) (decode_bool_map (InvalidRuns d) v)
  else if String.eqb f "version" then option_map (fun z => {| d with Version := z |}) (decode_int (- 2 ^ 63) (2 ^ 63 - 1) (Version d) v)
  else if String.eqb f "scope" then
    option_map (fun s => {| d with ls_Scope := s |}) (decode_struct true ["gatewayId"; "clockId"] scope_set (ls_Scope d) v)
  else if String.eqb f "envelope" then option_map (fun e => {| d with ls_Envelope := e |}) (decode_ptr envelope_dec "" (ls_Envelope d) v)
  else if String.eqb f "committedAt" then option_map (fun t => {| d with CommittedAt := t |}) (decode_time (CommittedAt d) v)
  else if String.eqb f "appliedAt" then
    option_map (fun t => {| d with AppliedAt := t |}) (decode_ptr decode_time zero_time (AppliedAt d) v)
  else Some d.

Definition zero_state : lstate :=
  {| InvalidRuns := None; Version := 0; ls_Scope := {| sc_GatewayID := ""; sc_ClockID := "" |}; ls_Envelope := None;
     CommittedAt := zero_time; AppliedAt := None |}.

Definition decode_state (raw : string) : option lstate :=
  match parse raw with
  | Some v => decode_struct true state_names state_set zero_state v
  | None => None
  end.

Definition opt_time_json (t : option instant) : option json :=
  match t with None => Some JNull | Some t => option_map JStr (time_text t) end.

(** [json.Marshal] of the state. *)
Definition state_text (d : lstate) : option string :=
  match time_text (CommittedAt d), opt_time_json (AppliedAt d) with
  | Some c, Some a =>
    Some (marshal (JObj [("invalidRuns", bool_map_json (InvalidRuns d)); ("version", JNum (itoa (Version d)));
      ("scope", JObj [("gatewayId", JStr (sc_GatewayID (ls_Scope d))); ("clockId", JStr (sc_ClockID (ls_Scope d)))]);
      ("envelope", match ls_Envelope d with None => JNull | Some p => JObj [("payload", JStr (b64_encode p))] end);
      ("committedAt", JStr c); ("appliedAt", a)]))
  | _, _ => None
  end.

(** ** The ledger *)

Record Ledger := { failed : bool; data : lstate; context : option Context }.

(** The ledger and its file. *)
Record store := { ledger : Ledger; file : string }.

(** Writing the file: it succeeds; it fails with the old file in place; or it
    fails, syncing the directory, with the new one in place. *)
Inductive disk := DiskOk | DiskBefore | DiskAfter.

Definition with_ledger (s : store) (l : Ledger) : store := {| ledger := l; file := file s |}.
Definition fail_stop (l : Ledger) : Ledger := {| l with failed := true |}.

Definition persist (s : store) (next : lstate) (w : disk) : store * result ledger_error unit :=
  let l := ledger s in
  match state_text next with
  | None => (with_ledger s (fail_stop l), Err DiskError)
  | Some raw =>
    match w with
    | DiskOk => ({| ledger := {| l with data := next |}; file := raw |}, Ok tt)
    | DiskBefore => (with_ledger s (fail_stop l), Err DiskError)
    | DiskAfter => ({| ledger := fail_stop l; file := raw |}, Err DiskError)
    end
  end.

(** [Initialize], once its new file is written. *)
Definition Initialize (scope : Scope) : result ledger_error store :=
  if String.eqb (sc_GatewayID scope) "" || String.eqb (sc_ClockID scope) "" then Err InvalidScope
  else
    let d := {| InvalidRuns := Some ∅; Version := ledgerVersion; ls_Scope := scope; ls_Envelope := None;
                CommittedAt := zero_time; AppliedAt := None |} in
    match state_text d with
    | Some raw => Ok {| ledger := {| failed := false; data := d; context := None |}; file := raw |}
    | None => Err DiskError
    end.

Definition Open (raw : string) (scope : Scope) : result ledger_error Ledger :=
  match decode_state raw with
  | None => Err DecodeError
  | Some d =>
    if match InvalidRuns d with None => true | _ => false end || negb (Version d =? ledgerVersion)
       || negb (bool_decide (ls_Scope d = scope)) then Err ScopeMismatch
    else
      match ls_Envelope d with
      | Some p =>
        match verify (ls_Scope d) p with
        | Err e => Err e
        | Ok c =>
          if before (CommittedAt d) (IssuedAt c) || negb (before (CommittedAt d) (ExpiresAt c)) then Err InvalidCommit
          else if match AppliedAt d with
                  | Some a => before a (CommittedAt d) || negb (before a (ExpiresAt c))
                  | None => false
                  end then Err InvalidApply
          else Ok {| failed := false; data := d; context := Some c |}
        end
      | None =>
        if negb (IsZero (CommittedAt d)) || match AppliedAt d with Some _ => true | None => false end then Err OrphanReceipts
        else Ok {| failed := false; data := d; context := None |}
      end
  end.

Definition add_run (runs : option (gmap string bool)) (id : string) : option (gmap string bool) :=
  Some (<[id := true]> (default ∅ runs)).

(** The state a commit writes. *)
Definition committed (d : lstate) (payload : string) (c : Context) (at_ : instant) : lstate :=
  {| InvalidRuns := if String.eqb (cx_Status c) "revoked" then add_run (InvalidRuns d) (RunID c) else InvalidRuns d;
     Version := Version d; ls_Scope := ls_Scope d; ls_Envelope := Some payload; CommittedAt := at_; AppliedAt := None |}.

Definition with_context (s : store) (c : Context) : store :=
  let l := ledger s in with_ledger s {| l with context := Some c |}.

Definition Commit (s : store) (payload : string) (at_ : instant) (w : disk) : store * result ledger_error unit :=
  let l := ledger s in
  if failed l then (s, Err NeedsRecovery)
  else
    match verify (ls_Scope (data l)) payload with
    | Err e => (s, Err e)
    | Ok c =>
      if before at_ (IssuedAt c) || negb (before at_ (ExpiresAt c)) then (s, Err OutsideLifetime)
      else
        let go := match persist s (committed (data l) payload c at_) w with
                  | (s, Err e) => (s, Err e)
                  | (s, Ok _) => (with_context s c, Ok tt)
                  end in
        match context l with
        | None => if negb (Generation c =? 1) then (s, Err NotGenerationOne) else go
        | Some old =>
          if Generation c <? Generation old then (s, Err GenerationRollback)
          else if Generation c =? Generation old then
            if bool_decide (context_text old = context_text c) then (s, Ok tt) else (s, Err GenerationConflict)
          else go
        end
    end.

Definition Apply (s : store) (at_ : instant) (w : disk) : store * result ledger_error unit :=
  let l := ledger s in
  if failed l then (s, Err NeedsRecovery)
  else
    match context l with
    | None => (s, Err ApplyBoundary)
    | Some c =>
      if before at_ (CommittedAt (data l)) || negb (before at_ (ExpiresAt c)) then (s, Err ApplyBoundary)
      else
        match AppliedAt (data l) with
        | Some _ => (s, Ok tt)
        | None => let d := data l in persist s {| d with AppliedAt := Some at_ |} w
        end
    end.

Inductive verdict := Absent | Unverified (reason : string) | Invalid (reason : string) | Valid (run : string) (generation : Z).

Definition run_invalid (d : lstate) (id : string) : bool := default false (default ∅ (InvalidRuns d) !! id).

Definition Evaluate (l : Ledger) (revision : string) (start end_ : instant) : verdict :=
  if failed l then Unverified "generation_history_unavailable"
  else
    match context l with
    | None => Absent
    | Some c =>
      if before end_ start then Invalid "invalid_acquisition_interval"
      else if negb (String.eqb (ProvisioningRevision c) revision) then Invalid "revision_mismatch"
      else if String.eqb (cx_Status c) "revoked" then Invalid "revoked"
      else if before start (ValidFrom c) then Invalid "not_yet_valid"
      else if negb (before end_ (ExpiresAt c)) then Invalid "expired"
      else
        match AppliedAt (data l) with
        | None => Unverified "context_not_applied"
        | Some a =>
          if before start a then Invalid "context_not_active_at_start"
          else if run_invalid (data l) (RunID c) then Invalid "reset_detected"
          else Valid (RunID c) (Generation c)
        end
    end.

Definition invalidated (d : lstate) (id : string) : lstate := {| d with InvalidRuns := add_run (InvalidRuns d) id |}.

Definition InvalidateRun (s : store) (id : string) (w : disk) : store * result ledger_error unit :=
  let l := ledger s in
  if failed l then (s, Err NeedsRecovery)
  else if match context l with Some c => negb (String.eqb id (RunID c)) | None => true end then (s, Err UnknownRun)
  else persist s (invalidated (data l) id) w.

Definition InvalidateContext (s : store) (payload : string) (w : disk) : store * result ledger_error unit :=
  let l := ledger s in
  match failed l, context l with
  | false, Some cur =>
    match verify (ls_Scope (data l)) payload with
    | Err e => (s, Err e)
    | Ok c =>
      if Generation cur <? Generation c then (s, Err UncommittedReset)
      else persist s (invalidated (data l) (RunID c)) w
    end
  | _, _ => (s, Err HistoryUnavailable)
  end.

(** [Archive]: what it writes to the session's new file. *)
Definition Archive (l : Ledger) (appliedAt : instant) : result ledger_error string :=
  match failed l, context l, AppliedAt (data l) with
  | false, Some c, Some _ =>
    if before appliedAt (CommittedAt (data l)) || negb (before appliedAt (ExpiresAt c)) then Err NotReady
    else
      let d := data l in
      match state_text {| d with AppliedAt := Some appliedAt |} with
      | Some raw => Ok raw
      | None => Err DiskError
      end
  | _, _, _ => Err NotReady
  end.

Definition Current (l : Ledger) : result ledger_error Context :=
  match failed l, context l with false, Some c => Ok c | _, _ => Err HistoryUnavailable end.

Definition Invalidated (l : Ledger) (id : string) : result ledger_error bool :=
  if failed l then Err NeedsRecovery else Ok (run_invalid (data l) id).

Definition CurrentEnvelope (l : Ledger) : result ledger_error string :=
  match failed l, ls_Envelope (data l) with false, Some p => Ok p | _, _ => Err HistoryUnavailable end.

Definition ReceiverTimes (l : Ledger) : result ledger_error (instant * option instant) :=
  match failed l, context l with
  | false, Some _ => Ok (CommittedAt (data l), AppliedAt (data l))
  | _, _ => Err HistoryUnavailable
  end.
End Ledger.

(** ** The state reads back *)

Section Facts.
Context `{GoTimeLaws}.

Definition runs_valid (runs : option (gmap string bool)) : Prop :=
  forall m k, runs = Some m -> is_Some (m !! k) -> valid_utf8 k = true.
Definition scope_valid (s : Scope) : Prop := valid_utf8 (sc_GatewayID s) = true /\ valid_utf8 (sc_ClockID s) = true.

Lemma bool_map_valid runs : runs_valid runs -> valid (bool_map_json runs) = true /\ depth_of (bool_map_json runs) <= 1.
Proof.
  intros Hr. destruct runs as [m|]; [|split; [reflexivity|cbn; lia]]. cbn [bool_map_json]. split.
  - cbn [valid]. apply forallb_forall. intros kv Hin. apply in_map_iff in Hin as ([k b] & <- & Hin). cbn.
    rewrite andb_true_r. apply (Hr m k eq_refl). apply list_elem_of_In in Hin. rewrite sorting.merge_sort_Permutation in Hin.
    apply elem_of_map_to_list in Hin. eauto.
  - apply depth_flat. apply List.Forall_forall. intros kv Hin. apply in_map_iff in Hin as ([k b] & <- & _). cbn. lia.
Qed.

Lemma opt_time_roundtrip a j : opt_time_json a = Some j -> decode_ptr decode_time zero_time None j = Some a /\ valid j = true /\ depth_of j <= 0.
Proof.
  destruct a as [t|]; cbn; [|intros [= <-]; split; [reflexivity|split; [reflexivity|cbn; lia]]].
  destruct (time_text t) as [s|] eqn:E; [|discriminate]. intros [= <-]. apply time_roundtrip in E as [E1 E2]. cbn. rewrite E1.
  split; [reflexivity|]. split; [exact E2|cbn; lia].
Qed.

Lemma state_roundtrip d raw : runs_valid (InvalidRuns d) -> scope_valid (ls_Scope d) -> Version d = ledgerVersion ->
  state_text d = Some raw -> decode_state raw = Some d.
Proof.
  intros Hr [Hg Hc] Hv E. unfold state_text in E. destruct (time_text (CommittedAt d)) as [c|] eqn:Ec; [|discriminate].
  destruct (opt_time_json (AppliedAt d)) as [a|] eqn:Ea; [|discriminate]. injection E as <-.
  apply time_roundtrip in Ec as [Ec1 Ec2]. apply opt_time_roundtrip in Ea as (Ea1 & Ea2 & Ea3).
  destruct (bool_map_valid _ Hr) as [Hb1 Hb2]. set (env := match ls_Envelope d with None => JNull | Some p => _ end).
  assert (valid env = true /\ depth_of env <= 1 /\ decode_ptr envelope_dec "" None env = Some (ls_Envelope d)) as (He1 & He2 & He3).
  { subst env. destruct (ls_Envelope d) as [p|]; [|split; [reflexivity|split; [cbn; lia|reflexivity]]].
    destruct (b64_plain p) as [_ Hp]. split; [cbn [valid forallb fst snd]; rewrite Hp; reflexivity|]. split; [cbn; lia|].
    unfold decode_ptr, envelope_dec, decode_struct. rewrite (decode_member true ["payload"] _ "" p); [reflexivity|left; reflexivity|].
    apply b64_roundtrip. }
  unfold decode_state. rewrite parse_marshal.
  - unfold decode_struct.
    rewrite (decode_member true state_names state_set zero_state {| zero_state with InvalidRuns := InvalidRuns d |});
      [|cbn; tauto|cbn -[decode_bool_map bool_map_json]; rewrite bool_map_roundtrip; reflexivity].
    rewrite Hv. rewrite (decode_member true state_names state_set _ {| zero_state with InvalidRuns := InvalidRuns d; Version := ledgerVersion |});
      [|cbn; tauto|reflexivity].
    rewrite (decode_member true state_names state_set _ {| zero_state with InvalidRuns := InvalidRuns d; Version := ledgerVersion; ls_Scope := ls_Scope d |});
      [|cbn; tauto|destruct (ls_Scope d); reflexivity].
    rewrite (decode_member true state_names state_set _ {| zero_state with InvalidRuns := InvalidRuns d; Version := ledgerVersion; ls_Scope := ls_Scope d;
      ls_Envelope := ls_Envelope d |}); [|cbn; tauto|cbn -[decode_ptr]; rewrite He3; reflexivity].
    rewrite (decode_member true state_names state_set _ {| zero_state with InvalidRuns := InvalidRuns d; Version := ledgerVersion; ls_Scope := ls_Scope d;
      ls_Envelope := ls_Envelope d; CommittedAt := CommittedAt d |}); [|cbn; tauto|cbn -[decode_time]; cbn [decode_time]; rewrite Ec1; reflexivity].
    rewrite (decode_member true state_names state_set _ d); [reflexivity|cbn; tauto|]. cbn -[decode_ptr]. rewrite Ea1. destruct d; cbn in *; subst; reflexivity.
  - cbn [valid forallb fst snd]. rewrite Hb1, He1, Ea2, Hg, Hc, Ec2, itoa_valid. reflexivity.
  - cbn [depth_of fold_right snd]. cbn. unfold max_nesting. lia.
Qed.

(** ** Strings of a verified context *)

Lemma verify_spec scope p c : verify scope p = Ok c ->
  contract_ok scope c = true /\ valid_utf8 (RunID c) = true /\ is_Some (context_text c).
Proof.
  unfold verify. destruct (_ <? _); [discriminate|]. destruct (decode_context p) as [x|] eqn:Ed; [|discriminate].
  destruct (contract_ok scope x) eqn:Ec; [|discriminate]. cbn [negb]. destruct (negb _); [discriminate|]. intros [= <-].
  split; [exact Ec|]. unfold decode_context in Ed. destruct (parse p) as [v|] eqn:Ep; [|discriminate]. apply parse_strings in Ep.
  destruct v as [|b|lit|s|l|l]; try discriminate; [cbn in Ed; injection Ed as <-; discriminate Ec|]. cbn [decode_struct] in Ed.
  assert (forall t, is_Some (time_text t) -> forall v t', decode_time t v = Some t' -> is_Some (time_text t')) as Ht.
  { intros t Ht [] t'; cbn; try discriminate; [intros [= <-]; exact Ht|]. apply time_parsed. }
  assert (valid_utf8 (RunID x) = true /\ is_Some (time_text (IssuedAt x)) /\ is_Some (time_text (ValidFrom x)) /\ is_Some (time_text (ExpiresAt x)))
    as (Hr & [a Ha] & [b Hb] & [e He]).
  { revert Ed. apply (decode_members_inv true context_names context_set (fun x => valid_utf8 (RunID x) = true /\ is_Some (time_text (IssuedAt x)) /\
      is_Some (time_text (ValidFrom x)) /\ is_Some (time_text (ExpiresAt x)))); [|exact Ep|].
    - intros f v r r' Hv (H1 & H2 & H3 & H4) E. unfold context_set in E.
      repeat match type of E with (if ?b then _ else _) = _ => destruct b end;
        try (destruct (decode_str _ v) as [s|] eqn:Es; [|discriminate]); try (destruct (decode_int _ _ _ v); [|discriminate]);
        try (destruct (decode_time _ v) as [t|] eqn:Et; [|discriminate]; apply Ht in Et; [|assumption]);
        cbn in E; injection E as <-; cbn; repeat split; try assumption.
      exact (decode_str_valid _ _ _ Hv H1 Es).
    - cbn. repeat split; apply time_zero. }
  split; [exact Hr|]. unfold context_text. rewrite Ha, Hb, He. eauto.
Qed.

(** ** The invariant *)

Context (scope : Scope) (Hscope : scope_valid scope).

(** A state the ledger may hold, with the context it stands for. *)
Record state_ok (d : lstate) (octx : option Context) : Prop := {
  so_runs : is_Some (InvalidRuns d);
  so_valid : runs_valid (InvalidRuns d);
  so_version : Version d = ledgerVersion;
  so_scope : ls_Scope d = scope;
  so_context :
    match ls_Envelope d with
    | Some p => exists c, octx = Some c /\ verify scope p = Ok c /\
        before (CommittedAt d) (IssuedAt c) = false /\ before (CommittedAt d) (ExpiresAt c) = true /\
        forall a, AppliedAt d = Some a -> before a (CommittedAt d) = false /\ before a (ExpiresAt c) = true
    | None => octx = None /\ IsZero (CommittedAt d) = true /\ AppliedAt d = None
    end
}.

(** Opening what such a state was written as gives it back. *)
Lemma open_written d octx raw : state_ok d octx -> state_text d = Some raw ->
  Open raw scope = Ok {| failed := false; data := d; context := octx |}.
Proof.
  intros [[m Hm] H2 H3 H4 H5] E. unfold Open. rewrite (state_roundtrip d raw H2) with (3 := E); [|rewrite H4; exact Hscope|exact H3].
  rewrite Hm, H3, H4, bool_decide_true by reflexivity. cbn [negb orb Z.eqb ledgerVersion]. destruct (ls_Envelope d) as [p|].
  - destruct H5 as (c & -> & -> & -> & -> & Ha). cbn [negb orb]. destruct (AppliedAt d) as [a|]; [|reflexivity].
    destruct (Ha a eq_refl) as [-> ->]. reflexivity.
  - destruct H5 as (-> & -> & ->). reflexivity.
Qed.

(** The file holds a good state; the ledger, unless it failed, is that state. *)
Definition repr (s : store) (d : lstate) (octx : option Context) : Prop :=
  state_ok d octx /\ state_text d = Some (file s) /\
  (failed (ledger s) = false -> data (ledger s) = d /\ context (ledger s) = octx).

(** Later states: invalid runs stay, and the context stays or gives way to one
    of a later generation. *)
Definition extends (d : lstate) (octx : option Context) (d' : lstate) (octx' : option Context) : Prop :=
  (forall k, run_invalid d k = true -> run_invalid d' k = true) /\
  (octx' = octx \/ exists c', octx' = Some c' /\ forall c, octx = Some c -> Generation c < Generation c').

Lemma extends_refl d o : extends d o d o.
Proof. split; auto. Qed.

Lemma extends_trans d1 o1 d2 o2 d3 o3 : extends d1 o1 d2 o2 -> extends d2 o2 d3 o3 -> extends d1 o1 d3 o3.
Proof.
  intros [A1 A2] [B1 B2]. split; [auto|]. destruct B2 as [->|(c3 & -> & B2)]; [exact A2|]. right. exists c3. split; [reflexivity|].
  intros c Hc. destruct A2 as [->|(c2 & -> & A2)]; [auto|]. specialize (A2 c Hc). specialize (B2 c2 eq_refl). lia.
Qed.

Lemma add_run_invalid runs id k : default false (default ∅ (add_run runs id) !! k) = (bool_decide (k = id) || default false (default ∅ runs !! k)).
Proof.
  unfold add_run. cbn. destruct (decide (k = id)) as [->|Hne].
  - rewrite lookup_insert_eq, bool_decide_true by reflexivity. reflexivity.
  - rewrite lookup_insert_ne by auto. rewrite bool_decide_false by exact Hne. reflexivity.
Qed.

Lemma add_run_valid runs id : runs_valid runs -> valid_utf8 id = true -> runs_valid (add_run runs id).
Proof.
  intros Hr Hid m k [= <-] Hk. destruct (decide (k = id)) as [->|Hne]; [exact Hid|]. rewrite lookup_insert_ne in Hk by auto.
  destruct runs as [r|]; cbn in Hk; [eauto|]. rewrite lookup_empty in Hk. destruct Hk. discriminate.
Qed.

Lemma persist_spec s d octx next octx' w s' r : repr s d octx -> failed (ledger s) = false -> state_ok next octx' ->
  persist s next w = (s', r) ->
  match r with
  | Ok _ => state_text next = Some (file s') /\ ledger s' = {| failed := false; data := next; context := octx |}
  | Err _ => failed (ledger s') = true /\ (file s' = file s \/ state_text next = Some (file s'))
  end.
Proof.
  intros (_ & _ & Hl) Hf Hn E. destruct (Hl Hf) as [Hd Hc]. unfold persist in E.
  destruct (state_text next) as [raw|] eqn:Et; [|injection E as <- <-; cbn; auto].
  destruct w; injection E as <- <-; cbn; auto. split; [reflexivity|]. rewrite Hf, Hc. reflexivity.
Qed.

(** Persisting a good later state that keeps the context. *)
Lemma persist_keeps s d octx next w s' r : repr s d octx -> failed (ledger s) = false -> state_ok next octx ->
  extends d octx next octx -> persist s next w = (s', r) ->
  exists d', repr s' d' octx /\ extends d octx d' octx /\ (forall u, r = Ok u -> d' = next).
Proof.
  intros Hr Hf Hn Hx E. pose proof (persist_spec _ _ _ _ _ _ _ _ Hr Hf Hn E) as Hp. destruct Hr as (Hok & Ht & _). destruct r as [u|e].
  - destruct Hp as [Hp Hl]. exists next. split; [|auto]. split; [exact Hn|]. split; [exact Hp|]. rewrite Hl. auto.
  - destruct Hp as [Hfail [Hfile|Hfile]].
    + exists d. split; [|split; [apply extends_refl|discriminate]]. split; [exact Hok|]. split; [congruence|]. congruence.
    + exists next. split; [|split; [exact Hx|discriminate]]. split; [exact Hn|]. split; [exact Hfile|]. congruence.
Qed.

Definition evolves (s : store) (d : lstate) (octx : option Context) (s' : store) (P : lstate -> option Context -> Prop) : Prop :=
  exists d' octx', repr s' d' octx' /\ extends d octx d' octx' /\ P d' octx'.

Lemma evolves_same s d octx (P : lstate -> option Context -> Prop) : repr s d octx -> P d octx -> evolves s d octx s P.
Proof. intros Hr Hp. exists d, octx. split; [exact Hr|]. split; [apply extends_refl|exact Hp]. Qed.

Lemma committed_ok d octx p c at_ : state_ok d octx -> verify scope p = Ok c -> before at_ (IssuedAt c) = false ->
  before at_ (ExpiresAt c) = true -> (forall old, octx = Some old -> Generation old < Generation c) ->
  state_ok (committed d p c at_) (Some c) /\ extends d octx (committed d p c at_) (Some c).
Proof.
  intros [[m Hm] H2 H3 H4 H5] Hv Hi He Hg. destruct (verify_spec _ _ _ Hv) as (_ & Hid & _). split.
  - split; cbn; [|destruct (String.eqb _ _); [apply add_run_valid|]; assumption|exact H3|exact H4|].
    + destruct (String.eqb _ _); [unfold add_run; eauto|eauto].
    + exists c. repeat split; try assumption; discriminate.
  - split; [|right; exists c; auto]. intros k Hk. unfold run_invalid in *. cbn. destruct (String.eqb _ _); [|exact Hk].
    rewrite add_run_invalid, Hk. apply orb_true_r.
Qed.

Lemma Commit_spec s d octx p at_ w s' r : repr s d octx -> Commit s p at_ w = (s', r) ->
  evolves s d octx s' (fun d' octx' => r = Ok tt -> exists c c', verify scope p = Ok c /\ octx' = Some c' /\ context_text c' = context_text c /\
    before at_ (IssuedAt c) = false /\ before at_ (ExpiresAt c) = true).
Proof.
  intros Hr E. pose proof Hr as (Hok & Ht & Hl). unfold Commit in E. destruct (failed (ledger s)) eqn:Hf; [injection E as <- <-; apply evolves_same; [exact Hr|discriminate]|].
  destruct (Hl eq_refl) as [Hd Hc]. rewrite Hd, Hc, (so_scope _ _ Hok) in E.
  destruct (verify scope p) as [c|e] eqn:Hv; [|injection E as <- <-; apply evolves_same; [exact Hr|discriminate]].
  destruct (before at_ (IssuedAt c)) eqn:Hi; [injection E as <- <-; apply evolves_same; [exact Hr|discriminate]|].
  destruct (before at_ (ExpiresAt c)) eqn:He; cbn [orb negb] in E; [|injection E as <- <-; apply evolves_same; [exact Hr|discriminate]].
  assert ((forall old, octx = Some old -> Generation old < Generation c) ->
    match persist s (committed d p c at_) w with (s, Err e) => (s, Err e) | (s, Ok _) => (with_context s c, Ok tt) end = (s', r) ->
    evolves s d octx s' (fun d' octx' => r = Ok tt -> exists c0 c', Ok c = @Ok ledger_error Context c0 /\ octx' = Some c' /\ context_text c' = context_text c0 /\
      before at_ (IssuedAt c0) = false /\ before at_ (ExpiresAt c0) = true)) as Hgo.
  { intros Hg E'. destruct (committed_ok d octx p c at_ Hok Hv Hi He Hg) as [Hn Hx].
    destruct (persist s (committed d p c at_) w) as [s1 [u|e]] eqn:Ep; injection E' as <- <-.
    - pose proof (persist_spec _ _ _ _ _ _ _ _ Hr Hf Hn Ep) as [Ht1 Hl1]. exists (committed d p c at_), (Some c).
      split; [|split; [exact Hx|intros _; exists c, c; auto]]. split; [exact Hn|]. split; [exact Ht1|]. cbn. rewrite Hl1. auto.
    - pose proof (persist_spec _ _ _ _ _ _ _ _ Hr Hf Hn Ep) as [Hf1 [Hf2|Hf2]].
      + exists d, octx. split; [|split; [apply extends_refl|discriminate]]. split; [exact Hok|]. split; congruence.
      + exists (committed d p c at_), (Some c). split; [|split; [exact Hx|discriminate]]. split; [exact Hn|]. split; congruence. }
  destruct octx as [old|].
  - destruct (Z.ltb_spec (Generation c) (Generation old)); [injection E as <- <-; apply evolves_same; [exact Hr|discriminate]|].
    destruct (Z.eqb_spec (Generation c) (Generation old)); [|apply Hgo; [intros x [= <-]; lia|exact E]].
    case_bool_decide; injection E as <- <-; (apply evolves_same; [exact Hr|]); [intros _; exists c, old; auto|discriminate].
  - destruct (Generation c =? 1); cbn [negb] in E; [apply Hgo; [discriminate|exact E]|injection E as <- <-; apply evolves_same; [exact Hr|discriminate]].
Qed.

Lemma Apply_spec s d octx at_ w s' r : repr s d octx -> Apply s at_ w = (s', r) ->
  evolves s d octx s' (fun d' octx' => octx' = octx /\ (r = Ok tt -> is_Some (AppliedAt d'))).
Proof.
  intros Hr E. pose proof Hr as (Hok & Ht & Hl). unfold Apply in E.
  destruct (failed (ledger s)) eqn:Hf; [injection E as <- <-; apply evolves_same; [exact Hr|split; [reflexivity|discriminate]]|].
  destruct (Hl eq_refl) as [Hd Hc]. rewrite Hd, Hc in E.
  destruct octx as [c|]; [|injection E as <- <-; apply evolves_same; [exact Hr|split; [reflexivity|discriminate]]].
  destruct (before at_ (CommittedAt d)) eqn:Hb; [injection E as <- <-; apply evolves_same; [exact Hr|split; [reflexivity|discriminate]]|].
  destruct (before at_ (ExpiresAt c)) eqn:He; cbn [orb negb] in E; [|injection E as <- <-; apply evolves_same; [exact Hr|split; [reflexivity|discriminate]]].
  destruct (AppliedAt d) as [a|] eqn:Ha; [injection E as <- <-; apply evolves_same; [exact Hr|split; [reflexivity|rewrite Ha; eauto]]|].
  assert (state_ok {| d with AppliedAt := Some at_ |} (Some c)) as Hn.
  { destruct Hok as [H1 H2 H3 H4 H5]. split; try assumption. cbn. destruct (ls_Envelope d) as [p|]; [|destruct H5; discriminate].
    destruct H5 as (c' & [= <-] & H5 & H6 & H7 & _). exists c. split; [reflexivity|]. split; [exact H5|]. split; [exact H6|]. split; [exact H7|]. intros a [= <-]. auto. }
  destruct (persist_keeps _ _ _ _ _ _ _ Hr Hf Hn ltac:(split; auto) E) as (d' & H1 & H2 & H3).
  exists d', (Some c). split; [exact H1|]. split; [exact H2|]. split; [reflexivity|]. intros Hrr. rewrite (H3 tt Hrr). cbn. eauto.
Qed.

Lemma invalidated_ok d octx id : state_ok d octx -> valid_utf8 id = true ->
  state_ok (invalidated d id) octx /\ extends d octx (invalidated d id) octx /\ run_invalid (invalidated d id) id = true.
Proof.
  intros [H1 H2 H3 H4 H5] Hid. split; [|split].
  - split; cbn; try assumption; [unfold add_run; eauto|apply add_run_valid; assumption].
  - split; [|auto]. intros k Hk. unfold run_invalid, invalidated in *. cbn [InvalidRuns]. rewrite add_run_invalid, Hk. apply orb_true_r.
  - unfold run_invalid, invalidated. cbn [InvalidRuns]. rewrite add_run_invalid, bool_decide_true by reflexivity. reflexivity.
Qed.

Lemma invalidate_spec s d octx id w s' r : repr s d octx -> failed (ledger s) = false -> valid_utf8 id = true ->
  persist s (invalidated (data (ledger s)) id) w = (s', r) ->
  evolves s d octx s' (fun d' octx' => octx' = octx /\ (r = Ok tt -> run_invalid d' id = true)).
Proof.
  intros Hr Hf Hid E. pose proof Hr as (Hok & _ & Hl). destruct (Hl Hf) as [Hd _]. rewrite Hd in E.
  destruct (invalidated_ok d octx id Hok Hid) as (Hn & Hx & Hi).
  destruct (persist_keeps _ _ _ _ _ _ _ Hr Hf Hn Hx E) as (d' & H1 & H2 & H3). exists d', octx.
  split; [exact H1|]. split; [exact H2|]. split; [reflexivity|]. intros Hrr. rewrite (H3 tt Hrr). exact Hi.
Qed.

Lemma current_valid d c : state_ok d (Some c) -> valid_utf8 (RunID c) = true.
Proof.
  intros [_ _ _ _ H5]. destruct (ls_Envelope d) as [p|]; [|destruct H5; discriminate]. destruct H5 as (c' & [= <-] & Hv & _).
  apply (verify_spec _ _ _ Hv).
Qed.

Lemma InvalidateRun_spec s d octx id w s' r : repr s d octx -> InvalidateRun s id w = (s', r) ->
  evolves s d octx s' (fun d' octx' => octx' = octx /\ (r = Ok tt -> run_invalid d' id = true)).
Proof.
  intros Hr E. unfold InvalidateRun in E. assert (forall e, (s, Err e) = (s', r) -> evolves s d octx s' (fun d' octx' => octx' = octx /\ (r = Ok tt -> run_invalid d' id = true))) as Hsame
    by (intros e [= <- <-]; apply evolves_same; [exact Hr|split; [reflexivity|discriminate]]).
  destruct (failed (ledger s)) eqn:Hf; [apply (Hsame _ E)|]. destruct (context (ledger s)) as [c|] eqn:Hc; [|apply (Hsame _ E)].
  destruct (String.eqb_spec id (RunID c)) as [->|]; cbn [negb] in E; [|apply (Hsame _ E)].
  destruct Hr as (Hok & Ht & Hl). destruct (Hl Hf) as [Hd Hc']. rewrite Hc in Hc'. subst octx.
  apply (invalidate_spec s d _ (RunID c) w s' r); [split; [exact Hok|auto]|exact Hf|exact (current_valid _ _ Hok)|exact E].
Qed.

Lemma InvalidateContext_spec s d octx p w s' r : repr s d octx -> InvalidateContext s p w = (s', r) ->
  evolves s d octx s' (fun d' octx' => octx' = octx /\ (r = Ok tt -> exists c, verify scope p = Ok c /\ run_invalid d' (RunID c) = true)).
Proof.
  intros Hr E. unfold InvalidateContext in E.
  assert (forall e, (s, Err e) = (s', r) -> evolves s d octx s' (fun d' octx' => octx' = octx /\ (r = Ok tt -> exists c, verify scope p = Ok c /\ run_invalid d' (RunID c) = true))) as Hsame
    by (intros e [= <- <-]; apply evolves_same; [exact Hr|split; [reflexivity|discriminate]]).
  destruct (failed (ledger s)) eqn:Hf; [apply (Hsame _ E)|]. destruct (context (ledger s)) as [cur|] eqn:Hc; [|apply (Hsame _ E)].
  pose proof Hr as (Hok & _ & Hl). destruct (Hl Hf) as [Hd _]. rewrite Hd, (so_scope _ _ Hok) in E.
  destruct (verify scope p) as [c|e] eqn:Hv; [|apply (Hsame _ E)]. destruct (_ <? _); [apply (Hsame _ E)|]. rewrite <- Hd in E.
  destruct (verify_spec _ _ _ Hv) as (_ & Hid & _).
  destruct (invalidate_spec _ _ _ (RunID c) _ _ _ Hr Hf Hid E) as (d' & o' & H1 & H2 & H3 & H4). exists d', o'. split; [exact H1|]. split; [exact H2|].
  split; [exact H3|]. intros Hrr. exists c. auto.
Qed.

(** ** Any history of a ledger *)

Inductive led_op :=
| OpCommit (payload : string) (at_ : instant) (w : disk)
| OpApply (at_ : instant) (w : disk)
| OpInvalidateRun (id : string) (w : disk)
| OpInvalidateContext (payload : string) (w : disk)
| OpReopen.

(** Reopening replaces the ledger by what the file says, when it opens. *)
Definition led_step (s : store) (op : led_op) : store * result ledger_error unit :=
  match op with
  | OpCommit p at_ w => Commit s p at_ w
  | OpApply at_ w => Apply s at_ w
  | OpInvalidateRun id w => InvalidateRun s id w
  | OpInvalidateContext p w => InvalidateContext s p w
  | OpReopen => match Open (file s) scope with Ok l => (with_ledger s l, Ok tt) | Err e => (s, Err e) end
  end.

Definition led_run (s : store) (ops : list led_op) : store := fold_left (fun s op => fst (led_step s op)) ops s.

Lemma step_spec s d octx op : repr s d octx -> exists d' octx', repr (fst (led_step s op)) d' octx' /\ extends d octx d' octx'.
Proof.
  intros Hr. destruct (led_step s op) as [s' r] eqn:E. cbn [fst].
  destruct op as [p at_ w|at_ w|id w|p w|]; cbn [led_step] in E.
  - destruct (Commit_spec _ _ _ _ _ _ _ _ Hr E) as (d' & o' & H1 & H2 & _). eauto.
  - destruct (Apply_spec _ _ _ _ _ _ _ Hr E) as (d' & o' & H1 & H2 & _). eauto.
  - destruct (InvalidateRun_spec _ _ _ _ _ _ _ Hr E) as (d' & o' & H1 & H2 & _). eauto.
  - destruct (InvalidateContext_spec _ _ _ _ _ _ _ Hr E) as (d' & o' & H1 & H2 & _). eauto.
  - destruct Hr as (Hok & Ht & _). rewrite (open_written _ _ _ Hok Ht) in E. injection E as <- <-. exists d, octx.
    split; [|apply extends_refl]. split; [exact Hok|]. split; [exact Ht|]. auto.
Qed.

Lemma run_spec ops : forall s d octx, repr s d octx -> exists d' octx', repr (led_run s ops) d' octx' /\ extends d octx d' octx'.
Proof.
  induction ops as [|op ops IH]; intros s d octx Hr; [exists d, octx; split; [exact Hr|apply extends_refl]|].
  destruct (step_spec s d octx op Hr) as (d1 & o1 & Hr1 & Hx1). destruct (IH _ _ _ Hr1) as (d2 & o2 & Hr2 & Hx2).
  exists d2, o2. split; [exact Hr2|eauto using extends_trans].
Qed.

Lemma Initialize_spec s : Initialize scope = Ok s -> exists d, repr s d None.
Proof.
  unfold Initialize. destruct (_ || _); [discriminate|]. set (d := {| InvalidRuns := Some ∅; Version := _; ls_Scope := _; ls_Envelope := _; CommittedAt := _; AppliedAt := _ |}).
  destruct (state_text d) as [raw|] eqn:Et; [|discriminate]. intros [= <-]. exists d. split; [|split; [exact Et|auto]].
  split; cbn; [eauto| |reflexivity|reflexivity|auto]. intros m k [= <-] Hk. rewrite lookup_empty in Hk. destruct Hk. discriminate.
Qed.

(** C11: The ledger survives anything that happens to its disk.  Over any
    history of commits, applies, invalidations and reopenings with writes that
    fail before or after the new file is in place, the file always opens; if no
    write failed it opens as the ledger in memory; the generation it opens with
    never goes back, and two histories of one file never hold different
    contexts of one generation; and a run once invalid stays invalid. *)
Theorem ledger_durable (s0 : store) (ops1 ops2 : list led_op) :
  Initialize scope = Ok s0 ->
  let s1 := led_run s0 ops1 in
  let s2 := led_run s1 ops2 in
  exists l1 l2, Open (file s1) scope = Ok l1 /\ Open (file s2) scope = Ok l2 /\
    (failed (ledger s1) = false -> l1 = ledger s1) /\
    (forall k, Invalidated l1 k = Ok true -> Invalidated l2 k = Ok true) /\
    (forall c1, Current l1 = Ok c1 -> exists c2, Current l2 = Ok c2 /\ (c2 = c1 \/ Generation c1 < Generation c2)).
Proof.
  intros Hi s1 s2. destruct (Initialize_spec s0 Hi) as [d0 Hr0]. destruct (run_spec ops1 s0 d0 None Hr0) as (d1 & o1 & Hr1 & _).
  fold s1 in Hr1. destruct (run_spec ops2 s1 d1 o1 Hr1) as (d2 & o2 & Hr2 & Hx & Hg). fold s2 in Hr2.
  pose proof Hr1 as (Hok1 & Ht1 & Hl1). pose proof Hr2 as (Hok2 & Ht2 & _).
  exists {| failed := false; data := d1; context := o1 |}, {| failed := false; data := d2; context := o2 |}.
  split; [exact (open_written _ _ _ Hok1 Ht1)|]. split; [exact (open_written _ _ _ Hok2 Ht2)|]. split; [|split].
  - intros Hf. destruct (Hl1 Hf) as [<- <-]. destruct (ledger s1); cbn in *; subst; reflexivity.
  - intros k. unfold Invalidated. cbn. intros [= Hk]. f_equal. auto.
  - unfold Current. cbn. intros c1. destruct o1 as [c|]; [|discriminate]. intros [= <-].
    destruct Hg as [->|(c' & -> & Hg)]; [eauto|exists c'; auto].
Qed.

Lemma Evaluate_valid l rev start end_ run gen : Evaluate l rev start end_ = Valid run gen ->
  failed l = false /\ exists c a, context l = Some c /\ AppliedAt (data l) = Some a /\ RunID c = run /\ Generation c = gen /\
    ProvisioningRevision c = rev /\ cx_Status c <> "revoked" /\ before start (ValidFrom c) = false /\ before end_ start = false /\
    before end_ (ExpiresAt c) = true /\ before start a = false /\ run_invalid (data l) run = false.
Proof.
  unfold Evaluate. destruct (failed l); [discriminate|]. destruct (context l) as [c|]; [|discriminate].
  destruct (before end_ start); [discriminate|]. destruct (String.eqb_spec (ProvisioningRevision c) rev); [|discriminate].
  destruct (String.eqb_spec (cx_Status c) "revoked"); [discriminate|]. destruct (before start (ValidFrom c)) eqn:E1; [discriminate|].
  destruct (before end_ (ExpiresAt c)) eqn:E2; [|discriminate]. destruct (AppliedAt (data l)) as [a|]; [|discriminate]. cbn [negb].
  destruct (before start a) eqn:E3; [discriminate|]. destruct (run_invalid (data l) (RunID c)) eqn:E4; [discriminate|].
  intros [= <- <-]. split; [reflexivity|]. exists c, a. auto 15.
Qed.

(** C25: An interval is judged valid only on evidence that was on disk before
    it: some committed payload that fits the contract and is active for that
    revision, committed within its lifetime and applied not before its commit
    and not after the interval starts, with the whole interval within its
    validity, no failed write, and its run not invalidated. *)
Theorem evaluate_sound (s0 : store) (ops : list led_op) rev start end_ run gen :
  Initialize scope = Ok s0 -> let s := led_run s0 ops in
  Evaluate (ledger s) rev start end_ = Valid run gen ->
  Open (file s) scope = Ok (ledger s) /\
  exists p c a, ls_Envelope (data (ledger s)) = Some p /\ verify scope p = Ok c /\ AppliedAt (data (ledger s)) = Some a /\
    RunID c = run /\ Generation c = gen /\ 1 <= gen <= 9007199254740991 /\ ProvisioningRevision c = rev /\ cx_Status c = "active" /\
    t_ns (IssuedAt c) <= t_ns (CommittedAt (data (ledger s))) <= t_ns a /\ t_ns a <= t_ns start /\
    t_ns (ValidFrom c) <= t_ns start <= t_ns end_ /\ t_ns end_ < t_ns (ExpiresAt c) /\ run_invalid (data (ledger s)) run = false.
Proof.
  intros Hi s E. destruct (Initialize_spec s0 Hi) as [d0 Hr0]. destruct (run_spec ops s0 d0 None Hr0) as (d & o & (Hok & Ht & Hl) & _).
  fold s in Ht, Hl. apply Evaluate_valid in E as (Hf & c & a & Hc & Ha & Hrun & Hgen & Hrev & Hst & Hv1 & Hv2 & Hv3 & Hv4 & Hinv).
  destruct (Hl Hf) as [Hd Ho]. split.
  { rewrite (open_written _ _ _ Hok Ht). destruct (ledger s); cbn in *; subst; reflexivity. }
  rewrite Hd in *. rewrite Ho in Hc. pose proof (so_context _ _ Hok) as Hso. destruct (ls_Envelope d) as [p|]; [|destruct Hso; congruence].
  destruct Hso as (c' & E & Hv & Hci & Hce & Hap). assert (c' = c) as -> by congruence. destruct (Hap a Ha) as [Hap1 _].
  destruct (verify_spec _ _ _ Hv) as (Hk & _ & _). unfold contract_ok in Hk. bools.
  assert (cx_Status c = "active") as Hact by (destruct (String.eqb_spec (cx_Status c) "active"); [assumption|]; cbn in *; bools; apply String.eqb_eq in H5; contradiction).
  unfold before in *. exists p, c, a. repeat split; try assumption; try lia; congruence.
Qed.

(** A run that was invalidated, by its id or by its context, is never again
    part of a valid verdict, whatever is committed, applied, lost or reopened
    later. *)
Theorem invalid_forever (s0 : store) (ops1 ops2 : list led_op) (op : led_op) (run : string) rev start end_ gen :
  Initialize scope = Ok s0 ->
  let '(s1, r) := led_step (led_run s0 ops1) op in
  r = Ok tt ->
  match op with
  | OpInvalidateRun id _ => id = run
  | OpInvalidateContext p _ => exists c, verify scope p = Ok c /\ RunID c = run
  | _ => False
  end ->
  Evaluate (ledger (led_run s1 ops2)) rev start end_ <> Valid run gen.
Proof.
  intros Hi. destruct (led_step (led_run s0 ops1) op) as [s1 r] eqn:E. intros -> Hop Hval.
  destruct (Initialize_spec s0 Hi) as [d0 Hr0]. destruct (run_spec ops1 s0 d0 None Hr0) as (d & o & Hr & _).
  assert (exists d1 o1, repr s1 d1 o1 /\ run_invalid d1 run = true) as (d1 & o1 & Hr1 & Hinv).
  { destruct op as [| |id w|p w|]; try contradiction; cbn [led_step] in E.
    - subst id. destruct (InvalidateRun_spec _ _ _ _ _ _ _ Hr E) as (d1 & o1 & H1 & _ & _ & H3). eauto.
    - destruct Hop as (c & Hv & <-). destruct (InvalidateContext_spec _ _ _ _ _ _ _ Hr E) as (d1 & o1 & H1 & _ & _ & H3).
      destruct (H3 eq_refl) as (c' & Hv' & H4). exists d1, o1. split; [exact H1|]. congruence. }
  destruct (run_spec ops2 s1 d1 o1 Hr1) as (d2 & o2 & (_ & _ & Hl2) & Hx & _).
  apply Evaluate_valid in Hval as (Hf & c & a & _ & _ & _ & _ & _ & _ & _ & _ & _ & _ & Hbad).
  destruct (Hl2 Hf) as [Hd _]. rewrite Hd, (Hx run Hinv) in Hbad. discriminate.
Qed.
End Facts.

(** ** Examples *)

Module RunLedgerExample.

(** UTC instants written as their nanoseconds. *)
#[export] Instance digits_time : GoTime := {|
  time_text t := if (t_off t =? 0) && (0 <=? t_ns t) then Some (dec_string (t_ns t)) else None;
  time_parse s := if negb (String.eqb s "") && all_digits s then Some {| t_ns := digits_val 0 s; t_off := 0 |} else None
|}.

Lemma digits_valid s : all_digits s = true -> valid_utf8 s = true.
Proof.
  induction s as [|c s IH]; [reflexivity|]. cbn [all_digits valid_utf8]. intros [Hc Hs]%andb_prop. unfold is_digit, between in Hc.
  replace (code c <? 128) with true by lia. auto.
Qed.

Lemma digits_val_nonneg s : forall acc, 0 <= acc -> all_digits s = true -> 0 <= digits_val acc s.
Proof.
  induction s as [|c s IH]; intros acc Ha Hs; [exact Ha|]. cbn [all_digits digits_val] in *. apply andb_prop in Hs as [Hc Hs].
  unfold is_digit, between in Hc. apply IH; [lia|exact Hs].
Qed.

#[export] Instance digits_laws : GoTimeLaws.
Proof.
  split.
  - intros [ns off] s. cbn [time_text time_parse digits_time t_off t_ns]. destruct (Z.eqb_spec off 0) as [->|]; [|discriminate]. destruct (Z.leb_spec 0 ns); [|discriminate]. cbn [andb]. intros [= <-].
    destruct (dec_string_spec ns ltac:(lia)) as (Ev & Ha & c & r & E & _). split; [|exact (digits_valid _ Ha)].
    rewrite Ev, Ha, E. reflexivity.
  - intros s t. cbn. destruct (negb _); [|discriminate]. destruct (all_digits s) eqn:Ha; [|discriminate]. intros [= <-]. cbn.
    destruct (Z.leb_spec 0 (digits_val 0 s)); [eauto|]. pose proof (digits_val_nonneg s 0 ltac:(lia) Ha). lia.
  - cbn. eauto.
Qed.

Definition scope0 : Scope := {| sc_GatewayID := "g"; sc_ClockID := "k" |}.
Lemma scope0_valid : scope_valid scope0.
Proof. split; reflexivity. Qed.

Definition utc (ns : Z) : instant := {| t_ns := ns; t_off := 0 |}.
Definition ctx (run : string) (gen : Z) : Context :=
  {| SchemaVersion := schema; cx_GatewayID := "g"; cx_ClockID := "k"; ProvisioningRevision := "r1"; RunID := run; Generation := gen;
     cx_Status := "active"; IssuedAt := utc 1; ValidFrom := utc 10; ExpiresAt := utc 100 |}.
Definition pay (run : string) (gen : Z) : string := default "" (context_text (ctx run gen)).
Definition s0 : store := Eval vm_compute in match Initialize scope0 with Ok s => s | Err _ => {| ledger := {| failed := true; data := zero_state; context := None |}; file := "" |} end.
Lemma s0_init : Initialize scope0 = Ok s0.
Proof. vm_compute. reflexivity. Qed.

Definition ops1 : list led_op := [OpCommit (pay "a" 1) (utc 5) DiskOk; OpApply (utc 12) DiskOk].

Lemma evaluate_sound_witness :
  Evaluate (ledger (led_run scope0 s0 ops1)) "r1" (utc 20) (utc 30) = Valid "a" 1 /\
  Open (file (led_run scope0 s0 ops1)) scope0 = Ok (ledger (led_run scope0 s0 ops1)).
Proof.
  assert (Evaluate (ledger (led_run scope0 s0 ops1)) "r1" (utc 20) (utc 30) = Valid "a" 1) as E by (vm_compute; reflexivity).
  split; [exact E|]. exact (proj1 (evaluate_sound scope0 scope0_valid s0 ops1 "r1" (utc 20) (utc 30) "a" 1 s0_init E)).
Defined.

Lemma ledger_durable_witness :
  exists l2, Open (file (led_run scope0 (led_run scope0 s0 ops1) [OpInvalidateRun "a" DiskAfter])) scope0 = Ok l2 /\
    exists c2, Current l2 = Ok c2 /\ (c2 = ctx "a" 1 \/ 1 < Generation c2).
Proof.
  destruct (ledger_durable scope0 scope0_valid s0 ops1 [OpInvalidateRun "a" DiskAfter] s0_init) as (l1 & l2 & H1 & H2 & H3 & _ & H5).
  exists l2. split; [exact H2|]. apply (H5 (ctx "a" 1)). rewrite (H3 ltac:(vm_compute; reflexivity)). vm_compute. reflexivity.
Defined.

Lemma invalid_forever_witness :
  Evaluate (ledger (led_run scope0 (fst (led_step scope0 (led_run scope0 s0 ops1) (OpInvalidateRun "a" DiskOk))) [OpReopen])) "r1" (utc 20) (utc 30)
    <> Valid "a" 1.
Proof.
  pose proof (invalid_forever scope0 scope0_valid s0 ops1 [OpReopen] (OpInvalidateRun "a" DiskOk) "a" "r1" (utc 20) (utc 30) 1 s0_init) as Hf.
  destruct (led_step scope0 (led_run scope0 s0 ops1) (OpInvalidateRun "a" DiskOk)) as [s1 r] eqn:E. apply Hf; [|reflexivity].
  change r with (snd (s1, r)). rewrite <- E. vm_compute. reflexivity.
Defined.

End RunLedgerExample.
