(* ===== verification/ClockWorker.v ===== *)
(** * The clock worker

    [process], [boundFrame] and the message part of [Run] of
    [src/internal/clocksync/gateway.go], and [bindRunFrame] of
    [run_context.go]: what happens to one event of a managed connector.

    An event is stored only under the mapping of the verified session it names,
    classified against the run context once and for all, and acknowledged only
    when the frame is durable; anything else is kept in quarantine before it is
    terminated, or handed back for another delivery. *)

From Stdlib Require Import ZArith Lia Bool Ascii String List.
From stdpp Require Import base list strings gmap sorting.
From S2P Require Import Prelude Json GoText Sha256 Float Encoding Wire FrameStore Buffer PointList Normalizer.
From S2P Require Import Provisioning ClockConfig RunLedger.
#[local] Open Scope string_scope.
#[local] Open Scope list_scope.
#[local] Open Scope Z_scope.

(** ** Sessions and messages *)

Record sessionRecord := {
  RunClockID : string; Session : string; sr_snapshot : ClockSnapshot; nativeHash : string; sr_verified : bool
}.

(** A delivery: its subject, headers, payload, and stream sequence when the
    metadata is readable. *)
Record delivery := { dl_subject : string; dl_headers : gmap string (list string); dl_data : string; dl_seq : option Z }.

(** [nats.Header.Get]. *)
Definition header (m : delivery) (k : string) : string := default "" (dl_headers m !! k ≫= head).

(** [time.Parse(time.RFC3339Nano, s)] and [t.Format(time.RFC3339Nano)]. *)
Class GoClock := { parse_nano : string -> option instant; format_nano : instant -> string }.

(** [ev.Attributes[k]]: the zero value when the key is absent. *)
Definition attr (m : gmap string string) (k : string) : string := default "" (m !! k).

(** ** Binding an event to its session *)

Section Bound.
  Context `{GoClock} (scope : ClockScope).

(** Run fields only the receiver may set. *)
Definition reserved_free (evt : Event) : bool :=
  forallb (fun k => negb (bool_decide (is_Some (ev_Attributes evt !! k))))
    ["sim_run_id"; "sim_step_id"; "sim_context_generation"]
  && (let status := attr (ev_Attributes evt) "sim_run_status" in String.eqb status "" || String.eqb status "absent").

Definition find_point (es : list Entry) (localID : string) : option Entry :=
  find (fun e => String.eqb (ReleaseOf e) "" && String.eqb (LocalID e) localID) es.

Definition times (c : NativeClock) (localID : string) : bool := existsb (String.eqb localID) (nc_PointLocalIDs c).

(** The clock attributes of an event: those of every clock of its point, and
    none at all without a clock. *)
Definition clock_attrs_ok (s : ClockSnapshot) (evt : Event) : bool :=
  let clocks := List.filter (fun c => times c (ev_LocalID evt)) (nk_Clocks (cl_native s)) in
  let a := ev_Attributes evt in
  forallb (fun c => String.eqb (attr a "sim_clock_id") (nc_ClockID c) && String.eqb (attr a "sim_config_revision") (Revision s)
                    && String.eqb (attr a "sim_run_status") "absent") clocks
  && match clocks with
     | [] => forallb (fun kv => negb (has_prefix (fst kv) "sim_")) (map_to_list a)
     | _ => true
     end.

(** [now] is the current time, in case normalization needs one. *)
Definition boundFrame (now : string) (evt : Event) (r : sessionRecord) : option TelemetryFrame :=
  let s := sr_snapshot r in
  if negb (String.eqb (ev_Protocol evt) "bacnet") || negb (String.eqb (ev_ConnectorID evt) (ClockConfig.sc_ConnectorID scope))
     || String.eqb (ev_Timestamp evt) "" then None
  else
    match parse_nano (ev_Timestamp evt) with
    | None => None
    | Some _ =>
      if negb (reserved_free evt) then None
      else
        match find_point (cl_entries s) (ev_LocalID evt) with
        | None => None
        | Some point =>
          if negb (String.eqb (DeviceRef point) (ev_DeviceRef evt)) then None
          else if negb (clock_attrs_ok s evt) then None
          else
            match event_json evt with
            | None => None
            | Some j =>
              match Normalize now (marshal j) (NewFixture (cl_entries s)) (ClockConfig.sc_GatewayID scope) with
              | (f, OutcomeOK) => f
              | _ => None
              end
            end
        end
    end.
End Bound.

(** ** Classifying a frame against the run context *)

(** The operator's binding: the clock of the run and its ledger. *)
Record runBinding := { rb_ClockID : string; rb_ledger : RunLedger.store }.

(** The directory of the worker: run-context archives by session, receipts by
    digest, quarantined deliveries by sequence. *)
Record worker (D : Type) := {
  wk_buffer : Buffer D; wk_run : option runBinding; wk_archives : gmap string string; wk_receipts : gmap string string;
  wk_quarantine : gmap Z string; wk_recent : list TelemetryFrame
}.
Arguments wk_buffer {D} _.
Arguments wk_run {D} _.
Arguments wk_archives {D} _.
Arguments wk_receipts {D} _.
Arguments wk_quarantine {D} _.
Arguments wk_recent {D} _.

(** What the files and the stream do during one message: whether a receipt and
    an archive can be looked up, how each write ends, whether the final
    acknowledgement goes through; and the time. *)
Record io := {
  io_now : instant; io_nowtext : string; io_read_receipt : bool; io_read_archive : bool; io_ledger : disk;
  io_receipt : disk; io_quarantine : disk; io_settle : bool
}.

(** An atomic write: the new contents may be in place though it failed. *)
Definition write_file {K} `{Countable K} (d : disk) (k : K) (v : string) (m : gmap K string) : gmap K string * bool :=
  match d with
  | DiskOk => (<[k := v]> m, true)
  | DiskBefore => (m, false)
  | DiskAfter => (<[k := v]> m, false)
  end.

(** What makes a delivery the same acquisition. *)
Definition digest (m : delivery) (r : sessionRecord) : string :=
  sha256_hex (marshal (JObj [("Session", JStr (Session r)); ("Start", JStr (header m "Nexus-Poll-Started-At"));
    ("End", JStr (header m "Nexus-Poll-Ended-At")); ("Raw", JStr (b64_encode (dl_data m)))])).

(** The status and reason of a verdict. *)
Definition verdict_status (v : verdict) : string * string :=
  match v with
  | Absent => ("absent", "")
  | Unverified reason => ("unverified", reason)
  | Invalid reason => ("invalid", reason)
  | Valid _ _ => ("valid", "")
  end.

Inductive bind_error := InvalidPoll | BindFailed.

Section Worker.
  Context {D : Type} `{FrameDB D} `{FrameCodec} `{GoTime} `{GoClock} (scope : ClockScope).

(** The interval a delivery was acquired in, which holds the frame's own time
    and is over. *)
Definition poll_interval (now : instant) (m : delivery) (frame : TelemetryFrame) : option (instant * instant) :=
  match parse_nano (header m "Nexus-Poll-Started-At"), parse_nano (header m "Nexus-Poll-Ended-At"), parse_nano (Timestamp frame) with
  | Some start, Some end_, Some observed =>
    if before end_ start || before observed start || before end_ observed || before now end_ then None else Some (start, end_)
  | _, _, _ => None
  end.

(** The verdict of the archived context, corrected by what the live ledger
    knows now. *)
Definition classify (archive live : Ledger) (revision : string) (start end_ : instant) : result ledger_error verdict :=
  match Current archive with
  | Err e => Err e
  | Ok c =>
    match Invalidated live (RunID c), Current live with
    | Ok invalid, Ok current =>
      Ok (if invalid then Invalid "reset_detected"
          else if negb (String.eqb (RunID current) (RunID c)) then Unverified "generation_history_unavailable"
          else Evaluate archive revision start end_)
    | Err e, _ => Err e
    | _, Err e => Err e
    end
  end.

Definition set_opt (k : string) (v : option string) (m : gmap string string) : gmap string string :=
  match v with Some v => <[k := v]> m | None => m end.

Definition annotate (v : verdict) (committed : instant) (applied : option instant) (m : delivery) (frame : TelemetryFrame)
  : TelemetryFrame :=
  let '(status, reason) := verdict_status v in
  let a := <["sim_context_committed_at" := format_nano committed]> (Attributes frame) in
  let a := set_opt "sim_context_applied_at" (option_map format_nano applied) a in
  let a := <["sim_poll_started_at" := header m "Nexus-Poll-Started-At"]> a in
  let a := <["sim_poll_ended_at" := header m "Nexus-Poll-Ended-At"]> a in
  let a := <["sim_run_status" := status]> a in
  let a := delete "sim_context_generation" (delete "sim_run_id" (delete "sim_run_reason" a)) in
  let a := if String.eqb reason "" then a else <["sim_run_reason" := reason]> a in
  let a := match v with
           | Valid run gen => <["sim_context_generation" := itoa gen]> (<["sim_run_id" := run]> a)
           | _ => a
           end in
  {| frame with Attributes := a |}.

(** A detected reset invalidates the archived run in the live ledger. *)
Definition note_reset (archive : Ledger) (live : RunLedger.store) (frame : TelemetryFrame) (w : disk)
  : RunLedger.store * result ledger_error unit :=
  if String.eqb (attr (Attributes frame) "sim_time_quality") "reset" then
    match CurrentEnvelope archive with
    | Err e => (live, Err e)
    | Ok p => InvalidateContext live p w
    end
  else (live, Ok tt).

(** A first classification, which is kept before it is used. *)
Definition bind_fresh (w : worker D) (run : runBinding) (m : delivery) (r : sessionRecord) (frame : TelemetryFrame)
    (start end_ : instant) (x : io) : worker D * result bind_error TelemetryFrame :=
  match (if io_read_archive x then wk_archives w !! Session r else None) with
  | None => (w, Err BindFailed)
  | Some raw =>
    match RunLedger.Open raw {| RunLedger.sc_GatewayID := ClockConfig.sc_GatewayID scope; sc_ClockID := RunClockID r |} with
    | Err _ => (w, Err BindFailed)
    | Ok archive =>
      match Current archive with
      | Err _ => (w, Err BindFailed)
      | Ok _ =>
        let '(live, ok) := note_reset archive (rb_ledger run) frame (io_ledger x) in
        let w := {| w with wk_run := Some {| run with rb_ledger := live |} |} in
        match ok, classify archive (ledger live) (Revision (sr_snapshot r)) start end_, ReceiverTimes archive with
        | Ok _, Ok v, Ok (committed, applied) =>
          let frame := annotate v committed applied m frame in
          match proto_marshal frame with
          | None => (w, Err BindFailed)
          | Some raw =>
            let '(receipts, ok) := write_file (io_receipt x) (digest m r) raw (wk_receipts w) in
            let w := {| w with wk_receipts := receipts |} in
            if ok then (w, Ok frame) else (w, Err BindFailed)
          end
        | _, _, _ => (w, Err BindFailed)
        end
      end
    end
  end.

Definition bindRunFrame (w : worker D) (m : delivery) (r : sessionRecord) (frame : TelemetryFrame) (x : io)
  : worker D * result bind_error TelemetryFrame :=
  if String.eqb (RunClockID r) "" || negb (String.eqb (attr (Attributes frame) "sim_clock_id") (RunClockID r)) then (w, Ok frame)
  else
    match wk_run w with
    | None => (w, Err BindFailed)
    | Some run =>
      if negb (String.eqb (RunClockID r) (rb_ClockID run)) then (w, Err BindFailed)
      else
        match poll_interval (io_now x) m frame with
        | None => (w, Err InvalidPoll)
        | Some (start, end_) =>
          if negb (io_read_receipt x) then (w, Err BindFailed)
          else
            match wk_receipts w !! digest m r with
            | Some raw => match proto_unmarshal raw with Some f => (w, Ok f) | None => (w, Err BindFailed) end
            | None => bind_fresh w run m r frame start end_ x
            end
        end
    end.

(** ** Processing a delivery *)

Definition header_le (a b : string * json) : Prop := String.leb (fst a) (fst b) = true.
#[export] Instance header_le_dec a b : Decision (header_le a b).
Proof. unfold header_le. apply _. Defined.

Definition quarantine_text (reason : string) (m : delivery) : string :=
  marshal (JObj [("Reason", JStr reason); ("Subject", JStr (dl_subject m));
    ("Headers", if decide (dl_headers m = ∅) then JNull else JObj (merge_sort header_le (map (fun kv => (fst kv, JArr (map JStr (snd kv)))) (map_to_list (dl_headers m)))));
    ("Data", JStr (b64_encode (dl_data m)))]).

(** How a delivery ends: [SNak] is an error return of [process], after which
    [Run] asks for another delivery. *)
Inductive settled := SAck | STerm | SNak.

Definition quarantine (w : worker D) (m : delivery) (seq : Z) (reason : string) (x : io) : worker D * settled :=
  let '(q, ok) := write_file (io_quarantine x) seq (quarantine_text reason m) (wk_quarantine w) in
  ({| w with wk_quarantine := q |}, if ok && io_settle x then STerm else SNak).

Definition unknown_session : string := "unknown or unverified session".
Definition unmatched_event : string := "event does not match its archived session".

(** The record a delivery names, when it is verified and of its revision. *)
Definition session_of (records : gmap string sessionRecord) (m : delivery) : option sessionRecord :=
  match records !! header m "Nexus-Session" with
  | Some r => if sr_verified r && String.eqb (header m "Nexus-Config-Revision") (Revision (sr_snapshot r)) then Some r else None
  | None => None
  end.

Definition process (records : gmap string sessionRecord) (w : worker D) (m : delivery) (x : io) : worker D * settled :=
  match dl_seq m with
  | None => (w, SNak)
  | Some seq =>
    match session_of records m, event_unjson (dl_data m) with
    | Some r, Some evt =>
      match boundFrame scope (io_nowtext x) evt r with
      | None => quarantine w m seq unmatched_event x
      | Some frame =>
        match bindRunFrame w m r frame x with
        | (w, Err BindFailed) => (w, SNak)
        | (w, Err InvalidPoll) => quarantine w m seq unmatched_event x
        | (w, Ok frame) =>
          match Write (wk_buffer w) frame with
          | (b, Some _) => ({| w with wk_buffer := b |}, SNak)
          | (b, None) => ({| w with wk_buffer := b; wk_recent := wk_recent w ++ [frame] |}, if io_settle x then SAck else SNak)
          end
        end
      end
    | _, _ => quarantine w m seq unknown_session x
    end
  end.

(** [Run]: a delivery that arrives while admission is closed and nothing drains
    is handed back untouched. *)
Definition run_message (records : gmap string sessionRecord) (allowed : bool) (w : worker D) (m : delivery) (x : io)
  : worker D * settled :=
  if allowed then process records w m x else (w, SNak).
End Worker.

(** ** Theorems *)

(** *** A decoded event encodes and decodes to itself *)

Record event_utf8 (e : Event) : Prop := {
  eu_strings : Forall (fun s => valid_utf8 s = true)
    [ev_Protocol e; ev_ConnectorID e; ev_LocalID e; ev_DeviceRef e; ev_Unit e; ev_Quality e; ev_Timestamp e];
  eu_attrs : map_Forall (fun k v => valid_utf8 k = true /\ valid_utf8 v = true) (ev_Attributes e);
  eu_value : match ev_Value e with StringValue s => valid_utf8 s = true | _ => True end
}.

Lemma event_utf8_valid e : event_utf8 e -> valid_event e = true.
Proof.
  intros [Hs Ha Hv]. rewrite !Forall_cons in Hs. destruct Hs as (H1 & H2 & H3 & H4 & H5 & H6 & H7 & _).
  unfold valid_event. rewrite H1, H2, H3, H4, H5, H6, H7. cbn. apply andb_true_intro. split; [|by destruct (ev_Value e)].
  apply forallb_forall. intros [k v] Hi%list_elem_of_In%elem_of_map_to_list. destruct (Ha _ _ Hi) as [Hk Hx]. cbn. by rewrite Hk, Hx.
Qed.

Lemma map_members_valid l : forall cur m, forallb (fun kv => valid_utf8 (fst kv) && strings_valid (snd kv)) l = true ->
  map_Forall (fun k v => valid_utf8 k = true /\ valid_utf8 v = true) cur -> map_members cur l = Some m ->
  map_Forall (fun k v => valid_utf8 k = true /\ valid_utf8 v = true) m.
Proof.
  induction l as [|[k v] l IH]; cbn; intros cur m Hl Hc; [by intros [= <-]|].
  apply andb_prop in Hl as [[Hk Hv]%andb_prop Hl]. destruct (decode_str "" v) as [s|] eqn:E; [|done].
  apply IH; [done|]. apply map_Forall_insert_2; [|done]. split; [done|]. by apply (decode_str_valid "" v).
Qed.

Lemma map_unjson_valid cur v m : strings_valid v = true ->
  map_Forall (fun k v => valid_utf8 k = true /\ valid_utf8 v = true) cur -> map_unjson cur v = Some m ->
  map_Forall (fun k v => valid_utf8 k = true /\ valid_utf8 v = true) m.
Proof.
  destruct v; cbn; try done.
  - intros _ _ [= <-]. apply map_Forall_empty.
  - apply map_members_valid.
Qed.

Lemma event_set_valid f v e e' : strings_valid v = true -> event_utf8 e -> event_set f v e = Some e' -> event_utf8 e'.
Proof.
  intros Hv [Hs Ha Hx]. rewrite !Forall_cons in Hs. destruct Hs as (H1 & H2 & H3 & H4 & H5 & H6 & H7 & _). unfold event_set.
  repeat (case_if; [match goal with |- option_map _ ?o = _ -> _ => destruct o eqn:Ed; [|done] end; intros [= <-];
    split; cbn; rewrite ?Forall_cons; split_and?; eauto using decode_str_valid, map_unjson_valid|]).
  - destruct v; cbn in Ed; simplify_eq; try done. repeat case_match; by simplify_eq.
  - intros [= <-]. split; rewrite ?Forall_cons; split_and?; done.
Qed.

Lemma zero_event_utf8 : event_utf8 zero_event.
Proof. split; [rewrite !Forall_cons; split_and!; done|apply map_Forall_empty|done]. Qed.

Lemma event_unjson_valid data e : event_unjson data = Some e -> valid_event e = true.
Proof.
  unfold event_unjson. destruct (parse data) as [v|] eqn:Ep; [|done]. apply parse_strings in Ep. intros He.
  apply event_utf8_valid. revert He. destruct v as [| | | | |l]; cbn [decode_struct]; try done.
  { intros [= <-]. apply zero_event_utf8. }
  pose proof zero_event_utf8 as Hz. revert Hz. generalize zero_event. cbn in Ep. induction l as [|[k v] l IH]; cbn; intros e0 H0; [by intros [= <-]|].
  cbn in Ep. apply andb_prop in Ep as [[_ Hv]%andb_prop Hl]. destruct (match_field _ k) as [f|]; [|by apply IH].
  destruct (event_set f v e0) as [e1|] eqn:E; [|done]. apply IH; [done|]. by eapply event_set_valid.
Qed.

(** What the worker normalizes is the event it decoded. *)
Lemma event_reencoded data e j : event_unjson data = Some e -> event_json e = Some j -> event_unjson (marshal j) = Some e.
Proof.
  intros Hd%event_unjson_valid E. destruct (event_json_ok _ _ E Hd) as [Hj Hdep]. unfold event_unjson.
  rewrite parse_marshal by (done || (unfold max_nesting; lia)). by apply decode_event.
Qed.

(** *** The point of a bound frame *)

Lemma filter_unique {A} (f : A -> string) l a : NoDup (map f l) -> a ∈ l -> List.filter (fun x => String.eqb (f x) (f a)) l = [a].
Proof.
  induction l as [|b l IH]; [by intros _ ?%elem_of_nil|]. cbn. intros [Hb Hn]%NoDup_cons [->|Ha]%elem_of_cons.
  - rewrite String.eqb_refl. f_equal. apply filter_none. intros x Hx. apply String.eqb_neq. intros E. apply Hb. rewrite <- E.
    apply list_elem_of_In, in_map, Hx.
  - destruct (String.eqb_spec (f b) (f a)) as [E|_]; [|auto]. destruct Hb. rewrite E. apply list_elem_of_fmap. by exists a.
Qed.

(** With one connector, the fixture answers from the last entry at an address,
    whatever bytes the connector's name has. *)
Lemma same_connector_lookup c l es : Forall (fun e => ConnectorID e = c) es ->
  fold_left forward_entry es ∅ !! key c l = option_map PointID (last_entry (at_address c l) es).
Proof.
  induction es as [|e es IH] using rev_ind; intros Hf; [done|]. apply Forall_app in Hf as [Hf He].
  apply Forall_singleton in He as <-. rewrite fold_left_app, last_entry_snoc. cbn [fold_left].
  unfold forward_entry at 1, at_address at 1. rewrite String.eqb_refl.
  destruct (String.eqb (ReleaseOf e) ""); cbn [andb]; [|auto].
  destruct (String.eqb_spec (LocalID e) l) as [<-|Hne]; [by rewrite lookup_insert_eq|].
  rewrite lookup_insert_ne; [auto|]. unfold key. intros E.
  assert (forall s, s +:+ String nul (LocalID e) = s +:+ String nul l -> LocalID e = l) as Hk; [|by apply Hk in E].
  clear. induction s as [|x s IHs]; cbn; [by intros [= ->]|]. intros [= E]. auto.
Qed.

Lemma filter_at c l es : Forall (fun e => ConnectorID e = c) es ->
  List.filter (at_address c l) es = List.filter (fun e => String.eqb (LocalID e) l) (List.filter is_native es).
Proof.
  induction 1 as [|e es He _ IH]; [done|]. cbn. unfold at_address at 1, is_native at 1. rewrite He, String.eqb_refl, IH.
  destruct (String.eqb (ReleaseOf e) ""); [|done]. cbn. by destruct (String.eqb (LocalID e) l).
Qed.

Lemma staged_lookup data scope s e : StageClock data scope = Ok s -> e ∈ cl_entries s -> ReleaseOf e = "" ->
  Resolve (NewFixture (cl_entries s)) (ClockConfig.sc_ConnectorID scope) (LocalID e) = Some (PointID e).
Proof.
  intros (_ & Hp & [Hs _ Ha _ _ _ _ _ _])%StageClock_coherent He Hr. unfold Resolve, fixture_resolver, NewFixture.
  assert (Forall (fun e => ConnectorID e = ClockConfig.sc_ConnectorID scope) (cl_entries s)) as Hc
    by (eapply Forall_impl; [exact Hs|]; by intros ? []).
  rewrite same_connector_lookup by done. unfold last_entry. rewrite filter_at by done.
  rewrite Hp in Ha. apply NoDup_app in Ha as (Ha & _ & _). rewrite map_map in Ha. cbn in Ha.
  rewrite filter_unique; [done|done|]. apply elem_of_filter_In. split; [done|]. unfold is_native. by rewrite Hr.
Qed.

Section Theorems.
  Context {D : Type} `{FrameDBLaws D} `{FrameCodecLaws} `{GoTime} `{GoClock} (scope : ClockScope).
  Context (records : gmap string sessionRecord)
    (Hstaged : forall id r, records !! id = Some r -> StageClock (cl_raw (sr_snapshot r)) scope = Ok (sr_snapshot r)).

(** An event that belongs to a session: the point it names and the clock
    attributes that point requires. *)
Record belongs (r : sessionRecord) (evt : Event) (e : Entry) : Prop := {
  be_point : e ∈ cl_entries (sr_snapshot r) /\ ReleaseOf e = "";
  be_address : LocalID e = ev_LocalID evt /\ DeviceRef e = ev_DeviceRef evt;
  be_connector : ev_ConnectorID evt = ClockConfig.sc_ConnectorID scope /\ ev_Protocol evt = "bacnet";
  be_clocked : forall c, c ∈ nk_Clocks (cl_native (sr_snapshot r)) -> ev_LocalID evt ∈ nc_PointLocalIDs c ->
    attr (ev_Attributes evt) "sim_clock_id" = nc_ClockID c /\
    attr (ev_Attributes evt) "sim_config_revision" = Revision (sr_snapshot r);
  be_unclocked : (forall c, c ∈ nk_Clocks (cl_native (sr_snapshot r)) -> ev_LocalID evt ∉ nc_PointLocalIDs c) ->
    forall k, has_prefix k "sim_" = true -> ev_Attributes evt !! k = None;
  be_reserved : forall k, k ∈ ["sim_run_id"; "sim_step_id"; "sim_context_generation"] -> ev_Attributes evt !! k = None
}.

Lemma times_elem c l : times c l = true <-> l ∈ nc_PointLocalIDs c.
Proof.
  unfold times. rewrite existsb_exists, list_elem_of_In. split.
  - by intros (x & Hx & ->%String.eqb_eq).
  - intros Hl. exists l. split; [done|]. apply String.eqb_refl.
Qed.

Lemma clock_attrs_spec s evt : clock_attrs_ok s evt = true ->
  (forall c, c ∈ nk_Clocks (cl_native s) -> ev_LocalID evt ∈ nc_PointLocalIDs c ->
     attr (ev_Attributes evt) "sim_clock_id" = nc_ClockID c /\ attr (ev_Attributes evt) "sim_config_revision" = Revision s) /\
  ((forall c, c ∈ nk_Clocks (cl_native s) -> ev_LocalID evt ∉ nc_PointLocalIDs c) ->
   forall k, has_prefix k "sim_" = true -> ev_Attributes evt !! k = None).
Proof.
  unfold clock_attrs_ok. intros [Ha Hb]%andb_prop. split.
  - intros c Hc Hl. rewrite forallb_forall in Ha. specialize (Ha c). rewrite !andb_true_iff, !String.eqb_eq in Ha.
    destruct Ha as [Ha _]; [|done]. apply list_elem_of_In, elem_of_filter_In. by rewrite times_elem.
  - intros Hn k Hk. rewrite filter_none in Hb.
    + destruct (ev_Attributes evt !! k) as [v|] eqn:E; [|done]. apply elem_of_map_to_list, list_elem_of_In in E.
      rewrite forallb_forall in Hb. specialize (Hb _ E). cbn in Hb. by rewrite Hk in Hb.
    + intros c Hc%list_elem_of_In. apply not_true_is_false. rewrite times_elem. auto.
Qed.

Lemma reserved_spec evt k : reserved_free evt = true ->
  k ∈ ["sim_run_id"; "sim_step_id"; "sim_context_generation"] -> ev_Attributes evt !! k = None.
Proof.
  unfold reserved_free. intros [Hr _]%andb_prop Hk%list_elem_of_In. rewrite forallb_forall in Hr. specialize (Hr _ Hk).
  rewrite negb_true_iff, bool_decide_eq_false in Hr. by apply eq_None_not_Some.
Qed.

(** A frame with the value of an event. *)
Definition carries_value (f : TelemetryFrame) (v : Value) : Prop :=
  match v with
  | NumberValue x => FValue f = Some (ValueNum x)
  | StringValue s => FValue f = Some (ValueStr s)
  | BoolValue b => FValue f = Some (ValueBool b)
  | ValueInvalid => False
  end.

Lemma boundFrame_spec now data evt r f : event_unjson data = Some evt ->
  StageClock (cl_raw (sr_snapshot r)) scope = Ok (sr_snapshot r) -> boundFrame scope now evt r = Some f ->
  exists e, belongs r evt e /\ PointId f = PointID e /\ GatewayId f = ClockConfig.sc_GatewayID scope /\
    Timestamp f = ev_Timestamp evt /\ carries_value f (ev_Value evt) /\ Attributes f = event_attrs evt.
Proof.
  intros He Hs Hb. unfold boundFrame in Hb. destruct (_ || String.eqb (ev_Timestamp evt) "") eqn:E; [done|].
  rewrite !orb_false_iff, !negb_false_iff, !String.eqb_eq in E. destruct E as [[Hp Hc] Ht]. destruct (parse_nano _) as [t|]; [|done]. destruct (reserved_free evt) eqn:Hr; cbn in Hb; [|done].
  destruct (find_point _ _) as [e|] eqn:Ef; [|done]. unfold find_point in Ef. apply find_some in Ef as [Hi Hl%andb_prop].
  apply list_elem_of_In in Hi. rewrite !String.eqb_eq in Hl. destruct Hl as [Hl1 Hl2].
  destruct (String.eqb_spec (DeviceRef e) (ev_DeviceRef evt)) as [Hd|]; cbn in Hb; [|done].
  destruct (clock_attrs_ok _ evt) eqn:Ha; cbn in Hb; [|done]. apply clock_attrs_spec in Ha as [Ha1 Ha2].
  destruct (event_json evt) as [j|] eqn:Ej; [|done]. unfold Normalize in Hb. rewrite (event_reencoded _ _ _ He Ej) in Hb.
  rewrite Hc, <- Hl2, (staged_lookup _ _ _ e Hs Hi Hl1) in Hb. exists e. rewrite Ht in Hb.
  destruct (ev_Value evt); try done; injection Hb as <-; cbn; (split; [|done]); split; eauto using reserved_spec.
Qed.

(** *** Classification *)

Definition keeps_receipts (w w' : worker D) : Prop :=
  forall d raw, wk_receipts w !! d = Some raw -> wk_receipts w' !! d = Some raw.

(** What a classification leaves alone. *)
Definition only_classifies (w w' : worker D) : Prop :=
  wk_buffer w' = wk_buffer w /\ wk_quarantine w' = wk_quarantine w /\ wk_archives w' = wk_archives w /\
  wk_recent w' = wk_recent w /\ keeps_receipts w w'.

Definition run_bound (r : sessionRecord) (frame : TelemetryFrame) : bool :=
  negb (String.eqb (RunClockID r) "") && String.eqb (attr (Attributes frame) "sim_clock_id") (RunClockID r).

Lemma only_classifies_refl w : only_classifies w w.
Proof. split_and!; try done. by intros d raw. Qed.
#[local] Hint Resolve only_classifies_refl : core.

Lemma bind_fresh_spec (w : worker D) run m r frame start end_ x w' res : wk_receipts w !! digest m r = None ->
  bind_fresh scope w run m r frame start end_ x = (w', res) ->
  only_classifies w w' /\
  (forall f, res = Ok f -> exists raw arch archive live v c a, wk_archives w !! Session r = Some arch /\
     RunLedger.Open arch {| RunLedger.sc_GatewayID := ClockConfig.sc_GatewayID scope; sc_ClockID := RunClockID r |} = Ok archive /\
     wk_run w' = Some {| run with rb_ledger := live |} /\
     classify archive (ledger live) (Revision (sr_snapshot r)) start end_ = Ok v /\ f = annotate v c a m frame /\
     wk_receipts w' !! digest m r = Some raw /\ proto_unmarshal raw = Some f).
Proof.
  intros Hn Hb. unfold bind_fresh in Hb. generalize dependent (digest m r). intros dg Hn Hb.
  assert (forall run1, only_classifies w {| w with wk_run := run1 |}) as Hsame by exact (fun _ => only_classifies_refl w).
  destruct (if io_read_archive x then _ else _) as [arch|] eqn:Ea; [|injection Hb as <- <-; split; [auto|done]].
  assert (wk_archives w !! Session r = Some arch) as Ha by by destruct (io_read_archive x).
  destruct (RunLedger.Open arch _) as [archive|] eqn:Eo; [|injection Hb as <- <-; split; [auto|done]].
  destruct (Current archive) as [c0|]; [|injection Hb as <- <-; split; [auto|done]].
  destruct (note_reset _ _ _ _) as [live ok]. destruct ok as [u|e]; [|injection Hb as <- <-; split; [apply Hsame|done]].
  destruct (classify _ _ _ _ _) as [v|] eqn:Ev; [|injection Hb as <- <-; split; [apply Hsame|done]].
  destruct (ReceiverTimes archive) as [[c a]|]; [|injection Hb as <- <-; split; [apply Hsame|done]].
  destruct (proto_marshal _) as [raw|] eqn:Em; [|injection Hb as <- <-; split; [apply Hsame|done]].
  assert (forall d raw', wk_receipts w !! d = Some raw' -> <[dg := raw]> (wk_receipts w) !! d = Some raw') as Hk.
  { intros d raw' Hd. rewrite lookup_insert_ne; [done|]. by intros <-; rewrite Hn in Hd. }
  cbn in Hb. destruct (io_receipt x); cbn in Hb; injection Hb as <- <-; (split; [split_and!; try done; intros d raw' Hd; cbn; auto|]); [|done..].
  intros f [= <-]. exists raw, arch, archive, live, v, c, a. split_and!; try done.
  - cbn. apply lookup_insert_eq.
  - by apply unmarshal_marshal.
Qed.

Lemma bindRunFrame_spec (w : worker D) m r frame x w' res : bindRunFrame scope w m r frame x = (w', res) ->
  only_classifies w w' /\
  (forall f, res = Ok f ->
     if run_bound r frame then exists raw, wk_receipts w' !! digest m r = Some raw /\ proto_unmarshal raw = Some f
     else w' = w /\ f = frame).
Proof.
  intros Hb. unfold bindRunFrame in Hb. unfold run_bound.
  destruct (String.eqb (RunClockID r) "") eqn:E1; cbn [negb andb orb] in *; [injection Hb as <- <-; split; [auto|by intros f [= <-]]|].
  destruct (String.eqb (attr (Attributes frame) "sim_clock_id") (RunClockID r)) eqn:E2; cbn [negb andb orb] in *;
    [|injection Hb as <- <-; split; [auto|by intros f [= <-]]].
  destruct (wk_run w) as [run|]; [|injection Hb as <- <-; split; [auto|done]].
  destruct (String.eqb (RunClockID r) (rb_ClockID run)); cbn [negb] in Hb; [|injection Hb as <- <-; split; [auto|done]].
  destruct (poll_interval _ _ _) as [[start end_]|]; [|injection Hb as <- <-; split; [auto|done]].
  destruct (io_read_receipt x); cbn [negb] in Hb; [|injection Hb as <- <-; split; [auto|done]].
  destruct (wk_receipts w !! digest m r) as [raw|] eqn:Er.
  - destruct (proto_unmarshal raw) as [f|] eqn:Ef; injection Hb as <- <-; (split; [auto|]); [|done].
    intros f' [= <-]. by exists raw.
  - apply bind_fresh_spec in Hb as [Ho Hf]; [|done]. split; [done|]. intros f Hres.
    destruct (Hf f Hres) as (raw & _ & _ & _ & _ & _ & _ & _ & _ & _ & _ & _ & Hr). by exists raw.
Qed.

Lemma write_file_keeps {K} `{Countable K} d (k : K) v f f' ok : write_file d k v f = (f', ok) ->
  (ok = true -> f' !! k = Some v) /\ forall k', k' <> k -> f' !! k' = f !! k'.
Proof.
  destruct d; cbn; intros [= <- <-]; split; try done; intros; rewrite ?lookup_insert_eq, ?lookup_insert_ne; done.
Qed.

Lemma quarantine_spec (w : worker D) m seq reason x w' s : quarantine w m seq reason x = (w', s) ->
  wk_buffer w' = wk_buffer w /\ wk_receipts w' = wk_receipts w /\ s <> SAck /\
  (s = STerm -> wk_quarantine w' !! seq = Some (quarantine_text reason m)).
Proof.
  unfold quarantine. destruct (write_file _ _ _ _) as [q ok] eqn:Ew. apply write_file_keeps in Ew as [Hw _].
  intros [= <- <-]. destruct ok, (io_settle x); cbn; split_and!; try done. auto.
Qed.

(** A history of deliveries, each under the sessions known then. *)
Definition deliveries (ds : list (gmap string sessionRecord * bool * delivery * io)) (w : worker D) : worker D :=
  fold_left (fun w '(rs, allowed, m, x) => fst (run_message scope rs allowed w m x)) ds w.

Lemma run_message_receipts rs allowed (w : worker D) m x : keeps_receipts w (fst (run_message scope rs allowed w m x)).
Proof.
  unfold run_message. destruct allowed; [|by intros d raw]. unfold process. destruct (dl_seq m) as [seq|]; [|by intros d raw].
  assert (forall reason w0, keeps_receipts w w0 -> keeps_receipts w (fst (quarantine w0 m seq reason x))) as Hq.
  { intros reason w0 Hw. destruct (quarantine _ _ _ _ _) as [w2 s] eqn:E. apply quarantine_spec in E as (_ & Hr & _).
    intros d raw. cbn. rewrite Hr. apply Hw. }
  destruct (session_of _ _) as [r|]; [|by apply Hq; intros d raw].
  destruct (event_unjson _) as [evt|]; [|by apply Hq; intros d raw].
  destruct (boundFrame _ _ _ _) as [frame|]; [|by apply Hq; intros d raw].
  destruct (bindRunFrame _ _ _ _ _ _) as [w1 res] eqn:Ef. destruct (bindRunFrame_spec _ _ _ _ _ _ _ Ef) as [(_ & _ & _ & _ & Hk) _].
  destruct res as [f|[]]; [|by apply Hq|done]. by destruct (Write _ f) as [b [e|]].
Qed.

Lemma deliveries_receipts ds : forall w, keeps_receipts w (deliveries ds w).
Proof.
  induction ds as [|[[[rs al] m] x] ds IH]; intros w d raw; [done|]. cbn. intros Hd. by apply IH, run_message_receipts.
Qed.

(** *** What the buffer is given *)

(** The attributes a classification may set. *)
Definition context_keys : list string :=
  ["sim_context_committed_at"; "sim_context_applied_at"; "sim_poll_started_at"; "sim_poll_ended_at"; "sim_run_status"; "sim_run_reason";
   "sim_run_id"; "sim_context_generation"].

(** A frame with another classification. *)
Definition relabelled (frame f : TelemetryFrame) : Prop :=
  GatewayId f = GatewayId frame /\ PointId f = PointId frame /\ FValue f = FValue frame /\ Timestamp f = Timestamp frame /\
  forall k, k ∉ context_keys -> Attributes f !! k = Attributes frame !! k.

Lemma relabelled_refl f : relabelled f f.
Proof. done. Qed.

Lemma annotate_relabels v c a m frame : relabelled frame (annotate v c a m frame).
Proof.
  unfold annotate. destruct (verdict_status v) as [status reason]. split_and!; [done..|]. intros k Hk. unfold context_keys in Hk.
  rewrite !not_elem_of_cons in Hk. destruct Hk as (N1 & N2 & N3 & N4 & N5 & N6 & N7 & N8 & _). cbn [Attributes]. unfold set_opt.
  destruct v, (String.eqb reason ""), (option_map format_nano a); by repeat first [rewrite lookup_insert_ne by done|rewrite lookup_delete_ne by done].
Qed.

(** A receipt is the label of a delivery of the history. *)
Definition receipt_of (ds : list (gmap string sessionRecord * bool * delivery * io)) (d raw : string) : Prop :=
  exists rs al m0 x0 r0 evt frame f, (rs, al, m0, x0) ∈ ds /\ session_of rs m0 = Some r0 /\ event_unjson (dl_data m0) = Some evt /\
    boundFrame scope (io_nowtext x0) evt r0 = Some frame /\ d = digest m0 r0 /\ proto_unmarshal raw = Some f /\ relabelled frame f.

Definition labels (w w' : worker D) (m : delivery) (r : sessionRecord) (frame : TelemetryFrame) : Prop :=
  wk_receipts w' = wk_receipts w \/
  exists raw f, wk_receipts w' = <[digest m r := raw]> (wk_receipts w) /\ proto_unmarshal raw = Some f /\ relabelled frame f.

Lemma bind_fresh_labels (w : worker D) run m r frame start end_ x : labels w (fst (bind_fresh scope w run m r frame start end_ x)) m r frame.
Proof.
  unfold bind_fresh, labels. destruct (if io_read_archive x then _ else _) as [arch|]; [|by left]. destruct (RunLedger.Open arch _) as [archive|]; [|by left].
  destruct (Current archive) as [c0|]; [|by left]. destruct (note_reset _ _ _ _) as [live [u|]]; [|by left].
  destruct (classify _ _ _ _ _) as [v|]; [|by left]. destruct (ReceiverTimes archive) as [[c a]|]; [|by left].
  destruct (proto_marshal _) as [raw|] eqn:Em; [|by left]. apply unmarshal_marshal in Em.
  destruct (io_receipt x); cbn; [right|by left|right]; exists raw, (annotate v c a m frame); split_and!; eauto using annotate_relabels.
Qed.

Lemma bindRunFrame_labels (w : worker D) m r frame x : labels w (fst (bindRunFrame scope w m r frame x)) m r frame.
Proof.
  unfold bindRunFrame. destruct (_ || _); [by left|]. destruct (wk_run w) as [run|]; [|by left]. destruct (negb _); [by left|].
  destruct (poll_interval _ _ _) as [[start end_]|]; [|by left]. destruct (negb _); [by left|].
  destruct (wk_receipts w !! digest m r) as [raw|]; [by destruct (proto_unmarshal raw); left|]. apply bind_fresh_labels.
Qed.

Lemma receipt_of_snoc ds d0 d raw : receipt_of ds d raw -> receipt_of (ds ++ [d0]) d raw.
Proof. intros (rs & al & m0 & x0 & r0 & evt & frame & f & Hin & Hr). exists rs, al, m0, x0, r0, evt, frame, f. split; [set_solver|done]. Qed.

Lemma run_message_labels rs al (w : worker D) m x ds : (forall d raw, wk_receipts w !! d = Some raw -> receipt_of ds d raw) ->
  forall d raw, wk_receipts (fst (run_message scope rs al w m x)) !! d = Some raw -> receipt_of (ds ++ [(rs, al, m, x)]) d raw.
Proof.
  intros Hw. assert (forall w0 : worker D, wk_receipts w0 = wk_receipts w -> forall d raw, wk_receipts w0 !! d = Some raw -> receipt_of (ds ++ [(rs, al, m, x)]) d raw)
    as Hsame by (intros w0 -> d raw Hd; by apply receipt_of_snoc, Hw).
  unfold run_message. destruct al; [|by apply Hsame]. unfold process. destruct (dl_seq m) as [seq|]; [|by apply Hsame].
  assert (forall reason (w0 : worker D), wk_receipts (fst (quarantine w0 m seq reason x)) = wk_receipts w0) as Hq.
  { intros reason w0. unfold quarantine. by destruct (write_file _ _ _ _). }
  destruct (session_of rs m) as [r|] eqn:Er; [|apply Hsame, Hq]. destruct (event_unjson (dl_data m)) as [evt|] eqn:Ee; [|apply Hsame, Hq].
  destruct (boundFrame scope (io_nowtext x) evt r) as [frame|] eqn:Eb; [|apply Hsame, Hq].
  pose proof (bindRunFrame_labels w m r frame x) as Hl. destruct (bindRunFrame scope w m r frame x) as [w1 res]. cbn [fst] in Hl.
  assert (forall w0 : worker D, wk_receipts w0 = wk_receipts w1 -> forall d raw, wk_receipts w0 !! d = Some raw -> receipt_of (ds ++ [(rs, true, m, x)]) d raw) as Hn.
  { intros w0 -> d raw. destruct Hl as [->|(raw1 & f & -> & Hu & Hre)]; [by apply Hsame|]. rewrite lookup_insert_Some. intros [[<- <-]|[_ Hd]]; [|by apply receipt_of_snoc, Hw].
    exists rs, true, m, x, r, evt, frame, f. split_and!; try done. apply elem_of_app. right. by left. }
  destruct res as [f|[]]; [|apply Hn, Hq|by apply Hn]. destruct (Write _ f) as [b [e|]]; by apply Hn.
Qed.

Lemma deliveries_labels ds : forall (w : worker D), wk_receipts w = ∅ ->
  forall d raw, wk_receipts (deliveries ds w) !! d = Some raw -> receipt_of ds d raw.
Proof.
  intros w Hw. induction ds as [|[[[rs al] m] x] ds IH] using rev_ind; intros d raw Hd; [cbn in Hd; by rewrite Hw in Hd|].
  unfold deliveries in Hd. rewrite fold_left_app in Hd. cbn in Hd. by eapply run_message_labels.
Qed.

(** A history whose digests tell acquisitions apart: SHA-256 gives this delivery
    and an earlier one the same digest only if they carry the same bytes for the
    same archived session. *)
Definition told_apart (ds : list (gmap string sessionRecord * bool * delivery * io)) (m : delivery) : Prop :=
  forall rs al m0 x0 r0 r, (rs, al, m0, x0) ∈ ds -> session_of rs m0 = Some r0 -> session_of records m = Some r ->
    digest m0 r0 = digest m r -> dl_data m0 = dl_data m /\ sr_snapshot r0 = sr_snapshot r.

(** The frame of an event under its session. *)
Definition frame_of (r : sessionRecord) (evt : Event) (f : TelemetryFrame) : Prop :=
  exists e, belongs r evt e /\ PointId f = PointID e /\ GatewayId f = ClockConfig.sc_GatewayID scope /\ Timestamp f = ev_Timestamp evt /\
    carries_value f (ev_Value evt) /\ forall k, k ∉ context_keys -> Attributes f !! k = event_attrs evt !! k.

Lemma relabelled_frame_of r evt frame f : (exists e, belongs r evt e /\ PointId frame = PointID e /\ GatewayId frame = ClockConfig.sc_GatewayID scope /\
    Timestamp frame = ev_Timestamp evt /\ carries_value frame (ev_Value evt) /\ Attributes frame = event_attrs evt) ->
  relabelled frame f -> frame_of r evt f.
Proof.
  intros (e & Hb & Hp & Hg & Ht & Hv & Ha) (Rg & Rp & Rv & Rt & Ra). exists e. split_and!; [done|congruence..| |].
  - unfold carries_value in *. by rewrite Rv.
  - intros k Hk. by rewrite (Ra k Hk), Ha.
Qed.

Lemma belongs_snapshot r r' evt e : sr_snapshot r' = sr_snapshot r -> belongs r evt e -> belongs r' evt e.
Proof. intros Hs []. split; rewrite ?Hs; done. Qed.

(** What a successful binding hands to the buffer. *)
Lemma bindRunFrame_frame (ds : list (gmap string sessionRecord * bool * delivery * io)) (w : worker D) m x r evt frame w' f :
  (forall d raw, wk_receipts w !! d = Some raw -> receipt_of ds d raw) -> told_apart ds m ->
  StageClock (cl_raw (sr_snapshot r)) scope = Ok (sr_snapshot r) -> session_of records m = Some r -> event_unjson (dl_data m) = Some evt ->
  boundFrame scope (io_nowtext x) evt r = Some frame -> bindRunFrame scope w m r frame x = (w', Ok f) -> frame_of r evt f.
Proof.
  intros Hrec Hapart Hst Hr He Hb Hf. pose proof (boundFrame_spec _ _ _ _ _ He Hst Hb) as Hs.
  unfold bindRunFrame in Hf. destruct (_ || _); [injection Hf as <- <-; eauto using relabelled_frame_of, relabelled_refl|].
  destruct (wk_run w) as [run|]; [|done]. destruct (negb _); [done|]. destruct (poll_interval _ _ _) as [[start end_]|]; [|done].
  destruct (negb _); [done|]. destruct (wk_receipts w !! digest m r) as [raw|] eqn:Er.
  - destruct (proto_unmarshal raw) as [f'|] eqn:Eu; [|done]. injection Hf as <- <-.
    destruct (Hrec _ _ Er) as (rs & al & m0 & x0 & r0 & evt0 & fr0 & f0 & Hin & Hr0 & He0 & Hb0 & Hd & Hu & Hl). assert (f0 = f') as -> by congruence.
    destruct (Hapart _ _ _ _ _ _ Hin Hr0 Hr (eq_sym Hd)) as [Edata Esnap]. rewrite Edata, He in He0. injection He0 as <-.
    destruct (boundFrame_spec _ _ evt r0 _ He ltac:(by rewrite Esnap) Hb0) as (e & Hbe & Hrest). eapply relabelled_frame_of; [|exact Hl].
    exists e. split; [by eapply belongs_snapshot|done].
  - apply bind_fresh_spec in Hf as [_ Hf]; [|done]. destruct (Hf f eq_refl) as (? & ? & ? & ? & v & c & a & _ & _ & _ & _ & -> & _).
    eapply relabelled_frame_of; [exact Hs|apply annotate_relabels].
Qed.

(** Why a delivery is asked for again. *)
Inductive retried (w : worker D) (m : delivery) (x : io) : Prop :=
| RetryMeta : dl_seq m = None -> retried w m x
| RetrySettle : io_settle x = false -> retried w m x
| RetryQuarantine : io_quarantine x <> DiskOk -> retried w m x
| RetryBind r evt frame w1 : session_of records m = Some r -> event_unjson (dl_data m) = Some evt ->
    boundFrame scope (io_nowtext x) evt r = Some frame -> run_bound r frame = true ->
    bindRunFrame scope w m r frame x = (w1, Err BindFailed) -> retried w m x
| RetryWrite f b e : Write (wk_buffer w) f = (b, Some e) -> retried w m x.

(** Why a delivery is set aside, and under which reason. *)
Inductive refused (m : delivery) (x : io) : string -> Prop :=
| RefuseSession : session_of records m = None -> refused m x unknown_session
| RefuseText : event_unjson (dl_data m) = None -> refused m x unknown_session
| RefuseEvent r evt : session_of records m = Some r -> event_unjson (dl_data m) = Some evt ->
    boundFrame scope (io_nowtext x) evt r = None -> refused m x unmatched_event
| RefusePoll r evt frame : session_of records m = Some r -> event_unjson (dl_data m) = Some evt ->
    boundFrame scope (io_nowtext x) evt r = Some frame -> run_bound r frame = true -> poll_interval (io_now x) m frame = None ->
    refused m x unmatched_event.

(** The quarantine gained at most this delivery. *)
Definition set_aside (w w' : worker D) (m : delivery) (x : io) : Prop :=
  exists seq reason, dl_seq m = Some seq /\ refused m x reason /\ wk_quarantine w' = <[seq := quarantine_text reason m]> (wk_quarantine w).

(** What [process] promises of each settlement. *)
Definition settles (w : worker D) (m : delivery) (x : io) (w' : worker D) (s : settled) : Prop :=
  match s with
  | SAck => wk_quarantine w' = wk_quarantine w /\
      exists r evt f, session_of records m = Some r /\ sr_verified r = true /\ event_unjson (dl_data m) = Some evt /\ frame_of r evt f /\
        Write (wk_buffer w) f = (wk_buffer w', None)
  | STerm => wk_buffer w' = wk_buffer w /\ set_aside w w' m x
  | SNak => retried w m x /\ (wk_quarantine w' = wk_quarantine w \/ set_aside w w' m x) /\
      (wk_buffer w' = wk_buffer w \/
       exists r evt f, session_of records m = Some r /\ event_unjson (dl_data m) = Some evt /\ frame_of r evt f /\ wk_buffer w' = fst (Write (wk_buffer w) f))
  end.

Lemma quarantine_settles (w w0 : worker D) m seq reason x w' s : dl_seq m = Some seq -> refused m x reason -> only_classifies w w0 ->
  quarantine w0 m seq reason x = (w', s) -> settles w m x w' s.
Proof.
  intros Hs Hr (Hb & Hq & _). unfold quarantine, write_file. destruct (io_quarantine x) eqn:Ed; intros [= <- <-]; cbn.
  - destruct (io_settle x) eqn:Ei; cbn; rewrite Hq.
    + split; [done|]. by exists seq, reason.
    + split; [by apply RetrySettle|]. split; [|by left]. right. by exists seq, reason.
  - split; [by apply RetryQuarantine; rewrite Ed|]. split; by left.
  - split; [by apply RetryQuarantine; rewrite Ed|]. split; [|by left]. right. exists seq, reason. by rewrite Hq.
Qed.

Lemma session_of_verified m r : session_of records m = Some r -> sr_verified r = true /\ StageClock (cl_raw (sr_snapshot r)) scope = Ok (sr_snapshot r).
Proof.
  unfold session_of. destruct (records !! _) as [r0|] eqn:El; [|done]. destruct (sr_verified r0) eqn:Ev; cbn; [|done].
  destruct (String.eqb _ _); [|done]. intros [= <-]. split; [done|]. by eapply Hstaged.
Qed.

Lemma bindRunFrame_failed (w : worker D) m r frame x w1 e : bindRunFrame scope w m r frame x = (w1, Err e) -> run_bound r frame = true /\
  (e = InvalidPoll -> poll_interval (io_now x) m frame = None).
Proof.
  unfold bindRunFrame, run_bound. intros Hb. destruct (String.eqb (RunClockID r) "") eqn:E1; cbn [negb andb orb] in *; [done|].
  destruct (String.eqb (attr (Attributes frame) "sim_clock_id") (RunClockID r)) eqn:E2; cbn [negb andb orb] in *; [|done]. split; [done|]. intros ->.
  destruct (wk_run w) as [run|]; [|done]. destruct (negb _); [done|]. destruct (poll_interval _ _ _) as [[start end_]|]; [|done]. exfalso.
  destruct (negb _); [done|]. destruct (wk_receipts w !! digest m r) as [raw|]; [by destruct (proto_unmarshal raw)|]. unfold bind_fresh in Hb.
  destruct (if io_read_archive x then _ else _) as [arch|]; [|done]. destruct (RunLedger.Open arch _) as [archive|]; [|done].
  destruct (Current archive) as [c0|]; [|done]. destruct (note_reset _ _ _ _) as [live [u|]]; [|done]. destruct (classify _ _ _ _ _) as [v|]; [|done].
  destruct (ReceiverTimes archive) as [[c a]|]; [|done]. destruct (proto_marshal _); [|done]. by destruct (io_receipt x).
Qed.

(** C17: What becomes of a delivery, at any point of a worker's life.  It is
    acknowledged only after the buffer took its frame, and the buffered frame,
    classification and receipt included, is the one of the verified session the
    delivery names: the point that session's snapshot maps the event's address to,
    under the clock that snapshot gives it, with the event's value, time and
    attributes, where only the run-context attributes may differ.  It is terminated
    only when it is in quarantine with its bytes under a reason that applies, and
    then nothing was buffered and nothing else in quarantine changed.  It is
    delivered again only for a failure of this delivery: unreadable metadata, a
    failed settlement, quarantine write, buffer write or run-context lookup; and
    then at most its own frame was buffered or its own bytes set aside.  Receipts
    start empty, and digests tell acquisitions apart. *)
Theorem process_settles (w0 : worker D) (ds : list (gmap string sessionRecord * bool * delivery * io)) (m : delivery) (x : io)
    (w' : worker D) (s : settled) :
  wk_receipts w0 = ∅ -> told_apart ds m -> process scope records (deliveries ds w0) m x = (w', s) -> settles (deliveries ds w0) m x w' s.
Proof.
  intros Hempty Hapart Hp. pose proof (deliveries_labels ds w0 Hempty) as Hrec. generalize dependent (deliveries ds w0). intros w Hp Hrec.
  unfold process in Hp. destruct (dl_seq m) as [seq|] eqn:Es; [|injection Hp as <- <-; split; [by apply RetryMeta|split; by left]].
  destruct (session_of records m) as [r|] eqn:Er; [|eapply quarantine_settles; [done|by apply RefuseSession|apply only_classifies_refl|exact Hp]].
  destruct (event_unjson (dl_data m)) as [evt|] eqn:Ee; [|eapply quarantine_settles; [done|by apply RefuseText|apply only_classifies_refl|exact Hp]].
  destruct (boundFrame _ _ _ _) as [frame|] eqn:Eb; [|eapply quarantine_settles; [done|by eapply RefuseEvent|apply only_classifies_refl|exact Hp]].
  destruct (session_of_verified _ _ Er) as [Hv Hst]. destruct (bindRunFrame scope w m r frame x) as [w1 res] eqn:Ef.
  destruct (bindRunFrame_spec _ _ _ _ _ _ _ Ef) as [Ho _]. pose proof Ho as (Hb & Hqu & _). destruct res as [f|e].
  - pose proof (bindRunFrame_frame ds _ _ _ _ _ _ _ _ Hrec Hapart Hst Er Ee Eb Ef) as Hfr. rewrite Hb in Hp.
    destruct (Write (wk_buffer w) f) as [b [e|]] eqn:Ew; injection Hp as <- <-; cbn.
    + split; [by eapply RetryWrite|]. split; [by left|]. right. exists r, evt, f. by rewrite Ew.
    + destruct (io_settle x) eqn:Ei; cbn; [split; [done|]; by exists r, evt, f|]. split; [by apply RetrySettle|]. split; [by left|].
      right. exists r, evt, f. by rewrite Ew.
  - destruct (bindRunFrame_failed _ _ _ _ _ _ _ Ef) as [Hrb Hpi]. destruct e.
    + eapply quarantine_settles; [done|eapply RefusePoll; eauto|exact Ho|exact Hp].
    + injection Hp as <- <-. split; [by eapply RetryBind|]. split; left; done.
Qed.

(** The classification of an acquisition is made once: however the run
    context, the ledger, the sessions and the clock move on between, a
    redelivery of the same acquisition is given the very frame the first one
    was given. *)
Theorem classification_stable (w : worker D) (m : delivery) (r : sessionRecord) (frame : TelemetryFrame) (x : io)
    (w1 : worker D) (f1 : TelemetryFrame) (ds : list (gmap string sessionRecord * bool * delivery * io)) (x2 : io)
    (w2 : worker D) (f2 : TelemetryFrame) :
  run_bound r frame = true -> bindRunFrame scope w m r frame x = (w1, Ok f1) ->
  bindRunFrame scope (deliveries ds w1) m r frame x2 = (w2, Ok f2) -> f2 = f1.
Proof.
  intros Hb Ha Hc. apply bindRunFrame_spec in Ha as [_ Ha]. specialize (Ha f1 eq_refl). rewrite Hb in Ha.
  destruct Ha as (raw & Hr & Hu). apply (deliveries_receipts ds) in Hr.
  apply bindRunFrame_spec in Hc as [(_ & _ & _ & _ & Hk) Hc]. specialize (Hc f2 eq_refl). rewrite Hb in Hc.
  destruct Hc as (raw2 & Hr2 & Hu2). apply Hk in Hr. congruence.
Qed.

Lemma annotate_run v c a m frame : Attributes (annotate v c a m frame) !! "sim_run_id" =
  match v with Valid run _ => Some run | _ => None end.
Proof.
  unfold annotate. destruct (verdict_status v) as [status reason]. cbn [Attributes].
  destruct v; [..|by rewrite lookup_insert_ne, lookup_insert_eq by done];
    destruct (String.eqb reason ""); rewrite ?lookup_insert_ne, lookup_delete_ne, lookup_delete_eq by done; done.
Qed.

Lemma classify_valid archive live rev start end_ run gen : classify archive live rev start end_ = Ok (Valid run gen) ->
  Evaluate archive rev start end_ = Valid run gen /\ failed live = false /\ run_invalid (data live) run = false /\
  exists c, context live = Some c /\ RunID c = run.
Proof.
  unfold classify, Current, Invalidated. destruct (failed archive) eqn:Efa; [done|]. destruct (context archive) as [ca|] eqn:Eca; [|done].
  destruct (failed live) eqn:Ef; [done|]. destruct (context live) as [c|]; [|done].
  destruct (run_invalid (data live) (RunID ca)) eqn:Ei; [done|]. destruct (String.eqb_spec (RunID c) (RunID ca)) as [Er|]; cbn; [|done].
  intros [= He]. pose proof He as (_ & c' & _ & Hc & _ & Hr & _)%Evaluate_valid. rewrite Eca in Hc. injection Hc as <-. subst run.
  split_and!; try done. by exists c.
Qed.

(** C26: A frame is first labelled with a run only on evidence: the archived
    context of its session is active for the session's revision, was applied
    before the acquisition began and covers all of it, and the live ledger is
    still on that run and has not invalidated it. *)
Theorem run_label_sound (w : worker D) (m : delivery) (r : sessionRecord) (frame : TelemetryFrame) (x : io)
    (w' : worker D) (f : TelemetryFrame) (run : string) :
  run_bound r frame = true -> wk_receipts w !! digest m r = None ->
  bindRunFrame scope w m r frame x = (w', Ok f) -> Attributes f !! "sim_run_id" = Some run ->
  exists start end_ arch archive c a rb live, poll_interval (io_now x) m frame = Some (start, end_) /\
    wk_archives w !! Session r = Some arch /\
    RunLedger.Open arch {| RunLedger.sc_GatewayID := ClockConfig.sc_GatewayID scope; sc_ClockID := RunClockID r |} = Ok archive /\
    context archive = Some c /\ RunID c = run /\ ProvisioningRevision c = Revision (sr_snapshot r) /\ cx_Status c <> "revoked" /\
    AppliedAt (data archive) = Some a /\ t_ns a <= t_ns start /\ t_ns (ValidFrom c) <= t_ns start <= t_ns end_ /\
    t_ns end_ < t_ns (ExpiresAt c) /\
    wk_run w' = Some rb /\ live = ledger (rb_ledger rb) /\ failed live = false /\ run_invalid (data live) run = false /\
    exists c', context live = Some c' /\ RunID c' = run.
Proof.
  unfold run_bound, bindRunFrame. intros [Hx%negb_true_iff Hy]%andb_prop Hn Hb Ha. rewrite Hx, Hy in Hb. cbn [negb orb] in Hb.
  destruct (wk_run w) as [rb|]; [|done]. destruct (String.eqb _ (rb_ClockID rb)); cbn [negb] in Hb; [|done].
  destruct (poll_interval _ _ _) as [[start end_]|]; [|done]. destruct (io_read_receipt x); cbn [negb] in Hb; [|done].
  rewrite Hn in Hb. apply bind_fresh_spec in Hb as [_ Hf]; [|done].
  destruct (Hf f eq_refl) as (raw & arch & archive & live & v & c0 & a0 & Hs & Ho & Hw & Hv & -> & _).
  rewrite annotate_run in Ha. destruct v; try done. injection Ha as ->.
  apply classify_valid in Hv as (He & Hfl & Hi & c' & Hc' & Hr').
  apply Evaluate_valid in He as (_ & c & a & Hc & Hap & Hr & _ & Hrev & Hst & Hv1 & Hv2 & Hv3 & Hv4 & _). unfold before in *.
  exists start, end_, arch, archive, c, a, {| rb with rb_ledger := live |}, (ledger live).
  split_and!; try done; try lia. by exists c'.
Qed.
End Theorems.

(** ** A concrete worker *)

Module ClockWorkerExample.
Import ListDB CountableCodec RunLedgerExample ClockConfigExample.

#[export] Instance digits_clock : GoClock := {|
  parse_nano s := if negb (String.eqb s "") && all_digits s then Some (utc (digits_val 0 s)) else None;
  format_nano t := dec_string (t_ns t)
|}.

Definition run_scope : Scope := {| sc_GatewayID := "gw-1"; sc_ClockID := "sim" |}.
Definition run_context : Context :=
  {| SchemaVersion := schema; cx_GatewayID := "gw-1"; cx_ClockID := "sim"; ProvisioningRevision := Revision snap; RunID := "run-a";
     Generation := 1; cx_Status := "active"; IssuedAt := utc 1; ValidFrom := utc 10; ExpiresAt := utc 100 |}.
Definition live : RunLedger.store := Eval vm_compute in
  match Initialize run_scope with
  | Ok s => led_run run_scope s [OpCommit (default "" (context_text run_context)) (utc 5) DiskOk; OpApply (utc 12) DiskOk]
  | Err _ => s0
  end.

Definition record : sessionRecord :=
  {| RunClockID := "sim"; Session := "s1"; sr_snapshot := snap; nativeHash := ""; sr_verified := true |}.
Definition records : gmap string sessionRecord := {["s1" := record]}.
Lemma records_staged id r : records !! id = Some r -> StageClock (cl_raw (sr_snapshot r)) scope = Ok (sr_snapshot r).
Proof. unfold records. intros [<- <-]%lookup_singleton_Some. exact snap_staged. Qed.

Definition reading : Event :=
  mkEvent "bacnet" "bac-1" "analogOutput,3" "7" (BoolValue true) "" "Good" "25"
    (<["sim_clock_id" := "sim"]> (<["sim_config_revision" := Revision snap]> {["sim_run_status" := "absent"]})).
Definition message : delivery :=
  {| dl_subject := "evt.bacnet.bac-1"; dl_data := marshal (default JNull (event_json reading)); dl_seq := Some 1;
     dl_headers := <["Nexus-Session" := ["s1"]]> (<["Nexus-Config-Revision" := [Revision snap]]>
       (<["Nexus-Poll-Started-At" := ["20"]]> {["Nexus-Poll-Ended-At" := ["30"]]})) |}.
Definition fine (now : Z) : io :=
  {| io_now := utc now; io_nowtext := ""; io_read_receipt := true; io_read_archive := true; io_ledger := DiskOk;
     io_receipt := DiskOk; io_quarantine := DiskOk; io_settle := true |}.
Definition worker0 : worker listdb :=
  {| wk_buffer := BufferExample.start []; wk_run := Some {| rb_ClockID := "sim"; rb_ledger := live |};
     wk_archives := {["s1" := file live]}; wk_receipts := ∅; wk_quarantine := ∅; wk_recent := [] |}.
Definition bound0 : TelemetryFrame := default empty_frame (boundFrame scope "" reading record).

(** The acknowledgement of a first delivery is lost, and the message comes
    again. *)
Definition unsettled : io := let x := fine 40 in {| x with io_settle := false |}.
Definition earlier : list (gmap string sessionRecord * bool * delivery * io) := [(records, true, message, unsettled)].

Lemma earlier_apart : told_apart records earlier message.
Proof. intros rs al m0 x0 r0 r [= -> -> -> ->]%list_elem_of_singleton H1 H2 _. split; [done|congruence]. Qed.

Lemma process_settles_witness : exists w' e f, process scope records (deliveries scope earlier worker0) message (fine 90) = (w', SAck) /\
  belongs scope record reading e /\ PointID e = PointId f /\ Write (wk_buffer (deliveries scope earlier worker0)) f = (wk_buffer w', None).
Proof.
  destruct (process scope records (deliveries scope earlier worker0) message (fine 90)) as [w' s] eqn:E.
  assert (s = SAck) as -> by (change s with (snd (w', s)); rewrite <- E; vm_compute; reflexivity).
  destruct (process_settles scope records records_staged worker0 earlier message (fine 90) w' SAck eq_refl earlier_apart E)
    as (_ & r & evt & f & Hr & _ & He & (e & Hbe & Hp & _) & Hw).
  assert (r = record) as -> by (vm_compute in Hr; injection Hr as <-; reflexivity).
  assert (evt = reading) as ->.
  { assert (event_unjson (dl_data message) = Some reading) as Hx by (vm_compute; reflexivity). congruence. }
  exists w', e, f. split; [reflexivity|]. split; [exact Hbe|]. split; [symmetry; exact Hp|exact Hw].
Defined.

Definition first : worker listdb := fst (bindRunFrame scope worker0 message record bound0 (fine 40)).
Definition labelled : TelemetryFrame :=
  match snd (bindRunFrame scope worker0 message record bound0 (fine 40)) with Ok f => f | Err _ => empty_frame end.

Lemma first_bound : bindRunFrame scope worker0 message record bound0 (fine 40) = (first, Ok labelled).
Proof.
  unfold first, labelled. destruct (bindRunFrame _ _ _ _ _ _) as [w res] eqn:E. cbn [fst snd].
  assert (is_ok (snd (w, res)) = true) as Hx by (rewrite <- E; vm_compute; reflexivity). clear E.
  destruct res; [reflexivity|discriminate Hx].
Qed.

(** Long after the run expired, the redelivery carries the same label. *)
Lemma classification_stable_witness :
  Attributes labelled !! "sim_run_id" = Some "run-a" /\
  snd (bindRunFrame scope (deliveries scope [(records, true, message, fine 90)] first) message record bound0 (fine 500)) = Ok labelled.
Proof.
  split; [vm_compute; reflexivity|].
  destruct (bindRunFrame scope (deliveries scope [(records, true, message, fine 90)] first) message record bound0 (fine 500))
    as [w2 res] eqn:E. cbn [snd].
  assert (is_ok (snd (w2, res)) = true) as Hx by (rewrite <- E; vm_compute; reflexivity). destruct res as [f2|]; [|discriminate Hx].
  apply (f_equal Ok). apply (classification_stable scope worker0 message record bound0 (fine 40) first labelled
    [(records, true, message, fine 90)] (fine 500) w2 f2); [vm_compute; reflexivity|exact first_bound|exact E].
Defined.

Lemma run_label_sound_witness : exists archive c, context archive = Some c /\ RunID c = "run-a" /\
  ProvisioningRevision c = Revision snap /\ exists rb, wk_run first = Some rb /\ run_invalid (data (ledger (rb_ledger rb))) "run-a" = false.
Proof.
  destruct (run_label_sound scope worker0 message record bound0 (fine 40) first labelled "run-a")
    as (st & en & ar & archive & c & a & rb & lv & H1 & H2 & H3 & H4 & H5 & H6 & _ & _ & _ & _ & _ & H7 & -> & _ & H8 & _);
    [vm_compute; reflexivity|vm_compute; reflexivity|exact first_bound|vm_compute; reflexivity|].
  exists archive, c. split; [exact H4|]. split; [exact H5|]. split; [exact H6|]. exists rb. split; [exact H7|exact H8].
Defined.
End ClockWorkerExample.
