(* ===== verification/ClockGateway.v ===== *)
(** * The clock gateway

    [src/internal/clocksync]: the adapters behind the runtime of [ClockSync],
    namely the admission gate of [gateway.go], the managed connector of
    [connector.go] over the exclusive lifecycle handle, the session store of
    [sessions.go], the run-context activation of [run_context.go] and the NATS
    settings of [nats.go].

    NATS, files, random identifiers and deadlines are an interface without
    laws: every answer and every failure is possible.  The theorems show that
    these adapters meet the contract of the runtime, so that the controller's
    guarantees hold of the gateway; that nothing is in flight behind the drain
    barrier; and what happens when a started producer no longer answers. *)

From Stdlib Require Import ZArith Lia Bool Ascii String List.
From stdpp Require Import base list strings gmap.
From S2P Require Import Prelude Json GoText Sha256 Float Encoding PointList Provisioning Catalog Lifecycle RunLedger.
From S2P Require Import ClockConfig ClockSync ClockWorker.
#[local] Open Scope string_scope.
#[local] Open Scope list_scope.
#[local] Open Scope Z_scope.

(** ** The outside *)

(** What [url.Parse] finds of a server address. *)
Record server_url := { su_scheme : string; su_host : string; su_user : bool; su_query : string; su_fragment : string }.

(** One poll of the drain loop: the consumer's counts and whether the worker is
    idle. *)
Inductive poll := PollFailed | Polled (pending ackPending : Z) (idle : bool).

(** [k_ask] is the first reply to a request that comes before the context
    ends, if one does; [k_idle] whether the operations in flight end before the
    context does; [k_polls] the polls of a drain, the context ending after the
    last; [k_stopping] a read of the shutdown flag; [k_random] random bytes. *)
Class Outside (K : Type) := {
  k_ended : K -> bool;
  k_ask : K -> string -> K * option string;
  k_idle : K -> K * bool;
  k_polls : K -> K * list poll;
  k_stopping : K -> K * bool;
  k_write : K -> K * disk;
  k_random : K -> K * option string;
  k_now : K -> K * instant;
  k_url : K -> string -> option server_url;
  k_regular : K -> string -> bool
}.

(** ** Sessions *)

(** The state directory: [native/<id>.json], [sessions/<id>.json] by what it
    decodes to, [sessions/<id>.json.verified], [run-context/<id>.json] and
    [active.json]; it is at [g_path]. *)
Record session_file := { sf_RunClockID : string; sf_Session : string; sf_Snapshot : string }.
Record directory := {
  d_native : gmap string string; d_sessions : gmap string session_file; d_verified : gmap string string;
  d_archives : gmap string string; d_active : option string
}.

Record gateway (D K : Type) := {
  g_outside : K; g_manager : Manager D; g_owner : Exclusive; g_base : ConnectorSpec; g_scope : ClockScope;
  g_path : string; g_dir : directory; g_records : gmap string sessionRecord; g_record : option string; g_started : bool;
  g_discovered : bool; g_held : bool; g_run : option runBinding
}.
Arguments g_outside {D K} _.
Arguments g_manager {D K} _.
Arguments g_owner {D K} _.
Arguments g_base {D K} _.
Arguments g_scope {D K} _.
Arguments g_path {D K} _.
Arguments g_dir {D K} _.
Arguments g_records {D K} _.
Arguments g_record {D K} _.
Arguments g_started {D K} _.
Arguments g_discovered {D K} _.
Arguments g_held {D K} _.
Arguments g_run {D K} _.

Definition point_json (p : NativeClockPoint) : json :=
  JObj [("local_id", JStr (np_LocalID p)); ("device_ref", JStr (np_DeviceRef p)); ("unit", JStr (np_Unit p));
        ("writable", JBool (np_Writable p))].
Definition clock_json (c : NativeClock) : json :=
  JObj [("clock_id", JStr (nc_ClockID c)); ("local_id", JStr (nc_LocalID c)); ("property", JStr (nc_Property c));
        ("point_local_ids", match nc_PointLocalIDs c with [] => JNull | l => JArr (map JStr l) end)].
(** [json.Marshal] of a native bundle. *)
Definition native_text (n : NativeClockConfig) : string :=
  marshal (JObj [("revision", JStr (nk_Revision n)); ("connector_id", JStr (nk_ConnectorID n));
    ("device_id", JNum (itoa (nk_DeviceID n))); ("points", JArr (map point_json (nk_Points n)));
    ("clocks", JArr (map clock_json (nk_Clocks n)))]).

(** A file write: [atomicFile] may fail with the new contents in place. *)
Definition written {A} (d : disk) (old new : A) : A * bool :=
  match d with DiskOk => (new, true) | DiskBefore => (old, false) | DiskAfter => (new, false) end.

(** ** NATS settings *)

Section Auth.
  Context {K : Type} `{Outside K}.

(** The [NATS_] variables of an environment; [None] when one is refused. *)
Fixpoint nats_vars (m : gmap string string) (env : list string) : option (gmap string string) :=
  match env with
  | [] => Some m
  | entry :: env' =>
    let '(key, value, ok) := match cut_byte "=" entry with Some (k, v) => (k, v, true) | None => (entry, "", false) end in
    if negb (has_prefix key "NATS_") then nats_vars m env'
    else if negb ok || (negb (String.eqb key "NATS_URL") && negb (String.eqb key "NATS_AUTH_FILE"))
            || negb (String.eqb (default "" (m !! key)) "") || String.eqb value "" then None
    else nats_vars (<[key := value]> m) env'
  end.

Definition server_ok (u : option server_url) : bool :=
  match u with
  | None => false
  | Some u =>
    negb (String.eqb (su_host u) "") && negb (su_user u) && String.eqb (su_query u) "" && String.eqb (su_fragment u) ""
    && existsb (String.eqb (su_scheme u)) ["nats"; "tls"; "ws"; "wss"]
  end.

Definition ConnectorNATSAuthFile (k : K) (spec : ConnectorSpec) : option string :=
  match nats_vars ∅ (sp_Env spec) with
  | None => None
  | Some values =>
    let url := default "" (values !! "NATS_URL") in
    let path := default "" (values !! "NATS_AUTH_FILE") in
    if String.eqb url "" then None
    else if negb (forallb (fun a => server_ok (k_url k (trim_space a))) (split_byte "," url)) then None
    else if negb (has_prefix path "/") || existsb (fun z => contains_byte path (chr z)) [58; 13; 10] then None
    else if negb (k_regular k path) then None
    else Some path
  end.
End Auth.

(** ** The managed connector *)

Record runtimeReceipt := {
  rc_capability : string; rc_session : string; rc_revision : string; rc_hash : string; rc_paused : option bool
}.

Definition receipt_names : list string := ["capability"; "session"; "revision"; "native_sha256"; "paused"].
Definition receipt_set (f : string) (v : json) (r : runtimeReceipt) : option runtimeReceipt :=
  if String.eqb f "capability" then option_map (fun s => {| r with rc_capability := s |}) (decode_str (rc_capability r) v)
  else if String.eqb f "session" then option_map (fun s => {| r with rc_session := s |}) (decode_str (rc_session r) v)
  else if String.eqb f "revision" then option_map (fun s => {| r with rc_revision := s |}) (decode_str (rc_revision r) v)
  else if String.eqb f "native_sha256" then option_map (fun s => {| r with rc_hash := s |}) (decode_str (rc_hash r) v)
  else if String.eqb f "paused" then option_map (fun b => {| r with rc_paused := b |}) (decode_ptr decode_bool false (rc_paused r) v)
  else Some r.
Definition receipt_decode (data : string) : option runtimeReceipt :=
  match parse data with
  | Some v => decode_struct false receipt_names receipt_set (Build_runtimeReceipt "" "" "" "" None) v
  | None => None
  end.

Section Gateway.
  Context {D K : Type} `{Docker D} `{Outside K} `{GoTime} (cfg : ManagerConfig).
  Implicit Types g : gateway D K.

Definition at_ (g : gateway D K) (k : K) : gateway D K := {| g with g_outside := k |}.

Definition current (g : gateway D K) : option sessionRecord := g_record g ≫= fun id => g_records g !! id.

(** The request of an action on a session; object keys sorted. *)
Definition request_text (action : string) (r : sessionRecord) : string :=
  marshal (JObj [("action", JStr action); ("native_sha256", JStr (nativeHash r)); ("revision", JStr (Revision (sr_snapshot r)));
    ("session", JStr (Session r))]).

(** The receipt's pause flag, when the receipt names this very session. *)
Definition receipt_ok (r : sessionRecord) (data : string) : result string bool :=
  match receipt_decode data with
  | None => Err "json"
  | Some rc =>
    if negb (String.eqb (rc_capability rc) "clock-runtime/1") || negb (String.eqb (rc_session rc) (Session r))
       || negb (String.eqb (rc_revision rc) (Revision (sr_snapshot r))) || negb (String.eqb (rc_hash rc) (nativeHash r)) then
      Err "running producer receipt mismatch"
    else match rc_paused rc with Some b => Ok b | None => Err "running producer receipt mismatch" end
  end.

Definition g_request (action : string) : op (gateway D K) bool := fun g =>
  match current g with
  | None => (g, Err "missing producer session")
  | Some r =>
    let '(k, reply) := k_ask (g_outside g) (request_text action r) in
    (at_ g k, match reply with None => Err "context ended" | Some data => receipt_ok r data end)
  end.

(** [managedConnector.Stop]: once the context has ended, the first call to the
    daemon already fails. *)
Definition g_Stop : op (gateway D K) unit := fun g =>
  if k_ended (g_outside g) then (g, Err "context ended")
  else
    let '(m, e, x) := ex_Stop (g_manager g) (g_owner g) in
    let g := {| g with g_manager := m; g_owner := e |} in
    match x with
    | Ok _ => ({| g with g_started := false; g_discovered := true |}, Ok tt)
    | Err _ => (g, Err "stop")
    end.

Definition reserved_env : list string :=
  ["BACNET_POINTS"; "BACNET_CLOCK_CONFIG_FILE"; "BACNET_MANAGED_SESSION"; "BACNET_COV_ENABLED"; "BACNET_DEVICE_ID"; "CONNECTOR_ID"].

Definition env_key (e : string) : string := match cut_byte "=" e with Some (k, _) => k | None => e end.

(** The spec that runs a session: reserved variables are replaced, the bundle
    directory and the credentials file mounted. *)
Definition session_spec (base : ConnectorSpec) (path session authFile : string) (n : NativeClockConfig) : ConnectorSpec :=
  let perms := sp_Permissions base in
  {| base with
     sp_Env := List.filter (fun e => negb (existsb (String.eqb (env_key e)) reserved_env)) (sp_Env base)
       ++ ["BACNET_CLOCK_CONFIG_FILE=" +:+ path +:+ "/native/" +:+ session +:+ ".json"; "BACNET_MANAGED_SESSION=" +:+ session;
           "BACNET_COV_ENABLED=false"; "BACNET_DEVICE_ID=" +:+ itoa (nk_DeviceID n)];
     sp_Permissions := {| perms with Mounts := Mounts perms ++ [path +:+ "/native"; authFile] |} |}.

Definition g_Configure (n : NativeClockConfig) : op (gateway D K) unit := fun g =>
  match current g with
  | None => (g, Err "missing prepared snapshot")
  | Some r =>
    if negb (String.eqb (nk_Revision n) (Revision (sr_snapshot r))) then (g, Err "missing prepared snapshot")
    else
      match ConnectorNATSAuthFile (g_outside g) (g_base g) with
      | None => (g, Err "managed NATS settings")
      | Some authFile =>
        let '(m, x) := ex_Configure (g_manager g) (g_owner g) (session_spec (g_base g) (g_path g) (Session r) authFile n) in
        ({| g with g_manager := m |}, match x with Ok u => Ok u | Err _ => Err "configure" end)
      end
  end.

Definition g_Start : op (gateway D K) unit := fun g =>
  let '(k, stopping) := k_stopping (g_outside g) in
  let g := at_ g k in
  if stopping then (g, Err "gateway shutdown requested")
  else
    let g := {| g with g_started := true |} in
    if k_ended (g_outside g) then (g, Err "context ended")
    else
      let '(m, e, x) := ex_Start cfg (g_manager g) (g_owner g) in
      ({| g with g_manager := m; g_owner := e |}, match x with Ok u => Ok u | Err _ => Err "start" end).

(** [store.verify]: the receipt is durable before the record counts as
    verified. *)
Definition store_verify (r : sessionRecord) : op (gateway D K) unit := fun g =>
  let '(k, d) := k_write (g_outside g) in
  let dir := g_dir g in
  let '(files, ok) := written d (d_verified dir) (<[Session r := nativeHash r]> (d_verified dir)) in
  let g := at_ g k in
  let g := {| g with g_dir := {| dir with d_verified := files |} |} in
  if ok then ({| g with g_records := alter (fun r => {| r with sr_verified := true |}) (Session r) (g_records g) |}, Ok tt)
  else (g, Err "disk").

Definition g_Revision : op (gateway D K) string := fun g =>
  match g_request "status" g with
  | (g, Err e) => (g, Err e)
  | (g, Ok paused) =>
    if negb paused then (g, Err "candidate started without pause")
    else
      match current g with
      | None => (g, Err "missing producer session")
      | Some r =>
        match store_verify r g with
        | (g, Err e) => (g, Err e)
        | (g, Ok _) => (g, Ok (Revision (sr_snapshot r)))
        end
      end
  end.

(** ** The session store *)

(** [hex.EncodeToString] of a [[16]byte]. *)
Definition hex_id (b : string) : string := String.concat "" (map hex_byte (take 16 (bytes_of b ++ replicate 16 0))).

(** [store.create]: the bundle, then the session; the record only when both
    are durable. *)
Definition store_create (s : ClockSnapshot) : op (gateway D K) string := fun g =>
  let '(k, random) := k_random (g_outside g) in
  let g := at_ g k in
  match random with
  | None => (g, Err "random")
  | Some bytes =>
    let id := hex_id bytes in
    let native := native_text (cl_native s) in
    let r := {| RunClockID := ""; Session := id; sr_snapshot := s; nativeHash := sha256_hex native; sr_verified := false |} in
    let '(k, d1) := k_write (g_outside g) in
    let dir := g_dir g in
    let '(natives, ok) := written d1 (d_native dir) (<[id := native]> (d_native dir)) in
    let dir := {| dir with d_native := natives |} in
    let g := at_ g k in
    let g := {| g with g_dir := dir |} in
    if negb ok then (g, Err "disk")
    else
      let '(k, d2) := k_write (g_outside g) in
      let '(files, ok) := written d2 (d_sessions dir)
        (<[id := {| sf_RunClockID := ""; sf_Session := id; sf_Snapshot := cl_raw s |}]> (d_sessions dir)) in
      let g := at_ g k in
      let g := {| g with g_dir := {| dir with d_sessions := files |} |} in
      if negb ok then (g, Err "disk") else ({| g with g_records := <[id := r]> (g_records g) |}, Ok id)
  end.

Definition store_commit (r : sessionRecord) : op (gateway D K) unit := fun g =>
  let '(k, d) := k_write (g_outside g) in
  let dir := g_dir g in
  let '(active, ok) := written d (d_active dir) (Some (Session r)) in
  let g := at_ g k in
  ({| g with g_dir := {| dir with d_active := active |} |}, if ok then Ok tt else Err "disk").

Definition lastGood (g : gateway D K) : result string (option ClockSnapshot) :=
  match d_active (g_dir g) with
  | None => Ok None
  | Some id =>
    match g_records g !! id with
    | Some r => if sr_verified r then Ok (Some (sr_snapshot r)) else Err "invalid last-good session journal"
    | None => Err "invalid last-good session journal"
    end
  end.

(** ** The run context *)

Definition validateRunSnapshot (g : gateway D K) (s : ClockSnapshot) : result string unit :=
  match g_run g with
  | None => Ok tt
  | Some run =>
    match Current (ledger (rb_ledger run)) with
    | Err _ => Err "run context"
    | Ok c =>
      if negb (String.eqb (ProvisioningRevision c) (Revision s)) then Err "run context revision does not match snapshot"
      else if existsb (fun c => String.eqb (nc_ClockID c) (rb_ClockID run)) (nk_Clocks (cl_native s)) then Ok tt
      else Err "run clock is absent from snapshot"
    end
  end.

Definition activateRunSession : op (gateway D K) unit := fun g =>
  match g_run g, current g with
  | None, _ => (g, Ok tt)
  | Some _, None => (g, Err "missing session")
  | Some run, Some r =>
    let '(k, now) := k_now (g_outside g) in
    let '(k, d1) := k_write k in
    let '(live, x) := Apply (rb_ledger run) now d1 in
    let run := {| run with rb_ledger := live |} in
    let g := at_ g k in
    let g := {| g with g_run := Some run |} in
    match x with
    | Err _ => (g, Err "run context")
    | Ok _ =>
      match Archive (ledger live) now with
      | Err _ => (g, Err "run context")
      | Ok raw =>
        let '(k, d2) := k_write (g_outside g) in
        let dir := g_dir g in
        let '(archives, ok) :=
          if bool_decide (is_Some (d_archives dir !! Session r)) then (d_archives dir, false)
          else written d2 (d_archives dir) (<[Session r := raw]> (d_archives dir)) in
        let dir := {| dir with d_archives := archives |} in
        let g := at_ g k in
        let g := {| g with g_dir := dir |} in
        if negb ok then (g, Err "disk")
        else
          let '(k, d3) := k_write (g_outside g) in
          let r := {| r with RunClockID := rb_ClockID run |} in
          let '(files, ok) := written d3 (d_sessions dir)
            (<[Session r := {| sf_RunClockID := RunClockID r; sf_Session := Session r; sf_Snapshot := cl_raw (sr_snapshot r) |}]> (d_sessions dir)) in
          let g := at_ g k in
          let g := {| g with g_dir := {| dir with d_sessions := files |}; g_records := <[Session r := r]> (g_records g) |} in
          if ok then (g, Ok tt) else (g, Err "disk")
      end
    end
  end.

(** ** Admission *)

(** [Hold] once nothing is in flight: a producer left over by another process
    is stopped, one of this process asked to pause, and stopped when it does
    not answer. *)
Definition quiesce_producer : op (gateway D K) unit := fun g =>
  let '(g, found) := if g_discovered g then (g, Ok tt) else g_Stop g in
  match found with
  | Err e => (g, Err e)
  | Ok _ =>
    if g_started g then
      match g_request "quiesce" g with
      | (g, Err e) => (fst (g_Stop g), Err e)
      | (g, Ok paused) => (g, if paused then Ok tt else Err "producer quiesce unconfirmed")
      end
    else (g, Ok tt)
  end.

Definition g_Hold : op (gateway D K) unit := fun g =>
  let '(k, idle) := k_idle (g_outside g) in
  let g := at_ g k in
  let g := {| g with g_held := true |} in
  if negb idle then (g, Err "context ended") else quiesce_producer g.

Fixpoint drain_loop (ps : list poll) : result string unit :=
  match ps with
  | [] => Err "context ended"
  | PollFailed :: _ => Err "consumer info"
  | Polled pending ackPending idle :: ps' =>
    if (pending =? 0) && (ackPending =? 0) && idle then Ok tt else drain_loop ps'
  end.

Definition g_Drain : op (gateway D K) unit := fun g =>
  let '(k, ps) := k_polls (g_outside g) in (at_ g k, drain_loop ps).

Definition g_Prepare (s : ClockSnapshot) : op (gateway D K) unit := fun g =>
  match validateRunSnapshot g s with
  | Err e => (g, Err e)
  | Ok _ =>
    match store_create s g with
    | (g, Err e) => (g, Err e)
    | (g, Ok id) => ({| g with g_record := Some id |}, Ok tt)
    end
  end.

(** A read of the shutdown flag that refuses to go on. *)
Definition unless_stopping : op (gateway D K) unit := fun g =>
  let '(k, stopping) := k_stopping (g_outside g) in
  (at_ g k, if stopping then Err "gateway shutdown requested" else Ok tt).

Definition and_then {A B} (x : gateway D K * result string A) (f : A -> op (gateway D K) B) : gateway D K * result string B :=
  match x with (g, Ok a) => f a g | (g, Err e) => (g, Err e) end.

Definition g_Resume : op (gateway D K) unit := fun g =>
  and_then (unless_stopping g) (fun _ g =>
  and_then (activateRunSession g) (fun _ g =>
  and_then (g_request "resume" g) (fun paused g =>
    if (paused : bool) then (g, Err "producer resume unconfirmed")
    else and_then (unless_stopping g) (fun _ g =>
      match current g with
      | None => (g, Err "missing producer session")
      | Some r =>
        and_then (store_commit r g) (fun _ g =>
        and_then (unless_stopping g) (fun _ g => ({| g with g_held := false |}, Ok tt)))
      end)))).

#[export] Instance gateway_adapters : Adapters (gateway D K) := {|
  gate_Hold := g_Hold; gate_Drain := g_Drain; gate_Resume := g_Resume; conn_Stop := g_Stop; conn_Prepare := g_Prepare;
  conn_Configure := g_Configure; conn_Start := g_Start; conn_Revision := g_Revision |}.

(** [Enter]: a command is let in only while nothing is held. *)
Definition Enter (g : gateway D K) (ended : bool) : bool := negb (g_held g || ended).

(** [Shutdown], with its context. *)
Definition Shutdown : op (gateway D K) unit := fun g =>
  let g := {| g with g_held := true |} in
  let '(g, hold) := g_Hold g in
  let '(g, stop) := g_Stop g in
  match stop, hold with
  | Err e, _ => (g, Err e)
  | Ok _, Err e => if k_ended (g_outside g) then (g, Err e) else g_Drain g
  | Ok _, Ok _ => g_Drain g
  end.
End Gateway.

(** ** The adapters meet their contract *)

Section Laws.
  Context {D K : Type} `{Docker D} `{Outside K} `{GoTime} (cfg : ManagerConfig).
  Implicit Types g : gateway D K.

(** Operations that leave the gate as it is. *)
Definition keeps_gate {A} (fn : op (gateway D K) A) : Prop := forall g, g_held (fst (fn g)) = g_held g.

(** The session of the producer: what identifies it, and its durable receipt. *)
Definition session_view g : option (string * string * ClockSnapshot) :=
  option_map (fun r => (Session r, nativeHash r, sr_snapshot r)) (current g).

Definition runs (g : gateway D K) (v : string) : Prop :=
  exists session hash s, session_view g = Some (session, hash, s) /\
    d_verified (g_dir g) !! session = Some hash /\ Revision s = v.

Lemma and_then_gate {A B} (x : gateway D K * result string A) (f : A -> op (gateway D K) B) g :
  g_held (fst x) = g_held g -> (forall a, keeps_gate (f a)) -> g_held (fst (and_then x f)) = g_held g.
Proof. intros Hx Hf. destruct x as [g1 [a|e]]; cbn in *; [by rewrite Hf|done]. Qed.

Lemma request_gate action : keeps_gate (g_request action).
Proof. intros g. unfold g_request. destruct (current g); [|done]. by destruct (k_ask _ _). Qed.

Lemma stop_gate : keeps_gate g_Stop.
Proof. intros g. unfold g_Stop. case_if; [done|]. by destruct (ex_Stop _ _) as [[m e] [u|x]]. Qed.

Lemma store_verify_gate r : keeps_gate (store_verify r).
Proof. intros g. unfold store_verify. destruct (k_write _) as [k d]. destruct (written _ _ _) as [f ok]. by destruct ok. Qed.

Lemma revision_gate : keeps_gate g_Revision.
Proof.
  intros g. unfold g_Revision. pose proof (request_gate "status" g) as Hr. destruct (g_request _ g) as [g1 [[]|e]]; cbn in *; try done.
  destruct (current g1) as [r|]; [|done]. pose proof (store_verify_gate r g1) as Hv. destruct (store_verify r g1) as [g2 [u|e]]; cbn in *; congruence.
Qed.

Lemma configure_gate n : keeps_gate (g_Configure n).
Proof.
  intros g. unfold g_Configure. destruct (current g) as [r|]; [|done]. case_if; [done|].
  destruct (ConnectorNATSAuthFile _ _) as [f|]; [|done]. by destruct (ex_Configure _ _ _).
Qed.

Lemma start_gate : keeps_gate (g_Start cfg).
Proof.
  intros g. unfold g_Start. destruct (k_stopping _) as [k []]; [done|]. case_if; [done|]. by destruct (ex_Start _ _ _) as [[m e] x].
Qed.

Lemma create_gate s : keeps_gate (store_create s).
Proof.
  intros g. unfold store_create. destruct (k_random _) as [k [id|]]; [|done]. destruct (k_write _) as [k1 d1].
  destruct (written d1 _ _) as [n ok]. destruct ok; [|done]. cbn [negb]. destruct (k_write _) as [k2 d2].
  destruct (written d2 _ _) as [f ok]. by destruct ok.
Qed.

Lemma prepare_gate s : keeps_gate (g_Prepare s).
Proof.
  intros g. unfold g_Prepare. destruct (validateRunSnapshot g s); [|done]. pose proof (create_gate s g) as Hc.
  by destruct (store_create s g) as [g1 [id|e]].
Qed.

Lemma stopping_gate : keeps_gate unless_stopping.
Proof. intros g. unfold unless_stopping. by destruct (k_stopping _). Qed.

Lemma commit_gate r : keeps_gate (store_commit r).
Proof. intros g. unfold store_commit. destruct (k_write _) as [k d]. by destruct (written _ _ _) as [f ok]. Qed.

Lemma activate_gate : keeps_gate activateRunSession.
Proof.
  intros g. unfold activateRunSession. destruct (g_run g) as [run|]; [|done]. destruct (current g) as [r|]; [|done].
  destruct (k_now _) as [k1 now]. destruct (k_write k1) as [k2 d1]. destruct (Apply _ _ _) as [live [u|e]]; [|done].
  destruct (Archive _ _) as [raw|e]; [|done]. destruct (k_write _) as [k3 d2]. destruct (if bool_decide _ then _ else _) as [a ok].
  destruct ok; [|done]. cbn [negb]. destruct (k_write _) as [k4 d3]. destruct (written _ _ _) as [f ok]. by destruct ok.
Qed.

Lemma quiesce_gate : keeps_gate quiesce_producer.
Proof.
  intros g. unfold quiesce_producer.
  assert (g_held (fst (if g_discovered g then (g, Ok tt) else g_Stop g)) = g_held g) as Hf.
  { destruct (g_discovered g); [done|]. by rewrite stop_gate. }
  destruct (if g_discovered g then _ else _) as [g1 [u|e]]; cbn in *; [|done].
  destruct (g_started g1); [|done]. pose proof (request_gate "quiesce" g1) as Hr.
  destruct (g_request _ g1) as [g2 [p|e]]; cbn in *; [congruence|]. rewrite stop_gate. congruence.
Qed.

Lemma hold_closes_gate g : g_held (fst (g_Hold g)) = true.
Proof. unfold g_Hold. destruct (k_idle _) as [k [|]]; [|done]. cbn [negb]. by rewrite quiesce_gate. Qed.

(** The session and its receipt survive the steps of a resume. *)
Definition keeps_session {A} (fn : op (gateway D K) A) : Prop := forall g,
  session_view (fst (fn g)) = session_view g /\ d_verified (g_dir (fst (fn g))) = d_verified (g_dir g).

Lemma request_session action : keeps_session (g_request action).
Proof. intros g. unfold g_request. destruct (current g); [|done]. by destruct (k_ask _ _). Qed.

Lemma stopping_session : keeps_session unless_stopping.
Proof. intros g. unfold unless_stopping. by destruct (k_stopping _). Qed.

Lemma commit_session r : keeps_session (store_commit r).
Proof. intros g. unfold store_commit. destruct (k_write _) as [k d]. by destruct (written _ _ _) as [f ok]. Qed.

Lemma view_insert g r r' : current g = Some r -> Session r' = Session r -> nativeHash r' = nativeHash r ->
  sr_snapshot r' = sr_snapshot r ->
  option_map (fun r => (Session r, nativeHash r, sr_snapshot r)) (g_record g ≫= fun id => <[Session r := r']> (g_records g) !! id)
  = session_view g.
Proof.
  unfold session_view, current. intros Hc E1 E2 E3. destruct (g_record g) as [id|]; [|done]. cbn in *.
  destruct (decide (id = Session r)) as [->|Hne].
  - rewrite lookup_insert_eq, Hc. cbn. congruence.
  - by rewrite lookup_insert_ne by done.
Qed.

Lemma activate_session : keeps_session activateRunSession.
Proof.
  intros g. unfold activateRunSession. destruct (g_run g) as [run|]; [|done]. destruct (current g) as [r|] eqn:Ec; [|done].
  destruct (k_now _) as [k1 now]. destruct (k_write k1) as [k2 d1]. destruct (Apply _ _ _) as [live [u|e]]; [|done].
  destruct (Archive _ _) as [raw|e]; [|done]. destruct (k_write _) as [k3 d2]. destruct (if bool_decide _ then _ else _) as [a ok].
  destruct ok; [|done]. cbn [negb]. destruct (k_write _) as [k4 d3]. destruct (written _ _ _) as [f ok].
  destruct ok; (split; [|done]); by apply (view_insert g r _ Ec).
Qed.

Lemma and_then_ok {A B} (x : gateway D K * result string A) (f : A -> op (gateway D K) B) g' b :
  and_then x f = (g', Ok b) -> exists g1 a, x = (g1, Ok a) /\ f a g1 = (g', Ok b).
Proof. destruct x as [g1 [a|e]]; cbn; [|done]. eauto. Qed.

Lemma runs_frame g g' v : session_view g' = session_view g -> d_verified (g_dir g') = d_verified (g_dir g) -> runs g v -> runs g' v.
Proof. intros E1 E2. unfold runs. by rewrite E1, E2. Qed.

Lemma resume_opens g g' : g_Resume g = (g', Ok tt) -> g_held g' = false /\ forall v, runs g v -> runs g' v.
Proof.
  unfold g_Resume. intros (g1 & u1 & E1 & (g2 & u2 & E2 & (g3 & p & E3 & Hr)%and_then_ok)%and_then_ok)%and_then_ok.
  destruct p; [done|]. apply and_then_ok in Hr as (g4 & u4 & E4 & Hr). destruct (current g4) as [r|]; [|done].
  apply and_then_ok in Hr as (g5 & u5 & E5 & (g6 & u6 & E6 & [= <-])%and_then_ok). split; [done|]. intros v Hv.
  pose proof (stopping_session g) as F1. pose proof (activate_session g1) as F2. pose proof (request_session "resume" g2) as F3.
  pose proof (stopping_session g3) as F4. pose proof (commit_session r g4) as F5. pose proof (stopping_session g5) as F6.
  rewrite E1 in F1. rewrite E2 in F2. rewrite E3 in F3. rewrite E4 in F4. rewrite E5 in F5. rewrite E6 in F6. cbn in *.
  destruct F1, F2, F3, F4, F5, F6. apply (runs_frame g); [..|done]; cbn; [change (session_view {| g6 with g_held := false |}) with (session_view g6)|]; congruence.
Qed.

Lemma resume_keeps_closed g g' e : g_held g = true -> g_Resume g = (g', Err e) -> g_held g' = true.
Proof.
  intros Hg. unfold g_Resume. pose proof (stopping_gate g) as F1. destruct (unless_stopping g) as [g1 [u1|e1]]; cbn in *; [|intros [= <- _]; congruence].
  pose proof (activate_gate g1) as F2. destruct (activateRunSession g1) as [g2 [u2|e2]]; cbn in *; [|intros [= <- _]; congruence].
  pose proof (request_gate "resume" g2) as F3. destruct (g_request _ g2) as [g3 [[]|e3]]; cbn in *; try (intros [= <- _]; congruence).
  pose proof (stopping_gate g3) as F4. destruct (unless_stopping g3) as [g4 [u4|e4]]; cbn in *; [|intros [= <- _]; congruence].
  destruct (current g4) as [r|]; [|intros [= <- _]; congruence].
  pose proof (commit_gate r g4) as F5. destruct (store_commit r g4) as [g5 [u5|e5]]; cbn in *; [|intros [= <- _]; congruence].
  pose proof (stopping_gate g5) as F6. destruct (unless_stopping g5) as [g6 [u6|e6]]; cbn in *; [done|intros [= <- _]; congruence].
Qed.

Lemma revision_runs g g' v : g_Revision g = (g', Ok v) -> runs g' v.
Proof.
  unfold g_Revision. destruct (g_request _ g) as [g1 [[]|e]]; cbn; try done. destruct (current g1) as [r|] eqn:Ec; [|done].
  unfold store_verify. destruct (k_write _) as [k d]. destruct d; cbn; try done. intros [= <- <-].
  exists (Session r), (nativeHash r), (sr_snapshot r). split_and!; [|cbn; apply lookup_insert_eq|done].
  unfold session_view, current in *. cbn. destruct (g_record g1) as [id|]; [|done]. cbn in *.
  destruct (decide (id = Session r)) as [->|Hne]; [rewrite lookup_alter_eq, Ec; done|].
  by rewrite lookup_alter_ne, Ec by done.
Qed.

#[export] Instance gateway_laws : AdapterLaws (gateway D K) (H := gateway_adapters cfg).
Proof.
  refine (Build_AdapterLaws (gateway D K) (gateway_adapters cfg) (fun g => negb (g_held g)) runs _ _ _ _ _ _ _ _ _ _); cbn.
  - intros g. by rewrite hold_closes_gate.
  - intros g. unfold g_Drain. by destruct (k_polls _).
  - intros g. by rewrite stop_gate.
  - intros s g. by rewrite prepare_gate.
  - intros n g. by rewrite configure_gate.
  - intros g. by rewrite start_gate.
  - intros g. by rewrite revision_gate.
  - intros g g' e Hg%negb_false_iff Hr. by rewrite (resume_keeps_closed _ _ _ Hg Hr).
  - intros g g' Hr%resume_opens. by destruct Hr as [-> Hr].
  - exact revision_runs.
Defined.
End Laws.

(** ** The controller over the gateway *)

Section Composed.
  Context {D K : Type} `{Docker D} `{Outside K} `{GoTime} (cfg : ManagerConfig).

#[local] Instance adapters : Adapters (gateway D K) := gateway_adapters cfg.
#[local] Instance laws : AdapterLaws (gateway D K) := gateway_laws cfg.

(** C4: Over any history of syncs and restores of the gateway's controller, with
    every failure of Docker, NATS, files and deadlines: when a revision is
    reported as applied, admission is open, the producer's session is of that
    revision with its receipt on disk, and the resolver maps the last good
    snapshot of that revision; when none is reported, no command is let in, from
    the first hold of a sync on.  The stop request of a shutdown, which ends the
    process, is not one of these calls. *)
Theorem gateway_coherent (scope : ClockScope) (g0 : gateway D K) (res : SyncedResolver) (ks : list call) (ended : bool) :
  let '(c, r) := history ks (NewController scope, NewResolverRuntime g0 res) in
  let g := rr_world r in
  (AppliedRevision (c_status c) = "" -> c_initialized c = true -> Enter g ended = false) /\
  (AppliedRevision (c_status c) <> "" ->
     Enter g false = true /\ runs g (AppliedRevision (c_status c)) /\
     exists s old, c_good c = Some s /\ Revision s = AppliedRevision (c_status c) /\ StageClock (cl_raw s) scope = Ok s /\
       rr_resolver r = PointList.Update old (cl_entries s)).
Proof.
  pose proof (history_coherent scope (NewResolverRuntime g0 res) ks) as Hh. destruct (history _ _) as [c r].
  destruct Hh as (Hc & Ho & _). cbv zeta. unfold Enter. split.
  - intros Ha Hi. specialize (Hc Ha Hi). change (negb (g_held (rr_world r)) = false) in Hc. apply negb_false_iff in Hc. by rewrite Hc.
  - intros Ha. destruct (Ho Ha) as (s & Hg & Hr & Hs & Hop & Hse). change (negb (g_held (rr_world r)) = true) in Hop.
    destruct Hse as [[_ [old Hm]] Hrun]. change (runs (rr_world r) (Revision s)) in Hrun. rewrite Hr in Hrun.
    apply negb_true_iff in Hop. rewrite Hop. split_and!; try done. by exists s, old.
Qed.

(** *** A producer that no longer answers *)

(** Worlds in which the producer hangs: a request waits until its context has
    ended, and so does a wait for commands in flight that does not succeed. *)
Context (hung : K -> Prop)
  (hung_ask : forall k q, hung k -> hung (fst (k_ask k q)) /\ snd (k_ask k q) = None /\ k_ended (fst (k_ask k q)) = true)
  (hung_idle : forall k, hung k -> hung (fst (k_idle k)) /\ (snd (k_idle k) = false -> k_ended (fst (k_idle k)) = true)).

(** Started, known to be this process's own, and hung. *)
Definition stuck (g : gateway D K) : Prop := g_started g = true /\ g_discovered g = true /\ is_Some (current g) /\ hung (g_outside g).

Lemma stop_ended (g : gateway D K) : k_ended (g_outside g) = true -> g_Stop g = (g, Err "context ended").
Proof. unfold g_Stop. by intros ->. Qed.

Lemma quiesce_stuck (g : gateway D K) : stuck g -> exists g' e, quiesce_producer g = (g', Err e) /\ stuck g' /\
  g_manager g' = g_manager g /\ k_ended (g_outside g') = true.
Proof.
  intros (Hs & Hd & [r Hr] & Hh). unfold quiesce_producer, g_request. rewrite Hd, Hs, Hr.
  destruct (hung_ask (g_outside g) (request_text "quiesce" r) Hh) as (Hh1 & E1 & E2).
  destruct (k_ask (g_outside g) _) as [k o]. cbn in E1, E2, Hh1. subst o. rewrite stop_ended by exact E2.
  do 2 eexists. split; [reflexivity|]. split; [split_and!; [done|done|by exists r|done]|done].
Qed.

Lemma hold_stuck (g : gateway D K) : stuck g -> exists g' e, g_Hold g = (g', Err e) /\ stuck g' /\
  g_manager g' = g_manager g /\ k_ended (g_outside g') = true.
Proof.
  intros (Hs & Hd & Hr & Hh). unfold g_Hold. destruct (hung_idle _ Hh) as [Hh1 Hk]. destruct (k_idle (g_outside g)) as [k [|]]; cbn in Hh1.
  - apply (quiesce_stuck {| (at_ g k) with g_held := true |}). by split_and!.
  - do 2 eexists. split; [reflexivity|]. split; [by split_and!|]. split; [done|]. by apply Hk.
Qed.

Implicit Types r : ResolverRuntime (gateway D K).

Lemma rr_hold_stuck r : stuck (rr_world r) -> exists r' e, rr_Hold r = (r', Err e) /\ stuck (rr_world r') /\
  g_manager (rr_world r') = g_manager (rr_world r) /\ k_ended (g_outside (rr_world r')) = true.
Proof.
  intros (g' & e & E & Hs & Hm & Hk)%hold_stuck. unfold rr_Hold, on_world. cbn [gate_Hold adapters gateway_adapters].
  rewrite E. do 2 eexists. split; [reflexivity|]. by cbn.
Qed.

Lemma rr_stop_ended r : k_ended (g_outside (rr_world r)) = true -> rr_world (fst (rr_Stop r)) = rr_world r.
Proof.
  intros Hk. unfold rr_Stop. case_if; [done|]. unfold on_world. cbn [conn_Stop adapters gateway_adapters].
  by rewrite stop_ended.
Qed.

(** A sync of a stuck gateway leaves what runs alone.  It succeeds only when what
    is wanted is already applied, and then changes nothing but the last error. *)
Definition idles (c : Controller) r (c' : Controller) r' (x : result sync_error unit) : Prop :=
  stuck (rr_world r') /\ g_manager (rr_world r') = g_manager (rr_world r) /\
  (is_ok x = true -> AppliedRevision (c_status c) <> "" /\ AppliedRevision (c_status c') = AppliedRevision (c_status c) /\ r' = r) /\
  (AppliedRevision (c_status c') = AppliedRevision (c_status c) \/ AppliedRevision (c_status c') = "").

Lemma idles_failed c r c' e : stuck (rr_world r) -> AppliedRevision (c_status c') = AppliedRevision (c_status c) -> idles c r c' r (Err e).
Proof. intros Hs Ha. split_and!; [done..|by left]. Qed.

Lemma sync_desired_stuck ends s c r c' r' x : stuck (rr_world r) -> Revision s <> "" ->
  sync_desired ends s c r = (c', r', x) -> idles c r c' r' x /\ (AppliedRevision (c_status c) <> Revision s -> is_ok x = false /\ AppliedRevision (c_status c') = "").
Proof.
  intros Hr Hs. unfold sync_desired. destruct (String.eqb_spec (AppliedRevision (c_status c)) (Revision s)) as [Ea|Ea].
  { intros [= <- <- <-]. split; [|done]. split_and!; [done..|intros _; by rewrite Ea|by left]. }
  assert (exists c1 r1 e1, apply ends s (set_phase Staged c) r = (c1, r1, Err e1) /\ stuck (rr_world r1) /\
    g_manager (rr_world r1) = g_manager (rr_world r)) as (c1 & r1 & e1 & E1 & Hr1 & Hm1).
  { unfold apply. cbn [apply_steps run_steps]. unfold step. destruct (ends Holding); [do 3 eexists; split; [reflexivity|done]|].
    destruct (rr_hold_stuck r Hr) as (r1 & e & E & Hr1 & Hm & _). cbn [rt_Hold resolver_runtime]. rewrite E.
    do 3 eexists. split; [reflexivity|done]. }
  rewrite E1. unfold rollback. cbn [run_ops rt_Hold resolver_runtime].
  destruct (rr_hold_stuck r1 Hr1) as (r2 & e2 & E2 & Hr2 & Hm2 & _). rewrite E2. unfold rollback_fail.
  cbn [rt_Hold rt_Stop resolver_runtime]. destruct (rr_hold_stuck r2 Hr2) as (r3 & e3 & E3 & Hr3 & Hm3 & Hk). rewrite E3. cbn [fst].
  intros [= <- <- <-]. split; [|done]. unfold idles. rewrite rr_stop_ended by done. split_and!; [done|congruence|done|by right].
Qed.

Lemma sync_stuck scope env c r c' r' x : sync_inv scope c r -> stuck (rr_world r) -> Sync env c r = (c', r', x) -> idles c r c' r' x.
Proof.
  intros Hi Hr. pose proof (si_desired _ _ _ Hi) as Hd. unfold Sync.
  destruct (se_busy env); [intros [= <- <- <-]; by apply idles_failed|]. destruct (c_initialized c) eqn:Ei.
  - unfold sync_fetch. destruct (se_fetch env _) as [[s|]|e]; [| |intros [= <- <- <-]; by apply idles_failed].
    + destruct (StageClock _ _) as [s'|e] eqn:Es; [|intros [= <- <- <-]; by apply idles_failed].
      intros Hs. by apply sync_desired_stuck in Hs as [Hs _]; [|done|by eapply StageClock_revision].
    + destruct (c_desired c) as [s|]; [|intros [= <- <- <-]; by apply idles_failed]. destruct Hd as [Hst _].
      intros Hs. by apply sync_desired_stuck in Hs as [Hs _]; [|done|by eapply StageClock_revision].
  - unfold step. destruct (se_ended env Holding); [intros [= <- <- <-]; by apply idles_failed|].
    destruct (rr_hold_stuck r Hr) as (r1 & e & E & Hr1 & Hm & _). cbn [rt_Hold resolver_runtime]. rewrite E.
    intros [= <- <- <-]. split_and!; [done..|by left].
Qed.

(** C28: A producer this process started that hangs is never replaced.  From the
    moment every request to it waits until its context has ended, whatever is
    synced: no sync stops, removes or starts a container, since the stop that
    follows the failed pause is made with that ended context; a sync succeeds only
    by finding the wanted revision already applied, and changes nothing then; and
    once none is applied, every later sync fails. *)
Theorem lost_producer_wedges (scope : ClockScope) (g0 : gateway D K) (res : SyncedResolver) (ks : list call) (envs : list sync_env) :
  let '(c, r) := history ks (NewController scope, NewResolverRuntime g0 res) in
  stuck (rr_world r) ->
  let '(c', r') := history (map CallSync envs) (c, r) in
  g_manager (rr_world r') = g_manager (rr_world r) /\ g_started (rr_world r') = true /\
  (AppliedRevision (c_status c') = AppliedRevision (c_status c) \/ AppliedRevision (c_status c') = "") /\
  forall env, let '(c2, r2, x) := Sync env c' r' in
    g_manager (rr_world r2) = g_manager (rr_world r) /\
    (is_ok x = true -> AppliedRevision (c_status c') <> "" /\ AppliedRevision (c_status c2) = AppliedRevision (c_status c') /\ r2 = r').
Proof.
  pose proof (history_inv scope ks _ _ (new_inv scope (NewResolverRuntime g0 res))) as Hi.
  destruct (history ks _) as [c r]. cbn [fst snd] in Hi. intros Hr.
  assert (forall envs c1 r1, sync_inv scope c1 r1 -> idles c r c1 r1 (Err Busy) ->
    let '(c', r') := history (map CallSync envs) (c1, r1) in sync_inv scope c' r' /\ idles c r c' r' (Err Busy)) as Hh.
  { clear envs. induction envs as [|env envs IH]; intros c1 r1 Hi1 Hw; [done|]. cbn [map history fold_left do_call fst snd].
    destruct (Sync env c1 r1) as [[c2 r2] x] eqn:E. destruct Hw as (Hs & Hm & _ & Hap).
    pose proof (Sync_spec _ _ _ _ _ _ _ Hi1 E) as [Hi2 _]. destruct (sync_stuck _ _ _ _ _ _ _ Hi1 Hs E) as (Hs2 & Hm2 & _ & Ha2).
    apply IH; [done|]. split_and!; [done|congruence|done|]. destruct Ha2 as [->|]; [done|by right]. }
  specialize (Hh envs c r Hi (idles_failed c r c Busy Hr eq_refl)). destruct (history _ _) as [c' r']. destruct Hh as [Hi' (Hs & Hm & _ & Hap)].
  split_and!; [done|by destruct Hs as [? _]|done|]. intros env. destruct (Sync env c' r') as [[c2 r2] x] eqn:E.
  destruct (sync_stuck _ _ _ _ _ _ _ Hi' Hs E) as (_ & Hm2 & Hok & _). split; [congruence|done].
Qed.

(** A sync for another revision leaves none applied. *)
Lemma stuck_switch_fails ends s c r : stuck (rr_world r) -> Revision s <> "" -> AppliedRevision (c_status c) <> Revision s ->
  let '(c', _, x) := sync_desired ends s c r in is_ok x = false /\ AppliedRevision (c_status c') = "".
Proof.
  intros Hr Hs Ha. destruct (sync_desired ends s c r) as [[c' r'] x] eqn:E. by destruct (sync_desired_stuck _ _ _ _ _ _ _ Hr Hs E) as [_ Hf]; apply Hf.
Qed.
End Composed.
