(* ===== verification/ClockRecovery.v ===== *)
(** * Recovery of clock sessions

    [src/internal/clocksync/sessions.go], [openSessions]: what a gateway reads
    back from its state directory when it starts.  The archived files are
    checked one by one, and one that is not whole keeps the gateway from
    starting; the theorem shows that no history of the gateway's controller,
    with writes that fail before or after they take effect, leaves such a file,
    and that the last good snapshot found at the restart is the one that was
    applied.

    A session file holds the snapshot as JSON; it is kept here by what it
    decodes to, so the layout of that text is not part of the model. *)

From Stdlib Require Import ZArith Lia Bool Ascii String List.
From stdpp Require Import base list strings gmap.
From S2P Require Import Prelude Json GoText Sha256 Float Encoding PointList Provisioning Catalog Lifecycle RunLedger.
From S2P Require Import ClockConfig ClockSync ClockWorker ClockGateway.
#[local] Open Scope string_scope.
#[local] Open Scope list_scope.
#[local] Open Scope Z_scope.

(** Whether a snapshot has a clock. *)
Definition has_clock (s : ClockSnapshot) (id : string) : bool :=
  existsb (fun c => String.eqb (nc_ClockID c) id) (nk_Clocks (cl_native s)).

(** [sessionPattern]. *)
Definition is_session (s : string) : bool :=
  Nat.eqb (String.length s) 32 && forallb (fun c => is_digit c || between 97 102 (code c)) (list_ascii_of_string s).

(** [openSessions] on the archived files by their base names: every one must be
    whole, or the gateway does not start. *)
Definition open_session (scope : ClockScope) (dir : directory) (base : string) (f : session_file) : option sessionRecord :=
  let id := sf_Session f in
  if negb (is_session id) || negb (String.eqb base id) then None
  else
    match StageClock (sf_Snapshot f) scope, d_native dir !! id with
    | Ok s, Some native =>
      let hash := sha256_hex native in
      if negb (String.eqb native (native_text (cl_native s))) then None
      else if negb (String.eqb (sf_RunClockID f) "")
              && negb (has_clock s (sf_RunClockID f) && bool_decide (is_Some (d_archives dir !! id))) then None
      else
        match d_verified dir !! id with
        | Some proof =>
          if String.eqb proof hash then
            Some {| RunClockID := sf_RunClockID f; Session := id; sr_snapshot := s; nativeHash := hash; sr_verified := true |}
          else None
        | None =>
          Some {| RunClockID := sf_RunClockID f; Session := id; sr_snapshot := s; nativeHash := hash; sr_verified := false |}
        end
    | _, _ => None
    end.

Fixpoint open_files (scope : ClockScope) (dir : directory) (files : list (string * session_file)) (m : gmap string sessionRecord)
  : option (gmap string sessionRecord) :=
  match files with
  | [] => Some m
  | (base, f) :: files' =>
    match open_session scope dir base f with
    | Some r => open_files scope dir files' (<[Session r := r]> m)
    | None => None
    end
  end.

Definition openSessions (scope : ClockScope) (dir : directory) : option (gmap string sessionRecord) :=
  open_files scope dir (map_to_list (d_sessions dir)) ∅.

(** ** Opening a directory *)

(** A file that opens, and what it gives. *)
Record whole (scope : ClockScope) (dir : directory) (id : string) (f : session_file) (s : ClockSnapshot) : Prop := {
  wh_session : sf_Session f = id;
  wh_id : is_session id = true;
  wh_snapshot : StageClock (sf_Snapshot f) scope = Ok s;
  wh_native : d_native dir !! id = Some (native_text (cl_native s));
  wh_run : sf_RunClockID f <> "" -> has_clock s (sf_RunClockID f) = true /\ is_Some (d_archives dir !! id);
  wh_proof : forall h, d_verified dir !! id = Some h -> h = sha256_hex (native_text (cl_native s))
}.

Definition opened (dir : directory) (id : string) (f : session_file) (s : ClockSnapshot) : sessionRecord :=
  {| RunClockID := sf_RunClockID f; Session := id; sr_snapshot := s; nativeHash := sha256_hex (native_text (cl_native s));
     sr_verified := bool_decide (is_Some (d_verified dir !! id)) |}.

Lemma open_whole scope dir id f s : whole scope dir id f s -> open_session scope dir id f = Some (opened dir id f s).
Proof.
  intros [<- Hid Hs Hn Hr Hp]. unfold open_session, opened. rewrite Hid, String.eqb_refl, Hs, Hn, String.eqb_refl. cbn [negb orb].
  assert (negb (String.eqb (sf_RunClockID f) "") && negb (has_clock s (sf_RunClockID f) && bool_decide (is_Some (d_archives dir !! sf_Session f))) = false) as ->.
  { destruct (String.eqb_spec (sf_RunClockID f) "") as [E|E]; [done|]. destruct (Hr E) as [-> Ha]. by rewrite bool_decide_true. }
  destruct (d_verified dir !! sf_Session f) as [h|] eqn:Ev.
  - rewrite (Hp h eq_refl), String.eqb_refl. by rewrite bool_decide_true by done.
  - rewrite bool_decide_false by (by intros [? ?]). done.
Qed.

Lemma open_session_whole scope dir id f r : open_session scope dir id f = Some r ->
  exists s, whole scope dir id f s /\ r = opened dir id f s.
Proof.
  intros Ho. enough (exists s, whole scope dir id f s) as [s Hs].
  { exists s. split; [done|]. rewrite (open_whole _ _ _ _ _ Hs) in Ho. congruence. }
  revert Ho. unfold open_session. case_if; [done|]. apply orb_false_iff in E as [E1%negb_false_iff E2%negb_false_iff%String.eqb_eq].
  destruct (StageClock (sf_Snapshot f) scope) as [s|e] eqn:Es; [|done]. destruct (d_native dir !! sf_Session f) as [n|] eqn:En; [|done].
  case_if; [done|]. apply negb_false_iff, String.eqb_eq in E. subst n. case_if; [done|]. rename E into Er. intros Hp. exists s. subst id.
  split; try done.
  - intros Hne%String.eqb_neq. rewrite Hne in Er. cbn in Er. apply negb_false_iff, andb_true_iff in Er as [? ?%bool_decide_eq_true]. done.
  - intros h Hh. rewrite Hh in Hp. destruct (String.eqb_spec h (sha256_hex (native_text (cl_native s)))); [done|done].
Qed.

Lemma open_files_spec scope dir files : forall m, NoDup files.*1 ->
  open_files scope dir files m =
    if forallb (fun '(b, f) => bool_decide (is_Some (open_session scope dir b f))) files
    then Some (map_imap (open_session scope dir) (list_to_map files) ∪ m) else None.
Proof.
  induction files as [|[b f] files IH]; intros m Hn.
  { cbn. by rewrite map_imap_empty, (left_id_L ∅ (∪)). }
  rewrite fmap_cons in Hn. apply NoDup_cons in Hn as [Hb Hn]. cbn [open_files forallb].
  destruct (open_session scope dir b f) as [r|] eqn:Eo; [|by rewrite bool_decide_false by (by intros [? ?])].
  rewrite bool_decide_true by done. cbn [andb]. rewrite IH by done. case_match; [|done]. f_equal.
  destruct (open_session_whole _ _ _ _ _ Eo) as (s & Hs & Er). replace (Session r) with b by (rewrite Er; done).
  assert ((list_to_map files : gmap string session_file) !! b = None) as Hb' by (by apply not_elem_of_list_to_map).
  rewrite list_to_map_cons, (map_imap_insert_Some _ _ _ _ _ Eo), <- insert_union_l, insert_union_r; [done|].
  by rewrite map_lookup_imap, Hb'.
Qed.

Lemma openSessions_spec scope dir : (forall id f, d_sessions dir !! id = Some f -> exists s, whole scope dir id f s) <->
  openSessions scope dir = Some (map_imap (open_session scope dir) (d_sessions dir)).
Proof.
  unfold openSessions. rewrite open_files_spec by apply NoDup_fst_map_to_list. rewrite list_to_map_to_list, (right_id_L ∅ (∪)).
  split.
  - intros Hw. case_match eqn:E; [done|]. exfalso. apply not_true_iff_false in E. apply E, forallb_forall. intros [b f] Hin.
    apply list_elem_of_In, elem_of_map_to_list in Hin. destruct (Hw b f Hin) as [s Hs]. apply bool_decide_true. by rewrite (open_whole _ _ _ _ _ Hs).
  - case_match eqn:E; [|done]. intros _ id f Hf. rewrite forallb_forall in E. specialize (E (id, f)).
    destruct (open_session scope dir id f) as [r|] eqn:Eo; [by apply open_session_whole in Eo as (s & ? & _); exists s|].
    assert (In (id, f) (map_to_list (d_sessions dir))) as Hin by (by apply list_elem_of_In, elem_of_map_to_list).
    apply E, bool_decide_eq_true in Hin. rewrite Eo in Hin. by destruct Hin.
Qed.

Lemma openSessions_some scope dir m : openSessions scope dir = Some m -> m = map_imap (open_session scope dir) (d_sessions dir) /\
  forall id f, d_sessions dir !! id = Some f -> exists s, whole scope dir id f s.
Proof.
  intros Ho. enough (openSessions scope dir = Some (map_imap (open_session scope dir) (d_sessions dir))) as E.
  { split; [congruence|]. by apply openSessions_spec. }
  revert Ho. unfold openSessions. rewrite open_files_spec by apply NoDup_fst_map_to_list.
  rewrite list_to_map_to_list, (right_id_L ∅ (∪)). by case_match.
Qed.

Definition hex_char (c : ascii) : bool := is_digit c || between 97 102 (code c).

Lemma hex_digit_char z : 0 <= z < 16 -> hex_char (hex_digit z) = true.
Proof.
  intros Hz. assert (z ∈ seqZ 0 16) as Hin by (apply elem_of_seqZ; lia). clear Hz. revert z Hin.
  rewrite <- (Forall_forall (fun z => hex_char (hex_digit z) = true)). by repeat constructor.
Qed.

Lemma bytes_of_range s : Forall (fun z => 0 <= z < 256) (bytes_of s).
Proof. induction s as [|c s IH]; [constructor|]. constructor; [apply code_bound|done]. Qed.

Lemma concat_empty_cons s l : String.concat "" (s :: l) = s +:+ String.concat "" l.
Proof. destruct l; [|done]. cbn. by rewrite append_nil_r. Qed.

Lemma hex_bytes l : Forall (fun z => 0 <= z < 256) l ->
  String.length (String.concat "" (map hex_byte l)) = (2 * length l)%nat /\
  forallb hex_char (list_ascii_of_string (String.concat "" (map hex_byte l))) = true.
Proof.
  induction 1 as [|z l Hz Hl [IH1 IH2]]; [done|]. assert (0 <= z / 16 < 16) by (split; [apply Z.div_pos|apply Z.div_lt_upper_bound]; lia).
  pose proof (Z.mod_pos_bound z 16). cbn [map]. rewrite concat_empty_cons.
  generalize dependent (String.concat "" (map hex_byte l)). intros t IH1 IH2.
  change (hex_byte z +:+ t) with (String (hex_digit (z / 16)) (String (hex_digit (z mod 16)) t)).
  cbn [String.length list_ascii_of_string forallb length]. rewrite IH1, IH2, !hex_digit_char by lia. split; [lia|done].
Qed.

Lemma hex_id_session b : is_session (hex_id b) = true.
Proof.
  unfold is_session, hex_id. set (l := take 16 _). assert (Forall (fun z => 0 <= z < 256) l) as [Hl Hh]%hex_bytes.
  { apply Forall_take, Forall_app. split; [apply bytes_of_range|]. by apply Forall_replicate. }
  fold hex_char. rewrite Hl, Hh. unfold l. by rewrite length_take, length_app, length_replicate, Nat.min_l by lia.
Qed.

(** ** What every history keeps *)

#[local] Opaque sha256_hex hex_id native_text StageClock.

(** [rand.Read] gives identifiers that were not used before. *)
Class Fresh (K : Type) `{Outside K} := {
  k_used : K -> gset string;
  used_ask k q : k_used (fst (k_ask k q)) = k_used k;
  used_idle k : k_used (fst (k_idle k)) = k_used k;
  used_polls k : k_used (fst (k_polls k)) = k_used k;
  used_stopping k : k_used (fst (k_stopping k)) = k_used k;
  used_write k : k_used (fst (k_write k)) = k_used k;
  used_now k : k_used (fst (k_now k)) = k_used k;
  used_random k k' b : k_random k = (k', Some b) -> (hex_id b ∉ k_used k) /\ k_used k' = {[hex_id b]} ∪ k_used k;
  used_none k k' : k_random k = (k', None) -> k_used k' = k_used k
}.

Section Recovery.
  Context {D K : Type} `{Docker D} `{Fresh K} `{GoTime} (cfg : ManagerConfig) (scope : ClockScope).
  Implicit Types g : gateway D K.

#[local] Instance recovery_adapters : Adapters (gateway D K) := gateway_adapters cfg.
#[local] Instance recovery_laws : AdapterLaws (gateway D K) := gateway_laws cfg.

(** A record in memory and its file. *)
Record kept (dir : directory) (id : string) (r : sessionRecord) : Prop := {
  ke_session : Session r = id;
  ke_snapshot : staged scope (sr_snapshot r);
  ke_file : exists f, d_sessions dir !! id = Some f /\ StageClock (sf_Snapshot f) scope = Ok (sr_snapshot r);
  ke_hash : nativeHash r = sha256_hex (native_text (cl_native (sr_snapshot r)));
  ke_proof : sr_verified r = true -> is_Some (d_verified dir !! id)
}.

Definition ids (dir : directory) : gset string := dom (d_native dir) ∪ dom (d_sessions dir) ∪ dom (d_verified dir).

Record store_inv g : Prop := {
  st_files : forall id f, d_sessions (g_dir g) !! id = Some f -> exists s, whole scope (g_dir g) id f s;
  st_records : forall id r, g_records g !! id = Some r -> kept (g_dir g) id r;
  st_record : forall id, g_record g = Some id -> exists r, g_records g !! id = Some r /\
    forall run, g_run g = Some run -> has_clock (sr_snapshot r) (rb_ClockID run) = true;
  st_active : forall id, d_active (g_dir g) = Some id -> exists r, g_records g !! id = Some r /\ sr_verified r = true;
  st_gate : g_held g = false -> d_active (g_dir g) = g_record g /\ is_Some (g_record g);
  st_ids : ids (g_dir g) ⊆ k_used (g_outside g)
}.

(** Operations that do not touch the store. *)
Definition same_store g g' : Prop :=
  g_dir g' = g_dir g /\ g_records g' = g_records g /\ g_record g' = g_record g /\ g_run g' = g_run g /\
  k_used (g_outside g') = k_used (g_outside g) /\ (g_held g' = false -> g_held g = false).

Lemma same_store_inv g g' : same_store g g' -> store_inv g -> store_inv g'.
Proof.
  intros (E1 & E2 & E3 & E4 & E5 & E6) [H1' H2' H3' H4' H5' H6']. split; rewrite ?E1, ?E2, ?E3, ?E4, ?E5; auto.
Qed.

Lemma same_store_trans g g' g'' : same_store g g' -> same_store g' g'' -> same_store g g''.
Proof. intros (?&?&?&?&?&?) (?&?&?&?&?&?). split_and!; try congruence. auto. Qed.

Lemma request_same action g : same_store g (fst (g_request action g)).
Proof.
  unfold g_request. destruct (current g) as [r|]; [|done]. pose proof (used_ask (g_outside g) (request_text action r)) as Hu.
  by destruct (k_ask _ _).
Qed.

Lemma stop_same g : same_store g (fst (g_Stop g)).
Proof. unfold g_Stop. case_if; [done|]. by destruct (ex_Stop _ _) as [[m e] [u|x]]. Qed.

Lemma configure_same n g : same_store g (fst (g_Configure n g)).
Proof.
  unfold g_Configure. destruct (current g) as [r|]; [|done]. case_if; [done|].
  destruct (ConnectorNATSAuthFile _ _) as [f|]; [|done]. by destruct (ex_Configure _ _ _).
Qed.

Lemma stopping_same g : same_store g (fst (unless_stopping g)).
Proof. unfold unless_stopping. pose proof (used_stopping (g_outside g)) as Hu. by destruct (k_stopping _). Qed.

Lemma start_same g : same_store g (fst (g_Start cfg g)).
Proof.
  unfold g_Start. pose proof (used_stopping (g_outside g)) as Hu. destruct (k_stopping _) as [k []]; [done|]. case_if; [done|].
  by destruct (ex_Start _ _ _) as [[m e] x].
Qed.

Lemma drain_same g : same_store g (fst (g_Drain g)).
Proof. unfold g_Drain. pose proof (used_polls (g_outside g)) as Hu. by destruct (k_polls _). Qed.

Lemma quiesce_same g : same_store g (fst (quiesce_producer g)).
Proof.
  unfold quiesce_producer. assert (same_store g (fst (if g_discovered g then (g, Ok tt) else g_Stop g))) as Hf.
  { destruct (g_discovered g); [done|apply stop_same]. }
  destruct (if g_discovered g then _ else _) as [g1 [u|e]]; [|done]. destruct (g_started g1); [|done].
  pose proof (request_same "quiesce" g1) as Hr. destruct (g_request _ g1) as [g2 [p|e]]; cbn in *; eauto using same_store_trans, stop_same.
Qed.

Lemma hold_same g : same_store g (fst (g_Hold g)).
Proof.
  unfold g_Hold. pose proof (used_idle (g_outside g)) as Hu. destruct (k_idle _) as [k [|]]; cbn in *; [|by split_and!].
  eapply same_store_trans; [|apply quiesce_same]. by split_and!.
Qed.

(** *** Writes *)

Lemma whole_frame dir dir' id f s : whole scope dir id f s -> d_native dir' !! id = d_native dir !! id ->
  (is_Some (d_archives dir !! id) -> is_Some (d_archives dir' !! id)) ->
  (forall h, d_verified dir' !! id = Some h -> d_verified dir !! id = Some h \/ h = sha256_hex (native_text (cl_native s))) ->
  whole scope dir' id f s.
Proof.
  intros [H1' H2' H3' H4' H5' H6'] En Ea Ev. split; try done; [by rewrite En|naive_solver|]. intros h [Hh|Hh]%Ev; auto.
Qed.

Lemma kept_frame dir dir' id r : kept dir id r -> d_sessions dir' = d_sessions dir ->
  (is_Some (d_verified dir !! id) -> is_Some (d_verified dir' !! id)) -> kept dir' id r.
Proof. intros [H1' H2' H3' H4' H5'] Es Ev. split; rewrite ?Es; auto. Qed.

Lemma current_kept g r : store_inv g -> current g = Some r -> g_record g = Some (Session r) /\ g_records g !! Session r = Some r /\
  kept (g_dir g) (Session r) r.
Proof.
  intros Hg. unfold current. destruct (g_record g) as [id|]; [|done]. cbn. intros Hr.
  pose proof (st_records _ Hg _ _ Hr) as Hk. pose proof (ke_session _ _ _ Hk) as <-. done.
Qed.

Lemma verify_inv g r : store_inv g -> current g = Some r -> store_inv (fst (store_verify r g)) /\
  (is_ok (snd (store_verify r g)) = true -> exists r', current (fst (store_verify r g)) = Some r' /\ sr_verified r' = true).
Proof.
  intros Hg Hc. destruct (current_kept _ _ Hg Hc) as (Er & Hr & Hk). destruct Hg as [Hf Hrs Hrec Ha Hgt Hi].
  destruct (ke_file _ _ _ Hk) as (f & Hs & Hsn). unfold store_verify. pose proof (used_write (g_outside g)) as Hu.
  destruct (k_write _) as [k d]. cbn in Hu. set (dv := <[Session r := nativeHash r]> (d_verified (g_dir g))).
  assert (forall id f, d_sessions (g_dir g) !! id = Some f -> exists s, whole scope {| (g_dir g) with d_verified := dv |} id f s) as Hf'.
  { intros id f' Hf'. destruct (Hf _ _ Hf') as [s Hw]. exists s. eapply whole_frame; [done|done|done|]. cbn. unfold dv. intros h.
    destruct (decide (id = Session r)) as [->|]; [|rewrite lookup_insert_ne by done; auto]. rewrite lookup_insert_eq. intros [= <-]. right.
    rewrite (ke_hash _ _ _ Hk). pose proof (wh_snapshot _ _ _ _ _ Hw) as Hw'. rewrite Hs in Hf'. injection Hf' as <-.
    rewrite Hsn in Hw'. by injection Hw' as <-. }
  assert (forall id, is_Some (d_verified (g_dir g) !! id) -> is_Some (dv !! id)) as Hv.
  { intros id Hid. unfold dv. destruct (decide (id = Session r)) as [->|]; [by rewrite lookup_insert_eq|by rewrite lookup_insert_ne by done]. }
  assert (forall k, k_used k = k_used (g_outside g) -> ids {| (g_dir g) with d_verified := dv |} ⊆ k_used k) as Hi'.
  { intros k' ->. unfold ids, dv in *. cbn. rewrite dom_insert. apply elem_of_dom_2 in Hs. set_solver. }
  destruct d; cbn.
  - split; [|intros _; exists {| r with sr_verified := true |}; unfold current; cbn; by rewrite Er; cbn; rewrite lookup_alter_eq, Hr].
    split; cbn; auto.
    + intros id r'. rewrite lookup_alter_Some. intros [(<- & r0 & Hr0 & ->)|[_ Hr']].
      * replace r0 with r by congruence. destruct Hk. split; cbn; try done. intros _. unfold dv. by rewrite lookup_insert_eq.
      * eapply kept_frame; [by apply Hrs|done|]. apply Hv.
    + intros id Hid. destruct (Hrec id Hid) as (r0 & Hr0 & Hrun). destruct (decide (id = Session r)) as [->|].
      * rewrite lookup_alter_eq, Hr0. cbn. eexists. split; [done|]. done.
      * rewrite lookup_alter_ne by done. eauto.
    + intros id Hid. destruct (Ha id Hid) as (r0 & Hr0 & Hrun). destruct (decide (id = Session r)) as [->|].
      * rewrite lookup_alter_eq, Hr0. cbn. eauto.
      * rewrite lookup_alter_ne by done. eauto.
  - split; [|done]. split; cbn; rewrite ?Hu; auto; by destruct (g_dir g).
  - split; [|done]. split; cbn; auto. intros id r' Hr'. eapply kept_frame; [by apply Hrs|done|]. apply Hv.
Qed.

Lemma revision_inv g g' x : store_inv g -> g_Revision g = (g', x) -> store_inv g' /\
  (is_ok x = true -> exists r, current g' = Some r /\ sr_verified r = true).
Proof.
  intros Hg. unfold g_Revision. pose proof (same_store_inv _ _ (request_same "status" g) Hg) as H1'.
  destruct (g_request _ g) as [g1 [[]|e]]; cbn in H1'; try (by intros [= <- <-]).
  destruct (current g1) as [r|] eqn:Ec; [|by intros [= <- <-]]. destruct (verify_inv _ _ H1' Ec) as [H2' H3'].
  destruct (store_verify r g1) as [g2 [u|e]]; intros [= <- <-]; auto.
Qed.

Lemma commit_inv g r : store_inv g -> current g = Some r -> sr_verified r = true -> store_inv (fst (store_commit r g)) /\
  (is_ok (snd (store_commit r g)) = true -> d_active (g_dir (fst (store_commit r g))) = g_record (fst (store_commit r g))).
Proof.
  intros Hg Hc Hv. destruct (current_kept _ _ Hg Hc) as (Er & Hr & Hk). destruct Hg as [Hf Hrs Hrec Ha Hgt Hi].
  unfold store_commit. pose proof (used_write (g_outside g)) as Hu. destruct (k_write _) as [k d]. cbn in Hu.
  assert (forall dir', d_sessions dir' = d_sessions (g_dir g) -> d_verified dir' = d_verified (g_dir g) ->
    forall id r', g_records g !! id = Some r' -> kept dir' id r') as Hrs'.
  { intros dir' E1 E2 id r' Hr'. eapply kept_frame; [by apply Hrs|done|]. by rewrite E2. }
  assert (forall id f, d_sessions (g_dir g) !! id = Some f -> exists s, whole scope {| (g_dir g) with d_active := Some (Session r) |} id f s) as Hf'.
  { intros id f' Hf'. destruct (Hf _ _ Hf') as [s Hw]. exists s. eapply whole_frame; [done|done|done|by left]. }
  destruct d; cbn; (split; [|done]).
  - split; cbn; rewrite ?Hu; auto. intros id [= <-]. eauto.
  - split; cbn; rewrite ?Hu; auto; by destruct (g_dir g).
  - split; cbn; rewrite ?Hu; auto. intros id [= <-]. eauto.
Qed.

(** Files of a session nothing knows of yet. *)
Lemma fresh_native g id n k : store_inv g -> (id ∉ ids (g_dir g)) -> k_used k = {[id]} ∪ k_used (g_outside g) -> g_held g = true ->
  store_inv {| g with g_outside := k; g_dir := {| (g_dir g) with d_native := <[id := n]> (d_native (g_dir g)) |} |}.
Proof.
  intros [Hf Hrs Hrec Ha Hgt Hi] Hid Hk Hh. split; cbn; auto.
  - intros id' f Hf'. destruct (Hf _ _ Hf') as [s Hw]. exists s. eapply whole_frame; [done| |done|by left]. cbn.
    apply lookup_insert_ne. intros ->. apply elem_of_dom_2 in Hf'. unfold ids in Hid. set_solver.
  - intros id' r Hr. eapply kept_frame; [by apply Hrs|done..].
  - rewrite Hk. unfold ids in *. cbn. rewrite dom_insert. set_solver.
Qed.

Lemma fresh_session g id s : store_inv g -> d_native (g_dir g) !! id = Some (native_text (cl_native s)) -> is_session id = true ->
  d_sessions (g_dir g) !! id = None -> d_verified (g_dir g) !! id = None -> staged scope s -> g_held g = true ->
  let f := {| sf_RunClockID := ""; sf_Session := id; sf_Snapshot := cl_raw s |} in
  let g' := {| g with g_dir := {| (g_dir g) with d_sessions := <[id := f]> (d_sessions (g_dir g)) |} |} in
  store_inv g' /\
  store_inv {| g' with g_records := <[id := {| RunClockID := ""; Session := id; sr_snapshot := s;
    nativeHash := sha256_hex (native_text (cl_native s)); sr_verified := false |}]> (g_records g) |}.
Proof.
  intros [Hf Hrs Hrec Ha Hgt Hi] Hn Hid Hs Hv Hst Hh f g'.
  assert (g_records g !! id = None) as Hr.
  { destruct (g_records g !! id) as [r|] eqn:E; [|done]. apply Hrs, ke_file in E as (f' & Hf' & _). congruence. }
  assert (store_inv g') as Hg'.
  { split; cbn; auto.
    - intros id' f'. rewrite lookup_insert_Some. intros [[<- <-]|[Hne Hf']].
      + exists s. split; cbn; try done. intros h. by rewrite Hv.
      + destruct (Hf _ _ Hf') as [s' Hw]. exists s'. eapply whole_frame; [done|done|done|by left].
    - intros id' r Hr'. destruct (Hrs _ _ Hr') as [? ? (f' & ? & ?) ? ?]. split; try done. exists f'. cbn.
      rewrite lookup_insert_ne by congruence. done.
    - unfold ids in *. cbn. rewrite dom_insert. apply elem_of_dom_2 in Hn. set_solver. }
  split; [done|]. destruct Hg' as [Hf' Hrs' Hrec' Ha' _ Hi']. split; cbn; auto.
  - intros id' r. rewrite lookup_insert_Some. intros [[<- <-]|[Hne Hr']]; [|by apply Hrs']. split; cbn; try done.
    exists f. by rewrite lookup_insert_eq.
  - intros id' Hid'. destruct (Hrec _ Hid') as (r & Hr' & ?). exists r. rewrite lookup_insert_ne by congruence. done.
  - intros id' Hid'. destruct (Ha _ Hid') as (r & Hr' & ?). exists r. rewrite lookup_insert_ne by congruence. done.
Qed.

Lemma outside_inv g k : k_used (g_outside g) ⊆ k_used k -> store_inv g -> store_inv (at_ g k).
Proof. intros Hk [Hf Hrs Hrec Ha Hgt Hi]. split; auto. cbn. set_solver. Qed.

Lemma create_inv s g g' x : store_inv g -> staged scope s -> g_held g = true -> store_create s g = (g', x) ->
  store_inv g' /\ g_record g' = g_record g /\ g_run g' = g_run g /\ g_held g' = true /\
  (forall id, x = Ok id -> exists r, g_records g' !! id = Some r /\ sr_snapshot r = s).
Proof.
  intros Hg Hs Hh. unfold store_create. destruct (k_random _) as [k [b|]] eqn:Ek.
  2: { apply used_none in Ek. intros [= <- <-]. split_and!; try done. apply outside_inv; [by rewrite Ek|done]. }
  apply used_random in Ek as [Hfr Hk]. set (id := hex_id b) in *. set (n := native_text (cl_native s)). cbn [at_ g_outside].
  assert (id ∉ ids (g_dir g)) as Hid by (pose proof (st_ids _ Hg); set_solver).
  pose proof (used_write k) as Hu1. destruct (k_write k) as [k1 d1]. cbn in Hu1. pose proof (used_write k1) as Hu2.
  pose proof (fresh_native g id n k1 Hg Hid (eq_trans Hu1 Hk) Hh) as H1'.
  destruct d1; cbn [written negb].
  - cbn. destruct (k_write k1) as [k2 d2]. cbn in Hu2.
    assert (store_inv (at_ {| g with g_outside := k1; g_dir := {| (g_dir g) with d_native := <[id := n]> (d_native (g_dir g)) |} |} k2)) as H2'
      by (apply outside_inv; [cbn; by rewrite Hu2|done]).
    destruct (fresh_session _ id s H2') as [H3' H4']; try done.
    { cbn. apply lookup_insert_eq. }
    { apply hex_id_session. }
    { cbn. apply not_elem_of_dom. unfold ids in Hid. set_solver. }
    { cbn. apply not_elem_of_dom. unfold ids in Hid. set_solver. }
    destruct d2; cbn; intros [= <- <-]; split_and!; try done.
    intros id' [= <-]. eexists. split; [apply lookup_insert_eq|done].
  - intros [= <- <-]. split_and!; try done. destruct g as [? ? ? ? ? ? [] ? ? ? ? ? ?]. eapply outside_inv in Hg; [exact Hg|]. cbn in *. set_solver.
  - intros [= <- <-]. by split_and!.
Qed.

Lemma prepare_inv s g : store_inv g -> staged scope s -> g_held g = true -> store_inv (fst (g_Prepare s g)).
Proof.
  intros Hg Hs Hh. unfold g_Prepare. destruct (validateRunSnapshot g s) as [u|e] eqn:Ev; [|done].
  destruct (store_create s g) as [g1 x] eqn:Ec. destruct (create_inv _ _ _ _ Hg Hs Hh Ec) as (Hg1 & _ & Hrun & Hh1 & Hr).
  destruct x as [id|e]; [|done]. destruct (Hr id eq_refl) as (r & Hr1 & Hr2). destruct Hg1 as [Hf Hrs Hrec Ha Hgt Hi].
  split; cbn; auto; [|congruence]. intros id' [= <-]. exists r. split; [done|]. intros run. rewrite Hrun, Hr2. intros E.
  revert Ev. unfold validateRunSnapshot, has_clock. rewrite E. destruct (Current _); [|done]. case_if; [done|]. by case_if.
Qed.

Definition verified_current g : Prop := exists r, current g = Some r /\ sr_verified r = true.

(** The archive of the current session, then its rewritten file and record. *)
Lemma archive_inv g r raw : store_inv g -> current g = Some r ->
  store_inv {| g with g_dir := {| (g_dir g) with d_archives := <[Session r := raw]> (d_archives (g_dir g)) |} |}.
Proof.
  intros [Hf Hrs Hrec Ha Hgt Hi] _. split; cbn; auto.
  - intros id f Hf'. destruct (Hf _ _ Hf') as [s Hw]. exists s. eapply whole_frame; [done|done| |by left]. cbn. intros Hid.
    destruct (decide (id = Session r)) as [->|]; [by rewrite lookup_insert_eq|by rewrite lookup_insert_ne by done].
  - intros id r' Hr. eapply kept_frame; [by apply Hrs|done..].
Qed.

Lemma run_file_inv g r run : store_inv g -> current g = Some r -> g_run g = Some run -> is_Some (d_archives (g_dir g) !! Session r) ->
  let r' := {| r with RunClockID := rb_ClockID run |} in
  let f := {| sf_RunClockID := rb_ClockID run; sf_Session := Session r; sf_Snapshot := cl_raw (sr_snapshot r) |} in
  let g1 := {| g with g_records := <[Session r := r']> (g_records g) |} in
  store_inv g1 /\ store_inv {| g1 with g_dir := {| (g_dir g) with d_sessions := <[Session r := f]> (d_sessions (g_dir g)) |} |}.
Proof.
  intros Hg Hc Hrun Har r' f g1. destruct (current_kept _ _ Hg Hc) as (Er & Hr & Hk). pose proof Hg as [Hf Hrs Hrec Ha Hgt Hi].
  destruct Hk as [_ Hst (f0 & Hf0 & Hs0) Hh Hv]. destruct (Hrec _ Er) as (r0 & Hr0 & Hclk).
  rewrite Hr in Hr0. injection Hr0 as <-. specialize (Hclk run Hrun).
  assert (store_inv g1) as H1'.
  { split; cbn; auto.
    - intros id r1. rewrite lookup_insert_Some. intros [[<- <-]|[Hne Hr']]; [|by apply Hrs]. split; cbn; try done. by exists f0.
    - intros id Hid. destruct (Hrec _ Hid) as (r1 & Hr1 & Hc1). destruct (decide (id = Session r)) as [->|].
      + rewrite lookup_insert_eq. exists r'. split; [done|]. cbn. naive_solver.
      + rewrite lookup_insert_ne by done. eauto.
    - intros id Hid. destruct (Ha _ Hid) as (r1 & Hr1 & Hc1). destruct (decide (id = Session r)) as [->|].
      + rewrite lookup_insert_eq. exists r'. split; [done|]. cbn. congruence.
      + rewrite lookup_insert_ne by done. eauto. }
  split; [done|]. destruct H1' as [_ Hrs1 Hrec1 Ha1 Hgt1 Hi1]. split; cbn; auto.
  - intros id f'. rewrite lookup_insert_Some. intros [[<- <-]|[Hne Hf']].
    + destruct (Hf _ _ Hf0) as [s Hw]. destruct Hw as [E1 E2 E3 E4 _ E6]. rewrite Hs0 in E3. injection E3 as <-.
      exists (sr_snapshot r). split; cbn; done.
    + destruct (Hf _ _ Hf') as [s' Hw]. exists s'. eapply whole_frame; [done|done|done|by left].
  - intros id r1 Hr1. destruct (Hrs1 _ _ Hr1) as [G1 G2 (f' & G3 & G4) G5 G6]. split; try done. cbn.
    destruct (decide (id = Session r)) as [->|]; [|exists f'; by rewrite lookup_insert_ne by done].
    exists f. rewrite lookup_insert_eq. split; [done|]. cbn in Hr1 |- *. rewrite lookup_insert_eq in Hr1. by injection Hr1 as <-.
  - unfold ids in *. cbn in *. rewrite dom_insert. apply elem_of_dom_2 in Hf0. set_solver.
Qed.

Lemma activate_inv g : store_inv g -> store_inv (fst (activateRunSession g)) /\
  (verified_current g -> verified_current (fst (activateRunSession g))).
Proof.
  intros Hg. unfold activateRunSession. destruct (g_run g) as [run|] eqn:Erun; [|done]. destruct (current g) as [r|] eqn:Ec; [|done].
  pose proof (used_now (g_outside g)) as U1. destruct (k_now _) as [k1 now]. cbn in U1.
  pose proof (used_write k1) as U2. destruct (k_write k1) as [k2 d1]. cbn in U2. destruct (Apply _ _ _) as [live x].
  set (run' := {| run with rb_ledger := live |}). set (g1 := {| (at_ g k2) with g_run := Some run' |}).
  assert (store_inv g1) as Hg1.
  { destruct Hg as [Hf Hrs Hrec Ha Hgt Hi]. split; cbn; auto; [|by rewrite U2, U1]. intros id Hid.
    destruct (Hrec _ Hid) as (r1 & Hr1 & Hc1).     exists r1. split; [done|]. intros ? [= <-]. by apply (Hc1 run). }
  assert (current g1 = Some r) as Ec1 by done.
  destruct x as [u|e]; [|done]. destruct (Archive _ _) as [raw|e]; [|done].
  unfold g1. cbn [g_outside at_]. fold g1. pose proof (used_write k2) as U3. destruct (k_write k2) as [k3 d2]. cbn in U3.
  assert (store_inv (at_ g1 k3)) as Hg2 by (apply outside_inv; [cbn; by rewrite U3|done]).
  assert (forall g' : gateway D K, current g' = Some r -> verified_current g -> verified_current g') as Hvc.
  { intros g' E (r1 & Hr1 & Hv). rewrite Ec in Hr1. injection Hr1 as <-. by exists r. }
  case_if.
  { cbn. split; [|exact (Hvc _ Ec1)]. clear -Hg2. subst g1. destruct g as [? ? ? ? ? ? [] ? ? ? ? ? ?]. exact Hg2. }
  pose proof (archive_inv (at_ g1 k3) r raw Hg2 Ec1) as Hg3.
  destruct d2; cbn [written negb].
  2: { cbn. split; [|exact (Hvc _ Ec1)]. clear -Hg2. subst g1. destruct g as [? ? ? ? ? ? [] ? ? ? ? ? ?]. exact Hg2. }
  2: { split; [exact Hg3|exact (Hvc _ Ec1)]. }
  cbn [g_outside at_]. pose proof (used_write k3) as U4. destruct (k_write k3) as [k4 d3]. cbn in U4.
  set (dir := {| (g_dir (at_ g1 k3)) with d_archives := <[Session r := raw]> (d_archives (g_dir (at_ g1 k3))) |}) in Hg3.
  assert (store_inv {| (at_ g1 k4) with g_dir := dir |}) as Hg4.
  { apply (outside_inv _ k4) in Hg3; [exact Hg3|cbn; by rewrite U4]. }
  destruct (run_file_inv _ r run' Hg4 Ec1 eq_refl) as [Hg5 Hg6]; [cbn; by rewrite lookup_insert_eq|].
  assert (forall dir', verified_current g -> verified_current {| (at_ g1 k4) with g_dir := dir';
    g_records := <[Session r := {| r with RunClockID := rb_ClockID run' |}]> (g_records g) |}) as Hv.
  { intros dir' (r1 & Hr1 & Hv1). rewrite Ec in Hr1. injection Hr1 as <-. destruct (current_kept _ _ Hg Ec) as (Er & _ & _).
    exists {| r with RunClockID := rb_ClockID run' |}. split; [|done]. unfold current. cbn. rewrite Er. cbn. by rewrite lookup_insert_eq. }
  destruct d3; cbn [written fst]; (split; [|apply Hv]); [exact Hg6| |exact Hg6].
  clear -Hg5. subst g1 dir. destruct g as [? ? ? ? ? ? [] ? ? ? ? ? ?]. exact Hg5.
Qed.

Lemma same_current g g' : same_store g g' -> current g' = current g.
Proof. intros (_ & E2 & E3 & _). unfold current. by rewrite E2, E3. Qed.

(** What resuming needs and keeps. *)
Definition resumable g : Prop := store_inv g /\ verified_current g.

Lemma and_then_inv {A B} (P : gateway D K -> Prop) (x : gateway D K * result string A) (f : A -> op (gateway D K) B) :
  P (fst x) -> (forall a g, P g -> P (fst (f a g))) -> P (fst (and_then x f)).
Proof. intros Hx Hf. destruct x as [g1 [a|e]]; [by apply Hf|done]. Qed.

Lemma same_resumable g g' : same_store g g' -> resumable g -> resumable g'.
Proof. intros Hs [Hg Hv]. split; [by eapply same_store_inv|]. unfold verified_current. by rewrite (same_current _ _ Hs). Qed.

Lemma commit_record r g : g_record (fst (store_commit r g)) = g_record g /\ current (fst (store_commit r g)) = current g.
Proof. unfold store_commit. destruct (k_write _) as [k d]. by destruct (written _ _ _). Qed.

Lemma resume_resumable g : resumable g -> resumable (fst (g_Resume g)).
Proof.
  intros Hg. unfold g_Resume. apply and_then_inv; [by apply (same_resumable _ _ (stopping_same g))|]. intros _ g1 Hg1.
  apply and_then_inv; [destruct Hg1 as [Hg1 Hv1], (activate_inv g1 Hg1); split; auto|]. intros _ g2 Hg2.
  apply and_then_inv; [by apply (same_resumable _ _ (request_same "resume" g2))|]. intros [] g3 Hg3; [done|].
  apply and_then_inv; [by apply (same_resumable _ _ (stopping_same g3))|]. intros _ g4 Hg4. destruct Hg4 as [Hg4 (r & Hr & Hrv)].
  rewrite Hr. destruct (commit_inv g4 r Hg4 Hr Hrv) as [Hg5 Hact]. destruct (commit_record r g4) as [Erec Ecur].
  assert (resumable (fst (store_commit r g4))) as Hg5' by (split; [done|]; exists r; by rewrite Ecur).
  destruct (current_kept _ _ Hg4 Hr) as (Er & _ & _).
  destruct (store_commit r g4) as [g5 [u|e]]; [|done]. cbn [and_then]. cbn in Hg5, Hact, Erec, Hg5'. specialize (Hact eq_refl).
  pose proof (stopping_same g5) as Hs. pose proof (same_resumable _ _ Hs Hg5') as Hg6.
  destruct (unless_stopping g5) as [g6 [u6|e]]; [|done]. cbn [and_then fst] in *. destruct Hg6 as [[Hf Hrs Hrc Hac Hgt Hi] Hv6].
  split; [|done]. split; cbn; auto. intros _. destruct Hs as (E1 & _ & E3 & _). by rewrite E1, E3, Hact, Erec, Er.
Qed.

(** *** The runtime *)

Record recoverable (r : ResolverRuntime (gateway D K)) : Prop := {
  rv_store : store_inv (rr_world r);
  rv_held : rr_held r = true -> g_held (rr_world r) = true;
  rv_stopped : rr_stopped r = true -> rr_verified r = false;
  rv_verified : rr_verified r = true -> verified_current (rr_world r)
}.

Lemma world_step r g : recoverable r -> same_store (rr_world r) g -> recoverable {| r with rr_world := g |}.
Proof.
  intros [Hst Hh Hsp Hv] Hs. split; cbn; auto; [by eapply same_store_inv| |].
  - intros E%Hh. destruct Hs as (_ & _ & _ & _ & _ & Hg). destruct (g_held g); [done|]. by rewrite Hg in E.
  - intros E%Hv. unfold verified_current. by rewrite (same_current _ _ Hs).
Qed.

Lemma hold_recoverable r : recoverable r -> recoverable (fst (rr_Hold r)).
Proof.
  intros Hr. unfold rr_Hold, on_world. cbn [gate_Hold recovery_adapters gateway_adapters].
  pose proof (hold_same (rr_world r)) as Hs. pose proof (hold_closes_gate (rr_world r)) as Hc.
  destruct (g_Hold (rr_world r)) as [g x]. cbn in Hs, Hc. pose proof (world_step _ _ Hr Hs) as [H1' H2' H3' H4']. by destruct x.
Qed.

Lemma stop_recoverable r : recoverable r -> recoverable (fst (rr_Stop r)).
Proof.
  intros Hr. unfold rr_Stop, on_world. case_if; [done|]. cbn [conn_Stop recovery_adapters gateway_adapters].
  pose proof (stop_same (rr_world r)) as Hs. destruct (g_Stop (rr_world r)) as [g x]. cbn in Hs.
  pose proof (world_step _ _ Hr Hs) as [H1' H2' H3' H4']. by destruct x.
Qed.

Definition behind_barrier (r : ResolverRuntime (gateway D K)) : Prop := rr_held r = true /\ rr_stopped r = true.

Lemma drain_recoverable r r' x : recoverable r -> rr_Drain r = (r', x) -> recoverable r' /\ (is_ok x = true -> behind_barrier r').
Proof.
  intros Hr. unfold rr_Drain, on_world. case_if; [by intros [= <- <-]|]. apply negb_false_iff, andb_true_iff in E.
  cbn [gate_Drain recovery_adapters gateway_adapters].
  pose proof (drain_same (rr_world r)) as Hs. destruct (g_Drain (rr_world r)) as [g y]. cbn in Hs.
  pose proof (world_step _ _ Hr Hs) as [H1' H2' H3' H4']. destruct y; intros [= <- <-]; by split.
Qed.

Lemma configure_recoverable s r : staged scope s -> recoverable r -> behind_barrier r -> recoverable (fst (rr_ConfigureSnapshot s r)).
Proof.
  intros Hs [Hst Hh Hsp Hv] [Bh Bs]. unfold rr_ConfigureSnapshot, on_world. cbn [conn_Prepare recovery_adapters gateway_adapters].
  pose proof (prepare_inv s _ Hst Hs (Hh Bh)) as Hp. pose proof (prepare_gate s (rr_world r)) as Hg.
  destruct (g_Prepare s (rr_world r)) as [g x]. cbn in Hp, Hg.
  assert (recoverable {| r with rr_world := g |}) as Hr.
  { split; cbn; auto; [by rewrite Hg|]. rewrite Hsp by done. done. }
  destruct x as [u|e]; [|done]. unfold rr_Configure, on_world. case_if; [done|]. cbn [conn_Configure recovery_adapters gateway_adapters].
  pose proof (configure_same (cl_native s) g) as Hc. cbn [rr_world]. destruct (g_Configure (cl_native s) g) as [g2 y].
  pose proof (world_step _ _ Hr Hc) as [H1' H2' H3' H4']. by destruct y.
Qed.

Lemma start_recoverable r : recoverable r -> recoverable (fst (rr_Start r)).
Proof.
  intros Hr. unfold rr_Start, on_world. case_if; [done|]. cbn [conn_Start recovery_adapters gateway_adapters].
  pose proof (start_same (rr_world r)) as Hs. cbn [rr_world]. destruct (g_Start cfg (rr_world r)) as [g x].
  pose proof (world_step _ _ Hr Hs) as [H1' H2' H3' H4']. by split.
Qed.

Lemma verify_recoverable v r : recoverable r -> recoverable (fst (rr_Verify v r)).
Proof.
  intros [Hst Hh Hsp Hv]. unfold rr_Verify, on_world. cbn [rr_held rr_stopped rr_world].
  case_if; [by split|]. apply orb_false_iff in E as [_ Es].
  cbn [conn_Revision recovery_adapters gateway_adapters]. pose proof (revision_gate (rr_world r)) as Hg.
  destruct (g_Revision (rr_world r)) as [g x] eqn:Ev. apply revision_inv in Ev as [Hi Hok]; [|done]. cbn in Hg.
  assert (rr_held r = true -> g_held g = true) as Hh' by (rewrite Hg; done).
  destruct x as [got|e]; [|by split]. case_if; [by split|]. split; cbn; auto. by rewrite Es.
Qed.

Lemma resume_recoverable r : recoverable r -> recoverable (fst (rr_Resume r)).
Proof.
  intros Hr. unfold rr_Resume, on_world. case_if; [done|]. rewrite !orb_false_iff, !negb_false_iff in E. destruct E as [[Eh Es] Ev].
  destruct Hr as [Hst Hh Hsp Hv]. cbn [gate_Resume recovery_adapters gateway_adapters].
  pose proof (resume_resumable _ (conj Hst (Hv Ev))) as [Hi Hc].
  destruct (g_Resume (rr_world r)) as [g x] eqn:Er. cbn in Hi, Hc.
  destruct x as [u|e]; cbn; split; cbn; auto; [done|]. intros _. by eapply resume_keeps_closed; [|exact Er]; auto.
Qed.

(** *** Restarts *)

(** The gateway a process starts with, from the state directory it finds. *)
Definition booted g : Prop :=
  g_held g = true /\ g_record g = None /\ openSessions scope (g_dir g) = Some (g_records g) /\
  is_ok (lastGood g) = true /\ ids (g_dir g) ⊆ k_used (g_outside g).

(** The same directory, read by the next process. *)
Definition reopened g (records : gmap string sessionRecord) : gateway D K := {| g with g_records := records |}.

Lemma booted_inv g : booted g -> store_inv g.
Proof.
  intros (Hh & Hr & Ho & Hl & Hi). apply openSessions_some in Ho as [Hm Hf]. split; auto; try congruence.
  - intros id r Hid. rewrite Hm, map_lookup_imap in Hid. destruct (d_sessions (g_dir g) !! id) as [f|] eqn:Es; [|done].
    cbn in Hid. apply open_session_whole in Hid as (s & Hw & ->). pose proof (wh_snapshot _ _ _ _ _ Hw) as Hs.
    split; cbn; try done; [by eapply StageClock_raw|by exists f|]. by intros ?%bool_decide_eq_true.
  - intros id Hid. unfold lastGood in Hl. rewrite Hid in Hl. destruct (g_records g !! id) as [r|]; [|done].
    exists r. split; [done|]. by destruct (sr_verified r).
Qed.

Lemma reopen g : store_inv g -> exists records, openSessions scope (g_dir g) = Some records /\
  match d_active (g_dir g) with
  | None => lastGood (reopened g records) = Ok None
  | Some id => exists r, g_records g !! id = Some r /\ lastGood (reopened g records) = Ok (Some (sr_snapshot r))
  end.
Proof.
  intros [Hf Hrs Hrec Ha Hgt Hi]. eexists. split; [by apply openSessions_spec|]. unfold lastGood. cbn.
  destruct (d_active (g_dir g)) as [id|] eqn:Ea; [|done]. destruct (Ha id eq_refl) as (r & Hr & Hv). exists r. split; [done|].
  destruct (Hrs _ _ Hr) as [_ _ (f & Hff & Hs) _ Hp]. destruct (Hf _ _ Hff) as [s Hw].
  rewrite map_lookup_imap, Hff. cbn. rewrite (open_whole _ _ _ _ _ Hw). cbn. rewrite bool_decide_true by auto.
  pose proof (wh_snapshot _ _ _ _ _ Hw) as Hs'. rewrite Hs in Hs'. by injection Hs' as <-.
Qed.

Lemma history_recoverable g0 res ks : booted g0 ->
  recoverable (snd (history ks (NewController scope, NewResolverRuntime g0 res))).
Proof.
  intros Hb%booted_inv. apply (history_keeps scope recoverable behind_barrier); [exact hold_recoverable|exact stop_recoverable
    |exact drain_recoverable|exact configure_recoverable|exact start_recoverable|exact verify_recoverable
    |exact resume_recoverable|apply new_inv|].
  by split.
Qed.

(** The directory a history leaves opens again, and holds what was applied. *)
Lemma history_reopens (g0 : gateway D K) (res : SyncedResolver) (ks : list call) : booted g0 ->
  let '(c, r) := history ks (NewController scope, NewResolverRuntime g0 res) in
  exists records last, openSessions scope (g_dir (rr_world r)) = Some records /\
    lastGood (reopened (rr_world r) records) = Ok last /\
    (AppliedRevision (c_status c) <> "" -> option_map Revision last = Some (AppliedRevision (c_status c))).
Proof.
  intros Hb. pose proof (history_recoverable g0 res ks Hb) as [Hs _ _ _].
  pose proof (history_coherent scope (NewResolverRuntime g0 res) ks) as Hh. destruct (history _ _) as [c r]. cbn [snd] in Hs.
  destruct Hh as (_ & Ho & _). destruct (reopen _ Hs) as (records & Hop & Hl). exists records.
  destruct (d_active (g_dir (rr_world r))) as [id|] eqn:Ea.
  - destruct Hl as (rec & Hrec & Hl). exists (Some (sr_snapshot rec)). split_and!; [done..|]. intros Hne.
    destruct (Ho Hne) as (s & _ & Er & _ & Hopen & [_ (sid & h & s' & Hv & _ & Hrev)]).
    destruct (st_gate _ Hs) as [Eact _]; [by apply negb_true_iff|]. rewrite Ea in Eact. unfold session_view, current in Hv.
    rewrite <- Eact in Hv. cbn in Hv. rewrite Hrec in Hv. injection Hv as _ _ <-. cbn. congruence.
  - exists None. split_and!; [done..|]. intros Hne. destruct (Ho Hne) as (s & _ & _ & _ & Hopen & _).
    destruct (st_gate _ Hs) as [Eact [id Hid]]; [by apply negb_true_iff|]. congruence.
Qed.

(** From a gateway that opened its state directory, whatever a history of
    syncs and restores does and however its writes fail, before or after they
    take effect: the next process opens the directory, every archived session
    included, and finds a valid last good snapshot or none; when a revision is
    applied, it is the one that is found. *)
Theorem restart_recovers (g0 : gateway D K) (res : SyncedResolver) (ks : list call) : booted g0 ->
  let '(c, r) := history ks (NewController scope, NewResolverRuntime g0 res) in
  exists records last, openSessions scope (g_dir (rr_world r)) = Some records /\
    lastGood (reopened (rr_world r) records) = Ok last /\
    (AppliedRevision (c_status c) <> "" -> option_map Revision last = Some (AppliedRevision (c_status c))).
Proof. apply history_reopens. Qed.
End Recovery.

(** ** A gateway that runs *)

Module ClockGatewayExample.
Import RunLedgerExample LifecycleExample ClockConfigExample.

(** A producer that answers every request with its receipt, or none at all
    before the context ends; file writes go as scripted. *)
Record outside := { o_next : Z; o_disks : list disk; o_ended : bool }.

Definition echo (q : string) : option string :=
  match parse q with
  | Some (JObj kvs) =>
    let get k := match List.find (fun kv => String.eqb (fst kv) k) kvs with Some kv => snd kv | None => JNull end in
    Some (marshal (JObj [("capability", JStr "clock-runtime/1"); ("session", get "session"); ("revision", get "revision");
      ("native_sha256", get "native_sha256"); ("paused", JBool (match get "action" with JStr a => negb (String.eqb a "resume") | _ => true end))]))
  | _ => None
  end.

Definition world (answers : bool) : Outside outside := {|
  k_ended k := o_ended k;
  k_ask k q := if answers then (k, echo q) else ({| k with o_ended := true |}, None);
  k_idle k := ({| k with o_ended := false |}, true);
  k_polls k := (k, [Polled 1 0 true; Polled 0 0 true]);
  k_stopping k := (k, false);
  k_write k := match o_disks k with d :: l => ({| k with o_disks := l |}, d) | [] => (k, DiskOk) end;
  k_random k := if (0 <=? o_next k) && (o_next k <? 8) then ({| k with o_next := o_next k + 1 |}, Some (str1 (o_next k))) else (k, None);
  k_now k := (k, utc 1);
  k_url k s := Some {| su_scheme := "nats"; su_host := s; su_user := false; su_query := ""; su_fragment := "" |};
  k_regular k s := true
|}.

Definition ids_below (n : Z) : gset string := list_to_set (map (fun i => hex_id (str1 i)) (seqZ 0 n)).

Lemma ids_fresh n : 0 <= n < 8 -> (hex_id (str1 n) ∉ ids_below n) /\ ids_below (n + 1) = {[hex_id (str1 n)]} ∪ ids_below n.
Proof.
  intros Hn. split.
  - assert (n ∈ seqZ 0 8) as Hin by (apply elem_of_seqZ; lia). clear Hn. revert n Hin.
    rewrite <- (Forall_forall (fun n => hex_id (str1 n) ∉ ids_below n)). apply (bool_decide_eq_true _). vm_compute. reflexivity.
  - unfold ids_below. rewrite seqZ_app, map_app, list_to_set_app_L by lia.
    change (map (fun i => hex_id (str1 i)) (seqZ (0 + n) 1)) with [hex_id (str1 n)]. cbn [list_to_set]. set_solver.
Qed.

#[export] Instance world_fresh answers : Fresh outside (H := world answers).
Proof.
  refine {| k_used := fun k => ids_below (o_next k) |}; cbn; try done.
  - intros k q. by destruct answers.
  - intros k. by destruct (o_disks k).
  - intros k k' b. destruct (Z.leb_spec 0 (o_next k)), (Z.ltb_spec (o_next k) 8); cbn; try done. intros [= <- <-]. by apply ids_fresh.
  - intros k k'. case_if; [done|]. by intros [= <-].
Defined.

Definition base : ConnectorSpec :=
  {| clock_spec with sp_Env := ["NATS_URL=nats://n:4222"; "NATS_AUTH_FILE=/run/auth"; "CONNECTOR_ID=x"] |}.
Definition blank : directory := {| d_native := ∅; d_sessions := ∅; d_verified := ∅; d_archives := ∅; d_active := None |}.
Definition boot (disks : list disk) : gateway fake outside :=
  {| g_outside := {| o_next := 0; o_disks := disks; o_ended := false |}; g_manager := m0 ∅; g_owner := handle ""; g_base := base;
     g_scope := scope; g_path := "/state"; g_dir := blank; g_records := ∅; g_record := None; g_started := false;
     g_discovered := false; g_held := true; g_run := None |}.
Definition calm : sync_env := {| se_busy := false; se_ended := fun _ => false; se_fetch := fun _ => Ok (Some snap) |}.

Section Answering.
#[local] Instance answering : Outside outside := world true.
#[local] Instance answering_fresh : Fresh outside := world_fresh true.
#[local] Instance answering_adapters : Adapters (gateway fake outside) := gateway_adapters cfg0.

Definition after (disks : list disk) := history [CallSync calm] (NewController scope, NewResolverRuntime (boot disks) (NewSynced None)).

Example sync_applies : AppliedRevision (c_status (fst (after []))) = Revision snap.
Proof. vm_compute. reflexivity. Qed.
Example sync_commit_fails : AppliedRevision (c_status (fst (after [DiskOk; DiskOk; DiskOk; DiskAfter]))) = "".
Proof. vm_compute. reflexivity. Qed.

Lemma boot_booted disks : booted scope (boot disks).
Proof. split_and!; [done|done|vm_compute; reflexivity|done|]. apply (bool_decide_eq_true _). vm_compute. reflexivity. Qed.

Lemma restart_recovers_witness : exists records last,
  openSessions scope (g_dir (rr_world (snd (after [])))) = Some records /\ option_map Revision last = Some (Revision snap) /\
  lastGood (reopened (rr_world (snd (after []))) records) = Ok last.
Proof.
  pose proof (restart_recovers cfg0 scope (boot []) (NewSynced None) [CallSync calm] (boot_booted [])) as Hr.
  unfold recovery_adapters in Hr. unfold after, answering_adapters in *.
  pose proof sync_applies as Ha. unfold after, answering_adapters in Ha. destruct (history _ _) as [c r]. destruct Hr as (records & last & Ho & Hl & Hv).
  exists records, last. cbn [fst snd] in *. split; [exact Ho|]. split; [|exact Hl]. rewrite <- Ha. apply Hv. rewrite Ha. discriminate.
Defined.

Lemma sync_acknowledges_witness :
  let '(c, r) := after [] in exists s, Revision s = DesiredRevision (c_status c) /\ serves (H0 := gateway_laws cfg0) r s.
Proof.
  pose proof (sync_acknowledges scope (H0 := resolver_laws (H0 := gateway_laws cfg0))
    (NewResolverRuntime (boot []) (NewSynced None)) [] calm) as Hs.
  cbn [history fold_left] in Hs. unfold after. cbn [history fold_left do_call fst snd].
  assert (is_ok (snd (Sync calm (NewController scope) (NewResolverRuntime (boot []) (NewSynced None)))) = true) as Hok by (vm_compute; reflexivity).
  destruct (Sync calm _ _) as [[c r] [u|e]]; [|discriminate Hok]. destruct Hs as (_ & _ & _ & Hs). exact Hs.
Defined.

Definition calls : list rr_call := [RHold; RStop; RDrain; RConfigure snap; RStart; RVerify (Revision snap)].
Definition ready : ResolverRuntime (gateway fake outside) :=
  after_calls (H := gateway_adapters cfg0) (NewResolverRuntime (boot []) (NewSynced None)) calls.

Lemma ready_eq : ready = after_calls (H := gateway_adapters cfg0) (NewResolverRuntime (boot []) (NewSynced None)) calls.
Proof. vm_compute. reflexivity. Qed.

Lemma open_held r : open (H0 := gateway_laws cfg0) r = negb (g_held (rr_world r)).
Proof. reflexivity. Qed.

Lemma runtime_barrier_witness :
  g_held (rr_world ready) = true /\ g_held (rr_world (rr_do (H := gateway_adapters cfg0) RResume ready)) = false /\ rr_verified ready = true.
Proof.
  assert (g_held (rr_world ready) = true) as H1 by (vm_compute; reflexivity).
  assert (g_held (rr_world (rr_do (H := gateway_adapters cfg0) RResume ready)) = false) as H2 by (vm_compute; reflexivity).
  pose proof (runtime_barrier (H0 := gateway_laws cfg0) (boot []) (NewSynced None) calls RResume) as Hr. cbv zeta in Hr.
  rewrite <- ready_eq in Hr. destruct Hr as [_ Hr]. rewrite !open_held, H1, H2 in Hr.
  destruct (Hr eq_refl eq_refl) as (_ & _ & Hv & _). exact (conj H1 (conj H2 Hv)).
Defined.
End Answering.

Section Lost.
(** A producer that answers so many requests and then hangs. *)
Record fading := { fd_world : outside; fd_left : nat }.
Definition faded {A} (k : fading) (x : outside * A) : fading * A := let '(w, a) := x in ({| k with fd_world := w |}, a).
#[local] Instance lost : Outside fading := {|
  k_ended k := o_ended (fd_world k);
  k_ask k q := match fd_left k with
               | O => (let w := fd_world k in {| k with fd_world := {| w with o_ended := true |} |}, None)
               | S n => ({| k with fd_left := n |}, echo q)
               end;
  k_idle k := faded k (k_idle (Outside := world true) (fd_world k));
  k_polls k := faded k (k_polls (Outside := world true) (fd_world k));
  k_stopping k := (k, false);
  k_write k := (k, DiskOk);
  k_random k := faded k (k_random (Outside := world true) (fd_world k));
  k_now k := (k, utc 1);
  k_url k := k_url (Outside := world true) (fd_world k);
  k_regular k s := true
|}.
#[local] Instance lost_adapters : Adapters (gateway fake fading) := gateway_adapters cfg0.

Definition fading_boot : gateway fake fading :=
  {| g_outside := {| fd_world := {| o_next := 0; o_disks := []; o_ended := false |}; fd_left := 2 |}; g_manager := m0 ∅; g_owner := handle "";
     g_base := base; g_scope := scope; g_path := "/state"; g_dir := blank; g_records := ∅; g_record := None; g_started := false;
     g_discovered := false; g_held := true; g_run := None |}.
Definition hangs (k : fading) : Prop := fd_left k = O.

Lemma hangs_ask k q : hangs k -> hangs (fst (k_ask k q)) /\ snd (k_ask k q) = None /\ k_ended (fst (k_ask k q)) = true.
Proof. unfold hangs. destruct k as [w n]. cbn. by intros ->. Qed.
Lemma hangs_idle k : hangs k -> hangs (fst (k_idle k)) /\ (snd (k_idle k) = false -> k_ended (fst (k_idle k)) = true).
Proof. unfold hangs. destruct k as [w n]. by cbn. Qed.

(** The start of the producer takes the two answers. *)
Definition applied : Controller * ResolverRuntime (gateway fake fading) := Eval vm_compute in
  history [CallSync calm] (NewController scope, NewResolverRuntime fading_boot (NewSynced None)).
Lemma applied_eq : history [CallSync calm] (NewController scope, NewResolverRuntime fading_boot (NewSynced None)) = applied.
Proof. vm_compute. reflexivity. Qed.
Example applied_stuck : stuck hangs (rr_world (snd applied)) /\ AppliedRevision (c_status (fst applied)) = Revision snap.
Proof. split; [split; [reflexivity|split; [reflexivity|split; [|reflexivity]]]|]; vm_compute; [eexists; reflexivity|reflexivity]. Qed.

(** Another snapshot, with a mapping of its own. *)
Definition other_text (hex : string) : string :=
  ProvisioningExample.dq ("{'schemaVersion':'clock-provisioning/1-draft','gatewayId':'gw-1','generatedAt':'now','revision':'\'sha256:"
    +:+ hex +:+ "\'','points':[{'pointId':'p9','protocol':'bacnet','writable':true,'native':{'protocol':'bacnet','deviceId':'7',"
    +:+ "'objectType':'analogOutput','instanceNo':'3'},'device':{'dtId':'ahu','id':'d1'}}],"
    +:+ "'clockSources':[{'clockId':'sim','clockDomain':'simulation','unit':'s','readOnly':true,'acquisitionMode':'poll',"
    +:+ "'native':{'protocol':'bacnet','gatewayId':'gw-1','connectorId':'bac-1','deviceInstance':7,'objectType':'analogValue',"
    +:+ "'objectInstance':9,'property':'presentValue','unit':'seconds'}}],"
    +:+ "'clockBindings':[{'equipmentId':'ahu','clockId':'sim'}]}").
Definition other_hex : string := Eval vm_compute in
  match parse (other_text "") with
  | Some (JObj body) => sha256_hex (encode_canonical (JObj (without "generatedAt" (without "revision" body))))
  | _ => ""
  end.
Definition other_snap : ClockSnapshot := Eval vm_compute in
  match StageClock (other_text other_hex) scope with Ok s => s | Err _ => snap end.
Definition other : sync_env := {| se_busy := false; se_ended := fun _ => false; se_fetch := fun _ => Ok (Some other_snap) |}.

(** The applied revision is still found in place, another one cannot be put in
    place, and then not even the first. *)
Example wedge :
  let '(c, r) := applied in
  let '(c1, r1, x1) := Sync calm c r in let '(c2, r2, x2) := Sync other c1 r1 in let '(c3, _, x3) := Sync calm c2 r2 in
  is_ok x1 = true /\ is_ok x2 = false /\ DesiredRevision (c_status c2) <> Revision snap /\ AppliedRevision (c_status c2) = "" /\
  is_ok x3 = false /\ AppliedRevision (c_status c3) = "".
Proof. vm_compute. split_and!; try reflexivity. discriminate. Qed.

Lemma lost_producer_wedges_witness :
  let '(c, r) := history (map CallSync [other]) applied in
  g_manager (rr_world r) = g_manager (rr_world (snd applied)) /\ is_ok (snd (Sync calm c r)) = false.
Proof.
  pose proof (lost_producer_wedges cfg0 hangs hangs_ask hangs_idle scope fading_boot (NewSynced None) [CallSync calm] [other]) as Hw.
  pose proof applied_eq as Ea. unfold lost_adapters, adapters in *. rewrite Ea in Hw. destruct applied_stuck as [Hs _].
  assert (AppliedRevision (c_status (fst (history (map CallSync [other]) applied))) = "") as Ha by (vm_compute; reflexivity).
  destruct applied as [c r]. cbn [snd] in *. specialize (Hw Hs).
  destruct (history (map CallSync [other]) (c, r)) as [c' r']. destruct Hw as (Hm & _ & _ & Hx). split; [exact Hm|].
  specialize (Hx calm). cbn [fst] in Ha. destruct (Sync calm c' r') as [[c2 r2] x]. destruct Hx as [_ Hok]. cbn [snd]. destruct (is_ok x); [|reflexivity].
  destruct (Hok eq_refl) as [Hne _]. contradiction.
Defined.
End Lost.
End ClockGatewayExample.
