(* ===== verification/ClockProcess.v ===== *)
(** * Lives of the clock process

    [NewGateway], [LastGood] and [RequestStop] of
    [src/internal/clocksync/gateway.go], [EnableRunContextFile] of
    [run_context.go], [Run] and [WithRuntimeLease] of [controller.go], and how
    [src/cmd/gateway/main.go] puts them together at start.  A process may end at
    any call of any history; the next one starts from the directory, the Docker
    daemon and the outside it left.

    The theorems: a process that found its settings in order always starts again,
    however often it has ended, with the revision last applied as its rollback
    candidate; and the shutdown's lease is taken or given up. *)

From Stdlib Require Import ZArith Lia Bool Ascii String List.
From stdpp Require Import base list strings gmap.
From S2P Require Import Prelude Json GoText Sha256 Float Encoding Transport PointList Provisioning Catalog Lifecycle RunLedger.
From S2P Require Import ClockConfig ClockSync ClockWorker ClockGateway ClockRecovery.
#[local] Open Scope string_scope.
#[local] Open Scope list_scope.
#[local] Open Scope Z_scope.
#[local] Open Scope go_scope.

Inductive boot_error :=
  WrongScope | NATSSettings | SessionsInvalid | ClaimFailed (e : ex_error) | NoConsumer | RunContext (e : string)
| BadTimeout | JournalInvalid | RestoreFailed (e : sync_error).

Section Boot.
  Context {D K : Type} `{Docker D} `{Outside K} `{GoTime} `{PKI K}.

(** [NewGateway], with what the stream answers to the consumer's creation. *)
Definition NewGateway (k : K) (m : Manager D) (spec : ConnectorSpec) (path : string) (dir : directory) (scope : ClockScope)
    (consumer_ok : bool) : Manager D * result boot_error (gateway D K) :=
  if negb (String.eqb (sp_ID spec) (ClockConfig.sc_ConnectorID scope)) then (m, Err WrongScope)
  else
    match ConnectorNATSAuthFile k spec with
    | None => (m, Err NATSSettings)
    | Some _ =>
      match openSessions scope dir with
      | None => (m, Err SessionsInvalid)
      | Some records =>
        match Claim m spec with
        | (m, Err e) => (m, Err (ClaimFailed e))
        | (m, Ok owner) =>
          if negb consumer_ok then (m, Err NoConsumer)
          else (m, Ok {| g_outside := k; g_manager := m; g_owner := owner; g_base := spec; g_scope := scope; g_path := path;
                         g_dir := dir; g_records := records; g_record := None; g_started := false; g_discovered := false;
                         g_held := true; g_run := None |})
        end
      end
    end.

(** [RunContextConfig]: the clock, the envelope's file and the ledger's. *)
Record RunContextConfig := { rx_ClockID : string; rx_EnvelopeFile : string; rx_LedgerFile : string }.
Definition rx_set (f : string) (v : json) (c : RunContextConfig) : option RunContextConfig :=
  if String.eqb f "clockId" then option_map (fun x => {| c with rx_ClockID := x |}) (decode_str (rx_ClockID c) v)
  else if String.eqb f "envelopeFile" then option_map (fun x => {| c with rx_EnvelopeFile := x |}) (decode_str (rx_EnvelopeFile c) v)
  else option_map (fun x => {| c with rx_LedgerFile := x |}) (decode_str (rx_LedgerFile c) v).

(** [EnableRunContextFile]; the ledger's write goes as the outside's next one,
    and [dirs_ok] says whether the two directories below the state directory
    exist or could be made. *)
Definition EnableRunContextFile (path : string) (dirs_ok : bool) (g : gateway D K) : gateway D K * result string unit :=
  if negb (g_held g) || match g_record g with Some _ => true | None => false end || match g_run g with Some _ => true | None => false end
  then (g, Err "run context must be selected before provisioning")
  else
    match read_file (g_outside g) path with
    | None => (g, Err "read config")
    | Some raw =>
      match parse_prefix raw with
      | None => (g, Err "decode config")
      | Some (v, _) =>
        match decode_struct true ["clockId"; "envelopeFile"; "ledgerFile"] rx_set
                {| rx_ClockID := ""; rx_EnvelopeFile := ""; rx_LedgerFile := "" |} v with
        | None => (g, Err "decode config")
        | Some c =>
          if String.eqb (rx_ClockID c) "" || negb (has_prefix (rx_EnvelopeFile c) "/") || negb (has_prefix (rx_LedgerFile c) "/")
          then (g, Err "invalid run context configuration")
          else
            match read_file (g_outside g) (rx_LedgerFile c) with
            | None => (g, Err "open ledger")
            | Some text =>
              match Open text {| RunLedger.sc_GatewayID := ClockConfig.sc_GatewayID (g_scope g); sc_ClockID := rx_ClockID c |} with
              | Err _ => (g, Err "open ledger")
              | Ok ledger0 =>
                match read_file (g_outside g) (rx_EnvelopeFile c) with
                | None => (g, Err "read envelope")
                | Some env =>
                  match parse env with
                  | None => (g, Err "decode envelope")
                  | Some ev =>
                    match decode_struct false ["payload"] (fun _ v _ => decode_bytes v) "" ev with
                    | None => (g, Err "decode envelope")
                    | Some payload =>
                      let '(k, now) := k_now (g_outside g) in
                      let '(k, w) := k_write k in
                      let g := at_ g k in
                      match Commit {| ledger := ledger0; file := text |} payload now w with
                      | (_, Err _) => (g, Err "commit")
                      | (s, Ok _) =>
                        if negb dirs_ok then (g, Err "make directories")
                        else ({| g with g_run := Some {| rb_ClockID := rx_ClockID c; rb_ledger := s |} |}, Ok tt)
                      end
                    end
                  end
                end
              end
            end
        end
      end
    end.

(** The controller over a gateway, with the rollback candidate it found. *)
Definition start_controller (g : gateway D K) (scope : ClockScope) (timeout : Z) (res : SyncedResolver)
  : result boot_error (Controller * ResolverRuntime (gateway D K)) :=
  if timeout <=? 0 then Err BadTimeout
  else
    match lastGood g with
    | Err _ => Err JournalInvalid
    | Ok last =>
      match RestoreLastGood last (NewController scope) with
      | (_, Err e) => Err (RestoreFailed e)
      | (c, Ok _) => Ok (c, NewResolverRuntime g res)
      end
    end.

(** The start of clock provisioning in [main]. *)
Definition clock_start (k : K) (m : Manager D) (spec : ConnectorSpec) (path : string) (dir : directory) (scope : ClockScope)
    (consumer_ok : bool) (runContext : string) (dirs_ok : bool) (timeout : Z) (res : SyncedResolver)
  : result boot_error (Controller * ResolverRuntime (gateway D K)) :=
  match snd (NewGateway k m spec path dir scope consumer_ok) with
  | Err e => Err e
  | Ok g =>
    match (if String.eqb runContext "" then (g, Ok tt) else EnableRunContextFile runContext dirs_ok g) with
    | (_, Err e) => Err (RunContext e)
    | (g, Ok _) => start_controller g scope timeout res
    end
  end.

(** [RequestStop]: the gate closes; the outside answers that it is stopping from
    then on. *)
Definition RequestStop (g : gateway D K) : gateway D K := {| g with g_held := true |}.
End Boot.

(** ** The controller's loops *)

(** [Run]: one sync at once and one per tick, until the context is found ended
    after one. *)
Section Loops.
  Context {R : Type} `{Runtime R}.

Fixpoint run_syncs (l : list (sync_env * bool)) (cr : Controller * R) : Controller * R :=
  match l with
  | [] => cr
  | (env, ended) :: rest =>
    let cr := fst (Sync env (fst cr) (snd cr)) in
    if ended then cr else run_syncs rest cr
  end.
Definition controller_Run (interval : Z) (l : list (sync_env * bool)) (cr : Controller * R) : result string (Controller * R) :=
  if interval <=? 0 then Err "clocksync: positive poll interval required" else Ok (run_syncs l cr).

Lemma run_syncs_history l : forall cr, exists envs, run_syncs l cr = history (map CallSync envs) cr /\ sublist envs (map fst l).
Proof.
  induction l as [|[env ended] l IH]; intros cr; cbn [run_syncs]; [by exists []|]. destruct ended.
  - exists [env]. split; [done|]. cbn. apply sublist_skip, sublist_nil_l.
  - destruct (IH (fst (Sync env (fst cr) (snd cr)))) as (envs & -> & Hs). exists (env :: envs). split; [done|]. by constructor.
Qed.
End Loops.

(** [WithRuntimeLease]: at each tick whether the lock is free, and whether the
    context had ended while waiting. *)
Fixpoint WithRuntimeLease {A} (ticks : list (bool * bool)) (fn : A) (ended : A) (waiting : A) : A :=
  match ticks with
  | [] => waiting
  | (free, over) :: rest => if free then fn else if over then ended else WithRuntimeLease rest fn ended waiting
  end.

(** ** Lives *)

(** One life: what its start finds and what its controller is called for until
    the process ends, at any call. *)
Record life := { l_path : string; l_run : string; l_dirs : bool; l_timeout : Z; l_res : SyncedResolver; l_calls : list call }.

Section Lives.
  Context {D K : Type} `{Docker D} `{Fresh K} `{GoTime} `{PKI K} (cfg : ManagerConfig) (scope : ClockScope) (spec : ConnectorSpec).

#[local] Instance process_adapters : Adapters (gateway D K) := gateway_adapters cfg.

(** A new process over the daemon it finds, with a stream that accepts the
    consumer. *)
Definition start_life (l : life) (k : K) (d : D) (dir : directory) : result boot_error (Controller * ResolverRuntime (gateway D K)) :=
  clock_start k {| m_docker := d; m_registry := ∅; m_reserved := ∅ |} spec (l_path l) dir scope true (l_run l) (l_dirs l) (l_timeout l) (l_res l).

(** What one life leaves: the controller's claim and the state on disk. *)
Definition live (l : life) (cr : Controller * ResolverRuntime (gateway D K)) : Controller * gateway D K :=
  let '(c, r) := history (l_calls l) cr in (c, rr_world r).

(** Every life starts, a refused run context apart, and finds what the one
    before it had applied; [applied] is that revision, "" for none.  A refused
    start leaves the state directory, the daemon and the ids in use as they
    were. *)
Fixpoint restarts (applied : string) (ls : list life) (k : K) (d : D) (dir : directory) : Prop :=
  match ls with
  | [] => True
  | l :: rest =>
    match start_life l k d dir with
    | Err (RunContext _) => l_run l <> "" /\ (forall k', k_used k' = k_used k -> restarts applied rest k' d dir)
    | Err _ => False
    | Ok cr =>
      (applied <> "" -> LastGoodRevision (c_status (fst cr)) = applied) /\
      let '(c, g) := live l cr in
      restarts (AppliedRevision (c_status c)) rest (g_outside g) (m_docker (g_manager g)) (g_dir g)
    end
  end.

(** A state directory a process can start from. *)
Definition startable (applied : string) (k : K) (dir : directory) : Prop :=
  exists records last, openSessions scope dir = Some records /\
    (forall g : gateway D K, g_dir g = dir -> g_records g = records -> lastGood g = Ok last) /\
    (applied <> "" -> option_map Revision last = Some applied) /\
    (forall s, last = Some s -> StageClock (cl_raw s) scope = Ok s) /\ ids dir ⊆ k_used k.

Lemma enable_keeps path dirs_ok (g : gateway D K) : match EnableRunContextFile path dirs_ok g with
  | (g', Ok _) => g_dir g' = g_dir g /\ g_records g' = g_records g /\ g_record g' = g_record g /\ g_held g' = g_held g /\
      g_scope g' = g_scope g /\ k_used (g_outside g') = k_used (g_outside g)
  | _ => True end.
Proof.
  unfold EnableRunContextFile. case_if; [done|]. destruct (read_file _ path); [|done]. destruct (parse_prefix _) as [[v rest]|]; [|done].
  destruct (decode_struct true _ _ _ v) as [c|]; [|done]. case_if; [done|]. destruct (read_file _ (rx_LedgerFile c)); [|done].
  destruct (Open _ _); [|done]. destruct (read_file _ (rx_EnvelopeFile c)); [|done]. destruct (parse _); [|done].
  destruct (decode_struct false _ _ _ _); [|done]. pose proof (used_now (g_outside g)) as U1. destruct (k_now _) as [k1 now].
  pose proof (used_write k1) as U2. destruct (k_write k1) as [k2 w]. cbn in U1, U2. destruct (Commit _ _ _ _) as [st [u|e]]; [|done].
  case_if; [done|]. cbn. split_and!; congruence.
Qed.

(** The settings of the deployment. *)
Hypothesis spec_named : sp_ID spec <> "" /\ sp_ID spec = ClockConfig.sc_ConnectorID scope.
Hypothesis nats_ok : forall k : K, is_Some (ConnectorNATSAuthFile k spec).

Definition started_from (l : life) (dir : directory) (applied : string)
    (x : result boot_error (Controller * ResolverRuntime (gateway D K))) : Prop :=
  match x with
  | Err (RunContext _) => l_run l <> ""
  | Err _ => False
  | Ok (c, r) => exists g last, r = NewResolverRuntime g (l_res l) /\ c = fst (RestoreLastGood last (NewController scope)) /\
      booted scope g /\ g_dir g = dir /\ (applied <> "" -> LastGoodRevision (c_status c) = applied)
  end.

Lemma start_controller_ok l k dir applied (g : gateway D K) records : startable applied k dir -> 0 < l_timeout l ->
  openSessions scope dir = Some records -> g_dir g = dir -> g_records g = records -> g_record g = None -> g_held g = true ->
  k_used (g_outside g) = k_used k -> started_from l dir applied (start_controller g scope (l_timeout l) (l_res l)).
Proof.
  intros (records' & last & Ho & Hl & Ha & Hst & Hi) Ht Ho' Ed Er En Eh Ek. rewrite Ho in Ho'. injection Ho' as ->.
  pose proof (Hl g Ed Er) as El. unfold start_controller. destruct (Z.leb_spec (l_timeout l) 0); [lia|]. rewrite El.
  assert (booted scope g) as Hb by (split_and!; [done|done|by rewrite Ed, Er|by rewrite El|by rewrite Ed, Ek]).
  destruct last as [s|].
  - pose proof (Hst s eq_refl) as Es.
    assert (exists c, RestoreLastGood (Some s) (NewController scope) = (c, Ok tt) /\ LastGoodRevision (c_status c) = Revision s) as (c & Ec & Hc)
      by (unfold RestoreLastGood; cbn [c_initialized NewController c_scope]; rewrite Es; by eexists).
    rewrite Ec. exists g, (Some s). rewrite Ec. split_and!; try done. intros Hne. rewrite Hc. specialize (Ha Hne). by injection Ha.
  - exists g, None. split_and!; try done. intros Hne. by specialize (Ha Hne).
Qed.

Lemma start_life_ok l k d dir applied : startable applied k dir -> 0 < l_timeout l -> started_from l dir applied (start_life l k d dir).
Proof.
  intros Hs Ht. pose proof Hs as (records & last & Ho & _). unfold start_life, clock_start, NewGateway.
  destruct spec_named as [Hid Hsc]. rewrite <- Hsc, String.eqb_refl. cbn [negb]. destruct (nats_ok k) as [f ->]. rewrite Ho.
  unfold Claim. apply String.eqb_neq in Hid. rewrite Hid.
  replace (checkReserved _ _) with false by (symmetry; unfold checkReserved; cbn; by apply bool_decide_eq_false).
  cbn [negb snd]. match goal with |- context [EnableRunContextFile (l_run l) (l_dirs l) ?g] => set (g0 := g) end.
  destruct (String.eqb_spec (l_run l) "") as [Er|Er]; [by eapply start_controller_ok|].
  pose proof (enable_keeps (l_run l) (l_dirs l) g0) as He. destruct (EnableRunContextFile (l_run l) (l_dirs l) g0) as [g [u|e]]; [|done].
  destruct He as (E1 & E2 & E3 & E4 & _ & E6). by eapply start_controller_ok.
Qed.

(** What a life leaves is startable. *)
Lemma live_startable l g last : booted scope g ->
  let '(c, g') := live l (fst (RestoreLastGood last (NewController scope)), NewResolverRuntime g (l_res l)) in
  startable (AppliedRevision (c_status c)) (g_outside g') (g_dir g').
Proof.
  intros Hb. unfold live.
  change (history (l_calls l) _) with (history (CallRestore last :: l_calls l) (NewController scope, NewResolverRuntime g (l_res l))).
  pose proof (history_reopens cfg scope g (l_res l) (CallRestore last :: l_calls l) Hb) as Hr.
  pose proof (history_recoverable cfg scope g (l_res l) (CallRestore last :: l_calls l) Hb) as [Hs _ _ _].
  change (recovery_adapters cfg) with process_adapters in Hr, Hs.
  destruct (history _ _) as [c r]. cbn [snd] in Hs. destruct Hr as (records & lg & Ho & Hl & Ha). exists records, lg.
  split_and!; [done| |done| |apply Hs].
  - intros g' Ed Er. unfold lastGood in *. rewrite Ed, Er. exact Hl.
  - intros s ->. destruct (reopen scope _ Hs) as (records' & Ho' & Hl'). rewrite Ho in Ho'. injection Ho' as <-.
    destruct (d_active (g_dir (rr_world r))) as [id|]; [|congruence]. destruct Hl' as (rec & Hrec & El). rewrite Hl in El. injection El as ->.
    apply (st_records _ _ Hs _ _ Hrec).
Qed.

Lemma restarts_from ls : forall applied k d dir, startable applied k dir -> Forall (fun l => 0 < l_timeout l) ls -> restarts applied ls k d dir.
Proof.
  induction ls as [|l ls IH]; intros applied k d dir Hs Ht; [done|]. apply Forall_cons in Ht as [Hl Ht]. cbn [restarts].
  pose proof (start_life_ok l k d dir applied Hs Hl) as Hst. unfold started_from in Hst.
  destruct (start_life l k d dir) as [[c r]|[]]; try done.
  2: { split; [done|]. intros k' Ek. apply IH; [|done]. destruct Hs as (records & last & Hs). exists records, last. by rewrite Ek. }
  destruct Hst as (g & last & -> & -> & Hb & _ & Ha). split; [done|].
  pose proof (live_startable l g last Hb) as Hn. destruct (live _ _) as [c' g']. by apply IH.
Qed.

(** C3: a managed gateway always comes back.  Over any number of process lives,
    each ending at any call of any history of syncs, with writes that fail before
    or after they take effect and a daemon and a connector that answer anything:
    once the state directory could be opened, every later life opens it, every
    archived session included, claims its connector, and starts with the
    revision the life before had applied as its rollback candidate.  Only a run
    context its operator asked for can be refused, and such a start takes nothing
    from the lives after it.  Assumed of every start: the stream accepts the
    consumer, the connector's NATS credentials are readable and its spec is of the
    scope, the timeout is positive; and of the outside, that a session id it draws
    was not drawn before. *)
Theorem always_restarts ls k d dir : startable "" k dir -> Forall (fun l => 0 < l_timeout l) ls -> restarts "" ls k d dir.
Proof. apply restarts_from. Qed.
End Lives.

(** Three lives over a daemon in memory: the first applies a snapshot, the
    second ends in a failed write. *)
Module ClockProcessExample.
Import RunLedgerExample LifecycleExample ClockConfigExample ClockGatewayExample.

#[local] Instance answers : Outside outside := world true.
#[local] Instance answers_fresh : Fresh outside := world_fresh true.
#[local] Instance no_files : PKI outside := {| read_file := fun _ _ => None; pem_parses := fun _ _ => false; load_pair := fun _ _ _ => None |}.

Definition one_life (calls : list call) : life :=
  {| l_path := "/state"; l_run := ""; l_dirs := true; l_timeout := 15; l_res := NewSynced None; l_calls := calls |}.
Definition k0 : outside := {| o_next := 0; o_disks := [DiskOk; DiskOk; DiskOk; DiskOk; DiskAfter]; o_ended := false |}.

Definition spec0 : ConnectorSpec := {| base with sp_ID := ClockConfig.sc_ConnectorID scope |}.

Lemma blank_startable : startable (D := fake) scope "" k0 blank.
Proof.
  exists ∅, None. split; [vm_compute; reflexivity|]. split; [intros g Hd _; unfold lastGood; rewrite Hd; reflexivity|].
  split; [done|]. split; [done|]. unfold ids. cbn. set_solver.
Qed.

Lemma always_restarts_witness :
  restarts (D := fake) cfg0 scope spec0 "" [one_life [CallSync calm]; one_life [CallSync calm; CallSync calm]; one_life []] k0 (m_docker (m0 ∅)) blank.
Proof.
  apply (always_restarts cfg0 scope spec0); [split; [discriminate|reflexivity]| |apply blank_startable|repeat constructor].
  intros k. vm_compute. eexists. reflexivity.
Defined.

Example second_life_recovers :
  match start_life (D := fake) scope spec0 (one_life []) k0 (m_docker (m0 ∅)) blank with
  | Err _ => False
  | Ok cr =>
    let '(c, g) := live cfg0 (one_life [CallSync calm]) cr in
    AppliedRevision (c_status c) = Revision snap /\
    match start_life scope spec0 (one_life []) (g_outside g) (m_docker (g_manager g)) (g_dir g) with
    | Ok cr => LastGoodRevision (c_status (fst cr)) = Revision snap
    | Err _ => False
    end
  end.
Proof. vm_compute. split; reflexivity. Qed.
End ClockProcessExample.
