(* ===== verification/ClockText.v ===== *)
(** * The text of a staged snapshot

    The strings of a clock snapshot that [StageClock] accepts are valid UTF-8,
    and so is the native bundle the gateway writes for it, which therefore reads
    back as the bundle. *)

From Stdlib Require Import ZArith Lia Bool Ascii String List.
From stdpp Require Import base list strings gmap.
From S2P Require Import Prelude Json GoText Sha256 Float Encoding PointList Provisioning ClockConfig ClockWorker ClockGateway ClockRecovery.
#[local] Open Scope string_scope.
#[local] Open Scope list_scope.
#[local] Open Scope Z_scope.

(** ** What [json.Marshal] writes *)

Lemma valid_quote_byte c : code c < 128 -> valid_utf8 (quote_byte c) = true.
Proof.
  destruct c as [b0 b1 b2 b3 b4 b5 b6 b7].
  destruct b7; [intros H; exfalso; revert H; destruct b0, b1, b2, b3, b4, b5, b6; vm_compute; discriminate|intros _].
  destruct b0, b1, b2, b3, b4, b5, b6; reflexivity.
Qed.

Lemma valid_quote_body n : forall s, (String.length s < n)%nat -> valid_utf8 s = true -> valid_utf8 (quote_body s) = true.
Proof.
  induction n as [|n IH]; intros s Hn Hv; [lia|]. destruct s as [|c r]; [done|]. cbn [quote_body valid_utf8] in *.
  destruct (Z.ltb_spec (code c) 128); [apply valid_app; [by apply valid_quote_byte|apply IH; [cbn in Hn; lia|done]]|].
  destruct (utf8_len c r) as [|[|[|[|[|]]]]] eqn:E; try done; pose proof (valid_multi c r _ E ltac:(lia)) as Hm.
  - destruct r as [|c1 r]; [done|]. change (String c (String c1 ?t)) with (String c (String c1 "") +:+ t). rewrite Hm.
    apply IH; [cbn in Hn; lia|done].
  - destruct r as [|c1 [|c2 r]]; try done. destruct (is_line_sep c c1 c2) eqn:El.
    + apply line_sep_bytes in El as (-> & -> & [-> | ->]); (apply valid_app; [reflexivity|apply IH; [cbn in Hn; lia|done]]).
    + change (String c (String c1 (String c2 ?t))) with (String c (String c1 (String c2 "")) +:+ t). rewrite Hm. apply IH; [cbn in Hn; lia|done].
  - destruct r as [|c1 [|c2 [|c3 r]]]; try done.
    change (String c (String c1 (String c2 (String c3 ?t)))) with (String c (String c1 (String c2 (String c3 ""))) +:+ t).
    rewrite Hm. apply IH; [cbn in Hn; lia|done].
Qed.

Lemma valid_quote s : valid_utf8 s = true -> valid_utf8 (quote_with quote_body s) = true.
Proof.
  intros H. unfold quote_with. apply valid_app; [done|]. apply valid_app; [|done]. by apply (valid_quote_body (S (String.length s))); [lia|].
Qed.

(** Numbers are ASCII. *)
Lemma ascii_app s t : ascii_only (s +:+ t) = ascii_only s && ascii_only t.
Proof.
  induction s as [|c s IH]; [done|]. change (String c s +:+ t) with (String c (s +:+ t)). cbn [ascii_only]. by rewrite IH, andb_assoc.
Qed.
Lemma span_ascii s : ascii_only (fst (span_digits s)) = true.
Proof.
  induction s as [|c s IH]; [done|]. cbn. destruct (is_digit c) eqn:E; [|done]. destruct (span_digits s); cbn in *. rewrite IH.
  unfold is_digit, between in E. lia.
Qed.
Lemma scan_int_ascii s l t : scan_int s = Some (l, t) -> ascii_only l = true.
Proof.
  destruct s as [|c r]; [done|]. cbn [scan_int]. destruct (Z.eqb_spec (code c) 48) as [E|]; [intros [= <- <-]; cbn; lia|].
  destruct (is_digit c); [|done]. intros E. pose proof (span_ascii (String c r)) as H. set (x := span_digits _) in *. clearbody x.
  by injection E as ->.
Qed.
Lemma scan_frac_ascii s l t : scan_frac s = Some (l, t) -> ascii_only l = true.
Proof.
  destruct s as [|c r]; [by intros [= <- <-]|]. cbn [scan_frac]. destruct (Z.eqb_spec (code c) 46); [|by intros [= <- <-]].
  pose proof (span_ascii r) as H. destruct (span_digits r) as [[|d ds] u]; [done|]. intros [= <- <-]. cbn [ascii_only]. cbn [fst ascii_only] in H. rewrite H. lia.
Qed.
Lemma scan_exp_ascii s l t : scan_exp s = Some (l, t) -> ascii_only l = true.
Proof.
  destruct s as [|c r]; [by intros [= <- <-]|]. cbn [scan_exp]. destruct ((code c =? 101) || (code c =? 69)) eqn:Ec; [|by intros [= <- <-]].
  assert (forall sign r1, ascii_only sign = true -> match span_digits r1 with (EmptyString, _) => None | (d, t) => Some (String c (sign +:+ d), t) end = Some (l, t) ->
    ascii_only l = true) as Hr.
  { intros sign r1 Hs. pose proof (span_ascii r1) as H. destruct (span_digits r1) as [[|d ds] u]; [done|]. intros [= <- <-].
    cbn [ascii_only]. rewrite ascii_app, Hs. cbn in H |- *. rewrite H. lia. }
  destruct r as [|g r]; [by apply Hr|]. destruct ((code g =? 43) || (code g =? 45)) eqn:Eg; apply Hr; [cbn; lia|done].
Qed.
Lemma num_ascii lit : valid_num lit = true -> ascii_only lit = true.
Proof.
  unfold valid_num. destruct (scan_number lit) as [[l [|]]|] eqn:E; try done. intros ->%String.eqb_eq. unfold scan_number in E.
  set (p := match lit with String c r => if code c =? 45 then (String c "", r) else ("", lit) | _ => ("", lit) end) in E.
  assert (ascii_only (fst p) = true) as Hp.
  { unfold p. destruct lit as [|c r]; [done|]. destruct (Z.eqb_spec (code c) 45); [cbn; lia|done]. }
  destruct p as [sign s0]. destruct (scan_int s0) as [[i s1]|] eqn:Ei; [|done]. destruct (scan_frac s1) as [[f s2]|] eqn:Ef; [|done].
  destruct (scan_exp s2) as [[e s3]|] eqn:Ee; [|done]. injection E as E _. cbn [fst] in Hp.
  apply (f_equal ascii_only) in E. rewrite (ascii_app sign), (ascii_app i), (ascii_app f), Hp in E.
  by rewrite (scan_int_ascii _ _ _ Ei), (scan_frac_ascii _ _ _ Ef), (scan_exp_ascii _ _ _ Ee) in E.
Qed.

Lemma valid_concat l : Forall (fun s => valid_utf8 s = true) l -> valid_utf8 (String.concat "," l) = true.
Proof.
  induction 1 as [|s l Hs _ IH]; [done|]. cbn [String.concat]. destruct l; [done|]. by repeat apply valid_app.
Qed.

Lemma marshal_valid v : valid v = true -> valid_utf8 (marshal v) = true.
Proof.
  unfold marshal. generalize 0%nat. induction v as [| b | lit | s | l IH | l IH] using json_ind; intros d Hv; cbn [print_with valid] in *.
  - done.
  - by destruct b.
  - by apply ascii_valid, num_ascii.
  - by apply valid_quote.
  - destruct l as [|v l]; [done|]. apply valid_app; [done|]. apply valid_app; [|done]. apply valid_concat, Forall_map.
    rewrite forallb_forall in Hv. apply Forall_forall. intros x Hx. rewrite Forall_forall in IH. apply IH; [done|]. by apply Hv, list_elem_of_In.
  - destruct l as [|kv l]; [done|]. apply valid_app; [done|]. apply valid_app; [|done]. apply valid_concat, Forall_map.
    rewrite forallb_forall in Hv. apply Forall_forall. intros x Hx. rewrite Forall_forall in IH. pose proof (IH x Hx (S d)) as Hx'.
    apply list_elem_of_In, Hv, andb_prop in Hx as [Hk Hs]. apply valid_app; [done|]. apply valid_app; [by apply valid_quote|].
    do 2 (apply valid_app; [done|]). by apply Hx'.
Qed.

(** ** Hexadecimal texts *)

Definition hex_text (n : nat) (s : string) : bool := Nat.eqb (String.length s) n && forallb hex_char (list_ascii_of_string s).

Lemma be_bytes_spec n : forall z, length (be_bytes n z) = n /\ Forall (fun b => 0 <= b < 256) (be_bytes n z).
Proof.
  induction n as [|n IH]; intros z; [done|]. cbn [be_bytes]. destruct (IH (z / 256)) as [IH1 IH2].
  rewrite length_app. cbn [length]. split; [lia|]. apply Forall_app. split; [done|]. repeat constructor; apply Z.mod_pos_bound; lia.
Qed.

Lemma sha_round_length st kw : length st = 8%nat -> length (sha_round st kw) = 8%nat.
Proof. intros H. do 9 (destruct st as [|? st]; try done). Qed.

Lemma sha_rounds_length l : forall st, length st = 8%nat -> length (fold_left sha_round l st) = 8%nat.
Proof. induction l as [|kw l IH]; intros st H; [done|]. cbn [fold_left]. apply IH. by apply sha_round_length. Qed.

Lemma sha_blocks_length fuel : forall h ws, length h = 8%nat -> length (sha_blocks fuel h ws) = 8%nat.
Proof.
  induction fuel as [|fuel IH]; intros h ws Hh; cbn [sha_blocks]; [done|]. destruct ws; [done|]. apply IH.
  unfold sha_block. cbv zeta. rewrite length_zip_with, Hh, sha_rounds_length by done. reflexivity.
Qed.

Lemma sha256_hex_text s : hex_text 64 (sha256_hex s) = true.
Proof.
  unfold hex_text, sha256_hex. cbv zeta. set (h := sha_blocks _ _ _).
  assert (length h = 8%nat) as Hh by (apply sha_blocks_length; reflexivity). clearbody h.
  assert (length (flat_map (be_bytes 4) h) = (4 * length h)%nat /\ Forall (fun z => 0 <= z < 256) (flat_map (be_bytes 4) h)) as [Hl Hf].
  { clear Hh. induction h as [|z h [IH1 IH2]]; [done|]. cbn [flat_map length]. destruct (be_bytes_spec 4 z) as [E1 E2].
    rewrite length_app, IH1, E1. split; [lia|]. by apply Forall_app. }
  apply hex_bytes in Hf as [E1 E2]. rewrite E1, E2, Hl, Hh. reflexivity.
Qed.

Lemma hex_ascii s : forallb hex_char (list_ascii_of_string s) = true -> ascii_only s = true.
Proof.
  induction s as [|c s IH]; [done|]. cbn. intros [Hc Hs]%andb_prop. rewrite IH by done. unfold hex_char, is_digit, between in Hc. lia.
Qed.
Lemma sha256_ascii s : ascii_only (sha256_hex s) = true.
Proof. pose proof (sha256_hex_text s) as H. unfold hex_text in H. apply andb_prop in H as [_ H]. by apply hex_ascii. Qed.

(** ** The strings of a snapshot *)

Definition utf8 (s : string) : Prop := valid_utf8 s = true.
Definition native_ok (n : nativeAddressing) : Prop := Forall utf8 [n_protocol n; n_deviceId n; n_objectType n; n_instanceNo n].
Definition device_ok (d : deviceRef) : Prop := Forall utf8 [d_dtId d; d_id d; d_name d].
Definition dto_text (p : gatewayPointDTO) : Prop :=
  utf8 (dto_LocalID p) /\ utf8 (dto_Unit p) /\ (forall n, dto_Native p = Some n -> native_ok n) /\ (forall d, dto_Device p = Some d -> device_ok d).
Definition source_text (c : clockSource) : Prop := utf8 (cs_ClockID c) /\ utf8 (cn_ObjectType (cs_Native c)) /\ utf8 (cn_Property (cs_Native c)).

Lemma decode_str_text cur v s : strings_valid v = true -> utf8 cur -> decode_str cur v = Some s -> utf8 s.
Proof. apply decode_str_valid. Qed.

Lemma set_nth_text names f v : strings_valid v = true -> forall vals vals', Forall utf8 vals -> set_nth names vals f v = Some vals' ->
  Forall utf8 vals'.
Proof.
  intros Hv. induction names as [|n ns IH]; intros vals vals' Hf E; cbn in E; [by injection E as <-|].
  destruct vals as [|x xs]; [by injection E as <-|]. apply Forall_cons in Hf as [Hx Hxs]. destruct (String.eqb n f).
  - destruct (decode_str x v) as [s|] eqn:Es; [|done]. injection E as <-. constructor; [by eapply decode_str_text|done].
  - destruct (set_nth ns xs f v) as [l|] eqn:El; [|done]. injection E as <-. constructor; [done|by eapply IH].
Qed.

Lemma decode_strings_text strict names cur v l : strings_valid v = true -> Forall utf8 cur -> decode_strings strict names cur v = Some l -> Forall utf8 l.
Proof.
  intros Hv Hc. apply (decode_struct_inv strict names (fun f v vals => set_nth names vals f v) (Forall utf8)); [|done..].
  intros f w r r' Hw Hr. by apply set_nth_text.
Qed.

Lemma decode_ptr_text {A} (dec : A -> json -> option A) (P : A -> Prop) zero cur v o :
  (forall a a', P a -> dec a v = Some a' -> P a') -> P zero -> (forall a, cur = Some a -> P a) ->
  decode_ptr dec zero cur v = Some o -> forall a, o = Some a -> P a.
Proof.
  intros Hd Hz Hc E a ->. unfold decode_ptr in E.
  assert (P (default zero cur)) as Hp by (destruct cur; [by apply Hc|done]).
  destruct v; [done|..]; (destruct (dec _ _) as [x|] eqn:Ed; [|done]); injection E as <-; eauto.
Qed.

Ltac fields E := repeat match type of E with (if ?b then _ else _) = _ => destruct b end.

Lemma native_text_dec strict v a a' : strings_valid v = true ->
  native_ok a -> native_dec strict a v = Some a' -> native_ok a'.
Proof.
  intros Hv Ha E. unfold native_dec in E. destruct (decode_strings _ _ _ v) as [l|] eqn:El; [|done].
  apply decode_strings_text in El; [|done..]. do 5 (destruct l as [|? l]; try done). by injection E as <-.
Qed.

Lemma device_text_dec strict v a a' : strings_valid v = true -> device_ok a ->
  device_dec strict a v = Some a' -> device_ok a'.
Proof.
  intros Hv Ha E. unfold device_dec in E. destruct (decode_strings _ _ _ v) as [l|] eqn:El; [|done].
  apply decode_strings_text in El; [|done..]. do 4 (destruct l as [|? l]; try done). by injection E as <-.
Qed.

Lemma zero_native_ok : native_ok (Build_nativeAddressing "" "" "" "").
Proof. unfold native_ok. cbn. by repeat (constructor; [done|]). Qed.
Lemma zero_device_ok : device_ok (Build_deviceRef "" "" "").
Proof. unfold device_ok. cbn. by repeat (constructor; [done|]). Qed.

Lemma dto_dec_text strict v p p' : strings_valid v = true -> dto_text p -> dto_dec strict p v = Some p' -> dto_text p'.
Proof.
  apply (decode_struct_inv strict dto_names (dto_set strict) dto_text). clear v p p'. intros f v p p' Hv (H1 & H2 & H3 & H4) E.
  unfold dto_set in E. fields E; try (by injection E as <-);
    (match type of E with option_map _ ?x = _ => destruct x as [y|] eqn:Ey; [|done] end); injection E as <-; split_and!; cbn;
    try done; try (by eauto using decode_str_text).
  - apply (decode_ptr_text _ native_ok _ _ _ _ (fun a a' => native_text_dec strict v a a' Hv) zero_native_ok H3 Ey).
  - apply (decode_ptr_text _ device_ok _ _ _ _ (fun a a' => device_text_dec strict v a a' Hv) zero_device_ok H4 Ey).
Qed.

Lemma cn_text v n n' : strings_valid v = true -> utf8 (cn_ObjectType n) /\ utf8 (cn_Property n) ->
  decode_struct true cn_names cn_set n v = Some n' -> utf8 (cn_ObjectType n') /\ utf8 (cn_Property n').
Proof.
  apply (decode_struct_inv true cn_names cn_set (fun n => utf8 (cn_ObjectType n) /\ utf8 (cn_Property n))). clear v n n'.
  intros f v n n' Hv (H1 & H2) E. unfold cn_set in E. fields E; try (by injection E as <-);
    (match type of E with option_map _ ?x = _ => destruct x as [y|] eqn:Ey; [|done] end); injection E as <-; split; cbn;
    try done; by eauto using decode_str_text.
Qed.

Lemma source_dec_text v c c' : strings_valid v = true -> source_text c -> decode_struct true source_names source_set c v = Some c' -> source_text c'.
Proof.
  apply (decode_struct_inv true source_names source_set source_text). clear v c c'. intros f v c c' Hv (H1 & H2) E.
  unfold source_set in E. fields E; try (by injection E as <-);
    (match type of E with option_map _ ?x = _ => destruct x as [y|] eqn:Ey; [|done] end); injection E as <-; split; cbn;
    try done; try (by eauto using decode_str_text). by eapply cn_text.
Qed.

Lemma decode_into_text {A} (dec : A -> json -> option A) (P : A -> Prop) zero :
  (forall v a a', strings_valid v = true -> P a -> dec a v = Some a' -> P a') -> P zero ->
  forall l back out, forallb strings_valid l = true -> Forall P back -> decode_into dec zero back l = Some out -> Forall P out.
Proof.
  intros Hd Hz. induction l as [|v l IH]; intros back out Hl Hb E; cbn in E; [by injection E as <-|]. cbn in Hl. apply andb_prop in Hl as [Hv Hl].
  assert (P (default zero (head back))) as Hh by (destruct Hb; done).
  destruct (dec _ v) as [a|] eqn:Ea; [|done]. destruct (decode_into dec zero (tail back) l) as [o|] eqn:Eo; [|done]. injection E as <-.
  constructor; [by eapply Hd|]. eapply IH; [done| |exact Eo]. by destruct Hb.
Qed.

Lemma decode_array_text {A} (dec : A -> json -> option A) (P : A -> Prop) zero cur v s :
  (forall v a a', strings_valid v = true -> P a -> dec a v = Some a' -> P a') -> P zero -> strings_valid v = true ->
  Forall P (sl_back cur) -> decode_array dec zero cur v = Some s -> Forall P (sl_back s).
Proof.
  intros Hd Hz Hv Hc E. destruct v as [| | | |l|]; try done; cbn [decode_array] in E; [by injection E as <-|].
  destruct l as [|x l]; [by injection E as <-|]. destruct (decode_into dec zero (sl_back cur) (x :: l)) as [o|] eqn:Eo; [|done]. injection E as <-.
  by eapply decode_into_text.
Qed.

Lemma zero_dto_text : dto_text zero_dto.
Proof. unfold dto_text, zero_dto. cbn. split_and!; try done. Qed.
Lemma zero_source_text : source_text zero_source.
Proof. unfold source_text, zero_source. cbn. by split_and!. Qed.

Definition snapshot_text (s : clockSnapshot) : Prop :=
  Forall dto_text (sl_back (s_Points s)) /\ Forall source_text (sl_back (s_ClockSources s)).

Lemma snapshot_decode_text v s : strings_valid v = true -> snapshot_decode v = Some s -> snapshot_text s.
Proof.
  intros Hv. apply (decode_struct_inv true snapshot_names snapshot_set snapshot_text); [|done|repeat constructor]. clear v s Hv.
  intros f v s s' Hv (H1 & H2) E. unfold snapshot_set in E. fields E; try (by injection E as <-);
    (match type of E with option_map _ ?x = _ => destruct x as [y|] eqn:Ey; [|done] end); injection E as <-; split; cbn; try done.
  - eapply (decode_array_text (dto_dec true) dto_text); [intros w a a'; apply dto_dec_text|apply zero_dto_text|done..|exact Ey].
  - eapply (decode_array_text _ source_text); [intros w a a'; apply source_dec_text|apply zero_source_text|done..|exact Ey].
Qed.

(** ** The native bundle *)

Lemma take_text {A} (P : A -> Prop) (s : slice A) : Forall P (sl_back s) -> Forall P (sl_list s).
Proof. apply Forall_take. Qed.

Lemma local_text p : dto_text p -> utf8 (dto_local p).
Proof.
  intros (H1 & _ & H3 & _). unfold dto_local. destruct (dto_Native p) as [n|]; [|exact H1]. case_match; [|exact H1].
  pose proof (H3 n eq_refl) as Hn. unfold native_ok in Hn. rewrite !Forall_cons in Hn. destruct Hn as (_ & _ & Ho & Hi & _).
  apply valid_app; [exact Ho|]. apply valid_app; [reflexivity|exact Hi].
Qed.

Lemma device_text p : dto_text p -> utf8 (dto_device p).
Proof.
  intros (_ & _ & H3 & H4). unfold dto_device. cbv zeta.
  assert (utf8 (match dto_Native p with Some n => n_deviceId n | None => "" end)) as Hd.
  { destruct (dto_Native p) as [n|]; [|done]. pose proof (H3 n eq_refl) as Hn. unfold native_ok in Hn. rewrite !Forall_cons in Hn. tauto. }
  destruct (dto_Device p) as [d|]; [|done]. destruct (String.eqb _ ""); [|done]. pose proof (H4 d eq_refl) as Hn. unfold device_ok in Hn.
  rewrite !Forall_cons in Hn. tauto.
Qed.

Lemma entry_text connectorID p : LocalID (entry_of connectorID p) = dto_local p /\ DeviceRef (entry_of connectorID p) = dto_device p /\
  Unit (entry_of connectorID p) = dto_Unit p.
Proof. unfold entry_of, mapDTO. by repeat (case_match; simplify_eq/=). Qed.

(** [json.Marshal] of a native bundle, as a value. *)
Definition native_json (n : NativeClockConfig) : json :=
  JObj [("revision", JStr (nk_Revision n)); ("connector_id", JStr (nk_ConnectorID n)); ("device_id", JNum (itoa (nk_DeviceID n)));
        ("points", JArr (map point_json (nk_Points n))); ("clocks", JArr (map clock_json (nk_Clocks n)))].
Lemma native_text_json n : native_text n = marshal (native_json n).
Proof. reflexivity. Qed.

(** A bundle whose strings are valid. *)
Record bundle_text (n : NativeClockConfig) : Prop := {
  bt_revision : utf8 (nk_Revision n); bt_connector : utf8 (nk_ConnectorID n);
  bt_points : Forall (fun p => utf8 (np_LocalID p) /\ utf8 (np_DeviceRef p) /\ utf8 (np_Unit p)) (nk_Points n);
  bt_clocks : Forall (fun c => utf8 (nc_ClockID c) /\ utf8 (nc_LocalID c) /\ utf8 (nc_Property c) /\ Forall utf8 (nc_PointLocalIDs c)) (nk_Clocks n)
}.

Lemma staged_text data scope s : utf8 (sc_ConnectorID scope) -> StageClock data scope = Ok s -> bundle_text (cl_native s).
Proof.
  intros Hconn [[cfg es] [H [= <-]]]%result_bind_ok. cbn [cl_native fst].
  apply stage_accepts in H as (body & rest & sn & Hp & _ & _ & Hd & _ & Hc & Hv & H).
  assert (snapshot_text sn) as [Hpt%take_text Hct%take_text].
  { eapply snapshot_decode_text; [|exact Hd]. exact (proj1 (parse_value_strings _) _ _ _ _ Hp). }
  apply stage_body_spec in H as [Hb _]; [|done]. unfold bundle in Hb. injection Hb as -> ->. rewrite Forall_forall in Hpt. rewrite Forall_forall in Hct.
  split; cbn [nk_Revision nk_ConnectorID nk_Points nk_Clocks].
  - rewrite Hv. unfold revision_of. apply valid_app; [done|]. apply valid_app; [done|]. apply valid_app; [|done]. apply ascii_valid, sha256_ascii.
  - done.
  - apply Forall_map, Forall_forall. intros e [(p & -> & Hin)%list_elem_of_fmap _]%elem_of_filter_In. cbn.
    destruct (entry_text (sc_ConnectorID scope) p) as (-> & -> & ->). pose proof (Hpt p Hin) as Ht. pose proof Ht as (_ & Hu & _).
    auto using local_text, device_text.
  - apply Forall_map, Forall_forall. intros c Hin. destruct (Hct c Hin) as (H1 & H2 & H3). cbn. split_and!; [done| |done|].
    + unfold clock_local. apply valid_app; [done|]. apply valid_app; [done|]. apply itoa_utf8.
    + apply Forall_map, Forall_forall. intros p [Hin' _]%elem_of_filter_In. destruct (entry_text (sc_ConnectorID scope) p) as (-> & _ & _). auto using local_text.
Qed.

Lemma member_valid k v l : valid_utf8 k = true -> valid v = true -> valid (JObj l) = true -> valid (JObj ((k, v) :: l)) = true.
Proof. intros Hk Hv Hl. cbn [valid forallb fst snd] in *. by rewrite Hk, Hv, Hl. Qed.
Lemma items_valid {A} (f : A -> json) l : Forall (fun a => valid (f a) = true) l -> valid (JArr (map f l)) = true.
Proof. cbn [valid]. induction 1 as [|a l Ha _ IH]; [done|]. cbn [map forallb]. by rewrite Ha. Qed.
Ltac members := repeat (apply member_valid; [vm_compute; reflexivity| |]); try done.

Lemma point_json_valid p : utf8 (np_LocalID p) /\ utf8 (np_DeviceRef p) /\ utf8 (np_Unit p) -> valid (point_json p) = true.
Proof. intros (H1 & H2 & H3). unfold point_json. members. Qed.

Lemma clock_json_valid c : utf8 (nc_ClockID c) /\ utf8 (nc_LocalID c) /\ utf8 (nc_Property c) /\ Forall utf8 (nc_PointLocalIDs c) ->
  valid (clock_json c) = true.
Proof.
  intros (H1 & H2 & H3 & H4). unfold clock_json. members.
  destruct (nc_PointLocalIDs c) as [|l ls]; [done|]. by apply (items_valid JStr).
Qed.

Lemma native_json_valid n : bundle_text n -> valid (native_json n) = true.
Proof.
  intros [Hr Hc Hp Hk]. unfold native_json. members; [apply itoa_valid|apply items_valid..];
    (eapply Forall_impl; [eassumption|]); eauto using point_json_valid, clock_json_valid.
Qed.

Lemma points_depth l : depth_of (JArr (map point_json l)) <= 2.
Proof. cbn [depth_of]. induction l as [|p l IH]; cbn [map fold_right]; [lia|]. change (depth_of (point_json p)) with 1. lia. Qed.
Lemma clock_depth c : depth_of (clock_json c) <= 2.
Proof.
  assert (depth_of (match nc_PointLocalIDs c with [] => JNull | l => JArr (map JStr l) end) <= 1) as Hs.
  { destruct (nc_PointLocalIDs c) as [|l ls]; [cbn; lia|]. cbn [depth_of]. generalize (l :: ls). intros m.
    induction m as [|s m IH]; cbn [map fold_right depth_of]; lia. }
  unfold clock_json. remember (match nc_PointLocalIDs c with [] => JNull | l => JArr (map JStr l) end) as v.
  cbn [depth_of fold_right snd]. lia.
Qed.
Lemma clocks_depth l : depth_of (JArr (map clock_json l)) <= 3.
Proof. cbn [depth_of]. induction l as [|p l IH]; cbn [map fold_right]; [lia|]. pose proof (clock_depth p). lia. Qed.

(** The bundle of a snapshot is read back, by either program. *)
Lemma native_reads n : bundle_text n -> valid_utf8 (native_text n) = true /\ parse (native_text n) = Some (native_json n).
Proof.
  intros H%native_json_valid. rewrite native_text_json. split; [by apply marshal_valid|]. apply parse_marshal; [done|].
  unfold native_json. pose proof (points_depth (nk_Points n)). pose proof (clocks_depth (nk_Clocks n)).
  remember (JArr (map point_json (nk_Points n))) as ps. remember (JArr (map clock_json (nk_Clocks n))) as cs. cbn [depth_of fold_right snd]. unfold max_nesting. lia.
Qed.
