(* ===== verification/BacnetConfig.v ===== *)
(** * The configuration of the BACnet connector

    [src/connector/bacnet/bacnet_connector/config.py]: the points of the
    environment, the native bundle of a clock revision, and [Config.from_env].
    Files and [urlsplit] are arguments.

    The theorems: a bundle is applied only when it is coherent and of this
    connector and device; and the bundle the gateway writes for a staged
    snapshot is applied, with exactly the points and clocks of the snapshot, by
    the connector the gateway starts for it. *)

From Stdlib Require Import ZArith Lia Bool Ascii String List SpecFloat.
From stdpp Require Import base list strings gmap.
From S2P Require Import Prelude Json GoText Sha256 Float Encoding Python PointList Provisioning ClockConfig Lifecycle ClockWorker ClockGateway ClockRecovery ClockText.
#[local] Open Scope string_scope.
#[local] Open Scope list_scope.
#[local] Open Scope Z_scope.
#[local] Open Scope go_scope.

(** ** Points *)

Record py_point := {
  py_local_id : string; py_device_ref : string; py_unit : string; py_writable : bool; py_release_of : option string
}.

(** What a [ConfigError] is about. *)
Inductive config_error :=
  MissingVariable (k : string) | NotInteger (k : string) | NotNumber (k : string) | BadJSON | NotArray | NotObject
| BadLocalID | NotString (k : string) | WritableNotBool | BadReleaseOf | NotPositive (k : string) | BadRange (k : string)
| BundleKeys | BundleScope | BundleRevision | BundleArrays | PointKeys | DuplicatePoints | ClockKeys | ClockIdentity | ClockReference
| ClockPoints | DanglingPoints | NeedsPollOnly | BothSources | NoBundleFile | BadManagedSession | BadNATSAuth.

Definition py_str (v : option json) : option string := match v with Some (JStr s) => Some s | _ => None end.

Definition release_key (e : list (string * json)) : result config_error (option string) :=
  let named v := match v with JStr s => if String.eqb s "" then Err BadReleaseOf else Ok (Some s) | _ => Err BadReleaseOf end in
  match py_get "release_of" e with
  | Some v => named v
  | None => match py_get "releaseOf" e with Some v => named v | None => Ok None end
  end.

(** [key in entry and not isinstance(entry[key], str)]. *)
Definition text_field (k : string) (e : list (string * json)) : result config_error string :=
  match py_get k e with None => Ok "" | Some (JStr s) => Ok s | Some _ => Err (NotString k) end.

Definition parse_point (entry : json) : result config_error py_point :=
  match entry with
  | JObj e =>
    match py_get "local_id" e with
    | Some (JStr local_id) =>
      let! _ := guard (negb (String.eqb local_id "")) BadLocalID in
      let! device_ref := text_field "device_ref" e in
      let! unit_ := text_field "unit" e in
      let! writable := match py_get "writable" e with None => Ok false | Some (JBool b) => Ok b | Some _ => Err WritableNotBool end in
      let! release_of := release_key e in
      Ok {| py_local_id := local_id; py_device_ref := device_ref; py_unit := unit_; py_writable := writable; py_release_of := release_of |}
    | _ => Err BadLocalID
    end
  | _ => Err NotObject
  end.

Fixpoint parse_all {A B} (f : A -> result config_error B) (l : list A) : result config_error (list B) :=
  match l with [] => Ok [] | a :: l => let! b := f a in let! bs := parse_all f l in Ok (b :: bs) end.

Definition points_of (v : json) : result config_error (list py_point) :=
  match v with JArr l => parse_all parse_point l | _ => Err NotArray end.
Definition parse_points (raw : string) : result config_error (list py_point) :=
  match loads raw with None => Err BadJSON | Some v => points_of v end.

(** ** The configuration *)

Record py_clock := { pk_clock_id : string; pk_local_id : string; pk_property : string; pk_points : list string }.

Record bacnet_config := {
  bc_connector_id : string; bc_nats_url : string; bc_address : string; bc_device_id : Z; bc_points : list py_point;
  bc_poll_interval : spec_float; bc_local_address : string; bc_default_priority : Z; bc_write_timeout : spec_float;
  bc_chunk_size : Z; bc_read_timeout : spec_float; bc_cov : bool; bc_health_port : Z; bc_clock_revision : string;
  bc_clocks : list py_clock; bc_managed_session : string; bc_native_hash : string; bc_auth_file : string
}.

(** [re.fullmatch(r'"sha256:[0-9a-f]{64}"', revision)]. *)
Definition revision_ok (s : string) : bool :=
  has_prefix s (str1 34 +:+ "sha256:") &&
  match cut_byte (chr 34) (drop_str 8 s) with Some (h, rest) => hex_text 64 h && String.eqb rest "" | None => false end.

(** [re.fullmatch(r'(analogValue|analogInput),([0-9]+)', local_id)] with the
    bound on the instance. *)
Definition clock_object (s : string) : bool :=
  match cut_byte "," s with
  | Some (t, i) => (String.eqb t "analogValue" || String.eqb t "analogInput") && all_digits i && negb (String.eqb i "") && (digits_val 0 i <=? 4194303)
  | None => false
  end.

Definition keys_are (l : list (string * json)) (names : list string) : bool := bool_decide (py_keys l = list_to_set names).

Record clock_seen := { cs_ids : gset string; cs_objects : gset string; cs_assigned : gset string; cs_clocks : list py_clock }.

Definition strings_of (l : list json) : option (list string) :=
  mapM (fun v => match v with JStr s => Some s | _ => None end) l.

Definition parse_clock (point_ids : gset string) (st : clock_seen) (c : json) : result config_error clock_seen :=
  match c with
  | JObj c =>
    let! _ := guard (keys_are c ["clock_id"; "local_id"; "property"; "point_local_ids"]) ClockKeys in
    match py_get "clock_id" c, py_get "local_id" c, py_get "property" c, py_get "point_local_ids" c with
    | Some (JStr id), Some local, Some property, Some refs =>
      let! _ := guard (negb (String.eqb id "") && negb (bool_decide (id ∈ cs_ids st))) ClockIdentity in
      match local, property with
      | JStr local, JStr property =>
        let! _ := guard (clock_object local && String.eqb property "presentValue" && negb (bool_decide (local ∈ point_ids))
                         && negb (bool_decide (local ∈ cs_objects st))) ClockReference in
        match refs with
        | JArr l =>
          match strings_of l with
          | Some (r :: rs) =>
            let refs := r :: rs in
            let! _ := guard (bool_decide (NoDup refs) && bool_decide (list_to_set refs ⊆ point_ids)
                             && bool_decide (cs_assigned st ∩ list_to_set refs = ∅)) DanglingPoints in
            Ok {| cs_ids := {[id]} ∪ cs_ids st; cs_objects := {[local]} ∪ cs_objects st; cs_assigned := cs_assigned st ∪ list_to_set refs;
                  cs_clocks := cs_clocks st ++ [{| pk_clock_id := id; pk_local_id := local; pk_property := property; pk_points := refs |}] |}
          | _ => Err ClockPoints
          end
        | _ => Err ClockPoints
        end
      | _, _ => Err ClockReference
      end
    | _, _, _, _ => Err ClockIdentity
    end
  | _ => Err ClockKeys
  end.

Definition point_keys (p : json) : bool :=
  match p with JObj p => keys_are p ["local_id"; "device_ref"; "unit"; "writable"] | _ => false end.

(** [apply_clock_bundle].  The points go through [json.dumps] and [loads],
    which give them back. *)
Definition apply_clock_bundle (cfg : bacnet_config) (bundle : json) : result config_error bacnet_config :=
  match bundle with
  | JObj b =>
    let! _ := guard (keys_are b ["revision"; "connector_id"; "device_id"; "points"; "clocks"]) BundleKeys in
    match py_get "revision" b, py_get "connector_id" b, py_get "device_id" b, py_get "points" b, py_get "clocks" b with
    | Some rev, Some conn, Some dev, Some pts, Some cks =>
      let! _ := guard (match conn with JStr s => String.eqb s (bc_connector_id cfg) | _ => false end
                       && match py_int dev with Some z => z =? bc_device_id cfg | None => false end) BundleScope in
      match rev with
      | JStr revision =>
        let! _ := guard (revision_ok revision) BundleRevision in
        match pts, cks with
        | JArr ps, JArr cs =>
          let! _ := guard (forallb point_keys ps) PointKeys in
          let! points := points_of (JArr ps) in
          let! _ := guard (bool_decide (NoDup (map py_local_id points))) DuplicatePoints in
          let! st := fold_res (parse_clock (list_to_set (map py_local_id points)))
                       {| cs_ids := ∅; cs_objects := ∅; cs_assigned := ∅; cs_clocks := [] |} cs in
          let! _ := guard (match cs_clocks st with [] => true | _ => negb (bc_cov cfg) end) NeedsPollOnly in
          Ok {| cfg with bc_points := points; bc_clocks := cs_clocks st; bc_clock_revision := revision |}
        | _, _ => Err BundleArrays
        end
      | _ => Err BundleRevision
      end
    | _, _, _, _, _ => Err BundleKeys
    end
  | _ => Err BundleKeys
  end.

(** ** Numbers of the environment *)

(** Digits with single underscores between them, without these. *)
Fixpoint py_digits (s : string) : option string :=
  match s with
  | EmptyString => None
  | String c r =>
    if negb (is_digit c) then None
    else
      match r with
      | EmptyString => Some (String c "")
      | String "_" r' => option_map (String c) (py_digits r')
      | _ => option_map (String c) (py_digits r)
      end
  end.

Definition py_sign (s : string) : bool * string :=
  match s with String "-" r => (true, r) | String "+" r => (false, r) | _ => (false, s) end.

(** [int(raw)], which refuses more than 4300 digits. *)
Definition int_text (raw : string) : option Z :=
  let '(neg, r) := py_sign (trim_space raw) in
  match py_digits r with
  | Some d => if (4300 <? String.length d)%nat then None else Some (if neg then - digits_val 0 d else digits_val 0 d)
  | None => None
  end.

(** A decimal of any size as a double; too large is infinite. *)
Definition double_of (neg : bool) (m e : Z) : spec_float :=
  if m =? 0 then S754_zero neg
  else if 400 <? e then S754_infinity neg
  else if e + (Z.log2 m + 1) <? - 400 then S754_zero neg
  else f64_dec neg m e.

Definition opt_digits (s : string) : option string := if String.eqb s "" then Some "" else py_digits s.

(** [float(raw)]. *)
Definition float_text (raw : string) : option spec_float :=
  let '(neg, r) := py_sign (to_lower (trim_space raw)) in
  if String.eqb r "inf" || String.eqb r "infinity" then Some (S754_infinity neg)
  else if String.eqb r "nan" then Some S754_nan
  else
    let '(mant, ex) := match cut_byte "e" r with Some (m, x) => (m, Some x) | None => (r, None) end in
    let '(ip, fp) := match cut_byte "." mant with Some (i, f) => (i, f) | None => (mant, "") end in
    match opt_digits ip, opt_digits fp,
          match ex with
          | None => Some 0
          | Some x => let '(n, d) := py_sign x in option_map (fun d => if n then - digits_val 0 d else digits_val 0 d) (py_digits d)
          end with
    | Some i, Some f, Some x =>
      if String.eqb i "" && String.eqb f "" then None else Some (double_of neg (digits_val (digits_val 0 i) f) (x - strlen f))
    | _, _, _ => None
    end.

(** ** [Config.from_env] *)

Record py_url := {
  pu_scheme : string; pu_hostname : option string; pu_username : option string; pu_query : string; pu_fragment : string; pu_port_ok : bool
}.

Section Env.
  (** What the process finds: readable files and what [urlsplit] makes of an
      address, [None] for a [ValueError]. *)
  Variable read : string -> option string.
  Variable urlsplit : string -> option py_url.
  Variable env : gmap string string.

Definition env_get (k def : string) : string := default def (env !! k).
Definition require_ (k : string) : result config_error string :=
  match env !! k with Some v => if String.eqb v "" then Err (MissingVariable k) else Ok v | None => Err (MissingVariable k) end.
Definition env_int (k def : string) : result config_error Z :=
  match int_text (env_get k def) with Some z => Ok z | None => Err (NotInteger k) end.
Definition env_float (k def : string) : result config_error spec_float :=
  match float_text (env_get k def) with Some x => Ok x | None => Err (NotNumber k) end.
Definition require_int (k : string) : result config_error Z :=
  let! raw := require_ k in match int_text raw with Some z => Ok z | None => Err (NotInteger k) end.

Definition fpos (x : spec_float) : bool := negb (fleb x (S754_zero false)).

(** [__post_init__]. *)
Definition post_init (cfg : bacnet_config) : result config_error bacnet_config :=
  let! _ := guard (fpos (bc_poll_interval cfg)) (NotPositive "BACNET_POLL_INTERVAL") in
  let! _ := guard (negb (bc_chunk_size cfg <? 1)) (BadRange "BACNET_RPM_CHUNK_SIZE") in
  let! _ := guard (fpos (bc_read_timeout cfg)) (NotPositive "BACNET_READ_TIMEOUT") in
  let! _ := guard (between 1 16 (bc_default_priority cfg)) (BadRange "BACNET_DEFAULT_WRITE_PRIORITY") in
  let! _ := guard (fpos (bc_write_timeout cfg)) (NotPositive "BACNET_WRITE_TIMEOUT") in
  Ok cfg.

Definition base_config : result config_error bacnet_config :=
  let! connector_id := require_ "CONNECTOR_ID" in
  let! address := require_ "BACNET_ADDRESS" in
  let! device := require_int "BACNET_DEVICE_ID" in
  let! points := parse_points (env_get "BACNET_POINTS" "[]") in
  let! poll := env_float "BACNET_POLL_INTERVAL" "60" in
  let! chunk := env_int "BACNET_RPM_CHUNK_SIZE" "20" in
  let! read_timeout := env_float "BACNET_READ_TIMEOUT" "5" in
  let! priority := env_int "BACNET_DEFAULT_WRITE_PRIORITY" "8" in
  let! write_timeout := env_float "BACNET_WRITE_TIMEOUT" "10" in
  let! health := env_int "HEALTH_PORT" "8080" in
  post_init
    {| bc_connector_id := connector_id; bc_nats_url := env_get "NATS_URL" "nats://localhost:4222"; bc_address := address;
       bc_device_id := device; bc_points := points; bc_poll_interval := poll; bc_local_address := env_get "BACNET_LOCAL_ADDRESS" "0.0.0.0";
       bc_default_priority := priority; bc_write_timeout := write_timeout; bc_chunk_size := chunk; bc_read_timeout := read_timeout;
       bc_cov := negb (existsb (String.eqb (to_lower (trim_space (env_get "BACNET_COV_ENABLED" "true")))) ["0"; "false"; "no"]);
       bc_health_port := health; bc_clock_revision := ""; bc_clocks := []; bc_managed_session := ""; bc_native_hash := "";
       bc_auth_file := "" |}.

Definition server_url (u : option py_url) : bool :=
  match u with
  | Some u => existsb (String.eqb (pu_scheme u)) ["nats"; "tls"; "ws"; "wss"]
      && match pu_hostname u with Some h => negb (String.eqb h "") | None => false end
      && match pu_username u with None => true | Some _ => false end && String.eqb (pu_query u) "" && String.eqb (pu_fragment u) ""
      && pu_port_ok u
  | None => false
  end.

(** [nats_auth_options]: the user and the password. *)
Definition nats_auth_options (cfg : bacnet_config) : result config_error (option (string * string)) :=
  if String.eqb (bc_managed_session cfg) "" then Ok None
  else if negb (forallb (fun a => server_url (urlsplit (trim_space a))) (split_byte "," (bc_nats_url cfg))) then Err BadNATSAuth
  else if negb (has_prefix (bc_auth_file cfg) "/") then Err BadNATSAuth
  else
    match read (bc_auth_file cfg) with
    | None => Err BadNATSAuth
    | Some text =>
      match loads text with
      | Some (JObj auth) =>
        match py_get "user" auth, py_get "password" auth with
        | Some (JStr u), Some (JStr p) =>
          if keys_are auth ["user"; "password"] && negb (String.eqb u "") && negb (String.eqb p "") then Ok (Some (u, p)) else Err BadNATSAuth
        | _, _ => Err BadNATSAuth
        end
      | _ => Err BadNATSAuth
      end
    end.

Definition set_env (k : string) : bool := bool_decide (is_Some (env !! k)).

(** The native bundle, when one is named. *)
Definition load_bundle (cfg : bacnet_config) (path : string) : result config_error bacnet_config :=
  if String.eqb path "" then Ok cfg
  else if set_env "BACNET_POINTS" then Err BothSources
  else
    match read path with
    | None => Err NoBundleFile
    | Some raw =>
      match loads raw with
      | None => Err NoBundleFile
      | Some bundle => let! c := apply_clock_bundle cfg bundle in Ok {| c with bc_native_hash := sha256_hex raw |}
      end
    end.

(** The managed session and its credentials. *)
Definition load_session (cfg : bacnet_config) (path : string) : result config_error bacnet_config :=
  let session := env_get "BACNET_MANAGED_SESSION" "" in
  let cfg := {| cfg with bc_managed_session := session |} in
  let! _ := guard (String.eqb session "" || (hex_text 32 session && negb (String.eqb path "") && negb (bc_cov cfg))) BadManagedSession in
  let cfg := {| cfg with bc_auth_file := env_get "NATS_AUTH_FILE" "" |} in
  let! _ := nats_auth_options cfg in
  Ok cfg.

Definition from_env : result config_error bacnet_config :=
  let path := env_get "BACNET_CLOCK_CONFIG_FILE" "" in
  let! cfg := base_config in
  let! cfg := load_bundle cfg path in
  load_session cfg path.
End Env.

(** ** Hashes and revisions *)

Lemma hex_no_byte s c : forallb hex_char (list_ascii_of_string s) = true -> hex_char c = false -> contains_byte s c = false.
Proof.
  induction s as [|d s IH]; [done|]. cbn [list_ascii_of_string forallb contains_byte]. intros [Hd Hs]%andb_prop Hc.
  rewrite IH by done. rewrite orb_false_r. apply Ascii.eqb_neq. intros ->. congruence.
Qed.

(** The revision of a staged snapshot is one the connector takes. *)
Lemma revision_of_ok body : revision_ok (revision_of body) = true.
Proof.
  unfold revision_ok, revision_of. set (h := sha256_hex _). pose proof (sha256_hex_text (encode_canonical (JObj (without "generatedAt" (without "revision" body))))) as Hh.
  fold h in Hh. clearbody h.
  apply andb_true_iff. split; [apply has_prefix_spec; eexists; symmetry; apply append_assoc_l|].
  change (drop_str 8 (str1 34 +:+ "sha256:" +:+ h +:+ str1 34)) with (h +:+ str1 34).
  assert (cut_byte (chr 34) (h +:+ str1 34) = Some (h, "")) as ->.
  { apply cut_byte_spec. split; [done|]. unfold hex_text in Hh. apply andb_prop in Hh as [_ Hh]. by apply hex_no_byte. }
  by rewrite Hh.
Qed.

(** ** The gateway's bundle is applied *)

Definition point_of (p : NativeClockPoint) : py_point :=
  {| py_local_id := np_LocalID p; py_device_ref := np_DeviceRef p; py_unit := np_Unit p; py_writable := np_Writable p; py_release_of := None |}.
Definition clock_of_native (c : NativeClock) : py_clock :=
  {| pk_clock_id := nc_ClockID c; pk_local_id := nc_LocalID c; pk_property := nc_Property c; pk_points := nc_PointLocalIDs c |}.

(** What the connector asks of a bundle. *)
Record clock_acceptable (points : list string) (c : NativeClock) : Prop := {
  ca_id : nc_ClockID c <> ""; ca_object : clock_object (nc_LocalID c) = true; ca_property : nc_Property c = "presentValue";
  ca_foreign : nc_LocalID c ∉ points; ca_some : nc_PointLocalIDs c <> []; ca_once : NoDup (nc_PointLocalIDs c);
  ca_known : forall l, l ∈ nc_PointLocalIDs c -> l ∈ points
}.
Record acceptable (n : NativeClockConfig) : Prop := {
  ac_revision : revision_ok (nk_Revision n) = true;
  ac_device : 0 <= nk_DeviceID n <= 4194303;
  ac_named : Forall (fun p => np_LocalID p <> "") (nk_Points n);
  ac_points : NoDup (map np_LocalID (nk_Points n));
  ac_clocks : Forall (clock_acceptable (map np_LocalID (nk_Points n))) (nk_Clocks n);
  ac_ids : NoDup (map nc_ClockID (nk_Clocks n));
  ac_objects : NoDup (map nc_LocalID (nk_Clocks n));
  ac_apart : NoDup (List.concat (map nc_PointLocalIDs (nk_Clocks n)))
}.

Lemma parse_all_map {A B C} (f : B -> result config_error C) (g : A -> B) (h : A -> C) l :
  Forall (fun a => f (g a) = Ok (h a)) l -> parse_all f (map g l) = Ok (map h l).
Proof. induction 1 as [|a l Ha _ IH]; [done|]. cbn. by rewrite Ha, IH. Qed.

Lemma strings_of_map l : strings_of (map JStr l) = Some l.
Proof. unfold strings_of. induction l as [|s l IH]; [done|]. cbn in *. by rewrite IH. Qed.

Definition seen (done : list NativeClock) : clock_seen :=
  {| cs_ids := list_to_set (map nc_ClockID done); cs_objects := list_to_set (map nc_LocalID done);
     cs_assigned := list_to_set (List.concat (map nc_PointLocalIDs done)); cs_clocks := map clock_of_native done |}.

Lemma clock_step points done c : clock_acceptable points c -> nc_ClockID c ∉ map nc_ClockID done ->
  nc_LocalID c ∉ map nc_LocalID done -> (forall l, l ∈ nc_PointLocalIDs c -> l ∉ List.concat (map nc_PointLocalIDs done)) ->
  parse_clock (list_to_set points) (seen done) (clock_json c) = Ok (seen (done ++ [c])).
Proof.
  intros [Hid Ho Hp Hf Hs Hn Hk] H1 H2 H3. destruct c as [id local property refs].
  cbn in Hid, Ho, Hp, Hf, Hs, Hn, Hk, H1, H2, H3. unfold parse_clock, clock_json.
  assert (forall r, keys_are [("clock_id", JStr id); ("local_id", JStr local); ("property", JStr property); ("point_local_ids", r)]
    ["clock_id"; "local_id"; "property"; "point_local_ids"] = true) as Hkeys by (intros r; apply bool_decide_eq_true; done).
  cbn [nc_ClockID nc_LocalID nc_Property nc_PointLocalIDs]. rewrite Hkeys. cbn [guard result_bind].
  destruct refs as [|r rs]; [done|]. cbn [py_get String.eqb Ascii.eqb Bool.eqb].
  apply String.eqb_neq in Hid. rewrite Hid, (bool_decide_eq_false_2 (id ∈ _)) by (cbn; by rewrite elem_of_list_to_set).
  cbn [negb andb guard result_bind]. rewrite Ho, Hp, String.eqb_refl.
  rewrite (bool_decide_eq_false_2 (local ∈ list_to_set points)) by (by rewrite elem_of_list_to_set).
  rewrite (bool_decide_eq_false_2 (local ∈ cs_objects _)) by (cbn; by rewrite elem_of_list_to_set).
  cbn [negb andb guard result_bind]. rewrite strings_of_map.
  rewrite (bool_decide_eq_true_2 (NoDup _)) by done. rewrite (bool_decide_eq_true_2 (_ ⊆ _)).
  2: { intros x. rewrite !elem_of_list_to_set. apply Hk. }
  rewrite (bool_decide_eq_true_2 (_ = ∅)).
  2: { apply set_eq. intros x. rewrite elem_of_intersection, elem_of_empty. cbn [cs_assigned seen]. rewrite !elem_of_list_to_set. naive_solver. }
  cbn [andb guard result_bind]. f_equal. unfold seen. rewrite !map_app, concat_app, !list_to_set_app_L. cbn [map List.concat]. rewrite app_nil_r. f_equal.
  - cbn. set_solver.
  - cbn. set_solver.
Qed.

Lemma clocks_step points cs : forall done, Forall (clock_acceptable points) cs -> NoDup (map nc_ClockID (done ++ cs)) ->
  NoDup (map nc_LocalID (done ++ cs)) -> NoDup (List.concat (map nc_PointLocalIDs (done ++ cs))) ->
  fold_res (parse_clock (list_to_set points)) (seen done) (map clock_json cs) = Ok (seen (done ++ cs)).
Proof.
  induction cs as [|c cs IH]; intros done Hc H1 H2 H3; [cbn; by rewrite app_nil_r|]. apply Forall_cons in Hc as [Hc Hcs].
  cbn [map fold_res]. rewrite clock_step; [|done|..].
  - cbn [result_bind]. rewrite IH by (rewrite <- ?(assoc_L app); done). by rewrite <- (assoc_L app).
  - rewrite map_app in H1. apply NoDup_app in H1 as (_ & H1 & _). intros Hx. apply (H1 _ Hx). by left.
  - rewrite map_app in H2. apply NoDup_app in H2 as (_ & H2 & _). intros Hx. apply (H2 _ Hx). by left.
  - rewrite map_app, concat_app in H3. apply NoDup_app in H3 as (_ & H3 & _). intros l Hl Hx. apply (H3 _ Hx).
    cbn. apply elem_of_app. by left.
Qed.

Lemma py_int_itoa z : 0 <= z -> py_int (JNum (itoa z)) = Some z.
Proof.
  intros Hz. unfold itoa. replace (z <? 0) with false by lia. destruct (dec_string_spec z Hz) as (Ha & Hv & _).
  unfold py_int. destruct (dec_string z) as [|c r] eqn:E; [by rewrite Ha, Hv|].
  assert (c <> "-"%char) as Hc by (intros ->; done).
  destruct c as [[] [] [] [] [] [] [] []]; try (by rewrite Ha, Hv); done.
Qed.

Lemma parse_point_native p : np_LocalID p <> "" -> parse_point (point_json p) = Ok (point_of p).
Proof. intros H%String.eqb_neq. unfold parse_point, point_json. cbn. by rewrite H. Qed.

Lemma apply_acceptable cfg n : acceptable n -> nk_ConnectorID n = bc_connector_id cfg -> nk_DeviceID n = bc_device_id cfg -> bc_cov cfg = false ->
  apply_clock_bundle cfg (native_json n) =
  Ok {| cfg with bc_points := map point_of (nk_Points n); bc_clocks := map clock_of_native (nk_Clocks n); bc_clock_revision := nk_Revision n |}.
Proof.
  intros [Hr Hd Hn Hp Hc Hi Ho Ha] Ec Ed Hcov. unfold apply_clock_bundle, native_json.
  match goal with |- context [keys_are ?l ?k] => replace (keys_are l k) with true by (symmetry; apply bool_decide_eq_true; done) end.
  cbn [guard result_bind py_get String.eqb Ascii.eqb Bool.eqb].
  rewrite Ec, String.eqb_refl, py_int_itoa, Ed, Z.eqb_refl by lia. cbn [andb guard result_bind]. rewrite Hr. cbn [guard result_bind].
  replace (forallb point_keys (map point_json (nk_Points n))) with true
    by (symmetry; apply forallb_forall; intros x (p & <- & _)%in_map_iff; apply bool_decide_eq_true; done).
  cbn [guard result_bind points_of]. rewrite (parse_all_map parse_point point_json point_of)
    by (eapply Forall_impl; [exact Hn|intros p; apply parse_point_native]).
  cbn [result_bind]. assert (map py_local_id (map point_of (nk_Points n)) = map np_LocalID (nk_Points n)) as Em by (by rewrite map_map).
  rewrite Em, bool_decide_eq_true_2 by done. cbn [guard result_bind].
  change {| cs_ids := ∅; cs_objects := ∅; cs_assigned := ∅; cs_clocks := [] |} with (seen []).
  rewrite (clocks_step _ _ []) by done. cbn [result_bind app]. cbn [seen cs_clocks].
  destruct (map clock_of_native (nk_Clocks n)); by rewrite ?Hcov.
Qed.

Section Staged.
  Context (gatewayID connectorID : string) (deviceID : Z).

Lemma sources_supported sources st :
  fold_res (stage_clock gatewayID connectorID deviceID) {| ck_index := ∅; ck_objects := ∅; ck_list := [] |} sources = Ok st ->
  Forall (fun c => clock_supported gatewayID connectorID deviceID c = true) sources.
Proof.
  apply fold_res_inv with (P := fun done _ => Forall (fun c => clock_supported gatewayID connectorID deviceID c = true) done); [constructor|].
  intros done s c s' Hd H. unfold stage_clock in H. guards H. apply Forall_app. split; [done|by repeat constructor].
Qed.

Definition addressed_point (p : gatewayPointDTO) : Prop :=
  dto_ReleaseOf p = "" -> exists n, dto_Native p = Some n /\ n_objectType n <> "".

Lemma points_addressed hc objects clocks bindings ps st0 st :
  fold_res (stage_point deviceID hc objects clocks bindings) st0 ps = Ok st -> Forall addressed_point ps.
Proof.
  apply fold_res_inv with (P := fun done _ => Forall addressed_point done); [constructor|].
  intros done s p s' Hd H. apply Forall_app. split; [done|]. repeat constructor. intros Hr. unfold stage_point in H.
  rewrite Hr in H. cbn in H. destruct (dto_Native p) as [n|]; [|done]. exists n. split; [done|]. guards H.
  unfold point_ok in G. rewrite !andb_true_iff, !negb_true_iff in G. destruct G as [_ Ho]. by apply String.eqb_neq.
Qed.

Lemma clock_local_object c : clock_supported gatewayID connectorID deviceID c = true ->
  cs_ClockID c <> "" /\ clock_object (clock_local (cs_Native c)) = true /\ cn_Property (cs_Native c) = "presentValue".
Proof.
  unfold clock_supported. cbv zeta. rewrite !andb_true_iff, negb_true_iff, orb_true_iff.
  intros [[[[[[[[[[[[Hid _] _] _] _] _] _] _] _] Hi] Ho] Hp%String.eqb_eq] _]. apply String.eqb_neq in Hid. split_and!; [done| |done].
  unfold clock_local, clock_object. destruct (cn_ObjectInstance (cs_Native c)) as [i|]; [|done]. cbn in Hi. unfold between in Hi. change (default 0 (Some i)) with i.
  assert (itoa i = dec_string i) as Ei by (unfold itoa; by replace (i <? 0) with false by lia).
  destruct (dec_string_spec i ltac:(lia)) as (Hv & Hd & x & r & E & _).
  assert (cut_byte "," (cn_ObjectType (cs_Native c) +:+ "," +:+ itoa i) = Some (cn_ObjectType (cs_Native c), itoa i)) as ->.
  { apply cut_byte_spec. split; [done|]. by destruct Ho as [->%String.eqb_eq| ->%String.eqb_eq]. }
  rewrite Ei, Hv, Hd. rewrite E at 1. replace (i <=? 4194303) with true by lia.
  by destruct Ho as [->%String.eqb_eq| ->%String.eqb_eq].
Qed.

Lemma local_of_point p : dto_ReleaseOf p = "" -> addressed_point p -> dto_local p <> "".
Proof.
  intros Hr (n & Hn & Ho)%(fun H => H Hr). unfold dto_local. rewrite Hn. apply String.eqb_neq in Ho. rewrite Ho. cbn [negb orb].
  by destruct (n_objectType n).
Qed.

End Staged.

Lemma NoDup_filter_map {A B} (f : A -> B) (p q : A -> bool) l : (forall a, q a = true -> p a = true) ->
  NoDup (map f (List.filter p l)) -> NoDup (map f (List.filter q l)).
Proof.
  intros Hqp. induction l as [|a l IH]; [done|]. cbn. pose proof (Hqp a) as Ha. destruct (q a) eqn:Eq.
  - rewrite Ha by done. cbn. intros [Hn Hl]%NoDup_cons. apply NoDup_cons. split; [|auto].
    intros (b & E & Hb)%list_elem_of_fmap. apply Hn. rewrite E. apply list_elem_of_fmap. exists b. split; [done|].
    apply elem_of_filter_In in Hb as [Hb1 Hb2]. apply elem_of_filter_In. auto.
  - destruct (p a); [cbn; intros [_ Hl]%NoDup_cons; auto|auto].
Qed.

Lemma NoDup_concat_map {A B} (f : A -> list B) l : NoDup l -> Forall (fun a => NoDup (f a)) l ->
  (forall a b x, a ∈ l -> b ∈ l -> x ∈ f a -> x ∈ f b -> a = b) -> NoDup (List.concat (map f l)).
Proof.
  induction l as [|a l IH]; intros Hn Hf Hd; [constructor|]. apply NoDup_cons in Hn as [Ha Hn]. apply Forall_cons in Hf as [Hfa Hf].
  cbn. apply NoDup_app. split_and!; [done| |apply IH; [done|done|intros b c x Hb Hc; apply Hd; by right]].
  intros x Hx Hy. apply list_elem_of_In, in_concat in Hy as (y & (b & <- & Hb)%in_map_iff & Hy).
  apply list_elem_of_In in Hb, Hy. apply Ha. by rewrite (Hd a b x) by (by constructor || done).
Qed.

(** The bundle of a staged snapshot is one the connector takes. *)
Lemma stage_acceptable data scope s : StageClock data scope = Ok s ->
  acceptable (cl_native s) /\ nk_ConnectorID (cl_native s) = sc_ConnectorID scope /\ nk_DeviceID (cl_native s) = sc_DeviceID scope.
Proof.
  intros [[cfg es] [H [= <-]]]%result_bind_ok. cbn [cl_native fst].
  assert (0 <= sc_DeviceID scope <= 4194303) as Hdev.
  { unfold StageClockSnapshot in H. destruct (parse_prefix data) as [[v rest]|]; [|done]. destruct (snapshot_decode v); [|done]. guards H.
    rewrite !andb_true_iff in G. destruct G as [_ G]. unfold between in G. lia. }
  apply stage_accepts in H as (body & rest & sn & _ & _ & _ & _ & _ & Hc & Hv & H).
  pose proof (stage_body_spec _ _ _ _ _ _ Hc H) as [Hb Hco]. unfold stage_body in H. guards H.
  apply result_bind_ok in H as [ck [Hck%sources_supported H]]. apply result_bind_ok in H as [m [_ H]].
  apply result_bind_ok in H as [st [Hst%points_addressed _]]. unfold bundle in Hb. injection Hb as -> ->. rewrite Hv in *.
  destruct Hco as [Hs _ Ha Hi Ht Hk Ho _ _]. cbn [nk_Points nk_Clocks nk_ConnectorID nk_DeviceID nk_Revision] in *. split; [|done].
  set (ps := sl_list (s_Points sn)) in *. set (bs := sl_list (s_ClockBindings sn)) in *. set (cs := sl_list (s_ClockSources sn)) in *.
  apply NoDup_app in Ha as (Hp & Hpc & Hcl).
  assert (Forall (fun c => NoDup (nc_PointLocalIDs (clock_of (sc_ConnectorID scope) bs ps c))) cs) as Honce.
  { apply Forall_forall. intros c _. cbn [clock_of nc_PointLocalIDs].
    rewrite filter_map_swap, map_map, map_map in Hp. cbn in Hp. eapply NoDup_filter_map; [|exact Hp]. cbn. intros p Hbn%bound_native.
    unfold is_native. unfold entry_of, mapDTO. rewrite Hbn. by repeat (case_match; simplify_eq/=). }
  split; cbn [nk_Points nk_Clocks nk_ConnectorID nk_DeviceID nk_Revision].
  - apply revision_of_ok.
  - done.
  - apply Forall_map, Forall_forall. intros e [(p & -> & Hin)%list_elem_of_fmap Hn]%elem_of_filter_In. cbn. rewrite (proj1 (entry_text _ _)).
    rewrite Forall_forall in Hst. apply local_of_point; [|by apply Hst]. unfold is_native in Hn. apply String.eqb_eq in Hn. rewrite <- Hn.
    unfold entry_of, mapDTO. by repeat (case_match; simplify_eq/=).
  - done.
  - apply Forall_map, Forall_forall. intros c Hin. rewrite Forall_forall in Hck, Honce.
    destruct (clock_local_object _ _ _ _ (Hck _ Hin)) as (H1 & H2 & H3).
    assert (clock_of (sc_ConnectorID scope) bs ps c ∈ map (clock_of (sc_ConnectorID scope) bs ps) cs) as Hm by (apply list_elem_of_fmap; eauto).
    split; try done.
    + intros Hx. apply (Hpc _ Hx). apply list_elem_of_fmap. eauto.
    + rewrite Forall_forall in Ht. by apply Ht.
    + by apply Honce.
    + intros l. by apply Hk.
  - done.
  - done.
  - apply NoDup_concat_map.
    + apply (NoDup_fmap_1 nc_ClockID). exact Hi.
    + by apply Forall_map.
    + intros c c' l. apply Ho.
Qed.

(** ** The environment of a container *)

(** Its assignments; of two for one variable, the first. *)
Definition env_of (l : list string) : gmap string string := list_to_map (omap (cut_byte "=") l).

Lemma env_of_app l l' k : env_of (l ++ l') !! k = match env_of l !! k with Some v => Some v | None => env_of l' !! k end.
Proof. unfold env_of. rewrite omap_app, list_to_map_app, lookup_union. by destruct (_ !! k), (_ !! k). Qed.

Lemma env_of_cons e k v l x : cut_byte "=" e = Some (k, v) -> env_of (e :: l) !! x = if decide (x = k) then Some v else env_of l !! x.
Proof.
  intros E. unfold env_of. cbn [omap list_omap]. rewrite E. cbn. destruct (decide (x = k)) as [->|]; [apply lookup_insert_eq|by rewrite lookup_insert_ne].
Qed.

Lemma env_of_filter names l k : In k names -> env_of (List.filter (fun e => negb (existsb (String.eqb (env_key e)) names)) l) !! k = None.
Proof.
  intros Hk. apply not_elem_of_list_to_map_1. intros ([x v] & -> & (e & Hin & He)%list_elem_of_omap)%list_elem_of_fmap. cbn in Hk.
  apply elem_of_filter_In in Hin as [_ Hn]. unfold env_key in Hn. rewrite He in Hn. apply negb_true_iff in Hn.
  assert (existsb (String.eqb x) names = true) as Hy; [|congruence]. apply existsb_exists. exists x. by rewrite String.eqb_refl.
Qed.

(** ** Decimal instance numbers *)

Lemma digits_val_bound s : forall acc, 0 <= acc -> all_digits s = true -> acc * 10 ^ strlen s <= digits_val acc s.
Proof.
  unfold strlen. induction s as [|c r IH]; intros acc Ha Hs; [cbn; lia|]. cbn [all_digits] in Hs. apply andb_prop in Hs as [Hc Hr].
  unfold is_digit, between in Hc. cbn [digits_val String.length]. rewrite Nat2Z.inj_succ, Z.pow_succ_r by lia.
  specialize (IH (acc * 10 + (code c - 48)) ltac:(lia) Hr). assert (0 <= 10 ^ Z.of_nat (String.length r)) by lia. nia.
Qed.

Lemma dec_string_short z : 0 <= z <= 4194303 -> (String.length (dec_string z) <= 7)%nat.
Proof.
  intros Hz. destruct (dec_string_spec z ltac:(lia)) as (Hv & Hd & c & r & E & Hp & H0). rewrite E in *. cbn [String.length].
  destruct (Z.eq_dec z 0) as [Ez|]; [destruct (H0 Ez) as [-> _]; cbn; lia|]. specialize (Hp ltac:(lia)).
  cbn [all_digits] in Hd. apply andb_prop in Hd as [Hc Hr]. unfold is_digit, between in Hc. cbn [digits_val] in Hv.
  pose proof (digits_val_bound r (0 * 10 + (code c - 48)) ltac:(lia) Hr) as Hb. rewrite Hv in Hb.
  destruct (Nat.le_gt_cases (String.length r) 6); [lia|]. exfalso.
  assert (10 ^ 7 <= 10 ^ strlen r) by (apply Z.pow_le_mono_r; unfold strlen; lia). nia.
Qed.

Lemma digit_no_space c r : is_digit c = true -> space_len (String c r) = 0%nat.
Proof.
  unfold is_digit, between. intros Hc. cbn [space_len]. unfold is_ascii_space, between.
  replace ((9 <=? code c) && (code c <=? 13) || (code c =? 32)) with false by lia. destruct r as [|b r]; [done|].
  replace (code c =? 194) with false by lia. cbn [andb]. destruct r as [|d r]; [done|].
  replace (code c =? 225) with false by lia. replace (code c =? 226) with false by lia. replace (code c =? 227) with false by lia. done.
Qed.
Lemma digits_no_space_rev s : all_digits s = true -> space_len_rev s = 0%nat.
Proof.
  destruct s as [|c r]; [done|]. cbn [all_digits space_len_rev]. intros [Hc Hr]%andb_prop. assert (is_ascii_space c = false) as ->
    by (unfold is_digit, is_ascii_space, between in *; lia).
  destruct r as [|b r]; [done|]. cbn [all_digits] in Hr. apply andb_prop in Hr as [Hb Hr]. rewrite digit_no_space by done. cbn [Nat.eqb].
  destruct r as [|a r]; [done|]. cbn [all_digits] in Hr. apply andb_prop in Hr as [Ha _]. by rewrite digit_no_space.
Qed.
Lemma all_digits_app s t : all_digits (s +:+ t) = all_digits s && all_digits t.
Proof.
  induction s as [|c s IH]; [done|]. change (String c s +:+ t) with (String c (s +:+ t)). cbn [all_digits]. by rewrite IH, andb_assoc.
Qed.
Lemma all_digits_rev s : all_digits (rev_str s) = all_digits s.
Proof.
  induction s as [|c s IH]; [done|]. cbn [rev_str]. rewrite all_digits_app, IH. cbn [all_digits]. by rewrite andb_true_r, andb_comm.
Qed.
Lemma strip_none len fuel s : len s = 0%nat -> strip len fuel s = s.
Proof. intros H. destruct fuel; [done|]. cbn. by rewrite H. Qed.
Lemma trim_digits s : all_digits s = true -> trim_space s = s.
Proof.
  intros Hs. unfold trim_space, trim_left, trim_right. rewrite (strip_none space_len).
  - rewrite strip_none by (apply digits_no_space_rev; by rewrite all_digits_rev). apply rev_str_involutive.
  - destruct s as [|c r]; [done|]. cbn [all_digits] in Hs. apply andb_prop in Hs as [Hc _]. by apply digit_no_space.
Qed.

Lemma py_digits_all s : all_digits s = true -> s <> "" -> py_digits s = Some s.
Proof.
  induction s as [|c r IH]; [done|]. cbn [all_digits py_digits]. intros [Hc Hr]%andb_prop _. rewrite Hc. cbn [negb].
  destruct r as [|d r]; [done|]. rewrite IH by done. assert (d <> "_"%char) as Hd.
  { intros ->. cbn [all_digits] in Hr. by apply andb_prop in Hr as [Hd _]. }
  destruct d as [[] [] [] [] [] [] [] []]; done.
Qed.

Lemma int_text_itoa z : 0 <= z <= 4194303 -> int_text (itoa z) = Some z.
Proof.
  intros Hz. unfold itoa. replace (z <? 0) with false by lia. destruct (dec_string_spec z ltac:(lia)) as (Hv & Hd & c & r & E & _).
  unfold int_text. rewrite trim_digits by done.
  assert (py_sign (dec_string z) = (false, dec_string z)) as ->.
  { rewrite E in *. cbn [all_digits] in Hd. apply andb_prop in Hd as [Hc _]. unfold py_sign.
    destruct c as [[] [] [] [] [] [] [] []]; done. }
  rewrite py_digits_all by (done || by rewrite E). pose proof (dec_string_short z Hz).
  destruct (Nat.ltb_spec 4300 (String.length (dec_string z))); [lia|]. by rewrite Hv.
Qed.

(** ** The connector the gateway starts *)

(** The settings that are not the gateway's: the address, and numbers that are
    unset or in range. *)
Record tuned (env : gmap string string) : Prop := {
  tu_address : exists a, env !! "BACNET_ADDRESS" = Some a /\ a <> "";
  tu_poll : exists x, env_float env "BACNET_POLL_INTERVAL" "60" = Ok x /\ fpos x = true;
  tu_chunk : exists z, env_int env "BACNET_RPM_CHUNK_SIZE" "20" = Ok z /\ 1 <= z;
  tu_read : exists x, env_float env "BACNET_READ_TIMEOUT" "5" = Ok x /\ fpos x = true;
  tu_priority : exists z, env_int env "BACNET_DEFAULT_WRITE_PRIORITY" "8" = Ok z /\ 1 <= z <= 16;
  tu_write : exists x, env_float env "BACNET_WRITE_TIMEOUT" "10" = Ok x /\ fpos x = true;
  tu_health : exists z, env_int env "HEALTH_PORT" "8080" = Ok z
}.

(** Server addresses without credentials and a mounted user and password. *)
Record reachable (read : string -> option string) (urlsplit : string -> option py_url) (env : gmap string string) : Prop := {
  re_servers : forallb (fun a => server_url (urlsplit (trim_space a))) (split_byte "," (env_get env "NATS_URL" "nats://localhost:4222")) = true;
  re_absolute : has_prefix (env_get env "NATS_AUTH_FILE" "") "/" = true;
  re_secret : exists text u p, read (env_get env "NATS_AUTH_FILE" "") = Some text /\
    loads text = Some (JObj [("user", JStr u); ("password", JStr p)]) /\ u <> "" /\ p <> ""
}.

(** The variables of the gateway in the environment of a session. *)
Record session_env (env : gmap string string) (id file session : string) (device : Z) : Prop := {
  sv_id : env !! "CONNECTOR_ID" = Some id; sv_file : env !! "BACNET_CLOCK_CONFIG_FILE" = Some file;
  sv_session : env !! "BACNET_MANAGED_SESSION" = Some session; sv_cov : env !! "BACNET_COV_ENABLED" = Some "false";
  sv_device : env !! "BACNET_DEVICE_ID" = Some (itoa device); sv_points : env !! "BACNET_POINTS" = None
}.

Lemma session_env_of mc base path session authFile n :
  let spec := session_spec base path session authFile n in
  existsb (fun e => has_prefix e "CONNECTOR_ID") (sp_Env spec) = false ->
  session_env (env_of (container_env mc spec)) (sp_ID base) (path +:+ "/native/" +:+ session +:+ ".json") session (nk_DeviceID n).
Proof.
  intros spec Hid. unfold container_env. rewrite Hid. cbn [negb]. unfold spec, session_spec. cbn [sp_Env sp_ID].
  set (nats := if _ && _ then _ else _).
  assert (forall k, In k reserved_env -> env_of nats !! k = None) as Hn.
  { intros k Hk. unfold nats. case_match; [|done]. rewrite (env_of_cons _ "NATS_URL" (NATSURL mc)) by reflexivity.
    destruct (decide (k = "NATS_URL")) as [->|]; [|done]. cbn in Hk. naive_solver. }
  split; rewrite !env_of_app, env_of_filter by (cbn; tauto);
    rewrite (env_of_cons _ "BACNET_CLOCK_CONFIG_FILE" (path +:+ "/native/" +:+ session +:+ ".json")),
      (env_of_cons _ "BACNET_MANAGED_SESSION" session), (env_of_cons _ "BACNET_COV_ENABLED" "false"),
      (env_of_cons _ "BACNET_DEVICE_ID" (itoa (nk_DeviceID n))) by reflexivity; cbn [decide]; rewrite ?Hn by (cbn; tauto); try reflexivity.
Qed.

Lemma base_config_session env id file session device : session_env env id file session device -> tuned env -> id <> "" -> 0 <= device <= 4194303 ->
  exists cfg, base_config env = Ok cfg /\ bc_connector_id cfg = id /\ bc_device_id cfg = device /\ bc_cov cfg = false /\
    bc_nats_url cfg = env_get env "NATS_URL" "nats://localhost:4222".
Proof.
  intros [Hid Hf Hs Hc Hd Hp] [(a & Ha & Hne) (x & Hx & Px) (z & Hz & Pz) (y & Hy & Py) (q & Hq & Pq) (w & Hw & Pw) (h & Hh)] Hi Hdev.
  unfold base_config, require_int, require_. rewrite Hid, Ha, Hd. apply String.eqb_neq in Hi, Hne. rewrite Hi, Hne. cbn [result_bind].
  assert (String.eqb (itoa device) "" = false) as ->.
  { unfold itoa. replace (device <? 0) with false by lia. by destruct (dec_string_spec device ltac:(lia)) as (_ & _ & c & r & -> & _). }
  cbn [result_bind]. rewrite int_text_itoa by done. cbn [result_bind]. assert (env_get env "BACNET_POINTS" "[]" = "[]") as -> by (unfold env_get; by rewrite Hp).
  change (parse_points "[]") with (Ok (A := list py_point) (E := config_error) []). cbn [result_bind]. rewrite Hx, Hz, Hy, Hq, Hw, Hh. cbn [result_bind].
  assert (env_get env "BACNET_COV_ENABLED" "true" = "false") as -> by (unfold env_get; by rewrite Hc).
  unfold post_init. cbn [bc_poll_interval bc_chunk_size bc_read_timeout bc_default_priority bc_write_timeout].
  rewrite Px, Py, Pw. replace (z <? 1) with false by lia. replace (between 1 16 q) with true by (unfold between; lia).
  cbn [guard negb result_bind]. eexists. split_and!; reflexivity.
Qed.

Lemma staged_named data scope s : StageClock data scope = Ok s -> sc_ConnectorID scope <> "".
Proof. intros [[cfg es] [H _]]%result_bind_ok. by apply stage_accepts in H as (? & ? & ? & _ & _ & _ & _ & _ & Hc & _). Qed.

#[local] Opaque sha256_hex native_text StageClock.

Lemma load_bundle_native read env cfg path n : bundle_text n -> acceptable n -> path <> "" -> env !! "BACNET_POINTS" = None ->
  read path = Some (native_text n) -> nk_ConnectorID n = bc_connector_id cfg -> nk_DeviceID n = bc_device_id cfg -> bc_cov cfg = false ->
  load_bundle read env cfg path =
  Ok {| cfg with bc_points := map point_of (nk_Points n); bc_clocks := map clock_of_native (nk_Clocks n); bc_clock_revision := nk_Revision n;
                 bc_native_hash := sha256_hex (native_text n) |}.
Proof.
  intros Hbt Hac Hp Hpts Hread Ec Ed Hcov. unfold load_bundle. apply String.eqb_neq in Hp as ->.
  assert (set_env env "BACNET_POINTS" = false) as -> by (apply bool_decide_eq_false; rewrite Hpts; by intros [? ?]).
  rewrite Hread. unfold loads. destruct (native_reads _ Hbt) as [-> ->]. by rewrite apply_acceptable.
Qed.

Lemma load_session_managed read urlsplit env cfg path session : reachable read urlsplit env ->
  env !! "BACNET_MANAGED_SESSION" = Some session -> hex_text 32 session = true -> path <> "" -> bc_cov cfg = false ->
  bc_nats_url cfg = env_get env "NATS_URL" "nats://localhost:4222" ->
  load_session read urlsplit env cfg path = Ok {| cfg with bc_managed_session := session; bc_auth_file := env_get env "NATS_AUTH_FILE" "" |}.
Proof.
  intros [Hsrv Habs (text & u & p & Hau & Hlo & Hu & Hp)] Hs Hhex Hpath Hcov Hurl. unfold load_session.
  assert (env_get env "BACNET_MANAGED_SESSION" "" = session) as -> by (unfold env_get; by rewrite Hs).
  apply String.eqb_neq in Hpath as ->. cbn [bc_cov]. rewrite Hcov, Hhex. cbn [negb andb]. rewrite orb_true_r. cbn [guard result_bind].
  unfold nats_auth_options. cbn [bc_managed_session bc_nats_url bc_auth_file]. rewrite Hurl, Hsrv, Habs, Hau, Hlo. cbn [negb].
  assert (String.eqb session "" = false) as -> by (apply String.eqb_neq; by intros ->).
  cbn [py_get String.eqb Ascii.eqb Bool.eqb]. apply String.eqb_neq in Hu, Hp. rewrite Hu, Hp.
  match goal with |- context [keys_are ?l ?k] => replace (keys_are l k) with true by (symmetry; apply bool_decide_eq_true; done) end.
  reflexivity.
Qed.

(** C14: the two programs agree on a session.  For an archived session that opens
    ([whole]) with snapshot [s], the container the gateway asks for makes the
    BACnet connector configure itself: [Config.from_env], reading the bundle file
    the gateway wrote, succeeds with the gateway's connector and device, exactly
    the points and clocks of the snapshot, its revision, change-of-value reports
    off, and the session identifier and bundle hash the gateway's store holds and
    asks for in receipts.  Assumed are the connector's own settings ([tuned]), its
    server addresses and credentials ([reachable]), an identifier in UTF-8, and
    that no variable of the base spec has a name that starts with CONNECTOR_ID
    other than CONNECTOR_ID itself. *)
Theorem session_starts read urlsplit mc scope dir id f s base path authFile :
  let spec := session_spec base path id authFile (cl_native s) in
  let env := env_of (ct_env (container_of mc spec "")) in
  whole scope dir id f s -> utf8 (sc_ConnectorID scope) -> sp_ID base = sc_ConnectorID scope ->
  existsb (fun e => has_prefix e "CONNECTOR_ID") (sp_Env spec) = false ->
  read (path +:+ "/native/" +:+ id +:+ ".json") = d_native dir !! id ->
  tuned env -> reachable read urlsplit env ->
  exists cfg, from_env read urlsplit env = Ok cfg /\
    bc_connector_id cfg = sc_ConnectorID scope /\ bc_device_id cfg = sc_DeviceID scope /\ bc_cov cfg = false /\
    bc_points cfg = map point_of (nk_Points (cl_native s)) /\ bc_clocks cfg = map clock_of_native (nk_Clocks (cl_native s)) /\
    bc_clock_revision cfg = nk_Revision (cl_native s) /\
    bc_managed_session cfg = Session (opened dir id f s) /\ bc_native_hash cfg = nativeHash (opened dir id f s).
Proof.
  intros spec env [_ Hses Hst Hnat _ _] Htext Hbase Hpre Hread Ht Hre.
  destruct (stage_acceptable _ _ _ Hst) as (Hac & Ec & Ed). pose proof (staged_text _ _ _ Htext Hst) as Hbt.
  pose proof (staged_named _ _ _ Hst) as Hid.
  pose proof (session_env_of mc base path id authFile (cl_native s) Hpre) as Hse. fold spec in Hse.
  change (container_env mc spec) with (ct_env (container_of mc spec "")) in Hse. fold env in Hse. rewrite Hbase in Hse.
  destruct (base_config_session _ _ _ _ _ Hse Ht Hid (ac_device _ Hac)) as (c0 & E0 & H1 & H2 & H3 & H4).
  destruct Hse as [_ Sf Ss _ _ Sp]. unfold from_env. rewrite E0. cbn [result_bind].
  assert (env_get env "BACNET_CLOCK_CONFIG_FILE" "" = path +:+ "/native/" +:+ id +:+ ".json") as -> by (unfold env_get; by rewrite Sf).
  assert (path +:+ "/native/" +:+ id +:+ ".json" <> "") as Hpath by (by destruct path).
  rewrite (load_bundle_native _ _ _ _ (cl_native s)) by (done || congruence). cbn [result_bind].
  rewrite (load_session_managed _ _ _ _ _ id) by done. eexists. split; [reflexivity|].
  cbn [bc_connector_id bc_device_id bc_cov bc_points bc_clocks bc_clock_revision bc_managed_session bc_native_hash Session nativeHash opened].
  rewrite H1, H2, Ed. auto 9.
Qed.

(** ** What an applied bundle satisfies *)

Definition clock_points (cs : list py_clock) : list string := List.concat (map pk_points cs).

Record clocks_sound (points : list string) (cs : list py_clock) : Prop := {
  so_ids : NoDup (map pk_clock_id cs);
  so_objects : NoDup (map pk_local_id cs);
  so_apart : NoDup (clock_points cs);
  so_each : Forall (fun c => pk_clock_id c <> "" /\ clock_object (pk_local_id c) = true /\ pk_property c = "presentValue" /\
    (pk_local_id c ∉ points) /\ pk_points c <> [] /\ (forall l, l ∈ pk_points c -> l ∈ points)) cs
}.

Definition seen_sound (points : list string) (st : clock_seen) : Prop :=
  clocks_sound points (cs_clocks st) /\ cs_ids st = list_to_set (map pk_clock_id (cs_clocks st)) /\
  cs_objects st = list_to_set (map pk_local_id (cs_clocks st)) /\ cs_assigned st = list_to_set (clock_points (cs_clocks st)).

Lemma parse_clock_sound points st c st' : seen_sound points st -> parse_clock (list_to_set points) st c = Ok st' -> seen_sound points st'.
Proof.
  intros ([H1 H2 H3 H4] & Ei & Eo & Ea) H. unfold parse_clock in H. destruct c as [| | | | |c]; try done. guards H.
  destruct (py_get "clock_id" c) as [[| | |id| |]|]; try done. destruct (py_get "local_id" c) as [lv|]; [|done].
  destruct (py_get "property" c) as [pv|]; [|done]. destruct (py_get "point_local_ids" c) as [rv|]; [|done]. guards H.
  destruct lv as [| | |local| |]; try done. destruct pv as [| | |property| |]; try done. guards H. destruct rv as [| | | |l|]; try done.
  destruct (strings_of l) as [[|r rs]|]; try done. guards H. injection H as <-. clear G.
  apply andb_true_iff in G0 as [Gid%negb_true_iff%String.eqb_neq Gn%negb_true_iff%bool_decide_eq_false].
  rewrite !andb_true_iff in G1. destruct G1 as [[[Go Gp%String.eqb_eq] Gf%negb_true_iff%bool_decide_eq_false] Gd%negb_true_iff%bool_decide_eq_false].
  rewrite !andb_true_iff, !bool_decide_eq_true in G2. destruct G2 as [[Gr Gs] Ga].
  rewrite Ei, elem_of_list_to_set in Gn. rewrite Eo, elem_of_list_to_set in Gd. rewrite elem_of_list_to_set in Gf. rewrite Ea in Ga.
  unfold seen_sound, clock_points. cbn [cs_clocks cs_ids cs_objects cs_assigned]. rewrite !map_app, concat_app. cbn [map List.concat].
  rewrite app_nil_r, !list_to_set_app_L. cbn [list_to_set pk_clock_id pk_local_id pk_points]. split_and!.
  - split; unfold clock_points; rewrite ?map_app, ?concat_app; cbn [map List.concat pk_clock_id pk_local_id pk_points].
    + by apply NoDup_snoc.
    + by apply NoDup_snoc.
    + rewrite app_nil_r. apply NoDup_app. split_and!; [done| |done]. intros x Hx Hy. unfold clock_points in Ga. set_solver.
    + apply Forall_app. split; [done|]. repeat constructor; cbn; try done. intros x Hx. set_solver.
  - rewrite Ei. set_solver.
  - rewrite Eo. set_solver.
  - by rewrite Ea.
Qed.

(** A configuration as a poll needs it. *)
Record config_sound (cfg : bacnet_config) : Prop := {
  cf_points : NoDup (map py_local_id (bc_points cfg));
  cf_clocks : clocks_sound (map py_local_id (bc_points cfg)) (bc_clocks cfg);
  cf_poll_only : bc_clocks cfg <> [] -> bc_cov cfg = false
}.

Lemma apply_sound cfg bundle cfg' : apply_clock_bundle cfg bundle = Ok cfg' ->
  config_sound cfg' /\ revision_ok (bc_clock_revision cfg') = true /\
  cfg' = {| cfg with bc_points := bc_points cfg'; bc_clocks := bc_clocks cfg'; bc_clock_revision := bc_clock_revision cfg' |} /\
  exists b, bundle = JObj b /\ py_get "connector_id" b = Some (JStr (bc_connector_id cfg)) /\
    exists dev, py_get "device_id" b = Some dev /\ py_int dev = Some (bc_device_id cfg).
Proof.
  unfold apply_clock_bundle. intros H. destruct bundle as [| | | | |b]; try done. guards H.
  destruct (py_get "revision" b) as [rv|], (py_get "connector_id" b) as [cv|] eqn:Ec, (py_get "device_id" b) as [dv|] eqn:Ed; try done.
  destruct (py_get "points" b) as [pv|], (py_get "clocks" b) as [kv|]; try done. guards H. destruct rv as [| | |rev| |]; try done. guards H.
  destruct pv as [| | | |ps|]; try done. destruct kv as [| | | |cs|]; try done. guards H.
  apply result_bind_ok in H as [pts [Hpts H]]. guards H. apply bool_decide_eq_true in G3.
  apply result_bind_ok in H as [st [Hst H]]. guards H. injection H as <-.
  apply andb_true_iff in G0 as [Hc Hd]. destruct cv as [| | |c| |]; try done. apply String.eqb_eq in Hc as ->.
  destruct (py_int dv) as [z|] eqn:Ez; [|done]. apply Z.eqb_eq in Hd as ->.
  assert (seen_sound (map py_local_id pts) st) as [Hs _].
  { eapply (fold_res_inv _ (fun _ s => seen_sound (map py_local_id pts) s)); [| |exact Hst].
    - split_and!; [split; constructor|done..].
    - intros _ s c s' Hs. by apply parse_clock_sound. }
  split_and!; [split; [done|done|]|done|done|exists b; split_and!; [done|done|by exists dv]]. cbn. intros Hne. destruct (cs_clocks st); [done|]. by apply negb_true_iff in G4.
Qed.

(** Every clock acquires only its own points: no point has two clocks, and no
    clock object is polled as a point. *)
Lemma point_one_clock cs c c' l : NoDup (clock_points cs) -> c ∈ cs -> c' ∈ cs -> l ∈ pk_points c -> l ∈ pk_points c' -> c = c'.
Proof.
  unfold clock_points. intros Hd. induction cs as [|x cs IH]; [by intros ?%elem_of_nil|]. cbn in Hd.
  apply NoDup_app in Hd as (_ & Hx & Hd). intros Hc Hc' Hl Hl'.
  assert (forall c, c ∈ cs -> l ∈ pk_points c -> l ∈ List.concat (map pk_points cs)) as Hin.
  { intros y Hy Hly. apply list_elem_of_In, in_concat. exists (pk_points y). split; [by apply in_map, list_elem_of_In|by apply list_elem_of_In]. }
  apply elem_of_cons in Hc as [->|Hc], Hc' as [->|Hc']; [done| | |by apply IH].
  - exfalso. by apply (Hx l Hl), (Hin c').
  - exfalso. by apply (Hx l Hl'), (Hin c).
Qed.

Module BacnetConfigExample.
Import ClockConfigExample LifecycleExample.
Definition id : string := "0123456789abcdef0123456789abcdef".
Definition f : session_file := {| sf_RunClockID := ""; sf_Session := id; sf_Snapshot := text hex |}.
Definition dir : directory :=
  {| d_native := {[id := native_text cfg]}; d_sessions := {[id := f]}; d_verified := ∅; d_archives := ∅; d_active := None |}.
Definition base : ConnectorSpec :=
  {| clock_spec with sp_ID := "bac-1"; sp_Env := ["NATS_URL=nats://n:4222"; "NATS_AUTH_FILE=/run/auth"; "CONNECTOR_ID=x"; "BACNET_ADDRESS=10.0.0.5"] |}.
Definition read (path : string) : option string :=
  if String.eqb path "/run/auth" then Some (dumps (JObj [("user", JStr "bac"); ("password", JStr "p")]))
  else if String.eqb path ("/state/native/" +:+ id +:+ ".json") then Some (native_text cfg) else None.
Definition urlsplit (s : string) : option py_url :=
  if String.eqb s "nats://n:4222"
  then Some {| pu_scheme := "nats"; pu_hostname := Some "n"; pu_username := None; pu_query := ""; pu_fragment := ""; pu_port_ok := true |}
  else None.
Definition env : gmap string string := env_of (ct_env (container_of cfg0 (session_spec base "/state" id "/run/auth" cfg) "")).

Lemma whole_dir : whole scope dir id f snap.
Proof. split; [done|reflexivity|exact snap_staged|reflexivity|done|done]. Qed.
Lemma tuned_env : tuned env.
Proof.
  split.
  - exists "10.0.0.5". split; [vm_compute; reflexivity|done].
  - exists (f64_dec false 60 0). split; vm_compute; reflexivity.
  - exists 20. split; [vm_compute; reflexivity|lia].
  - exists (f64_dec false 5 0). split; vm_compute; reflexivity.
  - exists 8. split; [vm_compute; reflexivity|lia].
  - exists (f64_dec false 10 0). split; vm_compute; reflexivity.
  - exists 8080. vm_compute. reflexivity.
Qed.
Lemma reachable_env : reachable read urlsplit env.
Proof.
  split; [vm_compute; reflexivity|vm_compute; reflexivity|]. eexists _, "bac", "p". split_and!; [vm_compute; reflexivity| |done|done].
  vm_compute. reflexivity.
Qed.

Lemma session_starts_witness : exists c, from_env read urlsplit env = Ok c /\ bc_clock_revision c = nk_Revision cfg /\ bc_managed_session c = id.
Proof.
  destruct (session_starts read urlsplit cfg0 scope dir id f snap base "/state" "/run/auth" whole_dir) as (c & Hc & _ & _ & _ & _ & _ & Hr & Hs & _);
    [reflexivity|reflexivity|vm_compute; reflexivity|vm_compute; reflexivity|exact tuned_env|exact reachable_env|].
  exists c. split_and!; [exact Hc|exact Hr|exact Hs].
Defined.

(** [float] reads "nan", and no comparison with it is true: the interval passes
    the check that it is positive. *)
Example nan_interval : float_text "nan" = Some S754_nan /\ fpos S754_nan = true.
Proof. split; vm_compute; reflexivity. Qed.

(** A variable whose name only starts with CONNECTOR_ID keeps the gateway from
    passing CONNECTOR_ID, and the connector does not start. *)
Definition near_base : ConnectorSpec := {| base with sp_Env := sp_Env base ++ ["CONNECTOR_ID_NOTE=x"] |}.
Example near_id_refused :
  from_env read urlsplit (env_of (ct_env (container_of cfg0 (session_spec near_base "/state" id "/run/auth" cfg) ""))) =
  Err (MissingVariable "CONNECTOR_ID").
Proof. vm_compute. reflexivity. Qed.
End BacnetConfigExample.
