(* ===== verification/BacnetRuntime.v ===== *)
(** * The managed runtime of the BACnet connector

    [ManagedRuntime] of [src/connector/bacnet/bacnet_connector/managed.py]: the
    control requests of the gateway, the commands and the poll loop share one
    [asyncio.Lock] and the flag [active].  Its coroutines run one at a time and
    give way only where they await; a step of the model is what runs between
    two awaits.  Who gets a free lock is left open.

    The theorems: the gateway takes exactly the receipts of its own session; and
    once the gateway has a receipt that its quiesce request paused the
    connector, no read or write is under way and none begins before a resume of
    the same configuration. *)

From Stdlib Require Import ZArith Lia Bool Ascii String List.
From stdpp Require Import base list strings gmap.
From S2P Require Import Prelude Json GoText Sha256 Encoding Python ClockConfig ClockWorker ClockGateway ClockText BacnetConfig.
#[local] Open Scope string_scope.
#[local] Open Scope list_scope.
#[local] Open Scope Z_scope.

Section Runtime.
  Context (cfg : bacnet_config).

(** ** Requests and receipts *)

Definition receipt (active : bool) : json :=
  JObj [("capability", JStr "clock-runtime/1"); ("session", JStr (bc_managed_session cfg)); ("revision", JStr (bc_clock_revision cfg));
        ("native_sha256", JStr (bc_native_hash cfg)); ("paused", JBool (negb active))].
Definition invalid_request : json := JObj [("error", JStr "invalid_runtime_request")].

Inductive action := Quiesce | Resume | Status.

Definition is_str (v : option json) (s : string) : bool := match v with Some (JStr t) => String.eqb t s | _ => false end.

(** What [control] makes of a request; [None] for each of the errors it
    answers with [invalid_runtime_request]. *)
Definition request_of (data : string) : option action :=
  match loads data with
  | Some (JObj request) =>
    if negb (is_str (py_get "session" request) (bc_managed_session cfg)) then None
    else
      match py_get "action" request with
      | Some (JStr a) =>
        if String.eqb a "quiesce" then Some Quiesce
        else if String.eqb a "resume" then
          if is_str (py_get "revision" request) (bc_clock_revision cfg) && is_str (py_get "native_sha256" request) (bc_native_hash cfg)
          then Some Resume else None
        else if String.eqb a "status" then Some Status else None
      | _ => None
      end
  | _ => None
  end.

(** ** The state *)

(** Coroutines that wait for the lock, with their request. *)
Inductive waiting := QuiesceWait (data : string) | ResumeWait (data : string) | CommandWait (data : string).

(** Who holds the lock, and for what: a quiesce awaits its flush, a command its
    handler, the loop its poll. *)
Inductive holder := Flushing (data : string) | Writing (data : string) | Polling.

(** Where [run] is. *)
Inductive loop := LoopTop | LoopWake | LoopLock | LoopPoll | LoopIdle | LoopClosed.

Record runtime := {
  rt_active : bool; rt_wake : bool; rt_lock : option holder; rt_waiting : gmap nat waiting; rt_loop : loop; rt_stop : bool
}.

Definition __init__ : runtime :=
  {| rt_active := false; rt_wake := false; rt_lock := None; rt_waiting := ∅; rt_loop := LoopTop; rt_stop := false |}.

(** What can be seen: a control request with its reply, a command with a reply
    that it is paused, the flag set, and the begin and end of a poll or write. *)
Inductive event :=
| Replied (data reply : string) | Refused (data : string) | Opened (data : string) | Begin | End.

Definition close_gate (rt : runtime) : runtime := {| rt with rt_active := false; rt_wake := false |}.
Definition wait_for (i : nat) (w : waiting) (rt : runtime) : runtime := {| rt with rt_waiting := <[i := w]> (rt_waiting rt) |}.
Definition leave (i : nat) (rt : runtime) : runtime := {| rt with rt_waiting := delete i (rt_waiting rt) |}.
Definition hold (h : option holder) (rt : runtime) : runtime := {| rt with rt_lock := h |}.
Definition go (l : loop) (rt : runtime) : runtime := {| rt with rt_loop := l |}.
(** The [finally] of [run]. *)
Definition closed (rt : runtime) : runtime := {| rt with rt_active := false |}.

(** [control] up to its first await. *)
Definition control (i : nat) (data : string) (rt : runtime) : runtime * list event :=
  match request_of data with
  | None => (rt, [Replied data (dumps invalid_request)])
  | Some Status => (rt, [Replied data (dumps (receipt (rt_active rt)))])
  | Some Quiesce => (wait_for i (QuiesceWait data) (close_gate rt), [])
  | Some Resume => (wait_for i (ResumeWait data) rt, [])
  end.

(** A waiting coroutine gets the lock. *)
Definition acquire (i : nat) (w : waiting) (rt : runtime) : runtime * list event :=
  let rt := leave i rt in
  match w with
  | QuiesceWait data => (hold (Some (Flushing data)) rt, [])
  | ResumeWait data =>
    let rt := {| rt with rt_active := true; rt_wake := true |} in
    (rt, [Opened data; Replied data (dumps (receipt (rt_active rt)))])
  | CommandWait data => if rt_active rt then (hold (Some (Writing data)) rt, [Begin]) else (rt, [Refused data])
  end.

(** The holder's await returns ([ok]) or raises; a failed flush is not answered. *)
Definition release (h : holder) (ok : bool) (rt : runtime) : runtime * list event :=
  let rt := hold None rt in
  match h with
  | Flushing data => (rt, if ok then [Replied data (dumps (receipt (rt_active rt)))] else [])
  | Writing _ => (rt, [End])
  | Polling => (if ok then go LoopIdle rt else closed (go LoopClosed rt), [End])
  end.

(** The steps of [run] that neither hold nor release the lock. *)
Definition run_next (timeout : bool) (rt : runtime) : runtime :=
  match rt_loop rt with
  | LoopTop => if rt_stop rt then closed (go LoopClosed rt) else go LoopWake rt
  | LoopWake => if rt_wake rt then go LoopLock rt else if timeout then go LoopTop rt else rt
  | LoopIdle => if timeout || rt_stop rt then go LoopTop rt else rt
  | _ => rt
  end.

Definition run_lock (rt : runtime) : runtime * list event :=
  if rt_active rt then (go LoopPoll (hold (Some Polling) rt), [Begin]) else (go LoopIdle rt, []).

Inductive step : runtime -> list event -> runtime -> Prop :=
| StepControl rt i data : rt_waiting rt !! i = None -> step rt (snd (control i data rt)) (fst (control i data rt))
| StepCommand rt i data : rt_waiting rt !! i = None -> step rt [] (wait_for i (CommandWait data) rt)
| StepAcquire rt i w : rt_waiting rt !! i = Some w -> rt_lock rt = None -> step rt (snd (acquire i w rt)) (fst (acquire i w rt))
| StepRelease rt h ok : rt_lock rt = Some h -> step rt (snd (release h ok rt)) (fst (release h ok rt))
| StepRun rt timeout : step rt [] (run_next timeout rt)
| StepRunLock rt : rt_loop rt = LoopLock -> rt_lock rt = None -> step rt (snd (run_lock rt)) (fst (run_lock rt))
| StepStop rt : step rt [] {| rt with rt_stop := true |}.

Inductive steps : runtime -> list event -> runtime -> Prop :=
| StepsNil rt : steps rt [] rt
| StepsCons rt evs rt' tr rt'' : step rt evs rt' -> steps rt' tr rt'' -> steps rt (evs ++ tr) rt''.

Lemma steps_app rt tr rt' tr' rt'' : steps rt tr rt' -> steps rt' tr' rt'' -> steps rt (tr ++ tr') rt''.
Proof. induction 1 as [|x e y tr z Hs _ IH]; [done|]. intros H. rewrite <- (assoc_L app). econstructor; eauto. Qed.

(** A schedule, executed. *)
Inductive move := MControl (i : nat) (data : string) | MCommand (i : nat) (data : string) | MAcquire (i : nat) | MRelease (ok : bool)
| MRun (timeout : bool) | MRunLock | MStop.

Definition exec (m : move) (rt : runtime) : option (runtime * list event) :=
  match m with
  | MControl i data => match rt_waiting rt !! i with Some _ => None | None => Some (control i data rt) end
  | MCommand i data => match rt_waiting rt !! i with Some _ => None | None => Some (wait_for i (CommandWait data) rt, []) end
  | MAcquire i => match rt_waiting rt !! i, rt_lock rt with Some w, None => Some (acquire i w rt) | _, _ => None end
  | MRelease ok => match rt_lock rt with Some h => Some (release h ok rt) | None => None end
  | MRun timeout => Some (run_next timeout rt, [])
  | MRunLock => match rt_loop rt, rt_lock rt with LoopLock, None => Some (run_lock rt) | _, _ => None end
  | MStop => Some ({| rt with rt_stop := true |}, [])
  end.
Fixpoint execs (ms : list move) (rt : runtime) : option (runtime * list event) :=
  match ms with
  | [] => Some (rt, [])
  | m :: ms =>
    match exec m rt with
    | Some (rt', evs) => match execs ms rt' with Some (rt'', tr) => Some (rt'', evs ++ tr) | None => None end
    | None => None
    end
  end.

Lemma exec_step m rt rt' evs : exec m rt = Some (rt', evs) -> step rt evs rt'.
Proof.
  destruct m as [i data|i data|i|ok|timeout| |]; cbn [exec].
  - destruct (rt_waiting rt !! i) eqn:E; [done|]. intros [= H]. pose proof (StepControl rt i data E) as S. by rewrite H in S.
  - destruct (rt_waiting rt !! i) eqn:E; [done|]. intros [= <- <-]. by constructor.
  - destruct (rt_waiting rt !! i) eqn:E, (rt_lock rt) eqn:El; try done. intros [= H]. pose proof (StepAcquire rt i _ E El) as S. by rewrite H in S.
  - destruct (rt_lock rt) eqn:El; [|done]. intros [= H]. pose proof (StepRelease rt _ ok El) as S. by rewrite H in S.
  - intros [= <- <-]. constructor.
  - destruct (rt_loop rt) eqn:E, (rt_lock rt) eqn:El; try done. intros [= H]. pose proof (StepRunLock rt E El) as S. by rewrite H in S.
  - intros [= <- <-]. constructor.
Qed.
Lemma execs_steps ms : forall rt rt' tr, execs ms rt = Some (rt', tr) -> steps rt tr rt'.
Proof.
  induction ms as [|m ms IH]; intros rt rt' tr; cbn [execs]; [intros [= <- <-]; constructor|].
  destruct (exec m rt) as [[x evs]|] eqn:E; [|done]. destruct (execs ms x) as [[y tl]|] eqn:Es; [|done]. intros [= <- <-].
  econstructor; eauto using exec_step.
Qed.

(** ** Operations under way *)

Definition busy (rt : runtime) : Z := match rt_lock rt with Some (Writing _) | Some Polling => 1 | _ => 0 end.
Definition weight (e : event) : Z := match e with Begin => 1 | End => -1 | _ => 0 end.
(** Begins less ends. *)
Definition under_way (tr : list event) : Z := fold_right (fun e n => weight e + n) 0 tr.

Lemma under_way_app a b : under_way (a ++ b) = under_way a + under_way b.
Proof. unfold under_way. induction a as [|e a IH]; [done|]. cbn [app fold_right]. rewrite IH. lia. Qed.

Lemma run_next_lock timeout rt : rt_lock (run_next timeout rt) = rt_lock rt.
Proof. unfold run_next. destruct (rt_loop rt), (rt_stop rt), (rt_wake rt), timeout; done. Qed.
Lemma run_next_active timeout rt : rt_active rt = false -> rt_active (run_next timeout rt) = false.
Proof. intros H. unfold run_next. destruct (rt_loop rt), (rt_stop rt), (rt_wake rt), timeout; done. Qed.

Lemma step_busy rt evs rt' : step rt evs rt' -> busy rt' = busy rt + under_way evs.
Proof.
  destruct 1 as [rt i data _|rt i data _|rt i w _ Hl|rt h ok Hl|rt timeout|rt _ Hl|rt]; unfold busy.
  - unfold control. destruct (request_of data) as [[]|]; cbn; lia.
  - cbn. lia.
  - unfold acquire. rewrite Hl. destruct w; cbn; rewrite ?Hl; [done|done|]. destruct (rt_active rt); cbn; by rewrite ?Hl.
  - rewrite Hl. destruct h, ok; done.
  - cbn [under_way fold_right]. rewrite Z.add_0_r, run_next_lock. done.
  - unfold run_lock. rewrite Hl. destruct (rt_active rt); cbn; by rewrite ?Hl.
  - cbn. lia.
Qed.

Lemma steps_busy rt tr rt' : steps rt tr rt' -> busy rt' = busy rt + under_way tr.
Proof.
  induction 1 as [|rt evs rt' tr rt'' Hs _ IH]; [cbn; lia|]. apply step_busy in Hs. rewrite under_way_app. lia.
Qed.

(** A closed gate stays closed until it is opened, and lets nothing begin. *)
Definition opens (e : event) : bool := match e with Opened _ => true | _ => false end.
Definition begins (e : event) : bool := match e with Begin => true | _ => false end.

Lemma step_closed rt evs rt' : step rt evs rt' -> rt_active rt = false -> existsb opens evs = false ->
  rt_active rt' = false /\ existsb begins evs = false.
Proof.
  destruct 1 as [rt i data _|rt i data _|rt i w _ Hl|rt h ok Hl|rt timeout|rt _ Hl|rt]; intros Ha.
  - unfold control. by destruct (request_of data) as [[]|].
  - done.
  - unfold acquire. destruct w; cbn; try done. rewrite Ha. done.
  - by destruct h, ok.
  - auto using run_next_active.
  - unfold run_lock. by rewrite Ha.
  - done.
Qed.

Lemma steps_closed rt tr rt' : steps rt tr rt' -> rt_active rt = false -> existsb opens tr = false -> existsb begins tr = false.
Proof.
  induction 1 as [|rt evs rt' tr rt'' Hs _ IH]; [done|]. rewrite !existsb_app, !orb_false_iff. intros Ha [He Ht].
  destruct (step_closed _ _ _ Hs Ha He) as [Ha' Hb]. auto.
Qed.

Lemma step_open_only rt evs rt' : step rt evs rt' -> existsb opens evs = true -> existsb begins evs = false.
Proof.
  destruct 1 as [rt i data _|rt i data _|rt i w _ Hl|rt h ok Hl|rt timeout|rt _ Hl|rt]; try done.
  - unfold control. by destruct (request_of data) as [[]|].
  - unfold acquire. destruct w; cbn; try done. by destruct (rt_active rt).
  - by destruct h, ok.
  - unfold run_lock. by destruct (rt_active rt).
Qed.

Lemma closed_prefix rt tr rt' : steps rt tr rt' -> forall mid rest, tr = mid ++ rest -> rt_active rt = false ->
  existsb opens mid = false -> existsb begins mid = false.
Proof.
  induction 1 as [|rt evs rt' tr rt'' Hs _ IH]; intros mid rest E Ha Ho; [by destruct mid|].
  apply app_eq_app in E as (l & [[-> ->]|[-> ->]]).
  - destruct (existsb opens (mid ++ l)) eqn:Eo.
    + pose proof (step_open_only _ _ _ Hs Eo) as Hb. rewrite existsb_app in Hb. by apply orb_false_iff in Hb as [Hb _].
    + destruct (step_closed _ _ _ Hs Ha Eo) as [_ Hb]. rewrite existsb_app in Hb. by apply orb_false_iff in Hb as [Hb _].
  - rewrite existsb_app in Ho |- *. apply orb_false_iff in Ho as [Ho1 Ho2]. destruct (step_closed _ _ _ Hs Ha Ho1) as [Ha' ->].
    cbn. by eapply IH.
Qed.

(** The step an event of a run comes from. *)
Lemma steps_split rt tr rt' : steps rt tr rt' -> forall tr1 e tr2, tr = tr1 ++ e :: tr2 ->
  exists pre a b rest rta rtb, steps rt pre rta /\ step rta (a ++ e :: b) rtb /\ steps rtb rest rt' /\ tr1 = pre ++ a /\ tr2 = b ++ rest.
Proof.
  induction 1 as [|rt evs rt' tr rt'' Hs Hr IH]; intros tr1 e tr2 E; [by destruct tr1|].
  apply app_eq_app in E as (l & [[-> E]|[-> ->]]).
  - destruct l as [|x l].
    + cbn in E. subst tr. destruct (IH [] e tr2 eq_refl) as (pre & a & b & rest & rta & rtb & H1 & H2 & H3 & E1 & E2).
      symmetry in E1. apply app_nil in E1 as [-> ->]. exists (tr1 ++ []), [], b, rest, rta, rtb. rewrite app_nil_r in Hs.
      split_and!; [by econstructor|done|done|by rewrite !app_nil_r|done].
    + injection E as -> ->. exists [], tr1, l, tr, rt, rt'. split_and!; try done. constructor.
  - destruct (IH l e tr2 eq_refl) as (pre & a & b & rest & rta & rtb & H1 & H2 & H3 & -> & ->).
    exists (evs ++ pre), a, b, rest, rta, rtb. split_and!; [by econstructor|done|done|by rewrite (assoc_L app)|done].
Qed.

(** ** What waits asked for it *)

Definition asked (rt : runtime) : Prop := forall i d, rt_waiting rt !! i = Some (ResumeWait d) -> request_of d = Some Resume.

Lemma step_asked rt evs rt' : step rt evs rt' -> asked rt -> asked rt'.
Proof.
  assert (forall rt' rt i, rt_waiting rt' = delete i (rt_waiting rt) -> asked rt -> asked rt') as Hdel.
  { intros x y i E H j d. rewrite E. intros [_ Hj]%lookup_delete_Some. eauto. }
  assert (forall rt' rt i w, rt_waiting rt' = <[i := w]> (rt_waiting rt) -> (forall d, w = ResumeWait d -> request_of d = Some Resume) ->
    asked rt -> asked rt') as Hins.
  { intros x y i w E Hw H j d. rewrite E. intros [[_ ->]|[_ Hj]]%lookup_insert_Some; eauto. }
  destruct 1 as [rt i data _|rt i data _|rt i w _ Hl|rt h ok Hl|rt timeout|rt _ Hl|rt]; intros Hq.
  - unfold control. destruct (request_of data) as [[]|] eqn:E; cbn [fst]; try done; (eapply Hins; [reflexivity| |exact Hq]); [done|].
    by intros d [= <-].
  - by eapply Hins; [reflexivity| |exact Hq].
  - unfold acquire. destruct w; cbn; [by eapply Hdel..|]. destruct (rt_active rt); by eapply Hdel.
  - by destruct h, ok.
  - unfold run_next. destruct (rt_loop rt), (rt_stop rt), (rt_wake rt), timeout; done.
  - unfold run_lock. by destruct (rt_active rt).
  - done.
Qed.

Lemma steps_asked rt tr rt' : steps rt tr rt' -> asked rt -> asked rt'.
Proof. induction 1; eauto using step_asked. Qed.

Lemma init_asked : asked __init__.
Proof. by intros i d. Qed.

(** A reply to a quiesce request comes from a flush. *)
Lemma quiesce_reply rt a data reply b rt' : step rt (a ++ Replied data reply :: b) rt' -> asked rt -> request_of data = Some Quiesce ->
  a = [] /\ b = [] /\ rt_lock rt = Some (Flushing data) /\ reply = dumps (receipt (rt_active rt)) /\ rt_active rt' = rt_active rt.
Proof.
  remember (a ++ Replied data reply :: b) as evs eqn:E. intros Hs Hq Hr.
  assert (forall x, [x] = a ++ Replied data reply :: b -> a = [] /\ b = [] /\ x = Replied data reply) as H1.
  { intros x. destruct a as [|y [|z a]]; [by intros [= -> <-]|done|done]. }
  destruct Hs as [rt i d _|rt i d _|rt i w Hw Hl|rt h ok Hl|rt timeout|rt _ Hl|rt]; try (by destruct a).
  - unfold control in E. destruct (request_of d) as [[]|] eqn:Ed; cbn in E; try (by destruct a);
      apply H1 in E as (_ & _ & [= -> _]); congruence.
  - unfold acquire in E. destruct w as [d|d|d]; cbn in E; [by destruct a| |destruct (rt_active rt); by apply H1 in E as (_ & _ & ?)].
    pose proof (Hq i d Hw). destruct a as [|x [|y [|z a]]]; [done| |done|done]. injection E as _ -> _ _. congruence.
  - destruct h as [d|d|], ok; cbn in E; try (by destruct a); try (by apply H1 in E as (_ & _ & ?)).
    apply H1 in E as (-> & -> & [= -> <-]). by rewrite Hl.
  - unfold run_lock in E. destruct (rt_active rt); cbn in E; [by apply H1 in E as (_ & _ & ?)|by destruct a].
Qed.

(** The gate is opened only by a resume of this configuration. *)
Lemma opened_asked rt a d b rt' : step rt (a ++ Opened d :: b) rt' -> asked rt -> request_of d = Some Resume.
Proof.
  remember (a ++ Opened d :: b) as evs eqn:E. intros Hs Hq.
  assert (Opened d ∈ evs) as Hin by (rewrite E; apply elem_of_app; right; by constructor). clear E.
  destruct Hs as [rt i x _|rt i x _|rt i w Hw Hl|rt h ok Hl|rt timeout|rt _ Hl|rt]; try (by apply elem_of_nil in Hin).
  - unfold control in Hin. destruct (request_of x) as [[]|]; cbn in Hin; set_solver.
  - unfold acquire in Hin. destruct w as [x|x|x]; cbn in Hin; [set_solver| |destruct (rt_active rt); set_solver].
    assert (x = d) as -> by set_solver. eauto.
  - destruct h as [x|x|], ok; cbn in Hin; set_solver.
  - unfold run_lock in Hin. destruct (rt_active rt); cbn in Hin; set_solver.
Qed.

(** ** The two programs on one session *)

(** The identity of a managed connector, as [from_env] leaves it. *)
Record identified : Prop := {
  id_session : hex_text 32 (bc_managed_session cfg) = true;
  id_revision : revision_ok (bc_clock_revision cfg) = true;
  id_hash : hex_text 64 (bc_native_hash cfg) = true
}.

(** The connector runs the session of this record. *)
Definition runs (r : sessionRecord) : Prop :=
  bc_managed_session cfg = Session r /\ bc_clock_revision cfg = Revision (sr_snapshot r) /\ bc_native_hash cfg = nativeHash r.

Lemma hex_utf8 n s : hex_text n s = true -> valid_utf8 s = true.
Proof. unfold hex_text. intros [_ H]%andb_prop. by apply ascii_valid, hex_ascii. Qed.

Lemma revision_utf8 s : revision_ok s = true -> valid_utf8 s = true.
Proof.
  unfold revision_ok. intros [[r ->]%has_prefix_spec H]%andb_prop.
  change (drop_str 8 ((str1 34 +:+ "sha256:") +:+ r)) with r in H. destruct (cut_byte (chr 34) r) as [[h rest]|] eqn:E; [|done].
  apply cut_byte_spec in E as [-> _]. apply andb_prop in H as [Hh%hex_utf8 ->%String.eqb_eq].
  apply valid_app; [reflexivity|]. by apply valid_app.
Qed.

Lemma receipt_valid active : identified -> valid (receipt active) = true.
Proof.
  intros [H1%hex_utf8 H2%revision_utf8 H3%hex_utf8]. unfold receipt. members.
Qed.

Lemma receipt_reads r active : identified ->
  receipt_ok r (dumps (receipt active)) = if decide (runs r) then Ok (negb active) else Err "running producer receipt mismatch".
Proof.
  intros Hid. unfold receipt_ok, receipt_decode. rewrite parse_dumps; [|by apply receipt_valid|cbn; unfold max_nesting; lia].
  cbn [decode_struct receipt decode_members match_field]. cbn.
  unfold runs. destruct (String.eqb_spec (bc_managed_session cfg) (Session r)), (String.eqb_spec (bc_clock_revision cfg) (Revision (sr_snapshot r))),
    (String.eqb_spec (bc_native_hash cfg) (nativeHash r)); cbn; case_decide; naive_solver.
Qed.

Lemma request_reads act r : identified -> runs r -> valid_utf8 act = true ->
  request_of (request_text act r) =
    if String.eqb act "quiesce" then Some Quiesce else if String.eqb act "resume" then Some Resume
    else if String.eqb act "status" then Some Status else None.
Proof.
  intros Hid (E1 & E2 & E3) Ha. destruct Hid as [H1%hex_utf8 H2%revision_utf8 H3%hex_utf8].
  set (v := JObj [("action", JStr act); ("native_sha256", JStr (nativeHash r)); ("revision", JStr (Revision (sr_snapshot r))); ("session", JStr (Session r))]).
  assert (valid v = true) as Hv by (rewrite E1 in H1; rewrite E2 in H2; rewrite E3 in H3; unfold v; members).
  unfold request_of, loads. change (request_text act r) with (marshal v). rewrite marshal_valid, parse_marshal by (done || (cbn; unfold max_nesting; lia)).
  unfold v. cbn [py_get String.eqb Ascii.eqb Bool.eqb is_str]. by rewrite E1, E2, E3, !String.eqb_refl.
Qed.
End Runtime.

(** A managed connector that started has an identity. *)
Lemma hash_hex s : hex_text 64 (sha256_hex s) = true.
Proof. apply sha256_hex_text. Qed.
#[local] Opaque sha256_hex.

Lemma from_env_identified read urlsplit env cfg : from_env read urlsplit env = Ok cfg -> bc_managed_session cfg <> "" -> identified cfg.
Proof.
  unfold from_env. intros H Hne. apply result_bind_ok in H as [c0 [_ H]]. apply result_bind_ok in H as [c1 [Hb H]].
  unfold load_session in H. guards H. apply result_bind_ok in H as [u [_ H]]. injection H as <-. cbn [bc_managed_session] in Hne.
  apply orb_true_iff in G as [G%String.eqb_eq|G]; [done|]. rewrite !andb_true_iff in G. destruct G as [[Hs Hp%negb_true_iff] _].
  unfold load_bundle in Hb. rewrite Hp in Hb. destruct (set_env env "BACNET_POINTS"); [done|]. destruct (read _) as [raw|]; [|done].
  destruct (loads raw) as [bundle|]; [|done]. apply result_bind_ok in Hb as [c [Hc Hb]]. injection Hb as <-.
  apply apply_sound in Hc as (_ & Hr & _). split; cbn; [done|done|apply hash_hex].
Qed.

(** C12: quiescing is a barrier, across the two programs.  Take any run of the
    connector's runtime, in any order of its coroutines, in which the gateway's
    quiesce request for a session is answered by the connector that runs it.  The
    gateway accepts the answer as a receipt.  When it says paused, no poll or
    write is under way at that point, and after it none begins until the gate is
    opened, which only a resume request for the same session, revision and bundle
    hash does. *)
Theorem quiesce_barrier cfg r tr1 reply tr2 rt : identified cfg -> runs cfg r ->
  steps cfg __init__ (tr1 ++ Replied (request_text "quiesce" r) reply :: tr2) rt ->
  exists paused, receipt_ok r reply = Ok paused /\
    (paused = true -> under_way tr1 = 0 /\
      forall mid rest, tr2 = mid ++ rest -> existsb opens mid = false -> existsb begins mid = false) /\
    forall d, Opened d ∈ tr1 ++ tr2 -> request_of cfg d = Some Resume.
Proof.
  intros Hid Hr Hs. pose proof (steps_split _ _ _ _ Hs _ _ _ eq_refl) as (pre & a & b & rest & rta & rtb & H1 & H2 & H3 & E1 & E2).
  pose proof (steps_asked _ _ _ _ H1 (init_asked cfg)) as Hq.
  destruct (quiesce_reply _ _ _ _ _ _ _ H2 Hq) as (-> & -> & Hl & -> & Ha); [by rewrite request_reads|].
  exists (negb (rt_active rta)). rewrite receipt_reads, decide_True by done. split_and!; [done| |].
  - intros Hp%negb_true_iff. cbn in E2. subst tr2. split.
    + apply steps_busy in H1. unfold busy in H1. rewrite Hl in H1. cbn in H1. subst tr1. rewrite app_nil_r. lia.
    + intros mid rest' E. eapply closed_prefix; [exact H3|exact E|by rewrite Ha].
  - intros d Hd. assert (Opened d ∈ tr1 ++ Replied (request_text "quiesce" r) (dumps (receipt cfg (rt_active rta))) :: tr2) as Hin by set_solver.
    apply list_elem_of_split in Hin as (x & y & E). destruct (steps_split _ _ _ _ Hs _ _ _ E) as (p & a & b & q & s & s' & G1 & G2 & _).
    eapply opened_asked; [exact G2|]. by eapply steps_asked; [exact G1|apply init_asked].
Qed.

(** a quiesce request can always be answered, whatever the connector is
    doing: from every state of the runtime the request, the end of the operation
    that holds the lock, and the flush lead to a receipt, and it says paused. *)
Theorem quiesce_answered cfg r rt : identified cfg -> runs cfg r ->
  exists tr rt' reply, steps cfg rt (tr ++ [Replied (request_text "quiesce" r) reply]) rt' /\ receipt_ok r reply = Ok true /\
    rt_active rt' = false /\ existsb begins tr = false.
Proof.
  intros Hid Hr. set (data := request_text "quiesce" r). set (i := fresh (dom (rt_waiting rt))).
  assert (rt_waiting rt !! i = None) as Hi by (apply not_elem_of_dom; apply is_fresh).
  set (rt1 := wait_for i (QuiesceWait data) (close_gate rt)).
  assert (step cfg rt [] rt1) as S1.
  { pose proof (StepControl cfg rt i data Hi) as S. unfold control in S.
    assert (request_of cfg data = Some Quiesce) as Hd by (unfold data; by rewrite request_reads). rewrite Hd in S. exact S. }
  assert (forall rt1, rt_waiting rt1 !! i = Some (QuiesceWait data) -> rt_lock rt1 = None -> rt_active rt1 = false ->
    exists rt', steps cfg rt1 [Replied data (dumps (receipt cfg false))] rt' /\ rt_active rt' = false) as Hfree.
  { intros x Hw Hl Ha. pose proof (StepAcquire cfg x i _ Hw Hl) as Sa. cbn in Sa.
    pose proof (StepRelease cfg (hold (Some (Flushing data)) (leave i x)) (Flushing data) true eq_refl) as Sr. cbn in Sr. rewrite Ha in Sr.
    eexists. split; [|shelve]. apply (StepsCons _ _ [] _ _ _ Sa). apply (StepsCons _ _ [_] _ [] _ Sr), StepsNil. Unshelve. exact Ha. }
  assert (rt_waiting rt1 !! i = Some (QuiesceWait data)) as Hw by apply lookup_insert_eq.
  assert (exists evs rt2, steps cfg rt1 evs rt2 /\ rt_waiting rt2 !! i = Some (QuiesceWait data) /\ rt_lock rt2 = None /\ rt_active rt2 = false /\
    existsb begins evs = false) as (evs & rt2 & S2 & Hw2 & Hl2 & Ha2 & Hb).
  { destruct (rt_lock rt1) as [h|] eqn:El; [|exists [], rt1; split_and!; [constructor|done..]].
    pose proof (StepRelease cfg rt1 h true El) as Sr. exists (snd (release cfg h true rt1) ++ []), (fst (release cfg h true rt1)).
    split_and!; [apply (StepsCons _ _ _ _ _ _ Sr), StepsNil|by destruct h..]. }
  destruct (Hfree _ Hw2 Hl2 Ha2) as (rt' & S3 & Ha3).
  exists evs, rt', (dumps (receipt cfg false)). split_and!; [|by rewrite receipt_reads, decide_True|done|done].
  apply (StepsCons _ _ [] _ _ _ S1). exact (steps_app _ _ _ _ _ _ S2 S3).
Qed.

Module BacnetRuntimeExample.
Import ClockConfigExample.
Definition record : sessionRecord :=
  {| RunClockID := ""; Session := BacnetConfigExample.id; sr_snapshot := snap; nativeHash := hex; sr_verified := false |}.
Definition cfg0 : bacnet_config :=
  {| bc_connector_id := "bac-1"; bc_nats_url := ""; bc_address := ""; bc_device_id := 7; bc_points := []; bc_poll_interval := Float.f64_of_Z 60;
     bc_local_address := ""; bc_default_priority := 8; bc_write_timeout := Float.f64_of_Z 10; bc_chunk_size := 20;
     bc_read_timeout := Float.f64_of_Z 5; bc_cov := false; bc_health_port := 8080; bc_clock_revision := Revision snap; bc_clocks := [];
     bc_managed_session := BacnetConfigExample.id; bc_native_hash := hex; bc_auth_file := "/run/auth" |}.

Lemma identified0 : identified cfg0.
Proof. split; vm_compute; reflexivity. Qed.
Lemma runs0 : runs cfg0 record.
Proof. done. Qed.

(** Resumed, polling when the quiesce arrives, quiet when it is answered. *)
Definition resume : string := request_text "resume" record.
Definition quiesce : string := request_text "quiesce" record.
Definition story : list event :=
  [Opened resume; Replied resume (dumps (receipt cfg0 true)); Begin; End; Replied quiesce (dumps (receipt cfg0 false)); Refused "x"].

Definition schedule : list move :=
  [MControl 0 resume; MAcquire 0; MRun false; MRun false; MRunLock; MControl 0 quiesce; MRelease true; MAcquire 0; MRelease true;
   MCommand 0 "x"; MAcquire 0].

Lemma story_runs : exists rt, steps cfg0 __init__ story rt.
Proof.
  assert (option_map snd (execs cfg0 schedule __init__) = Some story) as H by (vm_compute; reflexivity).
  destruct (execs cfg0 schedule __init__) as [[rt tr]|] eqn:E; [|done]. injection H as <-. exists rt. by apply (execs_steps _ schedule).
Qed.

Lemma quiesce_barrier_witness : exists rt, steps cfg0 __init__ story rt /\ under_way [Opened resume; Replied resume (dumps (receipt cfg0 true)); Begin; End] = 0.
Proof.
  destruct story_runs as [rt Hs]. exists rt. split; [exact Hs|].
  destruct (quiesce_barrier cfg0 record [Opened resume; Replied resume (dumps (receipt cfg0 true)); Begin; End]
    (dumps (receipt cfg0 false)) [Refused "x"] rt identified0 runs0 Hs) as (p & Hp & Hb & _).
  apply Hb. clear Hs Hb. assert (receipt_ok record (dumps (receipt cfg0 false)) = Ok true) as E by (vm_compute; reflexivity). congruence.
Defined.

Lemma quiesce_answered_witness : exists tr rt' reply, steps cfg0 __init__ (tr ++ [Replied quiesce reply]) rt' /\ receipt_ok record reply = Ok true.
Proof.
  destruct (quiesce_answered cfg0 record __init__ identified0 runs0) as (tr & rt' & reply & H1 & H2 & _). exists tr, rt', reply. split; assumption.
Defined.
End BacnetRuntimeExample.
