(* ===== verification/BacnetPoll.v ===== *)
(** * Polling of the BACnet connector

    [src/connector/bacnet/bacnet_connector/connector.py]: one poll cycle without
    clocks ([_poll_all]) and with them ([_read_clock], [_poll_with_clocks]), and
    [event.py]: the Common Event of a value.  The BACnet client, the wall clock
    and JetStream are the interface [Device].

    The theorems: the quality a clocked event carries is determined by the clock
    reads of the poll and of the connector's lifetime, and an event says
    [stable_unfenced] only when the clock was read, with one value, at every
    boundary of the poll and never went backwards; and every presentable value the
    device answered with is published, with its value and time, as an event the
    gateway's worker takes as one of its session. *)

From Stdlib Require Import ZArith Lia Bool Ascii String List SpecFloat.
From stdpp Require Import base list strings gmap.
From S2P Require Import Prelude Json GoText Sha256 Float GoTime Encoding Wire Python PointList Provisioning ClockConfig Normalizer RunLedger ClockWorker.
From S2P Require Import ClockGateway ClockRecovery ClockText BacnetConfig BacnetRuntime.
#[local] Open Scope string_scope.
#[local] Open Scope list_scope.
#[local] Open Scope Z_scope.

(** ** Events *)

Inductive py_value := PFloat (x : spec_float) | PStr (s : string) | PBool (b : bool).

Definition py_value_json (v : py_value) : option json :=
  match v with PFloat x => py_float_json x | PStr s => Some (JStr s) | PBool b => Some (JBool b) end.

(** [make_event]. *)
Definition make_event (connector_id local_id device_ref : string) (value : py_value) (unit_ quality : string)
  (attributes : option (list (string * string))) (timestamp : string) : option string :=
  option_map (fun v =>
    dumps (JObj ([("protocol", JStr "bacnet"); ("connector_id", JStr connector_id); ("local_id", JStr local_id); ("device_ref", JStr device_ref);
                  ("value", v); ("unit", JStr unit_); ("quality", JStr quality); ("timestamp", JStr timestamp)]
                 ++ match attributes with Some l => [("attributes", JObj (map (fun kv => (fst kv, JStr (snd kv))) l))] | None => [] end)))
    (py_value_json value).

Definition bacnet_quality (status : option string) : string :=
  match status with
  | None => "Good"
  | Some s =>
    let s := to_lower s in
    if contains_str s "no-error" || String.eqb s "" then "Good"
    else if contains_str s "comm-failure" || contains_str s "unreachable" || contains_str s "timeout" then "Bad"
    else "Uncertain"
  end.

(** ** The device *)

(** A row of a reply: object, value, status. *)
Definition row : Type := string * option py_value * option string.

Record message := { ms_subject : string; ms_data : string; ms_headers : list (string * string) }.

(** [read_property_multiple] within its timeout, [None] when it raises; the UTC
    time in microseconds and the monotonic clock; a publication, which may
    raise. *)
Class Device (W : Type) := {
  read_multiple : W -> list (string * string) -> W * option (list row);
  utc_now : W -> W * Z;
  monotonic : W -> W * spec_float;
  js_publish : W -> message -> W * bool
}.

(** What a connector keeps between polls. *)
Record poller := {
  p_healthy : bool; p_last_clock : gmap string spec_float; p_reset_clocks : gset string; p_last_bad : gmap string spec_float
}.
Definition new_poller : poller := {| p_healthy := false; p_last_clock := ∅; p_reset_clocks := ∅; p_last_bad := ∅ |}.

Section Poll.
  Context {W : Type} `{Device W} (cfg : bacnet_config).
  Implicit Types (w : W) (p : poller).

Definition is_read (pt : py_point) : bool := match py_release_of pt with Some r => String.eqb r "" | None => true end.
Definition read_points : list py_point := List.filter is_read (bc_points cfg).
Definition point_map (id : string) : option py_point := find (fun pt => String.eqb (py_local_id pt) id) (rev read_points).
Definition subject : string := "evt.bacnet." +:+ bc_connector_id cfg.

(** Slices of at most [n] of a list; [n] is positive. *)
Fixpoint slices {A} (fuel n : nat) (l : list A) : list (list A) :=
  match fuel, l with
  | O, _ | _, [] => []
  | S fuel, _ => take n l :: slices fuel n (drop n l)
  end.
Definition chunks : list (list py_point) := slices (length read_points) (Z.to_nat (bc_chunk_size cfg)) read_points.

(** [_warn_bad_value]: the last warning of a point, at most one per window. *)
Definition warn_window : spec_float := f64_of_Z 300.
Definition warn_bad_value (id : string) (w : W) (p : poller) : W * poller :=
  let '(w, now) := monotonic w in
  match p_last_bad p !! id with
  | Some last => if fltb (fsub now last) warn_window then (w, p) else (w, {| p with p_last_bad := <[id := now]> (p_last_bad p) |})
  | None => (w, {| p with p_last_bad := <[id := now]> (p_last_bad p) |})
  end.

(** [_publish]; an event that cannot be published is dropped. *)
Definition message_of (pt : py_point) (value : py_value) (quality : string) (attributes : option (list (string * string))) (timestamp : string)
  (interval : option (string * string)) : option message :=
  option_map (fun data =>
    {| ms_subject := subject; ms_data := data;
       ms_headers :=
         if String.eqb (bc_managed_session cfg) "" then []
         else [("Nexus-Session", bc_managed_session cfg); ("Nexus-Config-Revision", bc_clock_revision cfg)]
              ++ match interval with Some (s, e) => [("Nexus-Poll-Started-At", s); ("Nexus-Poll-Ended-At", e)] | None => [] end |})
    (make_event (bc_connector_id cfg) (py_local_id pt) (py_device_ref pt) value (py_unit pt) quality attributes timestamp).

Definition publish (w : W) (m : option message) : W * list message :=
  match m with Some m => (fst (js_publish w m), [m]) | None => (w, []) end.

(** ** A poll without clocks *)

Fixpoint plain_rows (rows : list row) (w : W) (p : poller) : W * poller * list message :=
  match rows with
  | [] => (w, p, [])
  | (id, value, status) :: rows =>
    match point_map id, value with
    | None, _ => plain_rows rows w p
    | Some pt, None => let '(w, p) := warn_bad_value (py_local_id pt) w p in plain_rows rows w p
    | Some pt, Some v =>
      let '(w, now) := utc_now w in
      let '(w, sent) := publish w (message_of pt v (bacnet_quality status) None (iso_seconds now) None) in
      let '(w, p, more) := plain_rows rows w p in (w, p, sent ++ more)
    end
  end.

Definition request (pts : list py_point) : list (string * string) := map (fun pt => (py_local_id pt, "presentValue")) pts.

Fixpoint plain_chunks (l : list (list py_point)) (w : W) (p : poller) (ok : bool) : W * poller * bool * list message :=
  match l with
  | [] => (w, p, ok, [])
  | c :: l =>
    match read_multiple w (request c) with
    | (w, None) => plain_chunks l w p ok
    | (w, Some rows) =>
      let '(w, p, sent) := plain_rows rows w p in
      let '(w, p, ok, more) := plain_chunks l w p true in (w, p, ok, sent ++ more)
    end
  end.

(** ** A poll with clocks *)

(** One property of the clock object. *)
Definition clock_row (c : py_clock) (rows : option (list row)) : option (option py_value) :=
  match rows with
  | Some [(id, v, status)] => if String.eqb id (pk_local_id c) && String.eqb (bacnet_quality status) "Good" then Some v else None
  | _ => None
  end.

Definition seconds_unit (u : option py_value) : bool :=
  match u with Some (PStr s) => String.eqb s "seconds" | Some (PFloat x) => feqb x (f64_of_Z 73) | _ => false end.

Definition clock_value (v u : option py_value) : option spec_float :=
  if negb (seconds_unit u) then None
  else match v with Some (PFloat x) => if f64_finite x && negb (fltb x (S754_zero false)) then Some x else None | _ => None end.

Definition read_clock (w : W) (c : py_clock) : W * option spec_float :=
  let '(w, r) := read_multiple w [(pk_local_id c, pk_property c)] in
  match clock_row c r with
  | None => (w, None)
  | Some v =>
    let '(w, r) := read_multiple w [(pk_local_id c, "units")] in
    match clock_row c r with None => (w, None) | Some u => (w, clock_value v u) end
  end.

(** What a read says of its clock. *)
Definition note_clock (id : string) (v : option spec_float) (p : poller) : poller :=
  match v with
  | None => p
  | Some x =>
    let back := match p_last_clock p !! id with Some prev => fltb x prev | None => false end in
    {| p with p_last_clock := <[id := x]> (p_last_clock p);
              p_reset_clocks := if back then {[id]} ∪ p_reset_clocks p else p_reset_clocks p |}
  end.

(** Clock reads in order. *)
Definition reads : Type := list (string * option spec_float).

Fixpoint boundary (cs : list py_clock) (w : W) (p : poller) : W * poller * reads :=
  match cs with
  | [] => (w, p, [])
  | c :: cs =>
    let '(w, v) := read_clock w c in
    let '(w, p, log) := boundary cs w (note_clock (pk_clock_id c) v p) in
    (w, p, (pk_clock_id c, v) :: log)
  end.

(** A value waiting for the end of the poll. *)
Record pending := { pd_point : py_point; pd_value : py_value; pd_quality : string; pd_at : string }.

Fixpoint clocked_rows (ids : list string) (at_ : string) (rows : list row) (w : W) (p : poller) : W * poller * list pending :=
  match rows with
  | [] => (w, p, [])
  | (id, value, status) :: rows =>
    if negb (existsb (String.eqb id) ids) then clocked_rows ids at_ rows w p
    else
      match value with
      | None => let '(w, p) := warn_bad_value id w p in clocked_rows ids at_ rows w p
      | Some v =>
        let '(w, p, l) := clocked_rows ids at_ rows w p in
        match point_map id with
        | Some pt => (w, p, {| pd_point := pt; pd_value := v; pd_quality := bacnet_quality status; pd_at := at_ |} :: l)
        | None => (w, p, l)
        end
      end
  end.

Definition clocked_chunk (c : list py_point) (w : W) (p : poller) : W * poller * list pending :=
  match read_multiple w (request c) with
  | (w, None) => (w, p, [])
  | (w, Some rows) => let '(w, now) := utc_now w in clocked_rows (map py_local_id c) (iso_micro now) rows w p
  end.

Fixpoint clocked_chunks (l : list (list py_point)) (w : W) (p : poller) : W * poller * list pending * reads :=
  match l with
  | [] => (w, p, [], [])
  | c :: l =>
    let '(w, p, got) := clocked_chunk c w p in
    let '(w, p, log) := boundary (bc_clocks cfg) w p in
    let '(w, p, more, log') := clocked_chunks l w p in
    (w, p, got ++ more, log ++ log')
  end.

Definition samples (log : reads) (id : string) : list (option spec_float) := map snd (List.filter (fun r => String.eqb (fst r) id) log).

Definition time_quality (p : poller) (log : reads) (c : py_clock) : string :=
  let values := samples log (pk_clock_id c) in
  if bool_decide (pk_clock_id c ∈ p_reset_clocks p) then "reset"
  else if existsb (fun v => match v with None => true | Some _ => false end) values then "missing"
  else if existsb (fun v => match v, values with Some x, Some y :: _ => negb (feqb x y) | _, _ => false end) values then "changed"
  else "stable_unfenced".

(** The attributes of a clock's points; [None] only as in [py_repr]. *)
Definition clock_attrs (p : poller) (log : reads) (c : py_clock) : option (list (string * string)) :=
  let quality := time_quality p log c in
  let attrs := [("sim_clock_id", pk_clock_id c); ("sim_config_revision", bc_clock_revision cfg); ("sim_time_quality", quality);
                ("sim_run_status", "absent")] in
  if String.eqb quality "stable_unfenced" then
    match samples log (pk_clock_id c) with
    | Some x :: _ => option_map (fun t => attrs ++ [("sim_time_s", t)]) (py_repr x)
    | _ => None
    end
  else Some attrs.

(** The clock whose attributes a point gets. *)
Definition clock_of_point (id : string) : option py_clock := find (fun c => existsb (String.eqb id) (pk_points c)) (rev (bc_clocks cfg)).

Definition event_of (p : poller) (log : reads) (interval : string * string) (d : pending) : option message :=
  let send a := message_of (pd_point d) (pd_value d) (pd_quality d) a (pd_at d) (Some interval) in
  match clock_of_point (py_local_id (pd_point d)) with
  | None => send None
  | Some c => match clock_attrs p log c with Some a => send (Some a) | None => None end
  end.

Fixpoint publish_all (ms : list (option message)) (w : W) : W * list message :=
  match ms with
  | [] => (w, [])
  | m :: ms => let '(w, sent) := publish w m in let '(w, more) := publish_all ms w in (w, sent ++ more)
  end.

(** A poll and what it did: its clock reads, its values, its interval and what
    it sent. *)
Record polled := { po_reads : reads; po_pending : list pending; po_interval : string * string; po_sent : list message }.

Definition poll_with_clocks (w : W) (p : poller) : W * poller * polled :=
  let '(w, started) := utc_now w in
  let '(w, p, log) := boundary (bc_clocks cfg) w p in
  let '(w, p, got, log') := clocked_chunks chunks w p in
  let '(w, ended) := utc_now w in
  let log := log ++ log' in
  let interval := (iso_micro started, iso_micro ended) in
  let '(w, sent) := publish_all (map (event_of p log interval) got) w in
  (w, {| p with p_healthy := match got with [] => false | _ => true end |},
   {| po_reads := log; po_pending := got; po_interval := interval; po_sent := sent |}).

(** [_poll_all]. *)
Definition poll_all (w : W) (p : poller) : W * poller * polled :=
  let none sent := {| po_reads := []; po_pending := []; po_interval := ("", ""); po_sent := sent |} in
  match bc_clocks cfg, read_points with
  | _ :: _, _ => poll_with_clocks w p
  | [], [] => (w, {| p with p_healthy := true |}, none [])
  | [], _ => let '(w, p, ok, sent) := plain_chunks chunks w p false in (w, {| p with p_healthy := ok |}, none sent)
  end.

(** The polls of a lifetime. *)
Fixpoint polls (n : nat) (w : W) (p : poller) : W * poller * list polled :=
  match n with
  | O => (w, p, [])
  | S n => let '(w, p, o) := poll_all w p in let '(w, p, os) := polls n w p in (w, p, o :: os)
  end.
End Poll.

(** ** The clocks of a lifetime *)

(** The values a clock gave, and whether one was less than the one before. *)
Definition values (log : reads) (id : string) : list spec_float := omap (fun v => v) (samples log id).
Fixpoint went_back (l : list spec_float) : bool :=
  match l with
  | x :: l => match l with y :: _ => fltb y x || went_back l | [] => false end
  | [] => false
  end.

(** What the poller knows is what was read. *)
Definition noted (p : poller) (log : reads) : Prop :=
  forall id, p_last_clock p !! id = last (values log id) /\ (id ∈ p_reset_clocks p <-> went_back (values log id) = true).

Lemma samples_app a b id : samples (a ++ b) id = samples a id ++ samples b id.
Proof. unfold samples. by rewrite List.filter_app, map_app. Qed.
Lemma values_app a b id : values (a ++ b) id = values a id ++ values b id.
Proof. unfold values. by rewrite samples_app, omap_app. Qed.

Lemma went_back_snoc l x : went_back (l ++ [x]) = went_back l || match last l with Some y => fltb x y | None => false end.
Proof.
  induction l as [|a [|b l] IH]; [done|cbn; by rewrite orb_false_r|]. cbn [app went_back] in *. rewrite IH. cbn [last]. by rewrite orb_assoc.
Qed.

Lemma note_noted id v p log : noted p log -> noted (note_clock id v p) (log ++ [(id, v)]).
Proof.
  intros Hn k. destruct (Hn k) as [Hl Hr]. rewrite values_app. unfold values at 2 4, samples. cbn [List.filter fst].
  destruct (String.eqb_spec id k) as [->|Hne].
  - destruct v as [x|]; cbn; [|by rewrite app_nil_r]. rewrite last_snoc, lookup_insert_eq. split; [done|].
    rewrite went_back_snoc, Hl, orb_true_iff. destruct (match last _ with Some _ => _ | None => _ end) eqn:E.
    + split; [by right|set_solver].
    + rewrite Hr. naive_solver.
  - cbn. rewrite app_nil_r. destruct v as [x|]; cbn; [|done]. rewrite lookup_insert_ne by done. split; [done|]. rewrite <- Hr.
    destruct (match p_last_clock p !! id with Some _ => _ | None => _ end); set_solver.
Qed.

Definition same_clocks (p p' : poller) : Prop := p_last_clock p' = p_last_clock p /\ p_reset_clocks p' = p_reset_clocks p.
Lemma same_noted p p' log : same_clocks p p' -> noted p log -> noted p' log.
Proof. intros [E1 E2] Hn id. rewrite E1, E2. apply Hn. Qed.
Lemma same_clocks_trans p p' p'' : same_clocks p p' -> same_clocks p' p'' -> same_clocks p p''.
Proof. intros [] []. split; congruence. Qed.

Section Clocked.
  Context {W : Type} `{Device W} (cfg : bacnet_config).

Lemma boundary_spec cs : forall w p w' p' log h, boundary cs w p = (w', p', log) -> noted p h -> noted p' (h ++ log) /\ map fst log = map pk_clock_id cs.
Proof.
  induction cs as [|c cs IH]; intros w p w' p' log h E Hn; cbn in E; [injection E as <- <- <-; by rewrite app_nil_r|].
  destruct (read_clock w c) as [w1 v]. destruct (boundary cs w1 _) as [[w2 p2] l] eqn:Eb. injection E as <- <- <-.
  destruct (IH _ _ _ _ _ (h ++ [(pk_clock_id c, v)]) Eb (note_noted _ _ _ _ Hn)) as [H1 H2]. rewrite <- (assoc_L app) in H1. cbn. by rewrite H2.
Qed.

Lemma warn_same id w p w' p' : warn_bad_value id w p = (w', p') -> same_clocks p p'.
Proof.
  unfold warn_bad_value. destruct (monotonic w) as [w1 now]. destruct (p_last_bad p !! id) as [l|]; [destruct (fltb _ _)|]; intros [= <- <-]; done.
Qed.

Lemma clocked_rows_same ids at_ rows : forall w p w' p' l, clocked_rows cfg ids at_ rows w p = (w', p', l) -> same_clocks p p'.
Proof.
  induction rows as [|[[id v] st] rows IH]; intros w p w' p' l E; cbn in E; [by injection E as <- <- <-|].
  destruct (negb _); [by eapply IH|]. destruct v as [v|].
  - destruct (clocked_rows cfg ids at_ rows w p) as [[w1 p1] l1] eqn:Er. assert (p1 = p') as <- by (destruct (point_map cfg id); congruence). by eapply IH.
  - destruct (warn_bad_value id w p) as [w1 p1] eqn:Ew. apply warn_same in Ew. eapply same_clocks_trans; [exact Ew|]. by eapply IH.
Qed.

Lemma clocked_chunk_same c w p w' p' l : clocked_chunk cfg c w p = (w', p', l) -> same_clocks p p'.
Proof.
  unfold clocked_chunk. destruct (read_multiple w (request c)) as [w1 [rows|]]; [|by intros [= <- <- <-]].
  destruct (utc_now w1) as [w2 now]. apply clocked_rows_same.
Qed.

(** Each clock is read once at every boundary. *)
Definition once (ids : list string) (n : nat) (log : reads) : Prop := forall id, id ∈ ids -> length (samples log id) = n.

Lemma once_ids log ids : map fst log = ids -> NoDup ids -> once ids 1 log.
Proof.
  intros <- Hn id Hin. unfold samples. rewrite length_map. induction log as [|[k v] log IH]; [by apply elem_of_nil in Hin|].
  cbn in Hn, Hin |- *. apply NoDup_cons in Hn as [Hk Hn]. destruct (String.eqb_spec k id) as [->|Hne].
  - cbn. f_equal. assert (forall l, id ∉ map fst l -> List.filter (fun r : string * option spec_float => String.eqb (fst r) id) l = []) as Hf; [|by rewrite Hf].
    induction l as [|[a b] l IHl]; [done|]. cbn. intros [Ha Hl]%not_elem_of_cons. destruct (String.eqb_spec a id); [congruence|auto].
  - apply elem_of_cons in Hin as [->|Hin]; [done|]. by apply IH.
Qed.

Lemma clocked_chunks_spec l : forall w p w' p' got log h, clocked_chunks cfg l w p = (w', p', got, log) -> noted p h ->
  noted p' (h ++ log) /\ (NoDup (map pk_clock_id (bc_clocks cfg)) -> once (map pk_clock_id (bc_clocks cfg)) (length l) log).
Proof.
  induction l as [|c l IH]; intros w p w' p' got log h E Hn; cbn in E.
  { injection E as <- <- <- <-. rewrite app_nil_r. split; [done|]. by intros _ id _. }
  destruct (clocked_chunk cfg c w p) as [[w1 p1] g1] eqn:E1. apply clocked_chunk_same in E1. apply (same_noted _ _ _ E1) in Hn.
  destruct (boundary _ w1 p1) as [[w2 p2] l2] eqn:E2. destruct (boundary_spec _ _ _ _ _ _ _ E2 Hn) as [Hn2 Hids].
  destruct (clocked_chunks cfg l w2 p2) as [[[w3 p3] g3] l3] eqn:E3. injection E as <- <- <- <-.
  destruct (IH _ _ _ _ _ _ _ E3 Hn2) as [Hn3 Ho]. rewrite <- (assoc_L app) in Hn3. split; [done|]. intros Hd id Hin.
  rewrite samples_app, length_app, (once_ids _ _ Hids Hd) by done. cbn. f_equal. by apply Ho.
Qed.

Lemma publish_all_omap ms : forall w w' sent, publish_all ms w = (w', sent) -> sent = omap (fun m => m) ms.
Proof.
  induction ms as [|m ms IH]; intros w w' sent E; cbn in E; [by injection E as <- <-|].
  destruct (publish w m) as [w1 s1] eqn:Ep. destruct (publish_all ms w1) as [w2 s2] eqn:Ea. injection E as <- <-. apply IH in Ea as ->.
  destruct m as [m|]; cbn in Ep; [|by injection Ep as <- <-]. destruct (js_publish w m). by injection Ep as <- <-.
Qed.

(** What an event of a clock says, given the values [vs] of the clock's
    lifetime and its reads [ss] in this poll. *)
Definition quality_of (vs : list spec_float) (ss : list (option spec_float)) : string :=
  if went_back vs then "reset"
  else if existsb (fun v => match v with None => true | Some _ => false end) ss then "missing"
  else if existsb (fun v => match v, ss with Some x, Some y :: _ => negb (feqb x y) | _, _ => false end) ss then "changed"
  else "stable_unfenced".

(** The attributes of an event of clock [c]: a time only with a stable clock,
    which was read at every boundary with that value and never went back. *)
Record clocked_as (c : py_clock) (vs : list spec_float) (ss : list (option spec_float)) (attrs : list (string * string)) : Prop := {
  ca_quality : exists time, attrs = [("sim_clock_id", pk_clock_id c); ("sim_config_revision", bc_clock_revision cfg);
    ("sim_time_quality", quality_of vs ss); ("sim_run_status", "absent")] ++ time /\
    if String.eqb (quality_of vs ss) "stable_unfenced"
    then exists x s, time = [("sim_time_s", s)] /\ py_repr x = Some s /\ went_back vs = false /\
      length ss = S (length (chunks cfg)) /\ Forall (fun v => exists y, v = Some y /\ feqb y x = true) ss
    else time = []
}.

Lemma stable_reads vs ss : quality_of vs ss = "stable_unfenced" -> went_back vs = false /\
  forall x rest, ss = Some x :: rest -> Forall (fun v => exists y, v = Some y /\ feqb y x = true) ss.
Proof.
  unfold quality_of. destruct (went_back vs); [done|]. destruct (existsb _ ss) eqn:Em; [done|].
  match goal with |- context [if existsb ?f ss then _ else _] => destruct (existsb f ss) eqn:Ec end; [done|]. intros _. split; [done|].
  intros x rest E. apply Forall_forall. intros v Hv%list_elem_of_In.
  assert (forall f, existsb f ss = false -> f v = false) as Hf.
  { intros f Hf. destruct (f v) eqn:Ev; [|done]. assert (existsb f ss = true) as Hx; [|congruence]. apply existsb_exists. eauto. }
  pose proof (Hf _ Em) as Hm. pose proof (Hf _ Ec) as Hc. cbn in Hm, Hc. destruct v as [y|]; [|done]. rewrite E in Hc. exists y. split; [done|].
  by apply negb_false_iff in Hc.
Qed.

Lemma time_quality_spec p h log c : noted p h -> time_quality p log c = quality_of (values h (pk_clock_id c)) (samples log (pk_clock_id c)).
Proof.
  intros Hn. unfold time_quality, quality_of. destruct (Hn (pk_clock_id c)) as [_ Hr].
  destruct (went_back (values h (pk_clock_id c))); [by rewrite bool_decide_eq_true_2 by (by apply Hr)|].
  rewrite bool_decide_eq_false_2; [done|]. intros Hin. by apply Hr in Hin.
Qed.

Lemma clock_attrs_spec' p h log c a : noted p h -> length (samples log (pk_clock_id c)) = S (length (chunks cfg)) ->
  clock_attrs cfg p log c = Some a -> clocked_as c (values h (pk_clock_id c)) (samples log (pk_clock_id c)) a.
Proof.
  intros Hn Hl. unfold clock_attrs. rewrite (time_quality_spec p h) by done. cbv zeta.
  set (q := quality_of _ _). destruct (String.eqb q "stable_unfenced") eqn:Eq.
  - apply String.eqb_eq in Eq. destruct (stable_reads _ _ Eq) as [Hw Hs].
    destruct (samples log (pk_clock_id c)) as [|[x|] rest] eqn:Es; try done. destruct (py_repr x) as [s|] eqn:Er; [|done]. intros [= <-].
    split. exists [("sim_time_s", s)]. fold q. rewrite Eq. split; [done|]. exists x, s. split_and!; try done. by eapply Hs.
  - intros [= <-]. split. exists []. fold q. rewrite Eq. split; [by rewrite app_nil_r|done].
Qed.

(** A message of a clocked poll. *)
Definition poll_message (h : reads) (o : polled) (m : message) : Prop :=
  exists d, d ∈ po_pending o /\
    let send a := message_of cfg (pd_point d) (pd_value d) (pd_quality d) a (pd_at d) (Some (po_interval o)) in
    match clock_of_point cfg (py_local_id (pd_point d)) with
    | None => send None = Some m
    | Some c => exists attrs, send (Some attrs) = Some m /\
        clocked_as c (values h (pk_clock_id c)) (samples (po_reads o) (pk_clock_id c)) attrs
    end.

Lemma clock_of_point_in id c : clock_of_point cfg id = Some c -> c ∈ bc_clocks cfg /\ id ∈ pk_points c.
Proof.
  intros [Hin Hx]%find_some. rewrite <- in_rev in Hin. apply existsb_exists in Hx as (y & Hy & ->%String.eqb_eq).
  by rewrite !list_elem_of_In.
Qed.

Lemma poll_with_clocks_spec w p w' p' o h : NoDup (map pk_clock_id (bc_clocks cfg)) -> noted p h ->
  poll_with_clocks cfg w p = (w', p', o) -> noted p' (h ++ po_reads o) /\ Forall (poll_message (h ++ po_reads o) o) (po_sent o).
Proof.
  intros Hd Hn E. unfold poll_with_clocks in E. destruct (utc_now w) as [w0 started].
  destruct (boundary _ w0 p) as [[w1 p1] l1] eqn:E1. destruct (boundary_spec _ _ _ _ _ _ _ E1 Hn) as [Hn1 Hids].
  destruct (clocked_chunks cfg _ w1 p1) as [[[w2 p2] got] l2] eqn:E2. destruct (clocked_chunks_spec _ _ _ _ _ _ _ _ E2 Hn1) as [Hn2 Ho].
  destruct (utc_now w2) as [w3 ended]. destruct (publish_all _ w3) as [w4 sent] eqn:E4. injection E as <- <- <-.
  cbn [po_reads po_sent]. rewrite <- (assoc_L app) in Hn2. split; [by eapply same_noted; [|exact Hn2]|].
  apply publish_all_omap in E4 as ->. apply Forall_forall. intros m (om & (d & -> & Hdm)%list_elem_of_fmap & Hm)%list_elem_of_omap.
  exists d. split; [done|]. cbn [po_interval po_reads]. unfold event_of in Hm. destruct (clock_of_point cfg _) as [c|] eqn:Ec; [|done].
  destruct (clock_attrs cfg p2 (l1 ++ l2) c) as [a|] eqn:Ea; [|done]. exists a. split; [done|].
  apply clock_of_point_in in Ec as [Hc _]. apply (clock_attrs_spec' p2 (h ++ l1 ++ l2)); [done| |done].
  assert (pk_clock_id c ∈ map pk_clock_id (bc_clocks cfg)) as Hin by (apply list_elem_of_fmap; eauto).
  rewrite samples_app, length_app, (once_ids _ _ Hids Hd), (Ho Hd) by done. done.
Qed.

Lemma polls_spec n : forall w p w' p' os h, bc_clocks cfg <> [] -> NoDup (map pk_clock_id (bc_clocks cfg)) -> noted p h ->
  polls cfg n w p = (w', p', os) ->
  forall before o after, os = before ++ o :: after -> Forall (poll_message (h ++ List.concat (map po_reads (before ++ [o]))) o) (po_sent o).
Proof.
  induction n as [|n IH]; intros w p w' p' os h Hne Hd Hn E before o after Eo; cbn in E; [injection E as <- <- <-; by destruct before|].
  assert (forall w p, poll_all cfg w p = poll_with_clocks cfg w p) as Hp by (intros; unfold poll_all; by destruct (bc_clocks cfg)).
  rewrite Hp in E. destruct (poll_with_clocks cfg w p) as [[w1 p1] o1] eqn:E1.
  destruct (poll_with_clocks_spec _ _ _ _ _ _ Hd Hn E1) as [Hn1 Hm]. destruct (polls cfg n w1 p1) as [[w2 p2] os2] eqn:E2. injection E as <- <- <-.
  destruct before as [|b before].
  - injection Eo as <- <-. cbn. by rewrite app_nil_r.
  - injection Eo as <- Eo. cbn. rewrite (assoc_L app). by eapply IH.
Qed.
End Clocked.

Lemma noted_new : noted new_poller [].
Proof. done. Qed.

(** C18: what a clocked event says of its clock.  Over any number of polls of a
    connector with clocks, every event of a point of a clock carries the clock's
    identifier, the configuration revision and a time quality that the clock's
    reads alone determine: reset when some value the clock gave since the connector
    started was less than the one before, else missing when a boundary of this poll
    gave none, else changed when two boundaries differ, else stable.  A time is
    given exactly for a stable clock: it is the one value read at every boundary,
    before the first chunk and after each.  A point without a clock carries no
    clock attributes at all. *)
Theorem clock_quality {W} `{Device W} (cfg : bacnet_config) (n : nat) (w w' : W) (p' : poller) (os before after : list polled) (o : polled) :
  clocks_sound (map py_local_id (bc_points cfg)) (bc_clocks cfg) -> bc_clocks cfg <> [] ->
  polls cfg n w new_poller = (w', p', os) -> os = before ++ o :: after ->
  Forall (poll_message cfg (List.concat (map po_reads (before ++ [o]))) o) (po_sent o).
Proof. intros Hs Hne E. apply (polls_spec cfg n w new_poller w' p' os [] Hne (so_ids _ _ Hs) noted_new E). Qed.

(** ** The gateway takes the events *)

Definition go_value (v : py_value) : Value := match v with PFloat x => NumberValue x | PStr s => StringValue s | PBool b => BoolValue b end.

(** A value both programs can write: a finite number or valid text. *)
Definition value_ok (v : py_value) : Prop :=
  match v with PFloat x => f64_finite x = true /\ is_Some (format_f64 x) | PStr s => valid_utf8 s = true | PBool _ => True end.

Lemma value_crosses v j : value_ok v -> py_value_json v = Some j -> value_unjson j = Some (go_value v) /\ valid j = true /\ depth_of j <= 0.
Proof.
  destruct v as [x|s|b]; cbn [value_ok py_value_json go_value].
  - intros [Hf _] E. destruct (py_float_reads _ _ E Hf) as (lit & -> & Hv & Hp). cbn. rewrite Hp, Hf. split_and!; [done|done|lia].
  - intros Hs [= <-]. cbn. split_and!; [done|done|lia].
  - intros _ [= <-]. cbn. split_and!; [done|done|lia].
Qed.

Lemma value_writes v : value_ok v -> is_Some (value_json (go_value v)).
Proof. destruct v as [x|s|b]; cbn; [|done|done]. intros [-> [lit ->]]. done. Qed.

Definition attrs_map (a : option (list (string * string))) : gmap string string := match a with Some l => list_to_map l | None => ∅ end.
Definition attrs_ok (a : option (list (string * string))) : Prop :=
  match a with Some l => NoDup l.*1 /\ Forall (fun kv => valid_utf8 (fst kv) = true /\ valid_utf8 (snd kv) = true) l | None => True end.

Lemma attrs_valid l : Forall (fun kv => valid_utf8 (fst kv) = true /\ valid_utf8 (snd kv) = true) l ->
  valid (JObj (map (fun kv => (fst kv, JStr (snd kv))) l)) = true /\ depth_of (JObj (map (fun kv => (fst kv, JStr (snd kv))) l)) <= 1.
Proof.
  intros Hl. split; [|apply depth_flat, List.Forall_forall; intros kv (x & <- & _)%in_map_iff; cbn; lia].
  induction Hl as [|[k v] l [Hk Hv] _ IH]; [done|]. cbn [map fst snd] in *. by apply member_valid.
Qed.

Lemma make_event_decodes conn local dev v unit_ q a ts data : make_event conn local dev v unit_ q a ts = Some data ->
  value_ok v -> attrs_ok a -> Forall utf8 [conn; local; dev; unit_; q; ts] ->
  event_unjson data = Some (mkEvent "bacnet" conn local dev (go_value v) unit_ q ts (attrs_map a)).
Proof.
  unfold make_event. destruct (py_value_json v) as [j|] eqn:Ej; [|done]. intros [= <-] Hv Ha Hs.
  destruct (value_crosses _ _ Hv Ej) as (Ev & Hj & Hd). rewrite !Forall_cons in Hs. destruct Hs as (H1 & H2 & H3 & H4 & H5 & H6 & _).
  unfold event_unjson. rewrite parse_dumps.
  - cbn [app decode_struct]. repeat (erewrite decode_member; [|cbn; tauto|cbn; try rewrite Ev; reflexivity]). destruct a as [l|]; [|done].
    destruct Ha as [Hn _]. erewrite decode_member; [|cbn; tauto|cbn -[map_members]; rewrite map_members_fold, fold_insert_map by done; reflexivity]. done.
  - destruct a as [l|]; cbn [app]; members. destruct Ha as [_ Ha]. by apply attrs_valid.
  - destruct a as [l|]; cbn [app].
    + destruct Ha as [_ Ha]. apply attrs_valid in Ha as [_ Ha]. set (al := JObj (map _ l)) in *. clearbody al. cbn [depth_of fold_right snd].
      unfold max_nesting. lia.
    + cbn [depth_of fold_right snd]. unfold max_nesting. lia.
Qed.

(** *** The values of a poll are of its points *)

Definition of_poll (cfg : bacnet_config) (d : pending) : Prop :=
  pd_point d ∈ bc_points cfg /\ (exists t, pd_at d = iso_micro t) /\ utf8 (pd_quality d).

Lemma quality_utf8 s : utf8 (bacnet_quality s).
Proof. destruct s as [s|]; [|done]. unfold bacnet_quality. by repeat case_if. Qed.

Lemma point_map_in cfg id pt : point_map cfg id = Some pt -> pt ∈ bc_points cfg /\ py_local_id pt = id.
Proof.
  intros [Hin Hid%String.eqb_eq]%find_some. rewrite <- in_rev in Hin. unfold read_points in Hin.
  apply list_elem_of_In, elem_of_filter_In in Hin as [Hin _]. done.
Qed.

Section Pending.
  Context {W : Type} `{Device W} (cfg : bacnet_config).

Lemma clocked_rows_of ids t rows : forall w p w' p' l, clocked_rows cfg ids (iso_micro t) rows w p = (w', p', l) -> Forall (of_poll cfg) l.
Proof.
  induction rows as [|[[id v] st] rows IH]; intros w p w' p' l E; cbn in E; [injection E as <- <- <-; constructor|].
  destruct (negb _); [by eapply IH|]. destruct v as [v|]; [|destruct (warn_bad_value id w p); by eapply IH].
  destruct (clocked_rows cfg ids (iso_micro t) rows w p) as [[w1 p1] l1] eqn:Er. apply IH in Er.
  destruct (point_map cfg id) as [pt|] eqn:Ep; injection E as <- <- <-; [|done]. apply point_map_in in Ep as [Hp _].
  constructor; [|done]. split_and!; cbn; [done|eauto|apply quality_utf8].
Qed.

Lemma clocked_chunks_of l : forall w p w' p' got log, clocked_chunks cfg l w p = (w', p', got, log) -> Forall (of_poll cfg) got.
Proof.
  induction l as [|c l IH]; intros w p w' p' got log E; cbn in E; [injection E as <- <- <- <-; constructor|].
  destruct (clocked_chunk cfg c w p) as [[w1 p1] g1] eqn:E1. destruct (boundary _ w1 p1) as [[w2 p2] l2].
  destruct (clocked_chunks cfg l w2 p2) as [[[w3 p3] g3] l3] eqn:E3. injection E as <- <- <- <-. apply IH in E3. apply Forall_app. split; [|done].
  unfold clocked_chunk in E1. destruct (read_multiple w (request c)) as [w0 [rows|]]; [|injection E1 as <- <- <-; constructor].
  destruct (utc_now w0) as [w00 now]. by eapply clocked_rows_of.
Qed.

Lemma poll_pending_of w p w' p' o : poll_with_clocks cfg w p = (w', p', o) -> Forall (of_poll cfg) (po_pending o).
Proof.
  unfold poll_with_clocks. destruct (utc_now w) as [w0 started]. destruct (boundary _ w0 p) as [[w1 p1] l1].
  destruct (clocked_chunks cfg _ w1 p1) as [[[w2 p2] got] l2] eqn:E2. destruct (utc_now w2) as [w3 ended]. destruct (publish_all _ w3) as [w4 sent].
  intros [= <- <- <-]. by eapply clocked_chunks_of.
Qed.
End Pending.

Lemma zeros_ascii n : ascii_only (zeros n) = true.
Proof. induction n as [|n IH]; [done|]. cbn. by rewrite IH. Qed.
Lemma pad_utf8 n z : utf8 (pad n z).
Proof. apply valid_app; [apply ascii_valid, zeros_ascii|apply itoa_utf8]. Qed.
Lemma iso_utf8 t : utf8 (iso_micro t).
Proof.
  unfold iso_micro, date_text. destruct (civil _) as [[y m] d].
  repeat first [apply pad_utf8 | reflexivity | apply valid_app].
Qed.

Lemma iso_nonempty t : iso_micro t <> "".
Proof.
  unfold iso_micro. set (x := pad 6 _). intros E%(f_equal String.length). rewrite append_length in E. change (String.length "") with 0%nat in E.
  change (String.length ("." +:+ x +:+ "Z")) with (S (String.length (x +:+ "Z"))) in E. lia.
Qed.

(** *** A connector of a session *)

(** The configuration [from_env] gives for the session of record [r]. *)
Record configured (cfg : bacnet_config) (scope : ClockScope) (r : sessionRecord) : Prop := {
  cd_staged : StageClock (cl_raw (sr_snapshot r)) scope = Ok (sr_snapshot r);
  cd_utf8 : utf8 (ClockConfig.sc_ConnectorID scope);
  cd_connector : bc_connector_id cfg = ClockConfig.sc_ConnectorID scope;
  cd_points : bc_points cfg = map point_of (nk_Points (cl_native (sr_snapshot r)));
  cd_clocks : bc_clocks cfg = map clock_of_native (nk_Clocks (cl_native (sr_snapshot r)));
  cd_runs : runs cfg r;
  cd_identified : identified cfg
}.

(** The message as JetStream delivers it. *)
Definition deliver (m : message) (seq : Z) : delivery :=
  {| dl_subject := ms_subject m; dl_headers := list_to_map (map (fun kv => (fst kv, [snd kv])) (ms_headers m)); dl_data := ms_data m; dl_seq := Some seq |}.

Lemma repr_utf8 x s : py_repr x = Some s -> utf8 s.
Proof.
  destruct x as [[]|[]| |s' m e]; cbn [py_repr format_with]; try (by intros [= <-]).
  intros [H _]%shortest_parses. by apply ascii_valid, num_ascii.
Qed.

Section Session.
  Context (cfg : bacnet_config) (scope : ClockScope) (r : sessionRecord) (Hc : configured cfg scope r).

Lemma session_apart : NoDup (clock_points (bc_clocks cfg)) /\ NoDup (map pk_clock_id (bc_clocks cfg)).
Proof.
  destruct (stage_acceptable _ _ _ (cd_staged _ _ _ Hc)) as ([_ _ _ _ _ Hi _ Ha] & _ & _). rewrite (cd_clocks _ _ _ Hc). unfold clock_points.
  rewrite !map_map. done.
Qed.

(** A point of the session, and its entry. *)
Lemma session_point pt : pt ∈ bc_points cfg -> exists e, find_point (cl_entries (sr_snapshot r)) (py_local_id pt) = Some e /\
  e ∈ cl_entries (sr_snapshot r) /\ ReleaseOf e = "" /\ LocalID e = py_local_id pt /\ DeviceRef e = py_device_ref pt.
Proof.
  rewrite (cd_points _ _ _ Hc). intros (np & -> & Hnp)%list_elem_of_fmap.
  destruct (StageClock_coherent _ _ _ (cd_staged _ _ _ Hc)) as (_ & Hp & [_ _ Ha _ _ _ _ _ _]). rewrite Hp in Hnp, Ha.
  apply list_elem_of_fmap in Hnp as (e & -> & [He Hn%String.eqb_eq]%elem_of_filter_In). apply NoDup_app in Ha as (Ha & _ & _).
  rewrite map_map in Ha. cbn in Ha. unfold find_point. cbn [py_local_id py_device_ref point_of native_point np_LocalID np_DeviceRef].
  destruct (find _ _) as [e'|] eqn:Ef.
  - apply find_some in Ef as [Hi [Hr%String.eqb_eq Hl%String.eqb_eq]%andb_prop]. exists e'. apply list_elem_of_In in Hi.
    assert (e' = e) as ->; [|done].
    assert (e' ∈ List.filter is_native (cl_entries (sr_snapshot r))) as Hi' by (apply elem_of_filter_In; unfold is_native; by rewrite Hr).
    assert (e ∈ List.filter is_native (cl_entries (sr_snapshot r))) as He' by (apply elem_of_filter_In; unfold is_native; by rewrite Hn).
    pose proof (filter_unique LocalID _ _ Ha He') as Hu.
    assert (e' ∈ List.filter (fun x => String.eqb (LocalID x) (LocalID e)) (List.filter is_native (cl_entries (sr_snapshot r)))) as Hx
      by (apply elem_of_filter_In; split; [done|by rewrite Hl, String.eqb_refl]).
    rewrite Hu in Hx. by apply list_elem_of_singleton in Hx.
  - exfalso. apply list_elem_of_In in He. apply (find_none _ _ Ef) in He. by rewrite Hn, !String.eqb_refl in He.
Qed.

Lemma session_texts : Forall (fun p => utf8 (py_local_id p) /\ utf8 (py_device_ref p) /\ utf8 (py_unit p)) (bc_points cfg) /\
  Forall (fun c => utf8 (pk_clock_id c)) (bc_clocks cfg).
Proof.
  destruct (staged_text _ _ _ (cd_utf8 _ _ _ Hc) (cd_staged _ _ _ Hc)) as [_ _ Hp Hk].
  rewrite (cd_points _ _ _ Hc), (cd_clocks _ _ _ Hc). split; apply Forall_map; [done|]. by eapply Forall_impl; [exact Hk|intros c (? & _)].
Qed.

(** The clock of a point is the one its session gives it. *)
Lemma session_clock id x : x ∈ nk_Clocks (cl_native (sr_snapshot r)) -> times x id = true -> clock_of_point cfg id = Some (clock_of_native x).
Proof.
  intros Hx Ht%times_elem. assert (clock_of_native x ∈ bc_clocks cfg) as Hin by (rewrite (cd_clocks _ _ _ Hc); apply list_elem_of_fmap; eauto).
  destruct (clock_of_point cfg id) as [c|] eqn:E.
  - apply clock_of_point_in in E as [Hci Hcp]. f_equal. by apply (point_one_clock _ _ _ id (proj1 session_apart)).
  - exfalso. unfold clock_of_point in E. apply list_elem_of_In in Hin. rewrite in_rev in Hin. apply (find_none _ _ E) in Hin. cbn in Hin.
    assert (existsb (String.eqb id) (nc_PointLocalIDs x) = true) as Hy; [|congruence]. apply existsb_exists. exists id.
    by rewrite <- list_elem_of_In, String.eqb_refl.
Qed.

Definition session_attrs (id : string) (a : option (list (string * string))) : Prop :=
  match clock_of_point cfg id with
  | None => a = None
  | Some c => exists q t, a = Some ([("sim_clock_id", pk_clock_id c); ("sim_config_revision", bc_clock_revision cfg); ("sim_time_quality", q);
      ("sim_run_status", "absent")] ++ t) /\ utf8 q /\ (t = [] \/ exists s, t = [("sim_time_s", s)] /\ utf8 s)
  end.

Lemma session_attrs_ok id a : session_attrs id a -> attrs_ok a.
Proof.
  unfold session_attrs. destruct (clock_of_point cfg id) as [c|] eqn:E; [|by intros ->]. intros (q & t & -> & Hq & Ht).
  apply clock_of_point_in in E as [Hci _]. destruct session_texts as [_ Hk]. rewrite Forall_forall in Hk. apply Hk in Hci.
  pose proof (revision_utf8 _ (id_revision _ (cd_identified _ _ _ Hc))) as Hr.
  assert (Forall (fun kv => valid_utf8 (fst kv) = true /\ valid_utf8 (snd kv) = true) [("sim_clock_id", pk_clock_id c);
    ("sim_config_revision", bc_clock_revision cfg); ("sim_time_quality", q); ("sim_run_status", "absent")]) as Hf
    by (repeat constructor; done).
  destruct Ht as [->|(s & -> & Hs)]; (split; [apply (bool_decide_eq_true _); vm_compute; reflexivity|]); apply Forall_app; (split; [done|]);
    repeat constructor; done.
Qed.

Lemma session_attrs_lookup id a : session_attrs id a ->
  (forall k, k ∈ ["sim_run_id"; "sim_step_id"; "sim_context_generation"] -> attrs_map a !! k = None) /\
  match clock_of_point cfg id with
  | None => attrs_map a = ∅
  | Some c => attr (attrs_map a) "sim_clock_id" = pk_clock_id c /\ attr (attrs_map a) "sim_config_revision" = bc_clock_revision cfg /\
      attr (attrs_map a) "sim_run_status" = "absent"
  end.
Proof.
  unfold session_attrs. destruct (clock_of_point cfg id) as [c|]; [|by intros ->]. intros (q & t & -> & _ & Ht). unfold attr. cbn [attrs_map].
  destruct Ht as [->|(s & -> & _)]; cbn [app list_to_map foldr fst snd uncurry curry]; (split; [|by simplify_map_eq]);
    intros k Hk; rewrite !elem_of_cons in Hk; destruct Hk as [-> | [-> | [-> | []%elem_of_nil]]]; by simplify_map_eq.
Qed.

(** The guards of the worker hold. *)
Lemma session_guards id a evt : session_attrs id a -> ev_Attributes evt = attrs_map a -> ev_LocalID evt = id ->
  reserved_free evt = true /\ clock_attrs_ok (sr_snapshot r) evt = true.
Proof.
  intros Ha Ea El. destruct (session_attrs_lookup _ _ Ha) as [H1 H2]. unfold reserved_free, clock_attrs_ok. rewrite Ea, El. split.
  - rewrite andb_true_iff. split.
    + apply forallb_forall. intros k Hk%list_elem_of_In. rewrite (H1 k Hk). reflexivity.
    + destruct (clock_of_point cfg id) as [c|]; [destruct H2 as (_ & _ & ->); done|by rewrite H2].
  - rewrite andb_true_iff. split.
    + apply forallb_forall. intros x [Hx Ht]%filter_In. apply list_elem_of_In in Hx. rewrite (session_clock _ _ Hx Ht) in H2.
      destruct H2 as (-> & -> & ->). destruct (cd_runs _ _ _ Hc) as (_ & -> & _). by rewrite !String.eqb_refl.
    + destruct (List.filter _ _) as [|x l] eqn:Ef; [|done]. destruct (clock_of_point cfg id) as [c|] eqn:Ecp; [|by rewrite H2].
      exfalso. apply clock_of_point_in in Ecp as [Hci Hcp]. rewrite (cd_clocks _ _ _ Hc) in Hci.
      apply list_elem_of_fmap in Hci as (nc & -> & Hnc). assert (nc ∈ List.filter (fun c => times c id) (nk_Clocks (cl_native (sr_snapshot r)))) as Hin
        by (apply elem_of_filter_In; split; [done|by apply times_elem]). rewrite Ef in Hin. by apply elem_of_nil in Hin.
Qed.
Lemma event_of_attrs p log iv d m : event_of cfg p log iv d = Some m -> exists a, session_attrs (py_local_id (pd_point d)) a /\
  message_of cfg (pd_point d) (pd_value d) (pd_quality d) a (pd_at d) (Some iv) = Some m.
Proof.
  unfold event_of, session_attrs. destruct (clock_of_point cfg _) as [c|]; [|by exists None]. destruct (clock_attrs cfg p log c) as [a|] eqn:Ea; [|done].
  intros Hm. exists (Some a). split; [|done]. unfold clock_attrs in Ea.
  assert (utf8 (time_quality p log c)) as Hq by (unfold time_quality; by repeat case_if).
  destruct (String.eqb (time_quality p log c) "stable_unfenced").
  - destruct (samples log (pk_clock_id c)) as [|[x|] ?]; try done. destruct (py_repr x) as [s|] eqn:Er; [|done]. injection Ea as <-.
    eexists _, [("sim_time_s", s)]. split_and!; [reflexivity|done|]. right. exists s. eauto using repr_utf8.
  - injection Ea as <-. eexists _, []. split_and!; [by rewrite app_nil_r|done|by left].
Qed.

(** A message of the session is one of its events. *)
Lemma message_accepted `{GoClock} pt v q a ts iv m : pt ∈ bc_points cfg -> value_ok v -> utf8 q -> utf8 ts -> ts <> "" -> is_Some (parse_nano ts) ->
  session_attrs (py_local_id pt) a -> message_of cfg pt v q a ts (Some iv) = Some m ->
  exists evt e, event_unjson (ms_data m) = Some evt /\ e ∈ cl_entries (sr_snapshot r) /\ LocalID e = py_local_id pt /\
    ev_LocalID evt = py_local_id pt /\ ev_Value evt = go_value v /\ ev_Quality evt = q /\ ev_Timestamp evt = ts /\
    forall now, exists f, boundFrame scope now evt r = Some f /\ PointId f = PointID e /\ Timestamp f = ts /\
      FValue f = match v with PFloat x => Some (ValueNum x) | PStr s => Some (ValueStr s) | PBool b => Some (ValueBool b) end.
Proof.
  intros Hpt Hv Hq Hts Hne Hpn Ha Hm. unfold message_of in Hm. destruct (make_event _ _ _ _ _ _ _ _) as [data|] eqn:Ed; [|done]. injection Hm as <-.
  cbn [ms_data]. destruct session_texts as [Htx _]. rewrite Forall_forall in Htx. destruct (Htx _ Hpt) as (T1 & T2 & T3).
  assert (utf8 (bc_connector_id cfg)) as Tc by (rewrite (cd_connector _ _ _ Hc); apply (cd_utf8 _ _ _ Hc)).
  pose proof (make_event_decodes _ _ _ _ _ _ _ _ _ Ed Hv (session_attrs_ok _ _ Ha) ltac:(by repeat constructor)) as He.
  set (evt := mkEvent _ _ _ _ _ _ _ _ _) in He. destruct (session_point _ Hpt) as (e & Hf & Hin & Hr & Hl & Hd). exists evt, e. split_and!; [done..|].
  intros now. unfold boundFrame. cbn [ev_Protocol ev_ConnectorID ev_Timestamp evt]. rewrite (cd_connector _ _ _ Hc), !String.eqb_refl.
  assert (String.eqb ts "" = false) as -> by (by apply String.eqb_neq). cbn [negb orb]. destruct Hpn as [i ->].
  destruct (session_guards _ a evt Ha eq_refl eq_refl) as [-> ->]. cbn [negb]. cbn [ev_LocalID ev_DeviceRef evt]. rewrite Hf, Hd, String.eqb_refl. cbn [negb].
  destruct (value_writes _ Hv) as [j Ej]. destruct (event_json evt) as [je|] eqn:Eje; [|unfold event_json in Eje; cbn [ev_Value evt] in Eje; by rewrite Ej in Eje].
  unfold Normalize. rewrite (event_reencoded _ _ _ He Eje). cbn [ev_ConnectorID ev_LocalID evt].
  rewrite (cd_connector _ _ _ Hc), <- Hl, (staged_lookup _ _ _ e (cd_staged _ _ _ Hc) Hin Hr). cbn [ev_Value ev_Timestamp evt].
  assert (String.eqb ts "" = false) as -> by (by apply String.eqb_neq). destruct v; eexists; (split; [reflexivity|]); done.
Qed.

Lemma message_headers pt v q a ts s e m seq (records : gmap string sessionRecord) :
  message_of cfg pt v q a ts (Some (s, e)) = Some m -> records !! Session r = Some r -> sr_verified r = true ->
  session_of records (deliver m seq) = Some r /\ header (deliver m seq) "Nexus-Poll-Started-At" = s /\ header (deliver m seq) "Nexus-Poll-Ended-At" = e.
Proof.
  unfold message_of. destruct (make_event _ _ _ _ _ _ _ _) as [data|]; [|done]. intros [= <-] Hr Hv.
  destruct (cd_runs _ _ _ Hc) as (Es & Er & _). pose proof (id_session _ (cd_identified _ _ _ Hc)) as Hid.
  assert (String.eqb (bc_managed_session cfg) "" = false) as En by (apply String.eqb_neq; intros E; by rewrite E in Hid).
  unfold session_of, header, deliver. cbn [dl_headers ms_headers]. rewrite En.
  cbn [app map fst snd list_to_map foldr uncurry curry]. rewrite Es, Er. split_and!; [|by simplify_map_eq..].
  rewrite lookup_insert_eq. cbn. rewrite Hr, Hv. rewrite lookup_insert_ne, lookup_insert_eq by done. cbn. by rewrite String.eqb_refl.
Qed.
End Session.

(** ** What a poll did to its device *)

(** The calls of a poll with their answers, in order.  A device is recorded by
    logging each call: the poll runs unchanged, and the log says what it asked,
    what it was told and what it published. *)
Inductive call := CRead (q : list (string * string)) (r : option (list row)) | CNow (t : Z) | CMono (x : spec_float) | CPublish (m : message) (ok : bool).

#[export] Instance recorded {W} `{Device W} : Device (W * list call) := {|
  read_multiple w q := let '(w', r) := read_multiple (fst w) q in ((w', snd w ++ [CRead q r]), r);
  utc_now w := let '(w', t) := utc_now (fst w) in ((w', snd w ++ [CNow t]), t);
  monotonic w := let '(w', x) := monotonic (fst w) in ((w', snd w ++ [CMono x]), x);
  js_publish w m := let '(w', ok) := js_publish (fst w) m in ((w', snd w ++ [CPublish m ok]), ok)
|}.

Definition times_of (log : list call) : list Z := omap (fun c => match c with CNow t => Some t | _ => None end) log.
Definition published (log : list call) : list message := omap (fun c => match c with CPublish m _ => Some m | _ => None end) log.

(** What the device answered, each answer with the time the host's clock gave
    next. *)
Fixpoint answers (log : list call) : list (list (string * string) * list row * Z) :=
  match log with
  | CRead q (Some rows) :: l => match l with CNow t :: _ => (q, rows, t) :: answers l | _ => answers l end
  | _ :: l => answers l
  | [] => []
  end.

(** The present value of the object [id], as the device gave it at [t]. *)
Definition reading (log : list call) (t : Z) (id : string) (v : py_value) (status : option string) : Prop :=
  exists q rows, (q, rows, t) ∈ answers log /\ (id, "presentValue") ∈ q /\ (id, Some v, status) ∈ rows.

(** Both languages write every finite number. *)
Definition number_written (v : option py_value) : Prop :=
  match v with Some (PFloat x) => f64_finite x = true -> is_Some (format_f64 x) /\ is_Some (py_repr x) | _ => True end.
Definition call_written (c : call) : Prop := match c with CRead _ (Some rows) => Forall (fun r => number_written (snd (fst r))) rows | _ => True end.

(** A value JSON can carry: not [NaN], not infinite, and text in UTF-8. *)
Definition presentable (v : py_value) : Prop := match v with PFloat x => f64_finite x = true | PStr s => valid_utf8 s = true | PBool _ => True end.

Lemma presentable_ok v : presentable v -> number_written (Some v) -> value_ok v.
Proof. destruct v; cbn; [|done|done]. intros Hf Hw. destruct (Hw Hf). done. Qed.
Lemma presentable_json v : presentable v -> number_written (Some v) -> is_Some (py_value_json v).
Proof. destruct v as [x| |]; cbn; [|by eexists..]. intros Hf Hw. destruct (Hw Hf) as [_ [s Hs]]. unfold py_float_json. destruct x; try done; rewrite Hs; by eexists. Qed.

Lemma answers_skip c l : (forall q rows, c <> CRead q (Some rows)) -> answers (c :: l) = answers l.
Proof. destruct c as [q [rows|]| | |]; [|done..]. intros Hn. by destruct (Hn q rows). Qed.
Lemma answers_skips k l : Forall (fun c => forall q rows, c <> CRead q (Some rows)) k -> answers (k ++ l) = answers l.
Proof. induction 1 as [|c k Hc _ IH]; [done|]. cbn [app]. by rewrite answers_skip. Qed.
Lemma answers_cons c l a : a ∈ answers l -> a ∈ answers (c :: l).
Proof. intros Ha. destruct c as [q [rows|]| | |]; cbn; try done. destruct l as [|[] l]; try done. by right. Qed.
Lemma answers_app_r k l a : a ∈ answers l -> a ∈ answers (k ++ l).
Proof. intros Ha. induction k as [|c k IH]; [done|]. by apply answers_cons. Qed.
Lemma answers_app_l k l a : a ∈ answers l -> a ∈ answers (l ++ k).
Proof.
  induction l as [|c l IH]; [by intros ?%elem_of_nil|]. destruct c as [q [rows|]| | |]; cbn [answers app]; try done.
  destruct l as [|[] l]; cbn [app] in *; try done; [by intros ?%elem_of_nil|]. rewrite !elem_of_cons. naive_solver.
Qed.
Lemma answers_read log q rows t : (q, rows, t) ∈ answers log -> CRead q (Some rows) ∈ log.
Proof.
  induction log as [|c l IH]; [by intros ?%elem_of_nil|]. intros Ha. rewrite elem_of_cons. destruct c as [q' [rows'|]| | |]; cbn in Ha; auto.
  destruct l as [|[] l]; auto. apply elem_of_cons in Ha as [[= -> -> ->]|Ha]; auto.
Qed.

Lemma reading_written l t id v st : Forall call_written l -> reading l t id v st -> number_written (Some v).
Proof.
  intros Hw (q & rows & Hr%answers_read & _ & Hin). rewrite Forall_forall in Hw. apply Hw in Hr. cbn in Hr. rewrite Forall_forall in Hr. exact (Hr _ Hin).
Qed.
Lemma reading_app pre post l t id v st : reading l t id v st -> reading (pre ++ l ++ post) t id v st.
Proof. intros (q & rows & Hr & H1 & H2). exists q, rows. eauto using answers_app_r, answers_app_l. Qed.

Section Recorded.
  Context {W : Type} `{Device W} (cfg : bacnet_config).
  Implicit Types (w : W) (l k : list call) (p : poller).

Definition is_mono (c : call) : Prop := match c with CMono _ => True | _ => False end.
Definition is_publish (c : call) : Prop := match c with CPublish _ _ => True | _ => False end.
Definition clock_call (cs : list py_clock) (c : call) : Prop :=
  match c with CRead q _ => exists ck, ck ∈ cs /\ Forall (fun x => fst x = pk_local_id ck) q | _ => False end.

(** The values a poll takes from the rows of an answer. *)
Definition row_value (ids : list string) (t : Z) (r : row) : option pending :=
  let '(id, value, status) := r in
  if negb (existsb (String.eqb id) ids) then None
  else match value, point_map cfg id with
       | Some v, Some pt => Some {| pd_point := pt; pd_value := v; pd_quality := bacnet_quality status; pd_at := iso_micro t |}
       | _, _ => None
       end.

Lemma warn_log id w l p w' l' p' : warn_bad_value id (w, l) p = ((w', l'), p') -> exists k, l' = l ++ k /\ Forall is_mono k.
Proof.
  unfold warn_bad_value. cbn. destruct (monotonic w) as [w1 x]. exists [CMono x]. split; [|by constructor].
  destruct (p_last_bad p !! id) as [x0|]; [destruct (fltb _ _)|]; congruence.
Qed.

Lemma rows_log ids t rows : forall w l p w' l' p' got, clocked_rows cfg ids (iso_micro t) rows (w, l) p = ((w', l'), p', got) ->
  got = omap (row_value ids t) rows /\ exists k, l' = l ++ k /\ Forall is_mono k.
Proof.
  induction rows as [|[[id v] st] rows IH]; intros w l p w' l' p' got E; cbn [clocked_rows] in E.
  - injection E as <- <- <- <-. split; [done|]. exists []. by rewrite app_nil_r.
  - cbn [omap list_omap row_value]. destruct (negb (existsb _ ids)); [by eapply IH|]. destruct v as [v|].
    + destruct (clocked_rows cfg ids (iso_micro t) rows (w, l) p) as [[[w1 l1] p1] l2] eqn:Er. apply IH in Er as [-> Hk].
      destruct (point_map cfg id); injection E as <- <- <- <-; done.
    + destruct (warn_bad_value id (w, l) p) as [[w1 l1] p1] eqn:Ew. apply warn_log in Ew as (k1 & -> & H1).
      apply IH in E as [-> (k2 & -> & H2)]. split; [done|]. exists (k1 ++ k2). rewrite (assoc_L app), Forall_app. done.
Qed.

Lemma chunk_log c w l p w' l' p' got : clocked_chunk cfg c (w, l) p = ((w', l'), p', got) ->
  (l' = l ++ [CRead (request c) None] /\ got = []) \/
  exists rows t k, l' = l ++ CRead (request c) (Some rows) :: CNow t :: k /\ Forall is_mono k /\ got = omap (row_value (map py_local_id c) t) rows.
Proof.
  unfold clocked_chunk. cbn. destruct (read_multiple w (request c)) as [w1 [rows|]]; cbn.
  - destruct (utc_now w1) as [w2 t]. intros (-> & k & -> & Hk)%rows_log. right. exists rows, t, k. by rewrite <- !(assoc_L app).
  - intros [= <- <- <- <-]. by left.
Qed.

(** The values of the clocks have a text. *)
Definition reads_written (log : reads) : Prop := Forall (fun r => match snd r with Some x => is_Some (py_repr x) | None => True end) log.

Lemma read_clock_log ck w l w' l' v : read_clock (w, l) ck = ((w', l'), v) ->
  exists k, l' = l ++ k /\ Forall (clock_call [ck]) k /\ (Forall call_written k -> reads_written [(pk_clock_id ck, v)]).
Proof.
  assert (forall q r, Forall (fun x => fst x = pk_local_id ck) q -> clock_call [ck] (CRead q r)) as Hcall by (intros q r Hq; exists ck; set_solver).
  unfold read_clock. cbn. destruct (read_multiple w [(pk_local_id ck, pk_property ck)]) as [w1 r1]; cbn. destruct (clock_row ck r1) as [v1|] eqn:E1.
  - destruct (read_multiple w1 [(pk_local_id ck, "units")]) as [w2 r2]; cbn. destruct (clock_row ck r2) as [u|] eqn:E2; intros [= <- <- <-].
    2: { eexists [_; _]. rewrite <- (assoc_L app). split; [reflexivity|]. split; [repeat constructor; by apply Hcall; repeat constructor|by repeat constructor]. }
    eexists [_; _]. rewrite <- (assoc_L app). split; [reflexivity|]. split; [repeat constructor; by apply Hcall; repeat constructor|].
    rewrite Forall_cons. intros [Hw _]. apply Forall_singleton. cbn. unfold clock_row in E1. destruct r1 as [[|[[i1 x1] s1] [|]]|]; try done.
    destruct (String.eqb _ _ && _) in E1; [|done]. injection E1 as ->. cbn in Hw. apply Forall_cons in Hw as [Hw _]. cbn in Hw.
    unfold clock_value. destruct (seconds_unit u), v1 as [[x| |]|]; cbn; try done. destruct (f64_finite x) eqn:Ef, (fltb x _); cbn; try done.
    by destruct (Hw Ef).
  - intros [= <- <- <-]. eexists [_]. split; [reflexivity|]. split; [repeat constructor; by apply Hcall; repeat constructor|by repeat constructor].
Qed.

Lemma clock_call_mono cs cs' c : cs ⊆ cs' -> clock_call cs c -> clock_call cs' c.
Proof. destruct c; [|done..]. intros Hs (ck & Hin & Hq). exists ck. split; [by apply Hs|done]. Qed.

Lemma boundary_log cs : forall w l p w' l' p' log, boundary cs (w, l) p = ((w', l'), p', log) ->
  exists k, l' = l ++ k /\ Forall (clock_call cs) k /\ (Forall call_written k -> reads_written log).
Proof.
  induction cs as [|ck cs IH]; intros w l p w' l' p' log E; cbn in E.
  - injection E as <- <- <- <-. exists []. rewrite app_nil_r. split_and!; [done|done|by constructor].
  - destruct (read_clock (w, l) ck) as [[w1 l1] v] eqn:E1. apply read_clock_log in E1 as (k1 & -> & H1 & R1).
    destruct (boundary cs (w1, l ++ k1) _) as [[[w2 l2] p2] l3] eqn:E2. apply IH in E2 as (k2 & -> & H2 & R2). injection E as <- <- <- <-.
    exists (k1 ++ k2). rewrite (assoc_L app), !Forall_app. split_and!; [done| | |].
    + eapply Forall_impl; [exact H1|]. intros c. apply clock_call_mono. set_solver.
    + eapply Forall_impl; [exact H2|]. intros c. apply clock_call_mono. set_solver.
    + intros [Hw1 Hw2]. apply R1, Forall_cons in Hw1 as [Hw1 _]. constructor; [done|]. by apply R2.
Qed.

(** Where a value of the poll comes from. *)
Definition came (k : list call) (d : pending) : Prop :=
  exists t status, reading k t (py_local_id (pd_point d)) (pd_value d) status /\ pd_quality d = bacnet_quality status /\ pd_at d = iso_micro t.

Lemma came_app pre post k d : came k d -> came (pre ++ k ++ post) d.
Proof. intros (t & st & Hr & Hq). exists t, st. split; [by apply reading_app|done]. Qed.

Lemma row_came c rows t k d : d ∈ omap (row_value (map py_local_id c) t) rows -> came (CRead (request c) (Some rows) :: CNow t :: k) d.
Proof.
  intros ([[id v] st] & Hin & Hd)%list_elem_of_omap. cbn in Hd. destruct (negb (existsb _ _)) eqn:En; [done|].
  destruct v as [v|], (point_map cfg id) as [pt|] eqn:Ep; try done. injection Hd as <-. apply point_map_in in Ep as [_ <-].
  apply negb_false_iff, existsb_exists in En as (x & Hx & <-%String.eqb_eq). apply list_elem_of_In, list_elem_of_fmap in Hx as (y & Ey & Hy).
  exists t, st. split; [|done]. exists (request c), rows. split_and!; [by left| |done]. apply list_elem_of_fmap. exists y. cbn. by rewrite Ey.
Qed.

(** Every answer is to a clock or has its values taken. *)
Definition accounted (got : list pending) (a : list (string * string) * list row * Z) : Prop :=
  let '(q, rows, t) := a in
  (exists r, clock_call (bc_clocks cfg) (CRead q r)) \/
  exists c, q = request c /\ forall d, d ∈ omap (row_value (map py_local_id c) t) rows -> d ∈ got.

Lemma clock_answers cs k post a : Forall (clock_call cs) k -> a ∈ answers (k ++ post) ->
  a ∈ answers post \/ exists r, clock_call cs (CRead (fst (fst a)) r).
Proof.
  induction 1 as [|c k Hc _ IH]; [by left|]. intros Ha. destruct c as [q r| | |]; try done. destruct r as [rows|]; cbn [app answers] in Ha; [|by apply IH].
  destruct (k ++ post) as [|[] l]; try (by apply IH). apply elem_of_cons in Ha as [->|Ha]; [right; by exists None|by apply IH].
Qed.

Lemma skip_mono k : Forall is_mono k -> Forall (fun c => forall q rows, c <> CRead q (Some rows)) k.
Proof. intros Hk. eapply Forall_impl; [exact Hk|]. by intros []. Qed.

Lemma chunks_log cs : forall w l p w' l' p' got log, clocked_chunks cfg cs (w, l) p = ((w', l'), p', got, log) ->
  exists k, l' = l ++ k /\ published k = [] /\ (Forall call_written k -> reads_written log) /\ Forall (came k) got /\
    forall post a, a ∈ answers (k ++ post) -> a ∈ answers post \/ accounted got a.
Proof.
  induction cs as [|c cs IH]; intros w l p w' l' p' got log E; cbn in E.
  - injection E as <- <- <- <- <-. exists []. rewrite app_nil_r. split_and!; [done|done|by constructor|constructor|by left].
  - destruct (clocked_chunk cfg c (w, l) p) as [[[w1 l1] p1] g1] eqn:E1. destruct (boundary _ (w1, l1) p1) as [[[w2 l2] p2] r2] eqn:E2.
    destruct (clocked_chunks cfg cs (w2, l2) p2) as [[[[w3 l3] p3] g3] r3] eqn:E3. injection E as <- <- <- <- <-.
    apply IH in E3 as (k3 & -> & P3 & R3 & C3 & A3). apply boundary_log in E2 as (k2 & -> & H2 & R2).
    assert (published k2 = []) as P2 by (clear -H2; induction H2 as [|[] ? ? _ IH]; done).
    assert (exists k1, l1 = l ++ k1 /\ published k1 = [] /\ Forall (came k1) g1 /\
      forall post a, a ∈ answers (k1 ++ post) -> a ∈ answers post \/ accounted g1 a) as (k1 & -> & P1 & C1 & A1).
    { apply chunk_log in E1 as [[-> ->]|(rows & t & k & -> & Hk & ->)]; eexists; (split; [reflexivity|]).
      - split_and!; [done|constructor|]. intros post a Ha. by left.
      - split_and!; [|apply Forall_forall; intros d; apply row_came|].
        + clear -Hk. unfold published. cbn. induction Hk as [|[] ? ? _ IH]; done.
        + intros post a. cbn [app answers]. rewrite (answers_skips k) by (by apply skip_mono). rewrite elem_of_cons. intros [->|Ha]; [|by left].
          right. right. by exists c. }
    exists (k1 ++ k2 ++ k3). rewrite !(assoc_L app). split; [done|]. unfold published in *. rewrite !omap_app, P1, P2, P3. split; [done|].
    rewrite !Forall_app. split_and!; [intros [[Hw1 Hw2] Hw3]; apply Forall_app; split; [by apply R2|by apply R3]| | |].
    + eapply Forall_impl; [exact C1|]. intros d Hd. rewrite <- (assoc_L app). by apply (came_app []).
    + eapply Forall_impl; [exact C3|]. intros d Hd. rewrite <- (app_nil_r k3). by apply came_app.
    + intros post a Ha. rewrite <- !(assoc_L app) in Ha. apply A1 in Ha as [Ha|Ha].
      * apply (clock_answers _ _ _ _ H2) in Ha as [Ha|Ha]; [|right; destruct a as [[q rows] t]; by left]. apply A3 in Ha as [Ha|Ha]; [by left|right].
        destruct a as [[q rows] t], Ha as [Ha|(c' & -> & Ha)]; [by left|]. right. exists c'. split; [done|]. intros d Hd%Ha. apply elem_of_app. by right.
      * right. destruct a as [[q rows] t], Ha as [Ha|(c' & -> & Ha)]; [by left|]. right. exists c'. split; [done|]. intros d Hd%Ha. apply elem_of_app. by left.
Qed.

Lemma publish_log ms : forall w l w' l' sent, publish_all ms (w, l) = ((w', l'), sent) ->
  exists k, l' = l ++ k /\ Forall is_publish k /\ published k = omap (fun m => m) ms.
Proof.
  induction ms as [|[m|] ms IH]; intros w l w' l' sent E; cbn in E.
  - injection E as <- <- <-. exists []. by rewrite app_nil_r.
  - destruct (js_publish w m) as [w1 ok]; cbn in E. destruct (publish_all ms _) as [[w2 l2] s2] eqn:E2. injection E as <- <- <-.
    apply IH in E2 as (k & -> & Hk & Hp). exists (CPublish m ok :: k). rewrite <- (assoc_L app). split_and!; [done|by constructor|].
    unfold published in *. cbn. by rewrite Hp.
  - destruct (publish_all ms (w, l)) as [[w2 l2] s2] eqn:E2. injection E as <- <- <-. by eapply IH.
Qed.

Lemma boundary_ids cs : forall w l p w' l' p' log, boundary cs (w, l) p = ((w', l'), p', log) -> map fst log = map pk_clock_id cs.
Proof.
  induction cs as [|c cs IH]; intros w l p w' l' p' log E; cbn in E; [by injection E as <- <- <- <-|].
  destruct (read_clock (w, l) c) as [[w1 l1] v]. destruct (boundary cs _ _) as [[[w2 l2] p2] r] eqn:Eb. injection E as <- <- <- <-. cbn. f_equal. by eapply IH.
Qed.

Lemma samples_nonempty (log : reads) id : id ∈ map fst log -> samples log id <> [].
Proof.
  intros ([k v] & -> & Hin)%list_elem_of_fmap E. unfold samples in E. apply map_eq_nil in E.
  assert ((k, v) ∈ List.filter (fun r => String.eqb (fst r) k) log) as Hf by (apply elem_of_filter_In; split; [done|apply String.eqb_refl]).
  cbn in E. rewrite E in Hf. by apply elem_of_nil in Hf.
Qed.

(** What the log of a poll says. *)
Lemma poll_log w p w' log p' o : poll_with_clocks cfg (w, []) p = ((w', log), p', o) ->
  exists s e k kp p2 rs, log = CNow s :: k ++ CNow e :: kp /\ times_of kp = [] /\
    published log = omap (event_of cfg p2 rs (iso_micro s, iso_micro e)) (po_pending o) /\ (Forall call_written log -> reads_written rs) /\
    (forall c, c ∈ bc_clocks cfg -> samples rs (pk_clock_id c) <> []) /\ Forall (came log) (po_pending o) /\
    Forall (accounted (po_pending o)) (answers log).
Proof.
  unfold poll_with_clocks. cbn. destruct (utc_now w) as [w0 s]; cbn. destruct (boundary _ (w0, _) p) as [[[w1 l1] p1] r1] eqn:E1.
  destruct (clocked_chunks cfg _ (w1, l1) p1) as [[[[w2 l2] p2] got] r2] eqn:E2. cbn. destruct (utc_now w2) as [w3 e]; cbn.
  match goal with |- context [publish_all ?ms ?w] => destruct (publish_all ms w) as [[w4 l4] sent] eqn:E4 end. intros [= <- <- <- <-]. cbn [po_pending].
  apply publish_log in E4 as (kp & -> & Hkp & Pp). apply chunks_log in E2 as (kc & -> & Pc & Rc & Cc & Ac).
  pose proof (boundary_ids _ _ _ _ _ _ _ _ E1) as Hids. apply boundary_log in E1 as (kb & -> & Hb & Rb).
  assert (published kb = []) as Pb by (clear -Hb; induction Hb as [|[] ? ? _ IH]; done).
  assert (([CNow s] ++ kb ++ kc ++ [CNow e]) ++ kp = CNow s :: (kb ++ kc) ++ CNow e :: kp) as El by (cbn; by rewrite <- !(assoc_L app)).
  rewrite <- !(assoc_L app) in *. cbn [app] in *. exists s, e, (kb ++ kc), kp, p2, (r1 ++ r2). split_and!.
  - by rewrite <- !(assoc_L app).
  - clear -Hkp. induction Hkp as [|[] ? ? _ IH]; done.
  - unfold published in *. cbn. rewrite !omap_app, Pb, Pc. cbn. rewrite Pp. clear. induction got as [|d got IH]; [done|]. cbn. by rewrite IH.
  - rewrite Forall_cons, !Forall_app. intros (_ & Hwb & Hwc & _). apply Forall_app. split; [by apply Rb|by apply Rc].
  - intros c Hc. apply samples_nonempty. rewrite map_app, Hids, elem_of_app. left. apply list_elem_of_fmap. eauto.
  - eapply Forall_impl; [exact Cc|]. intros d. apply (came_app (CNow s :: kb)).
  - apply Forall_forall. intros a Ha. cbn in Ha. apply (clock_answers _ _ _ _ Hb) in Ha as [Ha|Ha]; [|destruct a as [[q rows] t]; by left].
    apply Ac in Ha as [Ha|Ha]; [|done]. cbn in Ha. rewrite <- (app_nil_r kp), answers_skips in Ha; [by apply elem_of_nil in Ha|].
    eapply Forall_impl; [exact Hkp|]. by intros [].
Qed.

Lemma clock_attrs_written p log c : reads_written log -> samples log (pk_clock_id c) <> [] -> is_Some (clock_attrs cfg p log c).
Proof.
  intros Hw Hne. unfold clock_attrs. destruct (String.eqb (time_quality p log c) "stable_unfenced") eqn:Eq; [|by eexists].
  assert (forall v, v ∈ samples log (pk_clock_id c) -> match v with Some x => is_Some (py_repr x) | None => True end) as Hs.
  { intros v (r & -> & Hin)%list_elem_of_fmap. apply elem_of_filter_In in Hin as [Hin _]. unfold reads_written in Hw. rewrite Forall_forall in Hw. by apply Hw. }
  unfold time_quality in Eq. destruct (bool_decide _); [done|]. destruct (samples log (pk_clock_id c)) as [|[x|] l]; [done| |done].
  destruct (Hs (Some x) ltac:(by left)) as [t ->]. by eexists.
Qed.

Lemma event_written p rs iv d : reads_written rs -> (forall c, c ∈ bc_clocks cfg -> samples rs (pk_clock_id c) <> []) ->
  is_Some (py_value_json (pd_value d)) -> is_Some (event_of cfg p rs iv d).
Proof.
  intros Hw Hne [j Hj]. unfold event_of, message_of, make_event. rewrite Hj. destruct (clock_of_point cfg _) as [c|] eqn:Ec; [|by eexists].
  apply clock_of_point_in in Ec as [Hc _]. destruct (clock_attrs_written p rs c Hw (Hne _ Hc)) as [a ->]. by eexists.
Qed.

Lemma reading_taken log got t id v st : clocks_sound (map py_local_id (bc_points cfg)) (bc_clocks cfg) ->
  Forall (accounted got) (answers log) -> reading log t id v st -> id ∈ map py_local_id (read_points cfg) ->
  exists pt, {| pd_point := pt; pd_value := v; pd_quality := bacnet_quality st; pd_at := iso_micro t |} ∈ got /\ pt ∈ bc_points cfg /\ py_local_id pt = id.
Proof.
  intros Hcs Ha (q & rows & Hr & Hq & Hin) Hid. rewrite Forall_forall in Ha. destruct (Ha _ Hr) as [(r & ck & Hck & Hf)|(c & -> & Hd)].
  - exfalso. rewrite Forall_forall in Hf. apply Hf in Hq. cbn in Hq. pose proof (so_each _ _ Hcs) as He. rewrite Forall_forall in He.
    destruct (He _ Hck) as (_ & _ & _ & Hn & _). apply Hn. rewrite <- Hq. apply list_elem_of_fmap in Hid as (pt & -> & Hpt).
    apply list_elem_of_fmap. exists pt. split; [done|]. unfold read_points in Hpt. by apply elem_of_filter_In in Hpt as [Hpt _].
  - destruct (point_map cfg id) as [pt|] eqn:Ep.
    + exists pt. destruct (point_map_in _ _ _ Ep) as [Hpt <-]. split; [|done]. apply Hd, list_elem_of_omap. exists (py_local_id pt, Some v, st). split; [done|].
      cbn. rewrite Ep. assert (existsb (String.eqb (py_local_id pt)) (map py_local_id c) = true) as ->; [|done]. apply existsb_exists.
      apply list_elem_of_fmap in Hq as (y & [= Ey] & Hy). exists (py_local_id y). split; [|by apply String.eqb_eq].
      apply list_elem_of_In, list_elem_of_fmap. eauto.
    + exfalso. apply list_elem_of_fmap in Hid as (pt & -> & Hpt). eapply find_none in Ep; [|by apply in_rev; rewrite rev_involutive; apply list_elem_of_In].
      cbn in Ep. by rewrite String.eqb_refl in Ep.
Qed.
End Recorded.

Lemma reading_time log t id v st : reading log t id v st -> t ∈ times_of log.
Proof.
  intros (q & rows & Ha & _). induction log as [|c l IH]; [by apply elem_of_nil in Ha|].
  assert (t ∈ times_of l -> t ∈ times_of (c :: l)) as Hl by (intros Ht; unfold times_of; cbn; destruct c; try done; by right).
  destruct c as [q' [rows'|]| | |]; cbn in Ha; try (by apply Hl, IH). destruct l as [|[|t'| |] l]; try (by apply Hl, IH).
  apply elem_of_cons in Ha as [[= -> -> ->]|Ha]; [by left|by apply Hl, IH].
Qed.

(** A value of the poll, sent. *)
Lemma pending_accepted `{GoClock} cfg scope r (Hc : configured cfg scope r) log d a iv m t st : pd_point d ∈ bc_points cfg -> presentable (pd_value d) ->
  Forall call_written log -> Forall (fun t => is_Some (parse_nano (iso_micro t))) (times_of log) -> reading log t (py_local_id (pd_point d)) (pd_value d) st ->
  pd_quality d = bacnet_quality st -> pd_at d = iso_micro t -> session_attrs cfg (py_local_id (pd_point d)) a ->
  message_of cfg (pd_point d) (pd_value d) (pd_quality d) a (pd_at d) (Some iv) = Some m ->
  exists evt e, event_unjson (ms_data m) = Some evt /\ e ∈ cl_entries (sr_snapshot r) /\ LocalID e = py_local_id (pd_point d) /\
    ev_LocalID evt = py_local_id (pd_point d) /\ ev_Value evt = go_value (pd_value d) /\ ev_Quality evt = pd_quality d /\ ev_Timestamp evt = pd_at d /\
    forall now, exists f, boundFrame scope now evt r = Some f /\ PointId f = PointID e /\ Timestamp f = pd_at d /\
      FValue f = match pd_value d with PFloat x => Some (ValueNum x) | PStr s => Some (ValueStr s) | PBool b => Some (ValueBool b) end.
Proof.
  intros Hpt Hpv Hw Ht Hrd Hq Hat Ha Hm. pose proof (reading_time _ _ _ _ _ Hrd) as Htl. rewrite Forall_forall in Ht. apply Ht in Htl.
  eapply (message_accepted cfg scope r Hc); try done; [eauto using presentable_ok, reading_written|rewrite Hq; apply quality_utf8|rewrite Hat..].
  - apply iso_utf8.
  - apply iso_nonempty.
  - done.
Qed.

(** C16: the gateway takes what a clocked poll publishes, and all of what it read.
    Take a connector that runs a verified session of the gateway, configured with
    its bundle, and any clocked poll of it, with the log of what the poll asked of
    its device and clock and what it was told.  Every message the poll publishes,
    delivered with its headers, names the session and revision of the gateway's
    record and the times of the first and last look at the clock.  It is of a value
    the device gave in an answer of this poll; unless that value is [NaN],
    infinite or not UTF-8, the payload, written by Python's encoder, decodes in Go
    to an event with the quality of the device's status, passes every check of the
    worker, and the bound frame carries the point of the session's own mapping, the
    device's value and the time the clock gave right after that answer.  The other
    way, every such value the device gave for a point that is read is published,
    with its status and time.  Assumed: Go reads the times of the log as the
    connector writes them, and both languages write each finite number of it. *)
Theorem poll_accepted {W} `{Device W} `{GoClock} (cfg : bacnet_config) (scope : ClockScope) (r : sessionRecord) (records : gmap string sessionRecord)
  (w w' : W) (p p' : poller) (log : list call) (o : polled) :
  configured cfg scope r -> clocks_sound (map py_local_id (bc_points cfg)) (bc_clocks cfg) -> records !! Session r = Some r -> sr_verified r = true ->
  poll_with_clocks cfg (w, []) p = ((w', log), p', o) ->
  Forall call_written log -> Forall (fun t => is_Some (parse_nano (iso_micro t))) (times_of log) ->
  exists started ended, head (times_of log) = Some started /\ last (times_of log) = Some ended /\
  (forall m seq, m ∈ published log ->
    session_of records (deliver m seq) = Some r /\
    header (deliver m seq) "Nexus-Poll-Started-At" = iso_micro started /\ header (deliver m seq) "Nexus-Poll-Ended-At" = iso_micro ended /\
    exists t id v status, reading log t id v status /\
      (presentable v -> exists evt e, event_unjson (dl_data (deliver m seq)) = Some evt /\ ev_Quality evt = bacnet_quality status /\
        e ∈ cl_entries (sr_snapshot r) /\ LocalID e = id /\
        forall now, exists f, boundFrame scope now evt r = Some f /\ PointId f = PointID e /\ Timestamp f = iso_micro t /\
          FValue f = match v with PFloat x => Some (ValueNum x) | PStr s => Some (ValueStr s) | PBool b => Some (ValueBool b) end)) /\
  (forall t id v status, reading log t id v status -> id ∈ map py_local_id (read_points cfg) -> presentable v ->
    exists m evt, m ∈ published log /\ event_unjson (ms_data m) = Some evt /\ ev_LocalID evt = id /\ ev_Value evt = go_value v /\
      ev_Quality evt = bacnet_quality status /\ ev_Timestamp evt = iso_micro t).
Proof.
  intros Hc Hcs Hr Hv E Hw Ht. destruct (poll_log _ _ _ _ _ _ _ E) as (s & e & k & kp & p2 & rs & El & Ek & Hp & Hrs & Hne & Hcame & Hacc).
  exists s, e. assert (times_of log = s :: times_of k ++ [e]) as Etm by (rewrite El; unfold times_of in *; cbn; by rewrite omap_app; cbn; rewrite Ek).
  split; [by rewrite Etm|]. split; [by rewrite Etm, app_comm_cons, last_snoc|]. apply Hrs in Hw as Hrw. split.
  - intros m seq Hm. rewrite Hp in Hm. apply list_elem_of_omap in Hm as (d & Hd & (a & Ha & Hs)%event_of_attrs).
    destruct (message_headers cfg scope r Hc _ _ _ _ _ _ _ _ seq records Hs Hr Hv) as (H1 & H2 & H3). split_and!; [done..|].
    pose proof Hcame as Hcm. rewrite Forall_forall in Hcm. destruct (Hcm d Hd) as (t & st & Hrd & Hq & Hat). exists t, (py_local_id (pd_point d)), (pd_value d), st.
    split; [done|]. intros Hpv. pose proof (poll_pending_of _ _ _ _ _ _ E) as Hof. rewrite Forall_forall in Hof. destruct (Hof d Hd) as (Hpt & _).
    destruct (pending_accepted cfg scope r Hc log d a _ m t st Hpt Hpv Hw Ht Hrd Hq Hat Ha Hs) as (evt & en & H4 & H5 & H6 & _ & _ & H7 & _ & H8).
    exists evt, en. rewrite H7, Hq, Hat in *. done.
  - intros t id v st Hrd Hid Hpv. destruct (reading_taken cfg _ _ _ _ _ _ Hcs Hacc Hrd Hid) as (pt & Hd & Hpt & Hl).
    pose proof (reading_written _ _ _ _ _ Hw Hrd) as Hnw.
    set (d := {| pd_point := pt |}) in Hd.
    destruct (event_written cfg p2 rs (iso_micro s, iso_micro e) d Hrw Hne (presentable_json _ Hpv Hnw)) as [m Hm].
    assert (m ∈ published log) as Hin by (rewrite Hp; apply list_elem_of_omap; eauto). apply event_of_attrs in Hm as (a & Ha & Hs). rewrite <- Hl in *.
    destruct (pending_accepted cfg scope r Hc log d a _ m t st Hpt Hpv Hw Ht Hrd eq_refl eq_refl Ha Hs) as (evt & en & H4 & _ & _ & H5 & H6 & H7 & H8 & _).
    exists m, evt. done.
Qed.

Module BacnetPollExample.
Import ClockConfigExample.

(** A device that answers every read; its clock stands at [clock]. *)
Definition answer (clock : spec_float) (q : string * string) : row :=
  if String.eqb (fst q) "analogValue,9"
  then (fst q, Some (if String.eqb (snd q) "units" then PStr "seconds" else PFloat clock), None)
  else (fst q, Some (PFloat (f64_dec false 215 (-1))), None).
#[local] Instance device : Device Z := {|
  read_multiple w q := (w + 1, Some (map (answer (f64_of_Z 12)) q));
  utc_now w := (w + 1, 1790000000000000 + w);
  monotonic w := (w, f64_of_Z w);
  js_publish w m := (w, true)
|}.
#[local] Instance any_time : GoClock := {| parse_nano := fun s => if has_suffix s "Z" then Some zero_time else None; format_nano := fun _ => "" |}.

Definition session_cfg : bacnet_config :=
  {| BacnetRuntimeExample.cfg0 with bc_points := map point_of (nk_Points cfg); bc_clocks := map clock_of_native (nk_Clocks cfg) |}.
Definition record : sessionRecord :=
  {| RunClockID := ""; Session := BacnetConfigExample.id; sr_snapshot := snap; nativeHash := hex; sr_verified := true |}.

Lemma session_configured : configured session_cfg scope record.
Proof.
  split; [exact snap_staged|reflexivity|reflexivity|reflexivity|reflexivity|done|]. destruct BacnetRuntimeExample.identified0. by split.
Qed.

Definition one : Z * poller * polled := Eval vm_compute in poll_with_clocks session_cfg 0 new_poller.
Definition sent : message := Eval vm_compute in match po_sent (snd one) with m :: _ => m | [] => {| ms_subject := ""; ms_data := ""; ms_headers := [] |} end.

Example sent_text : ms_headers sent =
  [("Nexus-Session", BacnetConfigExample.id); ("Nexus-Config-Revision", Revision snap);
   ("Nexus-Poll-Started-At", "2026-09-21T14:13:20.000000Z"); ("Nexus-Poll-Ended-At", "2026-09-21T14:13:20.000007Z")].
Proof. vm_compute. reflexivity. Qed.

Lemma sound_clocks : clocks_sound (map py_local_id (bc_points session_cfg)) (bc_clocks session_cfg).
Proof.
  split; try (apply (bool_decide_eq_true _); vm_compute; reflexivity). apply Forall_singleton. split_and!; try done.
  - apply (bool_decide_eq_true _). vm_compute. reflexivity.
Qed.

Lemma one_poll : poll_with_clocks session_cfg 0 new_poller = one.
Proof. vm_compute. reflexivity. Qed.
Lemma one_polls : polls session_cfg 1 0 new_poller = (fst one, [snd one]).
Proof. vm_compute. reflexivity. Qed.
Lemma one_sent : sent ∈ po_sent (snd one).
Proof. vm_compute. left. Qed.

(** The same poll with its device recorded. *)
Definition logged : Z * list call * poller * polled := Eval vm_compute in poll_with_clocks session_cfg (0, []) new_poller.
Definition log : list call := snd (fst (fst logged)).
Lemma logged_poll : poll_with_clocks session_cfg (0, []) new_poller = (fst (fst (fst logged)), log, snd (fst logged), snd logged).
Proof. vm_compute. reflexivity. Qed.
Lemma logged_sent : sent ∈ published log.
Proof. vm_compute. left. Qed.

Lemma logged_written : Forall call_written log.
Proof.
  assert (is_Some (format_f64 (f64_dec false 215 (-1))) /\ is_Some (py_repr (f64_dec false 215 (-1)))) as H1
    by (split; apply (bool_decide_eq_true _); vm_compute; reflexivity).
  assert (is_Some (format_f64 (f64_of_Z 12)) /\ is_Some (py_repr (f64_of_Z 12))) as H2
    by (split; apply (bool_decide_eq_true _); vm_compute; reflexivity).
  unfold log. cbn [logged fst snd]. repeat (apply Forall_cons; split); try exact I; try exact (fun _ => H1); try exact (fun _ => H2); constructor.
Qed.
Lemma logged_times : Forall (fun t => is_Some (parse_nano (iso_micro t))) (times_of log).
Proof. apply (bool_decide_eq_true _). vm_compute. reflexivity. Qed.

Lemma clock_quality_witness : poll_message session_cfg (List.concat (map po_reads ([] ++ [snd one]))) (snd one) sent.
Proof.
  pose proof (clock_quality session_cfg 1 0 (fst (fst one)) (snd (fst one)) [snd one] [] [] (snd one) sound_clocks ltac:(done) one_polls
    eq_refl) as Hf. rewrite Forall_forall in Hf. exact (Hf _ one_sent).
Defined.

Lemma poll_accepted_witness : exists t id v status, reading log t id v status /\
  (presentable v -> exists evt f, event_unjson (ms_data sent) = Some evt /\ boundFrame scope "" evt record = Some f /\ Timestamp f = iso_micro t).
Proof.
  destruct (poll_accepted session_cfg scope record {[BacnetConfigExample.id := record]} 0 (fst (fst (fst logged))) new_poller (snd (fst logged)) log (snd logged)
    session_configured sound_clocks) as (s & e & _ & _ & Hs & _).
  - apply lookup_singleton_eq.
  - reflexivity.
  - exact logged_poll.
  - exact logged_written.
  - exact logged_times.
  - destruct (Hs sent 1 logged_sent) as (_ & _ & _ & t & id & v & st & Hr & Hf). exists t, id, v, st. split; [exact Hr|]. intros Hv.
    destruct (Hf Hv) as (evt & en & He & _ & _ & _ & Hb). destruct (Hb "") as (f & H1 & _ & H2 & _). exists evt, f. split; [exact He|]. split; [exact H1|exact H2].
Defined.

(** The device did answer, and its value is one JSON can carry. *)
Example logged_reading : reading log 1790000000000004 "analogOutput,3" (PFloat (f64_dec false 215 (-1))) None.
Proof. eexists _, _. split; [left|]. split; left. Qed.

(** A value that is not finite is written as a text that is not JSON, and the
    gateway cannot decode the event. *)
Example nan_poison : exists data, make_event "bac-1" "analogInput,1" "" (PFloat S754_nan) "" "Good" None "2026-09-21T14:13:20Z" = Some data /\
  event_unjson data = None.
Proof. eexists. split; [reflexivity|]. vm_compute. reflexivity. Qed.

(** A device that times out: the client gives a row without a value for every
    object.  Nothing is published, and the poll counts as healthy. *)
Definition silent : Device Z := {|
  read_multiple w q := (w + 1, Some (map (fun r => (fst r, None, None)) q));
  utc_now w := (w + 1, 0); monotonic w := (w, f64_of_Z w); js_publish w m := (w, true) |}.
Definition plain_cfg : bacnet_config := {| session_cfg with bc_clocks := [] |}.
Example silent_healthy :
  let '(_, p, o) := poll_all (H := silent) plain_cfg 0 new_poller in po_sent o = [] /\ p_healthy p = true.
Proof. vm_compute. done. Qed.
(** With clocks the same device is not healthy. *)
Example silent_clocked : p_healthy (snd (fst (poll_all (H := silent) session_cfg 0 new_poller))) = false.
Proof. vm_compute. reflexivity. Qed.
End BacnetPollExample.
