(* ===== verification/BacnetWrite.v ===== *)
(** * Commands of the BACnet connector

    [src/connector/bacnet/bacnet_connector]: [ControlCommand.from_bytes] and
    [WriteReply] of [command.py], and [WriteHandler] of [write_handler.py], as
    what runs before its write and what runs after it, so that the writes of
    several commands may overlap.

    The theorems: a command of the gateway is read as it was sent and its answer
    comes back as it was given; a write goes only to a writable point of the
    configuration, with a priority of BACnet; and a command identifier is not
    written a second time while the handler remembers it, which it does until 999
    other commands were active since. *)

From Stdlib Require Import ZArith Lia Bool Ascii String List SpecFloat.
From stdpp Require Import base list strings gmap.
From S2P Require Import Prelude Json GoText Float Encoding Python Wire Sdk ClockConfig ClockText BacnetConfig.
#[local] Open Scope string_scope.
#[local] Open Scope list_scope.
#[local] Open Scope Z_scope.
#[local] Open Scope go_scope.

(** ** Commands and replies *)

Record py_command := {
  pc_control_id : json; pc_local_id : json; pc_value : option spec_float; pc_priority : Z; pc_release : bool
}.

(** A JSON number as Python has it: an integer, or a double. *)
Definition json_double (lit : string) : option spec_float :=
  match read_decimal lit with Some d => Some (double_of (dec_neg d) (dec_mant d) (dec_exp d)) | None => None end.

(** [float(v)]; an integer too large raises. *)
Definition py_float (v : json) : option spec_float :=
  match v with
  | JBool b => Some (f64_of_Z (if b then 1 else 0))
  | JStr s => float_text s
  | JNum lit =>
    match py_int v with
    | Some z => let x := f64_of_Z z in if f64_finite x then Some x else None
    | None => json_double lit
    end
  | _ => None
  end.

(** [ControlCommand.from_bytes]; [None] when it raises. *)
Definition from_bytes (data : string) : option py_command :=
  match loads data with
  | Some (JObj d) =>
    match match py_get "release" d with None => Some false | Some (JBool b) => Some b | Some _ => None end with
    | None => None
    | Some release =>
      match match py_get "priority" d with None => Some 0 | Some v => py_int v end with
      | None => None
      | Some priority =>
        if negb (between 0 16 priority) then None
        else
          match py_get "control_id" d, py_get "local_id" d with
          | Some control_id, Some local_id =>
            let cmd v := {| pc_control_id := control_id; pc_local_id := local_id; pc_value := v; pc_priority := priority; pc_release := release |} in
            if release then Some (cmd None)
            else match py_get "value" d with
                 | Some v => option_map (fun x => cmd (Some x)) (py_float v)
                 | None => None
                 end
          | _, _ => None
          end
      end
    end
  | _ => None
  end.

Definition encode (r : WriteReply) : string := dumps (reply_json r).

(** ** Keys of a dictionary *)

Inductive key := KNone | KInt (z : Z) | KFloat (x : spec_float) | KStr (s : string).
#[export] Instance spec_float_dec : EqDecision spec_float.
Proof. solve_decision. Defined.
#[export] Instance key_dec : EqDecision key.
Proof. solve_decision. Defined.

(** Equal numbers are one key; arrays and objects cannot be keys. *)
Definition float_key (x : spec_float) : key :=
  match x with
  | S754_zero _ => KInt 0
  | S754_finite s m e =>
    let a := if 0 <=? e then Zpos m * 2 ^ e else Zpos m / 2 ^ (- e) in
    if (0 <=? e) || (Zpos m mod 2 ^ (- e) =? 0) then KInt (if s then - a else a) else KFloat x
  | _ => KFloat x
  end.
Definition key_of (v : json) : option key :=
  match v with
  | JNull => Some KNone
  | JBool b => Some (KInt (if b then 1 else 0))
  | JStr s => Some (KStr s)
  | JNum lit => match py_int v with Some z => Some (KInt z) | None => option_map float_key (json_double lit) end
  | _ => None
  end.

(** A dictionary in insertion order: a new key comes last, an old one keeps its
    place. *)
Definition dict (V : Type) : Type := list (key * V).
Fixpoint dict_get {V} (d : dict V) (k : key) : option V :=
  match d with [] => None | (k', v) :: d => if decide (k = k') then Some v else dict_get d k end.
Fixpoint dict_set {V} (d : dict V) (k : key) (v : V) : dict V :=
  match d with [] => [(k, v)] | (k', v') :: d => if decide (k = k') then (k', v) :: d else (k', v') :: dict_set d k v end.

(** ** The handler *)

Definition _DEDUP_MAX : nat := 1000.

Section Handler.
  Context (cfg : bacnet_config).

(** A write under way: the command's key. *)
Record handler := { h_dedup : dict (option WriteReply); h_writing : gmap nat key }.
Definition new_handler : handler := {| h_dedup := []; h_writing := ∅ |}.

Definition target_of (id : string) : option py_point :=
  find (fun pt => String.eqb (py_local_id pt) id) (rev (List.filter (fun pt => match py_release_of pt with Some r => String.eqb r "" | None => true end) (bc_points cfg))).

Definition reply_of (ok : bool) (response : string) : WriteReply := {| rp_Success := ok; rp_Response := response |}.

(** What a handler does in sight of others. *)
Inductive event :=
| Answered (data reply : string)
| Written (k : key) (local_id : string) (value : option spec_float) (priority : Z)
| Raised (data : string).

Definition cache (k : key) (r : WriteReply) (d : dict (option WriteReply)) : dict (option WriteReply) :=
  let d := if (_DEDUP_MAX <=? length d)%nat then match d with [] => d | _ :: d => d end else d in
  dict_set d k (Some r).

(** [_execute] up to the write: an answer without one, a write, or an
    exception. *)
Inductive execution := Answer (r : WriteReply) | Write (local_id : string) (value : option spec_float) (priority : Z) | Raise.

Definition _execute (cmd : py_command) : execution :=
  let not_writable := Answer (reply_of false "not_writable") in
  match pc_local_id cmd with
  | JArr _ | JObj _ => Raise
  | JStr id =>
    match target_of id with
    | Some pt =>
      if py_writable pt
      then Write id (if pc_release cmd then None else pc_value cmd) (if 0 <? pc_priority cmd then pc_priority cmd else bc_default_priority cfg)
      else not_writable
    | None => not_writable
    end
  | _ => not_writable
  end.

(** [handle] up to the write, as task [i]. *)
Definition handle (i : nat) (data : string) (h : handler) : handler * list event :=
  match from_bytes data with
  | None => (h, [Answered data (encode (reply_of false "bad_request"))])
  | Some cmd =>
    match key_of (pc_control_id cmd) with
    | None => (h, [Raised data])
    | Some k =>
      match dict_get (h_dedup h) k with
      | Some (Some cached) => (h, [Answered data (encode cached)])
      | Some None => (h, [Answered data (encode (reply_of false "in_flight"))])
      | None =>
        let h := {| h with h_dedup := dict_set (h_dedup h) k None |} in
        match _execute cmd with
        | Raise => (h, [Raised data])
        | Answer r => ({| h with h_dedup := cache k r (h_dedup h) |}, [Answered data (encode r)])
        | Write id v p => ({| h with h_writing := <[i := k]> (h_writing h) |}, [Written k id v p])
        end
      end
    end
  end.

(** How a write ends, and its answer. *)
Inductive outcome := Done | TimedOut | Failed (text : string).
Definition result_of (o : outcome) : WriteReply :=
  match o with
  | Done => reply_of true "ok"
  | TimedOut => reply_of false "timeout"
  | Failed text => reply_of false ("device_error: " +:+ text)
  end.

Definition finish (i : nat) (k : key) (o : outcome) (h : handler) : handler :=
  {| h_dedup := cache k (result_of o) (h_dedup h); h_writing := delete i (h_writing h) |}.

Inductive op := Arrive (i : nat) (data : string) | Finish (i : nat) (o : outcome).

Definition step (h : handler) (x : op) : option (handler * list event) :=
  match x with
  | Arrive i data => match h_writing h !! i with None => Some (handle i data h) | Some _ => None end
  | Finish i o => match h_writing h !! i with Some k => Some (finish i k o h, []) | None => None end
  end.

Fixpoint run_ops (h : handler) (l : list op) : option (handler * list event) :=
  match l with
  | [] => Some (h, [])
  | x :: l =>
    match step h x with
    | Some (h, evs) => match run_ops h l with Some (h, tr) => Some (h, evs ++ tr) | None => None end
    | None => None
    end
  end.
End Handler.

(** ** A command crosses *)

Lemma digits_decimal s : all_digits s = true -> forall d, read_decimal s = Some d -> d = {| dec_neg := false; dec_mant := digits_val 0 s; dec_exp := 0 |}.
Proof.
  intros Hs d. unfold read_decimal. destruct s as [|c r]; [done|]. cbn [all_digits] in Hs. apply andb_prop in Hs as [Hc Hr].
  assert ((code c =? 45) = false) as -> by (unfold is_digit, between in Hc; lia). cbn [scan_int].
  assert (forall t, all_digits t = true -> scan_frac t = Some ("", t) /\ scan_exp t = Some ("", t)) as Ht.
  { intros [|x t]; [done|]. cbn [all_digits scan_frac scan_exp]. intros [Hx _]%andb_prop. unfold is_digit, between in Hx.
    replace (code x =? 46) with false by lia. replace ((code x =? 101) || (code x =? 69)) with false by lia. done. }
  destruct (code c =? 48) eqn:E0.
  - destruct (Ht r Hr) as [-> ->]. destruct r; [|done]. by intros [= <-].
  - rewrite Hc, (span_all_digits (String c r)) by (cbn; by rewrite Hc). by intros [= <-].
Qed.

Lemma int_decimal lit z : py_int (JNum lit) = Some z -> forall d, read_decimal lit = Some d ->
  dec_exp d = 0 /\ z = (if dec_neg d then - dec_mant d else dec_mant d).
Proof.
  intros Hz d Hd. assert (forall r, all_digits r = true -> lit = String "-" r -> z = - digits_val 0 r -> dec_exp d = 0 /\
    z = (if dec_neg d then - dec_mant d else dec_mant d)) as Hneg.
  { intros r Hr -> ->. assert (exists d', read_decimal r = Some d' /\ d = {| dec_neg := true; dec_mant := dec_mant d'; dec_exp := dec_exp d' |}) as (d' & E' & ->).
    { unfold read_decimal in Hd |- *. change (code "-" =? 45) with true in Hd. cbn iota beta in Hd.
      assert (match r with String c r0 => if code c =? 45 then (true, r0) else (false, r) | EmptyString => (false, r) end = (false, r)) as ->.
      { destruct r as [|c r]; [done|]. cbn in Hr. apply andb_prop in Hr as [Hc _]. unfold is_digit, between in Hc. by replace (code c =? 45) with false by lia. }
      destruct (scan_int r) as [[i s1]|]; [|done]. destruct (scan_frac s1) as [[f s2]|]; [|done]. destruct (scan_exp s2) as [[e [|]]|]; try done.
      injection Hd as <-. eexists. split; reflexivity. }
    apply (digits_decimal _ Hr) in E' as ->. done. }
  assert (forall s, all_digits s = true -> lit = s -> z = digits_val 0 s -> dec_exp d = 0 /\ z = (if dec_neg d then - dec_mant d else dec_mant d)) as Hpos.
  { intros s Hs -> ->. apply (digits_decimal _ Hs) in Hd as ->. done. }
  unfold py_int in Hz. destruct lit as [|c r]; [injection Hz as <-; by apply (Hpos "")|].
  destruct (decide (c = "-"%char)) as [->|Hc].
  - destruct (all_digits r) eqn:Er; [|done]. injection Hz as <-. by apply (Hneg r).
  - assert ((if all_digits (String c r) then Some (digits_val 0 (String c r)) else None) = Some z) as Hz'
      by (destruct c as [[] [] [] [] [] [] [] []]; done).
    destruct (all_digits (String c r)) eqn:Er; [|done]. injection Hz' as <-. by apply (Hpos (String c r)).
Qed.

(** The number Go wrote, up to the sign of zero, which an integer lacks. *)
Lemma number_crosses lit x : parse_f64 lit = Some x -> f64_finite x = true ->
  exists y, py_float (JNum lit) = Some y /\ (y = x \/ exists s, x = S754_zero s /\ y = S754_zero false).
Proof.
  unfold parse_f64. destruct (read_decimal lit) as [d|] eqn:Ed; [|done]. intros Hp Hf. unfold py_float.
  destruct (py_int (JNum lit)) as [z|] eqn:Ez.
  - destruct (int_decimal _ _ Ez _ Ed) as [E0 ->]. rewrite E0 in Hp. destruct (Z.eqb_spec (dec_mant d) 0) as [Em|Em].
    + injection Hp as <-. exists (S754_zero false). rewrite Em. split; [by destruct (dec_neg d)|]. right. eauto.
    + change (400 <? 0) with false in Hp. cbn iota in Hp. pose proof (Z.log2_nonneg (dec_mant d)).
      replace (0 + (Z.log2 (dec_mant d) + 1) <? - 400) with false in Hp by lia. cbv zeta in Hp.
      destruct (f64_finite (f64_dec _ _ _)); [|done]. injection Hp as <-.
      assert (f64_of_Z (if dec_neg d then - dec_mant d else dec_mant d) = f64_dec (dec_neg d) (dec_mant d) 0) as ->.
      { unfold f64_of_Z, f64_make, f64_dec. apply Z.eqb_neq in Em as Em'. rewrite Em'. cbn [Z.leb Z.compare]. rewrite Z.pow_0_r, Z.mul_1_r.
        destruct (dec_neg d), (dec_mant d); done. }
      rewrite Hf. eauto.
  - unfold json_double. rewrite Ed. unfold double_of. destruct (dec_mant d =? 0); [injection Hp as <-; eauto|].
    destruct (400 <? dec_exp d); [done|]. destruct (_ <? - 400); [injection Hp as <-; eauto|]. cbv zeta in Hp.
    destruct (f64_finite _); [|done]. injection Hp as <-. eauto.
Qed.

Lemma py_int_priority z : py_int (JNum (itoa z)) = Some z.
Proof.
  destruct (Z.le_gt_cases 0 z); [by apply py_int_itoa|]. unfold itoa. replace (z <? 0) with true by lia.
  destruct (dec_string_spec (- z) ltac:(lia)) as (Hv & Hd & _). change ("-" +:+ dec_string (- z)) with (String "-" (dec_string (- z))).
  unfold py_int. rewrite Hd, Hv. f_equal. lia.
Qed.

Definition request_valid (r : WriteRequest) : bool := valid_utf8 (wr_ControlID r) && valid_utf8 (wr_LocalID r) && valid_utf8 (wr_DeviceRef r).

Lemma request_json_ok r j : request_json r = Some j -> request_valid r = true -> valid j = true /\ depth_of j <= max_nesting.
Proof.
  unfold request_json, request_valid. intros E Hv. bools. destruct (f64_finite _); [|done]. destruct (format_f64 _) as [lit|] eqn:Ef; [|done]. injection E as <-.
  apply parse_format in Ef as [Hn _]. split.
  - destruct (wr_Release r); cbn [omit_false app]; members; apply itoa_valid.
  - destruct (wr_Release r); cbn; unfold max_nesting; lia.
Qed.

Lemma command_reads r j : request_json r = Some j -> request_valid r = true -> 0 <= wr_Priority r <= 16 ->
  exists v, from_bytes (marshal j) = Some {| pc_control_id := JStr (wr_ControlID r); pc_local_id := JStr (wr_LocalID r);
      pc_value := if wr_Release r then None else Some v; pc_priority := wr_Priority r; pc_release := wr_Release r |} /\
    (v = wr_Value r \/ exists s, wr_Value r = S754_zero s /\ v = S754_zero false).
Proof.
  intros E Hv Hp. destruct (request_json_ok _ _ E Hv) as [Hj Hd]. unfold from_bytes, loads. rewrite marshal_valid, parse_marshal by done.
  unfold request_json in E. destruct (f64_finite (wr_Value r)) eqn:Hf; [|done]. destruct (format_f64 _) as [lit|] eqn:Ef; [|done]. injection E as <-.
  apply parse_format in Ef as [_ Hn]. destruct (number_crosses _ _ Hn Hf) as (v & Ev & Hx). exists v. split; [|done].
  pose proof (py_int_priority (wr_Priority r)) as Hi.
  destruct (wr_Release r); cbn [omit_false app py_get String.eqb Ascii.eqb Bool.eqb]; rewrite Hi;
    replace (between 0 16 (wr_Priority r)) with true by (unfold between; lia); cbn [negb]; [done|]. by rewrite Ev.
Qed.

Lemma command_refused r j : request_json r = Some j -> request_valid r = true -> ~ 0 <= wr_Priority r <= 16 -> from_bytes (marshal j) = None.
Proof.
  intros E Hv Hp. destruct (request_json_ok _ _ E Hv) as [Hj Hd]. unfold from_bytes, loads. rewrite marshal_valid, parse_marshal by done.
  unfold request_json in E. destruct (f64_finite (wr_Value r)); [|done]. destruct (format_f64 _) as [lit|]; [|done]. injection E as <-.
  pose proof (py_int_priority (wr_Priority r)) as Hi.
  destruct (wr_Release r); cbn [omit_false app py_get String.eqb Ascii.eqb Bool.eqb]; rewrite Hi;
    by replace (between 0 16 (wr_Priority r)) with false by (unfold between; lia).
Qed.

Lemma encode_reads r : valid_utf8 (rp_Response r) = true -> reply_unjson (encode r) = Some r.
Proof.
  intros H. unfold reply_unjson, encode. rewrite parse_dumps; [destruct r; reflexivity| |cbn; unfold max_nesting; lia].
  unfold reply_json. members.
Qed.

(** ** What is written *)

(** A write the configuration allows: a writable point that is not a release,
    at a priority of BACnet. *)
Definition allowed (cfg : bacnet_config) (e : event) : Prop :=
  match e with
  | Written _ id _ p => (exists pt, pt ∈ bc_points cfg /\ py_local_id pt = id /\ py_writable pt = true /\ default "" (py_release_of pt) = "") /\ 1 <= p <= 16
  | _ => True
  end.

Lemma from_bytes_priority data cmd : from_bytes data = Some cmd -> 0 <= pc_priority cmd <= 16.
Proof.
  unfold from_bytes. destruct (loads data) as [[| | | | |d]|]; try done. destruct (match py_get "release" d with None => _ | Some _ => _ end) as [rel|]; [|done].
  destruct (match py_get "priority" d with None => _ | Some _ => _ end) as [p|]; [|done]. destruct (between 0 16 p) eqn:Hb; [|done]. unfold between in Hb. cbn [negb].
  destruct (py_get "control_id" d), (py_get "local_id" d); try done. destruct rel; [intros [= <-]; cbn; lia|].
  destruct (py_get "value" d) as [v|]; [|done]. destruct (py_float v); [|done]. intros [= <-]. cbn. lia.
Qed.

Section Writes.
  Context (cfg : bacnet_config) (Hdef : 1 <= bc_default_priority cfg <= 16).

Lemma execute_allowed k cmd id v p : 0 <= pc_priority cmd <= 16 -> _execute cfg cmd = Write id v p -> allowed cfg (Written k id v p).
Proof.
  intros Hp. unfold _execute. destruct (pc_local_id cmd) as [| | |s| |]; try done. destruct (target_of cfg s) as [pt|] eqn:Et; [|done].
  destruct (py_writable pt) eqn:Ew; [|done]. intros [= <- <- <-]. unfold target_of in Et. apply find_some in Et as [Hin Hid%String.eqb_eq].
  rewrite <- in_rev in Hin. apply list_elem_of_In, elem_of_filter_In in Hin as [Hin Hr]. split.
  - exists pt. split_and!; try done. destruct (py_release_of pt); [by apply String.eqb_eq in Hr|done].
  - destruct (Z.ltb_spec 0 (pc_priority cmd)); lia.
Qed.

Lemma handle_allowed i data h : Forall (allowed cfg) (snd (handle cfg i data h)).
Proof.
  unfold handle. destruct (from_bytes data) as [cmd|] eqn:Ef; [|by repeat constructor]. apply from_bytes_priority in Ef.
  destruct (key_of _) as [k|]; [|by repeat constructor]. destruct (dict_get _ k) as [[r|]|]; [by repeat constructor..|].
  destruct (_execute cfg cmd) eqn:Ee; cbn; [by repeat constructor| |by repeat constructor]. constructor; [|constructor]. by eapply execute_allowed.
Qed.

Lemma run_allowed l : forall h h' tr, run_ops cfg h l = Some (h', tr) -> Forall (allowed cfg) tr.
Proof.
  induction l as [|x l IH]; intros h h' tr E; cbn in E; [injection E as <- <-; constructor|]. destruct (step cfg h x) as [[h1 evs]|] eqn:Es; [|done].
  destruct (run_ops cfg h1 l) as [[h2 tr2]|] eqn:Er; [|done]. injection E as <- <-. apply Forall_app. split; [|by eapply IH].
  destruct x as [i data|i o]; cbn in Es; destruct (h_writing h !! i); try done; [|injection Es as <- <-; constructor]. injection Es as Es.
  pose proof (handle_allowed i data h) as Ha. by rewrite Es in Ha.
Qed.
End Writes.

(** ** What is remembered *)

Definition keys {V} (d : dict V) : list key := map fst d.

Lemma dict_get_keys {V} (d : dict V) k : is_Some (dict_get d k) <-> k ∈ keys d.
Proof.
  unfold keys. induction d as [|[k' v] d IH]; cbn; [split; [by intros [? ?]|by intros ?%elem_of_nil]|].
  rewrite elem_of_cons. case_decide; [split; eauto|]. rewrite IH. naive_solver.
Qed.

Definition add_key (l : list key) (k : key) : list key := if bool_decide (k ∈ l) then l else l ++ [k].

Lemma dict_set_keys {V} (d : dict V) k v : keys (dict_set d k v) = add_key (keys d) k.
Proof.
  unfold add_key, keys. induction d as [|[k' v'] d IH]; [done|]. cbn [dict_set map fst].
  destruct (decide (k = k')) as [->|Hne]; [by rewrite (bool_decide_eq_true_2 (k' ∈ k' :: _)) by left|].
  cbn [map fst]. rewrite IH. destruct (decide (k ∈ map fst d)) as [Hk|Hk].
  - rewrite !bool_decide_eq_true_2 by (by try right). done.
  - rewrite !bool_decide_eq_false_2 by (rewrite ?elem_of_cons; naive_solver). done.
Qed.

Definition evict_key (l : list key) : list key := if (_DEDUP_MAX <=? length l)%nat then tail l else l.
Lemma cache_keys k r d : keys (cache k r d) = add_key (evict_key (keys d)) k.
Proof.
  unfold cache. rewrite dict_set_keys. f_equal. unfold evict_key, keys. rewrite length_map. destruct (_ <=? _)%nat; [by destruct d|done].
Qed.

Lemma add_key_nodup l k : NoDup l -> NoDup (add_key l k).
Proof. intros H. unfold add_key. case_bool_decide; [done|]. by apply NoDup_snoc. Qed.
Lemma evict_key_nodup l : NoDup l -> NoDup (evict_key l).
Proof. intros H. unfold evict_key. destruct (_ <=? _)%nat; [|done]. destruct l; [done|]. by apply NoDup_cons in H as []. Qed.

Section Window.
  Context (cfg : bacnet_config) (k : key) (others : list key) (Hlen : (length others < 999)%nat).

(** The key is remembered, and all that came after it is of the others. *)
Definition placed (l : list key) : Prop := NoDup l /\ exists pre post, l = pre ++ k :: post /\ Forall (fun x => x ∈ others) post.
Definition remembered (h : handler) : Prop :=
  placed (keys (h_dedup h)) /\ forall i x, h_writing h !! i = Some x -> x = k \/ x ∈ others.

Lemma placed_in l : placed l -> k ∈ l.
Proof. intros (_ & pre & post & -> & _). set_solver. Qed.

Lemma placed_add l x : placed l -> x = k \/ x ∈ others -> placed (add_key l x).
Proof.
  intros Hp Hx. pose proof (placed_in _ Hp) as Hk. destruct Hp as (Hn & pre & post & -> & Hf). split; [by apply add_key_nodup|].
  unfold add_key. case_bool_decide as Hb; [by exists pre, post|]. destruct Hx as [->|Hx]; [done|].
  exists pre, (post ++ [x]). rewrite <- (assoc_L app). split; [done|]. apply Forall_app. by repeat constructor.
Qed.

Lemma placed_evict l : placed l -> placed (evict_key l).
Proof.
  intros (Hn & pre & post & -> & Hf). split; [by apply evict_key_nodup|]. unfold evict_key.
  destruct (Nat.leb_spec _DEDUP_MAX (length (pre ++ k :: post))) as [Hl|]; [|by exists pre, post].
  destruct pre as [|x pre]; [|by exists pre, post]. exfalso. cbn in Hl, Hn. apply NoDup_cons in Hn as [_ Hn].
  assert (length post <= length others)%nat as Hle.
  { apply NoDup_incl_length; [by apply NoDup_ListNoDup|]. intros y Hy%list_elem_of_In. rewrite Forall_forall in Hf. by apply list_elem_of_In, Hf. }
  unfold _DEDUP_MAX in Hl. lia.
Qed.

(** The key of an arriving command. *)
Definition arrival_key (x : op) : option key :=
  match x with Arrive _ data => from_bytes data ≫= fun cmd => key_of (pc_control_id cmd) | Finish _ _ => None end.

Definition writes_key (e : event) : Prop := match e with Written x _ _ _ => x = k | _ => False end.

Lemma step_remembered h x h' evs : remembered h -> (forall y, arrival_key x = Some y -> y = k \/ y ∈ others) -> step cfg h x = Some (h', evs) ->
  remembered h' /\ Forall (fun e => ~ writes_key e) evs.
Proof.
  intros [Hp Hw] Hx E. destruct x as [i data|i o]; cbn in E, Hx.
  - destruct (h_writing h !! i); [done|]. injection E as E. unfold handle in E.
    destruct (from_bytes data) as [cmd|]; [|injection E as <- <-; split; [done|by repeat constructor; intros []]]. cbn in Hx.
    destruct (key_of _) as [y|] eqn:Ek; [|injection E as <- <-; split; [done|by repeat constructor; intros []]]. specialize (Hx y eq_refl).
    destruct (dict_get (h_dedup h) y) as [[r|]|] eqn:Ed; [injection E as <- <-; split; [done|by repeat constructor; intros []]..|].
    assert (y <> k) as Hne.
    { intros ->. apply placed_in, dict_get_keys in Hp as [v Hv]. congruence. }
    assert (placed (keys (dict_set (h_dedup h) y None))) as Hp' by (rewrite dict_set_keys; by apply placed_add).
    destruct (_execute cfg cmd) as [r|id v p|]; injection E as <- <-.
    + split; [|by repeat constructor; intros []]. split; [|done]. cbn [h_dedup]. rewrite cache_keys. by apply placed_add; [apply placed_evict|].
    + split; [|repeat constructor; cbn; done]. split; [done|]. cbn. intros j z [[_ <-]|[_ Hz]]%lookup_insert_Some; eauto.
    + split; [by split|by repeat constructor; intros []].
  - destruct (h_writing h !! i) as [y|] eqn:Ey; [|done]. injection E as <- <-. split; [|constructor]. split.
    + cbn [h_dedup finish]. rewrite cache_keys. apply placed_add; [by apply placed_evict|]. eauto.
    + cbn. intros j z [_ Hz]%lookup_delete_Some. eauto.
Qed.

Lemma run_remembered l : forall h h' tr, remembered h -> (forall x y, x ∈ l -> arrival_key x = Some y -> y = k \/ y ∈ others) ->
  run_ops cfg h l = Some (h', tr) -> remembered h' /\ Forall (fun e => ~ writes_key e) tr.
Proof.
  induction l as [|x l IH]; intros h h' tr Hr Hx E; cbn in E; [injection E as <- <-; split; [done|constructor]|].
  destruct (step cfg h x) as [[h1 evs]|] eqn:Es; [|done]. destruct (run_ops cfg h1 l) as [[h2 tr2]|] eqn:Er; [|done]. injection E as <- <-.
  destruct (step_remembered _ _ _ _ Hr (fun y => Hx x y ltac:(left)) Es) as [Hr1 Hf].
  destruct (IH _ _ _ Hr1 (fun a y Ha => Hx a y ltac:(by right)) Er) as [Hr2 Hf2]. split; [done|]. by apply Forall_app.
Qed.
End Window.

Lemma handle_nodup cfg i data h : NoDup (keys (h_dedup h)) -> NoDup (keys (h_dedup (fst (handle cfg i data h)))).
Proof.
  intros Hn. unfold handle. destruct (from_bytes data) as [cmd|]; [|done]. destruct (key_of _) as [k|]; [|done].
  destruct (dict_get _ k) as [[r|]|]; [done..|]. destruct (_execute cfg cmd); cbn [fst h_dedup]; rewrite ?cache_keys, dict_set_keys;
    auto using add_key_nodup, evict_key_nodup.
Qed.

Lemma run_nodup cfg l : forall h h' tr, NoDup (keys (h_dedup h)) -> run_ops cfg h l = Some (h', tr) -> NoDup (keys (h_dedup h')).
Proof.
  induction l as [|x l IH]; intros h h' tr Hn E; cbn in E; [by injection E as <- <-|]. destruct (step cfg h x) as [[h1 evs]|] eqn:Es; [|done].
  destruct (run_ops cfg h1 l) as [[h2 tr2]|] eqn:Er; [|done]. injection E as <- <-. eapply IH; [|exact Er].
  destruct x as [i data|i o]; cbn in Es; destruct (h_writing h !! i) as [y|]; try done; injection Es as Es.
  - pose proof (handle_nodup cfg i data h Hn) as Hh. by rewrite Es in Hh.
  - subst h1. cbn [h_dedup finish]. rewrite cache_keys. auto using add_key_nodup, evict_key_nodup.
Qed.

(** The handler after it took a new command. *)
Lemma begin_remembered cfg others i data cmd k h : NoDup (keys (h_dedup h)) -> from_bytes data = Some cmd -> key_of (pc_control_id cmd) = Some k ->
  dict_get (h_dedup h) k = None -> (length others < 999)%nat -> (forall i x, h_writing h !! i = Some x -> x = k \/ x ∈ others) ->
  remembered k others (fst (handle cfg i data h)) /\ exists e, snd (handle cfg i data h) = [e].
Proof.
  intros Hn Ef Ek Ed Hlen Hw. unfold handle. rewrite Ef, Ek, Ed.
  assert (placed k others (keys (dict_set (h_dedup h) k None))) as Hp.
  { rewrite dict_set_keys. split; [by apply add_key_nodup|]. unfold add_key. rewrite bool_decide_eq_false_2.
    - exists (keys (h_dedup h)), []. by split.
    - intros Hk%dict_get_keys. rewrite Ed in Hk. by destruct Hk. }
  destruct (_execute cfg cmd) as [r|id v p|]; cbn [fst snd]; (split; [split|by eexists]); cbn [h_dedup h_writing]; try done.
  - rewrite cache_keys. apply placed_add; auto using placed_evict.
  - intros j z [[_ <-]|[_ Hz]]%lookup_insert_Some; [by left|eauto].
Qed.

(** C19: a command identifier is written once.  However arrivals and ends of writes
    interleave, take the moment the handler begins a command it has no memory of.
    As long as the commands active since then, those under way at that moment and
    those that arrived later, carry fewer than 999 other identifiers, the
    identifier is not written again, and it stays in memory: another arrival of it
    is answered from there, with [in_flight] or the reply of the first. *)
Theorem command_once (cfg : bacnet_config) (k : key) (others : list key) (before after : list op) (h h' : handler) (tr0 tr : list event)
  (i : nat) (data : string) (cmd : py_command) :
  run_ops cfg new_handler before = Some (h, tr0) ->
  from_bytes data = Some cmd -> key_of (pc_control_id cmd) = Some k -> dict_get (h_dedup h) k = None ->
  (length others < 999)%nat -> (forall j x, h_writing h !! j = Some x -> x = k \/ x ∈ others) ->
  (forall x y, x ∈ after -> arrival_key x = Some y -> y = k \/ y ∈ others) ->
  run_ops cfg h (Arrive i data :: after) = Some (h', tr) ->
  exists e tr', tr = e :: tr' /\ Forall (fun e => ~ writes_key k e) tr' /\
    forall j data' cmd', from_bytes data' = Some cmd' -> key_of (pc_control_id cmd') = Some k ->
      exists r, handle cfg j data' h' = (h', [Answered data' (encode (default (reply_of false "in_flight") r))]) /\ dict_get (h_dedup h') k = Some r.
Proof.
  intros Hrun Ef Ek Ed Hlen Hw Ha E. apply run_nodup in Hrun; [|constructor].
  destruct (begin_remembered cfg others i data cmd k h Hrun Ef Ek Ed Hlen Hw) as [Hr (e & He)].
  cbn [run_ops step] in E. destruct (h_writing h !! i); [done|]. destruct (handle cfg i data h) as [h1 evs] eqn:Eh. cbn [fst snd] in Hr, He. subst evs.
  destruct (run_ops cfg h1 after) as [[h2 tr2]|] eqn:Er; [|done]. injection E as <- <-.
  destruct (run_remembered cfg k others Hlen after h1 h2 tr2 Hr Ha Er) as [[Hp _] Hf]. exists e, tr2. split_and!; [done|done|].
  intros j data' cmd' Ef' Ek'. apply (placed_in k others Hlen), dict_get_keys in Hp as [r Hd]. exists r. split; [|done]. unfold handle. rewrite Ef', Ek', Hd. by destruct r.
Qed.

(** C20: a command of the gateway crosses to the device.  What Go's dispatcher sends
    for a writable point of the configuration, with an identifier the handler has
    no memory of, becomes one write of that point: the value the gateway sent (a
    release writes none), at the priority it sent or the configured one for 0.  A
    priority outside 0 to 16 is answered as a bad request and nothing is written.
    Whatever the write comes to, Go reads the answer as the handler gave it. *)
Theorem command_crosses (cfg : bacnet_config) (r : WriteRequest) (j : json) (pt : py_point) (i : nat) (h : handler) :
  request_json r = Some j -> request_valid r = true -> target_of cfg (wr_LocalID r) = Some pt -> py_writable pt = true ->
  dict_get (h_dedup h) (KStr (wr_ControlID r)) = None ->
  (0 <= wr_Priority r <= 16 -> exists v,
    snd (handle cfg i (marshal j) h) = [Written (KStr (wr_ControlID r)) (wr_LocalID r) (if wr_Release r then None else Some v)
      (if 0 <? wr_Priority r then wr_Priority r else bc_default_priority cfg)] /\
    (v = wr_Value r \/ exists s, wr_Value r = S754_zero s /\ v = S754_zero false) /\
    h_writing (fst (handle cfg i (marshal j) h)) !! i = Some (KStr (wr_ControlID r))) /\
  (~ 0 <= wr_Priority r <= 16 -> handle cfg i (marshal j) h = (h, [Answered (marshal j) (encode (reply_of false "bad_request"))])) /\
  forall o, (forall text, o = Failed text -> valid_utf8 text = true) -> reply_unjson (encode (result_of o)) = Some (result_of o).
Proof.
  intros E Hv Ht Hw Hd. split_and!.
  - intros Hp. destruct (command_reads r j E Hv Hp) as (v & Ef & Hx). exists v. unfold handle. rewrite Ef. cbn [pc_control_id key_of]. rewrite Hd.
    unfold _execute. cbn [pc_local_id pc_release pc_value pc_priority]. rewrite Ht, Hw. cbn [fst snd h_writing]. rewrite lookup_insert_eq.
    split_and!; [by destruct (wr_Release r)|done|done].
  - intros Hp. unfold handle. by rewrite (command_refused r j E Hv Hp).
  - intros o Ho. apply encode_reads. destruct o as [| |text]; [done|done|]. apply valid_app; [done|]. by apply Ho.
Qed.

(** the handler writes only what the configuration allows.  In every run, each
    write goes to a point of the configuration that is writable and no release
    point, at a priority from 1 to 16. *)
Theorem writes_allowed (cfg : bacnet_config) (l : list op) (h' : handler) (tr : list event) :
  1 <= bc_default_priority cfg <= 16 -> run_ops cfg new_handler l = Some (h', tr) -> Forall (allowed cfg) tr.
Proof. intros Hd. apply run_allowed, Hd. Qed.

Module BacnetWriteExample.
Definition setpoint : py_point := {| py_local_id := "analogOutput,3"; py_device_ref := "7"; py_unit := ""; py_writable := true; py_release_of := None |}.
Definition cfg0 : bacnet_config :=
  {| bc_connector_id := "bac-1"; bc_nats_url := ""; bc_address := ""; bc_device_id := 7; bc_points := [setpoint]; bc_poll_interval := f64_of_Z 60;
     bc_local_address := ""; bc_default_priority := 8; bc_write_timeout := f64_of_Z 10; bc_chunk_size := 20; bc_read_timeout := f64_of_Z 5;
     bc_cov := false; bc_health_port := 8080; bc_clock_revision := ""; bc_clocks := []; bc_managed_session := ""; bc_native_hash := ""; bc_auth_file := "" |}.
Definition request0 (id : string) (p : Z) : WriteRequest :=
  {| wr_Release := false; wr_ControlID := id; wr_LocalID := "analogOutput,3"; wr_DeviceRef := "7"; wr_Value := f64_of_Z 21; wr_Priority := p |}.
Definition json0 (id : string) (p : Z) : json :=
  JObj [("control_id", JStr id); ("local_id", JStr "analogOutput,3"); ("device_ref", JStr "7"); ("value", JNum "21"); ("priority", JNum (itoa p))].
Definition data0 (id : string) : string := marshal (json0 id 0).

(** A repeated command while the first is under way, and after. *)
Definition repeated : list op := [Arrive 1 (data0 "c1"); Arrive 1 (data0 "c2"); Finish 0 Done; Arrive 2 (data0 "c1")].
Definition cmd0 : py_command :=
  {| pc_control_id := JStr "c1"; pc_local_id := JStr "analogOutput,3"; pc_value := Some (f64_of_Z 21); pc_priority := 0; pc_release := false |}.
Definition end0 : handler * list event := Eval vm_compute in default (new_handler, []) (run_ops cfg0 new_handler (Arrive 0 (data0 "c1") :: repeated)).

Lemma run0 : run_ops cfg0 new_handler (Arrive 0 (data0 "c1") :: repeated) = Some (fst end0, snd end0).
Proof. vm_compute. reflexivity. Qed.
Lemma arrivals0 x y : x ∈ repeated -> arrival_key x = Some y -> y = KStr "c1" \/ y ∈ [KStr "c2"].
Proof.
  intros Hx Hy. unfold repeated in Hx. rewrite !elem_of_cons in Hx. destruct Hx as [->|[->|[->|[->|[]%elem_of_nil]]]]; vm_compute in Hy; try done; injection Hy as <-; auto.
  right. left.
Qed.

Lemma command_once_witness : exists e tr', snd end0 = e :: tr' /\ Forall (fun e => ~ writes_key (KStr "c1") e) tr'.
Proof.
  destruct (command_once cfg0 (KStr "c1") [KStr "c2"] [] repeated new_handler (fst end0) [] (snd end0) 0 (data0 "c1") cmd0) as (e & tr' & H1 & H2 & _).
  - reflexivity.
  - vm_compute. reflexivity.
  - reflexivity.
  - reflexivity.
  - cbn. lia.
  - intros j x Hx. discriminate Hx.
  - exact arrivals0.
  - exact run0.
  - exists e, tr'. split; assumption.
Defined.

Lemma command_crosses_witness : exists v, snd (handle cfg0 0 (data0 "c1") new_handler) = [Written (KStr "c1") "analogOutput,3" (Some v) 8].
Proof.
  destruct (command_crosses cfg0 (request0 "c1" 0) (json0 "c1" 0) setpoint 0 new_handler) as [H _].
  - vm_compute. reflexivity.
  - reflexivity.
  - reflexivity.
  - reflexivity.
  - reflexivity.
  - destruct H as (v & Hv & _); [cbn; lia|]. exists v. exact Hv.
Defined.

Lemma writes_allowed_witness : Forall (allowed cfg0) (snd end0).
Proof. apply (writes_allowed cfg0 (Arrive 0 (data0 "c1") :: repeated) (fst end0)); [cbn; lia|exact run0]. Defined.

(** A control identifier that is an array raises before any answer; a local
    identifier that is one raises after the identifier was reserved, which then
    stays in flight. *)
Definition odd_id : string := marshal (JObj [("control_id", JArr []); ("local_id", JStr "analogOutput,3"); ("value", JNum "1")]).
Definition odd_local : string := marshal (JObj [("control_id", JStr "c1"); ("local_id", JArr []); ("value", JNum "1")]).
Example odd_id_unanswered : option_map snd (run_ops cfg0 new_handler [Arrive 0 odd_id]) = Some [Raised odd_id].
Proof. vm_compute. reflexivity. Qed.
Example odd_local_stuck : option_map snd (run_ops cfg0 new_handler [Arrive 0 odd_local; Arrive 0 (data0 "c1")]) =
  Some [Raised odd_local; Answered (data0 "c1") (encode (reply_of false "in_flight"))].
Proof. vm_compute. reflexivity. Qed.
End BacnetWriteExample.
