(* ===== verification/ClockDrain.v ===== *)
(** * The drain barrier

    [src/internal/clocksync/gateway.go]: how the worker of [Run], the commands
    of [Enter], a producer that publishes, the consumer's counts on the server,
    and the controller's [Hold], [Drain] and [Resume] interleave.  A step is a
    critical section of the gateway's mutex or one exchange with NATS.

    The theorems: when [Drain] returns, nothing published before it is left and
    nothing is being processed, whatever the interleaving; and the barrier is
    never a deadlock, since the worker goes on while it drains. *)

From Stdlib Require Import Lia Bool List.
From stdpp Require Import base list.

(** ** State *)

(** Where the worker is: before the admission check, waiting for a message,
    with a message before the second check, processing it, and after. *)
Inductive worker_pc := Waiting | Fetching | Fetched | Processing | Ended.

(** Where the controller is.  [Informed b]: the consumer's info was read, and
    showed nothing left when [b]. *)
Inductive control_pc := Free | Holding | Held | Stopped | Polling | Informed (b : bool) | Returning | Drained | Resuming.

#[export] Instance worker_pc_eq : EqDecision worker_pc.
Proof. solve_decision. Defined.
#[export] Instance control_pc_eq : EqDecision control_pc.
Proof. solve_decision. Defined.

(** [s_pending] and [s_unacked] are the consumer's counts; [s_settling]: an
    acknowledgement or termination of the worker's message that the server has
    not handled yet. *)
Record state := {
  s_held : bool; s_draining : bool; s_publishing : bool; s_commands : nat; s_active : nat;
  s_pending : nat; s_unacked : nat; s_settling : bool; s_worker : worker_pc; s_control : control_pc
}.

Definition start : state :=
  {| s_held := true; s_draining := false; s_publishing := false; s_commands := 0; s_active := 0; s_pending := 0; s_unacked := 0;
     s_settling := false; s_worker := Waiting; s_control := Free |}.

(** ** Steps *)

Inductive action :=
  Publish                                           (* the producer *)
| Allow | Deliver | Redeliver | NoMessages | Start | Refuse | Settle | Fail | Finish   (* the worker *)
| Settled                                           (* the server *)
| EnterCommand | LeaveCommand                       (* commands *)
| HoldBegin | HoldReturn | HoldFail | StopProducer | DrainBegin | ReadInfo | CheckIdle | DrainReturn | DrainFail
| ResumeProducer | OpenGate | ResumeFail | RequestStop. (* the controller *)

(** [allowed := !g.held || g.draining]. *)
Definition allowed (s : state) : bool := negb (s_held s) || s_draining s.

Definition when (b : bool) (s : state) : option state := if b then Some s else None.
Definition worker_at (s : state) (w : worker_pc) : bool := bool_decide (s_worker s = w).
Definition control_at (s : state) (c : control_pc) : bool := bool_decide (s_control s = c).

Definition worker_step (a : action) (s : state) : option state :=
  match a with
  | Allow => when (worker_at s Waiting && allowed s) {| s with s_worker := Fetching |}
  (* The fetch follows the settlement on the same connection, so the server
     has handled it by then. *)
  | Deliver => when (worker_at s Fetching && negb (s_settling s) && (0 <? s_pending s))
      {| s with s_pending := s_pending s - 1; s_unacked := S (s_unacked s); s_worker := Fetched |}
  | Redeliver => when (worker_at s Fetching && negb (s_settling s) && (0 <? s_unacked s)) {| s with s_worker := Fetched |}
  | NoMessages => when (worker_at s Fetching) {| s with s_worker := Waiting |}
  | Start => when (worker_at s Fetched && allowed s) {| s with s_active := S (s_active s); s_worker := Processing |}
  | Refuse => when (worker_at s Fetched && negb (allowed s)) {| s with s_worker := Waiting |}
  | Settle => when (worker_at s Processing) {| s with s_settling := true; s_worker := Ended |}
  | Fail => when (worker_at s Processing) {| s with s_worker := Ended |}
  | Finish => when (worker_at s Ended) {| s with s_active := s_active s - 1; s_worker := Waiting |}
  | _ => None
  end.

Definition control_step (a : action) (s : state) : option state :=
  match a with
  | HoldBegin => when (control_at s Free) {| s with s_held := true; s_control := Holding |}
  | HoldReturn => when (control_at s Holding && (s_active s =? 0) && (s_commands s =? 0)) {| s with s_control := Held |}
  | HoldFail => when (control_at s Holding || control_at s Held) {| s with s_control := Free |}
  | StopProducer => when (control_at s Held) {| s with s_publishing := false; s_control := Stopped |}
  | DrainBegin => when (control_at s Stopped) {| s with s_draining := true; s_control := Polling |}
  | ReadInfo => when (control_at s Polling) {| s with s_control := Informed ((s_pending s =? 0) && (s_unacked s =? 0)) |}
  | CheckIdle =>
    match s_control s with
    | Informed empty => Some {| s with s_control := if empty && (s_active s =? 0) then Returning else Polling |}
    | _ => None
    end
  | DrainReturn => when (control_at s Returning) {| s with s_draining := false; s_control := Drained |}
  | DrainFail => when (control_at s Polling) {| s with s_draining := false; s_control := Free |}
  | ResumeProducer => when (control_at s Drained) {| s with s_publishing := true; s_control := Resuming |}
  | OpenGate => when (control_at s Resuming) {| s with s_held := false; s_control := Free |}
  | ResumeFail => when (control_at s Resuming || control_at s Drained) {| s with s_control := Free |}
  | RequestStop => Some {| s with s_held := true |}
  | _ => None
  end.

Definition step (a : action) (s : state) : option state :=
  match a with
  | Publish => when (s_publishing s) {| s with s_pending := S (s_pending s) |}
  | Settled => when (s_settling s) {| s with s_settling := false; s_unacked := s_unacked s - 1 |}
  | EnterCommand => when (negb (s_held s)) {| s with s_commands := S (s_commands s) |}
  | LeaveCommand => when (0 <? s_commands s) {| s with s_commands := s_commands s - 1 |}
  | Allow | Deliver | Redeliver | NoMessages | Start | Refuse | Settle | Fail | Finish => worker_step a s
  | _ => control_step a s
  end.

Inductive reachable : state -> Prop :=
| reach_start : reachable start
| reach_step s a s' : reachable s -> step a s = Some s' -> reachable s'.

Fixpoint run (acts : list action) (s : state) : option state :=
  match acts with [] => Some s | a :: acts' => match step a s with Some s' => run acts' s' | None => None end end.

(** ** The invariant *)

(** The message in the worker's hand. *)
Definition in_hand (w : worker_pc) : bool := match w with Fetched | Processing => true | _ => false end.
Definition counted (w : worker_pc) : nat := match w with Processing | Ended => 1 | _ => 0 end.

(** From the start of [Hold], its return, that of [Stop], and during [Drain]. *)
Definition closed (c : control_pc) : bool := match c with Free => false | _ => true end.
Definition holding (c : control_pc) : bool := match c with Free | Holding => false | _ => true end.
Definition quiet (c : control_pc) : bool := match c with Stopped | Polling | Informed _ | Returning | Drained => true | _ => false end.
Definition draining (c : control_pc) : bool := match c with Polling | Informed _ | Returning => true | _ => false end.
Definition seen_empty (c : control_pc) : bool := match c with Informed true | Returning | Drained => true | _ => false end.
Definition seen_idle (c : control_pc) : bool := match c with Returning | Drained => true | _ => false end.

Record inv (s : state) : Prop := {
  in_active : s_active s = counted (s_worker s);
  in_hand_unacked : in_hand (s_worker s) = true -> (0 < s_unacked s) /\ s_settling s = false;
  in_settling : s_settling s = true -> 0 < s_unacked s;
  in_held : closed (s_control s) = true -> s_held s = true;
  in_commands : holding (s_control s) = true -> s_commands s = 0;
  in_quiet : quiet (s_control s) = true -> s_publishing s = false;
  in_draining : s_draining s = draining (s_control s);
  in_empty : seen_empty (s_control s) = true -> s_pending s = 0 /\ s_unacked s = 0;
  in_idle : seen_idle (s_control s) = true -> s_active s = 0
}.

(** Decide the guard of a step and the program counters, then the clauses. *)
Ltac step_cases :=
  repeat match goal with
    | H : when ?b ?s = Some _ |- _ => unfold when in H; destruct b eqn:?; [injection H as <-|discriminate H]
    | H : Some _ = Some _ |- _ => injection H as <-
    | H : None = Some _ |- _ => discriminate H
    | H : _ && _ = true |- _ => apply andb_true_iff in H as [? ?]
    | H : _ || _ = true |- _ => apply orb_true_iff in H
    | H : worker_at _ _ = true |- _ => apply bool_decide_eq_true in H
    | H : control_at _ _ = true |- _ => apply bool_decide_eq_true in H
    | H : (_ <? _) = true |- _ => apply Nat.ltb_lt in H
    | H : (_ =? _) = true |- _ => apply Nat.eqb_eq in H
    | H : negb _ = true |- _ => apply negb_true_iff in H
    end.
Lemma idle_empty c : seen_idle c = true -> seen_empty c = true.
Proof. by destruct c. Qed.

Ltac settle_clauses :=
  split; cbn in *; intros;
  try match goal with H : seen_idle _ = true |- _ => pose proof (idle_empty _ H) end;
  repeat match goal with
    | H : ?b = true -> _, H' : ?b = true |- _ => specialize (H H')
    | H : true = true -> _ |- _ => specialize (H eq_refl)
    | H : _ /\ _ |- _ => destruct H
    end; try split; try congruence; try lia; auto.

Lemma worker_inv a s s' : inv s -> worker_step a s = Some s' -> inv s'.
Proof.
  intros [Ha Hh Hs Hc Hn Hq Hd He Hi] H. destruct a; try discriminate H; cbn [worker_step] in H; step_cases;
    match goal with E : s_worker s = _ |- _ => rewrite E in * end; settle_clauses.
Qed.

Lemma control_inv a s s' : inv s -> control_step a s = Some s' -> inv s'.
Proof.
  intros [Ha Hh Hs Hc Hn Hq Hd He Hi] H. destruct a; try discriminate H; cbn [control_step] in H.
  all: try (unfold control_at in H; destruct (s_control s) as [| | | | |b| | |] eqn:E; cbn in H; try discriminate H).
  all: try destruct b; try (destruct (Nat.eqb_spec (s_pending s) 0), (Nat.eqb_spec (s_unacked s) 0), (Nat.eqb_spec (s_active s) 0));
    cbn [andb] in H; step_cases; settle_clauses.
Qed.

Lemma holding_closed c : holding c = true -> closed c = true.
Proof. by destruct c. Qed.

Lemma step_inv a s s' : inv s -> step a s = Some s' -> inv s'.
Proof.
  intros Hi H. destruct a; cbn [step] in H; try (by eapply worker_inv); try (by eapply control_inv);
    destruct Hi as [Ha Hh Hs Hc Hn Hq Hd He Hi]; step_cases; settle_clauses;
    match goal with E : seen_empty _ = true, P : s_publishing _ = true |- _ => destruct (s_control s); cbn in *; naive_solver
    | E : holding _ = true |- _ => apply holding_closed, Hc in E; congruence end.
Qed.

Lemma drain_inv s : reachable s -> inv s.
Proof. induction 1 as [|s a s' _ IH]; [by split|]. by eapply step_inv. Qed.

(** C7: Whatever the interleaving of the producer, the worker, the commands and
    the controller, once [Drain] has returned every message published before it
    is settled, none is in the worker's hands, no command is under way and
    admission is held; and this lasts until the controller resumes. *)
Theorem drain_barrier (s : state) : reachable s -> s_control s = Drained ->
  s_held s = true /\ s_publishing s = false /\ s_pending s = 0 /\ s_unacked s = 0 /\ s_commands s = 0 /\ s_active s = 0 /\
  in_hand (s_worker s) = false /\
  forall a s', step a s = Some s' -> a = ResumeProducer \/ a = ResumeFail \/ s_control s' = Drained.
Proof.
  intros [Ha Hh Hs Hc Hn Hq Hd He Hi]%drain_inv E. rewrite E in *. cbn in *. destruct He as [Hp Hu]; [done|].
  split_and!; auto.
  - destruct (in_hand (s_worker s)); [|done]. destruct Hh; [done|lia].
  - intros a s' Hst. destruct a; auto; cbn [step worker_step control_step] in Hst; rewrite ?E in Hst;
      step_cases; destruct_or?; step_cases; cbn; auto; congruence.
Qed.

(** ** The barrier is passable *)

(** The worker, the server, and the controller's own polls. *)
Definition helps (a : action) : bool :=
  match a with
  | Allow | Deliver | Redeliver | NoMessages | Start | Settle | Finish | Settled | ReadInfo | CheckIdle | DrainReturn => true
  | _ => false
  end.

Definition leads (s s' : state) : Prop := exists acts, forallb helps acts = true /\ run acts s = Some s'.

Lemma leads_trans s s' s'' : leads s s' -> leads s' s'' -> leads s s''.
Proof.
  intros (l & Hl & Hr) (l' & Hl' & Hr'). exists (l ++ l'). rewrite forallb_app, Hl, Hl'. split; [done|].
  revert s Hr. clear Hl. induction l as [|a l IH]; intros s; cbn; [by intros [= ->]|]. destruct (step a s); [apply IH|done].
Qed.

Lemma leads_inv s s' : inv s -> leads s s' -> inv s'.
Proof.
  intros Hs (l & _ & Hr). revert s Hs Hr. induction l as [|a l IH]; intros s Hs; cbn; [by intros [= <-]|].
  destruct (step a s) as [s1|] eqn:E; [|done]. apply IH. by eapply step_inv.
Qed.

(** Polling, with the worker between messages. *)
Definition resting (p : bool) (c a pe u : nat) : state :=
  {| s_held := true; s_draining := true; s_publishing := p; s_commands := c; s_active := a; s_pending := pe; s_unacked := u;
     s_settling := false; s_worker := Waiting; s_control := Polling |}.

Ltac by_steps l := exists l; split; [reflexivity|vm_compute; reflexivity].

(** The worker finishes what it is doing. *)
Lemma comes_to_rest s : inv s -> s_control s = Polling -> exists p c a pe u, leads s (resting p c a pe u).
Proof.
  intros [Ha Hh Hs Hg _ _ Hd _ _] Hc. destruct s as [h d p c a pe u se w ct]. cbn in *. subst. cbn in *. specialize (Hg eq_refl). subst h.
  destruct w, se; cbn in *; try (destruct Hh; [done|]; discriminate); exists p, c.
  - exists 0, pe, (u - 1). by_steps [Settled].
  - exists 0, pe, u. by_steps (@nil action).
  - exists 0, pe, (u - 1). by_steps [Settled; NoMessages].
  - exists 0, pe, u. by_steps [NoMessages].
  - exists 0, pe, (u - 1). by_steps [Start; Settle; Settled; Finish].
  - exists 0, pe, (u - 1). by_steps [Settle; Settled; Finish].
  - exists 0, pe, (u - 1). by_steps [Settled; Finish].
  - exists 0, pe, u. by_steps [Finish].
Qed.

(** One message less. *)
Lemma settles_one p c a pe u : 0 < pe + u -> exists a' pe' u',
  leads (resting p c a pe u) (resting p c a' pe' u') /\ S (pe' + u') = pe + u.
Proof.
  intros Hn. destruct pe as [|pe].
  - destruct u as [|u]; [lia|]. exists (S a - 1), 0, (S u - 1). split; [|lia]. by_steps [Allow; Redeliver; Start; Settle; Settled; Finish].
  - exists (S a - 1), (S pe - 1), (S u - 1). split; [|lia]. by_steps [Allow; Deliver; Start; Settle; Settled; Finish].
Qed.

Lemma settles_all n : forall p c a pe u, pe + u = n -> exists a', leads (resting p c a pe u) (resting p c a' 0 0).
Proof.
  induction n as [|n IH]; intros p c a pe u Hn.
  - exists a. replace pe with 0 by lia. replace u with 0 by lia. by exists [].
  - destruct (settles_one p c a pe u) as (a1 & pe1 & u1 & H1 & Hn1); [lia|]. destruct (IH p c a1 pe1 u1) as [a2 H2]; [lia|].
    exists a2. by eapply leads_trans.
Qed.

Lemma polling_returns s : inv s -> s_control s = Polling -> exists s', leads s s' /\ s_control s' = Drained.
Proof.
  intros Hi Hc. destruct (comes_to_rest s Hi Hc) as (p & c & a & pe & u & H1).
  destruct (settles_all _ p c a pe u eq_refl) as [a2 H2]. pose proof (leads_trans _ _ _ H1 H2) as H12.
  pose proof (in_active _ (leads_inv _ _ Hi H12)) as Ha. cbn in Ha. subst a2.
  eexists. split; [eapply leads_trans; [exact H12|]; exists [ReadInfo; CheckIdle; DrainReturn]; split; reflexivity|done].
Qed.

(** [Drain] is never a deadlock: from any point of it in any interleaving,
    the worker and the server alone bring it to its return, although admission
    is held, for whatever is still queued, delivered or being processed. *)
Theorem drain_completes (s : state) : reachable s -> draining (s_control s) = true ->
  exists acts s', forallb helps acts = true /\ run acts s = Some s' /\ s_control s' = Drained.
Proof.
  intros Hi%drain_inv Hd. enough (exists s', leads s s' /\ s_control s' = Drained) as (s' & (acts & ? & ?) & ?) by eauto.
  destruct (s_control s) as [| | | | |b| | |] eqn:E; try discriminate Hd.
  - by apply polling_returns.
  - assert (step CheckIdle s = Some {| s with s_control := if b && (s_active s =? 0) then Returning else Polling |}) as Hs by (cbn; by rewrite E).
    pose proof (step_inv _ _ _ Hi Hs) as Hi'. destruct (b && (s_active s =? 0)).
    + eexists. split; [exists [CheckIdle; DrainReturn]; split; [reflexivity|]; cbn [run]; rewrite Hs; reflexivity|done].
    + destruct (polling_returns _ Hi' eq_refl) as (s' & Hl & Hs'). exists s'. split; [|done]. eapply leads_trans; [|exact Hl].
      exists [CheckIdle]. split; [reflexivity|]. cbn [run]. by rewrite Hs.
  - eexists. split; [exists [DrainReturn]; split; [reflexivity|]; cbn; unfold control_at; rewrite E; reflexivity|done].
Qed.

(** ** A run *)

Module ClockDrainExample.
(** Two messages, one in the worker's hands when the hold begins. *)
Definition early : list action :=
  [HoldBegin; HoldReturn; StopProducer; DrainBegin; ReadInfo; CheckIdle; DrainReturn; ResumeProducer; OpenGate;
   Publish; Publish; Allow; Deliver; EnterCommand; HoldBegin; Refuse; LeaveCommand; HoldReturn; StopProducer; DrainBegin].
Definition late : list action :=
  [ReadInfo; CheckIdle; Allow; Redeliver; Start; Settle; Settled; Finish; Allow; Deliver; Start; Settle; Settled; ReadInfo; CheckIdle;
   Finish; ReadInfo; CheckIdle; DrainReturn].
Definition mid : state := Eval vm_compute in default start (run early start).
Definition final : state := Eval vm_compute in default start (run late mid).

Lemma run_reachable acts s s' : reachable s -> run acts s = Some s' -> reachable s'.
Proof.
  revert s. induction acts as [|a acts IH]; intros s Hs; cbn; [by intros [= <-]|]. destruct (step a s) as [s1|] eqn:E; [|done].
  apply IH. by eapply reach_step.
Qed.

Lemma mid_reachable : reachable mid.
Proof. apply (run_reachable early start); [constructor|vm_compute; reflexivity]. Qed.

Lemma drain_barrier_witness : s_pending mid = 1 /\ s_unacked mid = 1 /\ s_pending final = 0 /\ s_unacked final = 0 /\ s_commands final = 0.
Proof.
  assert (reachable final) as Hr by (apply (run_reachable late mid); [exact mid_reachable|vm_compute; reflexivity]).
  destruct (drain_barrier final Hr eq_refl) as (_ & _ & Hp & Hu & Hc & _). exact (conj eq_refl (conj eq_refl (conj Hp (conj Hu Hc)))).
Defined.

Lemma drain_completes_witness : exists acts s', run acts mid = Some s' /\ s_control s' = Drained.
Proof. destruct (drain_completes mid mid_reachable eq_refl) as (acts & s' & _ & Hr & Hs). exists acts, s'. exact (conj Hr Hs). Defined.
End ClockDrainExample.
