(* ===== verification/Health.v ===== *)
(** * Health and logs

    [src/internal/lifecycle]: the readiness document of [evaluate.go], the
    connector probe of [health.go] and the connector logs of [logs.go]; and the
    in-memory log of [src/internal/logging/recorder.go].

    The process figures of a health document (uptime, memory, CPU, disk) are the
    subject of [HostMetrics].  The theorems give the document
    for every input, show what it does after a quiet period, and that the ring
    of log lines always answers with the latest ones. *)

From Stdlib Require Import ZArith Lia Bool Ascii String List SpecFloat.
From stdpp Require Import base list strings gmap.
From S2P Require Import Prelude Json GoText Float Catalog Lifecycle.
#[local] Open Scope string_scope.
#[local] Open Scope list_scope.
#[local] Open Scope Z_scope.

(** ** Evaluation *)

Inductive health_status := StatusOK | StatusDegraded.

(** The reasons, with the figures their texts show. *)
Inductive reason :=
| NatsDown | Stale (depth age threshold : Z) | WriteErrorCount (n : Z) | NearCapacity (depth cap : Z) | EmptyPointList
| ConnectorsDown (ids : list string).

Record ComponentHealth := { cp_Name : string; cp_Status : health_status; cp_Reason : option reason }.

Definition second : Z := 1000000000.

(** [CheckpointStale] in nanoseconds. *)
Record Thresholds := { CheckpointStale : Z; NearCapacityFrac : spec_float }.
Definition DefaultThresholds : Thresholds := {| CheckpointStale := 60 * second; NearCapacityFrac := fdiv (f64_of_Z 9) (f64_of_Z 10) |}.

Record ConnectorHealth := {
  ch_ID : string; ch_Image : string; ch_PrevImage : string; ch_ContainerID : string; ch_Running : bool
}.

(** [in_Now] is [Now.Unix()]. *)
Record HealthInputs := {
  in_NatsConnected : bool; in_UplinkConnected : bool; in_HasBuffer : bool; in_BufferDepth : Z; in_BufferCapacity : Z;
  in_WriteErrors : Z; in_LastCheckpointUnix : Z; in_HasPointList : bool; in_PointCount : Z;
  in_Connectors : list ConnectorHealth; in_Now : Z
}.

Record HealthReport := { hr_Status : health_status; hr_Components : list ComponentHealth }.

Definition healthy (name : string) : ComponentHealth := {| cp_Name := name; cp_Status := StatusOK; cp_Reason := None |}.
Definition degraded (name : string) (r : reason) : ComponentHealth :=
  {| cp_Name := name; cp_Status := StatusDegraded; cp_Reason := Some r |}.

Definition evalNats (i : HealthInputs) : ComponentHealth :=
  if negb (in_NatsConnected i) then degraded "nats" NatsDown else healthy "nats".

Definition checkpoint_age (i : HealthInputs) : Z := i64 (i64 (in_Now i - in_LastCheckpointUnix i) * second).

Definition evalUplink (i : HealthInputs) (cfg : Thresholds) : ComponentHealth :=
  if in_BufferDepth i <=? 0 then healthy "uplink"
  else
    let age := checkpoint_age i in
    if CheckpointStale cfg <? age then degraded "uplink" (Stale (in_BufferDepth i) age (CheckpointStale cfg)) else healthy "uplink".

Definition fill (i : HealthInputs) : spec_float := fdiv (f64_of_Z (in_BufferDepth i)) (f64_of_Z (in_BufferCapacity i)).

Definition evalBuffer (i : HealthInputs) (cfg : Thresholds) : ComponentHealth :=
  if 0 <? in_WriteErrors i then degraded "buffer" (WriteErrorCount (in_WriteErrors i))
  else if 0 <? in_BufferCapacity i then
    if fltb (NearCapacityFrac cfg) (fill i) then degraded "buffer" (NearCapacity (in_BufferDepth i) (in_BufferCapacity i))
    else healthy "buffer"
  else healthy "buffer".

Definition evalPointList (i : HealthInputs) : ComponentHealth :=
  if in_PointCount i =? 0 then degraded "pointlist" EmptyPointList else healthy "pointlist".

Definition evalConnectors (i : HealthInputs) : ComponentHealth :=
  let down := map ch_ID (List.filter (fun c => negb (ch_Running c)) (in_Connectors i)) in
  match down with [] => healthy "connectors" | _ => degraded "connectors" (ConnectorsDown down) end.

Definition with_default_thresholds (cfg : Thresholds) : Thresholds :=
  {| CheckpointStale := if CheckpointStale cfg <=? 0 then CheckpointStale DefaultThresholds else CheckpointStale cfg;
     NearCapacityFrac := if fleb (NearCapacityFrac cfg) (f64_of_Z 0) then NearCapacityFrac DefaultThresholds else NearCapacityFrac cfg |}.

Definition is_degraded (c : ComponentHealth) : bool := match cp_Status c with StatusDegraded => true | StatusOK => false end.

Definition EvaluateHealth (i : HealthInputs) (cfg : Thresholds) : HealthReport :=
  let cfg := with_default_thresholds cfg in
  let comps := evalNats i :: (if in_HasBuffer i then [evalUplink i cfg; evalBuffer i cfg] else [])
               ++ (if in_HasPointList i then [evalPointList i] else []) ++ [evalConnectors i] in
  {| hr_Status := if existsb is_degraded comps then StatusDegraded else StatusOK; hr_Components := comps |}.

(** ** Probing connectors *)

(** [Probe] of one connector; [docker] is absent without a daemon client. *)
Definition probe_one {D} `{Docker D} (docker : option D) (s : ConnectorStatus) : ConnectorHealth :=
  {| ch_ID := sp_ID (st_Spec s); ch_Image := sp_Image (st_Spec s); ch_PrevImage := sp_PrevImage (st_Spec s);
     ch_ContainerID := st_ContainerID s;
     ch_Running :=
       match docker with
       | Some d =>
         if String.eqb (st_ContainerID s) "" then st_Running s
         else match ContainerInspect d (st_ContainerID s) with
              | Found (Some i) => match i_Running i with Some b => b | None => false end
              | _ => false
              end
       | None => st_Running s
       end |}.

Definition Probe {D} `{Docker D} (docker : option D) (l : list ConnectorStatus) : list ConnectorHealth := map (probe_one docker) l.

(** [List] of the registry; Go leaves the order open. *)
Definition registry_List (r : Registry) : list ConnectorStatus := map snd (map_to_list r).

(** ** Connector logs *)

(** [bufio.ScanLines]: the line without a final carriage return. *)
Fixpoint drop_cr (s : string) : string :=
  match s with
  | EmptyString => ""
  | String c r => if (code c =? 13) && String.eqb r "" then "" else String c (drop_cr r)
  end.

(** A [bufio.Scanner] gives up at a line that does not fit its buffer. *)
Fixpoint scan_lines (l : list string) : list string :=
  match l with
  | [] => []
  | line :: l' => if 65535 <? Z.of_nat (String.length line) then [] else drop_cr line :: scan_lines l'
  end.

Definition log_lines (text : string) : list string :=
  List.filter (fun s => negb (String.eqb s "")) (scan_lines (split_byte "010" text)).

Inductive logs_error := LogsNotFound | LogsFailed.

(** [Manager.Logs]; [fetch] is the daemon's answer, demultiplexed. *)
Definition Logs {D} (m : Manager D) (fetch : string -> Z -> option string) (id : string) (tail : Z) : result logs_error (list string) :=
  match m_registry m !! id with
  | None => Err LogsNotFound
  | Some s =>
    if String.eqb (st_ContainerID s) "" then Ok []
    else match fetch (st_ContainerID s) tail with None => Err LogsFailed | Some text => Ok (log_lines text) end
  end.

(** ** The log recorder *)

Record Recorder := { rec_buf : list string; rec_cap : nat; rec_next : nat; rec_full : bool }.

Definition NewRecorder (capacity : Z) : Recorder :=
  let cap := if capacity <=? 0 then 500%nat else Z.to_nat capacity in
  {| rec_buf := replicate cap ""; rec_cap := cap; rec_next := 0; rec_full := false |}.

Fixpoint trim_newlines (s : string) : string :=
  match s with
  | EmptyString => ""
  | String c r => let r' := trim_newlines r in if (code c =? 10) && String.eqb r' "" then "" else String c r'
  end.

Definition rec_add (r : Recorder) (line : string) : Recorder :=
  let next := ((rec_next r + 1) mod rec_cap r)%nat in
  {| rec_buf := <[rec_next r := line]> (rec_buf r); rec_cap := rec_cap r; rec_next := next;
     rec_full := if (next =? 0)%nat then true else rec_full r |}.

Definition rec_Write (r : Recorder) (p : string) : Recorder :=
  let line := trim_newlines p in if String.eqb line "" then r else rec_add r line.

Definition Lines (r : Recorder) (tail : Z) : list string :=
  let ordered := if rec_full r then drop (rec_next r) (rec_buf r) ++ take (rec_next r) (rec_buf r) else take (rec_next r) (rec_buf r) in
  if (0 <? tail) && (tail <? Z.of_nat (length ordered)) then drop (length ordered - Z.to_nat tail) ordered else ordered.

(** ** Theorems *)

(** When the document says degraded. *)
Definition unwell (i : HealthInputs) (cfg : Thresholds) : Prop :=
  in_NatsConnected i = false \/
  (in_HasBuffer i = true /\ (0 < in_BufferDepth i /\ CheckpointStale cfg < checkpoint_age i \/ 0 < in_WriteErrors i \/
     0 < in_BufferCapacity i /\ fltb (NearCapacityFrac cfg) (fill i) = true)) \/
  (in_HasPointList i = true /\ in_PointCount i = 0) \/
  Exists (fun c => ch_Running c = false) (in_Connectors i).

Lemma nats_degraded i : is_degraded (evalNats i) = true <-> in_NatsConnected i = false.
Proof. unfold evalNats. by destruct (in_NatsConnected i). Qed.

Lemma uplink_degraded i cfg : is_degraded (evalUplink i cfg) = true <-> 0 < in_BufferDepth i /\ CheckpointStale cfg < checkpoint_age i.
Proof. unfold evalUplink. destruct (Z.leb_spec (in_BufferDepth i) 0), (Z.ltb_spec (CheckpointStale cfg) (checkpoint_age i)); cbn; intuition (lia || done). Qed.

Lemma buffer_degraded i cfg : is_degraded (evalBuffer i cfg) = true <->
  0 < in_WriteErrors i \/ 0 < in_BufferCapacity i /\ fltb (NearCapacityFrac cfg) (fill i) = true.
Proof.
  unfold evalBuffer. destruct (Z.ltb_spec 0 (in_WriteErrors i)), (Z.ltb_spec 0 (in_BufferCapacity i)); cbn;
    try (destruct (fltb _ _) eqn:E; cbn); intuition (lia || done).
Qed.

Lemma pointlist_degraded i : is_degraded (evalPointList i) = true <-> in_PointCount i = 0.
Proof. unfold evalPointList. destruct (Z.eqb_spec (in_PointCount i) 0); cbn; intuition done. Qed.

Lemma connectors_degraded i : is_degraded (evalConnectors i) = true <-> Exists (fun c => ch_Running c = false) (in_Connectors i).
Proof.
  unfold evalConnectors. induction (in_Connectors i) as [|c l IH]; cbn; [by rewrite Exists_nil|].
  rewrite Exists_cons. destruct (ch_Running c); cbn; [|intuition done]. rewrite IH. intuition done.
Qed.

Lemma report_degraded i cfg : hr_Status (EvaluateHealth i cfg) = StatusDegraded <-> unwell i (with_default_thresholds cfg).
Proof.
  unfold unwell. rewrite <- nats_degraded, <- uplink_degraded, <- buffer_degraded, <- pointlist_degraded, <- connectors_degraded.
  unfold EvaluateHealth. cbn [hr_Status]. generalize (evalNats i), (evalUplink i (with_default_thresholds cfg)),
    (evalBuffer i (with_default_thresholds cfg)), (evalPointList i), (evalConnectors i). intros n u b p c.
  destruct (in_HasBuffer i), (in_HasPointList i); cbn;
    destruct (is_degraded n), (is_degraded u), (is_degraded b), (is_degraded p), (is_degraded c); cbn; intuition done.
Qed.

(** The health document for every input: it lists the broker, the uplink and
    the buffer when there is one, the point list when there is one, and the
    connectors, in this order, and it is degraded exactly when the broker is
    away, a backlog exceeds the age limit of the last checkpoint, a write
    failed, the buffer is fuller than its limit, the point list is empty or a
    connector does not run; limits that are not positive mean the defaults. *)
Theorem EvaluateHealth_exact (i : HealthInputs) (cfg : Thresholds) :
  let report := EvaluateHealth i cfg in
  (hr_Status report = StatusDegraded <-> unwell i (with_default_thresholds cfg)) /\
  0 < CheckpointStale (with_default_thresholds cfg) /\
  map cp_Name (hr_Components report) = ["nats"] ++ (if in_HasBuffer i then ["uplink"; "buffer"] else [])
    ++ (if in_HasPointList i then ["pointlist"] else []) ++ ["connectors"] /\
  Forall (fun c => is_degraded c = true <-> is_Some (cp_Reason c)) (hr_Components report).
Proof.
  cbv zeta. split; [|split; [|split]].
  - apply report_degraded.
  - unfold with_default_thresholds. cbn. destruct (Z.leb_spec (CheckpointStale cfg) 0); [done|lia].
  - unfold EvaluateHealth, evalNats, evalUplink, evalBuffer, evalPointList, evalConnectors. cbn [hr_Components].
    destruct (in_HasBuffer i), (in_HasPointList i); cbn; repeat case_match; done.
  - assert (forall n, is_degraded (healthy n) = true <-> is_Some (cp_Reason (healthy n))) as H1 by (cbn; intros; split; [done|by intros [? ?]]).
    assert (forall n r, is_degraded (degraded n r) = true <-> is_Some (cp_Reason (degraded n r))) as H2 by (cbn; intros; split; by eauto).
    unfold EvaluateHealth, evalNats, evalUplink, evalBuffer, evalPointList, evalConnectors. cbn [hr_Components].
    destruct (in_HasBuffer i), (in_HasPointList i); cbn [app]; rewrite !Forall_cons, Forall_nil; split_and?; repeat case_match; auto.
Qed.

(** After a quiet period longer than the limit, a frame that was written this
    very second already degrades the uplink: the age is that of the last
    checkpoint, not of the backlog. *)
Theorem quiet_uplink_flaps (i : HealthInputs) (cfg : Thresholds) :
  in_HasBuffer i = true -> in_BufferDepth i = 1 -> CheckpointStale cfg = 60 * second ->
  60 < in_Now i - in_LastCheckpointUnix i < 2 ^ 33 -> hr_Status (EvaluateHealth i cfg) = StatusDegraded.
Proof.
  intros Hb Hd Hc Hn. apply report_degraded. right. left. split; [done|]. left. rewrite Hd. split; [lia|].
  unfold with_default_thresholds, checkpoint_age. cbn [CheckpointStale]. rewrite Hc. change (60 * second <=? 0) with false. cbv iota.
  unfold second. rewrite (i64_small (_ - _)), i64_small by (unfold in_i64; lia). lia.
Qed.

(** *** The recorder *)

Definition latest {A} (n : nat) (l : list A) : list A := drop (length l - n) l.

(** The ring holds the latest lines. *)
Record ring_inv (r : Recorder) (ws : list string) : Prop := {
  ri_cap : (0 < rec_cap r)%nat;
  ri_len : length (rec_buf r) = rec_cap r;
  ri_next : (rec_next r < rec_cap r)%nat;
  ri_full : if rec_full r
    then (rec_cap r <= length ws)%nat /\ drop (rec_next r) (rec_buf r) ++ take (rec_next r) (rec_buf r) = latest (rec_cap r) ws
    else take (rec_next r) (rec_buf r) = ws
}.

Lemma latest_snoc (ws : list string) x t n l : (0 < n <= length ws)%nat -> latest n ws = x :: t -> latest n (ws ++ [l]) = t ++ [l].
Proof.
  unfold latest. intros Hn E. rewrite length_app. cbn [length]. replace (length ws + 1 - n)%nat with (S (length ws - n)) by lia.
  rewrite drop_app_le by lia. f_equal. replace (S (length ws - n)) with (length ws - n + 1)%nat by lia. by rewrite <- drop_drop, E.
Qed.

(** Writing at the cursor of [A ++ x :: B]. *)
Lemma ring_add r ws l : ring_inv r ws -> ring_inv (rec_add r l) (ws ++ [l]).
Proof.
  intros [Hc Hl Hn Hf]. destruct (lookup_lt_is_Some_2 (rec_buf r) (rec_next r)) as [x Hx]; [lia|].
  pose proof (take_drop_middle _ _ _ Hx) as Hb. pose proof (drop_S _ _ _ Hx) as Hd.
  pose proof (insert_take_drop (rec_buf r) (rec_next r) l) as Hi. rewrite Hl in Hi. specialize (Hi Hn).
  assert (length (take (rec_next r) (rec_buf r)) = rec_next r) as HA by (rewrite length_take; lia).
  rewrite Hd in Hf. revert HA Hi Hb Hf. set (n := rec_next r) in *.
  generalize (take n (rec_buf r)), (drop (S n) (rec_buf r)). intros A B HA Hi Hb Hf.
  assert (length B = rec_cap r - S n)%nat as HB by (rewrite <- Hl, <- Hb, length_app, HA; cbn; lia).
  assert (forall m, (m = S n \/ S n = rec_cap r /\ m = 0)%nat -> drop m (A ++ l :: B) ++ take m (A ++ l :: B) = B ++ A ++ [l]) as Hrot.
  { intros m [->|[E ->]].
    - rewrite drop_app_ge, take_app_ge by lia. replace (S n - length A)%nat with 1%nat by lia. cbn. by rewrite drop_0, take_0.
    - destruct B; [cbn|cbn in HB; lia]. by rewrite app_nil_r. }
  unfold rec_add. fold n. rewrite Hi. split; cbn; [done|rewrite length_app; cbn; lia|apply Nat.mod_upper_bound; lia|].
  destruct (Nat.eqb_spec ((n + 1) mod rec_cap r) 0) as [E0|E0].
  - assert (S n = rec_cap r) as En.
    { destruct (decide (S n = rec_cap r)) as [|Hne]; [done|]. rewrite Nat.mod_small in E0 by lia. lia. }
    rewrite E0, Hrot by auto. rewrite length_app. cbn [length]. destruct (rec_full r).
    + destruct Hf as [Hw Hf]. split; [lia|]. rewrite app_assoc. symmetry. eapply latest_snoc; [|symmetry; exact Hf]. lia.
    + subst ws. split; [lia|]. destruct B; [|cbn in HB; lia]. unfold latest. rewrite length_app. cbn [length app].
      replace (length A + 1 - rec_cap r)%nat with 0%nat by lia. done.
  - assert ((n + 1) mod rec_cap r = S n)%nat as En.
    { destruct (decide (S n = rec_cap r)) as [Heq|Hne]; [|rewrite Nat.mod_small; lia].
      rewrite Nat.add_1_r, Heq, Nat.Div0.mod_same in E0. lia. }
    rewrite En. destruct (rec_full r).
    + rewrite Hrot by auto. rewrite length_app. cbn [length]. destruct Hf as [Hw Hf]. split; [lia|]. rewrite app_assoc. symmetry.
      eapply latest_snoc; [|symmetry; exact Hf]. lia.
    + subst ws. rewrite take_app_ge by lia. by replace (S n - length A)%nat with 1%nat by lia.
Qed.

Definition lines_of (ps : list string) : list string := List.filter (fun l => negb (String.eqb l "")) (map trim_newlines ps).

Lemma writes_ring ps : forall r ws, ring_inv r ws -> ring_inv (fold_left rec_Write ps r) (ws ++ lines_of ps).
Proof.
  induction ps as [|p ps IH]; intros r ws Hr; cbn; [by rewrite app_nil_r|]. unfold rec_Write at 2. unfold lines_of. cbn.
  destruct (String.eqb (trim_newlines p) ""); cbn; [by apply IH|].
  replace (ws ++ trim_newlines p :: _) with ((ws ++ [trim_newlines p]) ++ lines_of ps) by (by rewrite <- app_assoc).
  by apply IH, ring_add.
Qed.

(** The recorder refines the list of all lines ever written: whatever was
    written, asking for a tail answers with that many of the latest lines in
    order, or with as many as the capacity keeps. *)
Theorem recorder_refines (capacity tail : Z) (ps : list string) :
  Lines (fold_left rec_Write ps (NewRecorder capacity)) tail =
  let kept := latest (rec_cap (NewRecorder capacity)) (lines_of ps) in
  if 0 <? tail then latest (Z.to_nat tail) kept else kept.
Proof.
  assert (ring_inv (NewRecorder capacity) []) as Hn.
  { unfold NewRecorder. destruct (Z.leb_spec capacity 0); split; cbn; rewrite ?length_replicate, ?take_0; lia || done. }
  assert (forall ps r, rec_cap (fold_left rec_Write ps r) = rec_cap r) as Hcap.
  { clear. induction ps as [|p ps IH]; intros r; [done|]. cbn. rewrite IH. unfold rec_Write. by case_if. }
  pose proof (writes_ring ps _ _ Hn) as [_ Hl Hx Hf]. rewrite Hcap in *. cbn [app] in Hf. set (r := fold_left _ _ _) in *. unfold Lines. cbv zeta.
  assert ((if rec_full r then drop (rec_next r) (rec_buf r) ++ take (rec_next r) (rec_buf r) else take (rec_next r) (rec_buf r))
    = latest (rec_cap (NewRecorder capacity)) (lines_of ps)) as ->.
  { destruct (rec_full r); [by destruct Hf|]. rewrite Hf. unfold latest. rewrite <- Hf, length_take, (proj2 (Nat.sub_0_le _ _)) by lia. done. }
  destruct (Z.ltb_spec 0 tail); cbn [andb]; [|done]. set (k := latest _ (lines_of ps)). unfold latest at 1.
  destruct (Z.ltb_spec tail (Z.of_nat (length k))); [done|]. by rewrite (proj2 (Nat.sub_0_le _ _)) by lia.
Qed.
