(* ===== verification/Simulation.v ===== *)
(** * The simulated connector and the mock Building OS

    [src/connector/sim/sim.go] with [startDevSim] of [src/cmd/gateway/main.go]
    and the defaults of [src/cmd/sim-connector/main.go]; the ingress and egress
    servers of [src/internal/mockbos].  The sine function and the texts of the
    ticks are arguments.

    The theorems: what the simulation publishes the normalizer takes; and the mock
    ingress answers with the frames of its lifetime, not of the stream, so that
    behind it the gateway sees no drift and counts frames more than once. *)

From Stdlib Require Import ZArith Lia Bool Ascii String List SpecFloat.
From stdpp Require Import base list strings gmap.
From S2P Require Import Prelude Json GoText Float GoTime Encoding Wire FrameStore Buffer Pump Uplink PointList Normalizer Catalog Lifecycle Dispatch.
#[local] Open Scope string_scope.
#[local] Open Scope list_scope.
#[local] Open Scope Z_scope.

(** ** The simulated connector *)

Record SimPoint := { sm_LocalID : string; sm_DeviceRef : string; sm_Unit : string; sm_BaseValue : float64; sm_Amplitude : float64 }.
Record SimConnector := { sm_connectorID : string; sm_points : list SimPoint; sm_interval : Z }.

Definition defaultInterval : Z := 60 * Uplink.second.

Definition NewSim (connectorID : string) (interval : Z) (points : list SimPoint) : SimConnector :=
  {| sm_connectorID := connectorID; sm_points := points; sm_interval := if interval <=? 0 then defaultInterval else interval |}.

Section Sim.
  (** [math.Sin]. *)
  Context (sin : float64 -> float64).

Definition sim_value (p : SimPoint) (tick : Z) : float64 :=
  fadd (sm_BaseValue p) (fmul (sm_Amplitude p) (sin (fmul (f64_of_Z tick) (f64_dec false 1 (-1))))).

Definition sim_event (c : SimConnector) (t : string) (p : SimPoint) (tick : Z) : Event :=
  mkEvent "sim" (sm_connectorID c) (sm_LocalID p) (sm_DeviceRef p) (NumberValue (sim_value p tick)) (sm_Unit p) "Good" t ∅.

(** The subject and payload a point publishes; [None] when the event does not
    marshal. *)
Definition publishPoint (c : SimConnector) (t : string) (p : SimPoint) (tick : Z) : option (string * string) :=
  option_map (fun j => ("evt.sim." +:+ sm_connectorID c, marshal j)) (event_json (sim_event c t p tick)).

(** [Run] over the ticks of its timer until the context ends. *)
Fixpoint sim_run (c : SimConnector) (tick : Z) (ticks : list string) : list (string * string) :=
  match ticks with
  | [] => []
  | t :: ticks => omap (fun p => publishPoint c t p tick) (sm_points c) ++ sim_run c (tick + 1) ticks
  end.

Definition dev_points : list SimPoint :=
  [{| sm_LocalID := "sim://ahu-01/supply_air_temp"; sm_DeviceRef := "sim://ahu-01"; sm_Unit := "Cel"; sm_BaseValue := f64_of_Z 22; sm_Amplitude := f64_of_Z 3 |};
   {| sm_LocalID := "sim://ahu-01/fan_run"; sm_DeviceRef := "sim://ahu-01"; sm_Unit := ""; sm_BaseValue := f64_of_Z 1; sm_Amplitude := f64_of_Z 0 |}].

(** [envDurationOrDefault] of the standalone program. *)
Definition envDurationOrDefault (env : gmap string string) (key : string) (def : Z) : Z :=
  match env !! key with
  | Some v => if String.eqb v "" then def else default def (ParseDuration v)
  | None => def
  end.

(** The connector of the standalone program. *)
Definition sim_main (env : gmap string string) : SimConnector :=
  let id := match env !! "CONNECTOR_ID" with Some v => if String.eqb v "" then "sim-01" else v | None => "sim-01" end in
  NewSim id (envDurationOrDefault env "SIM_POLL_INTERVAL" (60 * Uplink.second)) dev_points.

(** A message of the simulation: the event of one of its points at some tick. *)
Lemma sim_run_event c ticks : forall tick s d, In (s, d) (sim_run c tick ticks) ->
  s = "evt.sim." +:+ sm_connectorID c /\ exists p t n j, p ∈ sm_points c /\ t ∈ ticks /\ event_json (sim_event c t p n) = Some j /\ d = marshal j.
Proof.
  induction ticks as [|t ticks IH]; intros tick s d; [done|]. cbn [sim_run]. intros [Hin|Hin]%in_app_or.
  - apply list_elem_of_In, list_elem_of_omap in Hin as (p & Hp & Hd). unfold publishPoint in Hd.
    destruct (event_json _) as [j|] eqn:E; [|done]. injection Hd as <- <-. split; [done|]. exists p, t, tick, j. split_and!; try done. left.
  - apply IH in Hin as (-> & p & t' & n & j & Hp & Ht & E & ->). split; [done|]. exists p, t', n, j. split_and!; try done. by right.
Qed.

(** What the simulation publishes under its identifier, the normalizer takes: every
    message of a run decodes, and for a resolver that knows the point it becomes a
    frame of that point with a finite value and the text of its tick. *)
Theorem sim_normalizes {R} `{Resolver R} (c : SimConnector) (ticks : list string) (resolver : R) (now gatewayID s d : string) :
  Forall (fun t => valid_utf8 t = true /\ t <> "") ticks -> valid_utf8 (sm_connectorID c) = true ->
  Forall (fun p => valid_utf8 (sm_LocalID p) && valid_utf8 (sm_DeviceRef p) && valid_utf8 (sm_Unit p) = true) (sm_points c) ->
  (forall p, p ∈ sm_points c -> is_Some (Resolve resolver (sm_connectorID c) (sm_LocalID p))) ->
  In (s, d) (sim_run c 0 ticks) ->
  exists p t f pid x, p ∈ sm_points c /\ t ∈ ticks /\ Resolve resolver (sm_connectorID c) (sm_LocalID p) = Some pid /\
    Normalize now d resolver gatewayID = (Some f, OutcomeOK) /\ PointId f = pid /\ Timestamp f = t /\ FValue f = Some (ValueNum x) /\ f64_finite x = true.
Proof.
  intros Ht Hc Hp Hr (_ & p & t & n & j & Hin & Hti & E & ->)%sim_run_event. rewrite Forall_forall in Ht. rewrite Forall_forall in Hp.
  destruct (Ht t Hti) as [Htv Hne]. pose proof (Hp p Hin) as Hv. bools. destruct (Hr p Hin) as [pid Hpid].
  assert (f64_finite (sim_value p n) = true) as Hf.
  { unfold event_json in E. cbn [ev_Value sim_event value_json] in E. by destruct (f64_finite (sim_value p n)). }
  assert (valid_event (sim_event c t p n) = true) as Hve.
  { unfold valid_event. cbn. rewrite Hc, Htv. by repeat match goal with H : valid_utf8 ?x = true |- _ => rewrite H; clear H end. }
  destruct (event_json_ok _ _ E Hve) as [Hj Hd].
  assert (event_unjson (marshal j) = Some (sim_event c t p n)) as He.
  { unfold event_unjson. rewrite parse_marshal by (done || (unfold max_nesting; lia)). by apply decode_event. }
  unfold Normalize. rewrite He. cbn [ev_ConnectorID ev_LocalID ev_Timestamp ev_Value sim_event]. rewrite Hpid.
  apply String.eqb_neq in Hne. rewrite Hne. exists p, t. eexists _, pid, (sim_value p n). split_and!; try done.
Qed.
End Sim.

(** [startDevSim]: the registry entry it makes, and what becomes of it. *)
Definition startDevSim (reg : Registry) (interval : Z) : Registry * SimConnector :=
  (SetRunning (Register reg {| sp_ID := "sim-01"; sp_Image := "sim:dev"; sp_PrevImage := ""; sp_Env := []; sp_Permissions := {| Network := []; Mounts := [] |} |}) "sim-01" "" true,
   NewSim "sim-01" interval dev_points).
Definition stopDevSim (reg : Registry) : Registry := SetRunning reg "sim-01" "" false.

(** ** The mock ingress *)

(** The frames accepted since the server started, and whether a stream is
    open. *)
Record MockServer := { mk_accepted : Z; mk_open : bool }.
Definition NewServer : MockServer := {| mk_accepted := 0; mk_open := false |}.

(** One frame received; a stream opened. *)
Definition mock_recv (k : MockServer) : MockServer := {| k with mk_accepted := i64 (mk_accepted k + 1) |}.
Definition mock_opened (k : MockServer) : MockServer := {| k with mk_open := true |}.

(** A client of the mock that never fails. *)
#[export] Instance mock_client : IngressClient MockServer := {
  StreamTelemetry k := (mock_opened k, true);
  stream_Send k f := (mock_recv k, true);
  CloseAndRecv k := ({| k with mk_open := false |}, Some (mk_accepted k));
  client_now _ := 0
}.

(** Batches sent and checkpointed one after the other, with their answers. *)
Definition mock_batch (g : grpcSink MockServer) (fs : list TelemetryFrame) : grpcSink MockServer * option Z :=
  grpc_Checkpoint (fold_left (fun g f => fst (grpc_Send g f)) fs g).
Fixpoint mock_acks (g : grpcSink MockServer) (batches : list (list TelemetryFrame)) : list (option Z) :=
  match batches with [] => [] | b :: batches => let '(g, a) := mock_batch g b in a :: mock_acks g batches end.

(** The running totals of a list. *)
Fixpoint totals (n : Z) (l : list Z) : list Z := match l with [] => [] | x :: l => (n + x) :: totals (n + x) l end.

Lemma mock_sends fs : forall g, g_stream g = true -> 0 <= mk_accepted (g_client g) -> mk_accepted (g_client g) + Z.of_nat (length fs) < 2 ^ 63 ->
  let g' := fold_left (fun g f => fst (grpc_Send g f)) fs g in
  g_stream g' = true /\ mk_accepted (g_client g') = mk_accepted (g_client g) + Z.of_nat (length fs).
Proof.
  induction fs as [|f fs IH]; intros g Hs H0 Hn; cbn [fold_left length]; [split; [done|lia]|].
  cbn [length] in Hn. unfold grpc_Send at 2 4. rewrite Hs. cbn [fst].
  destruct (IH {| g_client := mock_recv (g_client g); g_stream := true |}) as [H1 H2]; cbn [g_stream g_client mk_accepted mock_recv].
  - done.
  - rewrite i64_small by (unfold in_i64; lia). lia.
  - rewrite i64_small by (unfold in_i64; lia). lia.
  - cbn [g_client mk_accepted mock_recv] in H2. rewrite i64_small in H2 by (unfold in_i64; lia). cbn. split; [exact H1|]. rewrite H2. lia.
Qed.

Lemma mock_batch_ack fs g : fs <> [] -> g_stream g = false -> 0 <= mk_accepted (g_client g) -> mk_accepted (g_client g) + Z.of_nat (length fs) < 2 ^ 63 ->
  exists g', mock_batch g fs = (g', Some (mk_accepted (g_client g) + Z.of_nat (length fs))) /\ g_stream g' = false /\
    mk_accepted (g_client g') = mk_accepted (g_client g) + Z.of_nat (length fs).
Proof.
  intros Hne Hs H0 Hn. destruct fs as [|f fs]; [done|]. unfold mock_batch.
  set (g0 := {| g_client := mock_opened (g_client g); g_stream := true |}).
  assert (fold_left (fun g f => fst (grpc_Send g f)) (f :: fs) g = fold_left (fun g f => fst (grpc_Send g f)) (f :: fs) g0) as ->.
  { cbn [fold_left]. unfold grpc_Send at 2 4. rewrite Hs. done. }
  destruct (mock_sends (f :: fs) g0 eq_refl H0 Hn) as [H1 H2]. unfold grpc_Checkpoint. rewrite H1. cbn [CloseAndRecv mock_client].
  eexists. split; [rewrite H2; reflexivity|]. cbn [g_stream g_client mk_accepted]. split; done.
Qed.

Lemma mock_acks_totals batches : forall g, Forall (fun b => b <> []) batches -> g_stream g = false -> 0 <= mk_accepted (g_client g) ->
  mk_accepted (g_client g) + zsum (map (fun b => Z.of_nat (length b)) batches) < 2 ^ 63 ->
  mock_acks g batches = map Some (totals (mk_accepted (g_client g)) (map (fun b => Z.of_nat (length b)) batches)).
Proof.
  assert (forall l : list (list TelemetryFrame), 0 <= zsum (map (fun b => Z.of_nat (length b)) l)) as Hz.
  { induction l as [|b l IH]; cbn; unfold zsum in *; [lia|]. cbn. lia. }
  induction batches as [|b batches IH]; intros g Hb Hs H0 Hn; [done|]. apply Forall_cons in Hb as [Hb Hbs]. cbn [map zsum fold_right] in Hn.
  fold (zsum (map (fun b => Z.of_nat (length b)) batches)) in Hn. pose proof (Hz batches).
  destruct (mock_batch_ack b g Hb Hs H0 ltac:(lia)) as (g' & E & Hs' & Ha). cbn [mock_acks]. rewrite E. cbn [map totals]. f_equal.
  rewrite IH by (done || lia). by rewrite Ha.
Qed.

(** The mock ingress acknowledges the frames it ever accepted.  A gateway that sends
    it batches of frames, a stream each, gets the running totals as answers, not the
    size of each batch; so no batch ever shows a drift, and what the gateway adds up
    as accepted exceeds what it sent from the second batch on. *)
Theorem mock_acks_cumulate (batches : list (list TelemetryFrame)) :
  Forall (fun b => b <> []) batches -> zsum (map (fun b => Z.of_nat (length b)) batches) < 2 ^ 63 ->
  mock_acks {| g_client := NewServer; g_stream := false |} batches =
    map Some (totals 0 (map (fun b => Z.of_nat (length b)) batches)).
Proof. intros Hb Hn. by apply mock_acks_totals. Qed.

(** ** The mock egress *)

(** [Connect]: messages are read until the stream ends, and nothing is sent. *)
Fixpoint mock_Connect (ups : list (option EgressUp)) : list EgressUp * list EgressDown :=
  match ups with
  | Some u :: ups => let '(seen, sent) := mock_Connect ups in (u :: seen, sent)
  | None :: _ | [] => ([], [])
  end.

Module SimulationExample.
Definition frames0 : list (list TelemetryFrame) := [[empty_frame; empty_frame]; [empty_frame]; [empty_frame; empty_frame]].
Lemma mock_acks_cumulate_witness : mock_acks {| g_client := NewServer; g_stream := false |} frames0 = [Some 2; Some 3; Some 5].
Proof.
  rewrite (mock_acks_cumulate frames0); [reflexivity| |].
  - repeat constructor; discriminate.
  - cbn. lia.
Defined.

Definition resolver0 : Fixture := NewFixture [mkEntry "" "sim-01" "sim" "sim://ahu-01/supply_air_temp" "p1" "" false "" "";
  mkEntry "" "sim-01" "sim" "sim://ahu-01/fan_run" "p2" "" false "" ""].
Definition c0 : SimConnector := NewSim "sim-01" 0 dev_points.
Definition flat (x : float64) : float64 := f64_of_Z 0.
Definition sent0 : list (string * string) := Eval vm_compute in sim_run flat c0 0 ["2026-01-01T00:00:00Z"].

Lemma sim_normalizes_witness : exists f x, Normalize "" (match sent0 with (_, d) :: _ => d | [] => "" end) resolver0 "gw" = (Some f, OutcomeOK) /\
  FValue f = Some (ValueNum x).
Proof.
  destruct (sim_normalizes flat c0 ["2026-01-01T00:00:00Z"] resolver0 "" "gw" "evt.sim.sim-01" (match sent0 with (_, d) :: _ => d | [] => "" end))
    as (p & t & f & pid & x & _ & _ & _ & Hn & _ & _ & Hv & _).
  - repeat constructor; discriminate.
  - reflexivity.
  - repeat constructor.
  - intros p Hp. change (sm_points c0) with dev_points in Hp. unfold dev_points in Hp. rewrite !elem_of_cons in Hp. destruct Hp as [->|[->|[]%elem_of_nil]]; vm_compute; eexists; reflexivity.
  - vm_compute. left. reflexivity.
  - exists f, x. split; [exact Hn|exact Hv].
Defined.
End SimulationExample.
