(* ===== verification/HostMetrics.v ===== *)
(** * Process figures

    The host figures of a health document, [runtimeMetrics] of
    [src/internal/lifecycle/health.go]: uptime, memory, CPU share and disk, the
    last two cached for a time.  The Go runtime's figures, the file system and the
    clock are the interface [Host]; times are nanoseconds.

    The theorems: two readings of the disk are at least the cache time apart, and
    the CPU share is never negative. *)

From Stdlib Require Import ZArith Lia Bool String List SpecFloat.
From stdpp Require Import base list.
From S2P Require Import Prelude Float Lifecycle Health.
#[local] Open Scope Z_scope.

(** [h_cpu] is the total and idle CPU seconds when the runtime has them, [h_heap]
    the bytes of live heap objects. *)
Class Host (H : Type) := {
  h_now : H -> H * Z;
  h_disk : H -> H * (spec_float * spec_float);
  h_cpu : H -> H * option (spec_float * spec_float);
  h_heap : H -> H * option Z;
  h_goroutines : H -> H * Z
}.

Record GatewayStats := {
  gs_UptimeSeconds : spec_float; gs_GoRoutines : Z; gs_MemAllocMB : spec_float; gs_CPUPercent : spec_float;
  gs_DiskUsedMB : spec_float; gs_DiskTotalMB : spec_float
}.

Record runtimeMetrics := {
  startTime : Z; diskTTL : Z; dUsed : spec_float; dTotal : spec_float; dAt : Z; dInit : bool;
  cpuTTL : Z; cpuAt : Z; cpuPct : spec_float; cpuInit : bool; lastTotal : spec_float; lastIdle : spec_float
}.

Definition zero : spec_float := S754_zero false.

Section Metrics.
  Context {H : Type} `{Host H}.

Definition newRuntimeMetrics (h : H) (ttl : Z) : H * runtimeMetrics :=
  let '(h, now) := h_now h in
  (h, {| startTime := now; diskTTL := ttl; dUsed := zero; dTotal := zero; dAt := 0; dInit := false; cpuTTL := second; cpuAt := 0;
         cpuPct := zero; cpuInit := false; lastTotal := zero; lastIdle := zero |}).

Definition NewGatewayMetrics (h : H) : H * runtimeMetrics := newRuntimeMetrics h (15 * second).

(** The share of a difference of the counters. *)
Definition share (total idle : spec_float) : spec_float :=
  if fltb zero total then
    let busy := fsub total idle in
    let busy := if fltb busy zero then zero else busy in
    fmul (fdiv busy total) (f64_of_Z 100)
  else zero.

Definition cpuPercent (h : H) (m : runtimeMetrics) : H * runtimeMetrics * spec_float :=
  match h_cpu h with
  | (h, None) => (h, m, zero)
  | (h, Some (total, idle)) =>
    let '(h, now) := h_now h in
    if negb (cpuInit m) then (h, {| m with lastTotal := total; lastIdle := idle; cpuAt := now; cpuInit := true |}, zero)
    else if now - cpuAt m <? cpuTTL m then (h, m, cpuPct m)
    else
      let pct := share (fsub total (lastTotal m)) (fsub idle (lastIdle m)) in
      let '(h, now) := h_now h in
      (h, {| m with lastTotal := total; lastIdle := idle; cpuAt := now; cpuPct := pct |}, pct)
  end.

(** A reading of the disk: when it was decided and when it was done. *)
Definition reading : Type := Z * Z.

Definition disk (h : H) (m : runtimeMetrics) : H * runtimeMetrics * list reading :=
  let '(h, start) := if dInit m then h_now h else (h, 0) in
  if negb (dInit m) || (diskTTL m <=? start - dAt m) then
    let '(h, (used, total)) := h_disk h in
    let '(h, now) := h_now h in
    (h, {| m with dUsed := used; dTotal := total; dAt := now; dInit := true |}, [(start, now)])
  else (h, m, []).

(** [time.Duration.Seconds]. *)
Definition Seconds (d : Z) : spec_float := fadd (f64_of_Z (d / second)) (fdiv (f64_of_Z (d mod second)) (f64_of_Z second)).

Definition Sample (h : H) (m : runtimeMetrics) : H * runtimeMetrics * GatewayStats * list reading :=
  let '(h, heap) := h_heap h in
  let alloc := match heap with Some b => fdiv (fdiv (f64_of_Z b) (f64_of_Z 1024)) (f64_of_Z 1024) | None => zero end in
  let '(h, m, log) := disk h m in
  let used := dUsed m in
  let total := dTotal m in
  let '(h, now) := h_now h in
  let '(h, n) := h_goroutines h in
  let '(h, m, pct) := cpuPercent h m in
  (h, m, {| gs_UptimeSeconds := Seconds (now - startTime m); gs_GoRoutines := n; gs_MemAllocMB := alloc; gs_CPUPercent := pct;
            gs_DiskUsedMB := used; gs_DiskTotalMB := total |}, log).

Fixpoint Samples (n : nat) (h : H) (m : runtimeMetrics) : H * runtimeMetrics * list GatewayStats * list reading :=
  match n with
  | O => (h, m, [], [])
  | S n =>
    let '(h, m, s, log) := Sample h m in
    let '(h, m, ss, logs) := Samples n h m in
    (h, m, s :: ss, log ++ logs)
  end.

(** [Snapshot]: the figures with the probed connectors. *)
Record GatewayHealth := { gh_stats : GatewayStats; gh_Connectors : list ConnectorHealth }.

Definition Snapshot {D} `{Docker D} (docker : option D) (reg : Registry) (h : H) (m : runtimeMetrics)
  : H * runtimeMetrics * GatewayHealth :=
  let '(h, m, s, _) := Sample h m in (h, m, {| gh_stats := s; gh_Connectors := Probe docker (registry_List reg) |}).

(** ** The disk is read seldom *)

(** Readings in order, each at least [ttl] after the one before was done. *)
Fixpoint spaced (ttl : Z) (l : list reading) : Prop :=
  match l with
  | x :: l => match l with y :: _ => ttl <= fst y - snd x /\ spaced ttl l | [] => True end
  | [] => True
  end.

Lemma cpuPercent_disk h m h' m' x : cpuPercent h m = (h', m', x) -> diskTTL m' = diskTTL m /\ dInit m' = dInit m /\ dAt m' = dAt m.
Proof.
  unfold cpuPercent. destruct (h_cpu h) as [h1 [[total idle]|]]; [|by intros [= <- <- <-]]. destruct (h_now h1) as [h2 now].
  destruct (negb (cpuInit m)); [by intros [= <- <- <-]|]. destruct (_ <? _); [by intros [= <- <- <-]|].
  destruct (h_now h2) as [h3 now2]. by intros [= <- <- <-].
Qed.

(** What a sample reads follows what was read last. *)
Lemma Sample_reads h m h' m' s log : Sample h m = (h', m', s, log) -> diskTTL m' = diskTTL m /\
  match log with
  | [] => dInit m = true /\ dInit m' = true /\ dAt m' = dAt m
  | [(a, b)] => (dInit m = true -> diskTTL m <= a - dAt m) /\ dInit m' = true /\ dAt m' = b
  | _ => False
  end.
Proof.
  unfold Sample. destruct (h_heap h) as [h1 heap]. destruct (disk h1 m) as [[h2 m2] l] eqn:Ed. destruct (h_now h2) as [h3 now].
  destruct (h_goroutines h3) as [h4 n]. destruct (cpuPercent h4 m2) as [[h5 m5] pct] eqn:Ec. intros [= <- <- <- <-].
  apply cpuPercent_disk in Ec as (-> & -> & ->). unfold disk in Ed. destruct (if dInit m then h_now h1 else (h1, 0)) as [h6 start].
  destruct (negb (dInit m) || (diskTTL m <=? start - dAt m)) eqn:E.
  - destruct (h_disk h6) as [h7 [u t]]. destruct (h_now h7) as [h8 done_]. injection Ed as <- <- <-. cbn. split_and!; try done.
    intros Hi. rewrite Hi in E. cbn in E. lia.
  - injection Ed as <- <- <-. apply orb_false_iff in E as [E%negb_false_iff _]. done.
Qed.

Lemma Samples_spaced n : forall h m h' m' ss log, Samples n h m = (h', m', ss, log) ->
  spaced (diskTTL m) log /\ forall a b rest, log = (a, b) :: rest -> dInit m = true -> diskTTL m <= a - dAt m.
Proof.
  induction n as [|n IH]; intros h m h' m' ss log E; cbn in E; [injection E as <- <- <- <-; done|].
  destruct (Sample h m) as [[[h1 m1] s] l1] eqn:E1. destruct (Samples n h1 m1) as [[[h2 m2] ss2] l2] eqn:E2. injection E as <- <- <- <-.
  apply Sample_reads in E1 as [Et H1]. apply IH in E2 as [Hs Hf]. rewrite Et in Hs, Hf. destruct l1 as [|[a b] [|? ?]]; [| |done].
  - destruct H1 as (Hi & Hi1 & Ha). rewrite Ha in Hf. cbn. eauto.
  - destruct H1 as (Hi & Hi1 & Ha). rewrite Ha in Hf. cbn. split.
    + destruct l2 as [|[c d] l2]; [done|]. split; [|done]. cbn. eauto.
    + intros x y rest [= <- <- <-]. done.
Qed.

(** However often the figures are sampled, two readings of the disk are at least
    the cache time apart, so a probe that is hit often does not hold up a slow
    file system; for the gateway's own monitor that is fifteen seconds. *)
Theorem disk_readings_spaced (n : nat) (h h' h0 : H) (m0 m' : runtimeMetrics) (ss : list GatewayStats) (log : list reading) :
  NewGatewayMetrics h = (h0, m0) -> Samples n h0 m0 = (h', m', ss, log) -> spaced (15 * second) log.
Proof.
  unfold NewGatewayMetrics, newRuntimeMetrics. destruct (h_now h) as [h1 now]. intros [= <- <-] E. by apply Samples_spaced in E as [Hs _].
Qed.

(** ** The CPU share *)

(** Not below zero. *)
Definition nonneg (x : spec_float) : bool :=
  match x with S754_finite true _ _ | S754_infinity true => false | _ => true end.

Lemma round_nonneg m e l : nonneg (binary_round_aux f64_prec f64_emax false m e l) = true.
Proof. unfold binary_round_aux. by repeat case_match. Qed.

Lemma div_nonneg x y : nonneg x = true -> fltb zero y = true -> nonneg (fdiv x y) = true.
Proof.
  destruct y as [s|[]| |[] my ey]; try done; (destruct x as [sx|[]| |[] mx ex]; try done); intros _ _; unfold fdiv, SFdiv; try done.
  cbn [xorb]. destruct (SFdiv_core_binary _ _ _ _ _ _) as [[mz ez] lz]. apply round_nonneg.
Qed.

Lemma mul_nonneg x : nonneg x = true -> nonneg (fmul x (f64_of_Z 100)) = true.
Proof.
  assert (exists m e, f64_of_Z 100 = S754_finite false m e) as (m & e & ->) by (vm_compute; eauto).
  destruct x as [sx|[]| |[] mx ex]; try done. intros _. unfold fmul, SFmul. cbn [xorb]. apply round_nonneg.
Qed.

Lemma share_nonneg total idle : nonneg (share total idle) = true.
Proof.
  unfold share. destruct (fltb zero total) eqn:Et; [|done]. apply mul_nonneg, div_nonneg; [|done].
  destruct (fltb (fsub total idle) zero) eqn:Eb; [done|]. by destruct (fsub total idle) as [s|[]| |[] m e].
Qed.

Lemma cpuPercent_nonneg h m h' m' x : nonneg (cpuPct m) = true -> cpuPercent h m = (h', m', x) -> nonneg x = true /\ nonneg (cpuPct m') = true.
Proof.
  intros Hm. unfold cpuPercent. destruct (h_cpu h) as [h1 [[total idle]|]]; [|by intros [= <- <- <-]]. destruct (h_now h1) as [h2 now].
  destruct (negb (cpuInit m)); [by intros [= <- <- <-]|]. destruct (_ <? _); [by intros [= <- <- <-]|].
  destruct (h_now h2) as [h3 now2]. intros [= <- <- <-]. cbn. split; apply share_nonneg.
Qed.

Lemma Samples_nonneg n : forall h m h' m' ss log, nonneg (cpuPct m) = true -> Samples n h m = (h', m', ss, log) ->
  Forall (fun s => nonneg (gs_CPUPercent s) = true) ss.
Proof.
  induction n as [|n IH]; intros h m h' m' ss log Hm E; cbn in E; [injection E as <- <- <- <-; constructor|].
  destruct (Sample h m) as [[[h1 m1] s] l1] eqn:E1. destruct (Samples n h1 m1) as [[[h2 m2] ss2] l2] eqn:E2. injection E as <- <- <- <-.
  unfold Sample in E1. destruct (h_heap h) as [h3 heap]. destruct (disk h3 m) as [[h4 m4] l] eqn:Ed. destruct (h_now h4) as [h5 now].
  destruct (h_goroutines h5) as [h6 k]. destruct (cpuPercent h6 m4) as [[h7 m7] pct] eqn:Ec. injection E1 as <- <- <- <-.
  assert (cpuPct m4 = cpuPct m) as Hd.
  { unfold disk in Ed. destruct (if dInit m then h_now h3 else (h3, 0)) as [h8 st]. destruct (_ || _); [|by injection Ed as <- <- <-].
    destruct (h_disk h8) as [h9 [u t]]. destruct (h_now h9). by injection Ed as <- <- <-. }
  rewrite <- Hd in Hm. destruct (cpuPercent_nonneg _ _ _ _ _ Hm Ec) as [Hx Hm7]. constructor; [done|]. by eapply IH.
Qed.

(** The CPU share of every sample is not negative, whatever the runtime's
    counters do. *)
Theorem cpu_share_nonneg (n : nat) (h h' h0 : H) (m0 m' : runtimeMetrics) (ss : list GatewayStats) (log : list reading) :
  NewGatewayMetrics h = (h0, m0) -> Samples n h0 m0 = (h', m', ss, log) -> Forall (fun s => nonneg (gs_CPUPercent s) = true) ss.
Proof.
  unfold NewGatewayMetrics, newRuntimeMetrics. destruct (h_now h) as [h1 now]. intros [= <- <-] E. by eapply Samples_nonneg; [|exact E].
Qed.
End Metrics.

Module HostMetricsExample.
(** A host whose clock moves four seconds at every look. *)
#[local] Instance host : Host Z := {|
  h_now h := (h + 4 * second, h); h_disk h := (h, (f64_of_Z 10, f64_of_Z 20)); h_cpu h := (h, Some (f64_of_Z (h / second), f64_of_Z (h / (2 * second))));
  h_heap h := (h, Some 1048576); h_goroutines h := (h, 7) |}.
Definition started : Z * runtimeMetrics := Eval vm_compute in NewGatewayMetrics 0.
Definition sampled := Eval vm_compute in Samples 4 (fst started) (snd started).

Example readings0 : snd sampled = [(0, 4 * second); (32 * second, 36 * second); (52 * second, 56 * second)].
Proof. vm_compute. reflexivity. Qed.
Lemma disk_readings_spaced_witness : spaced (15 * second) (snd sampled).
Proof.
  apply (disk_readings_spaced 4 0 (fst (fst (fst sampled))) (fst started) (snd started) (snd (fst (fst sampled))) (snd (fst sampled)));
    vm_compute; reflexivity.
Defined.
Lemma cpu_share_nonneg_witness : Forall (fun s => nonneg (gs_CPUPercent s) = true) (snd (fst sampled)).
Proof.
  apply (cpu_share_nonneg 4 0 (fst (fst (fst sampled))) (fst started) (snd started) (snd (fst (fst sampled))) (snd (fst sampled)) (snd sampled));
    vm_compute; reflexivity.
Defined.
End HostMetricsExample.
