(* ===== verification/AdminApi.v ===== *)
(** * The admin API

    [src/internal/adminapi]: the routes of [server.go], the token check of
    [jwt.go], the latest values of [recent.go]; and the catalog installer of
    [src/cmd/gateway/main.go] behind the install and update actions.

    A request is its method, the segments of its clean path (the mux redirects
    others), its [Authorization] header and the query parameters the handlers
    read.  Verifying a token is an interface to the JWT library.  A response is
    its status with the value its JSON document shows.

    The theorems: no request reaches a handler beyond the three public ones
    without a verified token that carries its role, and only an operator's
    changes anything; the status of a response tells what happened; and no
    sequence of requests touches a connector that clock provisioning has
    claimed. *)

From Stdlib Require Import ZArith Lia Bool Ascii String List SpecFloat.
From stdpp Require Import base list strings gmap.
From S2P Require Import Prelude Json GoText Float Encoding Wire Sdk PointList MqttTopics MqttSync Catalog Lifecycle Health.
#[local] Open Scope string_scope.
#[local] Open Scope list_scope.
#[local] Open Scope Z_scope.

(** ** Recent values *)

Record RecentEntry := { re_PointID : string; re_Value : option FrameValue; re_Timestamp : string; re_ReceivedAt : string }.
Definition RecentStore : Type := gmap string RecentEntry.

(** [Record], at a time written [now]. *)
Definition recent_Record (now : string) (s : RecentStore) (f : TelemetryFrame) : RecentStore :=
  <[PointId f := {| re_PointID := PointId f; re_Value := FValue f; re_Timestamp := Timestamp f; re_ReceivedAt := now |}]> s.

(** [Snapshot], in the order of the map's iteration. *)
Definition recent_Snapshot (s : RecentStore) : list RecentEntry := map snd (map_to_list s).

(** ** Requests and responses *)

Record request := { rq_method : string; rq_path : list string; rq_auth : string; rq_image : string; rq_tail : string }.

(** [TelemetrySource]: the counters of the buffer. *)
Record TelemetrySource := {
  ts_Drifts : gmap string Z; ts_Depth : Z; ts_Written : Z; ts_Sent : Z; ts_Accepted : Z; ts_Dropped : Z; ts_EvictedSent : Z;
  ts_LostUnsent : Z; ts_WriteErrors : Z; ts_Duplicates : Z; ts_Capacity : Z; ts_Checkpoints : Z; ts_SendErrors : Z;
  ts_DriftTotal : Z; ts_LastCheckpointUnix : Z
}.

Record telemetryResponse := {
  tr_Received : Z; tr_Sent : Z; tr_Accepted : Z; tr_BufferDepth : Z; tr_Dropped : Z; tr_Checkpoints : Z; tr_SendErrors : Z;
  tr_Redelivered : Z; tr_Duplicates : Z; tr_Drifts : gmap string Z; tr_DriftTotal : Z; tr_UplinkConnected : bool;
  tr_LastCheckpointUnix : Z; tr_EventsStream : option (Z * Z)
}.

(** A sample of the metrics page; floating figures of the process are shown by
    name. *)
Inductive sample := BuildInfo (version revision : string) | Counter (name label : string) (v : Z) | Process (name : string).

Record connectorItem := { ci_ID : string; ci_Image : string; ci_PrevImage : string; ci_ContainerID : string; ci_Running : bool }.

Record catalogEntry := {
  ce_Name : string; ce_Version : string; ce_Image : string; ce_Digest : string; ce_MinGatewayVersion : string;
  ce_SignatureRequired : bool; ce_Network : list string; ce_Mounts : list string
}.

Inductive payload :=
| Empty | Refusal (text : string) | LifecycleError (e : lc_error) | CatalogError (e : catalog_error)
| HealthDoc (version : string) (r : HealthReport) (connectors : list ConnectorHealth) | LiveDoc (version : string) (revision : option string)
| Metrics (l : list sample) | Capabilities (adhoc : bool) | ClockDoc | Connectors (l : list connectorItem)
| CatalogList (l : list catalogEntry) | Devices (l : list Entry) | PreviewDoc (d : Diff) | ApplyDoc (r : SubscriptionApplyReply)
| SyncFailed (e : sync_error) | TelemetryDoc (t : telemetryResponse) | RecentDoc (l : list RecentEntry) | LogDoc (id : string) (l : list string).

Record response := { rs_status : Z; rs_body : payload }.
Definition ok (p : payload) : response := {| rs_status := 200; rs_body := p |}.
Definition refuse (status : Z) (text : string) : response := {| rs_status := status; rs_body := Refusal text |}.

(** ** Routes *)

Inductive route :=
| RHealth | RLive | RMetrics | RCapabilities | RClock | RConnectors | RAction | RInstall | RCatalog | RDevices | RPreview | RApply
| RTelemetry | RRecent | RGatewayLogs | RLogs.

Inductive seg := Lit (s : string) | Wild.

Definition pattern (r : route) : string * list seg :=
  match r with
  | RHealth => ("GET", [Lit "health"])
  | RLive => ("GET", [Lit "health"; Lit "live"])
  | RMetrics => ("GET", [Lit "metrics"])
  | RCapabilities => ("GET", [Lit "capabilities"])
  | RClock => ("GET", [Lit "clock-provisioning"])
  | RConnectors => ("GET", [Lit "connectors"])
  | RAction => ("POST", [Lit "connectors"; Wild; Wild])
  | RInstall => ("POST", [Lit "connectors"; Wild; Lit "install"])
  | RCatalog => ("GET", [Lit "catalog"])
  | RDevices => ("GET", [Lit "devices"])
  | RPreview => ("GET", [Lit "connectors"; Wild; Lit "mqtt-subscriptions"; Lit "preview"])
  | RApply => ("POST", [Lit "connectors"; Wild; Lit "mqtt-subscriptions"; Lit "apply"])
  | RTelemetry => ("GET", [Lit "telemetry"])
  | RRecent => ("GET", [Lit "recent"])
  | RGatewayLogs => ("GET", [Lit "logs"; Lit "gateway"])
  | RLogs => ("GET", [Lit "logs"; Wild])
  end.

Inductive role := RoleOperator | RoleViewer.
Definition role_name (r : role) : string := match r with RoleOperator => "gateway-operator" | RoleViewer => "gateway-viewer" end.

(** The role a route is registered with; [None] for the public ones. *)
Definition required (r : route) : option role :=
  match r with
  | RHealth | RLive | RMetrics => None
  | RAction | RInstall | RApply => Some RoleOperator
  | _ => Some RoleViewer
  end.

(** The mux's routing tree: at each segment literals before wildcards, which do
    not match an empty segment; the segments wildcards took are kept. *)
Definition under_lit (s : string) (l : list (list seg * route)) : list (list seg * route) :=
  flat_map (fun '(p, r) => match p with Lit t :: p' => if String.eqb s t then [(p', r)] else [] | _ => [] end) l.
Definition under_wild (l : list (list seg * route)) : list (list seg * route) :=
  flat_map (fun '(p, r) => match p with Wild :: p' => [(p', r)] | _ => [] end) l.

Fixpoint match_path (l : list (list seg * route)) (path : list string) : option (route * list string) :=
  match path with
  | [] => match List.find (fun pr => match fst pr with [] => true | _ => false end) l with Some pr => Some (snd pr, []) | None => None end
  | s :: path' =>
    match match_path (under_lit s l) path' with
    | Some x => Some x
    | None =>
      if String.eqb s "" then None
      else match match_path (under_wild l) path' with Some (r, caps) => Some (r, s :: caps) | None => None end
    end
  end.

Definition for_method (method : string) (routes : list route) : list (list seg * route) :=
  map (fun r => (snd (pattern r), r)) (List.filter (fun r => String.eqb (fst (pattern r)) method) routes).

Definition dispatch_route (routes : list route) (rq : request) : option (route * list string) :=
  match match_path (for_method (rq_method rq) routes) (rq_path rq) with
  | Some x => Some x
  | None => if String.eqb (rq_method rq) "HEAD" then match_path (for_method "GET" routes) (rq_path rq) else None
  end.

(** The path exists under another method. *)
Definition other_method (routes : list route) (rq : request) : bool :=
  existsb (fun m => match match_path (for_method m routes) (rq_path rq) with Some _ => true | None => false end) ["GET"; "POST"].

(** ** Tokens *)

(** [jwt.Parse] with the key set, validation, audience and issuer: the claims of
    a token it accepts. *)
Class Jwt (KS : Type) := jwt_Parse : KS -> string -> string -> string -> option (gmap string json).

Definition extractBearer (auth : string) : string := default "" (strip_prefix "Bearer " auth).

(** The last member of a name, as a Go map decodes an object. *)
Definition obj_get (k : string) (kvs : list (string * json)) : option json :=
  option_map snd (List.find (fun kv => String.eqb (fst kv) k) (rev kvs)).

Definition realmRoles (claims : gmap string json) : list string :=
  match claims !! "realm_access" with
  | Some (JObj kvs) =>
    match obj_get "roles" kvs with
    | Some (JArr l) => flat_map (fun v => match v with JStr s => [s] | _ => [] end) l
    | _ => []
    end
  | _ => []
  end.

Definition hasRole (roles : list string) (r : role) : bool :=
  existsb (fun s => String.eqb s (role_name r) || match r with RoleViewer => String.eqb s (role_name RoleOperator) | RoleOperator => false end) roles.

(** ** The server *)

Record Server := {
  sv_authenticated : bool; sv_audience : string; sv_issuer : string; sv_clock : bool; sv_installer : bool; sv_catalog : bool;
  sv_devices : bool; sv_mqttSync : bool; sv_telemetry : bool; sv_streamStats : bool; sv_recent : bool; sv_logger : bool;
  sv_gatewayLogs : bool; sv_adhoc : bool; sv_thresholds : Thresholds
}.

(** [registerRoutes]. *)
Definition registered (sv : Server) : list route :=
  [RHealth; RLive; RMetrics; RCapabilities] ++ (if sv_clock sv then [RClock] else []) ++ [RConnectors; RAction]
  ++ (if sv_installer sv then [RInstall] else []) ++ (if sv_catalog sv then [RCatalog] else [])
  ++ (if sv_devices sv then [RDevices] else []) ++ (if sv_mqttSync sv then [RPreview; RApply] else [])
  ++ (if sv_telemetry sv then [RTelemetry] else []) ++ (if sv_recent sv then [RRecent] else [])
  ++ (if sv_gatewayLogs sv then [RGatewayLogs] else []) ++ (if sv_logger sv then [RLogs] else []).

(** [errors.Is(err, ErrConnectorNotFound)], through what the errors wrap. *)
Fixpoint is_not_found (e : lc_error) : bool :=
  match e with
  | ErrConnectorNotFound => true
  | RollbackNoImage c | RolledBack c => is_not_found c
  | RollbackFailed start _ => is_not_found start
  | _ => false
  end.

Section Server.
  Context {D K KS : Type} `{Docker D} `{ControlPlane K} `{Jwt KS} (cfg : ManagerConfig) (mcfg : Config)
    (verify : string -> bool) (allowlist : list string) (gwVersion revision : string).

(** What a request changes: the connectors, and the MQTT connectors behind the
    control plane. *)
Record world := { w_mgr : Manager D; w_mqtt : K }.

(** What it reads. *)
Record env := {
  en_keys : option KS; en_now : Z; en_nats : bool; en_uplink : bool; en_promoted : bool; en_invalid : Z; en_unresolved : Z;
  en_redelivered : Z; en_telemetry : TelemetrySource; en_stream : option (Z * Z); en_recent : RecentStore; en_recorder : Recorder;
  en_logs : string -> Z -> option string; en_resolver : SyncedResolver; en_fetch : string -> result catalog_error Manifest;
  en_list : result catalog_error (list Manifest); en_polls : list (poll D)
}.

(** [JWTMiddleware.require], before the handler. *)
Definition check_token (sv : Server) (en : env) (r : role) (rq : request) : option response :=
  let token := extractBearer (rq_auth rq) in
  if String.eqb token "" then Some (refuse 401 "unauthorized")
  else
    match en_keys en with
    | None => Some (refuse 401 "unauthorized")
    | Some ks =>
      match jwt_Parse ks (sv_audience sv) (sv_issuer sv) token with
      | None => Some (refuse 401 "unauthorized")
      | Some claims => if hasRole (realmRoles claims) r then None else Some (refuse 403 "forbidden")
      end
    end.

Definition lifecycle_status (x : result lc_error unit) : response :=
  match x with
  | Ok _ => {| rs_status := 204; rs_body := Empty |}
  | Err e => {| rs_status := if is_not_found e then 404 else 500; rs_body := LifecycleError e |}
  end.

Definition answer_mgr (w : world) (x : Manager D * result lc_error unit) : world * response :=
  ({| w with w_mgr := fst x |}, lifecycle_status (snd x)).

(** [gatewayInstaller]. *)
Definition installer_Install (w : world) (en : env) (name : string) : world * result (catalog_error + lc_error) unit :=
  match en_fetch en name with
  | Err e => (w, Err (inl e))
  | Ok m =>
    let '(mgr, x) := Install cfg verify allowlist gwVersion (w_mgr w) m in
    ({| w with w_mgr := mgr |}, match x with Ok u => Ok u | Err e => Err (inr e) end)
  end.

(** [None] while the soak of the new container goes on. *)
Definition installer_Update (w : world) (en : env) (id : string) : option (world * result (catalog_error + lc_error) unit) :=
  match en_fetch en id with
  | Err e => Some (w, Err (inl e))
  | Ok m =>
    match Update cfg verify allowlist gwVersion (w_mgr w) id m (30 * second) (en_polls en) with
    | None => None
    | Some (mgr, x) => Some ({| w with w_mgr := mgr |}, match x with Ok u => Ok u | Err e => Err (inr e) end)
    end
  end.

Definition handleAction (sv : Server) (en : env) (w : world) (id action image : string) : option (world * response) :=
  if String.eqb action "start" then Some (answer_mgr w (Start cfg (w_mgr w) id))
  else if String.eqb action "stop" then Some (answer_mgr w (Stop (w_mgr w) id))
  else if String.eqb action "restart" then Some (answer_mgr w (Restart cfg (w_mgr w) id))
  else if String.eqb action "upgrade" then
    if negb (sv_adhoc sv) then Some (w, refuse 501 "ad-hoc upgrade disabled")
    else
      let newImage := trim_space image in
      if String.eqb newImage "" then Some (w, refuse 400 "upgrade requires ?image=<ref>")
      else Some (answer_mgr w (Upgrade cfg (w_mgr w) id newImage))
  else if String.eqb action "rollback" then Some (answer_mgr w (Rollback cfg (w_mgr w) id))
  else if String.eqb action "update" then
    if negb (sv_catalog sv) then Some (w, refuse 501 "catalog not configured")
    else
      match installer_Update w en id with
      | None => None
      | Some (w, Ok u) => Some (w, lifecycle_status (Ok u))
      | Some (w, Err (inl e)) => Some (w, {| rs_status := 500; rs_body := CatalogError e |})
      | Some (w, Err (inr e)) => Some (w, lifecycle_status (Err e))
      end
  else Some (w, refuse 400 "unknown action").

Definition handleInstall (en : env) (w : world) (name : string) : world * response :=
  match installer_Install w en name with
  | (w, Ok _) => (w, {| rs_status := 204; rs_body := Empty |})
  | (w, Err (inl e)) => (w, {| rs_status := 500; rs_body := CatalogError e |})
  | (w, Err (inr e)) => (w, {| rs_status := 500; rs_body := LifecycleError e |})
  end.

Definition snapshot_connectors (w : world) : list ConnectorHealth :=
  Probe (Some (m_docker (w_mgr w))) (registry_List (m_registry (w_mgr w))).

Definition health_inputs (sv : Server) (en : env) (w : world) : HealthInputs :=
  let t := en_telemetry en in
  let b := sv_telemetry sv in
  {| in_NatsConnected := en_nats en; in_UplinkConnected := en_uplink en; in_HasBuffer := b;
     in_BufferDepth := if b then ts_Depth t else 0; in_BufferCapacity := if b then ts_Capacity t else 0;
     in_WriteErrors := if b then ts_WriteErrors t else 0; in_LastCheckpointUnix := if b then ts_LastCheckpointUnix t else 0;
     in_HasPointList := sv_devices sv;
     in_PointCount := if sv_devices sv then Z.of_nat (length (Snapshot (en_resolver en))) else 0;
     in_Connectors := snapshot_connectors w; in_Now := en_now en |}.

Definition handleHealth (sv : Server) (en : env) (w : world) : response :=
  ok (HealthDoc gwVersion (EvaluateHealth (health_inputs sv en w) (sv_thresholds sv)) (snapshot_connectors w)).

Definition gauge (b : bool) : Z := if b then 1 else 0.

Definition buffer_samples (t : TelemetrySource) (now : Z) : list sample :=
  [Counter "storefwd_buffer_depth" "" (ts_Depth t); Counter "storefwd_written_total" "" (ts_Written t);
   Counter "storefwd_sent_total" "" (ts_Sent t); Counter "storefwd_dropped_total" "" (i64 (ts_EvictedSent t + ts_LostUnsent t));
   Counter "storefwd_evicted_sent_total" "" (ts_EvictedSent t); Counter "storefwd_lost_unsent_total" "" (ts_LostUnsent t);
   Counter "storefwd_write_error_total" "" (ts_WriteErrors t); Counter "storefwd_duplicate_total" "" (ts_Duplicates t);
   Counter "storefwd_checkpoint_total" "" (ts_Checkpoints t); Counter "storefwd_send_error_total" "" (ts_SendErrors t);
   Counter "storefwd_drift_total" "" (ts_DriftTotal t);
   Counter "storefwd_last_checkpoint_timestamp_seconds" "" (if ts_Depth t =? 0 then now else ts_LastCheckpointUnix t)].

Definition handleMetrics (sv : Server) (en : env) (w : world) : response :=
  let cs := snapshot_connectors w in
  ok (Metrics (
    [BuildInfo gwVersion revision; Process "gateway_uptime_seconds"; Process "gateway_goroutines";
     Process "gateway_mem_alloc_mb"; Process "gateway_cpu_percent";
     Counter "gateway_connectors_total" "" (Z.of_nat (length cs));
     Counter "gateway_connectors_running" "" (Z.of_nat (length (List.filter ch_Running cs)))]
    ++ map (fun c => Counter "gateway_connector_up" (ch_ID c) (gauge (ch_Running c))) cs
    ++ [Counter "nats_connected" "" (gauge (en_nats en)); Counter "uplink_connected" "" (gauge (en_uplink en));
        Counter "provisioning_fallback_promoted" "" (gauge (en_promoted en)); Counter "normalizer_invalid_total" "" (en_invalid en);
        Counter "normalizer_unresolved_total" "point_list_miss" (en_unresolved en);
        Counter "normalizer_redelivered_total" "" (en_redelivered en)]
    ++ (if sv_telemetry sv then buffer_samples (en_telemetry en) (en_now en) else []))).

Definition handleTelemetry (sv : Server) (en : env) : response :=
  let t := en_telemetry en in
  ok (TelemetryDoc {| tr_Received := ts_Written t; tr_Sent := ts_Sent t; tr_Accepted := ts_Accepted t; tr_BufferDepth := ts_Depth t;
    tr_Dropped := ts_Dropped t; tr_Checkpoints := ts_Checkpoints t; tr_SendErrors := ts_SendErrors t;
    tr_Redelivered := en_redelivered en; tr_Duplicates := ts_Duplicates t; tr_Drifts := ts_Drifts t; tr_DriftTotal := ts_DriftTotal t;
    tr_UplinkConnected := en_uplink en; tr_LastCheckpointUnix := ts_LastCheckpointUnix t;
    tr_EventsStream := if sv_streamStats sv then en_stream en else None |}).

(** The tail of a log request. *)
Definition tail_of (q : string) : Z :=
  match scan_d q with Some (n, _) => if n <=? 0 then 100 else n | None => 100 end.

Definition handleLogs (en : env) (w : world) (id q : string) : response :=
  match Logs (w_mgr w) (en_logs en) id (tail_of q) with
  | Err LogsNotFound => refuse 404 "connector not found"
  | Err LogsFailed => refuse 500 "logs"
  | Ok lines => ok (LogDoc id lines)
  end.

Definition handlePreview (en : env) (w : world) (id : string) : world * response :=
  let '(k, x) := Preview mcfg (en_resolver en) (w_mqtt w) id in
  ({| w with w_mqtt := k |}, match x with Ok d => ok (PreviewDoc d) | Err e => {| rs_status := 502; rs_body := SyncFailed e |} end).

Definition handleApply (en : env) (w : world) (id : string) : world * response :=
  let '(k, x) := Apply mcfg (en_resolver en) (w_mqtt w) id in
  ({| w with w_mqtt := k |}, match x with Ok r => ok (ApplyDoc r) | Err e => {| rs_status := 502; rs_body := SyncFailed e |} end).

Definition handleLive : response :=
  ok (LiveDoc gwVersion (if String.eqb revision "" then None else Some revision)).

Definition handleCapabilities (sv : Server) : response := ok (Capabilities (sv_adhoc sv)).

Definition handleListConnectors (w : world) : response :=
  ok (Connectors (map (fun c => {| ci_ID := ch_ID c; ci_Image := ch_Image c; ci_PrevImage := ch_PrevImage c;
    ci_ContainerID := ch_ContainerID c; ci_Running := ch_Running c |}) (snapshot_connectors w))).

Definition handleListCatalog (en : env) : response :=
  match en_list en with
  | Err e => {| rs_status := 502; rs_body := CatalogError e |}
  | Ok l => ok (CatalogList (map (fun m => {| ce_Name := mf_Name m; ce_Version := mf_Version m; ce_Image := mf_Image m;
      ce_Digest := mf_Digest m; ce_MinGatewayVersion := MinGatewayVersion m; ce_SignatureRequired := SignatureRequired m;
      ce_Network := Network (mf_Permissions m); ce_Mounts := Mounts (mf_Permissions m) |}) l))
  end.

Definition handleListDevices (en : env) : response := ok (Devices (Snapshot (en_resolver en))).

Definition handleRecent (en : env) : response := ok (RecentDoc (recent_Snapshot (en_recent en))).

Definition handleGatewayLogs (en : env) (rq : request) : response :=
  ok (LogDoc "gateway" (Lines (en_recorder en) (tail_of (rq_tail rq)))).

(** The handler of a route, with the segments its wildcards took. *)
Definition handle (sv : Server) (en : env) (w : world) (r : route) (caps : list string) (rq : request) : option (world * response) :=
  match r, caps with
  | RHealth, _ => Some (w, handleHealth sv en w)
  | RLive, _ => Some (w, handleLive)
  | RMetrics, _ => Some (w, handleMetrics sv en w)
  | RCapabilities, _ => Some (w, handleCapabilities sv)
  | RClock, _ => Some (w, ok ClockDoc)
  | RConnectors, _ => Some (w, handleListConnectors w)
  | RAction, [id; action] => handleAction sv en w id action (rq_image rq)
  | RInstall, [name] => Some (handleInstall en w name)
  | RCatalog, _ => Some (w, handleListCatalog en)
  | RDevices, _ => Some (w, handleListDevices en)
  | RPreview, [id] => Some (handlePreview en w id)
  | RApply, [id] => Some (handleApply en w id)
  | RTelemetry, _ => Some (w, handleTelemetry sv en)
  | RRecent, _ => Some (w, handleRecent en)
  | RGatewayLogs, _ => Some (w, handleGatewayLogs en rq)
  | RLogs, [id] => Some (w, handleLogs en w id (rq_tail rq))
  | _, _ => None
  end.

(** [ServeHTTP]: the mux, the token, the handler. *)
Definition ServeHTTP (sv : Server) (en : env) (w : world) (rq : request) : option (world * response) :=
  match dispatch_route (registered sv) rq with
  | None => Some (w, if other_method (registered sv) rq then refuse 405 "Method Not Allowed" else refuse 404 "404 page not found")
  | Some (r, caps) =>
    match (if sv_authenticated sv then match required r with Some role => check_token sv en role rq | None => None end else None) with
    | Some refusal => Some (w, refusal)
    | None => handle sv en w r caps rq
    end
  end.
End Server.

(** ** Theorems *)

Section Theorems.
  Context {D K KS : Type} `{Docker D} `{ControlPlane K} `{Jwt KS} (cfg : ManagerConfig) (mcfg : Config)
    (verify : string -> bool) (allowlist : list string) (gwVersion revision : string).

#[local] Abbreviation world := (@world D K).
#[local] Abbreviation env := (@env D KS).
#[local] Abbreviation ServeHTTP := (ServeHTTP cfg mcfg verify allowlist gwVersion revision).
#[local] Abbreviation handle := (handle cfg mcfg verify allowlist gwVersion revision).
#[local] Abbreviation handleAction := (handleAction cfg verify allowlist gwVersion).

(** *** Authorization *)

Lemma hasRole_operator roles : hasRole roles RoleOperator = true -> In "gateway-operator" roles.
Proof. unfold hasRole. rewrite existsb_exists. intros (s & Hs & E). rewrite orb_false_r in E. apply String.eqb_eq in E. by subst. Qed.

(** A handler that does not need an operator changes nothing. *)
Lemma handle_reads sv (en : env) (w w' : world) r caps rq rs : (forall (k : K) id, fst (cfg_status k id) = k) ->
  required r <> Some RoleOperator -> handle sv en w r caps rq = Some (w', rs) -> w' = w.
Proof.
  intros Hk Hr. destruct r; try (by destruct Hr); try (by intros [= <- _]);
    destruct caps as [|c [|c2 caps]]; try discriminate; try (by intros [= <- _]).
  intros [= E]. unfold handlePreview, Preview in E. specialize (Hk (w_mqtt w) c).
  destruct (cfg_status (w_mqtt w) c) as [k [[rev subs]|]]; injection E as <- _; cbn in Hk; subst k; by destruct w.
Qed.

Lemma check_token_ok sv (en : env) r rq : check_token sv en r rq = None ->
  exists ks claims, extractBearer (rq_auth rq) <> "" /\ en_keys en = Some ks /\
    jwt_Parse ks (sv_audience sv) (sv_issuer sv) (extractBearer (rq_auth rq)) = Some claims /\ hasRole (realmRoles claims) r = true.
Proof.
  unfold check_token. destruct (String.eqb_spec (extractBearer (rq_auth rq)) ""); [done|]. destruct (en_keys en) as [ks|]; [|done].
  destruct (jwt_Parse _ _ _ _) as [claims|] eqn:E; [|done]. destruct (hasRole _ _) eqn:Er; [|done]. intros _. by exists ks, claims.
Qed.

Lemma check_token_refuses sv (en : env) r rq rs : check_token sv en r rq = Some rs -> rs_status rs = 401 \/ rs_status rs = 403.
Proof.
  unfold check_token. case_if; [by intros [= <-]; left|]. destruct (en_keys en); [|by intros [= <-]; left].
  destruct (jwt_Parse _ _ _ _); [|by intros [= <-]; left]. case_if; [done|]. by intros [= <-]; right.
Qed.

(** C24: With authentication on, a request that is answered by a handler other
    than health, liveness and metrics carries a bearer token that the key set,
    audience and issuer verify and that grants the route's role; any other is
    answered 401, 403, 404 or 405 and changes nothing; and whatever changes a
    connector or its subscriptions is done for a token with the operator role. *)
Theorem admin_authorized (sv : Server) (en : env) (w : world) (rq : request) (w' : world) (rs : response) :
  (forall (k : K) id, fst (cfg_status k id) = k) -> sv_authenticated sv = true -> ServeHTTP sv en w rq = Some (w', rs) ->
  (w' = w /\ In (rs_status rs) [401; 403; 404; 405]) \/
  (exists r caps, dispatch_route (registered sv) rq = Some (r, caps) /\ In r [RHealth; RLive; RMetrics] /\ w' = w) \/
  (exists r caps role ks claims, dispatch_route (registered sv) rq = Some (r, caps) /\ required r = Some role /\
     en_keys en = Some ks /\ jwt_Parse ks (sv_audience sv) (sv_issuer sv) (extractBearer (rq_auth rq)) = Some claims /\
     hasRole (realmRoles claims) role = true /\ handle sv en w r caps rq = Some (w', rs) /\
     (w' <> w -> In "gateway-operator" (realmRoles claims))).
Proof.
  intros Hk Ha. unfold AdminApi.ServeHTTP. rewrite Ha. destruct (dispatch_route (registered sv) rq) as [[r caps]|] eqn:Ed.
  - destruct (required r) as [role|] eqn:Er.
    + destruct (check_token sv en role rq) as [refusal|] eqn:Et.
      * intros [= <- <-]. left. split; [done|]. destruct (check_token_refuses _ _ _ _ _ Et) as [-> | ->]; cbn; auto.
      * intros Hh. right. right. destruct (check_token_ok _ _ _ _ Et) as (ks & claims & _ & Hks & Hp & Hr).
        exists r, caps, role, ks, claims. split_and!; try done. intros Hne. destruct role; [by apply hasRole_operator|].
        exfalso. apply Hne. eapply handle_reads; [done| |exact Hh]. congruence.
    + intros Hh. right. left. exists r, caps. split; [done|]. split; [by destruct r; cbn in *; auto|].
      eapply handle_reads; [done| |exact Hh]. congruence.
  - intros [= <- <-]. left. split; [done|]. case_if; cbn; auto.
Qed.

(** *** Outcomes of actions *)

Definition known (m : Manager D) (id : string) : Prop := is_Some (m_registry m !! id).
Definition found (r : result lc_error unit) : Prop := forall e, r = Err e -> is_not_found e = false.
Definition up (m : Manager D) (id : string) : Prop := exists s, m_registry m !! id = Some s /\ st_Running s = true.

Lemma doStart_found m id m' r : known m id -> doStart cfg m id = (m', r) -> known m' id /\ found r /\ (is_ok r = true -> up m' id).
Proof.
  intros [s Hs]. unfold doStart. rewrite Hs. destruct (createWithLabels _ _ _ _) as [d [cid|]].
  - destruct (ContainerStart d cid) as [d2 []]; intros [= <- <-]; cbn.
    + unfold known, up. cbn. rewrite SetRunning_lookup, decide_True, Hs by done. split; [by eexists|]. split; [by intros ? ?|].
      intros _. by eexists.
    + split; [by exists s|]. split; [by intros ? [= <-]|done].
  - intros [= <- <-]. split; [by exists s|]. split; [by intros ? [= <-]|done].
Qed.

Lemma doStop_found m id m' r : known m id -> doStop m id = (m', r) -> known m' id /\ found r.
Proof.
  intros [s Hs]. unfold doStop. rewrite Hs. case_if; [intros [= <- <-]; split; [by exists s|by intros ? ?]|].
  destruct (ContainerStop _ _) as [d []]; intros [= <- <-]; cbn.
  - unfold known. cbn [m_registry with_registry with_docker]. rewrite SetRunning_lookup, decide_True, Hs by done. split; [by eexists|by intros ? ?].
  - split; [by exists s|by intros ? [= <-]].
Qed.

Lemma remove_old_registry (m : Manager D) cid : m_registry (remove_old m cid) = m_registry m.
Proof. unfold remove_old. by case_if. Qed.

Lemma register_known (m : Manager D) spec : known (with_registry m (Register (m_registry m) spec)) (sp_ID spec).
Proof. unfold known. cbn [m_registry with_registry]. by rewrite Register_lookup, decide_True by done. Qed.

(** An operation reports an unknown connector only when there is none, and then
    does nothing; and what it promises when it succeeds. *)
Definition honest (P : Manager D -> Prop) (m : Manager D) (id : string) (x : Manager D * result lc_error unit) : Prop :=
  match snd x with
  | Ok _ => P (fst x)
  | Err e => is_not_found e = true -> m_registry m !! id = None /\ fst x = m
  end.

Lemma honest_found (P : Manager D -> Prop) m id m' r : found r -> (is_ok r = true -> P m') -> honest P m id (m', r).
Proof. intros Hf Hp. destruct r as [u|e]; cbn; [auto|]. by rewrite (Hf e eq_refl). Qed.

Lemma doStart_honest m0 m id : known m id -> honest (fun m => up m id) m0 id (doStart cfg m id).
Proof. intros Hk. destruct (doStart cfg m id) as [m' r] eqn:E. apply doStart_found in E as (_ & Hf & Hu); [by apply honest_found|done]. Qed.

Lemma Start_honest m id : honest (fun m => up m id) m id (Start cfg m id).
Proof.
  unfold Start. case_if; [done|]. destruct (m_registry m !! id) as [s|] eqn:Es; [apply doStart_honest; by exists s|].
  unfold doStart. by rewrite Es.
Qed.

Lemma Stop_honest m id : honest (fun m => known m id) m id (Stop m id).
Proof.
  unfold Stop. case_if; [done|]. destruct (m_registry m !! id) as [s|] eqn:Es.
  - destruct (doStop m id) as [m' r] eqn:Ed. apply doStop_found in Ed as (Hk & Hf); [by apply honest_found|by exists s].
  - unfold doStop. by rewrite Es.
Qed.

Lemma Restart_honest m id : honest (fun m => up m id) m id (Restart cfg m id).
Proof.
  unfold Restart. case_if; [done|]. destruct (m_registry m !! id) as [s|] eqn:Es; [|done].
  case_if; [apply doStart_honest; by exists s|].
  destruct (ContainerStop _ _) as [d []]; [|done]. destruct (ContainerRemove _ _) as [d2 []]; [|done]. apply doStart_honest.
  unfold known. cbn [m_registry with_registry with_docker]. rewrite SetRunning_lookup, decide_True, Es by done. by eexists.
Qed.

Lemma Upgrade_honest m id img : honest (fun m => up m id) m id (Upgrade cfg m id img).
Proof.
  unfold Upgrade. case_if; [done|]. destruct (m_registry m !! id) as [s|] eqn:Es; [|done].
  destruct (ImagePull _ _) as [d []]; [|done]. destruct (doStop (with_docker m d) id) as [m1 r1] eqn:Ed.
  pose proof (doStop_found _ _ _ _ (ex_intro _ s Es : known (with_docker m d) id) Ed) as [_ Hf1].
  destruct r1 as [u|e]; [|by apply honest_found]. apply doStart_honest. exact (register_known _ _).
Qed.

Lemma Rollback_honest m id : honest (fun m => up m id) m id (Rollback cfg m id).
Proof.
  unfold Rollback. case_if; [done|]. destruct (m_registry m !! id) as [s|] eqn:Es; [|done].
  cbv zeta. case_if; [done|]. destruct (doStop m id) as [m1 r1] eqn:Ed.
  pose proof (doStop_found _ _ _ _ (ex_intro _ s Es : known m id) Ed) as [_ Hf1].
  destruct r1 as [u|e]; [|by apply honest_found]. apply doStart_honest. exact (register_known _ _).
Qed.

Lemma rollback_found m id img cause : is_not_found cause = false -> found (snd (rollback cfg m id img cause)).
Proof.
  intros Hc. unfold rollback. destruct (m_registry m !! id) as [s|]; [|by intros ? [= <-]]. case_if; [by intros ? [= <-]|]. cbv zeta.
  destruct (doStart cfg _ id) as [m' r] eqn:E2. apply doStart_found in E2 as (_ & Hf & _).
  - destruct r as [u|e]; intros e' [= <-]; cbn; [done|by apply Hf].
  - exact (register_known _ _).
Qed.

Lemma soak_found (d : D) cid window polls d' r : soakCheck d cid window polls = Some (d', r) -> found r.
Proof.
  unfold soakCheck. case_if; [by intros [= <- <-]|]. revert d. induction polls as [|p polls IH]; [done|]. intros d. cbn.
  destruct (ContainerInspect _ _) as [| |[i|]]; try (by intros [= <- <-] ? [= <-]).
  destruct i as [? [[]|] ?]; try (by intros [= <- <-] ? [= <-]).
  case_if; [by intros [= <- <-]|]. case_if; [by intros [= <- <-] ? [= <-]|]. apply IH.
Qed.

Lemma rollback_honest m0 m id img cause : is_not_found cause = false -> honest (fun m => known m id) m0 id (rollback cfg m id img cause).
Proof.
  intros Hc. pose proof (rollback_found m id img cause Hc) as Hf. destruct (rollback cfg m id img cause) as [m' r] eqn:Er.
  apply honest_found; [done|]. revert Er. unfold rollback. destruct (m_registry m !! id); [|by intros [= <- <-]].
  case_if; [by intros [= <- <-]|]. cbv zeta. by destruct (doStart cfg _ id) as [m2 [u|e]]; intros [= <- <-].
Qed.

Lemma Update_honest m id mf window polls x : Update cfg verify allowlist gwVersion m id mf window polls = Some x ->
  honest (fun m => known m id) m id x.
Proof.
  unfold Update. destruct (Validate _ _ _); [|by intros [= <-]]. case_if; [by intros [= <-]|].
  destruct (m_registry m !! id) as [s|] eqn:Es; [|by intros [= <-]]. case_if; [intros [= <-]; by exists s|].
  destruct (ImagePull _ _) as [d []]; [|by intros [= <-]]. cbv zeta. case_if; [by intros [= <-]|].
  destruct (stop_phase _ _ _) as [m1 r1] eqn:Ep.
  assert (found r1) as Hf1.
  { revert Ep. unfold stop_phase. case_if; [by intros [= <- <-]|]. destruct (doStop _ id) as [m2 r2] eqn:Eq.
    apply doStop_found in Eq as [_ Hf2]; [|by exists s]. by destruct r2; intros [= <- <-]. }
  destruct r1 as [u|e]; [|intros [= <-]; by apply honest_found].
  destruct (doStart cfg _ id) as [m2 r2] eqn:Eq. apply doStart_found in Eq as (Hk2 & Hf2 & _); [|exact (register_known _ _)].
  destruct r2 as [u2|e]; [|intros [= <-]; by apply rollback_honest, Hf2].
  destruct (soakCheck _ _ _ _) as [[d2 r3]|] eqn:Ek; [|done]. apply soak_found in Ek. destruct r3 as [u3|e]; intros [= <-]; [exact Hk2|].
  by apply rollback_honest, Ek.
Qed.

Lemma answer_honest P m id (w : world) x : m = w_mgr w -> honest P m id x ->
  (rs_status (snd (answer_mgr w x)) = 404 -> m_registry m !! id = None /\ fst (answer_mgr w x) = w) /\
  (rs_status (snd (answer_mgr w x)) = 204 -> P (w_mgr (fst (answer_mgr w x)))) /\
  In (rs_status (snd (answer_mgr w x))) [204; 404; 500].
Proof.
  intros -> Hx. destruct x as [m' [u|e]]; cbn in *; [by split_and!; auto|]. destruct (is_not_found e) eqn:E; cbn; [|by split_and!; auto].
  split_and!; [|done|by auto]. intros _. destruct (Hx eq_refl) as [? ->]. split; [done|]. by destruct w.
Qed.

Definition starting (action : string) : bool := existsb (String.eqb action) ["start"; "restart"; "upgrade"; "rollback"].

Lemma up_known m id : up m id -> known m id.
Proof. intros (s & Hs & _). by exists s. Qed.

(** The clauses of the theorem below for an operation of the manager. *)
Definition told (w : world) (id action : string) (w' : world) (rs : response) : Prop :=
  w_mqtt w' = w_mqtt w /\ In (rs_status rs) [204; 400; 404; 500; 501] /\ (In (rs_status rs) [400; 404; 501] -> w' = w) /\
  (rs_status rs = 404 -> m_registry (w_mgr w) !! id = None) /\
  (rs_status rs = 204 -> known (w_mgr w') id /\ (starting action = true -> up (w_mgr w') id)).

Lemma told_refusal (w : world) id action status text : In status [400; 501] -> told w id action w (refuse status text).
Proof. intros [<-|[<-|[]]]; unfold told; cbn; split_and!; try done; auto 10. Qed.

Lemma told_mgr P (w : world) id action x : honest P (w_mgr w) id x -> (forall m, P m -> known m id /\ (starting action = true -> up m id)) ->
  told w id action (fst (answer_mgr w x)) (snd (answer_mgr w x)).
Proof.
  intros Hx HP. destruct (answer_honest P _ id w x eq_refl Hx) as (E4 & E2 & Hs). unfold told.
  generalize dependent (rs_status (snd (answer_mgr w x))). intros status E4 E2 Hs.
  split_and!; [done|cbn in *; tauto|intros Hr|intros E%E4; tauto|intros E%E2; by apply HP].
  apply E4. cbn in Hs, Hr. destruct Hs as [<-|[<-|[<-|[]]]]; intuition (done || lia).
Qed.

Lemma action_honest sv (en : env) (w : world) id action image w' rs :
  handleAction sv en w id action image = Some (w', rs) -> told w id action w' rs.
Proof.
  assert (forall m, up m id -> known m id /\ (starting action = true -> up m id)) as Hup by (split; [by apply up_known|done]).
  unfold AdminApi.handleAction.
  case_if; [intros [= <- <-]; by eapply told_mgr; [apply Start_honest|]|].
  case_if; [apply String.eqb_eq in E0 as ->; intros [= <- <-]; by eapply told_mgr; [apply Stop_honest|]|].
  case_if; [intros [= <- <-]; by eapply told_mgr; [apply Restart_honest|]|].
  case_if.
  { case_if; [intros [= <- <-]; apply told_refusal; cbn; auto|]. cbv zeta.
    case_if; [intros [= <- <-]; apply told_refusal; cbn; auto|]. intros [= <- <-]; by eapply told_mgr; [apply Upgrade_honest|]. }
  case_if; [intros [= <- <-]; by eapply told_mgr; [apply Rollback_honest|]|].
  case_if; [|intros [= <- <-]; apply told_refusal; cbn; auto].
  case_if; [intros [= <- <-]; apply told_refusal; cbn; auto|].
  apply String.eqb_eq in E4 as ->. unfold installer_Update. destruct (en_fetch en id) as [m|e]; [|intros [= <- <-]; unfold told; cbn; split_and!; try done; auto 10].
  destruct (Update _ _ _ _ _ _ _ _ _) as [[mgr x]|] eqn:Eu; [|done]. apply Update_honest in Eu.
  pose proof (told_mgr _ w id "update" (mgr, x) Eu (fun m Hk => conj Hk (fun E => match Bool.diff_false_true E with end))) as Ht.
  by destruct x as [u|e]; intros [= <- <-].
Qed.

Lemma action_unknown sv (en : env) (w : world) id action image w' rs : handleAction sv en w id action image = Some (w', rs) ->
  m_registry (w_mgr w) !! id = None -> (id ∉ m_reserved (w_mgr w)) -> In action ["start"; "stop"; "restart"; "rollback"] -> rs_status rs = 404.
Proof.
  intros Hh Hn Hr. assert (checkReserved (w_mgr w) id = false) as Hc by (by apply bool_decide_eq_false).
  intros [<-|[<-|[<-|[<-|[]]]]]; revert Hh; cbn; unfold Start, Stop, Restart, Rollback, doStart, doStop; rewrite Hc, Hn; by intros [= _ <-].
Qed.

(** The status of a connector action tells what happened: 404 only when the
    connector is not registered, 400 and 501 when the request was refused, and
    in these cases nothing was done; 204 only when the connector is registered,
    and running after start, restart, upgrade and rollback; every other failure
    is 500.  An unknown connector that is not claimed does get 404. *)
Theorem action_outcome (sv : Server) (en : env) (w : world) (id action image : string) (w' : world) (rs : response) :
  handleAction sv en w id action image = Some (w', rs) ->
  w_mqtt w' = w_mqtt w /\ In (rs_status rs) [204; 400; 404; 500; 501] /\
  (In (rs_status rs) [400; 404; 501] -> w' = w) /\
  (rs_status rs = 404 -> m_registry (w_mgr w) !! id = None) /\
  (rs_status rs = 204 -> known (w_mgr w') id /\ (starting action = true -> up (w_mgr w') id)) /\
  (m_registry (w_mgr w) !! id = None -> (id ∉ m_reserved (w_mgr w)) -> In action ["start"; "stop"; "restart"; "rollback"] ->
     rs_status rs = 404).
Proof.
  intros Hh. destruct (action_honest _ _ _ _ _ _ _ _ Hh) as (E1 & E2 & E3 & E4 & E5). split_and!; try done.
  intros Hn Hr Ha. eapply action_unknown; eauto.
Qed.
End Theorems.

(** *** Claimed connectors *)

Section Claimed.
  Context {D K KS : Type} `{DockerLaws D} `{ControlPlane K} `{Jwt KS} (cfg : ManagerConfig) (mcfg : Config)
    (verify : string -> bool) (allowlist : list string) (gwVersion revision : string).

#[local] Abbreviation world := (@world D K).
#[local] Abbreviation env := (@env D KS).
#[local] Abbreviation ServeHTTP := (ServeHTTP cfg mcfg verify allowlist gwVersion revision).
#[local] Abbreviation run_op := (run_op cfg verify allowlist gwVersion).

(** Requests one after the other; [None] while one is still being served. *)
Fixpoint serve_all (sv : Server) (l : list (env * request)) (w : world) : option world :=
  match l with
  | [] => Some w
  | (en, rq) :: l' => match ServeHTTP sv en w rq with Some (w, _) => serve_all sv l' w | None => None end
  end.

(** During the soak of an update only the updated connector's containers exit. *)
Definition soaks_alone (sv : Server) (x : env * request) : Prop :=
  forall id, dispatch_route (registered sv) (snd x) = Some (RAction, [id; "update"]) ->
    Forall (fun p => exits id (po_env p)) (en_polls (fst x)).

(** A request does at most one operation of the manager. *)
Lemma serves_op sv (en : env) (w w' : world) rq rs : soaks_alone sv (en, rq) -> ServeHTTP sv en w rq = Some (w', rs) ->
  w_mgr w' = w_mgr w \/ exists op, calm op /\ run_op (w_mgr w) op = Some (w_mgr w').
Proof.
  intros Hs. unfold AdminApi.ServeHTTP. destruct (dispatch_route _ rq) as [[r caps]|] eqn:Ed; [|intros [= <- _]; by left].
  destruct (if sv_authenticated sv then _ else _); [intros [= <- _]; by left|].
  destruct r; try (intros [= <- _]; by left); destruct caps as [|c1 [|c2 [|c3 caps]]]; try discriminate; try (intros [= <- _]; by left).
  - unfold handle, handleAction. case_if; [intros [= <- _]; right; by exists (OpStart c1)|].
    case_if; [intros [= <- _]; right; by exists (OpStop c1)|]. case_if; [intros [= <- _]; right; by exists (OpRestart c1)|].
    case_if; [case_if; [intros [= <- _]; by left|]; cbv zeta; case_if; [intros [= <- _]; by left|];
      intros [= <- _]; right; by exists (OpUpgrade c1 (trim_space (rq_image rq)))|].
    case_if; [intros [= <- _]; right; by exists (OpRollback c1)|]. case_if; [|intros [= <- _]; by left].
    case_if; [intros [= <- _]; by left|]. apply String.eqb_eq in E4 as ->. unfold installer_Update.
    destruct (en_fetch en c1) as [m|e]; [|intros [= <- _]; by left].
    destruct (Update _ _ _ _ _ _ _ _ _) as [[mgr x]|] eqn:Eu; [|done]. intros Hx. right. exists (OpUpdate c1 m (30 * second) (en_polls en)).
    split; [by apply Hs|]. cbn. rewrite Eu. cbn. by destruct x; injection Hx as <- _.
  - intros [= Hx]. unfold handleInstall, installer_Install in Hx. destruct (en_fetch en c1) as [m|e]; [|injection Hx as <- _; by left].
    destruct (Install _ _ _ _ _ m) as [mgr x] eqn:Ei. right. exists (OpInstall m). split; [done|]. cbn. rewrite Ei. by destruct x; injection Hx as <- _.
  - intros [= Hx]. left. unfold handlePreview in Hx. destruct (Preview _ _ _ _) as [k x]. by injection Hx as <- _.
  - intros [= Hx]. left. unfold handleApply in Hx. destruct (Apply _ _ _ _) as [k x]. by injection Hx as <- _.
Qed.

(** C32: Whatever requests the admin API gets, authenticated or not, a connector
    that clock provisioning has claimed stays claimed, keeps its registry entry,
    and its containers stay exactly as they were. *)
Theorem admin_spares_claimed (sv : Server) (l : list (env * request)) : forall (w w' : world) (j : string),
  wf (w_mgr w) -> Forall (soaks_alone sv) l -> serve_all sv l w = Some w' -> j ∈ m_reserved (w_mgr w) ->
  j ∈ m_reserved (w_mgr w') /\ m_registry (w_mgr w') !! j = m_registry (w_mgr w) !! j /\
  forall k c, ct_name c = container_name j ->
    containers (m_docker (w_mgr w')) !! k = Some c <-> containers (m_docker (w_mgr w)) !! k = Some c.
Proof.
  induction l as [|[en rq] l IH]; intros w w' j Hw Hc E Hj; cbn [serve_all] in E; [injection E as <-; by split_and!|].
  apply Forall_cons in Hc as [Hc0 Hc]. destruct (ServeHTTP sv en w rq) as [[w1 rs]|] eqn:Es; [|done].
  destruct (serves_op _ _ _ _ _ _ Hc0 Es) as [Hm|(op & Hop & Hrun)]; [rewrite <- Hm in Hw, Hj |- *; by eapply IH|].
  pose proof (op_good cfg verify allowlist gwVersion _ _ _ Hw Hop Hrun) as [(T & Hr & Hreg) Hw1].
  destruct (IH w1 w' j Hw1 Hc E) as (Hj' & Hreg' & Hct); [by rewrite Hr|]. split; [done|].
  destruct (decide (op_id op = j)) as [<-|Hne].
  - rewrite (op_reserved cfg verify allowlist gwVersion _ _ Hj) in Hrun. injection Hrun as Hrun. rewrite <- Hrun in *. done.
  - split; [rewrite Hreg'; by apply Hreg|]. intros k c Hn. rewrite (Hct k c Hn).
    assert (ct_name c <> container_name (op_id op)) by (rewrite Hn; intros E0%container_name_inj; congruence).
    split; intros Ek; [by apply (to_back _ _ _ T)|by apply (to_kept _ _ _ T)].
Qed.
End Claimed.

(** ** Requests that run *)

Module AdminApiExample.
Import LifecycleExample.

#[local] Instance no_plane : ControlPlane unit := {| cfg_status k _ := (k, None); cfg_apply k _ _ := (k, None) |}.

Definition claims_of (r : role) : gmap string json := {["realm_access" := JObj [("roles", JArr [JStr (role_name r)])]]}.
#[local] Instance two_tokens : Jwt unit := fun _ audience issuer token =>
  if negb (String.eqb audience "account" && String.eqb issuer "kc") then None
  else if String.eqb token "op" then Some (claims_of RoleOperator)
  else if String.eqb token "view" then Some (claims_of RoleViewer) else None.

Definition secure : Server :=
  {| sv_authenticated := true; sv_audience := "account"; sv_issuer := "kc"; sv_clock := false; sv_installer := true; sv_catalog := true;
     sv_devices := true; sv_mqttSync := true; sv_telemetry := false; sv_streamStats := false; sv_recent := true; sv_logger := true;
     sv_gatewayLogs := true; sv_adhoc := false; sv_thresholds := DefaultThresholds |}.

Definition post (token id action : string) : AdminApi.request :=
  {| rq_method := "POST"; rq_path := ["connectors"; id; action]; rq_auth := "Bearer " +:+ token; rq_image := ""; rq_tail := "" |}.

(** A catalog that answers with the same manifest for every name. *)
Definition env0 (m : Manifest) : @env fake unit :=
  {| en_keys := Some tt; en_now := 0; en_nats := true; en_uplink := true; en_promoted := false; en_invalid := 0; en_unresolved := 0;
     en_redelivered := 0; en_telemetry := Build_TelemetrySource ∅ 0 0 0 0 0 0 0 0 0 0 0 0 0 0; en_stream := None; en_recent := ∅;
     en_recorder := NewRecorder 4; en_logs := fun _ _ => None; en_resolver := NewSynced None; en_fetch := fun _ => Ok m;
     en_list := Ok [m]; en_polls := [good_poll false; good_poll true] |}.
Definition world0 : @world fake unit := {| w_mgr := m0 ∅; w_mqtt := tt |}.
Definition serve (rq : AdminApi.request) : option (@world fake unit * response) :=
  ServeHTTP cfg0 {| DefaultSubscribeQoS := ∅; DefaultCommandQoS := ∅ |} verify_all ["ghcr.io"] "0.2.0" "" secure (env0 manifest1) world0 rq.

Definition mcfg0 : Config := {| DefaultSubscribeQoS := ∅; DefaultCommandQoS := ∅ |}.
Definition statuses (l : list AdminApi.request) : list (option Z) := map (fun rq => option_map (fun x => rs_status (snd x)) (serve rq)) l.

Example routed : statuses
  [post "op" "mqtt" "stop"; post "view" "mqtt" "stop"; post "none" "mqtt" "stop"; post "op" "ghost" "start"; post "op" "bacnet" "stop";
   post "op" "mqtt" "upgrade"; post "op" "mqtt" "dance"; post "op" "mqtt" ""; post "op" "mqtt" "update";
   {| rq_method := "HEAD"; rq_path := ["health"; "live"]; rq_auth := ""; rq_image := ""; rq_tail := "" |};
   {| rq_method := "DELETE"; rq_path := ["connectors"]; rq_auth := ""; rq_image := ""; rq_tail := "" |}]
  = [Some 204; Some 403; Some 401; Some 404; Some 500; Some 501; Some 400; Some 404; Some 204; Some 200; Some 405].
Proof. vm_compute. reflexivity. Qed.

Definition stopped : @world fake unit := match serve (post "op" "mqtt" "stop") with Some (w, _) => w | None => world0 end.

Lemma stop_served : serve (post "op" "mqtt" "stop") = Some (stopped, {| rs_status := 204; rs_body := Empty |}).
Proof. vm_compute. reflexivity. Qed.

Lemma plane_reads (k : unit) id : fst (cfg_status k id) = k.
Proof. reflexivity. Qed.

Lemma admin_authorized_witness :
  exists claims, jwt_Parse tt "account" "kc" "op" = Some claims /\ hasRole (realmRoles claims) RoleOperator = true.
Proof.
  destruct (admin_authorized cfg0 mcfg0 verify_all ["ghcr.io"] "0.2.0" "" secure (env0 manifest1) world0 (post "op" "mqtt" "stop") stopped
    {| rs_status := 204; rs_body := Empty |} plane_reads eq_refl stop_served)
    as [[_ Hs]|[(r & caps & Ed & Hr & _)|(r & caps & role & ks & claims & Ed & Er & Ek & Ep & Ho & _)]].
  - exfalso. cbn in Hs. intuition discriminate.
  - exfalso. vm_compute in Ed. injection Ed as <- _. cbn in Hr. intuition discriminate.
  - vm_compute in Ed. injection Ed as <- _. injection Er as <-. injection Ek as <-. exists claims. exact (conj Ep Ho).
Defined.

Lemma action_outcome_witness :
  exists w rs, handleAction cfg0 verify_all ["ghcr.io"] "0.2.0" secure (env0 manifest1) world0 "ghost" "start" "" = Some (w, rs) /\ rs_status rs = 404.
Proof.
  destruct (handleAction cfg0 verify_all ["ghcr.io"] "0.2.0" secure (env0 manifest1) world0 "ghost" "start" "") as [[w rs]|] eqn:E;
    [|vm_compute in E; discriminate E].
  destruct (action_outcome cfg0 verify_all ["ghcr.io"] "0.2.0" secure (env0 manifest1) world0 "ghost" "start" "" w rs E) as (_ & _ & _ & _ & _ & Hn).
  exists w, rs. split; [reflexivity|]. apply Hn; [vm_compute; reflexivity| |left; reflexivity].
  change (m_reserved (w_mgr world0)) with ({["bacnet"]} : gset string). rewrite elem_of_singleton. discriminate.
Defined.

Definition trio : list (@env fake unit * AdminApi.request) :=
  map (fun rq => (env0 manifest1, rq)) [post "op" "bacnet" "stop"; post "op" "mqtt" "update"; post "op" "bacnet" "restart"].

Lemma admin_spares_claimed_witness : exists w,
  serve_all cfg0 mcfg0 verify_all ["ghcr.io"] "0.2.0" "" secure trio world0 = Some w /\
  cs (m_docker (w_mgr w)) !! "b" = Some (with_running true (container_of cfg0 clock_spec "bacnet")).
Proof.
  destruct (serve_all cfg0 mcfg0 verify_all ["ghcr.io"] "0.2.0" "" secure trio world0) as [w|] eqn:E; [|vm_compute in E; discriminate E].
  destruct (admin_spares_claimed cfg0 mcfg0 verify_all ["ghcr.io"] "0.2.0" "" secure trio world0 w "bacnet" (m0_wf ∅)) as (_ & _ & Hc).
  - apply List.Forall_forall. intros x Hx id _. assert (en_polls (fst x) = map good_poll [false; true]) as ->.
    { unfold trio in Hx. apply in_map_iff in Hx as (rq & <- & _). reflexivity. }
    apply List.Forall_forall. intros p [b [<- _]]%in_map_iff d. split; [reflexivity|]. intros k. left. reflexivity.
  - exact E.
  - cbn. set_solver.
  - exists w. split; [reflexivity|]. apply Hc; [reflexivity|]. vm_compute. reflexivity.
Defined.

(** The update action installs whatever the catalog answers: here the manifest
    of another connector, which the poller's updates would have refused. *)
Definition other : Manifest :=
  {| mf_Name := "opcua"; mf_Version := "9"; mf_Image := "ghcr.io/g/opcua"; mf_Digest := mf_Digest manifest1; MinGatewayVersion := "0.1.0";
     mf_Permissions := mf_Permissions manifest1; SignatureRequired := false |}.

Example update_takes_other_manifest :
  option_map (fun x => (rs_status (snd x), option_map (fun s => sp_Image (st_Spec s)) (m_registry (w_mgr (fst x)) !! "mqtt")))
    (ServeHTTP cfg0 mcfg0 verify_all ["ghcr.io"] "0.2.0" "" secure (env0 other) world0 (post "op" "mqtt" "update"))
  = Some (204, Some (ImageRef other)) /\
  poll_one cfg0 verify_all ["ghcr.io"] "0.2.0" (m0 ∅) (up_entry old_spec "a") (Ok other) (30 * second) [] = Some (m0 ∅).
Proof. split; vm_compute; reflexivity. Qed.
End AdminApiExample.
