(* ===== verification/GatewayMain.v ===== *)
(** * The gateway process

    [src/cmd/gateway/main.go] and [src/cmd/gateway/clock.go]: what the process
    checks of its settings, in order, which Point List source, pipeline and
    Admin API it builds of the components, and which goroutines it starts.
    [src/cmd/clock-config/main.go]: where the tool reads its snapshot.

    Settings are the values the flags resolved to.  Whether NATS, the file
    system and the constructors that only dial succeed are inputs.  The theorems
    show that a process that starts has one writer of the buffer and one origin
    of the Point List, that clock provisioning excludes every legacy part, that
    the provisioning mode pins the source, and what a connector map denotes. *)

From Stdlib Require Import ZArith Lia Bool Ascii String List.
From stdpp Require Import base list strings gmap.
From S2P Require Import Prelude Json GoText Float PointList MqttSync Transport Provisioning Catalog Lifecycle.
From S2P Require Import ClockConfig ClockGateway Health AdminApi.
#[local] Open Scope string_scope.
#[local] Open Scope list_scope.
#[local] Open Scope Z_scope.
#[local] Open Scope go_scope.

(** ** Helpers *)

Definition splitComma (s : string) : list string :=
  List.filter (fun t => negb (String.eqb t "")) (map trim_space (split_byte "," s)).

(** [strings.Cut(pair, ":")] and what the loop makes of it. *)
Definition connector_pair (p : string) : option (string * string) :=
  match cut_byte ":" p with
  | None => None
  | Some (k, v) =>
    let k := to_lower (trim_space k) in
    let v := trim_space v in
    if String.eqb k "" || String.eqb v "" then None else Some (k, v)
  end.

Fixpoint connector_map (m : gmap string string) (pairs : list string) : result string (gmap string string) :=
  match pairs with
  | [] => Ok m
  | p :: rest =>
    match connector_pair p with
    | None => Err p
    | Some (k, v) => connector_map (<[k := v]> m) rest
    end
  end.

(** The error carries the entry it quotes. *)
Definition parseConnectorMap (s : string) : result string (gmap string string) := connector_map ∅ (splitComma s).

Definition resolveBOSAddr (bosAddr override : string) : string :=
  if negb (String.eqb override "") then override else bosAddr.

Fixpoint wantsVersion (args : list string) : bool :=
  match args with
  | [] => false
  | a :: rest =>
    if String.eqb a "--" then false
    else if String.eqb a "-version" || String.eqb a "--version" then true
    else wantsVersion rest
  end.

(** An unset variable and an empty one are the same. *)
Definition envOrDefault (env : gmap string string) (key def : string) : string :=
  let v := default "" (env !! key) in if negb (String.eqb v "") then v else def.

(** [None]: the process exits. *)
Definition envOrDefaultInt (env : gmap string string) (key : string) (def : Z) : option Z :=
  let v := default "" (env !! key) in if String.eqb v "" then Some def else parse_i64 v.

Inductive provisioningMode := ModeAuto | ModeFile | ModeURL | ModeFallback.

Inductive mode_error := FileRequired | URLRequired | BothRequired | UnknownMode.

Definition resolveProvisioningMode (mode url file : string) : result mode_error provisioningMode :=
  let m := to_lower (trim_space mode) in
  if String.eqb m "" then Ok ModeAuto
  else if String.eqb m "file" then if String.eqb file "" then Err FileRequired else Ok ModeFile
  else if String.eqb m "url" then if String.eqb url "" then Err URLRequired else Ok ModeURL
  else if String.eqb m "fallback" then
    if String.eqb url "" || String.eqb file "" then Err BothRequired else Ok ModeFallback
  else Err UnknownMode.

Definition loadFixtureEntries {K} `{PKI K} (k : K) (path : string) : option (list Entry) :=
  match read_file k path with None => None | Some data => entries_unjson data end.

(** A [map[string]byte]. *)
Definition decode_byte (v : json) : option Z :=
  match v with
  | JNull => Some 0
  | JNum lit => if all_digits lit && (digits_val 0 lit <=? 255) then Some (digits_val 0 lit) else None
  | _ => None
  end.
Fixpoint byte_members (m : gmap string Z) (l : list (string * json)) : option (gmap string Z) :=
  match l with
  | [] => Some m
  | (key, v) :: l' => match decode_byte v with Some b => byte_members (<[key := b]> m) l' | None => None end
  end.
Definition qos_map (data : string) : option (gmap string Z) :=
  match parse data with
  | Some (JObj l) => byte_members ∅ l
  | Some JNull => Some ∅
  | _ => None
  end.

(** ** Clock provisioning settings *)

Definition spec_names : list string := ["ID"; "Image"; "PrevImage"; "Env"; "Permissions"].
Definition spec_perm_set (f : string) (v : json) (p : Permissions) : option Permissions :=
  if String.eqb f "Network" then option_map (fun l => {| p with Network := l |}) (decode_slice (decode_str "") v)
  else option_map (fun l => {| p with Mounts := l |}) (decode_slice (decode_str "") v).
Definition spec_set (f : string) (v : json) (s : ConnectorSpec) : option ConnectorSpec :=
  if String.eqb f "ID" then option_map (fun x => {| s with sp_ID := x |}) (decode_str (sp_ID s) v)
  else if String.eqb f "Image" then option_map (fun x => {| s with sp_Image := x |}) (decode_str (sp_Image s) v)
  else if String.eqb f "PrevImage" then option_map (fun x => {| s with sp_PrevImage := x |}) (decode_str (sp_PrevImage s) v)
  else if String.eqb f "Env" then option_map (fun x => {| s with sp_Env := x |}) (decode_slice (decode_str "") v)
  else option_map (fun x => {| s with sp_Permissions := x |})
         (decode_struct true ["Network"; "Mounts"] spec_perm_set (sp_Permissions s) v).
Definition zero_spec : ConnectorSpec :=
  {| sp_ID := ""; sp_Image := ""; sp_PrevImage := ""; sp_Env := []; sp_Permissions := {| Network := []; Mounts := [] |} |}.

(** The pattern [^[A-Za-z0-9_-]+$]. *)
Definition token_byte (c : ascii) : bool :=
  between 65 90 (code c) || between 97 122 (code c) || is_digit c || (code c =? 95) || (code c =? 45).
Definition single_token (s : string) : bool := negb (String.eqb s "") && all_str token_byte s.

(** The pattern [@sha256:[0-9a-f]{64}$]: the last 72 bytes of the image. *)
Fixpoint pinned_image (s : string) : bool :=
  match s with
  | EmptyString => false
  | String c r => (Ascii.eqb c "@" && digestPattern r) || pinned_image r
  end.

(** The loop over the environment; [None] when an entry is refused, else
    whether an address is given. *)
Fixpoint clock_env (address : bool) (env : list string) : option bool :=
  match env with
  | [] => Some address
  | e :: env' =>
    match cut_byte "=" e with
    | None => None
    | Some (key, value) =>
      let address := address || (String.eqb key "BACNET_ADDRESS" && negb (String.eqb value "")) in
      if existsb (String.eqb key) ["BACNET_POINTS"; "BACNET_CLOCK_CONFIG_FILE"; "BACNET_MANAGED_SESSION"] then None
      else clock_env address env'
    end
  end.

Inductive spec_error := SpecRead | SpecDecode | SpecTrailing | SpecIdentity | SpecEnv | SpecAddress | SpecNATS.

Definition loadClockSpec {K} `{PKI K} `{Outside K} (k : K) (path : string) : result spec_error ConnectorSpec :=
  match read_file k path with
  | None => Err SpecRead
  | Some data =>
    match parse_prefix data with
    | None => Err SpecDecode
    | Some (v, rest) =>
      match decode_struct true spec_names spec_set zero_spec v with
      | None => Err SpecDecode
      | Some spec =>
        let! _ := guard (String.eqb (skip_ws rest) "") SpecTrailing in
        let! _ := guard (single_token (sp_ID spec) && pinned_image (sp_Image spec)) SpecIdentity in
        match clock_env false (sp_Env spec) with
        | None => Err SpecEnv
        | Some address =>
          let! _ := guard address SpecAddress in
          match ConnectorNATSAuthFile k spec with None => Err SpecNATS | Some _ => Ok spec end
        end
      end
    end
  end.

(** Whether the options are accepted. *)
Definition validateClockMode (enabled : bool) (mode : provisioningMode) (url file state : string) (device : Z)
    (devSim catalog : bool) : bool :=
  negb enabled
  || negb (String.eqb url "" || negb (String.eqb file "")
           || negb (match mode with ModeAuto | ModeURL => true | _ => false end)
           || devSim || catalog || negb (has_prefix state "/") || negb (between 0 4194302 device)).

(** ** [clock-config] *)

Inductive read_error := OneSourceRequired | ReadFailed | ClientInvalid (e : clock_client_error) | FetchFailed.

(** [fetch] is [Fetch] of a client without a known revision. *)
Definition readSnapshot {K} `{PKI K} (k : K) (parsed : option parsed_url) (default_ok : bool)
    (fetch : ClockHTTPClient -> option ClockSnapshot) (path baseURL : string) (scope : ClockScope)
    (opts : ClockHTTPOptions) : result read_error string :=
  if Bool.eqb (String.eqb path "") (String.eqb baseURL "") then Err OneSourceRequired
  else if negb (String.eqb path "") then
    match read_file k path with Some data => Ok data | None => Err ReadFailed end
  else
    match NewClockHTTPClient k parsed default_ok baseURL scope opts with
    | Err e => Err (ClientInvalid e)
    | Ok client => match fetch client with Some s => Ok (cl_raw s) | None => Err FetchFailed end
    end.

(** ** Settings and the process *)

(** The flags after [flag.Parse], durations in nanoseconds, and the limits of
    the EVENTS stream. *)
Record settings := {
  natsURL : string; bosAddr : string; bosIngressAddr : string; bosEgressAddr : string; gatewayID : string;
  jwksURL : string; adminAudience : string; adminIssuer : string; plFile : string; plPersist : string;
  provURL : string; provFile : string; provMode : string; provConnID : string; provTLS : TLSOptions;
  clockEnabled : bool; clockRunContext : string; clockSpecFile : string; clockStateDir : string; clockDevice : Z;
  clockTimeout : Z; connectorMapStr : string; sfDB : string; sfCap : Z; devSim : bool; devSimInterval : Z;
  allowAdhocUpgrade : bool; syncInterval : Z; mqttSyncSubQoS : string; mqttSyncCmdQoS : string;
  healthThresholds : Thresholds; bosTLS : Transport.Config; catalogFile : string; catalogURL : string;
  catalogAllowlist : string; catalogPollInterval : Z; cosignKey : string; cosignIdentity : string;
  cosignOIDCIssuer : string; eventsMaxAge : Z; eventsMaxBytes : Z
}.

(** What the process meets outside itself: [b_mkdir] is about the directory of
    a path, [b_stat] whether a path is a regular file, [b_clock] whether the
    managed runtime was built and recovered. *)
Class Boot (K : Type) := {
  b_nats : K -> string -> string -> bool;
  b_jetstream : K -> bool;
  b_stream : K -> Z -> Z -> bool;
  b_mkdir : K -> string -> bool;
  b_stat : K -> string -> option bool;
  b_buffer : K -> string -> Z -> bool;
  b_normalizer : K -> bool;
  b_clock : K -> ConnectorSpec -> ClockScope -> string -> string -> bool;
  b_uplink : K -> string -> bool
}.

Inductive exit_reason :=
  BadCapacity | BadInterval | BadMode (e : mode_error) | BadClockOptions | RunContextAlone | BadSpec (e : spec_error)
| BadClockClient (e : clock_client_error) | BadConnectorMap (entry : string) | BadCredentials (e : Transport.tls_error)
| NoNATS | NoJetStream | BadLimits | NoStream | BadQoS | BadProvisioning (e : new_client_error) | BadProvFile
| NoDirectory | BadFixture | NoNormalizer | NoBuffer | NoClockRuntime | NoUplink.

Section Main.
  Context {K L : Type} `{PKI K} `{Outside K} `{Boot K}.
  (** [url.Parse] of the provisioning URL, whether the default transport is the
      standard one, and the link a TLS configuration gives. *)
  Variable k : K.
  Variable parsed : option parsed_url.
  Variable default_ok : bool.
  Variable dial : option Transport.tls_config -> L.

Inductive source :=
  FromHTTP (c : HTTPClient L)
| FromFile (c : FileClient)
| FromFallback (f : FallbackClient (HTTPClient L) FileClient).

(** The goroutines of the process, with the consumption [normalizer.New] starts. *)
Inductive task :=
  SyncTask (s : source) (interval : Z) (persist : string)
| ClockWorkerTask (spec : ConnectorSpec) (scope : ClockScope)
| ClockSyncTask (c : ClockHTTPClient) (interval : Z)
| NormalizerTask
| PumpTask
| FanOutTask
| UplinkTask (addr : string)
| EgressTask (addr : string) (admission revisions : bool)
| UpdaterTask (http : bool) (verified : bool) (allowlist : list string) (interval : Z)
| AdminTask (sv : Server)
| DevSimTask (interval : Z).

(** [fixture]: the entries the resolver was given at start. *)
Record process := { tasks : list task; fixture : option (list Entry); mqtt_config : Config; bos_creds : Transport.credentials }.

(** The checks before anything is built; the connector and client of clock
    provisioning. *)
Definition check_settings (f : settings) : result exit_reason (provisioningMode * option (ConnectorSpec * ClockScope * ClockHTTPClient)) :=
  let catalog := negb (String.eqb (catalogURL f) "") || negb (String.eqb (catalogFile f) "") in
  let! _ := guard (negb (sfCap f <=? 0)) BadCapacity in
  let! _ := guard (negb (syncInterval f <=? 0)) BadInterval in
  let! _ := guard (negb (devSim f && (devSimInterval f <=? 0))) BadInterval in
  let! _ := guard (negb (catalog && (catalogPollInterval f <=? 0))) BadInterval in
  match resolveProvisioningMode (provMode f) (provURL f) (provFile f) with
  | Err e => Err (BadMode e)
  | Ok mode =>
    let! _ := guard (validateClockMode (clockEnabled f) mode (provURL f) (provFile f) (clockStateDir f) (clockDevice f)
                       (devSim f) catalog && negb (clockEnabled f && (clockTimeout f <=? 0))) BadClockOptions in
    let! _ := guard (negb (negb (String.eqb (clockRunContext f) "") && negb (clockEnabled f))) RunContextAlone in
    if clockEnabled f then
      match loadClockSpec k (clockSpecFile f) with
      | Err e => Err (BadSpec e)
      | Ok spec =>
        let scope := {| sc_GatewayID := gatewayID f; sc_ConnectorID := sp_ID spec; sc_DeviceID := clockDevice f |} in
        match NewClockHTTPClient k parsed default_ok (provURL f) scope
                {| ho_TLS := provTLS f; ho_Timeout := 0; ho_Attempts := 0; ho_RetryDelay := 0 |} with
        | Err e => Err (BadClockClient e)
        | Ok c => Ok (mode, Some (spec, scope, c))
        end
      end
    else Ok (mode, None)
  end.

(** The shared protocol map. *)
Definition resolve_map (f : settings) : result exit_reason (gmap string string) :=
  match parseConnectorMap (connectorMapStr f) with
  | Err e => Err (BadConnectorMap e)
  | Ok m => Ok (if decide (m = ∅) then {["bacnet" := provConnID f]} else m)
  end.

Definition newProvHTTPClient (f : settings) (cmap : gmap string string) : result exit_reason (HTTPClient L) :=
  match NewHTTPClient k (option_map u_scheme parsed) default_ok dial (provURL f) (gatewayID f) cmap (provTLS f) with
  | Err e => Err (BadProvisioning e)
  | Ok c => Ok (WithFallbackConnectorID c (provConnID f))
  end.

Definition newProvFileClient (f : settings) (cmap : gmap string string) : result exit_reason FileClient :=
  match b_stat k (provFile f) with
  | Some true => Ok {| fc_path := provFile f; fc_connectorID := provConnID f; fc_connectorMap := cmap |}
  | _ => Err BadProvFile
  end.

(** [provClient]; [None] is the nil client. *)
Definition select_source (f : settings) (mode : provisioningMode) (cmap : gmap string string)
  : result exit_reason (option source) :=
  let http := let! c := newProvHTTPClient f cmap in Ok (Some (FromHTTP c)) in
  let file := let! c := newProvFileClient f cmap in Ok (Some (FromFile c)) in
  if clockEnabled f then Ok None
  else
    match mode with
    | ModeURL => http
    | ModeFile => file
    | ModeFallback =>
      let! p := newProvHTTPClient f cmap in
      let! s := newProvFileClient f cmap in
      Ok (Some (FromFallback (OnPromote (NewFallbackClient p s))))
    | ModeAuto =>
      if negb (String.eqb (provURL f) "") then http
      else if negb (String.eqb (provFile f) "") then file
      else Ok None
    end.

(** The catalog block: the updater, when a catalog is configured. *)
Definition catalog_tasks (f : settings) : list task :=
  if negb (String.eqb (catalogURL f) "") || negb (String.eqb (catalogFile f) "") then
    [UpdaterTask (negb (String.eqb (catalogURL f) "")) (negb (String.eqb (cosignKey f) "") || negb (String.eqb (cosignIdentity f) ""))
       (splitComma (catalogAllowlist f)) (catalogPollInterval f)]
  else [].

(** [adminOpts] and the server built of it. *)
Definition admin_server (f : settings) : Server :=
  let catalog := negb (String.eqb (catalogURL f) "") || negb (String.eqb (catalogFile f) "") in
  {| sv_authenticated := negb (String.eqb (jwksURL f) ""); sv_audience := adminAudience f; sv_issuer := adminIssuer f;
     sv_clock := clockEnabled f; sv_installer := catalog; sv_catalog := catalog; sv_devices := true;
     sv_mqttSync := negb (clockEnabled f); sv_telemetry := true; sv_streamStats := true; sv_recent := true;
     sv_logger := true; sv_gatewayLogs := true; sv_adhoc := allowAdhocUpgrade f; sv_thresholds := healthThresholds f |}.

(** The Point List at start: the sync loop, or the fixture when no source is
    configured. *)
Definition point_list_start (f : settings) (src : option source) : result exit_reason (list task * option (list Entry)) :=
  match src with
  | Some s => Ok ([SyncTask s (syncInterval f) (plPersist f)], None)
  | None =>
    if clockEnabled f then Ok ([], None)
    else match loadFixtureEntries k (plFile f) with
         | None => Err BadFixture
         | Some es => Ok ([], Some es)
         end
  end.

(** The buffer's producers. *)
Definition pipeline_start (f : settings) (clock : option (ConnectorSpec * ClockScope * ClockHTTPClient))
  : result exit_reason (list task) :=
  match clock with
  | Some (spec, scope, c) =>
    if b_clock k spec scope (clockStateDir f) (clockRunContext f)
    then Ok [ClockWorkerTask spec scope; ClockSyncTask c (syncInterval f)]
    else Err NoClockRuntime
  | None => Ok [PumpTask; FanOutTask]
  end.

(** NATS and the EVENTS stream. *)
Definition open_events (f : settings) : result exit_reason unit :=
  let! _ := guard (b_nats k (natsURL f) (if clockEnabled f then "_INBOX.core" else "_INBOX")) NoNATS in
  let! _ := guard (b_jetstream k) NoJetStream in
  let! _ := guard (negb ((eventsMaxAge f <=? 0) || (eventsMaxBytes f <=? 0))) BadLimits in
  guard (b_stream k (eventsMaxAge f) (eventsMaxBytes f)) NoStream.

(** The two QoS maps of the MQTT sync. *)
Definition sync_config (f : settings) : option Config :=
  match qos_map (mqttSyncSubQoS f), qos_map (mqttSyncCmdQoS f) with
  | Some sub, Some cmd => Some {| DefaultSubscribeQoS := sub; DefaultCommandQoS := cmd |}
  | _, _ => None
  end.

Definition main (f : settings) : result exit_reason process :=
  let! (mode, clock) := check_settings f in
  let! cmap := resolve_map f in
  match Transport.ClientCredentials k (bosTLS f) with
  | Err e => Err (BadCredentials e)
  | Ok creds =>
    let! _ := open_events f in
    match sync_config f with
    | Some mqtt =>
      let! src := select_source f mode cmap in
      let! _ := guard (String.eqb (plPersist f) "" || b_mkdir k (plPersist f)) NoDirectory in
      let! (points, fix_) := point_list_start f src in
      let! _ := guard (clockEnabled f || b_normalizer k) NoNormalizer in
      let! _ := guard (b_mkdir k (sfDB f)) NoDirectory in
      let! _ := guard (b_buffer k (sfDB f) (sfCap f)) NoBuffer in
      let! pipeline := pipeline_start f clock in
      let ingress := resolveBOSAddr (bosAddr f) (bosIngressAddr f) in
      let egress := resolveBOSAddr (bosAddr f) (bosEgressAddr f) in
      let! _ := guard (b_uplink k ingress) NoUplink in
      Ok {| tasks := points ++ (if clockEnabled f then [] else [NormalizerTask]) ++ pipeline
              ++ [UplinkTask ingress; EgressTask egress (clockEnabled f) (match src with Some _ => true | None => false end)]
              ++ catalog_tasks f ++ [AdminTask (admin_server f)] ++ (if devSim f then [DevSimTask (devSimInterval f)] else []);
            fixture := fix_; mqtt_config := mqtt; bos_creds := creds |}
    | None => Err BadQoS
    end
  end.

(** [pipelineWg]: the goroutines that end before the buffer is closed. *)
Definition tracked (t : task) : bool :=
  match t with ClockWorkerTask _ _ | PumpTask | FanOutTask | UplinkTask _ | EgressTask _ _ _ => true | _ => false end.

(** Who is handed the buffer, and for what: to append to it, to forward from it
    and acknowledge, or to read its counters and depth; who replaces the Point
    List. *)
Definition appends (t : task) : bool := match t with ClockWorkerTask _ _ | PumpTask => true | _ => false end.
Definition forwards (t : task) : bool := match t with UplinkTask _ => true | _ => false end.
Definition inspects (t : task) : bool := match t with AdminTask sv => sv_telemetry sv | _ => false end.
Definition uses_buffer (t : task) : bool := appends t || forwards t || inspects t.
Definition replaces_points (t : task) : bool := match t with SyncTask _ _ _ | ClockSyncTask _ _ => true | _ => false end.
Definition legacy (t : task) : bool :=
  match t with
  | SyncTask _ _ _ | NormalizerTask | PumpTask | FanOutTask | UpdaterTask _ _ _ _ | DevSimTask _ => true
  | _ => false
  end.

(** ** What the constructors guarantee *)

Lemma guard_bind_ok {E A} b (e : E) (r : unit -> result E A) x : result_bind (guard b e) r = Ok x -> b = true /\ r tt = Ok x.
Proof. destruct b; [done|discriminate]. Qed.

Lemma check_settings_ok f mode clock : check_settings f = Ok (mode, clock) ->
  resolveProvisioningMode (provMode f) (provURL f) (provFile f) = Ok mode /\
  validateClockMode (clockEnabled f) mode (provURL f) (provFile f) (clockStateDir f) (clockDevice f) (devSim f)
    (negb (String.eqb (catalogURL f) "") || negb (String.eqb (catalogFile f) "")) = true /\
  match clock with
  | None => clockEnabled f = false
  | Some (spec, scope, c) =>
    clockEnabled f = true /\ loadClockSpec k (clockSpecFile f) = Ok spec /\
    scope = {| sc_GatewayID := gatewayID f; sc_ConnectorID := sp_ID spec; sc_DeviceID := clockDevice f |} /\
    exists opts, ho_TLS opts = provTLS f /\ NewClockHTTPClient k parsed default_ok (provURL f) scope opts = Ok c
  end.
Proof.
  unfold check_settings. intros E. do 4 apply guard_bind_ok in E as [_ E].
  destruct (resolveProvisioningMode _ _ _) as [m|] eqn:Em; [|discriminate].
  apply guard_bind_ok in E as [[Hv _]%andb_true_iff E]. apply guard_bind_ok in E as [_ E].
  destruct (clockEnabled f) eqn:Ec; [|by injection E as -> <-].
  destruct (loadClockSpec _ _) as [spec|] eqn:Es; [|discriminate].
  destruct (NewClockHTTPClient _ _ _ _ _ _) as [c|] eqn:En; [|discriminate].
  injection E as -> <-. split_and!; try done. by eexists; split; [|exact En].
Qed.

Lemma main_ok f p : main f = Ok p -> exists mode clock cmap src points pipeline,
  check_settings f = Ok (mode, clock) /\ resolve_map f = Ok cmap /\ select_source f mode cmap = Ok src /\
  point_list_start f src = Ok (points, fixture p) /\ pipeline_start f clock = Ok pipeline /\
  tasks p = points ++ (if clockEnabled f then [] else [NormalizerTask]) ++ pipeline
    ++ [UplinkTask (resolveBOSAddr (bosAddr f) (bosIngressAddr f));
        EgressTask (resolveBOSAddr (bosAddr f) (bosEgressAddr f)) (clockEnabled f) (match src with Some _ => true | None => false end)]
    ++ catalog_tasks f ++ [AdminTask (admin_server f)] ++ (if devSim f then [DevSimTask (devSimInterval f)] else []).
Proof.
  unfold main. intros ([mode clock] & Ec & E)%result_bind_ok. apply result_bind_ok in E as (cmap & Em & E).
  destruct (Transport.ClientCredentials _ _) as [creds|]; [|discriminate].
  apply result_bind_ok in E as (_ & _ & E). destruct (sync_config f); [|discriminate].
  apply result_bind_ok in E as (src & Es & E). apply guard_bind_ok in E as [_ E].
  apply result_bind_ok in E as ([points fx] & Ep & E). do 3 apply guard_bind_ok in E as [_ E].
  apply result_bind_ok in E as (pipeline & Ei & E). apply guard_bind_ok in E as [_ E]. injection E as <-.
  by exists mode, clock, cmap, src, points, pipeline.
Qed.

(** With clock provisioning: what was accepted and what is started. *)
Lemma clock_main f p : main f = Ok p -> clockEnabled f = true -> exists spec scope c opts,
  loadClockSpec k (clockSpecFile f) = Ok spec /\
  scope = {| sc_GatewayID := gatewayID f; sc_ConnectorID := sp_ID spec; sc_DeviceID := clockDevice f |} /\
  ho_TLS opts = provTLS f /\ NewClockHTTPClient k parsed default_ok (provURL f) scope opts = Ok c /\ fixture p = None /\
  tasks p = [ClockWorkerTask spec scope; ClockSyncTask c (syncInterval f);
             UplinkTask (resolveBOSAddr (bosAddr f) (bosIngressAddr f));
             EgressTask (resolveBOSAddr (bosAddr f) (bosEgressAddr f)) true false; AdminTask (admin_server f)] /\
  sv_installer (admin_server f) = false.
Proof.
  intros (mode & clock & cmap & src & points & pipeline & Ec & _ & Es & Ep & Ei & Et)%main_ok Hc.
  apply check_settings_ok in Ec as (_ & Hv & Hk). destruct clock as [[[spec scope] c]|]; [|congruence].
  destruct Hk as (_ & Hl & Hs & opts & Ho & Hn). unfold select_source in Es. rewrite Hc in *. injection Es as <-.
  cbn in Ep. rewrite Hc in Ep. injection Ep as <- Hf. cbn in Ei. destruct (b_clock _ _ _ _ _); [|discriminate]. injection Ei as <-.
  unfold validateClockMode in Hv. cbn [negb orb] in Hv. apply negb_true_iff in Hv. repeat (apply orb_false_iff in Hv as [Hv ?]).
  exists spec, scope, c, opts. split_and!; try done.
  rewrite Et. unfold catalog_tasks. replace (devSim f) with false by done.
  destruct (_ || _) eqn:E; [congruence|done].
Qed.

(** Without it. *)
Lemma plain_main f p : main f = Ok p -> clockEnabled f = false -> exists mode cmap src points,
  resolveProvisioningMode (provMode f) (provURL f) (provFile f) = Ok mode /\ resolve_map f = Ok cmap /\
  select_source f mode cmap = Ok src /\ point_list_start f src = Ok (points, fixture p) /\
  tasks p = points ++ [NormalizerTask; PumpTask; FanOutTask; UplinkTask (resolveBOSAddr (bosAddr f) (bosIngressAddr f));
        EgressTask (resolveBOSAddr (bosAddr f) (bosEgressAddr f)) false (match src with Some _ => true | None => false end)]
    ++ catalog_tasks f ++ [AdminTask (admin_server f)] ++ (if devSim f then [DevSimTask (devSimInterval f)] else []).
Proof.
  intros (mode & clock & cmap & src & points & pipeline & Ec & Em & Es & Ep & Ei & Et)%main_ok Hc.
  apply check_settings_ok in Ec as (Hm & _ & Hk). destruct clock as [[[spec scope] c]|]; [by rewrite Hc in Hk; destruct Hk|].
  cbn in Ei. injection Ei as <-. rewrite Hc in Et. by exists mode, cmap, src, points.
Qed.

(** The start of the Point List is one sync loop or one fixture. *)
Lemma point_list_start_one f src points fx : clockEnabled f = false -> point_list_start f src = Ok (points, fx) ->
  (exists s, src = Some s /\ points = [SyncTask s (syncInterval f) (plPersist f)] /\ fx = None) \/
  (src = None /\ points = [] /\ exists es, fx = Some es).
Proof.
  intros Hc. unfold point_list_start. rewrite Hc. destruct src as [s|].
  - intros [= <- <-]. left. by exists s.
  - destruct (loadFixtureEntries _ _) as [es|]; [|discriminate]. intros [= <- <-]. right. by eauto.
Qed.
End Main.

(** ** Connector maps *)

(** What an entry denotes. *)
Definition binds (p key id : string) : Prop := exists a b,
  p = a +:+ ":" +:+ b /\ contains_byte a ":" = false /\ key = to_lower (trim_space a) /\ id = trim_space b /\ key <> "" /\ id <> "".

Lemma connector_pair_spec p key id : connector_pair p = Some (key, id) <-> binds p key id.
Proof.
  unfold connector_pair, binds. destruct (cut_byte ":" p) as [[a b]|] eqn:E.
  - pose proof (proj1 (cut_byte_spec _ _ _ _) E) as [-> Hc]. split.
    + case_if; [done|]. bools. intros [= <- <-]. exists a, b. split_and!; try done; by apply String.eqb_neq.
    + intros (a' & b' & Es & Ha & -> & -> & Hk & Hi).
      pose proof (proj2 (cut_byte_spec ":" _ a' b') (conj Es Ha)) as E'. rewrite E in E'. injection E' as <- <-.
      apply String.eqb_neq in Hk, Hi. by rewrite Hk, Hi.
  - split; [done|]. intros (a & b & Es & Ha & _). by rewrite (proj2 (cut_byte_spec ":" p a b) (conj Es Ha)) in E.
Qed.

(** The last entry of a key wins, over what the map held. *)
Definition last_binding (m : gmap string string) (l : list string) (key : string) : option string :=
  fold_left (fun acc p => match connector_pair p with Some (k, v) => if String.eqb k key then Some v else acc | None => acc end)
    l (m !! key).

Lemma connector_map_ok l : forall m m', connector_map m l = Ok m' ->
  Forall (fun p => is_Some (connector_pair p)) l /\ forall key, m' !! key = last_binding m l key.
Proof.
  induction l as [|p l IH]; intros m m'; cbn [connector_map]; [by intros [= <-]|].
  destruct (connector_pair p) as [[k v]|] eqn:E; [|done]. intros [Hl Hk]%IH. split; [by constructor; [rewrite E|]|].
  intros key. rewrite Hk. unfold last_binding. cbn [fold_left]. rewrite E. f_equal.
  destruct (String.eqb_spec k key) as [->|Hn]; [by rewrite lookup_insert_eq|by rewrite lookup_insert_ne].
Qed.

Lemma connector_map_err l : forall m e, connector_map m l = Err e ->
  exists pre post, l = pre ++ e :: post /\ Forall (fun p => is_Some (connector_pair p)) pre /\ connector_pair e = None.
Proof.
  induction l as [|p l IH]; intros m e; cbn [connector_map]; [done|].
  destruct (connector_pair p) as [[k v]|] eqn:E.
  - intros (pre & post & -> & Hp & He)%IH. exists (p :: pre), post. split_and!; [done|by constructor; [rewrite E|]|done].
  - intros [= <-]. by exists [], l.
Qed.

Lemma last_binding_spec l : forall m key id, Forall (fun p => is_Some (connector_pair p)) l ->
  last_binding m l key = Some id <->
  (exists pre p post, l = pre ++ p :: post /\ binds p key id /\ forall q id', q ∈ post -> ~ binds q key id') \/
  ((forall q id', q ∈ l -> ~ binds q key id') /\ m !! key = Some id).
Proof.
  induction l as [|p l IH] using rev_ind; intros m key id Hall.
  - cbn. split.
    + intros Hm. right. split; [|done]. intros q id' Hq. by apply not_elem_of_nil in Hq.
    + intros [(pre & p & post & E & _)|[_ Hm]]; [by destruct pre|done].
  - apply Forall_app in Hall as [Hl Hp]. apply Forall_singleton in Hp as [[k v] Hp].
    unfold last_binding. rewrite fold_left_app. cbn [fold_left]. rewrite Hp. fold (last_binding m l key).
    destruct (String.eqb_spec k key) as [->|Hn].
    + split.
      * intros [= <-]. left. exists l, p, []. split_and!; [done|by apply connector_pair_spec|]. intros q id' Hq. by apply not_elem_of_nil in Hq.
      * intros [(pre & q & post & E & Hb & Hpost)|[Hno _]].
        -- destruct post as [|z post _] using rev_ind.
           ++ apply app_inj_tail in E as [_ <-]. apply connector_pair_spec in Hb. congruence.
           ++ rewrite app_comm_cons, app_assoc in E. apply app_inj_tail in E as [_ <-]. exfalso. apply (Hpost p v); [set_solver|].
              by apply connector_pair_spec.
        -- exfalso. apply (Hno p v); [set_solver|]. by apply connector_pair_spec.
    + assert (forall id', ~ binds p key id') as Hnb by (intros id' Hb%connector_pair_spec; congruence).
      rewrite (IH m key id Hl). split.
      * intros [(pre & q & post & -> & Hb & Hpost)|[Hno Hm]].
        -- left. exists pre, q, (post ++ [p]). rewrite <- app_assoc. split_and!; [done|done|]. set_solver.
        -- right. split; [set_solver|done].
      * intros [(pre & q & post & E & Hb & Hpost)|[Hno Hm]].
        -- left. destruct post as [|z post _] using rev_ind; [apply app_inj_tail in E as [_ <-]; by destruct (Hnb id)|].
           rewrite app_comm_cons, app_assoc in E. apply app_inj_tail in E as [-> ->]. exists pre, q, post. set_solver.
        -- right. split; [set_solver|done].
Qed.

(** [parseConnectorMap] accepts exactly the strings whose non-empty
    comma-separated entries are all [protocol:connectorID] with both parts
    non-empty after trimming; the map then gives each lower-cased protocol the
    id of its last entry, and nothing else; otherwise the first malformed entry
    is the one reported. *)
Theorem parseConnectorMap_exact s :
  match parseConnectorMap s with
  | Ok m => forall key id, m !! key = Some id <->
      exists pre p post, splitComma s = pre ++ p :: post /\ binds p key id /\ forall q id', q ∈ post -> ~ binds q key id'
  | Err e => exists pre post, splitComma s = pre ++ e :: post /\ (forall q, q ∈ pre -> exists key id, binds q key id) /\
      forall key id, ~ binds e key id
  end.
Proof.
  unfold parseConnectorMap. destruct (connector_map _ _) as [m|e] eqn:E.
  - apply connector_map_ok in E as [Hall Hm]. intros key id. rewrite Hm, last_binding_spec by done. rewrite lookup_empty.
    split; [by intros [?|[_ ?]]|by left].
  - apply connector_map_err in E as (pre & post & -> & Hpre & He). exists pre, post. split_and!; [done| |].
    + intros q Hq. rewrite Forall_forall in Hpre. destruct (Hpre q Hq) as [[key id] Hb]. exists key, id. by apply connector_pair_spec.
    + intros key id Hb%connector_pair_spec. congruence.
Qed.

(** ** The clock connector's settings *)

Lemma clock_env_ok env : forall address r, clock_env address env = Some r ->
  Forall (fun e => exists key value, e = key +:+ "=" +:+ value /\ contains_byte key "=" = false /\
    ~ In key ["BACNET_POINTS"; "BACNET_CLOCK_CONFIG_FILE"; "BACNET_MANAGED_SESSION"]) env /\
  (r = true -> address = true \/ exists value, value <> "" /\ "BACNET_ADDRESS=" +:+ value ∈ env).
Proof.
  induction env as [|e env IH]; intros address r; cbn [clock_env]; [intros [= <-]; by auto|].
  destruct (cut_byte "=" e) as [[key value]|] eqn:E; [|done]. apply cut_byte_spec in E as [-> Hc].
  destruct (existsb _ _) eqn:Ex; [done|]. intros [Hall Hr]%IH. split.
  - constructor; [|done]. exists key, value. split_and!; try done. intros Hin.
    enough (existsb (String.eqb key) ["BACNET_POINTS"; "BACNET_CLOCK_CONFIG_FILE"; "BACNET_MANAGED_SESSION"] = true) by congruence.
    apply existsb_exists. exists key. by rewrite String.eqb_refl.
  - intros Ht. destruct (Hr Ht) as [Ha|(v & Hv & Hin)]; [|right; exists v; set_solver].
    apply orb_true_iff in Ha as [Ha|[Hk Hv]%andb_true_iff]; [by left|]. right. exists value.
    apply String.eqb_eq in Hk as ->. apply negb_true_iff, String.eqb_neq in Hv. split; [done|]. by left.
Qed.

Lemma loadClockSpec_ok {K} `{PKI K} `{Outside K} (k : K) path spec : loadClockSpec k path = Ok spec ->
  single_token (sp_ID spec) = true /\ pinned_image (sp_Image spec) = true /\ is_Some (ConnectorNATSAuthFile k spec) /\
  (exists value, value <> "" /\ "BACNET_ADDRESS=" +:+ value ∈ sp_Env spec) /\
  Forall (fun e => exists key value, e = key +:+ "=" +:+ value /\ contains_byte key "=" = false /\
    ~ In key ["BACNET_POINTS"; "BACNET_CLOCK_CONFIG_FILE"; "BACNET_MANAGED_SESSION"]) (sp_Env spec).
Proof.
  unfold loadClockSpec. destruct (read_file k path) as [data|]; [|done]. destruct (parse_prefix data) as [[v rest]|]; [|done].
  destruct (decode_struct _ _ _ _ _) as [s|]; [|done]. intros E. apply guard_bind_ok in E as [_ E].
  apply guard_bind_ok in E as [[Hi Hp]%andb_true_iff E]. destruct (clock_env _ _) as [address|] eqn:Ee; [|done].
  apply guard_bind_ok in E as [-> E]. destruct (ConnectorNATSAuthFile k s) eqn:En; [|done]. injection E as <-.
  apply clock_env_ok in Ee as [Hall Ha]. destruct (Ha eq_refl) as [|Ha']; [done|]. rewrite En. split_and!; by eauto.
Qed.

Lemma NewClockHTTPClient_ok {P} `{PKI P} (k : P) parsed dok url scope opts c :
  NewClockHTTPClient k parsed dok url scope opts = Ok c ->
  ch_scope c = scope /\ scope_ok scope = true /\ to_CertFile (ho_TLS opts) <> "" /\ to_KeyFile (ho_TLS opts) <> "" /\
  exists u, parsed = Some u /\ u_scheme u = "https".
Proof.
  unfold NewClockHTTPClient. destruct parsed as [u|]; [|done]. intros E. apply guard_bind_ok in E as [Hu E].
  apply guard_bind_ok in E as [Hs E]. apply guard_bind_ok in E as [[Hc Hk]%andb_true_iff E]. apply guard_bind_ok in E as [_ E].
  destruct (NewHTTPClient _ _ _ _ _ _ _ _) as [l|]; [|done]. injection E as <-.
  apply negb_true_iff, String.eqb_neq in Hc, Hk. repeat (apply andb_true_iff in Hu as [Hu ?]). apply String.eqb_eq in Hu.
  split_and!; by eauto.
Qed.

(** ** What a started process runs *)

Section Started.
  Context {K L : Type} `{PKI K} `{Outside K} `{Boot K}.
  Context (k : K) (parsed : option parsed_url) (default_ok : bool) (dial : option Transport.tls_config -> L).

Lemma filter_tail (q : task (L := L) -> bool) f :
  (forall h v l i, q (UpdaterTask h v l i) = false) -> (forall sv, q (AdminTask sv) = false) -> (forall i, q (DevSimTask i) = false) ->
  List.filter q (catalog_tasks f ++ [AdminTask (admin_server f)] ++ (if devSim f then [DevSimTask (devSimInterval f)] else [])) = [].
Proof.
  intros Hu Ha Hd. rewrite !List.filter_app. cbn [List.filter]. rewrite Ha. unfold catalog_tasks.
  destruct (_ || _); cbn [List.filter]; rewrite ?Hu; destruct (devSim f); cbn [List.filter]; by rewrite ?Hd.
Qed.

Lemma filter_untracked f :
  List.filter (fun t => uses_buffer (L := L) t && negb (tracked t))
    (catalog_tasks f ++ [AdminTask (admin_server f)] ++ (if devSim f then [DevSimTask (devSimInterval f)] else [])) = [AdminTask (admin_server f)].
Proof. rewrite !List.filter_app. unfold catalog_tasks. by destruct (_ || _), (devSim f). Qed.

(** C22: a process that starts has exactly one goroutine appending to the
    store-and-forward buffer, the pump or the clock worker, exactly one that
    forwards from it and acknowledges, the uplink, and one that reads its counters,
    the Admin API, which is the only user of the buffer outside the wait group of
    the pipeline; and the Point List has exactly one origin: one goroutine
    replacing it, or the fixture loaded at start. *)
Theorem one_writer f p : main k parsed default_ok dial f = Ok p ->
  length (List.filter appends (tasks p)) = 1%nat /\ length (List.filter forwards (tasks p)) = 1%nat /\
  (exists sv, List.filter (fun t => uses_buffer t && negb (tracked t)) (tasks p) = [AdminTask sv]) /\
  (length (List.filter replaces_points (tasks p)) + (match fixture p with Some _ => 1 | None => 0 end) = 1)%nat.
Proof.
  intros E. destruct (clockEnabled f) eqn:Hc.
  - destruct (clock_main _ _ _ _ _ _ E Hc) as (? & ? & ? & ? & _ & _ & _ & _ & Hf & Ht & _). rewrite Hf, Ht. split_and!; [done..|by eexists|done].
  - destruct (plain_main _ _ _ _ _ _ E Hc) as (mode & cmap & src & points & _ & _ & _ & Hp & Ht).
    pose proof (filter_untracked f) as Hu. pose proof (fun q => filter_tail q f) as Hq.
    set (tl := catalog_tasks f ++ _) in *. rewrite Ht. change (?a :: ?b :: ?c :: ?d :: ?e :: tl) with ([a; b; c; d; e] ++ tl).
    destruct (point_list_start_one _ _ _ _ _ Hc Hp) as [(s & -> & -> & ->)|(-> & -> & es & ->)]; rewrite !List.filter_app, Hu, !Hq by done;
      (split_and!; [done..|by eexists|done]).
Qed.

(** C8: a process that starts with clock provisioning runs no legacy part: no
    sync loop, fixture, normalizer, pump, catalog updater, in-process simulator
    or MQTT subscription sync.  Its one managed connector has a single-token id,
    a digest-pinned image, an explicit address and no static points; its client
    speaks HTTPS with a client certificate for this gateway, connector and
    device; and every command passes the admission gate. *)
Theorem clock_excludes_legacy f p : main k parsed default_ok dial f = Ok p -> clockEnabled f = true ->
  (forall t, In t (tasks p) -> legacy t = false) /\ fixture p = None /\
  (forall sv, In (AdminTask sv) (tasks p) -> sv_mqttSync sv = false /\ sv_installer sv = false /\ sv_clock sv = true) /\
  (forall addr admission revisions, In (EgressTask addr admission revisions) (tasks p) -> admission = true /\ revisions = false) /\
  exists spec c, List.filter appends (tasks p) = [ClockWorkerTask spec (ch_scope c)] /\
    List.filter replaces_points (tasks p) = [ClockSyncTask c (syncInterval f)] /\
    ch_scope c = {| sc_GatewayID := gatewayID f; sc_ConnectorID := sp_ID spec; sc_DeviceID := clockDevice f |} /\
    scope_ok (ch_scope c) = true /\ to_CertFile (provTLS f) <> "" /\ to_KeyFile (provTLS f) <> "" /\
    (exists u, parsed = Some u /\ u_scheme u = "https") /\
    single_token (sp_ID spec) = true /\ pinned_image (sp_Image spec) = true /\ is_Some (ConnectorNATSAuthFile k spec) /\
    (exists value, value <> "" /\ "BACNET_ADDRESS=" +:+ value ∈ sp_Env spec) /\
    Forall (fun e => exists key value, e = key +:+ "=" +:+ value /\ contains_byte key "=" = false /\
      ~ In key ["BACNET_POINTS"; "BACNET_CLOCK_CONFIG_FILE"; "BACNET_MANAGED_SESSION"]) (sp_Env spec).
Proof.
  intros E Hc. destruct (clock_main _ _ _ _ _ _ E Hc) as (spec & scope & c & opts & Hl & Hs & Ho & Hn & Hf & Ht & Hi).
  apply NewClockHTTPClient_ok in Hn as (Hsc & Hok & Hcert & Hkey & Hu). rewrite Ho in Hcert, Hkey.
  apply loadClockSpec_ok in Hl. rewrite Ht. split_and!; [|done| | |].
  - intros t Hin. repeat destruct Hin as [<-|Hin]; done.
  - intros sv Hin. repeat destruct Hin as [[=]|Hin]; [subst sv|done]. cbn. rewrite Hc. by split_and!.
  - intros ??? Hin. by repeat destruct Hin as [[=]|Hin].
  - exists spec, c. rewrite Hsc. subst scope. by destruct Hl as (? & ? & ? & ? & ?); split_and!.
Qed.

(** The clients, by the endpoint or path they read. *)
Lemma newProvHTTPClient_ok f cmap c : newProvHTTPClient k parsed default_ok dial f cmap = Ok c ->
  baseURL c = provURL f /\ hc_gatewayID c = gatewayID f /\ hc_connectorMap c = cmap /\ fallbackConnectorID c = provConnID f.
Proof.
  unfold newProvHTTPClient, NewHTTPClient. destruct (configured _); [|by intros [= <-]].
  destruct (option_map _ _) as [s|]; [|done]. destruct (negb _); [done|]. destruct (Transport.TLSConfig _ _); [|done].
  destruct default_ok; [by intros [= <-]|done].
Qed.

Lemma newProvFileClient_ok f cmap c : newProvFileClient k f cmap = Ok c ->
  c = {| fc_path := provFile f; fc_connectorID := provConnID f; fc_connectorMap := cmap |}.
Proof. unfold newProvFileClient. by destruct (b_stat _ _) as [[]|]; intros [= <-]. Qed.

Lemma resolve_map_nonempty f cmap : resolve_map f = Ok cmap -> cmap <> ∅.
Proof.
  unfold resolve_map. destruct (parseConnectorMap _) as [m|]; [|done]. destruct (decide _); intros [= <-]; [|done].
  apply insert_non_empty.
Qed.

(** Which endpoint and which file a source reads. *)
Definition reads (s : source (L := L)) : option string * option string :=
  match s with
  | FromHTTP c => (Some (baseURL c), None)
  | FromFile c => (None, Some (fc_path c))
  | FromFallback b => (Some (baseURL (primary b)), Some (fc_path (secondary b)))
  end.
Definition source_maps (s : source (L := L)) : list (gmap string string) :=
  match s with
  | FromHTTP c => [hc_connectorMap c]
  | FromFile c => [fc_connectorMap c]
  | FromFallback b => [hc_connectorMap (primary b); fc_connectorMap (secondary b)]
  end.

Lemma select_source_reads f mode cmap s : select_source k parsed default_ok dial f mode cmap = Ok (Some s) ->
  clockEnabled f = false /\ Forall (eq cmap) (source_maps s) /\
  reads s = match mode with
            | ModeFile => (None, Some (provFile f))
            | ModeURL => (Some (provURL f), None)
            | ModeFallback => (Some (provURL f), Some (provFile f))
            | ModeAuto => if String.eqb (provURL f) "" then (None, Some (provFile f)) else (Some (provURL f), None)
            end /\
  (mode = ModeAuto -> provURL f = "" -> provFile f <> "").
Proof.
  unfold select_source. destruct (clockEnabled f); [done|]. intros E. split; [done|]. apply Logic.and_assoc. revert E.
  assert (forall r, (let! c := newProvHTTPClient k parsed default_ok dial f cmap in Ok (Some (FromHTTP c))) = Ok (Some r) ->
    Forall (eq cmap) (source_maps r) /\ reads r = (Some (provURL f), None)) as Hh
    by (intros r (c & (<- & _ & <- & _)%newProvHTTPClient_ok & [= <-])%result_bind_ok; by repeat constructor).
  assert (forall r, (let! c := newProvFileClient k f cmap in Ok (Some (FromFile (L := L) c))) = Ok (Some r) ->
    Forall (eq cmap) (source_maps r) /\ reads r = (None, Some (provFile f))) as Hf
    by (intros r (c & ->%newProvFileClient_ok & [= <-])%result_bind_ok; by repeat constructor).
  destruct mode; intros E; (split; [revert E|]); try discriminate; auto.
  - destruct (String.eqb (provURL f) ""); cbn [negb]; auto. destruct (String.eqb (provFile f) ""); cbn [negb]; auto; discriminate.
  - intros _ Hu Hp. rewrite Hu, Hp in E. discriminate.
  - intros (c & (<- & _ & <- & _)%newProvHTTPClient_ok & E)%result_bind_ok. apply result_bind_ok in E as (d & ->%newProvFileClient_ok & [= <-]).
    by repeat constructor.
Qed.

Lemma main_interval f p : main k parsed default_ok dial f = Ok p -> 0 < syncInterval f.
Proof.
  intros (mode & clock & cmap & src & points & pipeline & E & _)%main_ok. unfold check_settings in E.
  apply guard_bind_ok in E as [_ E]. apply guard_bind_ok in E as [Hi _]. by bools.
Qed.

Lemma no_sync_tail f (s : source (L := L)) i q x y b c :
  ~ In (SyncTask s i q) ([NormalizerTask; PumpTask; FanOutTask; UplinkTask x; EgressTask y b c] ++ catalog_tasks f
      ++ [AdminTask (admin_server f)] ++ (if devSim f then [DevSimTask (devSimInterval f)] else [])).
Proof.
  rewrite !in_app_iff. unfold catalog_tasks. destruct (_ || _), (devSim f); cbn; intuition discriminate.
Qed.

(** The four modes. *)
Lemma resolve_mode_ok mode url file m : resolveProvisioningMode mode url file = Ok m ->
  (m = ModeFile /\ to_lower (trim_space mode) = "file" \/ m = ModeURL /\ to_lower (trim_space mode) = "url" \/
   m = ModeFallback /\ to_lower (trim_space mode) = "fallback" \/ m = ModeAuto /\ to_lower (trim_space mode) = "") /\
  In (to_lower (trim_space mode)) [""; "file"; "url"; "fallback"] /\
  (m = ModeFile \/ m = ModeFallback -> file <> "") /\ (m = ModeURL \/ m = ModeFallback -> url <> "").
Proof.
  unfold resolveProvisioningMode. generalize (to_lower (trim_space mode)). intros t.
  destruct (String.eqb_spec t ""), (String.eqb_spec t "file"), (String.eqb_spec t "url"), (String.eqb_spec t "fallback"),
    (String.eqb_spec file ""), (String.eqb_spec url ""); subst; try done; cbn [orb]; intros [= <-]; split_and!; cbn; tauto || naive_solver.
Qed.

(** the provisioning mode pins what the sync loop of a started process
    reads: [file] never dials the URL, [url] never opens the file, [fallback]
    has both, and the default prefers the URL; a mode other than these four
    never starts; and every source carries a non-empty connector map. *)
Theorem source_pinned f p s interval persist : main k parsed default_ok dial f = Ok p ->
  In (SyncTask s interval persist) (tasks p) ->
  reads s = (let m := to_lower (trim_space (provMode f)) in
             if String.eqb m "file" then (None, Some (provFile f))
             else if String.eqb m "url" then (Some (provURL f), None)
             else if String.eqb m "fallback" then (Some (provURL f), Some (provFile f))
             else if String.eqb (provURL f) "" then (None, Some (provFile f)) else (Some (provURL f), None)) /\
  In (to_lower (trim_space (provMode f))) [""; "file"; "url"; "fallback"] /\
  (reads s).1 <> Some "" /\ (reads s).2 <> Some "" /\
  0 < interval /\ persist = plPersist f /\ Forall (fun m => m <> ∅) (source_maps s).
Proof.
  intros E Hin. assert (clockEnabled f = false) as Hc.
  { destruct (clockEnabled f) eqn:Hc; [|done]. destruct (clock_main _ _ _ _ _ _ E Hc) as (? & ? & ? & ? & _ & _ & _ & _ & _ & Ht & _).
    rewrite Ht in Hin. by repeat destruct Hin as [[=]|Hin]. }
  pose proof (main_interval _ _ E) as Hi.
  destruct (plain_main _ _ _ _ _ _ E Hc) as (mode & cmap & src & points & Hm & Hcm & Hs & Hp & Ht). rewrite Ht in Hin.
  assert (src = Some s /\ interval = syncInterval f /\ persist = plPersist f) as (-> & -> & ->).
  { destruct (point_list_start_one _ _ _ _ _ Hc Hp) as [(s' & -> & -> & _)|(-> & -> & _)].
    - destruct Hin as [[= -> -> ->]|Hin]; [done|]. by destruct (no_sync_tail _ _ _ _ _ _ _ _ Hin).
    - by destruct (no_sync_tail _ _ _ _ _ _ _ _ Hin). }
  apply select_source_reads in Hs as (_ & Hmaps & Hr & Ha). apply resolve_map_nonempty in Hcm.
  destruct (resolve_mode_ok _ _ _ _ Hm) as (Hmode & Hin' & Hfile & Hurl). split_and!; try done; rewrite ?Hr.
  - destruct Hmode as [[-> ->]|[[-> ->]|[[-> ->]|[-> ->]]]]; done.
  - destruct mode; cbn [fst]; try done; [destruct (String.eqb_spec (provURL f) "") as [|Hn]; [done|]; by intros [= Hx]|..];
      intros [= Hx]; apply Hurl; auto.
  - destruct mode; cbn [snd]; try done; [destruct (String.eqb_spec (provURL f) "") as [Hu|]; [|done]; intros [= Hx]; by apply Ha|..];
      intros [= Hx]; apply Hfile; auto.
  - eapply Forall_impl; [exact Hmaps|]. by intros ? <-.
Qed.
End Started.

(** A host with a key pair, a connector spec and a fixture. *)
Module GatewayMainExample.

Definition host : Type := list (string * string).
#[local] Instance host_pki : PKI host := TransportExample.disk.
#[local] Instance host_outside : Outside host := {|
  k_ended := fun _ => false; k_ask := fun k _ => (k, None); k_idle := fun k => (k, true); k_polls := fun k => (k, []);
  k_stopping := fun k => (k, false); k_write := fun k => (k, RunLedger.DiskOk); k_random := fun k => (k, None);
  k_now := fun k => (k, RunLedger.zero_time);
  k_url := fun _ s => Some {| su_scheme := "nats"; su_host := s; su_user := false; su_query := ""; su_fragment := "" |};
  k_regular := fun _ _ => true
|}.
#[local] Instance host_boot : Boot host := {|
  b_nats := fun _ _ _ => true; b_jetstream := fun _ => true; b_stream := fun _ _ _ => true; b_mkdir := fun _ _ => true;
  b_stat := fun k p => option_map (fun _ => true) (read_file k p); b_buffer := fun _ _ _ => true;
  b_normalizer := fun _ => true; b_clock := fun _ _ _ _ _ => true; b_uplink := fun _ _ => true
|}.

Definition spec_text : string := marshal (JObj [("ID", JStr "bacnet-01");
  ("Image", JStr ("ghcr.io/x/bacnet@sha256:" +:+ join "" (replicate 64 "a")));
  ("Env", JArr [JStr "BACNET_ADDRESS=10.0.0.2/24"; JStr "NATS_URL=nats://n:4222"; JStr "NATS_AUTH_FILE=/run/auth"])]).
Definition files : host :=
  [("gw.crt", "C"); ("gw.key", "K"); ("spec.json", spec_text); ("fixture.json", "[]"); ("points.csv", "point_id")].

Definition url : parsed_url := {| u_scheme := "https"; u_host := "bos"; u_user := false; u_query := ""; u_fragment := "" |}.
Definition no_tls : Transport.Config :=
  {| Transport.Insecure := true; Transport.CAFile := ""; Transport.CertFile := ""; Transport.KeyFile := ""; Transport.ServerName := "" |}.
Definition plain : settings := {|
  natsURL := "nats://n:4222"; bosAddr := "bos:50051"; bosIngressAddr := ""; bosEgressAddr := "bos:50052"; gatewayID := "gw-001";
  jwksURL := ""; adminAudience := "account"; adminIssuer := ""; plFile := "fixture.json"; plPersist := "data/pl.json";
  provURL := ""; provFile := ""; provMode := ""; provConnID := "bacnet-01";
  provTLS := {| to_CAFile := ""; to_CertFile := "gw.crt"; to_KeyFile := "gw.key"; to_ServerName := "" |};
  clockEnabled := false; clockRunContext := ""; clockSpecFile := "spec.json"; clockStateDir := "/state"; clockDevice := 7;
  clockTimeout := 15 * second; connectorMapStr := "BACnet:bacnet-01, opcua:opcua-01,"; sfDB := "data/sf.db"; sfCap := 100000;
  devSim := false; devSimInterval := 60 * second; allowAdhocUpgrade := false; syncInterval := 600 * second;
  mqttSyncSubQoS := "{}"; mqttSyncCmdQoS := "{}"; healthThresholds := DefaultThresholds; bosTLS := no_tls; catalogFile := "";
  catalogURL := ""; catalogAllowlist := "ghcr.io"; catalogPollInterval := 600 * second; cosignKey := ""; cosignIdentity := "";
  cosignOIDCIssuer := ""; eventsMaxAge := 48 * 3600 * second; eventsMaxBytes := 2 ^ 31
|}.
Definition managed : settings := {| plain with clockEnabled := true; provURL := "https://bos" |}.
Definition pinned : settings := {| plain with provMode := " File "; provURL := "https://bos"; provFile := "points.csv" |}.

Abbreviation run f := (main files (Some url) true (fun _ => tt) f).

Example plain_starts : match run plain with Ok p => length (tasks p) = 6%nat /\ fixture p = Some [] | Err _ => False end.
Proof. vm_compute. split; reflexivity. Qed.

Lemma one_writer_witness : exists p, run managed = Ok p /\ length (List.filter appends (tasks p)) = 1%nat.
Proof.
  destruct (run managed) as [p|e] eqn:E; [|vm_compute in E; discriminate]. exists p. split; [reflexivity|].
  exact (proj1 (one_writer files (Some url) true (fun _ => tt) managed p E)).
Defined.

Lemma clock_excludes_legacy_witness : exists p, run managed = Ok p /\ fixture p = None.
Proof.
  destruct (run managed) as [p|e] eqn:E; [|vm_compute in E; discriminate]. exists p. split; [reflexivity|].
  exact (proj1 (proj2 (clock_excludes_legacy files (Some url) true (fun _ => tt) managed p E eq_refl))).
Defined.

Lemma source_pinned_witness : exists p s, run pinned = Ok p /\ reads s = (None, Some "points.csv") /\
  In (SyncTask s (600 * second) "data/pl.json") (tasks p).
Proof.
  destruct (run pinned) as [p|e] eqn:E; [|vm_compute in E; discriminate].
  pose (s := FromFile (L := unit) {| fc_path := "points.csv"; fc_connectorID := "bacnet-01";
    fc_connectorMap := {["bacnet" := "bacnet-01"; "opcua" := "opcua-01"]} |}).
  assert (In (SyncTask s (600 * second) "data/pl.json") (tasks p)) as Hin by (vm_compute in E; injection E as <-; left; reflexivity).
  exists p, s. split; [reflexivity|]. split; [|exact Hin].
  exact (proj1 (source_pinned files (Some url) true (fun _ => tt) pinned p s _ _ E Hin)).
Defined.
End GatewayMainExample.
