(* ===== verification/Shutdown.v ===== *)
(** * The end of the gateway process

    The last part of [main] in [src/cmd/gateway/main.go]: what happens in which
    order, and when, from the signal to the closing of the buffer, for the
    process [GatewayMain] starts.  How long each part of the process takes to end
    is an argument.

    The theorem: the buffer is closed once, within a bound of the signal, after
    everything that uses it is through with it, or after the grace period of the
    pipeline, or of the Admin API's requests, was given in full.  The examples are
    a shutdown that takes longer than the ten seconds of a container stop, and a
    request that is still open when the buffer is closed. *)

From Stdlib Require Import ZArith Lia Bool Ascii String List.
From stdpp Require Import base list strings gmap.
From S2P Require Import Prelude Json GoText PointList Provisioning Transport ClockConfig Lifecycle AdminApi GatewayMain.
#[local] Open Scope string_scope.
#[local] Open Scope list_scope.
#[local] Open Scope Z_scope.

Definition seconds (n : Z) : Z := n * 1000000000.
Definition shutdownGrace : Z := seconds 6.
Definition adminGrace : Z := seconds 5.

Inductive stop_action :=
  RequestStopped | Cancelled | SyncAwaited (ended : bool) | Leased | WorkerCancelled | HTTPStopped (clean : bool) | AdminStopped
| PipelineAwaited (ended : bool) | BufferClosed.

Section Shutdown.
  Context {L : Type}.

(** How the parts of a process take their end: when the clock's sync loop has
    ended, how long the producer's stop takes under the lease, how long the open
    requests take, when each goroutine has ended; [None] is never. *)
Record ending := { e_sync : option Z; e_lease : Z; e_http : Z; e_task : task (L := L) -> option Z }.

Definition before (at_ : option Z) (deadline : Z) : bool := match at_ with Some t => t <=? deadline | None => false end.
(** The end of a wait that starts at [now]. *)
Definition waited (now : Z) (at_ : option Z) (deadline : Z) : Z :=
  match at_ with Some t => Z.max now (Z.min t deadline) | None => Z.max now deadline end.

(** When a wait group that is waited for from [now] on is empty. *)
Fixpoint group_done (now : Z) (ends : list (option Z)) : option Z :=
  match ends with
  | [] => Some now
  | None :: _ => None
  | Some t :: rest => option_map (Z.max t) (group_done now rest)
  end.

(** The clock's part: the time it ends and what it did. *)
Definition stop_clock (timeout now : Z) (e : ending) : Z * list (Z * stop_action) :=
  let deadline := now + i64 (3 * timeout) in
  let t1 := waited now (e_sync e) deadline in
  let t2 := t1 + e_lease e in
  (t2, [(t1, SyncAwaited (before (e_sync e) deadline)); (t2, Leased); (t2, WorkerCancelled)]).

(** [main] from the signal, at [now], on. *)
Definition shutdown (f : settings) (p : process (L := L)) (now : Z) (e : ending) : list (Z * stop_action) :=
  let '(t, clock) := if clockEnabled f then stop_clock (clockTimeout f) now e else (now, []) in
  let t3 := t + Z.min (e_http e) adminGrace in
  let group := group_done t3 (map (e_task e) (List.filter tracked (tasks p))) in
  let t4 := waited t3 group (t3 + shutdownGrace) in
  (if clockEnabled f then [(now, RequestStopped)] else []) ++ [(now, Cancelled)] ++ clock
  ++ [(t3, HTTPStopped (e_http e <=? adminGrace)); (t3, AdminStopped);
      (t4, PipelineAwaited (before group (t3 + shutdownGrace))); (t4, BufferClosed)].

(** Times never go back. *)
Fixpoint in_order (l : list (Z * stop_action)) : Prop :=
  match l with (a, _) :: (((b, _) :: _) as rest) => a <= b /\ in_order rest | _ => True end.

(** When the clock's part is over. *)
Definition clock_over (f : settings) (now : Z) (e : ending) : Z :=
  if clockEnabled f then fst (stop_clock (clockTimeout f) now e) else now.

Lemma waited_from now at_ d : now <= waited now at_ d.
Proof. unfold waited. destruct at_; lia. Qed.
Lemma waited_by now at_ d : now <= d -> waited now at_ d <= d.
Proof. unfold waited. destruct at_; lia. Qed.

Lemma group_done_all now ends w : group_done now ends = Some w -> Forall (fun o => exists t, o = Some t /\ t <= w) ends.
Proof.
  revert w. induction ends as [|[t|] ends IH]; intros w; cbn [group_done]; [constructor| |done].
  destruct (group_done now ends) as [v|]; [|done]. intros [= <-]. constructor; [exists t; split; [done|lia]|].
  eapply Forall_impl; [by apply IH|]. intros o (u & -> & Hu). exists u. split; [done|lia].
Qed.

(** A wait that found the group empty ended after each of its tasks. *)
Lemma awaited_users p now d e : now <= d ->
  let group := group_done now (map (e_task e) (List.filter tracked (tasks p))) in
  if before group d then forall t, In t (tasks p) -> tracked t = true -> exists x, e_task e t = Some x /\ x <= waited now group d
  else waited now group d = d.
Proof.
  intros Hd. cbv zeta. destruct (group_done _ _) as [w|] eqn:E; cbn [before waited]; [|lia].
  destruct (Z.leb_spec w d); [|lia]. intros t Hi Hu. apply group_done_all in E. rewrite Forall_forall in E.
  destruct (E (e_task e t)) as (x & Ex & Hx); [|exists x; split; [done|lia]].
  apply list_elem_of_In, in_map, filter_In. done.
Qed.

(** When a part of the process has touched the buffer for the last time: the
    Admin API when its open requests are over, a goroutine when it has ended. *)
Definition done_at (f : settings) (now : Z) (e : ending) (t : task (L := L)) : option Z :=
  match t with AdminTask _ => Some (clock_over f now e + e_http e) | _ => e_task e t end.

Definition awaited_from (f : settings) (now : Z) (e : ending) : Z := clock_over f now e + Z.min (e_http e) adminGrace.

Lemma clock_over_bounds f now e : 0 <= e_lease e ->
  now <= clock_over f now e <= now + (if clockEnabled f then Z.max 0 (i64 (3 * clockTimeout f)) + e_lease e else 0).
Proof.
  intros Hl. unfold clock_over, stop_clock. destruct (clockEnabled f); cbn [fst]; [|lia].
  unfold waited. destruct (e_sync e); lia.
Qed.

(** C23: from the signal on, the steps of the shutdown follow each other in time;
    the buffer is closed exactly once, as the last of them, at most eleven
    seconds after the clock's part is over, which itself is bounded by its
    timeout and the stop of its producer.  When it is closed, every part of the
    process that uses it is through with it, with two exceptions: a goroutine of
    the pipeline group after the whole grace period was given to the group, and the
    Admin API, which the group does not hold, after its open requests were given
    all of their own five seconds. *)
Theorem close_awaits_users f (p : process (L := L)) now e : 0 <= e_lease e -> 0 <= e_http e ->
  in_order (shutdown f p now e) /\
  exists pre h clean c ended,
    shutdown f p now e = pre ++ [(h, HTTPStopped clean); (h, AdminStopped); (c, PipelineAwaited ended); (c, BufferClosed)] /\
    (forall t, ~ In (t, BufferClosed) pre) /\
    c <= now + (if clockEnabled f then Z.max 0 (i64 (3 * clockTimeout f)) + e_lease e else 0) + adminGrace + shutdownGrace /\
    forall t, In t (tasks p) -> uses_buffer t = true ->
      (exists x, done_at f now e t = Some x /\ x <= c) \/
      (tracked t = true /\ ended = false /\ c = h + shutdownGrace) \/
      (tracked t = false /\ clean = false /\ h = clock_over f now e + adminGrace).
Proof.
  intros Hl Hh. pose proof (clock_over_bounds f now e Hl) as Hc.
  pose proof (awaited_users p (awaited_from f now e) (awaited_from f now e + shutdownGrace) e ltac:(unfold shutdownGrace, seconds; lia)) as Hu.
  cbv zeta in Hu. set (group := group_done _ _) in Hu.
  pose proof (waited_from (awaited_from f now e) group (awaited_from f now e + shutdownGrace)) as H1.
  pose proof (waited_by (awaited_from f now e) group (awaited_from f now e + shutdownGrace) ltac:(unfold shutdownGrace, seconds; lia)) as H2.
  pose proof (waited_from now (e_sync e) (now + i64 (3 * clockTimeout f))) as H3.
  assert (0 <= Z.min (e_http e) adminGrace <= adminGrace) as H4 by (unfold adminGrace, seconds; lia).
  assert (forall t, In t (tasks p) -> uses_buffer t = true ->
    (exists x, done_at f now e t = Some x /\ x <= waited (awaited_from f now e) group (awaited_from f now e + shutdownGrace)) \/
    (tracked t = true /\ before group (awaited_from f now e + shutdownGrace) = false /\
     waited (awaited_from f now e) group (awaited_from f now e + shutdownGrace) = awaited_from f now e + shutdownGrace) \/
    (tracked t = false /\ (e_http e <=? adminGrace) = false /\ awaited_from f now e = clock_over f now e + adminGrace)) as Hall.
  { intros t Hin Hus. destruct (tracked t) eqn:Et.
    - destruct (before group _); [left|by right; left]. destruct (Hu t Hin Et) as (x & Ex & Hx). exists x. split; [by destruct t|done].
    - destruct t; try done. cbn [done_at]. unfold awaited_from in *. destruct (Z.leb_spec (e_http e) adminGrace) as [Hle|Hgt].
      + left. eexists. split; [reflexivity|]. rewrite Z.min_l in * by done. done.
      + right. right. rewrite Z.min_r by lia. done. }
  clear Hu. subst group. unfold shutdown, awaited_from, clock_over, stop_clock in *. destruct (clockEnabled f); cbn [fst] in *.
  - split; [cbn [in_order app]; split_and!; lia || done|]. eexists [_; _; _; _; _], _, _, _, _. split; [reflexivity|].
    split; [cbn; intuition congruence|]. split; [lia|exact Hall].
  - split; [cbn [in_order app]; split_and!; lia || done|]. eexists [_], _, _, _, _. split; [reflexivity|].
    split; [cbn; intuition congruence|]. split; [lia|exact Hall].
Qed.
End Shutdown.

(** ** Examples *)

Module ShutdownExample.
Import GatewayMainExample.
#[local] Existing Instances host_pki host_outside host_boot.

(** A request that stays open and a goroutine that never ends. *)
Definition stuck : ending (L := unit) := {| e_sync := None; e_lease := 0; e_http := seconds 60; e_task := fun _ => None |}.
Definition prompt : ending (L := unit) := {| e_sync := Some 0; e_lease := 0; e_http := 0; e_task := fun _ => Some (seconds 1) |}.

(** Without clock provisioning a shutdown may take longer than ten seconds. *)
Example exceeds_stop_window :
  match run plain with
  | Ok p => exists pre, shutdown plain p 0 stuck = pre ++ [(seconds 11, PipelineAwaited false); (seconds 11, BufferClosed)]
  | Err _ => False
  end.
Proof. vm_compute. eexists [_; _; _]. reflexivity. Qed.

(** The pipeline has ended, but the buffer is closed under a request that is
    still open. *)
Definition slow_request : ending (L := unit) := {| e_sync := Some 0; e_lease := 0; e_http := seconds 60; e_task := fun _ => Some (seconds 1) |}.
Example closed_under_request :
  match run plain with
  | Ok p => exists pre sv, shutdown plain p 0 slow_request = pre ++ [(seconds 5, PipelineAwaited true); (seconds 5, BufferClosed)] /\
      In (AdminTask sv) (tasks p) /\ uses_buffer (L := unit) (AdminTask sv) = true /\ done_at plain 0 slow_request (AdminTask sv) = Some (seconds 60)
  | Err _ => False
  end.
Proof. vm_compute. eexists [_; _; _], _. split; [reflexivity|]. split; [do 5 right; left; reflexivity|]. split; reflexivity. Qed.

Lemma close_awaits_users_witness : exists p, run managed = Ok p /\ in_order (shutdown managed p 0 prompt) /\
  In (seconds 1, BufferClosed) (shutdown managed p 0 prompt).
Proof.
  destruct (run managed) as [p|e] eqn:E; [|vm_compute in E; discriminate]. exists p. split; [reflexivity|].
  split; [|vm_compute in E; injection E as <-; vm_compute; tauto].
  refine (proj1 (close_awaits_users managed p 0 prompt _ _)); vm_compute; discriminate.
Defined.
End ShutdownExample.
